(* ===== verification/_CoqProject ===== *)
-Q . S2P
Prelude.v
Params.v
Bytes.v
Spinlock.v
Str.v
Printf.v
Pipe.v
Kalloc.v
Vm.v
VmTable.v
VmSpace.v
VmGrow.v
VmCopy.v
VmUser.v
VmDemo.v
Args.v
Grep.v
Umalloc.v
Sleeplock.v
Block.v
Bio.v
Log.v
LogShare.v
Tx.v
Fs.v
File.v
SysFile.v
Sh.v
ShParse.v
ShPrint.v
ShRun.v
FsBlock.v
FsInode.v
FsFile.v
FsRw.v
FsTrunc.v
FsDir.v
FsPath.v
FileRw.v
Exec.v
ExecMem.v
ExecLoad.v
FsDemo.v
ExecDemo.v
ProcDefs.v
StateList.v
Proc.v
ProcInv.v
ProcWake.v
ProcOps.v
ProcFork.v
ProcExit.v
ProcWait.v
ProcSched.v
ProcBoot.v
Demo.v
ProcTable.v
ProcProps.v
ProcLife.v
ProcSleep.v
ProcEquiv.v
Syscall.v
