(* ===== verification/Prelude.v ===== *)
(** * xv6 (Portland State CS333 variant): verification development

    xv6 is a small Unix-like kernel for 32-bit x86 with its user programs.  This
    library translates the kernel's process, file system and memory code, and
    some of the user programs, to Rocq definitions and proves what they do.  The
    configuration is the one of the Makefile (CS333_PROJECT = 4); the
    table-scanning variants of proc.c that a smaller CS333_PROJECT selects are
    modelled too.

    ** How code is modelled

    A routine is a computation of [M S A] (this file): a function from a state to
    an outcome.  An outcome is a return, a call of [panic] with its message, a
    fault (undefined behaviour of C), a spin on a lock that is held (on the
    processor that executes nobody can release it), a stall (a loop bound ran
    out), or a switch to another process with the rest of the routine as a
    function of the state at resumption.  What a routine does between two switches
    is a function; what others do meanwhile is a relation ([rely] of a protocol
    [prot]).  [wp P m s Q] says that [m] from [s] tolerates what [P] allows and
    returns only with [Q]; under [strict] it says that [m] returns ([wp_strict]).
    A 32-bit integer is a [Z] with the wrap-around written out ([u32], [s32]),
    memory and disk blocks are lists of bytes, a C pointer to an element of a
    kernel table is its index, a null pointer is [None].

    A loop whose C text has no bound is [mwhile] with fuel.  The fuel is a bound
    that the code itself implies - the length of the path for [namex], the number
    of bytes for [readi] and [writei], the number of processes for the list walks,
    four calls for each character of a command line for the parser of the shell
    (its functions call each other: [Sh.parse]) - and the theorems that say that a routine returns show that it is enough.
    For the loops that wait for another process (sleep locks, pipes, [begin_op],
    [wait]) the fuel is the number of times that the process is woken: it is a
    parameter and the theorems hold for every value.

    ** Files

    - Prelude, Params, Bytes: integers, the computations and their proof rules,
      record update; constants of the headers; words in byte lists.
    - Spinlock: spinlock.c, the processor part of proc.c ([Spin]); the interface
      [CpuLock] that proc.c is written against, and mutual exclusion over all
      interleavings of the instructions of [acquire] and [release].
    - Str, Printf: string.c; printf.c, the formatting of console.c, [atoi] and
      [atoo] of ulib.c.
    - ProcDefs, StateList, Proc: the process table of proc.c with its state lists
      as linked structures, its operations and the MLFQ scheduler, written
      against [CpuLock] and against [ProcServices], the calls to other parts of
      the kernel.  ProcTable: the variants without state lists.
    - ProcInv, ProcWake, ProcOps, ProcFork, ProcExit, ProcWait, ProcSched,
      ProcBoot: the abstract table [view], the invariant [vinv], the relation
      [rep] to the linked structure, and for each operation the function on views
      that it refines.  ProcProps, ProcLife, ProcSleep, ProcEquiv: the theorems.  Demo:
      concrete kernels for their instances.
    - Args, Syscall: the argument fetchers of syscall.c; its dispatcher and the
      handlers of sysproc.c, on the state of Proc.
    - Pipe: pipe.c, for every scheduling of readers and writers.
    - Kalloc: kalloc.c.  Vm: the page tables of vm.c, in the pages of the
      allocator.  VmTable, VmSpace, VmGrow, VmCopy, VmUser: an address space as a
      map from page numbers to pages ([space]), and what [mappages], [freevm],
      [setupkvm], [allocuvm], [copyuvm], [copyout] do to it.  VmDemo: instances.
    - Grep: grep.c.  Umalloc: umalloc.c, the heap as a sequence of blocks.
    - Sh: the parser of sh.c, its syntax tree in the heap, and [runcmd] as a
      program of system calls.  ShParse: the grammar of command lines, which the
      parser decides.  ShPrint: commands as text.  ShRun: the tree of
      processes that a command stands for, with their forks, waits, programs and
      open files.
    - Sleeplock: sleeplock.c.
    - Block: the interfaces between the layers of the file system. [BlockStore] is
      what the log uses of the buffer cache, [TxStore] what fs.c uses of the log;
      [TxOps] adds the start and the end of a
      transaction; [BlockStoreOk], [TxStoreOk] and [TxOpsOk] are their laws.
    - Bio: bio.c over the disk driver memide.c; it is a [BlockStore].
    - Log: log.c over any block store, with crashes at every disk write.  LogShare:
      the system calls that use the log at the same time, as steps of one machine.
      Tx: the log is a [TxStore].
    - Fs: fs.c over any [TxStore].  FsBlock, FsInode, FsFile, FsRw, FsTrunc, FsDir,
      FsPath: its theorems, from the block allocator up to path names.
    - File, SysFile: file.c with [pipealloc], and the system calls of sysfile.c,
      over the file system, the pipes and the pages.  FileRw: [filewrite] as a
      sequence of transactions.
    - Exec: exec.c with [loaduvm] and [switchuvm], over the file system and the
      page tables.  ExecMem: the image that a program file and its arguments
      describe ([new_image]), and the new page table beside the old one.  ExecLoad:
      [exec] refines [new_image].  ExecDemo: a program that is executed.
    - FsDemo: a disk of 40 blocks in the buffer cache under the log, on which the
      theorems are instantiated.

    ** What the theorems show

    - Processes: every operation keeps the invariant that each process is in
      exactly the list of its state and has one owner; [fork], [exit], [wait],
      [sleep], [wakeup], [kill], [yield] refine functions on the abstract table on
      every branch; [sleep] gives up the lock of its caller only under [ptable.lock],
      and no wakeup is lost, whatever other processes do in between; [exit] does
      not return and leaves exactly the table that it should; the scheduler runs
      the head of the highest non-empty queue; promotion lets nobody starve.
    - Locks and memory: mutual exclusion; the page allocator is a stack of
      distinct pages and has all of them after [kinit2]; address spaces own
      disjoint pages, [copyuvm] copies one and succeeds exactly when there is
      memory, and what is taken for an address space comes back with [freevm].
    - File system: a crash in a commit or in recovery leaves all of a transaction
      or nothing; the reservations of log space hold for all interleavings of system
      calls that keep to their bound, and the chunks of [filewrite] do; the buffer
      cache returns
      the last content of each block; allocators return what is free; files and
      directories contain what was written to them; [namex] follows the path; the
      last [iput] of an unlinked inode frees its blocks; [filewrite] puts its bytes
      on the disk, in transactions that the log has room for.
    - Programs: [exec] builds exactly the memory that the program file and the
      arguments describe and frees the old image, or changes nothing.
    - System calls and programs: pointers that [argptr] accepts are inside the
      process; pipes are queues; [grep] decides its pattern language; [atoi] reads
      what [printf] prints; the shell accepts exactly the lines of its grammar,
      ends on every line, and makes the tree of processes that a command describes;
      [malloc] returns memory that nobody else has, and [free] takes it back.
    - Some theorems show where the code falls short: the race in [allocproc], a
      pipe reader that is not woken, the overflow in [sys_getprocs], the log that
      is one block shorter than its reservations (with a run of three system calls
      that ends in the panic), the deadlock of linking a file as
      ".", the page that a failing [copyuvm] loses.

    ** Assumptions

    The routines of fs.c and log.c run without interference by other processes,
    except where a theorem says otherwise (the log's reservation, the sleep locks,
    the pipes and the process table are treated for all interleavings at the
    points where the processor is given up).  The disk writes a block atomically.
    Device switch entries are parameters.

    ** Not modelled

    - Start-up, assembly and device drivers (bootmain.c, main.c, lapic.c,
      ioapic.c, mp.c, uart.c, kbd.c, ide.c, picirq.c, the .S files): their effect
      is on hardware that has no description in the sources.
    - Of vm.c the routines that set up the segments and the page table of the
      kernel at start-up; traps (trap.c), the terminal input of console.c, and
      mkfs.c.  Of the state that [exec] sets, the segment descriptor of the task
      state.  SysFile has [exec] as a parameter, since its state has no page
      tables; Proc calls the page tables through [ProcServices].  Of sh.c the
      reading of lines, the built-in commands and [main].
    - The test programs and small utilities (usertests.c, p2-test.c and others):
      they only make system calls and print. *)

From Stdlib Require Export ZArith Lia String.
From stdpp Require Export base decidable option list list_numbers strings sets gmap.

#[global] Open Scope Z_scope.

(** ** Machine integers

    The kernel runs on a 32-bit x86.  A C [uint] is a [Z] in [0, 2^32), a C
    [int] a [Z] in [-2^31, 2^31); conversions and overflow are written out
    with [u32] and [s32]. *)

Definition u32 (z : Z) : Z := z mod 2 ^ 32.
Definition s32 (z : Z) : Z := (z + 2 ^ 31) mod 2 ^ 32 - 2 ^ 31.
Definition u8 (z : Z) : Z := z mod 2 ^ 8.

Definition is_u32 (z : Z) : Prop := 0 <= z < 2 ^ 32.
Definition is_s32 (z : Z) : Prop := - 2 ^ 31 <= z < 2 ^ 31.

Lemma u32_is z : is_u32 (u32 z).
Proof. unfold is_u32, u32. by apply Z.mod_pos_bound. Qed.
Lemma u32_small z : is_u32 z -> u32 z = z.
Proof. intros H. by apply Z.mod_small. Qed.
Lemma s32_is z : is_s32 (s32 z).
Proof. unfold is_s32, s32. pose proof (Z.mod_pos_bound (z + 2 ^ 31) (2 ^ 32)). lia. Qed.
Lemma s32_small z : is_s32 z -> s32 z = z.
Proof. unfold is_s32, s32. intros H. rewrite Z.mod_small; lia. Qed.
Lemma u32_u32 z : u32 (u32 z) = u32 z.
Proof. apply u32_small, u32_is. Qed.
Lemma u32_add_l a b : u32 (u32 a + b) = u32 (a + b).
Proof. unfold u32. by rewrite Zplus_mod_idemp_l. Qed.
Lemma u32_sub_l a b : u32 (u32 a - b) = u32 (a - b).
Proof. unfold u32. by rewrite Zminus_mod_idemp_l. Qed.
Lemma u32_sub_r a b : u32 (a - u32 b) = u32 (a - b).
Proof. unfold u32. by rewrite Zminus_mod_idemp_r. Qed.
Lemma u8_is z : 0 <= u8 z < 256.
Proof. unfold u8. by apply Z.mod_pos_bound. Qed.
Lemma u8_small z : 0 <= z < 256 -> u8 z = z.
Proof. intros H. by apply Z.mod_small. Qed.

(** Facts about machine integers, for [auto with mach]. *)
Create HintDb mach.
#[export] Hint Resolve u32_is s32_is u8_is : mach.
#[export] Hint Rewrite u32_u32 u32_add_l u32_sub_l u32_sub_r : mach.

(** ** Functional record update

    [r <| f := v |>] replaces field [f].  A record type opts in by giving its
    eta-expansion as an instance of [Eta]; the updater of one field is found by
    abstracting that field in the expansion. *)

Class Eta (R : Type) := eta_of : R -> R.
Class Setter {R T : Type} (getter : R -> T) := MkSetter { upd : (T -> T) -> R -> R }.
Arguments upd {R T} getter {_} f r.

Ltac build_setter :=
  lazymatch goal with
  | |- @Setter ?R ?T ?getter =>
      let e := constr:(_ : Eta R) in
      let e' := eval hnf in e in
      let p := eval pattern getter in e' in
      lazymatch p with
      | ?F getter => exact (MkSetter R T getter (fun f r => F (fun r0 => f (getter r0)) r))
      end
  end.

#[export] Hint Extern 1 (Setter _) => build_setter : typeclass_instances.

Declare Scope record_scope.
Delimit Scope record_scope with rec.
Notation "r <| f ::= g |>" := (upd f g r)
  (at level 1, f at level 9, left associativity) : record_scope.
Notation "r <| f := v |>" := (upd f (fun _ => v) r)
  (at level 1, f at level 9, left associativity) : record_scope.
#[global] Open Scope record_scope.

(** ** Kernel computations

    A kernel routine runs on the state [S] and ends in one of these ways.
    - [Ret a s]: it returns [a].
    - [Panic msg s]: it calls [panic(msg)], which never returns.
    - [Fault s]: it dereferences a null or wild pointer (undefined behaviour).
    - [Spin s]: it spins in [acquire] on a lock that another CPU holds.
    - [Stall]: a loop has run out of the fuel the model gives it.
    - [Swtch s k]: it gives up the processor in state [s] (a call of [swtch],
      or of a routine that sleeps); [k s'] is the rest of the routine, run from
      the state [s'] in which the processor comes back. *)

Inductive out (S A : Type) : Type :=
| Ret (a : A) (s : S)
| Panic (msg : string) (s : S)
| Fault (s : S)
| Spin (s : S)
| Stall
| Swtch (s : S) (k : S -> out S A).
Arguments Ret {S A} a s.
Arguments Panic {S A} msg s.
Arguments Fault {S A} s.
Arguments Spin {S A} s.
Arguments Stall {S A}.
Arguments Swtch {S A} s k.

Fixpoint obind {S A B : Type} (o : out S A) (f : A -> S -> out S B) : out S B :=
  match o with
  | Ret a s => f a s
  | Panic msg s => Panic msg s
  | Fault s => Fault s
  | Spin s => Spin s
  | Stall => Stall
  | Swtch s k => Swtch s (fun s' => obind (k s') f)
  end.

Definition M (S A : Type) : Type := S -> out S A.

Definition ret {S A} (a : A) : M S A := fun s => Ret a s.
Definition bind {S A B} (m : M S A) (f : A -> M S B) : M S B :=
  fun s => obind (m s) f.
Definition panic {S A} (msg : string) : M S A := fun s => Panic msg s.
Definition fault {S A} : M S A := fun s => Fault s.
Definition stall {S A} : M S A := fun _ => Stall.
Definition gets {S A} (f : S -> A) : M S A := fun s => Ret (f s) s.
Definition modify {S} (f : S -> S) : M S unit := fun s => Ret tt (f s).
(** Give up the processor; the state comes back changed. *)
Definition swtch {S} : M S unit := fun s => Swtch s (fun s' => Ret tt s').

Declare Scope kern_scope.
Delimit Scope kern_scope with kern.
Notation "x <- m ;; k" := (bind m (fun x => k))
  (at level 100, m at next level, right associativity) : kern_scope.
Notation "m ;;; k" := (bind m (fun _ => k))
  (at level 100, right associativity) : kern_scope.
#[global] Open Scope kern_scope.

Definition when {S} (b : bool) (m : M S unit) : M S unit :=
  if b then m else ret tt.

(** *** Loops

    [mfor l f] runs [f] on the elements of [l] in order; an iteration that
    returns [Some b] is a C [return b] (or [break]) out of the loop.
    [mwhile fuel f a] iterates [f] from the loop variable [a] until it answers
    [inr]. *)

Fixpoint mfor {S A B} (l : list A) (f : A -> M S (option B)) : M S (option B) :=
  match l with
  | [] => ret None
  | a :: l =>
      r <- f a ;;
      match r with
      | Some b => ret (Some b)
      | None => mfor l f
      end
  end.

Fixpoint meach {S A} (l : list A) (f : A -> M S unit) : M S unit :=
  match l with
  | [] => ret tt
  | a :: l => f a ;;; meach l f
  end.

(** [mfold] threads the variables [c] that the body of the loop updates; [inr]
    is a [return]. *)
Fixpoint mfold {S A B C} (l : list A) (f : C -> A -> M S (C + B)) (c : C) : M S (C + B) :=
  match l with
  | [] => ret (inl c)
  | a :: l =>
      r <- f c a ;;
      match r with
      | inl c' => mfold l f c'
      | inr b => ret (inr b)
      end
  end.

Fixpoint mwhile {S A B} (fuel : nat) (f : A -> M S (A + B)) (a : A) : M S B :=
  match fuel with
  | O => stall
  | Datatypes.S fuel =>
      r <- f a ;;
      match r with
      | inl a' => mwhile fuel f a'
      | inr b => ret b
      end
  end.

(** Run a computation of a component inside a larger state: [get] extracts the
    component and [put] writes it back, at every point where the processor is
    given up too. *)
Fixpoint olift {S E A} (get : S -> E) (put : E -> S -> S) (s : S) (o : out E A)
  : out S A :=
  match o with
  | Ret a e => Ret a (put e s)
  | Panic msg e => Panic msg (put e s)
  | Fault e => Fault (put e s)
  | Spin e => Spin (put e s)
  | Stall => Stall
  | Swtch e k => Swtch (put e s) (fun s' => olift get put s' (k (get s')))
  end.

Definition lift {S E A} (get : S -> E) (put : E -> S -> S) (m : M E A) : M S A :=
  fun s => olift get put s (m (get s)).

(** ** Weakest preconditions

    A protocol says which panics are tolerated, what a routine guarantees when
    it gives up the processor and what it may rely on when it gets it back. *)

Record prot (S : Type) := Prot {
  tolerated : string -> Prop;
  guar : S -> Prop;
  rely : S -> S -> Prop;
}.
Arguments Prot {S} tolerated guar rely.
Arguments tolerated {S} _ _.
Arguments guar {S} _ _.
Arguments rely {S} _ _ _.

(** The protocol of a routine that neither panics nor gives up the processor. *)
Definition strict {S} : prot S :=
  Prot (fun _ => False) (fun _ => False) (fun _ _ => False).

Fixpoint wpo {S A} (P : prot S) (o : out S A) (Q : A -> S -> Prop) : Prop :=
  match o with
  | Ret a s => Q a s
  | Panic msg _ => tolerated P msg
  | Fault _ | Spin _ | Stall => False
  | Swtch s k => guar P s /\ forall s', rely P s s' -> wpo P (k s') Q
  end.

Definition wp {S A} (P : prot S) (m : M S A) (s : S) (Q : A -> S -> Prop) : Prop :=
  wpo P (m s) Q.

Section wp_rules.
Context {S : Type} (P : prot S).

Lemma wpo_mono {A} (o : out S A) (Q Q' : A -> S -> Prop) :
  wpo P o Q -> (forall a s, Q a s -> Q' a s) -> wpo P o Q'.
Proof.
  intros H HQ. induction o as [a s|msg s|s|s| |s k IH]; simpl in *; auto.
  destruct H as [HG HR]. split; [done|]. intros s' Hs'. apply IH, HR, Hs'.
Qed.

Lemma wpo_bind {A B} (o : out S A) (f : A -> S -> out S B) Q :
  wpo P o (fun a s => wpo P (f a s) Q) -> wpo P (obind o f) Q.
Proof.
  induction o as [a s|msg s|s|s| |s k IH]; simpl; auto.
  intros [HG HR]. split; [done|]. intros s' Hs'. apply IH, HR, Hs'.
Qed.

Lemma wp_mono {A} (m : M S A) s (Q Q' : A -> S -> Prop) :
  wp P m s Q -> (forall a s', Q a s' -> Q' a s') -> wp P m s Q'.
Proof. apply wpo_mono. Qed.

Lemma wp_bind {A B} (m : M S A) (f : A -> M S B) s Q :
  wp P m s (fun a s' => wp P (f a) s' Q) -> wp P (bind m f) s Q.
Proof. apply wpo_bind. Qed.

Lemma wp_ret {A} (a : A) s (Q : A -> S -> Prop) : Q a s -> wp P (ret a) s Q.
Proof. done. Qed.

Lemma wp_gets {A} (f : S -> A) s (Q : A -> S -> Prop) :
  Q (f s) s -> wp P (gets f) s Q.
Proof. done. Qed.

Lemma wp_modify (f : S -> S) s (Q : unit -> S -> Prop) :
  Q tt (f s) -> wp P (modify f) s Q.
Proof. done. Qed.

Lemma wp_swtch s (Q : unit -> S -> Prop) :
  guar P s -> (forall s', rely P s s' -> Q tt s') -> wp P swtch s Q.
Proof. intros HG HQ. split; [exact HG|exact HQ]. Qed.

(** Loop rules: an invariant indexed by the elements still to visit. *)
Lemma wp_meach {A} (f : A -> M S unit) (I : list A -> S -> Prop) :
  (forall a l s, I (a :: l) s -> wp P (f a) s (fun _ s' => I l s')) ->
  forall l s (Q : unit -> S -> Prop),
    I l s -> (forall s', I [] s' -> Q tt s') -> wp P (meach l f) s Q.
Proof.
  intros Hstep l. induction l as [|a l IH]; intros s Q HI HQ; simpl.
  - by apply wp_ret, HQ.
  - apply wp_bind. eapply wp_mono; [by apply Hstep|]. intros [] s' HI'.
    by apply IH.
Qed.

Lemma wp_mfor {A B} (f : A -> M S (option B)) (I : list A -> S -> Prop)
    (R : B -> S -> Prop) :
  (forall a l s, I (a :: l) s ->
     wp P (f a) s (fun r s' => match r with Some b => R b s' | None => I l s' end)) ->
  forall l s (Q : option B -> S -> Prop),
    I l s ->
    (forall s', I [] s' -> Q None s') -> (forall b s', R b s' -> Q (Some b) s') ->
    wp P (mfor l f) s Q.
Proof.
  intros Hstep l. induction l as [|a l IH]; intros s Q HI HN HS; simpl.
  - by apply wp_ret, HN.
  - apply wp_bind. eapply wp_mono; [by apply Hstep|]. intros [b|] s' H.
    + by apply wp_ret, HS.
    + by apply IH.
Qed.
End wp_rules.

(** Under the strict protocol a computation returns. *)
Lemma wp_strict {S A} (m : M S A) s (Q : A -> S -> Prop) :
  wp strict m s Q -> exists a s', m s = Ret a s' /\ Q a s'.
Proof. unfold wp. destruct (m s); simpl; naive_solver. Qed.

(** The protocol of a routine that returns or panics with a message in [T]. *)
Definition allowing {S} (T : string -> Prop) : prot S := Prot T (fun _ => False) (fun _ _ => False).
Lemma wp_allowing {S A} T (m : M S A) s (Q : A -> S -> Prop) :
  wp (allowing T) m s Q -> (exists a s', m s = Ret a s' /\ Q a s') \/ exists msg s', m s = Panic msg s' /\ T msg.
Proof. unfold wp. destruct (m s); simpl; naive_solver. Qed.

(** The protocol of a routine that panics with [msg]. *)
Definition panics {S} (msg : string) : prot S := allowing (fun m => m = msg).
Lemma wp_panics {S A} msg (m : M S A) s :
  wp (panics msg) m s (fun _ _ => False) -> exists s', m s = Panic msg s'.
Proof. intros [(? & ? & _ & [])|(? & s' & E & ->)]%wp_allowing. by exists s'. Qed.

(** The protocol of a routine that may panic with [msg] when [C] holds. *)
Definition may_panic {S} (msg : string) (C : Prop) : prot S := allowing (fun m => m = msg /\ C).
Lemma wp_may_panic {S A} msg C (m : M S A) s (Q : A -> S -> Prop) :
  wp (may_panic msg C) m s Q -> (exists a s', m s = Ret a s' /\ Q a s') \/ ((exists s', m s = Panic msg s') /\ C).
Proof. intros [?|(? & s' & E & -> & HC)]%wp_allowing; eauto. Qed.

Lemma wp_ret_intro {S A} (P : prot S) (m : M S A) s a s' (Q : A -> S -> Prop) :
  m s = Ret a s' -> Q a s' -> wp P m s Q.
Proof. unfold wp. by intros -> ?. Qed.

(** Computations whose first part returns. *)
Lemma run_bind {S A B} (m : M S A) (f : A -> M S B) s a s' : m s = Ret a s' -> bind m f s = f a s'.
Proof. unfold bind. by intros ->. Qed.
Ltac run H := rewrite (run_bind _ _ _ _ _ H).

(** Weakening the protocol. *)
Definition prot_le {S} (P P' : prot S) : Prop :=
  (forall m, tolerated P m -> tolerated P' m) /\
  (forall s, guar P s -> guar P' s) /\
  (forall s s', guar P s -> rely P' s s' -> rely P s s').

Lemma wpo_prot_mono {S A} (P P' : prot S) (o : out S A) Q :
  prot_le P P' -> wpo P o Q -> wpo P' o Q.
Proof.
  intros (HT & HG & HR). induction o as [a s|msg s|s|s| |s k IH]; simpl; auto.
  intros [Hg Hk]. split; [by apply HG|]. intros s' Hs'. apply IH, Hk, HR; done.
Qed.

Lemma strict_le {S} (P : prot S) : prot_le strict P.
Proof. by repeat split. Qed.

(** A computation lifted to a larger state: it may panic as the component
    does, and wherever it gives up the processor the larger state is exposed. *)
Lemma wpo_olift {S E A} (get : S -> E) (put : E -> S -> S) (P : prot S)
    (PE : prot E) (I : S -> Prop) (o : out E A) s (QE : A -> E -> Prop)
    (Q : A -> S -> Prop) :
  (forall m, tolerated PE m -> tolerated P m) ->
  (forall e s, I s -> I (put e s)) ->
  (forall s, I s -> guar P s) ->
  (forall s s', I s -> rely P s s' -> I s' /\ forall e0, rely PE e0 (get s')) ->
  (forall a e s, I s -> QE a e -> Q a (put e s)) ->
  I s -> wpo PE o QE -> wpo P (olift get put s o) Q.
Proof.
  intros HT HI HG HR HQ. revert s.
  induction o as [a e|msg e|e|e| |e k IH]; intros s Hs; simpl; auto.
  intros [Hg Hk]. split; [by apply HG, HI|]. intros s' Hs'.
  destruct (HR _ _ (HI e s Hs) Hs') as [Hs'' Hrel].
  by apply IH; [|apply Hk].
Qed.

(** ** Tactics *)

(** One step of symbolic execution on the head of a [wp] goal. *)
Ltac wp_pure :=
  match goal with
  | |- wp _ (bind _ _) _ _ => apply wp_bind
  | |- wp _ (ret _) _ _ => apply wp_ret
  | |- wp _ (gets _) _ _ => apply wp_gets; cbn beta
  | |- wp _ (modify _) _ _ => apply wp_modify; cbn beta
  | |- wp _ (when true _) _ _ => unfold when
  | |- wp _ (when false _) _ _ => unfold when
  end.
Ltac wp_pures := repeat wp_pure.

(** Use a proved specification for the head computation. *)
Ltac wp_use H := first [apply wp_bind|idtac]; eapply wp_mono; [eapply H|cbn beta].

(** ** Lists *)

(** The abstract effect of unlinking: every other element, in order. *)
Definition list_remove_all {A} `{EqDecision A} (x : A) (l : list A) : list A :=
  filter (fun y => y <> x) l.

Lemma elem_of_list_remove_all {A} `{EqDecision A} (x y : A) (l : list A) :
  y ∈ list_remove_all x l <-> y ∈ l /\ y <> x.
Proof. unfold list_remove_all. rewrite list_elem_of_filter. naive_solver. Qed.

Lemma NoDup_list_remove_all {A} `{EqDecision A} (x : A) (l : list A) :
  NoDup l -> NoDup (list_remove_all x l).
Proof. apply NoDup_filter. Qed.

Lemma list_remove_all_notin {A} `{EqDecision A} (x : A) (l : list A) :
  x ∉ l -> list_remove_all x l = l.
Proof.
  intros Hx. unfold list_remove_all. induction l as [|y l IH]; [done|].
  apply not_elem_of_cons in Hx as [Hne Hx].
  rewrite filter_cons_True by done. by rewrite IH.
Qed.

Lemma list_remove_all_middle {A} `{EqDecision A} (x : A) (l1 l2 : list A) :
  x ∉ l1 -> x ∉ l2 -> list_remove_all x (l1 ++ x :: l2) = l1 ++ l2.
Proof.
  intros H1 H2. unfold list_remove_all. rewrite filter_app, filter_cons_False by auto.
  fold (list_remove_all x l1). fold (list_remove_all x l2).
  by rewrite !list_remove_all_notin.
Qed.

(** Filters that agree on the elements of the list. *)
Lemma filter_ext_in {A} (P1 P2 : A -> Prop) `{forall x, Decision (P1 x), forall x, Decision (P2 x)}
    (l : list A) :
  (forall x, x ∈ l -> P1 x <-> P2 x) -> filter P1 l = filter P2 l.
Proof.
  induction l as [|x l IH]; intros Hall; [done|].
  assert (filter P1 l = filter P2 l) as Hl by (apply IH; intros; apply Hall; set_solver).
  destruct (decide (P1 x)) as [H1|H1].
  - rewrite !filter_cons_True, Hl; [done| |done]. apply Hall; [set_solver|done].
  - rewrite !filter_cons_False, Hl; [done| |done]. intros H2. apply H1, Hall; [set_solver|done].
Qed.
Lemma filter_id {A} (P : A -> Prop) `{forall x, Decision (P x)} (l : list A) :
  (forall x, x ∈ l -> P x) -> filter P l = l.
Proof.
  induction l as [|x l IH]; intros Hall; [done|].
  rewrite filter_cons_True, IH; [done| |apply Hall; set_solver]. intros; apply Hall; set_solver.
Qed.
Lemma filter_none {A} (P : A -> Prop) `{forall x, Decision (P x)} (l : list A) :
  (forall x, x ∈ l -> ~ P x) -> filter P l = [].
Proof.
  induction l as [|x l IH]; intros Hall; [done|].
  rewrite filter_cons_False; [|apply Hall; set_solver]. apply IH. intros; apply Hall; set_solver.
Qed.

Lemma NoDup_middle {A} (x : A) (l1 l2 : list A) : NoDup (l1 ++ x :: l2) -> x ∉ l1 /\ x ∉ l2.
Proof.
  intros (_ & H1 & H2)%NoDup_app. apply NoDup_cons in H2 as [H2 _]. split; [|done].
  intros Hx. apply (H1 x Hx). set_solver.
Qed.

(** Filling a list from the left. *)
Lemma insert_take_replicate {A} (l : list A) (y x : A) k m :
  l !! k = Some x ->
  <[k := x]> (take k l ++ replicate (S m) y) = take (S k) l ++ replicate m y.
Proof.
  intros Hx. assert (Hlt := lookup_lt_Some _ _ _ Hx).
  rewrite (take_S_r l k x), <- app_assoc by done.
  rewrite insert_app_r_alt by (rewrite length_take; lia).
  rewrite length_take. by replace (k - k `min` length l)%nat with 0%nat by lia.
Qed.

(** Clearing a list from the left. *)
Lemma insert_replicate_drop {A} (l : list A) (x y : A) k :
  l !! k = Some x ->
  <[k := y]> (replicate k y ++ drop k l) = replicate (S k) y ++ drop (S k) l.
Proof.
  intros Hx. rewrite (drop_S l x k) by done.
  rewrite insert_app_r_alt by (rewrite length_replicate; lia).
  rewrite length_replicate, Nat.sub_diag. rewrite replicate_S_end, <- app_assoc. done.
Qed.
Lemma lookup_replicate_drop {A} (l : list A) (y : A) k :
  (replicate k y ++ drop k l) !! k = l !! k.
Proof.
  rewrite lookup_app_r by (rewrite length_replicate; lia).
  rewrite length_replicate, Nat.sub_diag, lookup_drop. f_equal. lia.
Qed.

Lemma existsb_ext_in {A} (f g : A -> bool) (l : list A) :
  (forall x, x ∈ l -> f x = g x) -> existsb f l = existsb g l.
Proof.
  induction l as [|x l IH]; intros H; [done|]. simpl. rewrite H by set_solver.
  f_equal. apply IH. set_solver.
Qed.

Lemma last_app_cons {A} (l1 l2 : list A) (x : A) :
  last (l1 ++ x :: l2) = last (x :: l2).
Proof. rewrite last_app. by destruct (last (x :: l2)) eqn:E; [|apply last_None in E]. Qed.

(** Two processes of one table: a field-wise equality through a map. *)
Lemma list_fmap_lookup_eq {A B} (f : A -> B) (l l' : list A) i x :
  f <$> l' = f <$> l -> l !! i = Some x ->
  exists x', l' !! i = Some x' /\ f x' = f x.
Proof.
  intros Heq Hl. assert (Hf : (f <$> l') !! i = Some (f x))
    by (rewrite Heq, list_lookup_fmap, Hl; done).
  rewrite list_lookup_fmap in Hf. destruct (l' !! i) as [x'|]; naive_solver.
Qed.
