(* ===== verification/Params.v ===== *)
(** * Constants of the kernel's header files

    The values of [param.h], [pdx.h], [memlayout.h], [mmu.h] and [fs.h] that
    the modelled code uses, in the default configuration of the Makefile
    ([CS333_PROJECT = 4]: [PDX_XV6], [CS333_P1] .. [CS333_P4] are defined). *)

From S2P Require Import Prelude.

(** param.h *)
Definition NPROC : nat := 64.
Definition KSTACKSIZE : Z := 4096.
Definition NOFILE : nat := 16.
Definition NFILE : nat := 100.
Definition MAXARG : nat := 32.
Definition MAXOPBLOCKS : Z := 10.
Definition LOGSIZE : Z := MAXOPBLOCKS * 3.
Definition NBUF : nat := 30.
Definition FSSIZE : Z := 2000.
Definition DEFAULT_UID : Z := 67.
Definition DEFAULT_GID : Z := 76.

(** pdx.h *)
Definition TPS : Z := 1000.
Definition SCHED_INTERVAL : Z := TPS / 100.
Definition MAXPRIO : nat := 6.
Definition BUDGET : Z := 125.
Definition TICKS_TO_PROMOTE : Z := 4 * TPS.
Definition RETURN_SUCCESS : Z := 0.
Definition RETURN_FAILURE : Z := -1.

(** memlayout.h *)
Definition PHYSTOP : Z := 0xE000000.
Definition KERNBASE : Z := 0x80000000.
Definition V2P (a : Z) : Z := u32 (a - KERNBASE).
Definition P2V (a : Z) : Z := u32 (a + KERNBASE).

(** mmu.h *)
Definition FL_IF : Z := 0x200.
Definition PGSIZE : Z := 4096.
Definition PGROUNDUP (sz : Z) : Z := Z.land (u32 (sz + PGSIZE - 1)) (u32 (Z.lnot (PGSIZE - 1))).
Definition PGROUNDDOWN (a : Z) : Z := Z.land a (u32 (Z.lnot (PGSIZE - 1))).
Definition SEG_UCODE : Z := 3.
Definition SEG_UDATA : Z := 4.
Definition DPL_USER : Z := 3.

(** ** Rounding to pages *)

Lemma land_u32_r x y : is_u32 x -> Z.land x (u32 y) = Z.land x y.
Proof.
  intros Hx. unfold u32. rewrite <- Z.land_ones by lia.
  rewrite (Z.land_comm y), Z.land_assoc, Z.land_ones by lia. rewrite Z.mod_small by done. done.
Qed.

Lemma PGROUNDDOWN_eq a : is_u32 a -> PGROUNDDOWN a = a / PGSIZE * PGSIZE.
Proof.
  intros Ha. unfold PGROUNDDOWN. rewrite land_u32_r by done.
  change (PGSIZE - 1) with (Z.ones 12). rewrite <- Z.ldiff_land, Z.ldiff_ones_r by lia.
  rewrite Z.shiftl_mul_pow2, Z.shiftr_div_pow2 by lia. done.
Qed.

Lemma PGROUNDUP_eq a : 0 <= a <= 2 ^ 32 - PGSIZE -> PGROUNDUP a = (a + PGSIZE - 1) / PGSIZE * PGSIZE.
Proof.
  intros Ha. unfold PGROUNDUP, PGSIZE in *. rewrite u32_small by (unfold is_u32; lia).
  apply (PGROUNDDOWN_eq (a + 4096 - 1)). unfold is_u32. lia.
Qed.
