(* ===== verification/Bytes.v ===== *)
(** * Bytes of memory and of disk blocks

    A C object in a byte array is read with [slice] and [unle] and written with
    [splice] and [le] (little-endian). *)

From S2P Require Import Prelude.

Definition slice (off n : nat) (bs : list Z) : list Z := take n (drop off bs).
Definition splice (off : nat) (new bs : list Z) : list Z :=
  take off bs ++ new ++ drop (off + length new) bs.

(** The [k] bytes of an unsigned integer, and back. *)
Fixpoint le (k : nat) (z : Z) : list Z :=
  match k with O => [] | S k => z mod 256 :: le k (z / 256) end.
Fixpoint unle (bs : list Z) : Z :=
  match bs with [] => 0 | b :: bs => b + 256 * unle bs end.

Definition get16 (off : nat) (bs : list Z) : Z := unle (slice off 2 bs).
Definition get32 (off : nat) (bs : list Z) : Z := unle (slice off 4 bs).
Definition put16 (off : nat) (z : Z) (bs : list Z) : list Z := splice off (le 2 z) bs.
Definition put32 (off : nat) (z : Z) (bs : list Z) : list Z := splice off (le 4 z) bs.

Definition bytes (bs : list Z) : Prop := Forall (fun b => 0 <= b < 256) bs.

(** ** Slices *)

Lemma length_splice off new bs :
  (off + length new <= length bs)%nat -> length (splice off new bs) = length bs.
Proof. intros H. unfold splice. rewrite !length_app, length_take, length_drop. lia. Qed.

Lemma length_slice off n bs : (off + n <= length bs)%nat -> length (slice off n bs) = n.
Proof. intros H. unfold slice. rewrite length_take, length_drop. lia. Qed.

Lemma lookup_slice off n bs i :
  slice off n bs !! i = if decide (i < n)%nat then bs !! (off + i)%nat else None.
Proof.
  unfold slice. case_decide; [by rewrite lookup_take_lt, lookup_drop|by rewrite lookup_take_ge by lia].
Qed.

Lemma lookup_splice off new bs i :
  (off + length new <= length bs)%nat ->
  splice off new bs !! i = if decide (off <= i < off + length new)%nat then new !! (i - off)%nat else bs !! i.
Proof.
  intros H. unfold splice. case_decide as Hi.
  - rewrite lookup_app_r, lookup_app_l by (rewrite ?length_take; lia). f_equal. rewrite length_take. lia.
  - destruct (decide (i < off)%nat).
    + rewrite lookup_app_l by (rewrite length_take; lia). by apply lookup_take_lt.
    + rewrite lookup_app_r by (rewrite length_take; lia). rewrite lookup_app_r by (rewrite length_take; lia).
      rewrite lookup_drop, length_take. f_equal. lia.
Qed.

Lemma slice_splice_same off new bs n :
  (off + length new <= length bs)%nat -> n = length new -> slice off n (splice off new bs) = new.
Proof.
  intros H ->. apply list_eq. intros i. rewrite lookup_slice. case_decide as Hi.
  - rewrite lookup_splice by done. rewrite decide_True by lia. f_equal. lia.
  - by rewrite lookup_ge_None_2 by lia.
Qed.

Lemma slice_splice_other off new bs o n :
  (off + length new <= length bs)%nat -> (o + n <= off \/ off + length new <= o)%nat ->
  slice o n (splice off new bs) = slice o n bs.
Proof.
  intros H Hd. apply list_eq. intros i. rewrite !lookup_slice. case_decide; [|done].
  rewrite lookup_splice by done. by rewrite decide_False by lia.
Qed.

Lemma slice_all bs n : n = length bs -> slice 0 n bs = bs.
Proof. intros ->. unfold slice. rewrite drop_0. apply firstn_all. Qed.

Lemma splice_slice off n bs : (off + n <= length bs)%nat -> splice off (slice off n bs) bs = bs.
Proof.
  intros H. apply list_eq. intros i. rewrite lookup_splice; rewrite length_slice by done; [|done].
  case_decide; [|done]. rewrite lookup_slice, decide_True by lia. f_equal. lia.
Qed.

Lemma slice_slice o1 n1 o2 n2 bs :
  (o2 + n2 <= n1)%nat -> slice o2 n2 (slice o1 n1 bs) = slice (o1 + o2) n2 bs.
Proof.
  intros H. apply list_eq. intros i. rewrite !lookup_slice. case_decide; [|done].
  rewrite decide_True by lia. f_equal. lia.
Qed.

(** ** Integers *)

Lemma length_le k z : length (le k z) = k.
Proof. revert z. induction k as [|k IH]; intros z; simpl; [done|]. by rewrite IH. Qed.

Lemma bytes_le k z : bytes (le k z).
Proof.
  revert z. induction k as [|k IH]; intros z; simpl; [constructor|].
  constructor; [apply Z.mod_pos_bound; lia|apply IH].
Qed.

Lemma unle_le k z : unle (le k z) = z mod 256 ^ Z.of_nat k.
Proof.
  revert z. induction k as [|k IH]; intros z; cbn [le unle]; [by rewrite Z.mod_1_r|].
  rewrite IH. rewrite (Nat2Z.inj_succ k), Z.pow_succ_r by lia.
  rewrite Z.rem_mul_r by lia. done.
Qed.

Lemma unle_bound bs : bytes bs -> 0 <= unle bs < 256 ^ Z.of_nat (length bs).
Proof.
  induction 1 as [|b bs Hb _ IH]; cbn [unle length]; [lia|].
  rewrite Nat2Z.inj_succ, Z.pow_succ_r by lia. lia.
Qed.

Lemma le_unle bs k : bytes bs -> k = length bs -> le k (unle bs) = bs.
Proof.
  intros H ->. induction H as [|b bs Hb _ IH]; cbn [le unle length]; [done|].
  rewrite (Z.mul_comm 256), Z.mod_add, Z.div_add, Z.mod_small, Z.div_small by lia.
  by rewrite Z.add_0_l, IH.
Qed.

Section words.
Context (bs : list Z).

Lemma length_put16 off z : (off + 2 <= length bs)%nat -> length (put16 off z bs) = length bs.
Proof. intros H. apply length_splice. by rewrite length_le. Qed.
Lemma length_put32 off z : (off + 4 <= length bs)%nat -> length (put32 off z bs) = length bs.
Proof. intros H. apply length_splice. by rewrite length_le. Qed.

Lemma get_put16 off z : (off + 2 <= length bs)%nat -> get16 off (put16 off z bs) = z mod 2 ^ 16.
Proof.
  intros H. unfold get16, put16. rewrite slice_splice_same by (rewrite length_le; lia). apply (unle_le 2).
Qed.
Lemma get_put32 off z : (off + 4 <= length bs)%nat -> get32 off (put32 off z bs) = u32 z.
Proof.
  intros H. unfold get32, put32. rewrite slice_splice_same by (rewrite length_le; lia). apply (unle_le 4).
Qed.
Lemma get32_put16 o off z : (off + 2 <= length bs)%nat -> (o + 4 <= off \/ off + 2 <= o)%nat ->
  get32 o (put16 off z bs) = get32 o bs.
Proof. intros H Hd. unfold get32, put16. by rewrite slice_splice_other by (rewrite length_le; lia). Qed.
Lemma get32_put32 o off z : (off + 4 <= length bs)%nat -> (o + 4 <= off \/ off + 4 <= o)%nat ->
  get32 o (put32 off z bs) = get32 o bs.
Proof. intros H Hd. unfold get32, put32. by rewrite slice_splice_other by (rewrite length_le; lia). Qed.
Lemma get16_put16 o off z : (off + 2 <= length bs)%nat -> (o + 2 <= off \/ off + 2 <= o)%nat ->
  get16 o (put16 off z bs) = get16 o bs.
Proof. intros H Hd. unfold get16, put16. by rewrite slice_splice_other by (rewrite length_le; lia). Qed.
Lemma get16_put32 o off z : (off + 4 <= length bs)%nat -> (o + 2 <= off \/ off + 4 <= o)%nat ->
  get16 o (put32 off z bs) = get16 o bs.
Proof. intros H Hd. unfold get16, put32. by rewrite slice_splice_other by (rewrite length_le; lia). Qed.
End words.

Lemma bytes_take n bs : bytes bs -> bytes (take n bs).
Proof. apply Forall_take. Qed.
Lemma bytes_drop n bs : bytes bs -> bytes (drop n bs).
Proof. apply Forall_drop. Qed.
Lemma bytes_slice off n bs : bytes bs -> bytes (slice off n bs).
Proof. intros H. by apply bytes_take, bytes_drop. Qed.
Lemma bytes_splice off new bs : bytes new -> bytes bs -> bytes (splice off new bs).
Proof.
  intros H1 H2. unfold splice. apply Forall_app. split; [by apply bytes_take|].
  apply Forall_app. split; [done|by apply bytes_drop].
Qed.
Lemma get32_is off bs : bytes bs -> (off + 4 <= length bs)%nat -> is_u32 (get32 off bs).
Proof.
  intros H Hl. pose proof (unle_bound (slice off 4 bs) (bytes_slice off 4 bs H)) as Hb.
  rewrite length_slice in Hb by done. exact Hb.
Qed.
