(* ===== verification/Spinlock.v ===== *)
(** * Spinlocks and interrupt nesting (spinlock.c, cpu part of proc.c)

    [mach] is the per-CPU view of the machine: the [cpus] table, the APIC id
    and the flags register of the processor that executes, and the spinlocks.
    [acquire], [release], [holding], [pushcli], [popcli], [mycpu] and [myproc]
    are the routines of the source, with their panics.

    [CpuLock] is what these routines promise to their clients; proc.c is
    verified against that interface, and this file discharges it.

    The second half follows the instructions of [acquire] and [release] on
    several CPUs interleaved, for mutual exclusion. *)

From S2P Require Import Prelude Params.

(** ** The interface *)

(** What the process table needs from the locking layer.  [L] holds the CPU
    and lock state; [holds l o p] says that this CPU holds the caller's own
    lock iff [o], [ptable.lock] iff [p], and no other lock, and that those two
    locks are free if this CPU does not hold them; [curp l] is [c->proc].  The
    own lock is released only while [ptable.lock] is held. *)
Class CpuLock (L : Type) := {
  lk_acquire_pt : M L unit;
  lk_release_pt : M L unit;
  lk_holding_pt : M L bool;
  lk_acquire_own : M L unit;
  lk_release_own : M L unit;
  lk_myproc : M L (option nat);
  lk_setproc : option nat -> M L unit;
  lk_ncli : M L Z;
  lk_eflags : M L Z;
  lk_intena : M L Z;
  lk_set_intena : Z -> M L unit;

  holds : L -> bool -> bool -> Prop;
  curp : L -> option nat;

  lk_acquire_pt_ok l o : holds l o false ->
    exists l', lk_acquire_pt l = Ret tt l' /\ holds l' o true /\ curp l' = curp l;
  lk_acquire_pt_again l o : holds l o true ->
    exists l', lk_acquire_pt l = Panic "acquire" l';
  lk_release_pt_ok l o : holds l o true ->
    exists l', lk_release_pt l = Ret tt l' /\ holds l' o false /\ curp l' = curp l;
  lk_release_pt_not l o : holds l o false ->
    exists l', lk_release_pt l = Panic "release" l';
  lk_holding_pt_ok l o p : holds l o p ->
    exists l', lk_holding_pt l = Ret p l' /\ holds l' o p /\ curp l' = curp l;
  lk_acquire_own_ok l p : holds l false p ->
    exists l', lk_acquire_own l = Ret tt l' /\ holds l' true p /\ curp l' = curp l;
  lk_release_own_ok l : holds l true true ->
    exists l', lk_release_own l = Ret tt l' /\ holds l' false true /\ curp l' = curp l;
  lk_myproc_ok l o p : holds l o p ->
    exists l', lk_myproc l = Ret (curp l) l' /\ holds l' o p /\ curp l' = curp l;
  lk_setproc_ok l o x : holds l o true ->
    exists l', lk_setproc x l = Ret tt l' /\ holds l' o true /\ curp l' = x;
  lk_ncli_ok l o : holds l o true ->
    lk_ncli l = Ret (if o then 2 else 1) l;
  lk_eflags_ok l o : holds l o true ->
    exists e, lk_eflags l = Ret e l /\ Z.land e FL_IF = 0;
  lk_intena_ok l o : holds l o true ->
    exists z, lk_intena l = Ret z l;
  lk_set_intena_ok l o z : holds l o true ->
    exists l', lk_set_intena z l = Ret tt l' /\ holds l' o true /\ curp l' = curp l;
}.

(** *** A monitor for the hand-over of locks

    Any implementation, with a flag that records whether the own lock has been
    released at a time when [ptable.lock] was free: between the two another CPU
    can run in [wakeup]. *)
Section watched.
Context {L : Type} `{CL : CpuLock L}.

Definition on_fst {A} (m : M L A) : M (L * bool) A := lift fst (fun l s => (l, s.2)) m.
Definition release_own_watched : M (L * bool) unit :=
  h <- on_fst lk_holding_pt ;;
  modify (fun s => (s.1, s.2 || negb h)) ;;;
  on_fst lk_release_own.

Lemma on_fst_ret {A} (m : M L A) l b a l' : m l = Ret a l' -> on_fst m (l, b) = Ret a (l', b).
Proof. intros E. unfold on_fst, lift. simpl. by rewrite E. Qed.
Lemma on_fst_panic {A} (m : M L A) l b msg l' : m l = Panic msg l' -> on_fst m (l, b) = Panic msg (l', b).
Proof. intros E. unfold on_fst, lift. simpl. by rewrite E. Qed.

Lemma release_own_watched_ok l : holds l true true ->
  exists l', release_own_watched (l, false) = Ret tt (l', false) /\ holds l' false true /\ curp l' = curp l.
Proof.
  intros H. destruct (lk_holding_pt_ok l true true H) as (l1 & E1 & H1 & C1). destruct (lk_release_own_ok l1 H1) as (l2 & E2 & H2 & C2).
  exists l2. split_and!; [|done|congruence]. unfold release_own_watched, bind. rewrite (on_fst_ret _ _ _ _ _ E1). simpl. by rewrite (on_fst_ret _ _ _ _ _ E2).
Qed.

Ltac watch law := let E := fresh in let Hh := fresh in let C := fresh in
  destruct law as (l' & E & Hh & C); [done|]; exists (l', false); split_and!; [by apply on_fst_ret|done|done|done].
#[local] Instance watched : CpuLock (L * bool).
Proof.
  refine {|
    lk_acquire_pt := on_fst lk_acquire_pt; lk_release_pt := on_fst lk_release_pt; lk_holding_pt := on_fst lk_holding_pt;
    lk_acquire_own := on_fst lk_acquire_own; lk_release_own := release_own_watched; lk_myproc := on_fst lk_myproc;
    lk_setproc := fun x => on_fst (lk_setproc x); lk_ncli := on_fst lk_ncli; lk_eflags := on_fst lk_eflags;
    lk_intena := on_fst lk_intena; lk_set_intena := fun z => on_fst (lk_set_intena z);
    holds := fun s o p => holds s.1 o p /\ s.2 = false; curp := fun s => curp s.1 |}; intros [l b]; simpl.
  - intros o [H ->]. watch (lk_acquire_pt_ok l o).
  - intros o [H ->]. destruct (lk_acquire_pt_again l o H) as (l' & E). exists (l', false). by apply on_fst_panic.
  - intros o [H ->]. watch (lk_release_pt_ok l o).
  - intros o [H ->]. destruct (lk_release_pt_not l o H) as (l' & E). exists (l', false). by apply on_fst_panic.
  - intros o p [H ->]. watch (lk_holding_pt_ok l o p).
  - intros p [H ->]. watch (lk_acquire_own_ok l p).
  - intros [H ->]. destruct (release_own_watched_ok l H) as (l' & E & H' & C). exists (l', false). by split_and!.
  - intros o p [H ->]. watch (lk_myproc_ok l o p).
  - intros o x [H ->]. watch (lk_setproc_ok l o x).
  - intros o [H ->]. apply on_fst_ret. by apply lk_ncli_ok.
  - intros o [H ->]. destruct (lk_eflags_ok l o H) as (e & E & He). exists e. split; [by apply on_fst_ret|done].
  - intros o [H ->]. destruct (lk_intena_ok l o H) as (z & E). exists z. by apply on_fst_ret.
  - intros o z [H ->]. watch (lk_set_intena_ok l o z).
Defined.
End watched.

(** ** The implementation *)

Module Spin.

(** [struct cpu] (proc.h), the fields the code below uses. *)
Record cpu := Cpu {
  apicid : Z;
  ncli : Z;              (* depth of pushcli nesting *)
  intena : Z;            (* were interrupts enabled before pushcli? *)
  proc : option nat;     (* the process running on this cpu or null *)
}.
#[export] Instance cpu_eta : Eta cpu :=
  fun r => Cpu (apicid r) (ncli r) (intena r) (proc r).

(** [struct spinlock]; the debugging call stack [pcs] is left out. *)
Record spinlock := Spinlock {
  locked : Z;
  name : string;
  lcpu : option nat;
}.
#[export] Instance spinlock_eta : Eta spinlock :=
  fun r => Spinlock (locked r) (name r) (lcpu r).

Record mach := Mach {
  cpus : list cpu;
  lapicid : Z;           (* APIC id of the executing processor *)
  eflags : Z;            (* its flags register *)
  locks : list spinlock; (* a lock pointer is an index *)
}.
#[export] Instance mach_eta : Eta mach :=
  fun r => Mach (cpus r) (lapicid r) (eflags r) (locks r).

Definition readeflags : M mach Z := gets eflags.
Definition cli : M mach unit :=
  modify (fun m => m <| eflags ::= fun e => Z.land e (Z.lnot FL_IF) |>).
Definition sti : M mach unit :=
  modify (fun m => m <| eflags ::= fun e => Z.lor e FL_IF |>).

Fixpoint find_apic (cs : list cpu) (id : Z) : option nat :=
  match cs with
  | [] => None
  | c :: cs => if apicid c =? id then Some O else S <$> find_apic cs id
  end.

Definition mycpu : M mach nat :=
  e <- readeflags ;;
  if negb (Z.land e FL_IF =? 0) then panic "mycpu called with interrupts enabled"
  else
    id <- gets lapicid ;;
    cs <- gets cpus ;;
    match find_apic cs id with
    | Some i => ret i
    | None => panic "unknown apicid"
    end.

Definition get_cpu (i : nat) : M mach cpu := fun m =>
  match cpus m !! i with Some c => Ret c m | None => Fault m end.
Definition put_cpu (i : nat) (c : cpu) : M mach unit := fun m =>
  match cpus m !! i with
  | Some _ => Ret tt (m <| cpus ::= <[i := c]> |>)
  | None => Fault m
  end.
Definition get_lock (i : nat) : M mach spinlock := fun m =>
  match locks m !! i with Some l => Ret l m | None => Fault m end.
Definition put_lock (i : nat) (l : spinlock) : M mach unit := fun m =>
  match locks m !! i with
  | Some _ => Ret tt (m <| locks ::= <[i := l]> |>)
  | None => Fault m
  end.

(** [mycpu()->ncli] and the like. *)
Definition mycpu_get : M mach cpu := i <- mycpu ;; get_cpu i.
Definition mycpu_put (f : cpu -> cpu) : M mach unit :=
  i <- mycpu ;; c <- get_cpu i ;; put_cpu i (f c).

Definition pushcli : M mach unit :=
  e <- readeflags ;;
  cli ;;;
  c <- mycpu_get ;;
  when (ncli c =? 0) (mycpu_put (fun c => c <| intena := Z.land e FL_IF |>)) ;;;
  mycpu_put (fun c => c <| ncli ::= Z.add 1 |>).

Definition popcli : M mach unit :=
  e <- readeflags ;;
  if negb (Z.land e FL_IF =? 0) then panic "popcli - interruptible"
  else
    mycpu_put (fun c => c <| ncli ::= fun n => n - 1 |>) ;;;
    c <- mycpu_get ;;
    if ncli c <? 0 then panic "popcli"
    else when ((ncli c =? 0) && negb (intena c =? 0)) sti.

Definition initlock (lk : nat) (nm : string) : M mach unit :=
  put_lock lk (Spinlock 0 nm None).

Definition holding (lk : nat) : M mach bool :=
  pushcli ;;;
  l <- get_lock lk ;;
  r <- (if locked l =? 0 then ret false
        else i <- mycpu ;; ret (bool_decide (lcpu l = Some i))) ;;
  popcli ;;;
  ret r.

(** [xchg(&lk->locked, 1)]: the old value. *)
Definition xchg (lk : nat) : M mach Z :=
  l <- get_lock lk ;; put_lock lk (l <| locked := 1 |>) ;;; ret (locked l).

Definition acquire (lk : nat) : M mach unit :=
  pushcli ;;;
  h <- holding lk ;;
  if (h : bool) then panic "acquire"
  else
    old <- xchg lk ;;
    if negb (old =? 0) then (fun m => Spin m)
    else
      i <- mycpu ;;
      l <- get_lock lk ;;
      put_lock lk (l <| lcpu := Some i |>).

Definition release (lk : nat) : M mach unit :=
  h <- holding lk ;;
  if negb h then panic "release"
  else
    l <- get_lock lk ;;
    put_lock lk (l <| lcpu := None |>) ;;;
    l <- get_lock lk ;;
    put_lock lk (l <| locked := 0 |>) ;;;
    popcli.

Definition myproc : M mach (option nat) :=
  pushcli ;;;
  c <- mycpu_get ;;
  popcli ;;;
  ret (proc c).

(** *** The interrupt flag *)

Lemma land_FL_IF e : Z.land e FL_IF = if Z.testbit e 9 then FL_IF else 0.
Proof.
  change FL_IF with (2 ^ 9). apply Z.bits_inj'. intros n Hn.
  rewrite Z.land_spec, Z.pow2_bits_eqb by lia.
  destruct (Z.eqb_spec 9 n) as [<-|Hne].
  - rewrite andb_true_r. destruct (Z.testbit e 9); [|by rewrite Z.bits_0].
    by rewrite Z.pow2_bits_true by lia.
  - rewrite andb_false_r. destruct (Z.testbit e 9); [|by rewrite Z.bits_0].
    by rewrite Z.pow2_bits_false by lia.
Qed.

Lemma cli_clears e : Z.land (Z.land e (Z.lnot FL_IF)) FL_IF = 0.
Proof.
  rewrite <- Z.land_assoc, (Z.land_comm (Z.lnot _)), Z.land_lnot_diag.
  apply Z.land_0_r.
Qed.

Lemma cli_off e : Z.land e FL_IF = 0 -> Z.land e (Z.lnot FL_IF) = e.
Proof.
  intros H. rewrite <- Z.ldiff_land.
  rewrite <- (Z.add_0_r e) at 2. rewrite <- H. symmetry.
  rewrite H, Z.add_0_r. apply Z.bits_inj'. intros n Hn. rewrite Z.ldiff_spec.
  assert (Hb : Z.testbit (Z.land e FL_IF) n = false) by (rewrite H; apply Z.bits_0).
  rewrite Z.land_spec in Hb. by destruct (Z.testbit e n), (Z.testbit FL_IF n).
Qed.

Lemma sti_restores e :
  Z.land e FL_IF <> 0 -> Z.lor (Z.land e (Z.lnot FL_IF)) FL_IF = e.
Proof.
  intros H. rewrite land_FL_IF in H. destruct (Z.testbit e 9) eqn:E; [|done].
  apply Z.bits_inj'. intros n Hn. change FL_IF with (2 ^ 9).
  rewrite Z.lor_spec, Z.land_spec, Z.lnot_spec, Z.pow2_bits_eqb by lia.
  destruct (Z.eqb_spec 9 n) as [<-|Hne].
  - by rewrite E, orb_true_r.
  - by rewrite andb_true_r, orb_false_r.
Qed.

Lemma find_apic_insert cs id c r r' :
  find_apic cs id = Some c -> cs !! c = Some r -> apicid r' = apicid r ->
  find_apic (<[c := r']> cs) id = Some c.
Proof.
  revert c. induction cs as [|x cs IH]; intros c Hf Hc Hr; [done|].
  simpl in Hf. destruct (apicid x =? id) eqn:E.
  - injection Hf as <-. injection Hc as <-. simpl. by rewrite Hr, E.
  - destruct (find_apic cs id) as [c'|] eqn:Ef; [|done].
    injection Hf as <-. simpl in *. rewrite E. by rewrite (IH c').
Qed.

(** *** One CPU's view

    [view m c held]: the executing CPU is number [c]; the locks it holds are
    [held]; its interrupts are off if it holds one; every other lock is free. *)
Record view (m : mach) (c : nat) (held : list nat) : Prop := {
  v_cpu : find_apic (cpus m) (lapicid m) = Some c;
  v_ncli : exists r, cpus m !! c = Some r /\ ncli r = Z.of_nat (length held);
  v_if : held <> [] -> Z.land (eflags m) FL_IF = 0;
  v_nodup : NoDup held;
  v_held i : i ∈ held ->
    exists l, locks m !! i = Some l /\ locked l = 1 /\ lcpu l = Some c;
  v_free i l : locks m !! i = Some l -> i ∉ held -> locked l = 0;
}.

(** The executing CPU is [c] with record [r]. *)
Definition on_cpu (m : mach) (c : nat) (r : cpu) : Prop :=
  find_apic (cpus m) (lapicid m) = Some c /\ cpus m !! c = Some r.

Lemma mycpu_ok m c r :
  on_cpu m c r -> Z.land (eflags m) FL_IF = 0 -> mycpu m = Ret c m.
Proof.
  intros [Hf Hc] He. unfold mycpu, readeflags, gets, bind. simpl.
  rewrite He. simpl. by rewrite Hf.
Qed.

Lemma mycpu_get_ok m c r :
  on_cpu m c r -> Z.land (eflags m) FL_IF = 0 -> mycpu_get m = Ret r m.
Proof.
  intros H He. unfold mycpu_get, bind. rewrite (mycpu_ok m c r) by done.
  simpl. unfold get_cpu. by rewrite (proj2 H).
Qed.

Lemma mycpu_put_ok m c r f :
  on_cpu m c r -> Z.land (eflags m) FL_IF = 0 ->
  mycpu_put f m = Ret tt (m <| cpus ::= <[c := f r]> |>).
Proof.
  intros H He. unfold mycpu_put, bind. rewrite (mycpu_ok m c r) by done.
  simpl. unfold get_cpu. rewrite (proj2 H). simpl.
  unfold put_cpu. by rewrite (proj2 H).
Qed.

Lemma on_cpu_insert m c r r' :
  on_cpu m c r -> apicid r' = apicid r ->
  on_cpu (m <| cpus ::= <[c := r']> |>) c r'.
Proof.
  intros [Hf Hc] Hr. split; simpl.
  - by apply (find_apic_insert _ _ _ r).
  - apply list_lookup_insert_eq. by eapply lookup_lt_Some.
Qed.

Definition pushed (e : Z) (r : cpu) : cpu :=
  (if ncli r =? 0 then r <| intena := Z.land e FL_IF |> else r) <| ncli ::= Z.add 1 |>.

Lemma pushcli_ok m c r :
  on_cpu m c r ->
  pushcli m = Ret tt (Mach (<[c := pushed (eflags m) r]> (cpus m)) (lapicid m)
                        (Z.land (eflags m) (Z.lnot FL_IF)) (locks m)).
Proof.
  intros H. unfold pushcli, readeflags, cli, gets, modify, bind. simpl.
  set (m1 := Mach _ _ _ _).
  assert (H1 : on_cpu m1 c r) by done.
  assert (He : Z.land (eflags m1) FL_IF = 0) by apply cli_clears.
  rewrite (mycpu_get_ok m1 c r) by done. simpl. unfold pushed.
  destruct (ncli r =? 0); unfold when.
  - rewrite (mycpu_put_ok m1 c r) by done. cbn [obind].
    erewrite mycpu_put_ok; [|by apply (on_cpu_insert m1 c r)|done].
    simpl. do 2 f_equal. apply list_insert_insert_eq.
  - unfold ret. cbn [obind]. by rewrite (mycpu_put_ok m1 c r).
Qed.

Lemma popcli_ok m c r :
  on_cpu m c r -> Z.land (eflags m) FL_IF = 0 -> 1 <= ncli r ->
  popcli m = Ret tt (Mach (<[c := r <| ncli ::= fun n => n - 1 |>]> (cpus m)) (lapicid m)
    (if (ncli r =? 1) && negb (intena r =? 0) then Z.lor (eflags m) FL_IF else eflags m)
    (locks m)).
Proof.
  intros H He Hn. unfold popcli, readeflags, gets, bind. simpl. rewrite He. simpl.
  rewrite (mycpu_put_ok m c r) by done. simpl.
  set (r' := Cpu _ _ _ _). set (m1 := Mach _ _ _ _).
  assert (H1 : on_cpu m1 c r') by (by apply (on_cpu_insert m c r)).
  rewrite (mycpu_get_ok m1 c r') by done. simpl.
  replace (ncli r - 1 <? 0) with false by lia.
  replace (ncli r - 1 =? 0) with (ncli r =? 1) by lia.
  destruct ((ncli r =? 1) && negb (intena r =? 0)); done.
Qed.

(** The machine inside a [pushcli]/[popcli] pair, and after it. *)
Definition in_cli (m : mach) (c : nat) (r : cpu) : mach :=
  Mach (<[c := pushed (eflags m) r]> (cpus m)) (lapicid m)
    (Z.land (eflags m) (Z.lnot FL_IF)) (locks m).
Definition after_cli (m : mach) (c : nat) (r : cpu) : mach :=
  m <| cpus ::= <[c := if ncli r =? 0 then r <| intena := Z.land (eflags m) FL_IF |> else r]> |>.

(** The nesting discipline: a CPU inside a [pushcli] runs with interrupts off. *)
Definition cli_ok (m : mach) (r : cpu) : Prop :=
  0 <= ncli r /\ (ncli r <> 0 -> Z.land (eflags m) FL_IF = 0).

Lemma on_cpu_in_cli m c r :
  on_cpu m c r -> on_cpu (in_cli m c r) c (pushed (eflags m) r).
Proof.
  intros H. apply (on_cpu_insert m c r) with (r' := pushed (eflags m) r); [done|].
  unfold pushed. by destruct (ncli r =? 0).
Qed.

Lemma on_cpu_after_cli m c r :
  on_cpu m c r ->
  on_cpu (after_cli m c r) c
    (if ncli r =? 0 then r <| intena := Z.land (eflags m) FL_IF |> else r).
Proof. intros H. apply (on_cpu_insert m c r); [done|]. by destruct (ncli r =? 0). Qed.

Lemma popcli_in_cli m c r :
  on_cpu m c r -> cli_ok m r -> popcli (in_cli m c r) = Ret tt (after_cli m c r).
Proof.
  intros H [Hn He]. rewrite (popcli_ok _ c (pushed (eflags m) r)); first last.
  - unfold pushed. destruct (ncli r =? 0); simpl; lia.
  - apply cli_clears.
  - by apply on_cpu_in_cli.
  - unfold in_cli, after_cli. simpl. do 2 f_equal.
    + rewrite list_insert_insert_eq. f_equal. unfold pushed.
      destruct r as [a n i p]; simpl in *. destruct (n =? 0) eqn:E; simpl; f_equal; lia.
    + unfold pushed. destruct (ncli r =? 0) eqn:E; simpl.
      * replace (1 + ncli r =? 1) with true by lia. simpl.
        destruct (Z.land (eflags m) FL_IF =? 0) eqn:Ef; simpl.
        -- apply cli_off. lia.
        -- apply sti_restores. lia.
      * replace (1 + ncli r =? 1) with false by lia. simpl. apply cli_off, He. lia.
Qed.

Lemma after_cli_nested m c r :
  on_cpu m c r -> ncli r <> 0 -> after_cli m c r = m.
Proof.
  intros [_ Hc] Hn. unfold after_cli. replace (ncli r =? 0) with false by lia.
  destruct m; simpl in *. f_equal. by apply list_insert_id.
Qed.

Lemma holding_raw m c r lk l :
  on_cpu m c r -> cli_ok m r -> locks m !! lk = Some l ->
  holding lk m = Ret (negb (locked l =? 0) && bool_decide (lcpu l = Some c))
                     (after_cli m c r).
Proof.
  intros H Hok Hl. unfold holding, bind. rewrite (pushcli_ok m c r) by done.
  fold (in_cli m c r). cbn [obind].
  unfold get_lock at 1. change (locks (in_cli m c r)) with (locks m). rewrite Hl.
  cbn [obind]. destruct (locked l =? 0); simpl.
  - by rewrite popcli_in_cli.
  - rewrite (mycpu_ok _ c (pushed (eflags m) r)); [|by apply on_cpu_in_cli|apply cli_clears].
    simpl. by rewrite popcli_in_cli.
Qed.

Lemma view_on_cpu m c held :
  view m c held -> exists r, on_cpu m c r /\ ncli r = Z.of_nat (length held) /\ cli_ok m r.
Proof.
  intros [Hf (r & Hc & Hn) He _ _ _]. exists r. split_and!; [done..|]. split; [lia|].
  intros Hnz. apply He. intros ->. simpl in Hn. lia.
Qed.

Lemma view_after_cli m c r held :
  view m c held -> on_cpu m c r -> view (after_cli m c r) c held.
Proof.
  intros V H. pose proof (on_cpu_after_cli m c r H) as [Hf Hc].
  destruct V as [_ (r' & Hr' & Hn) He Hd Hh Hfr].
  assert (r' = r) as -> by (destruct H; congruence).
  split; simpl in *; try done. eexists; split; [exact Hc|]. by destruct (ncli r =? 0).
Qed.

(** [holding] answers whether this CPU is among the holders. *)
Lemma holding_ok m c held lk l :
  view m c held -> locks m !! lk = Some l ->
  exists m', holding lk m = Ret (bool_decide (lk ∈ held)) m' /\ view m' c held /\
    proc <$> cpus m' = proc <$> cpus m.
Proof.
  intros V Hl. destruct (view_on_cpu m c held V) as (r & H & Hn & Hok).
  exists (after_cli m c r). rewrite (holding_raw m c r lk l) by done. split_and!.
  - f_equal. destruct (decide (lk ∈ held)) as [Hin|Hin].
    + rewrite (bool_decide_eq_true_2 (lk ∈ held)) by done.
      destruct (v_held _ _ _ V lk Hin) as (l' & Hl' & Hk & Hc'). simplify_eq.
      rewrite Hk, Hc'. by case_bool_decide.
    + rewrite (bool_decide_eq_false_2 (lk ∈ held)) by done.
      by rewrite (v_free _ _ _ V lk l Hl Hin).
  - by apply view_after_cli.
  - simpl. rewrite list_fmap_insert. apply list_insert_id.
    rewrite list_lookup_fmap, (proj2 H). by destruct (ncli r =? 0).
Qed.

Lemma acquire_ok m c held lk l :
  view m c held -> locks m !! lk = Some l -> lk ∉ held ->
  exists m', acquire lk m = Ret tt m' /\ view m' c (lk :: held) /\
    proc <$> cpus m' = proc <$> cpus m /\ length (locks m') = length (locks m).
Proof.
  intros V Hl Hin. destruct (view_on_cpu m c held V) as (r & H & Hn & Hok).
  unfold acquire, bind. rewrite (pushcli_ok m c r) by done. fold (in_cli m c r).
  cbn [obind]. set (r1 := pushed (eflags m) r). set (m1 := in_cli m c r).
  assert (H1 : on_cpu m1 c r1) by (by apply on_cpu_in_cli).
  assert (Hn1 : ncli r1 = Z.of_nat (length held) + 1)
    by (unfold r1, pushed; destruct (ncli r =? 0); simpl; lia).
  assert (He1 : Z.land (eflags m1) FL_IF = 0) by apply cli_clears.
  assert (Hok1 : cli_ok m1 r1) by (split; [lia|done]).
  rewrite (holding_raw m1 c r1 lk l) by done.
  rewrite after_cli_nested by (done || lia). cbn [obind].
  assert (Hfree : locked l = 0) by (by eapply v_free).
  rewrite Hfree. cbn [negb Z.eqb andb obind].
  set (l1 := Spinlock 1 (name l) (lcpu l)).
  set (m2 := Mach (cpus m1) (lapicid m) (eflags m1) (<[lk := l1]> (locks m))).
  assert (Hx : xchg lk m1 = Ret 0 m2).
  { unfold xchg, bind, get_lock, put_lock. simpl. rewrite Hl. simpl. rewrite Hl.
    simpl. by rewrite Hfree. }
  rewrite Hx. cbn [obind negb Z.eqb].
  assert (Hlen : (lk < length (locks m))%nat) by (by eapply lookup_lt_Some).
  rewrite (mycpu_ok m2 c r1) by done. cbn [obind]. unfold get_lock, put_lock. simpl.
  rewrite list_lookup_insert_eq by done. simpl.
  rewrite list_lookup_insert_eq by done. eexists. split; [reflexivity|].
  split; [|split].
  - destruct V as [Vf _ _ Vd Vh Vfr]. split; cbn [cpus lapicid eflags locks].
    + apply H1.
    + exists r1. split; [apply H1|]. rewrite Hn1, length_cons. lia.
    + done.
    + by constructor.
    + intros i [->|Hi]%elem_of_cons.
      * eexists. rewrite list_insert_insert_eq, list_lookup_insert_eq by done. done.
      * rewrite list_insert_insert_eq, list_lookup_insert_ne by set_solver. by apply Vh.
    + intros i l' Hl' Hi. apply not_elem_of_cons in Hi as [Hne Hi].
      rewrite list_insert_insert_eq, list_lookup_insert_ne in Hl' by done. by eapply Vfr.
  - simpl. rewrite list_fmap_insert. apply list_insert_id.
    rewrite list_lookup_fmap, (proj2 H). unfold r1, pushed. by destruct (ncli r =? 0).
  - simpl. by rewrite !length_insert.
Qed.

Lemma view_perm m c held held' :
  held ≡ₚ held' -> view m c held -> view m c held'.
Proof.
  intros Hp [Vf (r & Hr & Hn) Ve Vd Vh Vfr]. split; [done|..].
  - exists r. by rewrite <- Hp.
  - intros Hne. apply Ve. intros ->. by apply Permutation_nil_l in Hp.
  - by rewrite <- Hp.
  - intros i Hi. apply Vh. by rewrite Hp.
  - intros i l Hl Hi. eapply Vfr; [done|]. by rewrite Hp.
Qed.

Lemma release_ok m c held lk :
  view m c (lk :: held) ->
  exists m', release lk m = Ret tt m' /\ view m' c held /\
    proc <$> cpus m' = proc <$> cpus m /\ length (locks m') = length (locks m).
Proof.
  intros V. destruct (view_on_cpu m c _ V) as (r & H & Hn & Hok).
  rewrite length_cons in Hn.
  destruct (v_held _ _ _ V lk) as (l & Hl & Hk & Hlc); [set_solver|].
  assert (Hlen : (lk < length (locks m))%nat) by (by eapply lookup_lt_Some).
  assert (He : Z.land (eflags m) FL_IF = 0) by (by apply (v_if _ _ _ V)).
  unfold release, bind. rewrite (holding_raw m c r lk l) by done.
  rewrite after_cli_nested by (done || lia). rewrite Hk, Hlc.
  rewrite bool_decide_eq_true_2 by done. cbn [negb Z.eqb andb obind].
  unfold get_lock, put_lock. rewrite Hl. cbn [obind]. rewrite Hl. cbn [obind].
  simpl. rewrite list_lookup_insert_eq by done. cbn [obind]. simpl.
  rewrite list_lookup_insert_eq by done. rewrite list_insert_insert_eq. simpl.
  rewrite (popcli_ok _ c r); [|done|done|lia].
  eexists. split; [reflexivity|]. split_and!.
  - destruct V as [Vf _ _ Vd Vh Vfr]. apply NoDup_cons in Vd as [Hni Vd].
    destruct (on_cpu_insert m c r (r <| ncli ::= fun n => n - 1 |>)) as [Hf' Hc'];
      [done..|].
    split; cbn [cpus lapicid eflags locks].
    + exact Hf'.
    + eexists. split; [exact Hc'|]. simpl. lia.
    + intros Hne. replace (ncli r =? 1) with false; [done|].
      destruct held; [done|]. rewrite length_cons in Hn. lia.
    + done.
    + intros i Hi. assert (i <> lk) by set_solver.
      rewrite list_lookup_insert_ne by done. apply Vh. set_solver.
    + intros i l' Hl' Hi. destruct (decide (i = lk)) as [->|Hne].
      * rewrite list_lookup_insert_eq in Hl' by done. by simplify_eq.
      * rewrite list_lookup_insert_ne in Hl' by done. eapply Vfr; [done|set_solver].
  - simpl. rewrite list_fmap_insert. apply list_insert_id.
    by rewrite list_lookup_fmap, (proj2 H).
  - simpl. by rewrite length_insert.
Qed.

Lemma acquire_again m c held lk :
  view m c held -> lk ∈ held -> exists m', acquire lk m = Panic "acquire" m'.
Proof.
  intros V Hin. destruct (view_on_cpu m c held V) as (r & H & Hn & Hok).
  destruct (v_held _ _ _ V lk Hin) as (l & Hl & Hk & Hlc).
  unfold acquire, bind. rewrite (pushcli_ok m c r) by done. fold (in_cli m c r).
  cbn [obind].
  assert (Hp : 1 <= ncli (pushed (eflags m) r))
    by (unfold pushed; destruct (ncli r =? 0); simpl; lia).
  rewrite (holding_raw _ c (pushed (eflags m) r) lk l).
  - rewrite Hk, Hlc, bool_decide_eq_true_2 by done. cbn. by eexists.
  - by apply on_cpu_in_cli.
  - split; [lia|]. intros _. apply cli_clears.
  - done.
Qed.

Lemma release_not m c held lk l :
  view m c held -> lk ∉ held -> locks m !! lk = Some l ->
  exists m', release lk m = Panic "release" m'.
Proof.
  intros V Hni Hl. destruct (holding_ok m c held lk l V Hl) as (m' & Hh & _ & _).
  unfold release, bind. rewrite Hh, bool_decide_eq_false_2 by done. cbn. by eexists.
Qed.

Definition curproc (m : mach) : option nat :=
  c ← find_apic (cpus m) (lapicid m); r ← cpus m !! c; proc r.

Lemma curproc_view m c held :
  view m c held -> curproc m = (proc <$> cpus m) !! c ≫= id.
Proof.
  intros V. unfold curproc. rewrite (v_cpu _ _ _ V). simpl.
  rewrite list_lookup_fmap. by destruct (cpus m !! c).
Qed.

Lemma curproc_same m m' c held held' :
  view m c held -> view m' c held' -> proc <$> cpus m' = proc <$> cpus m ->
  curproc m' = curproc m.
Proof.
  intros V V' E. by rewrite (curproc_view _ _ _ V), (curproc_view _ _ _ V'), E.
Qed.

Lemma myproc_ok m c held :
  view m c held ->
  exists m', myproc m = Ret (curproc m) m' /\ view m' c held /\
    proc <$> cpus m' = proc <$> cpus m /\ locks m' = locks m.
Proof.
  intros V. destruct (view_on_cpu m c held V) as (r & H & Hn & Hok).
  unfold myproc, bind. rewrite (pushcli_ok m c r) by done. fold (in_cli m c r). cbn [obind].
  rewrite (mycpu_get_ok _ c (pushed (eflags m) r));
    [|by apply on_cpu_in_cli|apply cli_clears]. cbn [obind].
  rewrite popcli_in_cli by done. cbn. eexists. split_and!.
  - unfold curproc, ret. destruct H as [Hf Hc]. rewrite Hf. simpl. rewrite Hc. simpl.
    f_equal. unfold pushed. by destruct (ncli r =? 0).
  - by apply view_after_cli.
  - simpl. rewrite list_fmap_insert. apply list_insert_id.
    rewrite list_lookup_fmap, (proj2 H). by destruct (ncli r =? 0).
  - done.
Qed.

(** *** The interface discharged

    Lock 0 is [ptable.lock], lock 1 the caller's own lock. *)

Definition PT : nat := 0.
Definition OWN : nat := 1.
Definition held_locks (o p : bool) : list nat :=
  (if p then [PT] else []) ++ (if o then [OWN] else []).

Definition mach_holds (m : mach) (o p : bool) : Prop :=
  (2 <= length (locks m))%nat /\ exists c, view m c (held_locks o p).

Lemma acquire_holds m lk o p o' p' :
  mach_holds m o p -> (lk < 2)%nat -> lk ∉ held_locks o p ->
  lk :: held_locks o p ≡ₚ held_locks o' p' ->
  exists m', acquire lk m = Ret tt m' /\ mach_holds m' o' p' /\ curproc m' = curproc m.
Proof.
  intros [Hlen [c V]] Hlk Hni Hp.
  destruct (lookup_lt_is_Some_2 (locks m) lk) as [l Hl]; [lia|].
  destruct (acquire_ok m c _ lk l V Hl Hni) as (m' & Ha & V' & Hproc & Hl').
  exists m'. split_and!; [done| |by eapply curproc_same].
  split; [lia|]. exists c. by eapply view_perm.
Qed.

Lemma release_holds m lk o p o' p' :
  mach_holds m o p -> held_locks o p ≡ₚ lk :: held_locks o' p' ->
  exists m', release lk m = Ret tt m' /\ mach_holds m' o' p' /\ curproc m' = curproc m.
Proof.
  intros [Hlen [c V]] Hp. pose proof (view_perm _ _ _ _ Hp V) as V1.
  destruct (release_ok m c _ lk V1) as (m' & Hr & V' & Hproc & Hl').
  exists m'. split_and!; [done| |by eapply curproc_same].
  split; [lia|]. by exists c.
Qed.

Lemma setproc_holds m o x :
  mach_holds m o true ->
  exists m', mycpu_put (fun c => c <| proc := x |>) m = Ret tt m' /\
    mach_holds m' o true /\ curproc m' = x.
Proof.
  intros [Hlen [c V]]. destruct (view_on_cpu m c _ V) as (r & H & Hn & Hok).
  assert (He : Z.land (eflags m) FL_IF = 0) by (by apply (v_if _ _ _ V)).
  rewrite (mycpu_put_ok m c r) by done. eexists. split; [reflexivity|].
  destruct (on_cpu_insert m c r (r <| proc := x |>)) as [Hf Hc]; [done..|].
  split.
  - split; [done|]. exists c. destruct V as [Vf (r' & Hr' & Hn') Ve Vd Vh Vfr].
    split; [exact Hf| |done..]. eexists. split; [exact Hc|]. done.
  - unfold curproc. simpl in *. rewrite Hf. simpl. by rewrite Hc.
Qed.

#[export] Instance mach_CpuLock : CpuLock mach.
Proof.
  refine {|
    lk_acquire_pt := acquire PT; lk_release_pt := release PT;
    lk_holding_pt := holding PT;
    lk_acquire_own := acquire OWN; lk_release_own := release OWN;
    lk_myproc := myproc;
    lk_setproc := fun x => mycpu_put (fun c => c <| proc := x |>);
    lk_ncli := c <- mycpu_get ;; ret (ncli c);
    lk_eflags := readeflags;
    lk_intena := c <- mycpu_get ;; ret (intena c);
    lk_set_intena := fun z => mycpu_put (fun c => c <| intena := z |>);
    holds := mach_holds; curp := curproc |}.
  - intros m o H. apply (acquire_holds m PT o false); [done|unfold PT; lia| |done].
    destruct o; set_solver.
  - intros m o [_ [c V]]. eapply acquire_again; [exact V|set_solver].
  - intros m o H. by apply (release_holds m PT o true).
  - intros m o [Hl [c V]]. destruct (lookup_lt_is_Some_2 (locks m) PT) as [l Hl'];
      [unfold PT; lia|].
    eapply release_not; [exact V| |exact Hl']. destruct o; set_solver.
  - intros m o p [Hl [c V]]. destruct (lookup_lt_is_Some_2 (locks m) PT) as [l Hl'];
      [unfold PT; lia|].
    destruct (holding_ok m c _ PT l V Hl') as (m' & Hh & V' & Hp).
    assert (Hb : bool_decide (PT ∈ held_locks o p) = p) by (by destruct o, p).
    rewrite Hb in Hh. exists m'. split_and!; [done| |by eapply curproc_same].
    split; [|by exists c].
    destruct (view_on_cpu m c _ V) as (r & H & Hn & Hok).
    rewrite (holding_raw m c r PT l) in Hh by done. by simplify_eq.
  - intros m p H. apply (acquire_holds m OWN false p); [done|unfold OWN; lia| |].
    + destruct p; set_solver.
    + destruct p; [apply Permutation_swap|done].
  - intros m H. apply (release_holds m OWN true true); [done|apply Permutation_swap].
  - intros m o p [Hl [c V]]. destruct (myproc_ok m c _ V) as (m' & Hm & V' & Hp & Hlk).
    exists m'. split_and!; [done| |by eapply curproc_same].
    split; [by rewrite Hlk|by exists c].
  - apply setproc_holds.
  - intros m o [Hl [c V]]. destruct (view_on_cpu m c _ V) as (r & H & Hn & Hok).
    unfold bind. rewrite (mycpu_get_ok m c r) by (done || by apply (v_if _ _ _ V)).
    simpl. unfold ret. rewrite Hn. by destruct o.
  - intros m o [Hl [c V]]. exists (eflags m). split; [done|]. by apply (v_if _ _ _ V).
  - intros m o [Hl [c V]]. destruct (view_on_cpu m c _ V) as (r & H & Hn & Hok).
    unfold bind. rewrite (mycpu_get_ok m c r) by (done || by apply (v_if _ _ _ V)).
    by eexists.
  - intros m o z [Hlen [c V]]. destruct (view_on_cpu m c _ V) as (r & H & Hn & Hok).
    rewrite (mycpu_put_ok m c r) by (done || by apply (v_if _ _ _ V)).
    eexists. split; [reflexivity|].
    destruct (on_cpu_insert m c r (r <| intena := z |>)) as [Hf Hc]; [done..|].
    split.
    + split; [done|]. exists c. destruct V as [Vf (r' & Hr' & Hn') Ve Vd Vh Vfr].
      split; [exact Hf| |done..]. eexists. split; [exact Hc|]. done.
    + unfold curproc. destruct H as [Hf0 Hc0]. rewrite Hf0. simpl in *. rewrite Hf. simpl.
      by rewrite Hc, Hc0.
Defined.

(** *** Nesting *)

(** A matched [pushcli]/[popcli] pair leaves the machine as it found it:
    the flags register, the nesting depth, the APIC id and the locks are those
    before the pair, whether interrupts were on or off and whatever the depth;
    only the saved [intena] of the executing CPU may differ, and only if the
    depth was 0.  In between, the depth is one more and interrupts are off. *)
Theorem pushcli_popcli_restores m c r :
  find_apic (cpus m) (lapicid m) = Some c -> cpus m !! c = Some r -> 0 <= ncli r ->
  (ncli r <> 0 -> Z.land (eflags m) FL_IF = 0) ->
  exists m1 r1 i m2,
    pushcli m = Ret tt m1 /\ Z.land (eflags m1) FL_IF = 0 /\
    cpus m1 !! c = Some r1 /\ ncli r1 = ncli r + 1 /\
    popcli m1 = Ret tt m2 /\
    m2 = m <| cpus ::= <[c := r <| intena := i |>]> |> /\
    (ncli r <> 0 -> m2 = m).
Proof.
  intros Hf Hc Hn He. assert (H : on_cpu m c r) by done.
  exists (in_cli m c r), (pushed (eflags m) r),
    (if ncli r =? 0 then Z.land (eflags m) FL_IF else intena r), (after_cli m c r).
  split_and!.
  - by apply pushcli_ok.
  - apply cli_clears.
  - by apply on_cpu_in_cli.
  - unfold pushed. destruct (ncli r =? 0); simpl; lia.
  - by apply popcli_in_cli.
  - unfold after_cli. destruct r; simpl. by destruct (_ =? 0).
  - intros Hnz. by apply after_cli_nested.
Qed.

Definition boot_mach : mach :=
  Mach [Cpu 0 0 0 (Some 3%nat); Cpu 1 0 0 None] 1 FL_IF [Spinlock 0 "ptable" None; Spinlock 0 "own" None].

Lemma pushcli_popcli_witness :
  exists m1 r1 i m2,
    pushcli boot_mach = Ret tt m1 /\ Z.land (eflags m1) FL_IF = 0 /\
    cpus m1 !! 1%nat = Some r1 /\ ncli r1 = 0 + 1 /\
    popcli m1 = Ret tt m2 /\
    m2 = boot_mach <| cpus ::= <[1%nat := Cpu 1 0 i None]> |> /\
    (0 <> 0 -> m2 = boot_mach).
Proof.
  apply (pushcli_popcli_restores boot_mach 1%nat (Cpu 1 0 0 None)); [reflexivity..|simpl; lia|].
  intros H. exfalso. apply H. reflexivity.
Defined.

(** *** Several CPUs: one lock, interleaved instruction by instruction

    Where a CPU is in [acquire] .. [release] on the lock: spinning or outside,
    past the successful [xchg], in the critical section, past [lk->cpu = 0]. *)
Inductive lpc := Outside | Got | Crit | Leaving.

#[export] Instance lpc_eq_dec : EqDecision lpc.
Proof. solve_decision. Defined.

Record lworld := LWorld { wlock : spinlock; pcs : list lpc }.
#[export] Instance lworld_eta : Eta lworld := fun r => LWorld (wlock r) (pcs r).

(** The next instruction of CPU [c] that touches the lock. *)
Definition lk_instr (c : nat) (w : lworld) : option lworld :=
  match pcs w !! c with
  | None => None
  | Some Outside =>   (* while(xchg(&lk->locked, 1) != 0) *)
      let w' := w <| wlock ::= fun l => l <| locked := 1 |> |> in
      Some (if locked (wlock w) =? 0 then w' <| pcs ::= <[c := Got]> |> else w')
  | Some Got =>       (* lk->cpu = mycpu() *)
      Some (w <| wlock ::= fun l => l <| lcpu := Some c |> |> <| pcs ::= <[c := Crit]> |>)
  | Some Crit =>      (* release: lk->cpu = 0 *)
      Some (w <| wlock ::= fun l => l <| lcpu := None |> |> <| pcs ::= <[c := Leaving]> |>)
  | Some Leaving =>   (* release: lk->locked = 0 *)
      Some (w <| wlock ::= fun l => l <| locked := 0 |> |> <| pcs ::= <[c := Outside]> |>)
  end.

Definition lk_step (w w' : lworld) : Prop := exists c, lk_instr c w = Some w'.

(** What [holding] reads on CPU [c] at this point. *)
Definition holding_now (c : nat) (w : lworld) : bool :=
  negb (locked (wlock w) =? 0) && bool_decide (lcpu (wlock w) = Some c).

(** The instructions are those of [acquire] and [release]: what the routines do
    to the lock on one CPU is what it does with consecutive turns. *)
Lemma acquire_instrs m c r lk l ps :
  on_cpu m c r -> cli_ok m r -> locks m !! lk = Some l -> ps !! c = Some Outside ->
  exists w1, lk_instr c (LWorld l ps) = Some w1 /\
    (locked l = 0 -> exists m' w2, lk_instr c w1 = Some w2 /\ pcs w2 !! c = Some Crit /\
       acquire lk m = Ret tt m' /\ locks m' = <[lk := wlock w2]> (locks m)) /\
    (locked l <> 0 -> lcpu l <> Some c -> pcs w1 = ps /\ exists m', acquire lk m = Spin m' /\ locks m' = <[lk := wlock w1]> (locks m)).
Proof.
  intros H Hok Hl Hc. assert (Hlt : (lk < length (locks m))%nat) by (by eapply lookup_lt_Some).
  assert (Hlc : (c < length ps)%nat) by (by eapply lookup_lt_Some).
  set (r1 := pushed (eflags m) r). set (m1 := in_cli m c r). assert (H1 : on_cpu m1 c r1) by (by apply on_cpu_in_cli).
  assert (Hn1 : 1 <= ncli r1) by (unfold r1, pushed; destruct Hok; destruct (ncli r =? 0); simpl; lia).
  assert (He1 : Z.land (eflags m1) FL_IF = 0) by apply cli_clears. assert (Hok1 : cli_ok m1 r1) by (split; [lia|done]).
  unfold lk_instr. simpl. rewrite Hc. eexists. split; [reflexivity|].
  unfold acquire, bind. rewrite (pushcli_ok m c r) by done. fold (in_cli m c r). fold m1. cbn [obind].
  rewrite (holding_raw m1 c r1 lk l) by done. rewrite after_cli_nested by (done || lia). split.
  - intros E. rewrite E. cbn [Z.eqb negb andb obind]. simpl. rewrite list_lookup_insert_eq by done.
    eexists _, _. split; [reflexivity|]. split; [simpl; apply list_lookup_insert_eq; by rewrite length_insert|].
    unfold xchg, get_lock, put_lock, bind, ret. simpl. rewrite Hl. simpl. rewrite Hl. simpl. rewrite E. simpl.
    erewrite (mycpu_ok _ c r1) by done. simpl. rewrite list_lookup_insert_eq by done. simpl.
    rewrite list_lookup_insert_eq by done. split; [reflexivity|]. simpl. by rewrite list_insert_insert_eq.
  - intros E Hcpu. rewrite (proj2 (Z.eqb_neq _ _) E). rewrite bool_decide_eq_false_2 by done. cbn [negb andb obind]. split; [done|].
    unfold xchg, get_lock, put_lock, bind, ret. simpl. rewrite Hl. simpl. rewrite Hl. simpl. rewrite (proj2 (Z.eqb_neq _ _) E). simpl.
    eexists. split; reflexivity.
Qed.

Lemma release_instrs m c r lk l ps :
  on_cpu m c r -> cli_ok m r -> 1 <= ncli r -> locks m !! lk = Some l -> holding_now c (LWorld l ps) = true -> ps !! c = Some Crit ->
  exists m' w1 w2, lk_instr c (LWorld l ps) = Some w1 /\ lk_instr c w1 = Some w2 /\ pcs w2 !! c = Some Outside /\
    release lk m = Ret tt m' /\ locks m' = <[lk := wlock w2]> (locks m).
Proof.
  intros H Hok Hn Hl Hh Hc. assert (Hlt : (lk < length (locks m))%nat) by (by eapply lookup_lt_Some).
  assert (Hlc : (c < length ps)%nat) by (by eapply lookup_lt_Some). assert (He : Z.land (eflags m) FL_IF = 0) by (apply Hok; lia).
  unfold holding_now in Hh. simpl in Hh. unfold lk_instr at 1. simpl. rewrite Hc. eexists _, _, _. split; [reflexivity|].
  unfold lk_instr. simpl. rewrite list_lookup_insert_eq by done. split; [reflexivity|].
  split; [simpl; apply list_lookup_insert_eq; by rewrite length_insert|].
  unfold release, bind. rewrite (holding_raw m c r lk l) by done. rewrite after_cli_nested by (done || lia). rewrite Hh. cbn [negb obind].
  unfold get_lock, put_lock. rewrite Hl. cbn [obind]. rewrite Hl. cbn [obind]. simpl. rewrite list_lookup_insert_eq by done. cbn [obind]. simpl.
  rewrite list_lookup_insert_eq by done. cbn [obind]. simpl. rewrite list_insert_insert_eq.
  rewrite (popcli_ok _ c r) by done. split; reflexivity.
Qed.

Definition lk_init (n : nat) (nm : string) : lworld :=
  LWorld (Spinlock 0 nm None) (replicate n Outside).

(** Either the lock is free and every CPU is outside, or exactly one CPU is
    between the successful [xchg] and the final store, and [lk->cpu] follows it. *)
Definition lk_inv (w : lworld) : Prop :=
  (locked (wlock w) = 0 /\ lcpu (wlock w) = None /\
     forall c p, pcs w !! c = Some p -> p = Outside) \/
  (locked (wlock w) = 1 /\ exists o q, pcs w !! o = Some q /\ q <> Outside /\
     (lcpu (wlock w) = if decide (q = Crit) then Some o else None) /\
     forall c p, pcs w !! c = Some p -> c <> o -> p = Outside).

Lemma lk_inv_step w w' : lk_inv w -> lk_step w w' -> lk_inv w'.
Proof.
  intros Hinv [c Hstep]. unfold lk_instr in Hstep.
  destruct (pcs w !! c) as [p|] eqn:Hc; [|done].
  assert (Hlt : (c < length (pcs w))%nat) by (by eapply lookup_lt_Some).
  destruct Hinv as [(Hl & Hcpu & Hall)|(Hl & o & q & Ho & Hq & Hcpu & Hall)].
  - rewrite (Hall c p Hc), Hl in Hstep. simpl in Hstep. injection Hstep as <-.
    right. simpl. split; [done|]. exists c, Got.
    rewrite list_lookup_insert_eq by done. split_and!; try done.
    intros c' p' Hp' Hne. rewrite list_lookup_insert_ne in Hp' by done. eauto.
  - destruct (decide (c = o)) as [->|Hne]; last first.
    { rewrite (Hall c p Hc Hne), Hl in Hstep. simpl in Hstep. injection Hstep as <-.
      right. simpl. split; [done|]. by exists o, q. }
    simplify_eq. destruct q; [done|..]; injection Hstep as <-; simpl in *.
    1,2: right; simpl; split; [done|]; eexists o, _;
      rewrite list_lookup_insert_eq by done; split_and!; [done..|];
      intros c' p' Hp' Hne; rewrite list_lookup_insert_ne in Hp' by done; eauto.
    left. simpl. split_and!; [done..|]. intros c' p' Hp'.
    destruct (decide (c' = o)) as [->|Hne].
    + rewrite list_lookup_insert_eq in Hp' by done. by simplify_eq.
    + rewrite list_lookup_insert_ne in Hp' by done. eauto.
Qed.

Lemma lk_inv_reach n nm w : rtc lk_step (lk_init n nm) w -> lk_inv w.
Proof.
  intros H. assert (H0 : lk_inv (lk_init n nm)).
  { left. split_and!; [done..|]. intros c p Hc. by apply lookup_replicate in Hc as [-> _]. }
  revert H0. induction H; eauto using lk_inv_step.
Qed.

(** C27: Mutual exclusion.  Whatever the interleaving of the instructions of
    [acquire] and [release] on any number of CPUs, at most one CPU is between
    its successful [xchg] and its releasing store; and [holding], which other
    code uses for its checks and which reads two fields without any lock, is
    exact: it answers true on precisely the CPU that is in the critical
    section, never for a stale or foreign [lk->cpu]. *)
Theorem spinlock_mutual_exclusion n nm w :
  rtc lk_step (lk_init n nm) w ->
  (forall c1 c2 p1 p2, pcs w !! c1 = Some p1 -> pcs w !! c2 = Some p2 ->
     p1 <> Outside -> p2 <> Outside -> c1 = c2) /\
  (forall c, holding_now c w = true <-> pcs w !! c = Some Crit).
Proof.
  intros H%lk_inv_reach. unfold holding_now.
  destruct H as [(Hl & Hcpu & Hall)|(Hl & o & q & Ho & Hq & Hcpu & Hall)]; rewrite Hl, Hcpu.
  - split; [intros; exfalso; eauto|]. intros c. split; [done|].
    intros Hc. by apply Hall in Hc.
  - split.
    + intros c1 c2 p1 p2 H1 H2 Hp1 Hp2.
      destruct (decide (c1 = o)), (decide (c2 = o)); subst; try done; exfalso; eauto.
    + intros c. simpl. rewrite bool_decide_eq_true. case_decide; subst.
      * split; [by intros [= <-]|]. intros Hc. f_equal.
        destruct (decide (c = o)) as [->|Hne]; [done|]. by apply Hall in Hc.
      * split; [done|]. intros Hc. destruct (decide (c = o)) as [->|Hne];
          [by simplify_eq|by apply Hall in Hc].
Qed.

Lemma spinlock_mutual_exclusion_witness :
  let w := LWorld (Spinlock 1 "ptable" (Some 1%nat)) [Outside; Crit] in
  holding_now 1 w = true <-> pcs w !! 1%nat = Some Crit.
Proof.
  intros w. apply (spinlock_mutual_exclusion 2 "ptable" w).
  eapply rtc_l; [exists 1%nat; reflexivity|].
  eapply rtc_l; [exists 0%nat; reflexivity|].
  eapply rtc_l; [exists 1%nat; reflexivity|]. apply rtc_refl.
Defined.

End Spin.
