(* ===== verification/Str.v ===== *)
(** * Byte and string routines (string.c)

    Memory is a list of bytes ([Z] in [0, 256)); a pointer is an offset.  A
    routine that reads or writes outside of the memory it is given answers
    [None] (undefined behaviour).  String arguments are the bytes from the
    pointer on; a string is what comes before the first 0. *)

From S2P Require Import Prelude.

Definition is_byte (b : Z) : Prop := 0 <= b < 256.

(** [*(p + i) = b] *)
Definition store (m : list Z) (i : nat) (b : Z) : option (list Z) :=
  if decide (i < length m)%nat then Some (<[i := b]> m) else None.

(** ** memset *)

(** x86.h: [stosb] stores [cnt] bytes, [stosl] [cnt] little-endian words. *)
Fixpoint stosb (m : list Z) (addr : nat) (data : Z) (cnt : nat) : option (list Z) :=
  match cnt with
  | O => Some m
  | S cnt => m ← store m addr (u8 data); stosb m (S addr) data cnt
  end.

Fixpoint stosl (m : list Z) (addr : nat) (data : Z) (cnt : nat) : option (list Z) :=
  match cnt with
  | O => Some m
  | S cnt =>
      m ← store m addr (u8 data);
      m ← store m (addr + 1) (u8 (Z.shiftr data 8));
      m ← store m (addr + 2) (u8 (Z.shiftr data 16));
      m ← store m (addr + 3) (u8 (Z.shiftr data 24));
      stosl m (addr + 4) data cnt
  end.

Definition memset (m : list Z) (dst : nat) (c : Z) (n : nat) : option (list Z) :=
  if (dst `mod` 4 =? 0)%nat && (n `mod` 4 =? 0)%nat then
    let c := Z.land c 0xFF in
    stosl m dst (Z.lor (Z.lor (Z.lor (Z.shiftl c 24) (Z.shiftl c 16)) (Z.shiftl c 8)) c) (n / 4)
  else stosb m dst c n.

(** ** memmove *)

(** [while(n-- > 0) *--d = *--s] from the ends *)
Fixpoint move_down (m : list Z) (d s n : nat) : option (list Z) :=
  match n with
  | O => Some m
  | S n => b ← m !! (s + n)%nat; m ← store m (d + n) b; move_down m d s n
  end.

(** [while(n-- > 0) *d++ = *s++] *)
Fixpoint move_up (m : list Z) (d s n : nat) : option (list Z) :=
  match n with
  | O => Some m
  | S n => b ← m !! s; m ← store m d b; move_up m (S d) (S s) n
  end.

Definition memmove (m : list Z) (d s n : nat) : option (list Z) :=
  if (s <? d)%nat && (d <? s + n)%nat then move_down m d s n else move_up m d s n.

(** ** Comparison *)

Fixpoint memcmp (s1 s2 : list Z) (n : nat) : option Z :=
  match n with
  | O => Some 0
  | S n =>
      a ← head s1; b ← head s2;
      if a =? b then memcmp (tail s1) (tail s2) n else Some (a - b)
  end.

Fixpoint strncmp (p q : list Z) (n : nat) : option Z :=
  match n with
  | O => Some 0
  | S n =>
      a ← head p; b ← head q;
      if negb (a =? 0) && (a =? b) then strncmp (tail p) (tail q) n
      else Some (u8 a - u8 b)
  end.

(** ** Copying *)

(** [while(n-- > 0) *s++ = 0] *)
Fixpoint zero_fill (s : list Z) (n : nat) {struct n} : option (list Z) :=
  match n, s with
  | O, _ => Some s
  | S n, _ :: s => cons 0 <$> zero_fill s n
  | S n, [] => None
  end.

Fixpoint strncpy (s t : list Z) (n : nat) {struct n} : option (list Z) :=
  match n, s with
  | O, _ => Some s
  | S n, _ :: s =>
      c ← head t;
      cons c <$> (if c =? 0 then zero_fill s n else strncpy s (tail t) n)
  | S n, [] => None
  end.

(** The loop of [safestrcpy], entered with [n > 0]: [while(--n > 0 && ...)]. *)
Fixpoint safestrcpy_loop (s t : list Z) (n : nat) {struct n} : option (list Z) :=
  match n with
  | O => store s 0 0
  | S n =>
      match s with
      | [] => None
      | _ :: s =>
          c ← head t;
          cons c <$> (if c =? 0 then store s 0 0 else safestrcpy_loop s (tail t) n)
      end
  end.

Definition safestrcpy (s t : list Z) (n : nat) : option (list Z) :=
  match n with O => Some s | S n => safestrcpy_loop s t n end.

Fixpoint strlen (s : list Z) : option Z :=
  match s with
  | [] => None
  | c :: s => if c =? 0 then Some 0 else Z.succ <$> strlen s
  end.

(** The string at the start of [s]. *)
Fixpoint cstr (s : list Z) : list Z :=
  match s with
  | [] => []
  | c :: s => if c =? 0 then [] else c :: cstr s
  end.

(** A NUL-terminated string starts at [s]. *)
Definition terminated (s : list Z) : Prop := 0 ∈ s.

(** ** Lemmas *)

Lemma store_ok m i b : (i < length m)%nat -> store m i b = Some (<[i := b]> m).
Proof. intros H. unfold store. by rewrite decide_True. Qed.

(** A block of [n] bytes at [d] replaced by [f 0 .. f (n-1)]. *)
Definition patched (m m' : list Z) (d n : nat) (f : nat -> option Z) : Prop :=
  length m' = length m /\
  forall i, m' !! i = if decide (d <= i < d + n)%nat then f (i - d)%nat else m !! i.

Lemma move_up_ok n : forall m d s,
  (d + n <= length m)%nat -> (s + n <= length m)%nat -> (d <= s \/ s + n <= d)%nat ->
  exists m', move_up m d s n = Some m' /\ patched m m' d n (fun k => m !! (s + k)%nat).
Proof.
  induction n as [|n IH]; intros m d s Hd Hs Hov; simpl.
  - exists m. split; [done|]. split; [done|]. intros i. rewrite decide_False by lia. done.
  - destruct (lookup_lt_is_Some_2 m s) as [b Hb]; [lia|]. rewrite Hb. simpl.
    rewrite store_ok by lia. simpl.
    destruct (IH (<[d := b]> m) (S d) (S s)) as (m' & Hm' & Hlen & Hl).
    { rewrite length_insert. lia. } { rewrite length_insert. lia. } { lia. }
    exists m'. split; [done|]. split; [by rewrite Hlen, length_insert|].
    intros i. rewrite Hl. repeat case_decide; try lia.
    + rewrite list_lookup_insert_ne by lia. f_equal. lia.
    + assert (i = d) as -> by lia. rewrite list_lookup_insert_eq by lia.
      rewrite <- Hb. f_equal. lia.
    + by rewrite list_lookup_insert_ne by lia.
Qed.

Lemma move_down_ok n : forall m d s,
  (d + n <= length m)%nat -> (s + n <= length m)%nat -> (s < d)%nat ->
  exists m', move_down m d s n = Some m' /\ patched m m' d n (fun k => m !! (s + k)%nat).
Proof.
  induction n as [|n IH]; intros m d s Hd Hs Hov; simpl.
  - exists m. split; [done|]. split; [done|]. intros i. rewrite decide_False by lia. done.
  - destruct (lookup_lt_is_Some_2 m (s + n)) as [b Hb]; [lia|]. rewrite Hb. simpl.
    rewrite store_ok by lia. simpl.
    destruct (IH (<[(d + n)%nat := b]> m) d s) as (m' & Hm' & Hlen & Hl).
    { rewrite length_insert. lia. } { rewrite length_insert. lia. } { lia. }
    exists m'. split; [done|]. split; [by rewrite Hlen, length_insert|].
    intros i. rewrite Hl. repeat case_decide; try lia.
    + by rewrite list_lookup_insert_ne by lia.
    + assert (i = d + n)%nat as -> by lia. rewrite list_lookup_insert_eq by lia.
      rewrite <- Hb. f_equal. lia.
    + by rewrite list_lookup_insert_ne by lia.
Qed.

Lemma memmove_ok m d s n :
  (d + n <= length m)%nat -> (s + n <= length m)%nat ->
  exists m', memmove m d s n = Some m' /\ patched m m' d n (fun k => m !! (s + k)%nat).
Proof.
  intros Hd Hs. unfold memmove. destruct ((s <? d)%nat && (d <? s + n)%nat) eqn:E.
  - apply andb_true_iff in E as [E _]. apply Nat.ltb_lt in E. by apply move_down_ok.
  - apply move_up_ok; [done..|].
    apply andb_false_iff in E as [E|E]; apply Nat.ltb_ge in E; lia.
Qed.

Lemma stosb_ok n : forall m d c,
  (d + n <= length m)%nat ->
  exists m', stosb m d c n = Some m' /\ patched m m' d n (fun _ => Some (u8 c)).
Proof.
  induction n as [|n IH]; intros m d c Hd; simpl.
  - exists m. split; [done|]. split; [done|]. intros i. rewrite decide_False by lia. done.
  - rewrite store_ok by lia. simpl.
    destruct (IH (<[d := u8 c]> m) (S d) c) as (m' & Hm' & Hlen & Hl).
    { rewrite length_insert. lia. }
    exists m'. split; [done|]. split; [by rewrite Hlen, length_insert|].
    intros i. rewrite Hl. repeat case_decide; try lia; try done.
    + assert (i = d) as -> by lia. by rewrite list_lookup_insert_eq by lia.
    + by rewrite list_lookup_insert_ne by lia.
Qed.

(** The word whose four bytes are [c]. *)
Definition word4 (c : Z) : Z :=
  Z.lor (Z.lor (Z.lor (Z.shiftl c 24) (Z.shiftl c 16)) (Z.shiftl c 8)) c.

Definition word4_check (c : Z) : bool :=
  (u8 (word4 c) =? c) && (u8 (Z.shiftr (word4 c) 8) =? c) &&
  (u8 (Z.shiftr (word4 c) 16) =? c) && (u8 (Z.shiftr (word4 c) 24) =? c).

Lemma word4_bytes c : is_byte c ->
  u8 (word4 c) = c /\ u8 (Z.shiftr (word4 c) 8) = c /\
  u8 (Z.shiftr (word4 c) 16) = c /\ u8 (Z.shiftr (word4 c) 24) = c.
Proof.
  intros Hc. assert (H : forallb word4_check (seqZ 0 256) = true) by (vm_compute; reflexivity).
  rewrite forallb_forall in H. specialize (H c).
  rewrite <- list_elem_of_In, elem_of_seqZ in H.
  specialize (H ltac:(unfold is_byte in Hc; lia)). unfold word4_check in H.
  rewrite !andb_true_iff, !Z.eqb_eq in H. tauto.
Qed.

Lemma stosl_ok n : forall m d c,
  is_byte c -> (d + 4 * n <= length m)%nat ->
  exists m', stosl m d (word4 c) n = Some m' /\ patched m m' d (4 * n) (fun _ => Some c).
Proof.
  induction n as [|n IH]; intros m d c Hc Hd.
  - exists m. split; [done|]. split; [done|]. intros i. rewrite decide_False by lia. done.
  - destruct (word4_bytes c Hc) as (B0 & B1 & B2 & B3). simpl.
    rewrite B0, B1, B2, B3.
    rewrite store_ok by lia. simpl. rewrite store_ok by (rewrite length_insert; lia). simpl.
    rewrite store_ok by (rewrite !length_insert; lia). simpl.
    rewrite store_ok by (rewrite !length_insert; lia). simpl.
    edestruct IH as (m' & Hm' & Hlen & Hl); [done| |].
    2: { exists m'. split; [exact Hm'|]. split; [by rewrite Hlen, !length_insert|].
      intros i. rewrite Hl. repeat case_decide; try lia; try done.
      - rewrite !list_lookup_insert, ?length_insert.
        repeat case_decide; try done. exfalso. lia.
      - by rewrite !list_lookup_insert_ne by lia. }
    rewrite !length_insert. lia.
Qed.

Lemma memset_ok m d c n :
  (d + n <= length m)%nat ->
  exists m', memset m d c n = Some m' /\ patched m m' d n (fun _ => Some (u8 c)).
Proof.
  intros Hd. unfold memset.
  destruct ((d `mod` 4 =? 0)%nat && (n `mod` 4 =? 0)%nat) eqn:E; [|by apply stosb_ok].
  apply andb_true_iff in E as [_ E]. apply Nat.eqb_eq in E.
  assert (Hn : n = (4 * (n / 4))%nat) by (pose proof (Nat.div_mod_eq n 4); lia).
  assert (Hc : Z.land c 0xFF = u8 c) by (unfold u8; change 0xFF with (Z.ones 8);
    by rewrite Z.land_ones by lia).
  destruct (stosl_ok (n / 4) m d (u8 c)) as (m' & Hm' & Hp).
  - unfold is_byte, u8. apply Z.mod_pos_bound. lia.
  - lia.
  - exists m'. rewrite <- Hn in Hp. split; [|done]. by rewrite Hc.
Qed.

Lemma cstr_terminated_length t : terminated t -> (length (cstr t) < length t)%nat.
Proof.
  unfold terminated. induction t as [|c t IH]; intros H; [set_solver|]. simpl.
  destruct (Z.eqb_spec c 0) as [->|Hc]; simpl; [lia|].
  assert (0 ∈ t) by set_solver. specialize (IH H0). lia.
Qed.

Lemma strlen_ok t : terminated t -> strlen t = Some (Z.of_nat (length (cstr t))).
Proof.
  unfold terminated. induction t as [|c t IH]; intros H; [set_solver|]. simpl.
  destruct (Z.eqb_spec c 0) as [->|Hc]; [done|].
  rewrite IH by set_solver. simpl. f_equal. lia.
Qed.

(** The source holds enough bytes for a loop bounded by [n] or by a NUL. *)
Definition readable (t : list Z) (n : nat) : Prop := terminated t \/ (n <= length t)%nat.

Lemma readable_cons_inv c t n : c <> 0 -> readable (c :: t) (S n) -> readable t n.
Proof.
  unfold readable, terminated. intros Hc [H|H]; [left; set_solver|right].
  rewrite length_cons in H. lia.
Qed.

Lemma readable_nonempty t n : readable t (S n) -> exists c t', t = c :: t'.
Proof.
  destruct t as [|c t']; [|eauto]. unfold readable, terminated.
  intros [H|H]; [set_solver|simpl in H; lia].
Qed.

Lemma zero_fill_ok n : forall s, (n <= length s)%nat ->
  zero_fill s n = Some (replicate n 0 ++ drop n s).
Proof.
  induction n as [|n IH]; intros s Hs; [done|].
  destruct s as [|x s]; [simpl in Hs; lia|]. simpl in *. rewrite IH by lia. done.
Qed.

Lemma strncpy_ok n : forall s t, (n <= length s)%nat -> readable t n ->
  strncpy s t n =
    Some (take n (cstr t) ++ replicate (n - length (take n (cstr t))) 0 ++ drop n s).
Proof.
  induction n as [|n IH]; intros s t Hs Ht; [done|].
  destruct s as [|x s]; [simpl in Hs; lia|].
  destruct (readable_nonempty t n Ht) as (c & t' & ->). simpl.
  destruct (Z.eqb_spec c 0) as [->|Hc]; simpl in *.
  - rewrite zero_fill_ok by lia. done.
  - rewrite IH; [done|lia|by eapply readable_cons_inv].
Qed.

Lemma safestrcpy_loop_ok n : forall s t, (n < length s)%nat -> readable t n ->
  exists s', safestrcpy_loop s t n = Some s' /\ length s' = length s /\
    cstr s' = take n (cstr t) /\ drop (S n) s' = drop (S n) s.
Proof.
  induction n as [|n IH]; intros s t Hs Ht; destruct s as [|x s]; simpl in Hs; try lia.
  - exists (0 :: s). done.
  - destruct (readable_nonempty t n Ht) as (c & t' & ->). simpl.
    destruct (Z.eqb_spec c 0) as [->|Hc].
    + rewrite store_ok by lia. eexists. split; [done|]. split_and!.
      * by rewrite length_cons, length_insert.
      * done.
      * destruct s as [|y s]; [simpl in Hs; lia|done].
    + destruct (IH s t') as (s' & Hs' & Hlen & Hstr & Hdrop).
      { lia. } { by eapply readable_cons_inv. }
      simpl. rewrite Hs'. eexists. split; [done|]. split_and!.
      * by rewrite !length_cons, Hlen.
      * simpl. replace (c =? 0) with false by lia. by rewrite Hstr.
      * done.
Qed.

Lemma strncmp_ok n : forall p q, readable p n -> readable q n ->
  Forall is_byte p -> Forall is_byte q ->
  exists r, strncmp p q n = Some r /\ (r = 0 <-> take n (cstr p) = take n (cstr q)).
Proof.
  induction n as [|n IH]; intros p q Hp Hq Bp Bq; [by exists 0|].
  destruct (readable_nonempty p n Hp) as (a & p' & ->).
  destruct (readable_nonempty q n Hq) as (b & q' & ->).
  apply Forall_cons in Bp as [Ba Bp]. apply Forall_cons in Bq as [Bb Bq]. simpl.
  assert (Hu : forall x, is_byte x -> u8 x = x) by (intros x Hx; by apply Z.mod_small).
  rewrite !Hu by done.
  destruct (Z.eqb_spec a 0) as [->|Ha]; simpl.
  - eexists. split; [done|]. destruct (Z.eqb_spec b 0) as [->|Hb]; simpl; [done|].
    split; [intros H; lia|done].
  - destruct (Z.eqb_spec a b) as [<-|Hne].
    + replace (a =? 0) with false by lia.
      destruct (IH p' q') as (r & Hr & Hiff);
        [by eapply readable_cons_inv..|done|done|].
      exists r. split; [done|]. rewrite Hiff. simpl. split; congruence.
    + eexists. split; [done|]. destruct (Z.eqb_spec b 0) as [->|Hb]; simpl.
      * split; [intros H; lia|done].
      * split; [intros H; lia|congruence].
Qed.

(** ** Properties *)

(** [memmove] copies as if through a temporary buffer, for every overlap of
    source and destination: afterwards the [n] bytes at [d] are the [n] bytes
    that were at [s], and every other byte of memory is unchanged. *)
Theorem memmove_correct m d s n :
  (d + n <= length m)%nat -> (s + n <= length m)%nat ->
  memmove m d s n = Some (take d m ++ take n (drop s m) ++ drop (d + n) m).
Proof.
  intros Hd Hs. destruct (memmove_ok m d s n Hd Hs) as (m' & -> & Hlen & Hl). f_equal.
  apply list_eq. intros i. rewrite Hl. case_decide.
  - rewrite lookup_app_r by (rewrite length_take; lia).
    rewrite lookup_app_l by (rewrite !length_take, length_drop; lia).
    rewrite length_take, lookup_take_lt, lookup_drop by lia. f_equal. lia.
  - destruct (decide (i < d)%nat).
    + rewrite lookup_app_l by (rewrite length_take; lia). by rewrite lookup_take_lt by lia.
    + rewrite lookup_app_r by (rewrite length_take; lia).
      rewrite lookup_app_r by (rewrite !length_take, length_drop; lia).
      rewrite !length_take, length_drop, lookup_drop. f_equal. lia.
Qed.

Lemma memmove_correct_witness :
  memmove [1; 2; 3; 4; 5; 6] 1 0 4 = Some [1; 1; 2; 3; 4; 6] /\
  memmove [1; 2; 3; 4; 5; 6] 0 2 4 = Some [3; 4; 5; 6; 5; 6].
Proof.
  split.
  - apply (memmove_correct [1; 2; 3; 4; 5; 6] 1 0 4); simpl; lia.
  - apply (memmove_correct [1; 2; 3; 4; 5; 6] 0 2 4); simpl; lia.
Defined.
