(* ===== verification/Printf.v ===== *)
(** * Formatted output and number parsing (printf.c, ulib.c, console.c)

    [printint], [printf] and [cprintf] as functions to the characters they put
    out; [atoi] and [atoo].  Strings are the lists of their characters before
    the terminating 0; the variable arguments are the words on the stack. *)

From S2P Require Import Prelude.

Module Printf.

Definition MINUS : Z := 45.
Definition PLUS : Z := 43.
Definition SPACE : Z := 32.
Definition PCT : Z := 37.
Definition ZERO : Z := 48.

(** [digits[x]]: printf.c has capital letters, console.c small ones. *)
Definition digit (upper : bool) (x : Z) : Z :=
  if x <? 10 then ZERO + x else (if upper then 65 else 97) + (x - 10).

(** [do { buf[i++] = digits[x % base]; } while((x /= base) != 0)], the least
    significant digit first. *)
Fixpoint digit_loop (upper : bool) (fuel : nat) (base x : Z) : list Z :=
  match fuel with
  | O => []
  | S fuel =>
      digit upper (x mod base) ::
      if x / base =? 0 then [] else digit_loop upper fuel base (x / base)
  end.

(** printf.c; [buf] is put out from its end.  [-xx] is taken modulo 2^32. *)
Definition printint (upper : bool) (xx base : Z) (sgn : bool) : list Z :=
  let neg := sgn && (xx <? 0) in
  let x := u32 (if neg then - xx else xx) in
  rev (digit_loop upper 32 base x ++ (if neg then [MINUS] else [])).

(** console.c. *)
Definition cprintint (xx base : Z) (sign : bool) : list Z := printint false xx base sign.

(** ** atoi, atoo (ulib.c) *)

Fixpoint skip_spaces (s : list Z) : list Z :=
  match s with c :: s' => if c =? SPACE then skip_spaces s' else s | [] => [] end.

(** [while('0' <= *s && *s <= hi) n = n*base + *s++ - '0'] in two's
    complement. *)
Fixpoint num_loop (base : Z) (s : list Z) (n : Z) : Z :=
  match s with
  | c :: s =>
      if (ZERO <=? c) && (c <? ZERO + base) then num_loop base s (s32 (n * base + c - ZERO)) else n
  | [] => n
  end.

Definition parse_num (base : Z) (s : list Z) : Z :=
  let s := skip_spaces s in
  let sign := match s with c :: _ => if c =? MINUS then -1 else 1 | [] => 1 end in
  let s := match s with c :: s' => if (c =? PLUS) || (c =? MINUS) then s' else s | [] => [] end in
  s32 (sign * num_loop base s 0).
Definition atoi (s : list Z) : Z := parse_num 10 s.
Definition atoo (s : list Z) : Z := parse_num 8 s.

(** ** printf, cprintf *)

Section printf.
(** The words after [fmt] on the stack, and the string at an address. *)
Context (ap : nat -> Z) (str_at : Z -> list Z).

Definition NULL_STR : list Z := [40; 110; 117; 108; 108; 41].
Definition arg_str (k : nat) : list Z := if ap k =? 0 then NULL_STR else str_at (ap k).

(** [state] is the variable of the loop, [true] after a per cent sign. *)
Fixpoint printf (fmt : list Z) (state : bool) (k : nat) : list Z :=
  match fmt with
  | [] => []
  | c :: fmt =>
      if negb state then
        if c =? PCT then printf fmt true k else c :: printf fmt false k
      else if c =? 100 then printint true (s32 (ap k)) 10 true ++ printf fmt false (S k)
      else if (c =? 120) || (c =? 112) then printint true (s32 (ap k)) 16 false ++ printf fmt false (S k)
      else if c =? 115 then arg_str k ++ printf fmt false (S k)
      else if c =? 99 then u8 (ap k) :: printf fmt false (S k)
      else if c =? PCT then c :: printf fmt false k
      else PCT :: c :: printf fmt false k
  end.

(** console.c: no [%c]. *)
Fixpoint cprintf (fmt : list Z) (k : nat) : list Z :=
  match fmt with
  | [] => []
  | c :: fmt =>
      if negb (c =? PCT) then c :: cprintf fmt k
      else
        match fmt with
        | [] => []
        | c :: fmt =>
            if c =? 100 then cprintint (s32 (ap k)) 10 true ++ cprintf fmt (S k)
            else if (c =? 120) || (c =? 112) then cprintint (s32 (ap k)) 16 false ++ cprintf fmt (S k)
            else if c =? 115 then arg_str k ++ cprintf fmt (S k)
            else if c =? PCT then PCT :: cprintf fmt k
            else PCT :: c :: cprintf fmt k
        end
  end.

(** ** Formats as lists of directives *)

Inductive item := Lit (c : Z) | Dec | Hex | Str | Chr | Percent | Unknown (c : Z).

Definition render (i : item) : list Z :=
  match i with
  | Lit c => [c] | Dec => [PCT; 100] | Hex => [PCT; 120] | Str => [PCT; 115] | Chr => [PCT; 99]
  | Percent => [PCT; PCT] | Unknown c => [PCT; c]
  end.
(** An item that renders to what it stands for. *)
Definition wf_item (i : item) : Prop :=
  match i with
  | Lit c => c <> PCT
  | Unknown c => c ∉ [100; 120; 112; 115; 99; PCT]
  | _ => True
  end.
Definition uses (i : item) : nat := match i with Dec | Hex | Str | Chr => 1 | _ => 0 end.
Definition show (upper : bool) (i : item) (k : nat) : list Z :=
  match i with
  | Lit c => [c]
  | Dec => printint upper (s32 (ap k)) 10 true
  | Hex => printint upper (s32 (ap k)) 16 false
  | Str => arg_str k
  | Chr => [u8 (ap k)]
  | Percent => [PCT]
  | Unknown c => [PCT; c]
  end.
Fixpoint shows (upper : bool) (l : list item) (k : nat) : list Z :=
  match l with [] => [] | i :: l => show upper i k ++ shows upper l (k + uses i) end.

(** [printf] puts out its format with each directive replaced by its
    argument, taken in order; [cprintf] does the same for formats without
    [%c].  *)
Theorem printf_correct l k :
  Forall wf_item l ->
  printf (l ≫= render) false k = shows true l k /\
  (Chr ∉ l -> cprintf (l ≫= render) k = shows false l k).
Proof.
  intros HF. revert k. induction HF as [|i l Hi HF IH]; intros k; [done|].
  assert (IH1 := fun k => proj1 (IH k)). assert (IH2 := fun k => proj2 (IH k)).
  rewrite bind_cons. cbn [shows]. unfold cprintint in *. split.
  - destruct i as [c| | | | | |c]; simpl.
    + simpl in Hi. rewrite (proj2 (Z.eqb_neq c PCT)) by done. by rewrite Nat.add_0_r, IH1.
    + by rewrite Nat.add_1_r, IH1.
    + by rewrite Nat.add_1_r, IH1.
    + by rewrite Nat.add_1_r, IH1.
    + by rewrite Nat.add_1_r, IH1.
    + by rewrite Nat.add_0_r, IH1.
    + simpl in Hi. rewrite !not_elem_of_cons in Hi. destruct Hi as (H1 & H2 & H3 & H4 & H5 & H6 & _).
      rewrite !(proj2 (Z.eqb_neq c _)) by done. simpl. by rewrite Nat.add_0_r, IH1.
  - rewrite not_elem_of_cons. intros [Hne Hni]. destruct i as [c| | | | | |c]; simpl.
    + simpl in Hi. rewrite (proj2 (Z.eqb_neq c PCT)) by done. simpl. by rewrite Nat.add_0_r, IH2.
    + by rewrite Nat.add_1_r, IH2.
    + by rewrite Nat.add_1_r, IH2.
    + by rewrite Nat.add_1_r, IH2.
    + done.
    + by rewrite Nat.add_0_r, IH2.
    + simpl in Hi. rewrite !not_elem_of_cons in Hi. destruct Hi as (H1 & H2 & H3 & H4 & H5 & H6 & _).
      rewrite !(proj2 (Z.eqb_neq c _)) by done. simpl. by rewrite Nat.add_0_r, IH2.
Qed.

End printf.

(** ** Numbers *)

(** The number that a list of digits denotes, most significant first. *)
Fixpoint digits_val (base : Z) (ds : list Z) (acc : Z) : Z :=
  match ds with [] => acc | d :: ds => digits_val base ds (acc * base + (d - ZERO)) end.

Lemma digits_val_app base d1 d2 acc :
  digits_val base (d1 ++ d2) acc = digits_val base d2 (digits_val base d1 acc).
Proof. revert acc. induction d1 as [|d d1 IH]; intros acc; [done|]. apply IH. Qed.

(** Decimal digits: no more than are needed, and they denote [x]. *)
Lemma digit_loop_spec fuel n x : 0 <= x < 10 ^ Z.of_nat n -> (0 < n <= fuel)%nat ->
  let ds := rev (digit_loop true fuel 10 x) in
  (0 < length ds <= n)%nat /\ Forall (fun c => ZERO <= c < ZERO + 10) ds /\
  digits_val 10 ds 0 = x.
Proof.
  revert n x. induction fuel as [|fuel IH]; intros n x Hx Hf; [lia|]. cbn [digit_loop].
  assert (Hd : digit true (x mod 10) = ZERO + x mod 10).
  { unfold digit. pose proof (Z.mod_pos_bound x 10). destruct (Z.ltb_spec (x mod 10) 10); lia. }
  rewrite Hd. pose proof (Z.mod_pos_bound x 10) as Hm. pose proof (Z.div_mod x 10) as Hdm.
  destruct (Z.eqb_spec (x / 10) 0) as [Hz|Hz].
  - simpl. split_and!; [lia|lia| |lia]. constructor; [lia|constructor].
  - destruct n as [|n]; [lia|]. rewrite Nat2Z.inj_succ, Z.pow_succ_r in Hx by lia.
    assert (Hn : (0 < n)%nat).
    { destruct n; [|lia]. simpl in Hx. assert (x / 10 = 0) by (apply Z.div_small; lia). lia. }
    destruct (IH n (x / 10)) as (H1 & H2 & H3); [|lia|].
    { split; [apply Z.div_pos; lia|]. apply Z.div_lt_upper_bound; lia. }
    cbn [rev]. set (ds := rev (digit_loop true fuel 10 (x / 10))) in *. cbv zeta.
    rewrite length_app. simpl. split_and!; [lia|lia| |].
    + apply Forall_app. split; [done|]. constructor; [lia|constructor].
    + rewrite digits_val_app, H3. simpl. lia.
Qed.

Lemma num_loop_spec ds rest : forall n m,
  Forall (fun c => ZERO <= c < ZERO + 10) ds ->
  (match rest with c :: _ => ~ ZERO <= c < ZERO + 10 | [] => True end) ->
  n = s32 m -> num_loop 10 (ds ++ rest) n = s32 (digits_val 10 ds m).
Proof.
  induction ds as [|d ds IH]; intros n m HF Hrest Hn; cbn [app num_loop digits_val].
  - destruct rest as [|c rest]; [done|]. cbn [num_loop].
    destruct (Z.leb_spec ZERO c), (Z.ltb_spec c (ZERO + 10)); simpl; try done; lia.
  - apply Forall_cons in HF as [Hd HF].
    destruct (Z.leb_spec ZERO d), (Z.ltb_spec d (ZERO + 10)); try lia. cbn [andb].
    apply IH; [done|done|]. subst n. unfold s32.
    assert (H2 : ((m + 2 ^ 31) mod 2 ^ 32 - 2 ^ 31) mod 2 ^ 32 = m mod 2 ^ 32).
    { rewrite Zminus_mod_idemp_l. f_equal. lia. }
    f_equal. rewrite <- (Zplus_mod_idemp_l (_ - ZERO)), <- (Zplus_mod_idemp_l (m * 10 + _)).
    f_equal. f_equal. rewrite <- Z.add_sub_assoc.
    rewrite <- (Zplus_mod_idemp_l (_ * 10)), <- (Zplus_mod_idemp_l (m * 10)). f_equal. f_equal.
    rewrite <- (Zmult_mod_idemp_l (_ - 2 ^ 31)), H2. apply Zmult_mod_idemp_l.
Qed.

(** [atoi] reads what [printf("%d")] prints, for every [int], the smallest
    one included; and what is printed fits the 16 bytes of [printint]'s
    buffer. *)
Theorem atoi_printint n :
  is_s32 n -> atoi (printint true n 10 true) = n /\ (length (printint true n 10 true) <= 16)%nat.
Proof.
  intros Hn. pose proof Hn as Hn'. unfold is_s32 in Hn. unfold printint. rewrite andb_true_l.
  set (x := u32 (if n <? 0 then - n else n)).
  assert (Hx : x = Z.abs n).
  { unfold x. destruct (Z.ltb_spec n 0); rewrite u32_small by (unfold is_u32; lia); lia. }
  destruct (digit_loop_spec 32 10 x) as (H1 & H2 & H3); [rewrite Hx; simpl; lia|lia|].
  rewrite rev_app_distr. set (ds := rev (digit_loop true 32 10 x)) in *. cbv zeta in H1.
  clearbody ds x.
  assert (Hnum : num_loop 10 ds 0 = s32 x).
  { rewrite <- (app_nil_r ds), (num_loop_spec ds [] 0 0), H3; done. }
  destruct ds as [|d ds]; [simpl in H1; lia|]. apply Forall_cons in H2 as [Hd _].
  assert (Hne : d <> SPACE /\ d <> PLUS /\ d <> MINUS) by (unfold SPACE, PLUS, MINUS, ZERO in *; lia).
  destruct Hne as (Hsp & Hpl & Hmi). split; [|destruct (n <? 0); simpl in *; lia].
  unfold atoi, parse_num. destruct (Z.ltb_spec n 0) as [Hneg|Hpos].
  - change (rev [MINUS] ++ d :: ds) with (MINUS :: d :: ds). cbn -[num_loop].
    rewrite Hnum, Hx. rewrite Z.abs_neq by lia. destruct (decide (n = - 2 ^ 31)) as [-> |Hmin]; [done|].
    rewrite (s32_small (- n)) by (unfold is_s32; lia). rewrite s32_small by (unfold is_s32; lia). lia.
  - change (rev [] ++ d :: ds) with (d :: ds). cbn -[num_loop].
    rewrite (proj2 (Z.eqb_neq d SPACE)), (proj2 (Z.eqb_neq d MINUS)), (proj2 (Z.eqb_neq d PLUS)) by done.
    cbn -[num_loop].
    rewrite Hnum, Hx, Z.abs_eq, (s32_small n), Z.mul_1_l by done. by apply s32_small.
Qed.

Lemma printf_correct_witness :
  printf (fun _ => 7) (fun _ => []) [100; PCT; 100] false 0 = [100; 55].
Proof.
  exact (proj1 (printf_correct (fun _ => 7) (fun _ => []) [Lit 100; Dec] 0
    ltac:(repeat constructor; discriminate))).
Defined.

Lemma atoi_printint_witness :
  is_s32 (- 2 ^ 31) /\ atoi (printint true (- 2 ^ 31) 10 true) = - 2 ^ 31.
Proof.
  assert (H : is_s32 (- 2 ^ 31)) by (split; vm_compute; congruence).
  split; [exact H|]. exact (proj1 (atoi_printint (- 2 ^ 31) H)).
Defined.

End Printf.
