(* ===== verification/Pipe.v ===== *)
(** * Pipes (pipe.c)

    A pipe is a ring buffer of [PIPESIZE] bytes between [nread] and [nwrite],
    two 32-bit counters that only ever grow and wrap around.  [pipewrite],
    [piperead] and [pipeclose] run under the pipe's lock; they give it up only
    in [sleep].  The theorems show that the pipe is a FIFO queue across all
    interleavings at these points, also when the counters wrap, and that no
    process sleeps while what it waits for is there. *)

From S2P Require Import Prelude.

Module Pipe.

Definition PIPESIZE : Z := 512.

(** The channels [&p->nread] and [&p->nwrite]. *)
Inductive pchan := ChRead | ChWrite.

(** [struct pipe], with what its operations use around it.
    - [locked]: the spin lock [p->lock].
    - [asleep_r], [asleep_w]: a process sleeps on the channel [&p->nread],
      [&p->nwrite].
    - [freed]: the page of the pipe has been given back with [kfree].
    - [killed]: the flag of the running process.
    - [sent], [received]: auxiliary history of the bytes put into and taken
      out of the ring, which the code does not read.
    - [spurious]: auxiliary bound on the wakeups still to come that find the
      process unable to go on. *)
Record pipe := MkPipe {
  locked : bool;
  data : list Z;
  nread : Z;
  nwrite : Z;
  readopen : Z;
  writeopen : Z;
  asleep_r : bool;
  asleep_w : bool;
  freed : bool;
  killed : bool;
  sent : list Z;
  received : list Z;
  spurious : nat;
}.
#[export] Instance pipe_eta : Eta pipe := fun r =>
  MkPipe (locked r) (data r) (nread r) (nwrite r) (readopen r) (writeopen r)
    (asleep_r r) (asleep_w r) (freed r) (killed r) (sent r) (received r) (spurious r).

(** ** The operations *)

(** [acquire(&p->lock)] spins while another process holds the lock. *)
Definition acquire : M pipe unit := fun p =>
  if locked p then Spin p else Ret tt (p <| locked := true |>).
Definition release : M pipe unit := fun p =>
  if locked p then Ret tt (p <| locked := false |>) else Panic "release" p.

Definition wakeup (c : pchan) : M pipe unit :=
  modify (fun p => match c with
                   | ChRead => p <| asleep_r := false |>
                   | ChWrite => p <| asleep_w := false |>
                   end).

(** [sleep(c, &p->lock)]: the lock is given up and taken again. *)
Definition sleep (c : pchan) : M pipe unit :=
  modify (fun p => match c with
                   | ChRead => p <| asleep_r := true |>
                   | ChWrite => p <| asleep_w := true |>
                   end) ;;;
  release ;;;
  swtch ;;;
  acquire.

(** [p->data[p->nwrite++ % PIPESIZE] = b] *)
Definition put_byte (b : Z) : M pipe unit :=
  modify (fun p => p <| data ::= <[Z.to_nat (nwrite p mod PIPESIZE) := b]> |>
                     <| nwrite := u32 (nwrite p + 1) |>
                     <| sent ::= fun l => l ++ [b] |>).

(** [p->data[p->nread++ % PIPESIZE]] *)
Definition get_byte : M pipe Z :=
  p <- gets id ;;
  match data p !! Z.to_nat (nread p mod PIPESIZE) with
  | None => fault
  | Some b =>
      modify (fun p => p <| nread := u32 (nread p + 1) |> <| received ::= fun l => l ++ [b] |>) ;;;
      ret b
  end.

(** The inner loop of [pipewrite]: wait for room; [false] is the error return,
    with the lock released. *)
Definition wait_room (_ : unit) : M pipe (unit + bool) :=
  p <- gets id ;;
  if nwrite p =? u32 (nread p + PIPESIZE) then
    if (readopen p =? 0) || killed p then
      release ;;; ret (inr false)
    else
      wakeup ChRead ;;; sleep ChWrite ;;; ret (inl tt)
  else ret (inr true).

(** The bytes still to write; [fuel] bounds the rounds of the wait for one byte. *)
Fixpoint write_loop (fuel : nat) (addr : list Z) : M pipe bool :=
  match addr with
  | [] => ret true
  | b :: addr =>
      ok <- mwhile fuel wait_room tt ;;
      if (ok : bool) then put_byte b ;;; write_loop fuel addr else ret false
  end.

(** [addr] is the memory from the address on.  For a negative [n] the loop does
    nothing and the result is [n]. *)
Definition pipewrite (fuel : nat) (addr : list Z) (n : Z) : M pipe Z :=
  acquire ;;;
  ok <- write_loop fuel (take (Z.to_nat n) addr) ;;
  if (ok : bool) then
    wakeup ChRead ;;;
    release ;;;
    ret n
  else ret (-1).

(** The wait of [piperead]. *)
Definition wait_data (_ : unit) : M pipe (unit + bool) :=
  p <- gets id ;;
  if (nread p =? nwrite p) && negb (writeopen p =? 0) then
    if killed p then release ;;; ret (inr false)
    else sleep ChRead ;;; ret (inl tt)
  else ret (inr true).

(** The copying loop: the bytes read. *)
Fixpoint read_loop (n : nat) (acc : list Z) : M pipe (list Z) :=
  match n with
  | O => ret acc
  | S n =>
      p <- gets id ;;
      if nread p =? nwrite p then ret acc
      else b <- get_byte ;; read_loop n (acc ++ [b])
  end.

(** The result is [None] for -1, or the bytes that were copied to [addr]. *)
Definition piperead (fuel : nat) (n : Z) : M pipe (option (list Z)) :=
  acquire ;;;
  ok <- mwhile fuel wait_data tt ;;
  if (ok : bool) then
    bs <- read_loop (Z.to_nat n) [] ;;
    wakeup ChWrite ;;;
    release ;;;
    ret (Some bs)
  else ret None.

(** [kfree((char* )p)] *)
Definition kfree : M pipe unit := modify (fun p => p <| freed := true |>).

Definition pipeclose (writable : bool) : M pipe unit :=
  acquire ;;;
  (if writable then
     modify (fun p => p <| writeopen := 0 |>) ;;; wakeup ChRead
   else
     modify (fun p => p <| readopen := 0 |>) ;;; wakeup ChWrite) ;;;
  p <- gets id ;;
  if (readopen p =? 0) && (writeopen p =? 0) then
    release ;;; kfree
  else release.

(** ** The queue in the ring *)

(** [q] are the bytes between the counters. *)
Record ring (p : pipe) (q : list Z) : Prop := {
  ring_len : length (data p) = Z.to_nat PIPESIZE;
  ring_nread : is_u32 (nread p);
  ring_nwrite : nwrite p = u32 (nread p + Z.of_nat (length q));
  ring_size : Z.of_nat (length q) <= PIPESIZE;
  ring_bytes : forall i b, q !! i = Some b ->
    data p !! Z.to_nat ((nread p + Z.of_nat i) mod PIPESIZE) = Some b;
  ring_hist : sent p = received p ++ q;
}.

(** What holds whenever the lock is free. *)
Record pipe_ok (p : pipe) : Prop := {
  ok_free : locked p = false;
  ok_queue : exists q, ring p q /\
    (asleep_r p = true -> q = [] /\ writeopen p <> 0) /\
    (asleep_w p = true -> Z.of_nat (length q) = PIPESIZE /\ readopen p <> 0);
}.

(** Reducing modulo 2^32 does not disturb the index: 512 divides 2^32. *)
Lemma u32_mod_size z : u32 z mod PIPESIZE = z mod PIPESIZE.
Proof.
  unfold u32, PIPESIZE. rewrite <- (Znumtheory.Zmod_div_mod 512 (2 ^ 32)); [done|lia|lia|].
  by exists (2 ^ 23).
Qed.

Lemma ring_full p q : ring p q ->
  (nwrite p =? u32 (nread p + PIPESIZE)) = (Z.of_nat (length q) =? PIPESIZE).
Proof.
  intros [_ Hr -> Hs _ _]. unfold is_u32, u32, PIPESIZE in *.
  destruct (Z.eqb_spec (Z.of_nat (length q)) 512) as [->|Hne]; [apply Z.eqb_refl|].
  apply Z.eqb_neq. intros Heq.
  assert (H : (nread p + 512 - (nread p + Z.of_nat (length q))) mod 2 ^ 32 = 0).
  { rewrite Zminus_mod, Heq, Z.sub_diag. done. }
  rewrite Z.mod_small in H; lia.
Qed.

Lemma ring_empty p q : ring p q -> (nread p =? nwrite p) = bool_decide (q = []).
Proof.
  intros [_ Hr -> Hs _ _]. unfold is_u32, u32, PIPESIZE in *.
  destruct q as [|b q].
  - rewrite bool_decide_eq_true_2 by done. cbn [length Z.of_nat]. rewrite Z.add_0_r, Z.mod_small by lia.
    apply Z.eqb_refl.
  - rewrite bool_decide_eq_false_2 by done. apply Z.eqb_neq. intros Heq.
    assert (H : (nread p + Z.of_nat (length (b :: q)) - nread p) mod 2 ^ 32 = 0).
    { rewrite Zminus_mod, <- Heq. rewrite (Z.mod_small (nread p)) by lia. by rewrite Z.sub_diag. }
    rewrite Z.mod_small in H; cbn [length] in *; lia.
Qed.

(** One byte in. *)
Lemma ring_put p q b : ring p q -> Z.of_nat (length q) < PIPESIZE ->
  ring (p <| data ::= <[Z.to_nat (nwrite p mod PIPESIZE) := b]> |> <| nwrite := u32 (nwrite p + 1) |>
          <| sent ::= fun l => l ++ [b] |>) (q ++ [b]).
Proof.
  intros [Hl Hr Hw Hs Hb Hh] Hlt.
  assert (Hidx : nwrite p mod PIPESIZE = (nread p + Z.of_nat (length q)) mod PIPESIZE)
    by (by rewrite Hw, u32_mod_size).
  split; simpl.
  - by rewrite length_insert.
  - done.
  - rewrite Hw, u32_add_l, length_app. cbn [length]. f_equal. lia.
  - rewrite length_app. cbn [length]. lia.
  - intros i x Hx. rewrite Hidx. unfold PIPESIZE in *.
    apply lookup_app_Some in Hx as [Hx|[Hge Hx]].
    + rewrite list_lookup_insert_ne; [by apply Hb|]. apply lookup_lt_Some in Hx.
      intros Heq. apply Z2Nat.inj in Heq; [|apply Z.mod_pos_bound; lia|apply Z.mod_pos_bound; lia].
      assert (H : (nread p + Z.of_nat (length q) - (nread p + Z.of_nat i)) mod 512 = 0)
        by (by rewrite Zminus_mod, Heq, Z.sub_diag).
      rewrite Z.mod_small in H; lia.
    + apply list_lookup_singleton_Some in Hx as [Hi ->].
      replace i with (length q) by lia. apply list_lookup_insert_eq. rewrite Hl.
      apply Z2Nat.inj_lt; [apply Z.mod_pos_bound; lia|lia|]. apply Z.mod_pos_bound. lia.
  - by rewrite Hh, <- app_assoc.
Qed.

(** One byte out. *)
Lemma ring_get p q b : ring p (b :: q) ->
  data p !! Z.to_nat (nread p mod PIPESIZE) = Some b /\
  ring (p <| nread := u32 (nread p + 1) |> <| received ::= fun l => l ++ [b] |>) q.
Proof.
  intros [Hl Hr Hw Hs Hb Hh]. cbn [length] in *. split.
  { rewrite <- (Hb 0%nat b) by done. cbn [Z.of_nat]. by rewrite Z.add_0_r. }
  split; simpl.
  - done.
  - apply u32_is.
  - rewrite Hw, u32_add_l. f_equal. lia.
  - lia.
  - intros i x Hx. rewrite <- (Hb (S i) x) by done. do 2 f_equal.
    rewrite <- (Zplus_mod_idemp_l (u32 _)), u32_mod_size, Zplus_mod_idemp_l. f_equal. lia.
  - by rewrite Hh, <- app_assoc.
Qed.

(** Fields that the ring does not mention. *)
Lemma ring_frame p p' q :
  data p' = data p -> nread p' = nread p -> nwrite p' = nwrite p -> sent p' = sent p ->
  received p' = received p -> ring p q -> ring p' q.
Proof. intros H1 H2 H3 H4 H5 [R1 R2 R3 R4 R5 R6]. split; by rewrite ?H1, ?H2, ?H3, ?H4, ?H5. Qed.

(** ** Writing *)

Definition room (p : pipe) : Prop := nwrite p <> u32 (nread p + PIPESIZE).
Definition stuck_w (p : pipe) : Prop := ~ room p /\ readopen p <> 0 /\ killed p = false.

(** The writer's protocol.  Where it gives up the processor the pipe is in
    order; meanwhile others may read from it, close it, or wake the writer for
    nothing, but not too often. *)
Definition write_prot : prot pipe :=
  Prot (fun _ => False) pipe_ok
    (fun p p' => pipe_ok p' /\ sent p' = sent p /\ (spurious p' <= spurious p)%nat /\
       (stuck_w p' -> (spurious p' < spurious p)%nat)).

(** While the writer holds the lock: readers may still be asleep. *)
Record held (p : pipe) (q : list Z) : Prop := {
  held_lock : locked p = true;
  held_ring : ring p q;
  held_w : asleep_w p = true -> Z.of_nat (length q) = PIPESIZE /\ readopen p <> 0;
  held_r : asleep_r p = true -> writeopen p <> 0;
}.

Lemma ok_acquire P p (Q : unit -> pipe -> Prop) :
  pipe_ok p -> (forall q, held (p <| locked := true |>) q ->
    (asleep_r p = true -> q = []) -> Q tt (p <| locked := true |>)) -> wp P acquire p Q.
Proof.
  intros [Hf (q & Hr & Hsr & Hsw)] HQ. unfold wp, acquire. rewrite Hf. apply (HQ q); [|naive_solver].
  split; [done|by apply (ring_frame p)|done|naive_solver].
Qed.

Lemma stuck_ring p q : ring p q -> stuck_w p <->
  Z.of_nat (length q) = PIPESIZE /\ readopen p <> 0 /\ killed p = false.
Proof.
  intros Hr. unfold stuck_w, room. pose proof (ring_full p q Hr) as Hf.
  destruct (Z.eqb_spec (nwrite p) (u32 (nread p + PIPESIZE))),
    (Z.eqb_spec (Z.of_nat (length q)) PIPESIZE); naive_solver.
Qed.

Lemma wp_wait_room fuel p q :
  held p q -> (S (spurious p) < fuel)%nat \/ ~ stuck_w p /\ fuel <> 0%nat ->
  wp write_prot (mwhile fuel wait_room tt) p (fun ok p' =>
    sent p' = sent p /\ (spurious p' <= spurious p)%nat /\
    if (ok : bool) then exists q', held p' q' /\ Z.of_nat (length q') < PIPESIZE
    else locked p' = false /\ (exists q', ring p' q') /\ (readopen p' = 0 \/ killed p' = true)).
Proof.
  revert p q. induction fuel as [|fuel IH]; intros p q Hh Hfuel; [lia|].
  pose proof (held_ring p q Hh) as Hring. cbn [mwhile]. apply wp_bind. unfold wait_room.
  apply wp_bind, wp_gets. unfold id. rewrite (ring_full p q Hring).
  destruct (Z.eqb_spec (Z.of_nat (length q)) PIPESIZE) as [Hfull|Hfull].
  - destruct ((readopen p =? 0) || killed p) eqn:Hx.
    + apply wp_bind. unfold wp, release. rewrite (held_lock p q Hh). simpl. split_and!; [done|lia|done| |].
      * exists q. by apply (ring_frame p).
      * apply orb_true_iff in Hx as [Hx|Hx]; [left; lia|by right].
    + apply orb_false_iff in Hx as [Hx1 Hx2]. apply Z.eqb_neq in Hx1.
      assert (Hst : stuck_w p) by (by apply (stuck_ring p q)).
      destruct Hfuel as [Hfuel|[Hns _]]; [|done].
      apply wp_bind, wp_modify, wp_bind, wp_bind, wp_modify, wp_bind.
      unfold wp at 1, release. simpl. rewrite (held_lock p q Hh). simpl.
      apply wp_bind, wp_swtch.
      { split; [done|]. exists q. split; [by apply (ring_frame p)|]. by split. }
      intros p' (Hok & Hsent & Hle & Hsp). eapply ok_acquire; [done|]. intros q' Hh' _. apply wp_ret.
      eapply wp_mono; [apply (IH (p' <| locked := true |>) q' Hh')|].
      * simpl in *. destruct (decide (stuck_w p')) as [Hs|Hs].
        -- left. specialize (Hsp Hs). simpl. lia.
        -- right. split; [done|]. lia.
      * intros ok p2 (H1 & H2 & H3). simpl in *. split_and!; [congruence|lia|done].
  - apply wp_ret, wp_ret. split_and!; [done|lia|]. exists q. split; [done|].
    pose proof (ring_size p q Hring). lia.
Qed.

(** The bytes go in one after the other; the wakeup comes at the end. *)
Lemma wp_write_loop fuel bs : forall p q,
  held p q -> (S (spurious p) < fuel)%nat ->
  wp write_prot (write_loop fuel bs) p (fun ok p' =>
    if (ok : bool) then sent p' = sent p ++ bs /\ exists q', held p' q'
    else locked p' = false /\ (exists q', ring p' q') /\ (readopen p' = 0 \/ killed p' = true) /\
         exists i, (i < length bs)%nat /\ sent p' = sent p ++ take i bs).
Proof.
  induction bs as [|b bs IH]; intros p q Hh Hfuel; cbn [write_loop].
  - apply wp_ret. rewrite app_nil_r. eauto.
  - apply wp_bind. eapply wp_mono; [apply (wp_wait_room fuel p q); auto|].
    intros [|] p1 (Hs1 & Hle & H1).
    + destruct H1 as (q1 & Hh1 & Hlt). apply wp_bind, wp_modify.
      pose proof (ring_put p1 q1 b (held_ring _ _ Hh1) Hlt) as Hr2. set (p2 := _ <| sent ::= _ |>) in *.
      assert (Hh2 : held p2 (q1 ++ [b])).
      { split; [apply Hh1|done| |apply Hh1]. intros Ha. destruct (held_w _ _ Hh1 Ha) as [Hf _]. lia. }
      eapply wp_mono; [apply (IH p2 _ Hh2); simpl; lia|]. intros [|] p3; cbn [sent p2].
      * intros [H3 H3']. split; [|done]. rewrite H3. simpl. by rewrite Hs1, <- app_assoc.
      * intros (H3 & H4 & H5 & i & Hi & H6). split_and!; [done|done|done|]. exists (S i).
        split; [simpl; lia|]. rewrite H6. simpl. by rewrite Hs1, <- app_assoc.
    + destruct H1 as (H1 & H2 & H3). apply wp_ret. split_and!; [done|done|done|].
      exists 0%nat. split; [simpl; lia|]. by rewrite Hs1, app_nil_r.
Qed.

(** C31: [pipewrite], for a single writer and any interleaving with readers.
    Either it returns [n] and exactly the [n] bytes have been appended, in order,
    to the stream (none for a negative [n]); afterwards the lock is free, the bytes
    that are not yet read are in the ring, and no reader is asleep.  Or it returns
    -1, because the read end is closed or the writer was killed, and a proper
    prefix was appended.  It returns, if it is woken for nothing only finitely
    often. *)
Theorem pipewrite_correct p addr n fuel :
  pipe_ok p -> n <= Z.of_nat (length addr) -> (S (spurious p) < fuel)%nat ->
  wp write_prot (pipewrite fuel addr n) p (fun z p' =>
    (z = n /\ sent p' = sent p ++ take (Z.to_nat n) addr /\ pipe_ok p' /\ asleep_r p' = false) \/
    (z = -1 /\ locked p' = false /\ (exists q, ring p' q) /\ (readopen p' = 0 \/ killed p' = true) /\
     exists i, Z.of_nat i < n /\ sent p' = sent p ++ take i addr)).
Proof.
  intros Hok Hn Hfuel. apply wp_bind. eapply ok_acquire; [done|]. intros q Hh _. apply wp_bind.
  eapply wp_mono; [apply (wp_write_loop fuel _ _ q Hh); done|]. intros [|] p1; cbn beta iota.
  - intros [Hs (q1 & Hh1)]. apply wp_bind, wp_modify, wp_bind. unfold wp, release. simpl.
    rewrite (held_lock _ _ Hh1). simpl. left. split_and!; [done|done| |done].
    split; [done|]. exists q1. split; [apply (ring_frame p1); try done; apply Hh1|]. split; [done|].
    apply (held_w _ _ Hh1).
  - intros (H1 & H2 & H3 & i & Hi & H4). rewrite length_take in Hi. rewrite take_take, Nat.min_l in H4 by lia.
    apply wp_ret. right. split_and!; try done. exists i. split; [lia|done].
Qed.

(** A killed writer fills the pipe and gives up. *)
Lemma write_loop_killed fuel bs : forall p q,
  killed p = true -> locked p = true -> ring p q -> PIPESIZE < Z.of_nat (length q + length bs) ->
  exists p', write_loop (S fuel) bs p = Ret false p' /\ asleep_r p' = asleep_r p /\ writeopen p' = writeopen p /\ locked p' = false /\
    ring p' (q ++ take (Z.to_nat PIPESIZE - length q) bs).
Proof.
  induction bs as [|b bs IH]; intros p q Hk Hl Hr Hlt; [pose proof (ring_size p q Hr); simpl in Hlt; lia|].
  pose proof (ring_full p q Hr) as Hf. pose proof (ring_size p q Hr) as Hs. cbn [write_loop].
  destruct (Z.eqb_spec (Z.of_nat (length q)) PIPESIZE) as [Hq|Hq].
  - replace (Z.to_nat PIPESIZE - length q)%nat with 0%nat by lia. rewrite app_nil_r. exists (p <| locked := false |>).
    assert (Ew : mwhile (S fuel) wait_room tt p = Ret false (p <| locked := false |>)).
    { cbn [mwhile]. rewrite (run_bind (wait_room tt) _ _ (inr false) (p <| locked := false |>)); [done|]. unfold wait_room. rewrite (run_bind (gets id) _ _ _ _ eq_refl). unfold id.
      assert ((readopen p =? 0) || killed p = true) as -> by (by rewrite Hk, orb_true_r). rewrite Hf.
      by rewrite (run_bind release _ _ tt (p <| locked := false |>)) by (unfold release; by rewrite Hl). }
    unfold bind. rewrite Ew. split_and!; try done. by apply (ring_frame p).
  - assert (Ew : mwhile (S fuel) wait_room tt p = Ret true p) by (cbn [mwhile]; unfold wait_room, bind, gets, id; simpl; by rewrite Hf).
    unfold bind. rewrite Ew. cbn [obind]. unfold put_byte, modify. cbn [obind].
    pose proof (ring_put p q b Hr ltac:(lia)) as Hr2. set (p2 := _ <| sent ::= _ |>) in *.
    destruct (IH p2 (q ++ [b]) Hk Hl Hr2) as (p' & E & H1 & H2 & H3 & H4); [rewrite length_app; simpl in *; lia|].
    exists p'. split_and!; [exact E|done|done|done|]. replace (Z.to_nat PIPESIZE - length q)%nat with (S (Z.to_nat PIPESIZE - length (q ++ [b]))) by (rewrite length_app; simpl; lia).
    by rewrite <- app_assoc in H4.
Qed.

(** C33: a killed writer strands a reader.  If a reader sleeps on the empty pipe
    and a process that has been killed writes more than PIPESIZE bytes, it fills
    the pipe and returns -1 without waking the reader.  The reader sleeps although
    there are PIPESIZE bytes to read: the invariant of the pipe, under which readers
    and writers make progress, no longer holds. *)
Theorem killed_writer_strands_reader p addr n fuel :
  pipe_ok p -> asleep_r p = true -> killed p = true -> PIPESIZE < n <= Z.of_nat (length addr) -> (0 < fuel)%nat ->
  exists p', pipewrite fuel addr n p = Ret (-1) p' /\ asleep_r p' = true /\ ring p' (take (Z.to_nat PIPESIZE) addr) /\
    writeopen p' <> 0 /\ locked p' = false /\ ~ pipe_ok p'.
Proof.
  intros [Hl (q & Hr & Hsr & _)] Ha Hk Hn Hf. destruct (Hsr Ha) as [-> Hw]. destruct fuel as [|fuel]; [lia|].
  destruct (write_loop_killed fuel (take (Z.to_nat n) addr) (p <| locked := true |>) []) as (p' & E & H1 & H2 & H3 & H4); try done.
  { by apply (ring_frame p). }
  { rewrite length_take. simpl. lia. }
  cbn [length app] in H4. rewrite Nat.sub_0_r, take_take, Nat.min_l in H4 by lia. exists p'. split_and!; [|by rewrite H1|done|by rewrite H2|done|].
  - unfold pipewrite, bind, acquire. rewrite Hl. cbn [obind]. by rewrite E.
  - intros [_ (q' & Hr' & Hs' & _)]. destruct Hs' as [-> _]; [by rewrite H1|]. pose proof (ring_hist _ _ H4) as A. rewrite (ring_hist _ _ Hr') in A.
    apply (f_equal length) in A. rewrite !length_app, length_take, Nat.min_l in A by lia. cbn [length] in A. unfold PIPESIZE in A. lia.
Qed.

(** ** Reading *)

Definition stuck_r (p : pipe) : Prop := nread p = nwrite p /\ writeopen p <> 0 /\ killed p = false.

(** The reader's protocol: meanwhile others write or close. *)
Definition read_prot : prot pipe :=
  Prot (fun _ => False) pipe_ok
    (fun p p' => pipe_ok p' /\ received p' = received p /\ (spurious p' <= spurious p)%nat /\
       (stuck_r p' -> (spurious p' < spurious p)%nat)).

Lemma wp_wait_data fuel p q :
  held p q -> (asleep_r p = true -> q = []) ->
  (S (spurious p) < fuel)%nat \/ ~ stuck_r p /\ fuel <> 0%nat ->
  wp read_prot (mwhile fuel wait_data tt) p (fun ok p' =>
    received p' = received p /\
    if (ok : bool) then exists q', held p' q' /\ (asleep_r p' = true -> q' = []) /\
      (q' <> [] \/ writeopen p' = 0)
    else pipe_ok p' /\ killed p' = true /\ sent p' = received p').
Proof.
  revert p q. induction fuel as [|fuel IH]; intros p q Hh Hsr Hfuel; [lia|].
  pose proof (held_ring p q Hh) as Hring. cbn [mwhile]. apply wp_bind. unfold wait_data.
  apply wp_bind, wp_gets. unfold id. pose proof (ring_empty p q Hring) as He. rewrite He.
  case_bool_decide as Hq; cbn [andb].
  - destruct (Z.eqb_spec (writeopen p) 0) as [Hw|Hw]; cbn [negb].
    { apply wp_ret, wp_ret. split; [done|]. exists q. auto. }
    destruct (killed p) eqn:Hk.
    + apply wp_bind. unfold wp, release. rewrite (held_lock p q Hh). simpl. split_and!; [done| |done|].
      * split; [done|]. exists q. split; [by apply (ring_frame p)|]. split; [auto|apply Hh].
      * rewrite (ring_hist _ _ Hring), Hq. apply app_nil_r.
    + assert (Hst : stuck_r p) by (split_and!; [lia|done|done]).
      destruct Hfuel as [Hfuel|[Hns _]]; [|done].
      apply wp_bind, wp_bind, wp_modify, wp_bind. unfold wp at 1, release. simpl.
      rewrite (held_lock p q Hh). simpl. apply wp_bind, wp_swtch.
      { split; [done|]. exists q. split; [by apply (ring_frame p)|]. split; [done|apply Hh]. }
      intros p' (Hok & Hrec & Hle & Hsp). eapply ok_acquire; [done|]. intros q' Hh' Hsr'. apply wp_ret.
      eapply wp_mono; [apply (IH (p' <| locked := true |>) q' Hh' Hsr')|].
      * simpl in *. destruct (decide (stuck_r p')) as [Hs|Hs].
        -- left. specialize (Hsp Hs). simpl. lia.
        -- right. split; [done|]. lia.
      * intros ok p2 (H1 & H2). simpl in *. split; [congruence|done].
  - apply wp_ret, wp_ret. split; [done|]. exists q. auto.
Qed.

Lemma wp_read_loop P n : forall p q acc,
  ring p q -> locked p = true ->
  wp P (read_loop n acc) p (fun bs p' => bs = acc ++ take n q /\ received p' = received p ++ take n q /\
    ring p' (drop n q) /\ p' = p <| nread := nread p' |> <| received := received p' |>).
Proof.
  induction n as [|n IH]; intros p q acc Hr Hl; cbn [read_loop].
  - apply wp_ret. rewrite take_0, !app_nil_r. split_and!; [done|done|done|by destruct p].
  - apply wp_bind, wp_gets. unfold id. rewrite (ring_empty p q Hr). case_bool_decide as Hq.
    + subst. apply wp_ret. rewrite take_nil, !app_nil_r. split_and!; [done|done|done|by destruct p].
    + destruct q as [|b q]; [done|]. destruct (ring_get p q b Hr) as [Hb Hr'].
      apply wp_bind, wp_bind, wp_gets. unfold id. rewrite Hb. apply wp_bind, wp_modify, wp_ret.
      eapply wp_mono; [apply (IH _ _ _ Hr'); done|]. intros bs p' (H1 & H2 & H3 & H4). simpl in *.
      rewrite <- app_assoc in H1, H2. split_and!; [done|done|done|]. by rewrite H4.
Qed.

(** C32: [piperead], for any interleaving with writers and a single reader.  It
    returns the next bytes of the stream: as many as are there, but at most
    [n], and none only if [n] is not positive or the write end is closed and
    everything was read; afterwards no writer is asleep.  It fails only if the
    reader was killed while there was nothing to read. *)
Theorem piperead_correct p n fuel :
  pipe_ok p -> (S (spurious p) < fuel)%nat ->
  wp read_prot (piperead fuel n) p (fun r p' => pipe_ok p' /\
    match r with
    | Some bs => received p' = received p ++ bs /\ bs `prefix_of` drop (length (received p)) (sent p') /\
        Z.of_nat (length bs) <= Z.max 0 n /\
        (bs = [] -> n <= 0 \/ writeopen p' = 0 /\ received p' = sent p') /\
        (Z.of_nat (length bs) < n -> received p' = sent p') /\ asleep_w p' = false
    | None => killed p' = true /\ received p' = received p /\ sent p' = received p'
    end).
Proof.
  intros Hok Hfuel. apply wp_bind. eapply ok_acquire; [done|]. intros q Hh Hsr. apply wp_bind.
  eapply wp_mono; [apply (wp_wait_data fuel _ q Hh Hsr); by left|]. intros [|] p1; cbn beta iota.
  - intros (Hrec & q1 & Hh1 & Hsr1 & Hne). apply wp_bind.
    eapply wp_mono; [apply (wp_read_loop _ _ p1 q1 [] (held_ring _ _ Hh1) (held_lock _ _ Hh1))|].
    intros bs p2 (-> & Hr2 & Hring2 & Hp2). cbn [app] in *. apply wp_bind, wp_modify, wp_bind.
    unfold wp, release. simpl. assert (locked p2 = true) as -> by (rewrite Hp2; apply Hh1). simpl.
    pose proof (ring_hist _ _ (held_ring _ _ Hh1)) as Hh1'. pose proof (ring_hist _ _ Hring2) as Hh2.
    assert (Hs2 : sent p2 = sent p1) by (by rewrite Hp2). simpl in Hrec. rewrite Hrec in *.
    set (bs := take (Z.to_nat n) q1) in *.
    assert (Hlen : length bs = Nat.min (Z.to_nat n) (length q1)) by apply length_take.
    split_and!.
    + split; [done|]. exists (drop (Z.to_nat n) q1). split; [by apply (ring_frame p2)|].
      split; [|done]. simpl. intros Ha. rewrite Hp2 in Ha. simpl in Ha. rewrite (Hsr1 Ha), drop_nil.
      split; [done|]. rewrite Hp2. by apply (held_r _ _ Hh1).
    + done.
    + rewrite Hs2, Hh1', drop_app_length. apply prefix_take.
    + lia.
    + intros Hnil. destruct (decide (n <= 0)); [by left|]. right. rewrite Hnil in Hlen. simpl in Hlen.
      assert (Hq1 : q1 = []) by (destruct q1; [done|simpl in Hlen; lia]). destruct Hne as [|Hw]; [done|].
      split; [by rewrite Hp2|]. by rewrite Hr2, Hs2, Hh1', Hnil, Hq1.
    + intros Hlt. rewrite Hr2, Hs2, Hh1'. f_equal. apply take_ge. lia.
    + done.
  - intros (Hrec & Hok1 & Hk & Hs). apply wp_ret. simpl in Hrec. by split_and!.
Qed.

(** ** Closing *)

(** [pipeclose] closes its end and wakes the processes that sleep at the
    other one, so that nobody is left asleep on a pipe that will not move; the
    pipe is freed exactly when both ends are closed. *)
Theorem pipeclose_correct p (writable : bool) :
  pipe_ok p -> freed p = false ->
  wp strict (pipeclose writable) p (fun _ p' => pipe_ok p' /\
    sent p' = sent p /\ received p' = received p /\
    (if writable then writeopen p' = 0 /\ readopen p' = readopen p /\ asleep_r p' = false
     else readopen p' = 0 /\ writeopen p' = writeopen p /\ asleep_w p' = false) /\
    (freed p' = true <-> readopen p' = 0 /\ writeopen p' = 0)).
Proof.
  intros [Hf (q & Hr & Hsr & Hsw)] Hfr. unfold wp, pipeclose, acquire, bind. rewrite Hf. simpl.
  destruct writable; simpl.
  - rewrite andb_comm. simpl. destruct (Z.eqb_spec (readopen p) 0); simpl; split_and!; try done.
    all: try (split; [done|]; exists q; split; [by apply (ring_frame p)|]; done).
    all: rewrite ?Hfr; naive_solver.
  - destruct (Z.eqb_spec (writeopen p) 0); simpl; split_and!; try done.
    all: try (split; [done|]; exists q; split; [by apply (ring_frame p)|]; done).
    all: rewrite ?Hfr; naive_solver.
Qed.

(** ** Concrete pipes *)

(** The counters are about to wrap; three bytes are in the ring. *)
Definition wrapping : pipe :=
  MkPipe false (<[511%nat := 8]> (<[0%nat := 9]> (<[510%nat := 7]> (replicate 512 0))))
    (2 ^ 32 - 2) 1 1 1 false false false false [7; 8; 9] [] 0.

Lemma wrapping_ok : pipe_ok wrapping.
Proof.
  split; [done|]. exists [7; 8; 9]. split; [|by split].
  split; [done|by vm_compute|done|by vm_compute| |done].
  intros [|[|[|i]]] b Hb; simpl in Hb; simplify_eq; vm_compute; reflexivity.
Qed.

Lemma pipewrite_witness :
  wp write_prot (pipewrite 2 [1; 2; 3] 2) wrapping (fun z p' =>
    (z = 2 /\ sent p' = [7; 8; 9; 1; 2] /\ pipe_ok p' /\ asleep_r p' = false) \/
    (z = -1 /\ locked p' = false /\ (exists q, ring p' q) /\ (readopen p' = 0 \/ killed p' = true) /\
     exists i, Z.of_nat i < 2 /\ sent p' = [7; 8; 9] ++ take i [1; 2; 3])).
Proof. apply (pipewrite_correct wrapping [1; 2; 3] 2 2 wrapping_ok); simpl; lia. Defined.

Lemma piperead_witness :
  wp read_prot (piperead 2 2) wrapping (fun r p' => pipe_ok p' /\
    match r with
    | Some bs => received p' = bs /\ bs `prefix_of` sent p' /\ Z.of_nat (length bs) <= 2
    | None => killed p' = true
    end).
Proof.
  eapply wp_mono; [apply (piperead_correct wrapping 2 2 wrapping_ok); simpl; lia|].
  intros [bs|] p' [Hok H]; [|naive_solver]. destruct H as (H1 & H2 & H3 & _). by split_and!.
Defined.

Lemma pipeclose_witness :
  wp strict (pipeclose true) wrapping (fun _ p' => pipe_ok p' /\ writeopen p' = 0 /\ freed p' = false).
Proof.
  eapply wp_mono; [apply (pipeclose_correct wrapping true wrapping_ok eq_refl)|].
  intros [] p' (Hok & _ & _ & (Hw & Hr & _) & Hf). split_and!; [done|done|].
  destruct (freed p'); [|done]. destruct Hf as [Hf _]. destruct Hf as [Hf _]; [done|].
  rewrite Hr in Hf. discriminate Hf.
Defined.

(** A reader sleeps on an empty pipe; the writer has been killed. *)
Definition reader_asleep : pipe :=
  MkPipe false (replicate 512 0) 0 0 1 1 true false false true [] [] 0.
Lemma reader_asleep_ok : pipe_ok reader_asleep.
Proof. split; [done|]. exists []. split; [|done]. by split. Qed.

Lemma killed_writer_witness : exists p', pipewrite 2 (replicate 513 5) 513 reader_asleep = Ret (-1) p' /\ asleep_r p' = true.
Proof.
  destruct (killed_writer_strands_reader reader_asleep (replicate 513 5) 513 2 reader_asleep_ok eq_refl eq_refl) as (p' & E & H & _).
  - rewrite length_replicate. unfold PIPESIZE. lia.
  - lia.
  - exists p'. split; [exact E|exact H].
Defined.

End Pipe.
