(* ===== verification/Kalloc.v ===== *)
(** * The physical page allocator (kalloc.c)

    Free pages are linked through their first word.  The theorems show that
    [kalloc] and [kfree] implement a stack of distinct pages, that [kfree]
    rejects what is no page of the allocator, and that [kinit1] and [kinit2]
    together make every page between the end of the kernel and PHYSTOP
    available. *)

From S2P Require Import Prelude Params Bytes Str.

Module Kalloc.

(** [kmem] and the memory of the pages; a pointer is its address, null is 0. *)
Record kmem := Kmem {
  locked : bool;
  use_lock : Z;
  freelist : Z;
  pages : gmap Z (list Z);
}.
#[export] Instance kmem_eta : Eta kmem := fun r =>
  Kmem (locked r) (use_lock r) (freelist r) (pages r).

Section kalloc.
(** The end of the kernel's image, which the linker defines. *)
Context (end_ : Z).

Definition acquire : M kmem unit := fun s =>
  if locked s then Spin s else Ret tt (s <| locked := true |>).
Definition release : M kmem unit := fun s =>
  if locked s then Ret tt (s <| locked := false |>) else Panic "release" s.
Definition initlock : M kmem unit := modify (fun s => s <| locked := false |>).

(** [if(kmem.use_lock) acquire(&kmem.lock)], and the same for [release]. *)
Definition lock : M kmem unit := u <- gets use_lock ;; when (negb (u =? 0)) acquire.
Definition unlock : M kmem unit := u <- gets use_lock ;; when (negb (u =? 0)) release.

(** [r->next] for a page at [r]. *)
Definition get_next (r : Z) : M kmem Z := fun s =>
  match pages s !! r with Some pg => Ret (get32 0 pg) s | None => Fault s end.
Definition put_next (r n : Z) : M kmem unit := fun s =>
  match pages s !! r with
  | Some pg => Ret tt (s <| pages ::= <[r := put32 0 n pg]> |>)
  | None => Fault s
  end.
(** [memset(v, 1, PGSIZE)] *)
Definition junk (v : Z) : M kmem unit := fun s =>
  match pages s !! v ≫= (fun pg => memset pg 0 1 (Z.to_nat PGSIZE)) with
  | Some pg => Ret tt (s <| pages ::= <[v := pg]> |>)
  | None => Fault s
  end.

Definition kfree (v : Z) : M kmem unit :=
  if negb (v mod PGSIZE =? 0) || (v <? end_) || (PHYSTOP <=? V2P v) then panic "kfree"
  else
    junk v ;;;
    lock ;;;
    f <- gets freelist ;;
    put_next v f ;;;
    modify (fun s => s <| freelist := v |>) ;;;
    unlock.

Definition kalloc : M kmem Z :=
  lock ;;;
  r <- gets freelist ;;
  when (negb (r =? 0)) (n <- get_next r ;; modify (fun s => s <| freelist := n |>)) ;;;
  unlock ;;;
  ret r.

(** One turn of the loop of [freerange]. *)
Definition freerange_step (vend p : Z) : M kmem (Z + unit) :=
  if u32 (p + PGSIZE) <=? vend then kfree p ;;; ret (inl (u32 (p + PGSIZE)))
  else ret (inr tt).

Definition freerange (fuel : nat) (vstart vend : Z) : M kmem unit :=
  mwhile fuel (freerange_step vend) (PGROUNDUP vstart).

Definition kinit1 (fuel : nat) (vstart vend : Z) : M kmem unit :=
  initlock ;;;
  modify (fun s => s <| use_lock := 0 |>) ;;;
  freerange fuel vstart vend.

Definition kinit2 (fuel : nat) (vstart vend : Z) : M kmem unit :=
  freerange fuel vstart vend ;;;
  modify (fun s => s <| use_lock := 1 |>).

(** ** The free list *)

Fixpoint chain (ps : gmap Z (list Z)) (h : Z) (l : list Z) : Prop :=
  match l with
  | [] => h = 0
  | a :: l => h = a /\ exists pg, ps !! a = Some pg /\ chain ps (get32 0 pg) l
  end.

(** A page that the allocator may own. *)
Definition page (a : Z) : Prop :=
  a mod PGSIZE = 0 /\ end_ <= a /\ KERNBASE < a < KERNBASE + PHYSTOP.

Record kinv (s : kmem) (l : list Z) : Prop := {
  ki_nodup : NoDup l;
  ki_chain : chain (pages s) (freelist s) l;
  ki_page : Forall page l;
  ki_mem a : page a -> exists pg, pages s !! a = Some pg /\ length pg = Z.to_nat PGSIZE;
  ki_lock : locked s = false;
}.

Lemma chain_insert ps h l a pg : a ∉ l -> chain ps h l -> chain (<[a := pg]> ps) h l.
Proof.
  revert h. induction l as [|b l IH]; intros h Hn; [done|].
  apply not_elem_of_cons in Hn as [Hne Hn]. intros (-> & p & Hp & Hc). split; [done|].
  exists p. split; [by rewrite lookup_insert_ne by done|]. by apply IH.
Qed.

Lemma page_bounds a : page a -> 0 < a < 2 ^ 32 /\ V2P a < PHYSTOP.
Proof.
  intros (_ & _ & H). unfold KERNBASE, PHYSTOP, V2P, KERNBASE, u32 in *. split; [lia|].
  rewrite Z.mod_small; lia.
Qed.

Lemma kfree_check a :
  is_u32 a -> KERNBASE < end_ ->
  (negb (a mod PGSIZE =? 0) || (a <? end_) || (PHYSTOP <=? V2P a)) = false <-> page a.
Proof.
  intros Ha He. unfold page, is_u32, V2P, u32, PGSIZE, KERNBASE, PHYSTOP in *.
  rewrite !orb_false_iff, negb_false_iff, Z.eqb_eq, Z.ltb_ge, Z.leb_gt. split.
  - intros [[H1 H2] H3]. rewrite Z.mod_small in H3; lia.
  - intros (H1 & H2 & H3). rewrite (Z.mod_small (a - _)); lia.
Qed.

Lemma wp_lock P s (Q : unit -> kmem -> Prop) :
  locked s = false -> Q tt (s <| locked := negb (use_lock s =? 0) |>) -> wp P lock s Q.
Proof.
  intros Hl HQ. apply wp_bind, wp_gets. destruct (use_lock s =? 0); simpl in *.
  - apply wp_ret. destruct s. simpl in Hl. by subst.
  - unfold wp, acquire. by rewrite Hl.
Qed.
Lemma wp_unlock P s (Q : unit -> kmem -> Prop) :
  locked s = negb (use_lock s =? 0) -> Q tt (s <| locked := false |>) -> wp P unlock s Q.
Proof.
  intros Hl HQ. apply wp_bind, wp_gets. destruct (use_lock s =? 0); simpl in *.
  - apply wp_ret. destruct s. simpl in Hl. by subst.
  - unfold wp, release. by rewrite Hl.
Qed.

Lemma wp_kfree P s l v (Q : unit -> kmem -> Prop) :
  kinv s l -> is_u32 v -> KERNBASE < end_ -> page v -> v ∉ l ->
  (forall s', kinv s' (v :: l) -> use_lock s' = use_lock s ->
     (forall a, a <> v -> pages s' !! a = pages s !! a) -> Q tt s') ->
  wp P (kfree v) s Q.
Proof.
  intros Hk Hv He Hp Hn HQ. unfold kfree. rewrite (proj2 (kfree_check v Hv He) Hp).
  destruct (ki_mem s l Hk v Hp) as (pg & Hpg & Hlen).
  destruct (memset_ok pg 0 1 (Z.to_nat PGSIZE)) as (pg' & Hm & Hl' & _); [lia|].
  apply wp_bind. unfold wp, junk. rewrite Hpg. cbn [mbind option_bind]. rewrite Hm. cbn [wpo].
  apply wp_bind, wp_lock; [apply Hk|]. apply wp_bind, wp_gets, wp_bind.
  unfold wp, put_next. simpl. rewrite lookup_insert_eq. cbn [wpo].
  apply wp_bind, wp_modify, wp_unlock; [done|].
  assert (Hl4 : (0 + 4 <= length pg')%nat) by (rewrite Hl', Hlen; vm_compute; lia).
  apply HQ; simpl.
  - split; simpl.
    + apply NoDup_cons. split; [done|apply Hk].
    + split; [done|]. eexists. rewrite lookup_insert_eq. split; [done|].
      rewrite get_put32 by done. rewrite !insert_insert_eq. apply chain_insert; [done|].
      rewrite u32_small; [apply Hk|]. pose proof (ki_chain s l Hk) as Hc. destruct l as [|a l].
      * simpl in Hc. rewrite Hc. unfold is_u32. lia.
      * destruct Hc as [-> _]. pose proof (ki_page s _ Hk) as HF. apply Forall_cons in HF as [HF _].
        destruct (page_bounds a HF). unfold is_u32. lia.
    + constructor; [done|apply Hk].
    + intros a Ha. rewrite insert_insert_eq. destruct (decide (a = v)) as [->|Hne].
      * rewrite lookup_insert_eq. eexists. split; [done|]. rewrite length_put32 by done. lia.
      * rewrite lookup_insert_ne by done. by apply (ki_mem s l Hk).
    + done.
  - done.
  - intros a Hne. by rewrite !lookup_insert_ne.
Qed.

Lemma wp_kalloc P s l (Q : Z -> kmem -> Prop) :
  kinv s l ->
  match l with
  | [] => forall s', kinv s' [] -> pages s' = pages s -> use_lock s' = use_lock s -> Q 0 s'
  | a :: l => forall s', kinv s' l -> pages s' = pages s -> use_lock s' = use_lock s -> Q a s'
  end -> wp P kalloc s Q.
Proof.
  intros Hk HQ. apply wp_bind, wp_lock; [apply Hk|]. apply wp_bind, wp_gets. simpl.
  destruct Hk as [Hnd Hc Hpg Hmem Hlk]. destruct l as [|a l].
  - simpl in Hc. rewrite Hc. simpl. apply wp_bind, wp_ret, wp_bind, wp_unlock; [done|].
    apply wp_ret, HQ; [|done|done]. by split.
  - destruct Hc as (Ha & pg & Hp & Hc). rewrite Ha.
    apply Forall_cons in Hpg as [Hpa Hpl]. destruct (page_bounds a Hpa).
    rewrite (proj2 (Z.eqb_neq a 0)) by lia. simpl.
    apply wp_bind, wp_bind. unfold wp, get_next. simpl. rewrite Hp. cbn [wpo].
    apply (wp_bind P unlock), wp_unlock; [done|]. apply wp_ret, HQ; [|done|done].
    apply NoDup_cons in Hnd as [_ Hnd]. by split.
Qed.

(** [kfree] of a page that is not free makes it the first free page, and
    changes no other page; of anything that is not a page of the allocator it
    panics and changes nothing. *)
Theorem kfree_correct s l v :
  kinv s l -> is_u32 v -> KERNBASE < end_ ->
  (page v -> v ∉ l -> exists s', kfree v s = Ret tt s' /\ kinv s' (v :: l) /\
     (forall a, a <> v -> pages s' !! a = pages s !! a)) /\
  (~ page v -> kfree v s = Panic "kfree" s).
Proof.
  intros Hk Hv He. split.
  - intros Hp Hn.
    destruct (wp_strict (kfree v) s (fun _ s' => kinv s' (v :: l) /\
      (forall a, a <> v -> pages s' !! a = pages s !! a))) as ([] & s' & ? & ? & ?); [|eauto].
    by eapply wp_kfree.
  - intros Hp. unfold kfree. destruct (_ || _ || _) eqn:Hc; [done|]. by apply kfree_check in Hc.
Qed.

(** [kalloc] hands out the first free page and takes it off the list, so
    that it is not handed out again before it is freed; when there is none it
    returns null.  It changes no page. *)
Theorem kalloc_correct s l :
  kinv s l ->
  exists s', kinv s' (tail l) /\ pages s' = pages s /\
    kalloc s = Ret (match l with [] => 0 | a :: _ => a end) s' /\
    (forall a, head l = Some a -> page a /\ a ∉ tail l).
Proof.
  intros Hk.
  destruct (wp_strict kalloc s (fun r s' => r = match l with [] => 0 | a :: _ => a end /\
    kinv s' (tail l) /\ pages s' = pages s)) as (r & s' & He & -> & Hk' & Hp).
  { eapply wp_kalloc; [done|]. by destruct l. }
  exists s'. split_and!; [done|done|done|]. intros a Ha. destruct l as [|b l]; [done|]. injection Ha as ->.
  pose proof (ki_page s _ Hk) as HF. apply Forall_cons in HF as [HF _]. split; [done|].
  pose proof (ki_nodup s _ Hk) as Hnd. by apply NoDup_cons in Hnd as [? _].
Qed.

(** ** Initialisation *)

(** [n] pages from address [p] on. *)
Definition page_run (p : Z) (n : nat) : list Z := (fun i => p + Z.of_nat i * PGSIZE) <$> seq 0 n.

Lemma page_run_S p n : page_run p (S n) = p :: page_run (p + PGSIZE) n.
Proof.
  unfold page_run. cbn [seq fmap list_fmap]. f_equal; [lia|]. rewrite <- fmap_S_seq, <- list_fmap_compose.
  apply list_fmap_ext. intros i x _. simpl. lia.
Qed.

Lemma elem_of_page_run p n a :
  a ∈ page_run p n <-> exists i, (i < n)%nat /\ a = p + Z.of_nat i * PGSIZE.
Proof.
  unfold page_run. rewrite list_elem_of_fmap. split; intros (i & H1 & H2); exists i.
  - apply elem_of_seq in H2. split; [lia|done].
  - split; [done|]. apply elem_of_seq. lia.
Qed.

Lemma wp_freerange P vend n : forall fuel p s l (Q : unit -> kmem -> Prop),
  KERNBASE < end_ -> kinv s l -> 0 <= p -> vend < 2 ^ 32 - PGSIZE ->
  p + Z.of_nat n * PGSIZE <= vend < p + Z.of_nat n * PGSIZE + PGSIZE ->
  Forall page (page_run p n) -> (forall a, a ∈ page_run p n -> a ∉ l) -> (n < fuel)%nat ->
  (forall s', kinv s' (rev (page_run p n) ++ l) -> use_lock s' = use_lock s -> Q tt s') ->
  wp P (mwhile fuel (freerange_step vend) p) s Q.
Proof.
  induction n as [|n IH]; intros fuel p s l Q He Hk Hp Hv Hn HF Hd Hfuel HQ;
    (destruct fuel as [|fuel]; [lia|]); cbn [mwhile]; apply wp_bind; unfold freerange_step.
  - rewrite u32_small by (unfold is_u32, PGSIZE in *; lia).
    destruct (Z.leb_spec (p + PGSIZE) vend); [lia|]. by apply wp_ret, wp_ret, HQ.
  - rewrite page_run_S in *. apply Forall_cons in HF as [HF1 HF]. unfold PGSIZE in Hn, Hv.
    rewrite u32_small by (unfold is_u32, PGSIZE in *; lia).
    destruct (Z.leb_spec (p + PGSIZE) vend); [|unfold PGSIZE in *; lia].
    apply wp_bind. eapply wp_kfree; [done|unfold is_u32; lia|done|done|apply Hd; set_solver|].
    intros s1 Hk1 Hu1 _. apply wp_ret. eapply (IH fuel _ s1 (p :: l)); [done|done|..].
    + unfold PGSIZE. lia.
    + done.
    + unfold PGSIZE. lia.
    + done.
    + intros a Ha. rewrite not_elem_of_cons. split; [|apply Hd; set_solver].
      apply elem_of_page_run in Ha as (i & _ & ->). unfold PGSIZE. lia.
    + lia.
    + intros s2 Hk2 Hu2. apply HQ; [|congruence]. cbn [rev]. by rewrite <- app_assoc.
Qed.

(** The pages that start in [from, to). *)
Lemma page_run_range p vend n a :
  p mod PGSIZE = 0 -> p + Z.of_nat n * PGSIZE <= vend < p + Z.of_nat n * PGSIZE + PGSIZE ->
  a ∈ page_run p n <-> p <= a /\ a + PGSIZE <= vend /\ a mod PGSIZE = 0.
Proof.
  intros Hp Hn. rewrite elem_of_page_run. unfold PGSIZE in *. split.
  - intros (i & Hi & ->). rewrite Z.mod_add by lia. lia.
  - intros (H1 & H2 & H3). exists (Z.to_nat ((a - p) / 4096)).
    assert (Hd : (a - p) mod 4096 = 0) by (rewrite Zminus_mod, H3, Hp; done).
    pose proof (Z.div_mod (a - p) 4096). lia.
Qed.

Lemma PGROUNDUP_bounds a : 0 <= a <= 2 ^ 32 - PGSIZE ->
  PGROUNDUP a mod PGSIZE = 0 /\ a <= PGROUNDUP a < a + PGSIZE.
Proof.
  intros Ha. rewrite PGROUNDUP_eq by done. unfold PGSIZE in *. rewrite Z.mod_mul by lia.
  pose proof (Z.div_mod (a + 4096 - 1) 4096). pose proof (Z.mod_pos_bound (a + 4096 - 1) 4096). lia.
Qed.

Lemma wp_freerange_region P fuel vstart vend s l (Q : unit -> kmem -> Prop) :
  KERNBASE < end_ -> kinv s l -> end_ <= vstart -> vstart <= vend <= KERNBASE + PHYSTOP ->
  (forall a, a ∈ l -> a < vstart) -> (Z.to_nat (PHYSTOP / PGSIZE) < fuel)%nat ->
  (forall s' l', kinv s' l' -> use_lock s' = use_lock s ->
     (forall a, a ∈ l' <-> a ∈ l \/ a mod PGSIZE = 0 /\ vstart <= a /\ a + PGSIZE <= vend) -> Q tt s') ->
  wp P (freerange fuel vstart vend) s Q.
Proof.
  intros He Hk Hs Hv Hl Hfuel HQ. unfold freerange.
  assert (Hb : 0 <= vstart <= 2 ^ 32 - PGSIZE) by (unfold KERNBASE, PHYSTOP, PGSIZE in *; lia).
  destruct (PGROUNDUP_bounds vstart Hb) as [Hm Hr]. set (p := PGROUNDUP vstart) in *.
  destruct (decide (p <= vend)) as [Hle|Hgt].
  - set (n := Z.to_nat ((vend - p) / PGSIZE)).
    assert (Hn : p + Z.of_nat n * PGSIZE <= vend < p + Z.of_nat n * PGSIZE + PGSIZE).
    { unfold n. pose proof (Z.div_mod (vend - p) PGSIZE). pose proof (Z.mod_pos_bound (vend - p) PGSIZE).
      unfold PGSIZE in *. rewrite Z2Nat.id by (apply Z.div_pos; lia). lia. }
    assert (Hrun := fun a => page_run_range p vend n a Hm Hn).
    eapply (wp_freerange P vend n); [done|done|..].
    + lia.
    + unfold KERNBASE, PHYSTOP, PGSIZE in *. lia.
    + done.
    + apply Forall_forall. intros a Ha%Hrun. unfold page, PGSIZE in *. lia.
    + intros a Ha%Hrun Hal. specialize (Hl a Hal). lia.
    + clearbody n p. change (PHYSTOP / PGSIZE) with 57344 in Hfuel.
      unfold KERNBASE, PHYSTOP, PGSIZE in *. lia.
    + intros s' Hk' Hu. apply (HQ s' _ Hk' Hu). intros a. rewrite elem_of_app.
      rewrite list_elem_of_In, <- in_rev, <- list_elem_of_In, Hrun. unfold PGSIZE in *.
      split; [intros [H|H]; [right|by left]; lia|]. intros [H|(H1 & H2 & H3)]; [by right|]. left.
      split; [|done]. pose proof (Z.div_mod (a - p) 4096).
      assert ((a - p) mod 4096 = 0) by (rewrite Zminus_mod, H1, Hm; done). lia.
  - destruct fuel as [|fuel]; [lia|]. cbn [mwhile]. apply wp_bind. unfold freerange_step.
    rewrite u32_small by (unfold is_u32, KERNBASE, PHYSTOP, PGSIZE in *; lia).
    destruct (Z.leb_spec (p + PGSIZE) vend); [unfold PGSIZE in *; lia|]. apply wp_ret, wp_ret.
    apply (HQ s l Hk eq_refl). intros a. split; [auto|]. intros [H1|(H1 & H2 & H3)]; [done|]. exfalso.
    unfold PGSIZE in *. lia.
Qed.

(** After [kinit1] and [kinit2] the free list holds every page between the
    end of the kernel and PHYSTOP, each once, and the allocator uses its lock
    from then on. *)
Theorem kinit_correct fuel vmid s :
  KERNBASE < end_ -> end_ <= vmid -> vmid <= KERNBASE + PHYSTOP -> vmid mod PGSIZE = 0 ->
  freelist s = 0 ->
  (forall a, page a -> exists pg, pages s !! a = Some pg /\ length pg = Z.to_nat PGSIZE) ->
  (Z.to_nat (PHYSTOP / PGSIZE) < fuel)%nat ->
  exists s' l, (kinit1 fuel end_ vmid ;;; kinit2 fuel vmid (KERNBASE + PHYSTOP)) s = Ret tt s' /\
    kinv s' l /\ use_lock s' = 1 /\ (forall a, a ∈ l <-> page a).
Proof.
  intros He Hv1 Hv2 Hm Hf Hmem Hfuel.
  destruct (wp_strict (kinit1 fuel end_ vmid ;;; kinit2 fuel vmid (KERNBASE + PHYSTOP)) s
    (fun _ s' => exists l, kinv s' l /\ use_lock s' = 1 /\ (forall a, a ∈ l <-> page a)))
    as ([] & s' & Hr & l & Hl); [|by exists s', l].
  apply wp_bind, wp_bind, wp_modify, wp_bind, wp_modify.
  eapply (wp_freerange_region _ _ _ _ _ []); [done| |done|lia|set_solver|done|].
  { split; simpl; [constructor|done|constructor|done|done]. }
  intros s1 l1 Hk1 _ Hl1. apply wp_bind.
  eapply (wp_freerange_region _ _ _ _ _ l1); [done|done|done|lia| |done|].
  { intros a Ha%Hl1. unfold PGSIZE in *. set_solver by lia. }
  intros s2 l2 Hk2 _ Hl2. apply wp_modify. exists l2. split_and!; [|done|].
  { destruct Hk2 as [K1 K2 K3 K4 K5]. by split. }
  intros a. rewrite Hl2, Hl1. unfold page. unfold PGSIZE, KERNBASE, PHYSTOP in *. split.
  - intros [[H|H]|H]; [set_solver|lia|lia].
  - intros (H1 & H2 & H3). destruct (decide (a < vmid)).
    + left. right. split; [done|]. split; [lia|].
      assert ((vmid - a) mod 4096 = 0) by (rewrite Zminus_mod, H1, Hm; done).
      pose proof (Z.div_mod (vmid - a) 4096). lia.
    + right. split; [done|]. split; [lia|].
      assert ((0x80000000 + 0xE000000 - a) mod 4096 = 0) by (rewrite Zminus_mod, H1; done).
      pose proof (Z.div_mod (0x80000000 + 0xE000000 - a) 4096). lia.
Qed.

End kalloc.

(** ** A machine with two pages *)

Definition demo_end : Z := 0x8DFFE000.
Definition demo_mem : gmap Z (list Z) :=
  <[0x8DFFE000 := replicate 4096 7]> (<[0x8DFFF000 := replicate 4096 0]> ∅).

Lemma demo_page a : page demo_end a <-> a = 0x8DFFE000 \/ a = 0x8DFFF000.
Proof.
  unfold page, demo_end, PGSIZE, KERNBASE, PHYSTOP. split.
  - intros (H1 & H2 & H3). pose proof (Z.div_mod a 4096). lia.
  - intros [-> | ->]; (split; [done|lia]).
Qed.
Lemma demo_mem_ok a : page demo_end a -> exists pg, demo_mem !! a = Some pg /\ length pg = Z.to_nat PGSIZE.
Proof. intros [-> | ->]%demo_page; eexists; (split; [reflexivity|by rewrite length_replicate]). Qed.

(** One page is free, the other in use. *)
Definition demo_kmem : kmem := Kmem false 1 0x8DFFF000 demo_mem.
Lemma demo_kinv : kinv demo_end demo_kmem [0x8DFFF000].
Proof.
  split; [apply NoDup_singleton| | |apply demo_mem_ok|done].
  - split; [done|]. eexists. split; [reflexivity|]. by vm_compute.
  - constructor; [|constructor]. apply demo_page. by right.
Qed.

Lemma kfree_witness :
  exists s', kfree demo_end 0x8DFFE000 demo_kmem = Ret tt s' /\
    kinv demo_end s' [0x8DFFE000; 0x8DFFF000].
Proof.
  destruct (kfree_correct demo_end demo_kmem [0x8DFFF000] 0x8DFFE000 demo_kinv) as [H _].
  - split; [discriminate|reflexivity].
  - reflexivity.
  - destruct H as (s' & H1 & H2 & _); [apply demo_page; by left|by apply not_elem_of_cons; split; [|apply not_elem_of_nil]|].
    exists s'. split; [exact H1|exact H2].
Defined.

Lemma kalloc_witness : exists s', kalloc demo_kmem = Ret 0x8DFFF000 s' /\ kinv demo_end s' [].
Proof.
  destruct (kalloc_correct demo_end demo_kmem [0x8DFFF000] demo_kinv) as (s' & H1 & _ & H2 & _).
  exists s'. split; [exact H2|exact H1].
Defined.

Lemma kinit_witness :
  exists fuel s' l, (kinit1 demo_end fuel demo_end 0x8DFFF000 ;;; kinit2 demo_end fuel 0x8DFFF000 0x8E000000)
      (Kmem true 0 0 demo_mem) = Ret tt s' /\
    kinv demo_end s' l /\ use_lock s' = 1 /\ (forall a, a ∈ l <-> page demo_end a).
Proof.
  exists (S (Z.to_nat (PHYSTOP / PGSIZE))).
  apply (kinit_correct demo_end (S (Z.to_nat (PHYSTOP / PGSIZE))) 0x8DFFF000 (Kmem true 0 0 demo_mem));
    [reflexivity|discriminate|discriminate|reflexivity|reflexivity|apply demo_mem_ok|lia].
Defined.

End Kalloc.
