(* ===== verification/Vm.v ===== *)
(** * Page tables (vm.c)

    The two-level page tables of a process: how they are built, walked, copied
    and torn down, in the pages of the allocator.  The messages that [allocuvm]
    prints are not part of the state. *)

From S2P Require Import Prelude Params Bytes Str Kalloc.
Import Kalloc.

(** mmu.h, memlayout.h *)
Definition PDX (va : Z) : Z := Z.land (Z.shiftr va 22) 0x3FF.
Definition PTX (va : Z) : Z := Z.land (Z.shiftr va 12) 0x3FF.
Definition PGADDR (d t o : Z) : Z := u32 (Z.lor (Z.lor (Z.shiftl d 22) (Z.shiftl t 12)) o).
Definition NPDENTRIES : Z := 1024.
Definition PTE_P : Z := 1.
Definition PTE_W : Z := 2.
Definition PTE_U : Z := 4.
Definition PTE_ADDR (pte : Z) : Z := Z.land pte (u32 (Z.lnot 0xFFF)).
Definition PTE_FLAGS (pte : Z) : Z := Z.land pte 0xFFF.
Definition EXTMEM : Z := 0x100000.
Definition DEVSPACE : Z := 0xFE000000.
Definition KERNLINK : Z := KERNBASE + EXTMEM.

(** [e & f] as a condition. *)
Definition has (e f : Z) : bool := negb (Z.land e f =? 0).

Section vm.
(** The end of the kernel's image and the start of its data, which the linker
    defines. *)
Context (end_ data : Z).
Notation K := kmem.
Notation kfree := (kfree end_).

(** ** Memory *)

(** A pointer to an entry is the page that it is in and its index.  The page
    directory and the page tables are pages of the allocator. *)
Definition pte_ptr : Type := Z * Z.
Definition get_pte (p : pte_ptr) : M K Z := fun s =>
  match pages s !! p.1 with Some d => Ret (get32 (Z.to_nat (4 * p.2)) d) s | None => Fault s end.
Definition set_pte (p : pte_ptr) (e : Z) : M K unit := fun s =>
  match pages s !! p.1 with
  | Some d => Ret tt (s <| pages ::= <[p.1 := put32 (Z.to_nat (4 * p.2)) e d]> |>)
  | None => Fault s
  end.

(** [memset(v, 0, PGSIZE)] *)
Definition zero_page (v : Z) : M K unit := fun s =>
  match pages s !! v ≫= (fun d => memset d 0 0 (Z.to_nat PGSIZE)) with
  | Some d => Ret tt (s <| pages ::= <[v := d]> |>)
  | None => Fault s
  end.
(** [n] bytes of the page at [v] from [o] on, and [memmove(v + o, bs, ...)] for
    bytes of another object. *)
Definition load (v : Z) (o n : nat) : M K (list Z) := fun s =>
  match pages s !! v with
  | Some d => if (o + n <=? length d)%nat then Ret (slice o n d) s else Fault s
  | None => Fault s
  end.
Definition store (v : Z) (o : nat) (bs : list Z) : M K unit := fun s =>
  match pages s !! v with
  | Some d => if (o + length bs <=? length d)%nat then Ret tt (s <| pages ::= <[v := splice o bs d]> |>) else Fault s
  | None => Fault s
  end.

(** ** Walking and mapping *)

Definition walkpgdir (pgdir va : Z) (alloc : bool) : M K (option pte_ptr) :=
  pde <- get_pte (pgdir, PDX va) ;;
  if has pde PTE_P then ret (Some (P2V (PTE_ADDR pde), PTX va))
  else if negb alloc then ret None
  else
    pgtab <- kalloc ;;
    if pgtab =? 0 then ret None
    else
      zero_page pgtab ;;;
      set_pte (pgdir, PDX va) (Z.lor (Z.lor (Z.lor (V2P pgtab) PTE_P) PTE_W) PTE_U) ;;;
      ret (Some (pgtab, PTX va)).

(** One turn of the loop of [mappages], at [a] and [pa]. *)
Definition map_step (pgdir last perm : Z) (x : Z * Z) : M K (Z * Z + Z) :=
  let '(a, pa) := x in
  o <- walkpgdir pgdir a true ;;
  match o with
  | None => ret (inr (-1))
  | Some pte =>
      e <- get_pte pte ;;
      if has e PTE_P then panic "remap"
      else
        set_pte pte (Z.lor (Z.lor pa perm) PTE_P) ;;;
        ret (if a =? last then inr 0 else inl (u32 (a + PGSIZE), u32 (pa + PGSIZE)))
  end.
Definition mappages (pgdir va size pa perm : Z) : M K Z :=
  let a := PGROUNDDOWN va in
  let last := PGROUNDDOWN (u32 (va + size - 1)) in
  mwhile (S (Z.to_nat (u32 (last - a) / PGSIZE))) (map_step pgdir last perm) (a, pa).

(** ** Shrinking and freeing *)

(** One turn of the loop of [deallocuvm]. *)
Definition dealloc_step (pgdir oldsz a : Z) : M K (Z + unit) :=
  if a <? oldsz then
    o <- walkpgdir pgdir a false ;;
    match o with
    | None => ret (inl (u32 (u32 (PGADDR (PDX a + 1) 0 0 - PGSIZE) + PGSIZE)))
    | Some pte =>
        e <- get_pte pte ;;
        when (has e PTE_P)
          (let pa := PTE_ADDR e in
           if pa =? 0 then panic "kfree"
           else kfree (P2V pa) ;;; set_pte pte 0) ;;;
        ret (inl (u32 (a + PGSIZE)))
    end
  else ret (inr tt).
Definition deallocuvm (pgdir oldsz newsz : Z) : M K Z :=
  if oldsz <=? newsz then ret oldsz
  else
    mwhile (S (S (Z.to_nat (oldsz / PGSIZE)))) (dealloc_step pgdir oldsz) (PGROUNDUP newsz) ;;;
    ret newsz.

(** One turn of the loop of [freevm]. *)
Definition free_table (pgdir i : Z) : M K unit :=
  pde <- get_pte (pgdir, i) ;;
  when (has pde PTE_P) (kfree (P2V (PTE_ADDR pde))).
Definition freevm (pgdir : Z) : M K unit :=
  if pgdir =? 0 then panic "freevm: no pgdir"
  else
    deallocuvm pgdir KERNBASE 0 ;;;
    meach (seqZ 0 NPDENTRIES) (free_table pgdir) ;;;
    kfree pgdir.

(** ** The kernel's part *)

(** [virt], [phys_start], [phys_end], [perm] *)
Definition kmap : list (Z * Z * Z * Z) :=
  [(KERNBASE, 0, EXTMEM, PTE_W);
   (KERNLINK, V2P KERNLINK, V2P data, 0);
   (data, V2P data, PHYSTOP, PTE_W);
   (DEVSPACE, DEVSPACE, 0, PTE_W)].
Definition kmap_step (pgdir : Z) (k : Z * Z * Z * Z) : M K (option unit) :=
  let '(virt, phys_start, phys_end, perm) := k in
  r <- mappages pgdir virt (u32 (phys_end - phys_start)) phys_start perm ;;
  if r <? 0 then freevm pgdir ;;; ret (Some tt) else ret None.
(** 0 when there is no memory. *)
Definition setupkvm : M K Z :=
  pgdir <- kalloc ;;
  if pgdir =? 0 then ret 0
  else
    zero_page pgdir ;;;
    if DEVSPACE <? P2V PHYSTOP then panic "PHYSTOP too high"
    else
      r <- mfor kmap (kmap_step pgdir) ;;
      ret (if r is Some _ then 0 else pgdir).

(** ** Growing and copying *)

Definition inituvm (pgdir : Z) (init : list Z) (sz : Z) : M K unit :=
  if PGSIZE <=? sz then panic "inituvm: more than a page"
  else
    mem <- kalloc ;;
    zero_page mem ;;;
    mappages pgdir 0 PGSIZE (V2P mem) (Z.lor PTE_W PTE_U) ;;;
    store mem 0 (take (Z.to_nat sz) init).

(** One turn of the loop of [allocuvm]: the next address, or the result. *)
Definition alloc_step (pgdir oldsz newsz a : Z) : M K (Z + Z) :=
  if a <? newsz then
    mem <- kalloc ;;
    if mem =? 0 then deallocuvm pgdir newsz oldsz ;;; ret (inr 0)
    else
      zero_page mem ;;;
      r <- mappages pgdir a PGSIZE (V2P mem) (Z.lor PTE_W PTE_U) ;;
      if r <? 0 then deallocuvm pgdir newsz oldsz ;;; kfree mem ;;; ret (inr 0)
      else ret (inl (u32 (a + PGSIZE)))
  else ret (inr newsz).
Definition allocuvm (pgdir oldsz newsz : Z) : M K Z :=
  if KERNBASE <=? newsz then ret 0
  else if newsz <? oldsz then ret oldsz
  else mwhile (S (S (Z.to_nat (newsz / PGSIZE)))) (alloc_step pgdir oldsz newsz) (PGROUNDUP oldsz).

Definition clearpteu (pgdir uva : Z) : M K unit :=
  o <- walkpgdir pgdir uva false ;;
  match o with
  | None => panic "clearpteu"
  | Some pte => e <- get_pte pte ;; set_pte pte (Z.land e (u32 (Z.lnot PTE_U)))
  end.

(** One turn of the loop of [copyuvm], for the new directory [d]. *)
Definition copy_step (pgdir d sz i : Z) : M K (Z + Z) :=
  if i <? sz then
    o <- walkpgdir pgdir i false ;;
    match o with
    | None => panic "copyuvm: pte should exist"
    | Some pte =>
        e <- get_pte pte ;;
        if negb (has e PTE_P) then panic "copyuvm: page not present"
        else
          let pa := PTE_ADDR e in
          let flags := PTE_FLAGS e in
          mem <- kalloc ;;
          if mem =? 0 then freevm d ;;; ret (inr 0)
          else
            bs <- load (P2V pa) 0 (Z.to_nat PGSIZE) ;;
            store mem 0 bs ;;;
            r <- mappages d i PGSIZE (V2P mem) flags ;;
            if r <? 0 then freevm d ;;; ret (inr 0)
            else ret (inl (u32 (i + PGSIZE)))
    end
  else ret (inr d).
Definition copyuvm (pgdir sz : Z) : M K Z :=
  d <- setupkvm ;;
  if d =? 0 then ret 0
  else mwhile (S (S (Z.to_nat (sz / PGSIZE)))) (copy_step pgdir d sz) 0.

(** ** Access through a page table *)

(** The code reads [*pte] also when [walkpgdir] returns null, which is undefined. *)
Definition uva2ka (pgdir uva : Z) : M K Z :=
  o <- walkpgdir pgdir uva false ;;
  match o with
  | None => fault
  | Some pte =>
      e <- get_pte pte ;;
      ret (if negb (has e PTE_P) then 0 else if negb (has e PTE_U) then 0 else P2V (PTE_ADDR e))
  end.

(** One turn of the loop of [copyout], at [va] with the bytes [buf] left. *)
Definition copyout_step (pgdir : Z) (x : Z * list Z) : M K (Z * list Z + Z) :=
  let '(va, buf) := x in
  let len := Z.of_nat (length buf) in
  if 0 <? len then
    let va0 := PGROUNDDOWN va in
    pa0 <- uva2ka pgdir va0 ;;
    if pa0 =? 0 then ret (inr (-1))
    else
      let n := Z.to_nat (Z.min (PGSIZE - (va - va0)) len) in
      store pa0 (Z.to_nat (va - va0)) (take n buf) ;;;
      ret (inl (u32 (va0 + PGSIZE), drop n buf))
  else ret (inr 0).
Definition copyout (pgdir va : Z) (p : list Z) : M K Z :=
  mwhile (S (length p)) (copyout_step pgdir) (va, p).
End vm.
