(* ===== verification/VmTable.v ===== *)
(** * Walking and mapping (vm.c)

    What a page table maps, and how [walkpgdir] and [mappages] extend it. *)

From S2P Require Import Prelude Params Bytes Str Kalloc Vm.
Import Kalloc.

(** Arithmetic with division by constants. *)
Ltac zlia := Z.to_euclidean_division_equations; lia.

(** ** Addresses and entries *)

Definition aligned (a : Z) : Prop := a mod PGSIZE = 0.

Lemma PDX_eq va : is_u32 va -> PDX va = va / PGSIZE / 1024.
Proof.
  intros Hv. unfold PDX. change 0x3FF with (Z.ones 10). rewrite Z.land_ones, Z.shiftr_div_pow2 by lia.
  unfold is_u32, PGSIZE in *. rewrite Z.div_div by lia. change (2 ^ 22) with 4194304. change (4096 * 1024) with 4194304.
  apply Z.mod_small. zlia.
Qed.
Lemma PTX_eq va : is_u32 va -> PTX va = va / PGSIZE mod 1024.
Proof. intros Hv. unfold PTX. change 0x3FF with (Z.ones 10). by rewrite Z.land_ones, Z.shiftr_div_pow2 by lia. Qed.

Lemma land_high pa f : aligned pa -> 0 <= f < 4096 -> Z.land pa f = 0.
Proof.
  intros Hp Hf. apply Z.bits_inj'. intros k Hk. rewrite Z.land_spec, Z.bits_0.
  destruct (decide (k < 12)) as [Hlt|Hge].
  - replace pa with (pa / 2 ^ 12 * 2 ^ 12) by (unfold aligned, PGSIZE in Hp; change (2 ^ 12) with 4096; zlia).
    by rewrite Z.mul_pow2_bits_low by lia.
  - destruct (decide (f = 0)) as [->|Hf0]; [by rewrite Z.bits_0, andb_false_r|].
    rewrite (Z.bits_above_log2 f), andb_false_r; [done|lia|]. apply Z.log2_lt_pow2; [lia|].
    apply Z.lt_le_trans with (2 ^ 12); [lia|]. apply Z.pow_le_mono_r; lia.
Qed.
Lemma lor_entry pa f : aligned pa -> 0 <= f < 4096 -> Z.lor pa f = pa + f.
Proof. intros Hp Hf. rewrite Z.add_nocarry_lxor by (by apply land_high). symmetry. apply Z.lxor_lor. by apply land_high. Qed.

Lemma PTE_ADDR_eq e : is_u32 e -> PTE_ADDR e = e / PGSIZE * PGSIZE.
Proof. apply PGROUNDDOWN_eq. Qed.
Lemma PTE_ADDR_entry pa f : is_u32 pa -> aligned pa -> 0 <= f < 4096 -> PTE_ADDR (Z.lor pa f) = pa.
Proof.
  intros Hu Hp Hf. rewrite lor_entry by done. unfold aligned, PGSIZE, is_u32 in *. rewrite PTE_ADDR_eq; unfold PGSIZE, is_u32; zlia.
Qed.
Lemma PTE_FLAGS_entry pa f : aligned pa -> 0 <= f < 4096 -> PTE_FLAGS (Z.lor pa f) = f.
Proof.
  intros Hp Hf. unfold PTE_FLAGS. rewrite Z.land_lor_distr_l, land_high by (done || lia). rewrite Z.lor_0_l.
  change 0xFFF with (Z.ones 12). rewrite Z.land_ones by lia. by apply Z.mod_small.
Qed.
Lemma pte_has pa f g : aligned pa -> 0 <= g < 4096 -> has (Z.lor pa f) g = has f g.
Proof. intros Hp Hg. unfold has. by rewrite Z.land_lor_distr_l, land_high, Z.lor_0_l. Qed.
Lemma entry_u32 pa f : is_u32 pa -> aligned pa -> 0 <= f < 4096 -> is_u32 (Z.lor pa f).
Proof. intros Hu Hp Hf. rewrite lor_entry by done. unfold is_u32, aligned, PGSIZE in *. zlia. Qed.

(** Physical and virtual addresses of pages. *)
Section pages.
Context (end_ : Z).
Notation page := (page end_).
Notation kinv := (kinv end_).

Lemma page_V2P a : page a -> V2P a = a - KERNBASE /\ is_u32 (V2P a) /\ aligned (V2P a) /\ V2P a <> 0 /\ P2V (V2P a) = a.
Proof.
  intros (Ha & _ & Hb). unfold P2V, V2P, u32, is_u32, aligned, KERNBASE, PHYSTOP, PGSIZE in *.
  rewrite (Z.mod_small (a - _)) by lia. split_and!; [done|lia|lia|zlia|lia|]. rewrite Z.mod_small by lia. lia.
Qed.
Lemma page_u32 a : page a -> is_u32 a.
Proof. intros Hp. destruct (page_bounds _ a Hp). unfold is_u32. lia. Qed.

Definition pg (s : kmem) (a : Z) : list Z := default [] (pages s !! a).
Definition zeroed : list Z := replicate 4096 0.
#[global] Arguments zeroed : simpl never.
Lemma length_zeroed : length zeroed = 4096%nat.
Proof. apply length_replicate. Qed.
Definition put (s : kmem) (a : Z) (d : list Z) : kmem := s <| pages ::= <[a := d]> |>.
Lemma pg_put s a d : pg (put s a d) a = d.
Proof. unfold pg, put. simpl. by rewrite lookup_insert_eq. Qed.
Lemma pg_put_ne s a b d : b <> a -> pg (put s a d) b = pg s b.
Proof. intros Hne. unfold pg, put. simpl. by rewrite lookup_insert_ne. Qed.

Lemma kinv_pg s l a : kinv s l -> page a -> pages s !! a = Some (pg s a) /\ length (pg s a) = 4096%nat.
Proof. intros Hk Hp. destruct (ki_mem _ _ _ Hk a Hp) as (d & E & Hl). unfold pg. rewrite E. split; [done|]. simpl. by rewrite Hl. Qed.
Lemma kinv_put s l a d : kinv s l -> page a -> a ∉ l -> length d = 4096%nat -> kinv (put s a d) l.
Proof.
  intros [K1 K2 K3 K4 K5] Hp Hn Hl. split; [done| |done| |done].
  - simpl. by apply chain_insert.
  - intros b Hb. simpl. destruct (decide (b = a)) as [->|Hne]; [rewrite lookup_insert_eq; eexists; split; [done|by rewrite Hl]|].
    rewrite lookup_insert_ne by done. by apply K4.
Qed.

(** ** Page tables *)

(** The page tables of a directory, by index of the directory entry. *)
Definition tab_pages (ts : gmap Z Z) : list Z := (map_to_list ts).*2.

Lemma tab_in ts i t : ts !! i = Some t -> t ∈ tab_pages ts.
Proof. intros E. apply list_elem_of_fmap. exists (i, t). split; [done|]. by apply elem_of_map_to_list. Qed.
Lemma in_tab ts t : t ∈ tab_pages ts -> exists i, ts !! i = Some t.
Proof. intros ([i t'] & -> & E)%list_elem_of_fmap. exists i. by apply elem_of_map_to_list. Qed.
Lemma tab_insert ts i t : ts !! i = None -> tab_pages (<[i := t]> ts) ≡ₚ t :: tab_pages ts.
Proof. intros E. unfold tab_pages. by rewrite map_to_list_insert. Qed.
Lemma tab_delete ts i t : ts !! i = Some t -> tab_pages ts ≡ₚ t :: tab_pages (delete i ts).
Proof. intros E. rewrite <- (insert_delete_id ts i t E) at 1. apply tab_insert, lookup_delete_eq. Qed.
Lemma tab_inj ts i j t : NoDup (tab_pages ts) -> ts !! i = Some t -> ts !! j = Some t -> i = j.
Proof.
  intros Hn Hi Hj. destruct (decide (i = j)) as [|Hne]; [done|]. exfalso. rewrite (tab_delete ts i t Hi) in Hn.
  apply NoDup_cons in Hn as [Hn _]. apply Hn, (tab_in _ j). by rewrite lookup_delete_ne.
Qed.

(** The entry of a directory for the page table at [t]. *)
Definition pde_of (t : Z) : Z := Z.lor (V2P t) 7.
Definition word (s : kmem) (a i : Z) : Z := get32 (Z.to_nat (4 * i)) (pg s a).

(** The directory at [d] has the tables [ts]. *)
Record pgt (s : kmem) (d : Z) (ts : gmap Z Z) : Prop := {
  pt_dir : page d;
  pt_tab i t : ts !! i = Some t -> 0 <= i < 1024 /\ page t /\ word s d i = pde_of t;
  pt_none i : 0 <= i < 1024 -> ts !! i = None -> has (word s d i) PTE_P = false;
}.

(** The entry for page number [n]; 0 if there is no table for it. *)
Definition ent (s : kmem) (ts : gmap Z Z) (n : Z) : Z :=
  match ts !! (n / 1024) with Some t => word s t (n mod 1024) | None => 0 end.

Lemma word_put s a d i : word (put s a d) a i = get32 (Z.to_nat (4 * i)) d.
Proof. unfold word. by rewrite pg_put. Qed.
Lemma word_put_ne s a b d i : b <> a -> word (put s a d) b i = word s b i.
Proof. intros Hne. unfold word. by rewrite pg_put_ne. Qed.
Lemma word_put32 d i j e : length d = 4096%nat -> 0 <= i < 1024 -> 0 <= j < 1024 -> is_u32 e ->
  get32 (Z.to_nat (4 * j)) (put32 (Z.to_nat (4 * i)) e d) = if decide (j = i) then e else get32 (Z.to_nat (4 * j)) d.
Proof.
  intros Hl Hi Hj He. case_decide as E.
  - subst j. rewrite get_put32 by lia. by apply u32_small.
  - apply get32_put32; lia.
Qed.
Lemma word_ext s s' a i : pg s' a = pg s a -> word s' a i = word s a i.
Proof. unfold word. by intros ->. Qed.
Lemma ent_ext s s' ts n : (forall t, t ∈ tab_pages ts -> pg s' t = pg s t) -> ent s' ts n = ent s ts n.
Proof. intros H. unfold ent, word. destruct (ts !! _) eqn:E; [|done]. rewrite H; [done|]. by eapply tab_in. Qed.
Lemma pgt_ext s s' d ts : pg s' d = pg s d -> pgt s d ts -> pgt s' d ts.
Proof. intros H [P1 P2 P3]. split; [done|intros i t Hi; rewrite (word_ext s) by done; by apply P2|intros i Hi Hn; rewrite (word_ext s) by done; by apply P3]. Qed.

(** The rules of the accesses to entries. *)
Section rules.
Context (P : prot kmem).
Implicit Types (s : kmem) (l R : list Z) (ts : gmap Z Z).

Lemma wp_get_pte s l a i (Q : Z -> kmem -> Prop) : kinv s l -> page a -> Q (word s a i) s -> wp P (get_pte (a, i)) s Q.
Proof. intros Hk Hp HQ. eapply wp_ret_intro; [|exact HQ]. unfold get_pte. simpl. by rewrite (proj1 (kinv_pg _ _ _ Hk Hp)). Qed.
Lemma wp_set_pte s l a i e (Q : unit -> kmem -> Prop) : kinv s l -> page a ->
  Q tt (put s a (put32 (Z.to_nat (4 * i)) e (pg s a))) -> wp P (set_pte (a, i) e) s Q.
Proof. intros Hk Hp HQ. eapply wp_ret_intro; [|exact HQ]. unfold set_pte. simpl. by rewrite (proj1 (kinv_pg _ _ _ Hk Hp)). Qed.
Lemma wp_zero_page s l a (Q : unit -> kmem -> Prop) : kinv s l -> page a ->
  Q tt (put s a zeroed) -> wp P (zero_page a) s Q.
Proof.
  intros Hk Hp HQ. destruct (kinv_pg _ _ _ Hk Hp) as [E Hl]. eapply wp_ret_intro; [|exact HQ]. unfold zero_page. rewrite E.
  cbn [mbind option_bind]. destruct (memset_ok (pg s a) 0 0 (Z.to_nat PGSIZE)) as (d & -> & Hd1 & Hd2); [rewrite Hl; apply Nat.le_refl|].
  unfold put, zeroed. do 3 f_equal. apply list_eq. intros k. rewrite Hd2. change (Z.to_nat PGSIZE) with 4096%nat. case_decide as Hk'.
  - symmetry. apply lookup_replicate. split; [done|lia].
  - rewrite !lookup_ge_None_2; [done|rewrite length_replicate; lia|lia].
Qed.

(** *** [walkpgdir] *)

(** A table for entry [i] has been added to the directory. *)
Record added s l d ts i t s' : Prop := {
  ad_inv : kinv s' l;
  ad_pgt : pgt s' d (<[i := t]> ts);
  ad_ent n : ent s' (<[i := t]> ts) n = ent s ts n;
  ad_frame a : a <> d -> a <> t -> pages s' !! a = pages s !! a;
}.

Lemma pde_u32 t : page t -> is_u32 (pde_of t).
Proof. intros Hp. destruct (page_V2P t Hp) as (_ & Hu & Ha & _). by apply entry_u32. Qed.
Lemma pde_addr t : page t -> P2V (PTE_ADDR (pde_of t)) = t.
Proof. intros Hp. destruct (page_V2P t Hp) as (_ & Hu & Ha & _ & E). unfold pde_of. by rewrite PTE_ADDR_entry. Qed.
Lemma pde_present t : page t -> has (pde_of t) PTE_P = true.
Proof. intros Hp. destruct (page_V2P t Hp) as (_ & Hu & Ha & _). unfold pde_of. by rewrite pte_has. Qed.

Lemma get32_zero_page i : 0 <= i < 1024 -> get32 (Z.to_nat (4 * i)) zeroed = 0.
Proof.
  intros Hi. unfold get32, slice, zeroed. rewrite drop_replicate, take_replicate. generalize (4 `min` (4096 - Z.to_nat (4 * i)))%nat.
  intros m. induction m as [|m IH]; [done|]. simpl. by rewrite IH.
Qed.

Lemma put_added s l d ts i t : kinv s l -> pgt s d ts -> page t -> t ∉ l -> d ∉ l -> t <> d -> t ∉ tab_pages ts -> d ∉ tab_pages ts ->
  0 <= i < 1024 -> ts !! i = None ->
  added s l d ts i t (put (put s t zeroed) d (put32 (Z.to_nat (4 * i)) (pde_of t) (pg s d))).
Proof.
  intros Hk Hd Hp Htl Hdl Htd Htt Hdt Hi Hn. assert (Hpd := pt_dir _ _ _ Hd). destruct (kinv_pg _ _ _ Hk Hpd) as [_ Hl].
  set (s' := put _ _ _). assert (Hw : forall j, 0 <= j < 1024 -> word s' d j = if decide (j = i) then pde_of t else word s d j).
  { intros j Hj. unfold s'. rewrite word_put. rewrite word_put32 by (done || by apply pde_u32). done. }
  assert (Hwt : forall b j, b ∈ tab_pages ts -> word s' b j = word s b j).
  { intros b j Hb. unfold s'. rewrite !word_put_ne; [done|by intros ->|by intros ->]. }
  split.
  - unfold s'. apply kinv_put; [apply kinv_put; [done..|apply length_zeroed]|done|done|]. rewrite length_put32 by lia. done.
  - split; [done| |].
    + intros j u Hj. destruct (decide (j = i)) as [->|Hne].
      * rewrite lookup_insert_eq in Hj. injection Hj as <-. split_and!; [lia|lia|done|]. rewrite Hw, decide_True by done. done.
      * rewrite lookup_insert_ne in Hj by done. destruct (pt_tab _ _ _ Hd j u Hj) as (J1 & J2 & J3). rewrite Hw, decide_False by done. done.
    + intros j Hj Hjn. destruct (decide (j = i)) as [->|Hne]; [by rewrite lookup_insert_eq in Hjn|].
      rewrite lookup_insert_ne in Hjn by done. rewrite Hw, decide_False by done. by apply (pt_none _ _ _ Hd).
  - intros n. unfold ent. destruct (decide (n / 1024 = i)) as [<-|Hne].
    + rewrite lookup_insert_eq, Hn. unfold s'. rewrite word_put_ne by done. rewrite word_put. apply get32_zero_page. zlia.
    + rewrite lookup_insert_ne by done. destruct (ts !! (n / 1024)) eqn:E; [|done]. by eapply Hwt, tab_in.
  - intros a Ha Hat. unfold s', put. simpl. by rewrite !lookup_insert_ne.
Qed.

Lemma wp_walkpgdir s l d ts R va alloc (Q : option pte_ptr -> kmem -> Prop) :
  let i := va / PGSIZE / 1024 in let j := va / PGSIZE mod 1024 in
  kinv s l -> pgt s d ts -> NoDup (d :: tab_pages ts ++ R ++ l) -> is_u32 va ->
  (forall t, ts !! i = Some t -> page t -> Q (Some (t, j)) s) ->
  (ts !! i = None -> alloc = false -> Q None s) ->
  (ts !! i = None -> alloc = true -> l = [] -> forall s', kinv s' [] -> pages s' = pages s -> Q None s') ->
  (forall t l' s', ts !! i = None -> alloc = true -> l = t :: l' -> page t -> added s l' d ts i t s' -> Q (Some (t, j)) s') ->
  wp P (walkpgdir d va alloc) s Q.
Proof.
  intros i j Hk Hd Hnd Hva HS HN HE HA. unfold walkpgdir. rewrite PDX_eq, PTX_eq by done. fold i j.
  assert (Hi : 0 <= i < 1024) by (unfold i, is_u32, PGSIZE in *; zlia). assert (Hpd := pt_dir _ _ _ Hd).
  apply wp_bind. eapply wp_get_pte; [done|done|]. destruct (ts !! i) as [t|] eqn:E.
  { destruct (pt_tab _ _ _ Hd i t E) as (_ & Hp & ->). rewrite pde_present, pde_addr by done. apply wp_ret. by apply HS. }
  rewrite (pt_none _ _ _ Hd i Hi E). destruct alloc; simpl; [|by apply wp_ret, HN].
  apply wp_bind. eapply wp_kalloc; [done|]. destruct l as [|t l']; intros s' Hk' Hpg _.
  { rewrite Z.eqb_refl. apply wp_ret. apply (HE eq_refl eq_refl eq_refl); done. }
  assert (Hp : page t) by (pose proof (ki_page _ _ _ Hk) as HF; by apply Forall_cons in HF as [? _]).
  destruct (page_bounds _ t Hp) as [Ht0 _]. rewrite (proj2 (Z.eqb_neq t 0)) by lia.
  assert (Hss : forall a, pg s' a = pg s a) by (intros; unfold pg; by rewrite Hpg).
  assert (Hd' : pgt s' d ts) by (by apply (pgt_ext s)).
  apply wp_bind. eapply wp_zero_page; [done|done|]. apply wp_bind.
  apply NoDup_cons in Hnd as [Hd1 Hnd]. apply NoDup_app in Hnd as (_ & Hd2 & Hnd). apply NoDup_app in Hnd as (_ & _ & Hnd).
  apply NoDup_cons in Hnd as [Htl _]. rewrite !elem_of_app, elem_of_cons in Hd1.
  assert (Htt : t ∉ tab_pages ts) by (intros Ht; apply (Hd2 t Ht); rewrite elem_of_app, elem_of_cons; auto).
  assert (Htd : t <> d) by (intros ->; tauto).
  eapply (wp_set_pte _ l'); [by apply kinv_put; [| | |apply length_zeroed]|done|]. rewrite pg_put_ne by done.
  apply wp_ret. replace (Z.lor _ PTE_U) with (pde_of t) by (unfold pde_of; by rewrite <- !Z.lor_assoc).
  eapply HA; [done|done|done|done|]. destruct (put_added s' l' d ts i t) as [A1 A2 A3 A4]; try done; try tauto.
  split; [done|done| |intros a H1 H2; rewrite A4 by done; by rewrite Hpg]. intros n. rewrite A3. by apply ent_ext.
Qed.

(** *** [mappages] *)

(** The directory has got more tables, from the free pages. *)
Record ext s l d ts s' l' ts' : Prop := {
  ex_inv : kinv s' l';
  ex_pgt : pgt s' d ts';
  ex_own : tab_pages ts' ++ l' ≡ₚ tab_pages ts ++ l;
  ex_free : exists u, l = u ++ l';
  ex_frame a : a <> d -> a ∉ tab_pages ts -> a ∉ l -> pages s' !! a = pages s !! a;
}.

Lemma ext_nodup s l d ts s' l' ts' R : ext s l d ts s' l' ts' -> NoDup (d :: tab_pages ts ++ R ++ l) -> NoDup (d :: tab_pages ts' ++ R ++ l').
Proof.
  intros E. assert (Hp : tab_pages ts' ++ R ++ l' ≡ₚ tab_pages ts ++ R ++ l); [|by rewrite Hp].
  rewrite (Permutation_app_comm R l'), (Permutation_app_comm R l), !app_assoc. by rewrite (ex_own _ _ _ _ _ _ _ E).
Qed.

Lemma ext_in s l d ts s' l' ts' a : ext s l d ts s' l' ts' -> a ∈ tab_pages ts' \/ a ∈ l' -> a ∈ tab_pages ts \/ a ∈ l.
Proof. intros E. rewrite <- !elem_of_app. by rewrite (ex_own _ _ _ _ _ _ _ E). Qed.

Lemma ext_refl s l d ts s' : kinv s' l -> pgt s d ts -> pages s' = pages s -> ext s l d ts s' l ts.
Proof.
  intros Hk Hd Hp. split; [done| |done|by exists []|by rewrite Hp]. eapply (pgt_ext s); [|done]. unfold pg. by rewrite Hp.
Qed.

Lemma ext_trans s l d ts s1 l1 ts1 s2 l2 ts2 : ext s l d ts s1 l1 ts1 -> ext s1 l1 d ts1 s2 l2 ts2 -> ext s l d ts s2 l2 ts2.
Proof.
  intros A B. split; [apply B|apply B| | |].
  - rewrite (ex_own _ _ _ _ _ _ _ B). apply A.
  - destruct (ex_free _ _ _ _ _ _ _ A) as [u ->], (ex_free _ _ _ _ _ _ _ B) as [w ->]. exists (u ++ w). by rewrite app_assoc.
  - intros a Ha Ht Hl. assert (~ (a ∈ tab_pages ts1 \/ a ∈ l1)) by (intros [?|?]%(ext_in _ _ _ _ _ _ _ _ A); done).
    rewrite (ex_frame _ _ _ _ _ _ _ B) by tauto. by apply A.
Qed.

Lemma ext_added s l d ts i t s' : ts !! i = None -> t ∉ tab_pages ts -> added s l d ts i t s' -> ext s (t :: l) d ts s' l (<[i := t]> ts).
Proof.
  intros Hn Htt [A1 A2 A3 A4]. split; [done|done| |by exists [t]|].
  - rewrite tab_insert by done. apply Permutation_middle.
  - intros a Ha Ht Hl. apply A4; [done|]. intros ->. apply Hl. by left.
Qed.

(** A write to entry [n]. *)
Definition set_ent s t n e : kmem := put s t (put32 (Z.to_nat (4 * (n mod 1024))) e (pg s t)).

Lemma set_ent_ent s l d ts n t e m : kinv s l -> pgt s d ts -> NoDup (tab_pages ts) -> ts !! (n / 1024) = Some t -> is_u32 e ->
  ent (set_ent s t n e) ts m = if decide (m = n) then e else ent s ts m.
Proof.
  intros Hk Hd Hnd Ht He. destruct (pt_tab _ _ _ Hd _ _ Ht) as (_ & Hp & _). destruct (kinv_pg _ _ _ Hk Hp) as [_ Hl].
  unfold ent. case_decide as E.
  - subst m. rewrite Ht. unfold set_ent. rewrite word_put, word_put32 by (done || zlia). by rewrite decide_True.
  - destruct (ts !! (m / 1024)) as [u|] eqn:Eu; [|done]. destruct (decide (u = t)) as [->|Hne].
    + assert (m / 1024 = n / 1024) by (by eapply tab_inj). unfold set_ent. rewrite word_put, word_put32 by (done || zlia).
      by rewrite decide_False by zlia.
    + unfold set_ent. by rewrite word_put_ne.
Qed.

Lemma set_ent_ext s l d ts n t e : kinv s l -> pgt s d ts -> ts !! (n / 1024) = Some t -> t <> d -> t ∉ l ->
  ext s l d ts (set_ent s t n e) l ts.
Proof.
  intros Hk Hd Ht Htd Htl. destruct (pt_tab _ _ _ Hd _ _ Ht) as (_ & Hp & _). destruct (kinv_pg _ _ _ Hk Hp) as [_ Hl].
  split; [| |done|by exists []|].
  - unfold set_ent. apply kinv_put; [done..|]. rewrite length_put32; [done|]. zlia.
  - eapply (pgt_ext s); [|done]. unfold set_ent. by rewrite pg_put_ne.
  - intros a Ha Hta Hla. unfold set_ent, put. simpl. rewrite lookup_insert_ne; [done|]. intros ->. apply Hta. by eapply tab_in.
Qed.

(** The facts of [NoDup] that the rules use. *)
Lemma owned_facts d ts R l : NoDup (d :: tab_pages ts ++ R ++ l) ->
  NoDup (tab_pages ts) /\ d ∉ l /\ d ∉ tab_pages ts /\
  (forall a, a ∈ tab_pages ts -> a ∉ l /\ a ∉ R) /\ (forall a, a ∈ R -> a ∉ l /\ a <> d /\ a ∉ tab_pages ts).
Proof.
  intros [Hd Hn]%NoDup_cons. apply NoDup_app in Hn as (H1 & H2 & H3). apply NoDup_app in H3 as (_ & H3 & _).
  rewrite !elem_of_app in Hd. split_and!; [done|tauto|tauto| |].
  - intros a Ha. specialize (H2 a Ha). rewrite elem_of_app in H2. tauto.
  - intros a Ha. split_and!; [by apply H3|by intros ->; tauto|]. intros Ht. apply (H2 a Ht), elem_of_app. by left.
Qed.

(** Entry [n] has been set to [e]. *)
Record mapped1 s l d ts n e s' l' ts' : Prop := {
  m1_ext : ext s l d ts s' l' ts';
  m1_ent m : ent s' ts' m = if decide (m = n) then e else ent s ts m;
  m1_tabs i : is_Some (ts' !! i) -> is_Some (ts !! i) \/ i = n / 1024;
}.

Definition page_entry (pa perm : Z) : Z := Z.lor (Z.lor pa perm) PTE_P.

Lemma page_entry_eq pa perm : page_entry pa perm = Z.lor pa (Z.lor perm 1).
Proof. unfold page_entry, PTE_P. by rewrite Z.lor_assoc. Qed.
Lemma perm_bound perm : 0 <= perm < 4096 -> 0 <= Z.lor perm 1 < 4096.
Proof.
  intros Hp. split; [apply Z.lor_nonneg; lia|]. destruct (decide (perm = 0)) as [->|]; [reflexivity|].
  change 4096 with (2 ^ 12). apply Z.log2_lt_pow2.
  - assert (0 <= Z.lor perm 1) by (apply Z.lor_nonneg; lia). assert (Z.lor perm 1 <> 0) by (intros [_ ?]%Z.lor_eq_0_iff; done). lia.
  - rewrite Z.log2_lor by lia. apply Z.max_lub_lt; [apply Z.log2_lt_pow2; lia|reflexivity].
Qed.
Lemma page_entry_u32 pa perm : is_u32 pa -> aligned pa -> 0 <= perm < 4096 -> is_u32 (page_entry pa perm).
Proof. intros Hu Ha Hp. rewrite page_entry_eq. apply entry_u32; [done|done|by apply perm_bound]. Qed.

Lemma wp_map_step s l d ts R n pa perm last (Q : Z * Z + Z -> kmem -> Prop) :
  let a := n * PGSIZE in
  kinv s l -> pgt s d ts -> NoDup (d :: tab_pages ts ++ R ++ l) -> 0 <= n < 2 ^ 20 ->
  is_u32 pa -> aligned pa -> 0 <= perm < 4096 -> has (ent s ts n) PTE_P = false ->
  (forall s', l = [] -> ts !! (n / 1024) = None -> ext s [] d ts s' [] ts -> (forall m, ent s' ts m = ent s ts m) -> Q (inr (-1)) s') ->
  (forall s' l' ts', mapped1 s l d ts n (page_entry pa perm) s' l' ts' ->
     Q (if a =? last then inr 0 else inl (u32 (a + PGSIZE), u32 (pa + PGSIZE))) s') ->
  wp P (map_step d last perm (a, pa)) s Q.
Proof.
  intros a Hk Hd Hnd Hn Hpu Hpa Hperm Hnp HF HS. unfold map_step. apply wp_bind.
  assert (Ha : is_u32 a) by (unfold a, is_u32, PGSIZE; lia).
  assert (Hdiv : a / PGSIZE = n) by (unfold a, PGSIZE; zlia).
  destruct (owned_facts _ _ _ _ Hnd) as (N1 & N2 & N3 & N4 & _).
  assert (Hgo : forall s1 l1 ts1 t, ext s l d ts s1 l1 ts1 -> (forall m, ent s1 ts1 m = ent s ts m) -> ts1 !! (n / 1024) = Some t ->
    (forall i, is_Some (ts1 !! i) -> is_Some (ts !! i) \/ i = n / 1024) ->
    wp P (e <- get_pte (t, n mod 1024) ;;
      if has e PTE_P then panic "remap"
      else set_pte (t, n mod 1024) (Z.lor (Z.lor pa perm) PTE_P) ;;;
        ret (if a =? last then inr 0 else inl (u32 (a + PGSIZE), u32 (pa + PGSIZE)))) s1 Q).
  { intros s1 l1 ts1 t HE Hent Ht Htabs. pose proof (ex_pgt _ _ _ _ _ _ _ HE) as Hd1. pose proof (ex_inv _ _ _ _ _ _ _ HE) as Hk1.
    destruct (pt_tab _ _ _ Hd1 _ _ Ht) as (_ & Hp & _). apply wp_bind. eapply wp_get_pte; [done|done|].
    replace (word s1 t (n mod 1024)) with (ent s ts n) by (rewrite <- Hent; unfold ent; by rewrite Ht). rewrite Hnp.
    destruct (owned_facts _ _ _ _ (ext_nodup _ _ _ _ _ _ _ _ HE Hnd)) as (M1 & M2 & M3 & M4 & _). pose proof (tab_in _ _ _ Ht) as Hin.
    apply wp_bind. eapply wp_set_pte; [done|done|]. apply wp_ret. eapply (HS _ l1 ts1). split.
    - eapply ext_trans; [exact HE|]. apply set_ent_ext; [done|done|done|by intros ->|by apply M4].
    - intros m. rewrite <- Hent. eapply set_ent_ent; [done|done|done|done|by apply page_entry_u32].
    - exact Htabs. }
  eapply wp_walkpgdir; [exact Hk|exact Hd|exact Hnd|exact Ha|..]; rewrite Hdiv.
  - intros t Ht _. eapply Hgo; [by apply ext_refl|done|done|by left].
  - done.
  - intros Hnone _ -> s' Hk' Hp. apply wp_ret, HF; [done|done|by apply ext_refl|]. intros m. apply ent_ext. intros. unfold pg. by rewrite Hp.
  - intros t l' s' Hnone _ -> Hp HA. assert (t ∉ tab_pages ts) by (intros Ht; apply (proj1 (N4 t Ht)); by left).
    eapply Hgo; [by apply ext_added|apply HA|apply lookup_insert_eq|]. intros i Hi. destruct (decide (i = n / 1024)) as [|Hne]; [by right|left].
    by rewrite lookup_insert_ne in Hi.
Qed.

(** [cnt] entries from [n] on map the physical pages from [pa] on. *)
Record mapped_pages s l d ts n cnt pa perm s' l' ts' : Prop := {
  mp_ext : ext s l d ts s' l' ts';
  mp_ent m : ent s' ts' m = if decide (n <= m < n + cnt) then page_entry (pa + (m - n) * PGSIZE) perm else ent s ts m;
  mp_tabs i : is_Some (ts' !! i) -> is_Some (ts !! i) \/ exists m, n <= m < n + cnt /\ i = m / 1024;
  mp_none : cnt = 0 -> ts' = ts /\ l' = l;
}.

Lemma mapped_nil s l d ts n pa perm s' : ext s l d ts s' l ts -> (forall m, ent s' ts m = ent s ts m) ->
  mapped_pages s l d ts n 0 pa perm s' l ts.
Proof. intros E He. split; [done| |by left|done]. intros m. rewrite decide_False by lia. apply He. Qed.
Lemma mapped_cons s l d ts n cnt pa perm s1 l1 ts1 s2 l2 ts2 : 0 <= cnt ->
  mapped1 s l d ts n (page_entry pa perm) s1 l1 ts1 -> mapped_pages s1 l1 d ts1 (n + 1) cnt (pa + PGSIZE) perm s2 l2 ts2 ->
  mapped_pages s l d ts n (cnt + 1) pa perm s2 l2 ts2.
Proof.
  intros Hc [A1 A2 A3] [B1 B2 B3 _]. split; [by eapply ext_trans| | |lia].
  2: { intros i [[?| ->]%A3|(m & Hm & ->)]%B3; [by left|right; exists n; lia|right; exists m; lia]. }
  intros m. rewrite B2, A2.
  destruct (decide (m = n)) as [->|Hne].
  - rewrite decide_False by lia. rewrite decide_True by lia. f_equal. lia.
  - destruct (decide (n + 1 <= m < n + 1 + cnt)); [rewrite decide_True by lia; f_equal; lia|by rewrite decide_False by lia].
Qed.

Lemma wp_map_loop d R perm c : forall s l ts n pa last (Q : Z -> kmem -> Prop),
  kinv s l -> pgt s d ts -> NoDup (d :: tab_pages ts ++ R ++ l) -> 0 <= n -> n + Z.of_nat c < 2 ^ 20 ->
  0 <= pa -> pa + Z.of_nat c * PGSIZE < 2 ^ 32 -> aligned pa -> 0 <= perm < 4096 -> last = (n + Z.of_nat c) * PGSIZE ->
  (forall m, n <= m <= n + Z.of_nat c -> has (ent s ts m) PTE_P = false) ->
  (forall s' l' ts', mapped_pages s l d ts n (Z.of_nat c + 1) pa perm s' l' ts' -> Q 0 s') ->
  (forall s' ts' j, 0 <= j <= Z.of_nat c -> mapped_pages s l d ts n j pa perm s' [] ts' -> ts' !! ((n + j) / 1024) = None -> Q (-1) s') ->
  wp P (mwhile (S c) (map_step d last perm) (n * PGSIZE, pa)) s Q.
Proof.
  induction c as [|c IH]; intros s l ts n pa last Q Hk Hd Hnd Hn Hc Hp0 Hpa Hal Hperm Hlast Hno HS HF; cbn [mwhile]; apply wp_bind.
  all: eapply wp_map_step; [exact Hk|exact Hd|exact Hnd|lia|unfold is_u32, PGSIZE in *; lia|exact Hal|exact Hperm|apply Hno; lia| |].
  - intros s' -> Hnone E He. apply wp_ret. eapply (HF _ _ 0); [lia|by apply mapped_nil|by rewrite Z.add_0_r].
  - intros s' l' ts' M. replace (n * PGSIZE =? last) with true by (symmetry; apply Z.eqb_eq; subst; lia). apply wp_ret. eapply HS.
    eapply (mapped_cons _ _ _ _ _ 0); [done|exact M|]. apply mapped_nil; [|done].
    destruct (m1_ext _ _ _ _ _ _ _ _ _ M). by apply ext_refl.
  - intros s' -> Hnone E He. apply wp_ret. eapply (HF _ _ 0); [lia|by apply mapped_nil|by rewrite Z.add_0_r].
  - intros s' l' ts' M. assert (Hne : n * PGSIZE =? last = false) by (apply Z.eqb_neq; subst; unfold PGSIZE in *; lia). rewrite Hne.
    assert (E := m1_ext _ _ _ _ _ _ _ _ _ M).
    rewrite !u32_small by (unfold is_u32, PGSIZE in *; lia).
    replace (n * PGSIZE + PGSIZE) with ((n + 1) * PGSIZE) by lia. change (S c) with (1 + c)%nat.
    apply (IH s' l' ts' (n + 1) (pa + PGSIZE) last); [apply E|apply E|by eapply ext_nodup|lia|lia|unfold PGSIZE; lia| | |exact Hperm| | | |].
    + unfold PGSIZE in *. lia.
    + unfold aligned, PGSIZE in *. zlia.
    + rewrite Hlast. f_equal. lia.
    + intros m Hm. rewrite (m1_ent _ _ _ _ _ _ _ _ _ M), decide_False by lia. apply Hno. lia.
    + intros s2 l2 ts2 M2. eapply HS. replace (Z.of_nat (S c) + 1) with (Z.of_nat c + 1 + 1) by lia. eapply mapped_cons; [lia|exact M|exact M2].
    + intros s2 ts2 j Hj M2 Hnone. eapply (HF _ _ (j + 1)); [lia| |by replace (n + (j + 1)) with (n + 1 + j) by lia].
      eapply mapped_cons; [lia|exact M|exact M2].
Qed.

Lemma wp_mappages s l d ts R n cnt pa perm (Q : Z -> kmem -> Prop) :
  kinv s l -> pgt s d ts -> NoDup (d :: tab_pages ts ++ R ++ l) -> 0 <= n -> 1 <= cnt -> n + cnt <= 2 ^ 20 ->
  0 <= pa -> pa + (cnt - 1) * PGSIZE < 2 ^ 32 -> aligned pa -> 0 <= perm < 4096 ->
  (forall m, n <= m < n + cnt -> has (ent s ts m) PTE_P = false) ->
  (forall s' l' ts', mapped_pages s l d ts n cnt pa perm s' l' ts' -> Q 0 s') ->
  (forall s' ts' j, 0 <= j < cnt -> mapped_pages s l d ts n j pa perm s' [] ts' -> ts' !! ((n + j) / 1024) = None -> Q (-1) s') ->
  wp P (mappages d (n * PGSIZE) (u32 (cnt * PGSIZE)) pa perm) s Q.
Proof.
  intros Hk Hd Hnd Hn Hcnt Hnc Hpa0 Hpa Hal Hperm Hno HS HF. unfold mappages.
  assert (Hlast : PGROUNDDOWN (u32 (n * PGSIZE + u32 (cnt * PGSIZE) - 1)) = (n + (cnt - 1)) * PGSIZE).
  { replace (u32 (n * PGSIZE + u32 (cnt * PGSIZE) - 1)) with ((n + cnt) * PGSIZE - 1).
    - rewrite PGROUNDDOWN_eq; unfold is_u32, PGSIZE in *; zlia.
    - unfold u32, PGSIZE in *. change (2 ^ 32) with 4294967296 in *. change (2 ^ 20) with 1048576 in *. zlia. }
  rewrite Hlast. assert (Hfst : PGROUNDDOWN (n * PGSIZE) = n * PGSIZE) by (rewrite PGROUNDDOWN_eq; unfold is_u32, PGSIZE in *; zlia).
  rewrite Hfst. replace (u32 _ / PGSIZE) with (cnt - 1).
  2: { rewrite u32_small; unfold is_u32, PGSIZE in *; zlia. }
  eapply (wp_map_loop d R perm (Z.to_nat (cnt - 1))); [exact Hk|exact Hd|exact Hnd|lia|lia|lia|rewrite Z2Nat.id by lia; lia|exact Hal|exact Hperm| | | |].
  - by rewrite Z2Nat.id by lia.
  - intros m Hm. apply Hno. lia.
  - intros s' l' ts' M. rewrite Z2Nat.id, Z.sub_add in M by lia. by eapply HS.
  - intros s' ts' j Hj. apply HF. lia.
Qed.
End rules.
End pages.
