(* ===== verification/VmSpace.v ===== *)
(** * Address spaces (vm.c)

    The user part of a page table as a map from page numbers to pages, and how
    [deallocuvm] and [freevm] give the pages back. *)

From S2P Require Import Prelude Params Bytes Str Kalloc Vm VmTable.
Import Kalloc.

(** The page tables, and the user pages with the flags of their entries. *)
Record aspace := Aspace {
  as_dir : Z;
  as_tabs : gmap Z Z;
  as_user : gmap Z (Z * Z);
}.
Definition user_pages (u : gmap Z (Z * Z)) : list Z := (map_to_list u).*2.*1.
Definition owned (A : aspace) : list Z := as_dir A :: tab_pages (as_tabs A) ++ user_pages (as_user A).

Lemma user_in u n a f : u !! n = Some (a, f) -> a ∈ user_pages u.
Proof.
  intros E. apply list_elem_of_fmap. exists (a, f). split; [done|]. apply list_elem_of_fmap. exists (n, (a, f)).
  split; [done|]. by apply elem_of_map_to_list.
Qed.
Lemma in_user u a : a ∈ user_pages u -> exists n f, u !! n = Some (a, f).
Proof.
  intros ([a' f] & -> & ([n [a2 f']] & [= -> ->] & E)%list_elem_of_fmap)%list_elem_of_fmap. exists n, f'. by apply elem_of_map_to_list.
Qed.
Lemma user_insert u n a f : u !! n = None -> user_pages (<[n := (a, f)]> u) ≡ₚ a :: user_pages u.
Proof. intros E. unfold user_pages. by rewrite map_to_list_insert. Qed.
Lemma user_delete u n a f : u !! n = Some (a, f) -> user_pages u ≡ₚ a :: user_pages (delete n u).
Proof. intros E. rewrite <- (insert_delete_id u n (a, f) E) at 1. apply user_insert, lookup_delete_eq. Qed.
Lemma user_inj u n m a f g : NoDup (user_pages u) -> u !! n = Some (a, f) -> u !! m = Some (a, g) -> n = m.
Proof.
  intros Hn Hi Hj. destruct (decide (n = m)) as [|Hne]; [done|]. exfalso. rewrite (user_delete u n a f Hi) in Hn.
  apply NoDup_cons in Hn as [Hn _]. apply Hn, (user_in _ m _ g). by rewrite lookup_delete_ne.
Qed.

(** The number of user pages in the address space, [KERNBASE / PGSIZE]. *)
Definition NUSER : Z := 2 ^ 19.

Section spaces.
Context (end_ : Z) (Hend : KERNBASE < end_).
Notation page := (page end_).
Notation kinv := (kinv end_).
Notation pgt := (pgt end_).
Implicit Types (s : kmem) (l R : list Z) (A : aspace).

Definition user_entry (x : option (Z * Z)) : Z := match x with Some (a, f) => Z.lor (V2P a) f | None => 0 end.

(** [A] describes the page table at [as_dir A]; the pages [R] belong to others. *)
Record space s l A R : Prop := {
  sp_inv : kinv s l;
  sp_pgt : pgt s (as_dir A) (as_tabs A);
  sp_ent n : 0 <= n < NUSER -> ent s (as_tabs A) n = user_entry (as_user A !! n);
  sp_user n a f : as_user A !! n = Some (a, f) -> 0 <= n < NUSER /\ page a /\ 0 <= f < 4096 /\ has f PTE_P = true;
  sp_nodup : NoDup (as_dir A :: tab_pages (as_tabs A) ++ (user_pages (as_user A) ++ R) ++ l);
}.

(** What the rules need of an entry. *)
Lemma user_entry_facts a f : page a -> 0 <= f < 4096 -> has f PTE_P = true ->
  is_u32 (Z.lor (V2P a) f) /\ has (Z.lor (V2P a) f) PTE_P = true /\ P2V (PTE_ADDR (Z.lor (V2P a) f)) = a /\
  PTE_ADDR (Z.lor (V2P a) f) <> 0 /\ PTE_FLAGS (Z.lor (V2P a) f) = f.
Proof.
  intros Hp Hf Hh. destruct (page_V2P _ a Hp) as (_ & Hu & Ha & H0 & E).
  rewrite pte_has, PTE_ADDR_entry, PTE_FLAGS_entry by done. split_and!; try done. by apply entry_u32.
Qed.

Lemma space_facts s l A R : space s l A R ->
  NoDup (user_pages (as_user A)) /\
  forall n a f, as_user A !! n = Some (a, f) -> a ∉ l /\ a <> as_dir A /\ a ∉ tab_pages (as_tabs A) /\ a ∉ R.
Proof.
  intros Hs. pose proof (sp_nodup _ _ _ _ Hs) as Hn. destruct (owned_facts _ _ _ _ Hn) as (_ & _ & _ & _ & N5).
  apply NoDup_cons in Hn as [_ Hn]. apply NoDup_app in Hn as (_ & _ & Hn). apply NoDup_app in Hn as (Hn & _ & _).
  apply NoDup_app in Hn as (Hu & Hr & _). split; [done|]. intros n a f E. pose proof (user_in _ _ _ _ E) as Hin.
  destruct (N5 a) as (? & ? & ?); [apply elem_of_app; by left|]. split_and!; try done. by apply Hr.
Qed.

(** ** Removing a page *)

(** The user pages of [A] in the range have been given back. *)
Record shrunk s l A R (lo hi : Z) s' l' A' : Prop := {
  sh_space : space s' l' A' R;
  sh_dir : as_dir A' = as_dir A;
  sh_tabs : as_tabs A' = as_tabs A;
  sh_user n : as_user A' !! n = if decide (lo <= n < hi) then None else as_user A !! n;
  sh_own : owned A' ++ l' ≡ₚ owned A ++ l;
  sh_kern n : NUSER <= n -> ent s' (as_tabs A) n = ent s (as_tabs A) n;
  sh_frame a : (a ∈ R \/ exists n f, as_user A' !! n = Some (a, f)) -> pages s' !! a = pages s !! a;
}.

Lemma shrunk_refl s l A R lo hi : space s l A R -> (forall n, lo <= n < hi -> as_user A !! n = None) -> shrunk s l A R lo hi s l A.
Proof. intros Hs Hn. split; try done. intros n. case_decide; [by apply Hn|done]. Qed.

Lemma shrunk_trans s l A R lo mid hi s1 l1 A1 s2 l2 A2 : lo <= mid ->
  shrunk s l A R lo mid s1 l1 A1 -> shrunk s1 l1 A1 R mid hi s2 l2 A2 -> shrunk s l A R lo (Z.max mid hi) s2 l2 A2.
Proof.
  intros Hlm X Y. split; [apply Y|by rewrite (sh_dir _ _ _ _ _ _ _ _ _ Y), (sh_dir _ _ _ _ _ _ _ _ _ X)|
    by rewrite (sh_tabs _ _ _ _ _ _ _ _ _ Y), (sh_tabs _ _ _ _ _ _ _ _ _ X)| | | |].
  - intros n. rewrite (sh_user _ _ _ _ _ _ _ _ _ Y), (sh_user _ _ _ _ _ _ _ _ _ X).
    destruct (decide (mid <= n < hi)), (decide (lo <= n < mid)); try (by rewrite decide_True by lia). by rewrite decide_False by lia.
  - rewrite (sh_own _ _ _ _ _ _ _ _ _ Y). apply X.
  - intros n Hn. pose proof (sh_kern _ _ _ _ _ _ _ _ _ Y n Hn) as K. rewrite (sh_tabs _ _ _ _ _ _ _ _ _ X) in K. rewrite K. by apply X.
  - intros a Ha. rewrite (sh_frame _ _ _ _ _ _ _ _ _ Y) by done. apply X. destruct Ha as [?|(n & f & E)]; [by left|right].
    exists n, f. rewrite (sh_user _ _ _ _ _ _ _ _ _ Y) in E. by case_decide.
Qed.

Lemma nodup_perm (l k : list Z) : l ≡ₚ k -> NoDup k -> NoDup l.
Proof. by intros ->. Qed.

Definition without A n : aspace := Aspace (as_dir A) (as_tabs A) (delete n (as_user A)).

Lemma without_own A n a f l : as_user A !! n = Some (a, f) -> owned (without A n) ++ a :: l ≡ₚ owned A ++ l.
Proof.
  intros E. unfold owned. simpl. rewrite (user_delete _ _ _ _ E). apply Permutation_skip.
  rewrite <- !app_assoc. apply Permutation_app_head. simpl. by rewrite <- Permutation_middle.
Qed.

Section rules.
Context (P : prot kmem).

Lemma wp_unmap s l A R n a f t (Q : unit -> kmem -> Prop) :
  space s l A R -> as_user A !! n = Some (a, f) -> as_tabs A !! (n / 1024) = Some t ->
  (forall s', shrunk s l A R n (n + 1) s' (a :: l) (without A n) -> Q tt s') ->
  wp P (kfree end_ a ;;; set_pte (t, n mod 1024) 0) s Q.
Proof.
  intros Hs E Ht HQ. destruct (sp_user _ _ _ _ Hs n a f E) as (Hn & Hp & Hf & Hh). assert (Hk := sp_inv _ _ _ _ Hs).
  destruct (space_facts _ _ _ _ Hs) as [Hu Hdis]. destruct (Hdis n a f E) as (D1 & D2 & D3 & D4).
  destruct (owned_facts _ _ _ _ (sp_nodup _ _ _ _ Hs)) as (N1 & N2 & N3 & N4 & N5). pose proof (tab_in _ _ _ Ht) as Htin.
  destruct (pt_tab _ _ _ _ (sp_pgt _ _ _ _ Hs) _ _ Ht) as (_ & Hpt & _).
  apply wp_bind. eapply wp_kfree; [done|by eapply page_u32|done|done|done|]. intros s1 Hk1 _ Hfr.
  assert (Hpg : forall b, b <> a -> pg s1 b = pg s b) by (intros b Hb; unfold pg; by rewrite Hfr).
  assert (Hta : t <> a) by (by intros ->). assert (Htl : t ∉ a :: l) by (rewrite elem_of_cons; intros [?|?]; [done|by destruct (N4 t Htin)]).
  assert (Hd1 : pgt s1 (as_dir A) (as_tabs A)) by (apply (pgt_ext _ s); [by apply Hpg|apply Hs]).
  assert (He1 : forall m, ent s1 (as_tabs A) m = ent s (as_tabs A) m).
  { intros m. apply ent_ext. intros b Hb. apply Hpg. by intros ->. }
  eapply wp_set_pte; [exact Hk1|done|]. apply HQ. fold (set_ent s1 t n 0).
  assert (Htd : t <> as_dir A) by (by intros ->).
  assert (X := set_ent_ext _ _ _ _ _ n t 0 Hk1 Hd1 Ht Htd Htl).
  assert (He : forall m, ent (set_ent s1 t n 0) (as_tabs A) m = if decide (m = n) then 0 else ent s (as_tabs A) m).
  { intros m. rewrite <- He1. eapply set_ent_ent; try done. }
  split; try done.
  - split; [apply X|apply X| | |].
    + intros m Hm. rewrite He. simpl. case_decide as Em; [subst; by rewrite lookup_delete_eq|].
      rewrite lookup_delete_ne by done. by apply Hs.
    + intros m b g Hm. simpl in Hm. apply lookup_delete_Some in Hm as [_ Hm]. by apply (sp_user _ _ _ _ Hs m b g).
    + pose proof (sp_nodup _ _ _ _ Hs) as Hnd. eapply nodup_perm; [|exact Hnd]. simpl. apply Permutation_skip, Permutation_app_head.
      rewrite (user_delete _ _ _ _ E). simpl. by rewrite <- (Permutation_middle (user_pages (delete n (as_user A)) ++ R) l a).
  - intros m. simpl. destruct (decide (n <= m < n + 1)).
    + replace m with n by lia. by rewrite lookup_delete_eq.
    + rewrite lookup_delete_ne by lia. done.
  - by eapply without_own.
  - intros m Hm. rewrite He, decide_False by (unfold NUSER in *; lia). done.
  - intros b Hb. assert (Hb' : b <> a /\ b <> as_dir A /\ b ∉ tab_pages (as_tabs A) /\ b ∉ l).
    { destruct Hb as [Hb|(m & g & Hm)].
      - destruct (N5 b) as (? & ? & ?); [apply elem_of_app; by right|]. split_and!; try done. by intros ->.
      - simpl in Hm. apply lookup_delete_Some in Hm as [Hne Hm]. destruct (Hdis m b g Hm) as (? & ? & ? & ?). split_and!; try done.
        intros ->. apply Hne. by eapply user_inj. }
    destruct Hb' as (B1 & B2 & B3 & B4). rewrite (ex_frame _ _ _ _ _ _ _ _ X); [by apply Hfr|done|done|].
    rewrite elem_of_cons. tauto.
Qed.

(** ** [deallocuvm] *)

Lemma shrunk_more s l A R n lo hi s' l' A' : n <= lo -> (forall m, n <= m < lo -> as_user A !! m = None) ->
  shrunk s l A R lo hi s' l' A' -> shrunk s l A R n hi s' l' A'.
Proof.
  intros Hn Hno []. split; try done. intros m. rewrite sh_user0. destruct (decide (lo <= m < hi)); [by rewrite decide_True by lia|].
  destruct (decide (n <= m < hi)); [apply Hno; lia|done].
Qed.

(** The number of pages of [sz] bytes. *)
Definition npages (sz : Z) : Z := (sz + PGSIZE - 1) / PGSIZE.

Lemma next_table i : 0 <= i < 1023 -> u32 (u32 (PGADDR (i + 1) 0 0 - PGSIZE) + PGSIZE) = (i + 1) * 1024 * PGSIZE.
Proof.
  intros Hi. unfold PGADDR. rewrite Z.shiftl_0_l, !Z.lor_0_r, Z.shiftl_mul_pow2 by lia. change (2 ^ 22) with 4194304.
  unfold PGSIZE, u32. change (2 ^ 32) with 4294967296. zlia.
Qed.

Lemma wp_dealloc_step s l A R n oldsz (Q : Z + unit -> kmem -> Prop) :
  space s l A R -> 0 <= n -> n * PGSIZE < oldsz -> oldsz <= KERNBASE ->
  (forall n' s' l' A', n < n' -> shrunk s l A R n (n + 1) s' l' A' -> (forall m, n + 1 <= m < n' -> as_user A' !! m = None) ->
     Q (inl (n' * PGSIZE)) s') ->
  wp P (dealloc_step end_ (as_dir A) oldsz (n * PGSIZE)) s Q.
Proof.
  intros Hs Hn Hlt Hold HQ. unfold dealloc_step. rewrite (proj2 (Z.ltb_lt _ _)) by done. apply wp_bind.
  assert (Hn2 : n < NUSER) by (unfold NUSER, KERNBASE, PGSIZE in *; lia).
  assert (Hu : is_u32 (n * PGSIZE)) by (unfold is_u32, NUSER, PGSIZE in *; lia).
  assert (Hdiv : n * PGSIZE / PGSIZE = n) by (unfold PGSIZE; zlia).
  eapply wp_walkpgdir; [apply Hs|apply Hs|apply Hs|exact Hu|..]; rewrite ?Hdiv; [| |done|done].
  - intros t Ht Hp. apply wp_bind. eapply wp_get_pte; [apply Hs|done|].
    assert (Hent := sp_ent _ _ _ _ Hs n ltac:(lia)). unfold ent in Hent. rewrite Ht in Hent. rewrite Hent.
    assert (Hgo : forall s' l' A', shrunk s l A R n (n + 1) s' l' A' -> wp P (ret (inl (u32 (n * PGSIZE + PGSIZE)))) s' Q).
    { intros s' l' A' X. apply wp_ret. rewrite u32_small by (unfold is_u32, NUSER, PGSIZE in *; lia).
      replace (n * PGSIZE + PGSIZE) with ((n + 1) * PGSIZE) by lia. eapply HQ; [lia|exact X|lia]. }
    destruct (as_user A !! n) as [[a f]|] eqn:E; simpl.
    + destruct (sp_user _ _ _ _ Hs n a f E) as (_ & Hpa & Hf & Hh). destruct (user_entry_facts a f Hpa Hf Hh) as (_ & -> & Ea & E0 & _).
      unfold when. apply wp_bind. rewrite (proj2 (Z.eqb_neq _ _) E0), Ea. eapply wp_unmap; [done|done|done|]. intros s' X. by eapply Hgo.
    + unfold when. simpl. apply wp_bind, wp_ret. eapply Hgo. apply shrunk_refl; [done|]. intros m Hm. by replace m with n by lia.
  - intros Hnone _. apply wp_ret. rewrite PDX_eq, Hdiv by done. rewrite next_table by (unfold NUSER in *; zlia).
    assert (Hempty : forall m, n <= m < (n / 1024 + 1) * 1024 -> as_user A !! m = None).
    { intros m Hm. destruct (as_user A !! m) as [[a f]|] eqn:E; [|done]. exfalso. destruct (sp_user _ _ _ _ Hs m a f E) as (Hm2 & Hp & Hf & Hh).
      pose proof (sp_ent _ _ _ _ Hs m Hm2) as He. rewrite E in He. unfold ent in He. replace (m / 1024) with (n / 1024) in He by zlia.
      rewrite Hnone in He. destruct (user_entry_facts a f Hp Hf Hh) as (_ & H1 & _). simpl in He. rewrite <- He in H1. done. }
    eapply HQ; [zlia|apply shrunk_refl; [done|]|]; intros m Hm; apply Hempty; zlia.
Qed.

Lemma wp_dealloc_loop R oldsz fuel : forall s l A n (Q : unit -> kmem -> Prop),
  space s l A R -> 0 <= n -> 0 <= oldsz <= KERNBASE -> npages oldsz - n < Z.of_nat fuel -> (0 < fuel)%nat ->
  (forall s' l' A', shrunk s l A R n (npages oldsz) s' l' A' -> Q tt s') ->
  wp P (mwhile fuel (dealloc_step end_ (as_dir A) oldsz) (n * PGSIZE)) s Q.
Proof.
  induction fuel as [|fuel IH]; intros s l A n Q Hs Hn Hold Hfuel Hf0 HQ; [lia|]. cbn [mwhile]. apply wp_bind.
  destruct (decide (n * PGSIZE < oldsz)) as [Hlt|Hge].
  2: { unfold dealloc_step. rewrite (proj2 (Z.ltb_ge _ _)) by lia. apply wp_ret, wp_ret. eapply HQ. apply shrunk_refl; [done|].
       intros m Hm. unfold npages, PGSIZE in *. zlia. }
  eapply wp_dealloc_step; [done|done|done|lia|]. intros n' s1 l1 A1 Hn' X Hno. rewrite <- (sh_dir _ _ _ _ _ _ _ _ _ X).
  assert (Hnp : n + 1 <= npages oldsz) by (unfold npages, PGSIZE in *; zlia).
  eapply IH; [apply X|lia|lia|lia| |]. 
  - unfold npages, PGSIZE in *. zlia.
  - intros s' l' A' Y. eapply HQ. rewrite <- (Z.max_r (n + 1) (npages oldsz)) by lia.
    eapply shrunk_trans; [lia|exact X|]. eapply shrunk_more; [|exact Hno|exact Y]. lia.
Qed.

Lemma wp_deallocuvm s l A R oldsz newsz (Q : Z -> kmem -> Prop) :
  space s l A R -> 0 <= newsz -> 0 <= oldsz <= KERNBASE ->
  (oldsz <= newsz -> Q oldsz s) ->
  (newsz < oldsz -> forall s' l' A', shrunk s l A R (npages newsz) (npages oldsz) s' l' A' -> Q newsz s') ->
  wp P (deallocuvm end_ (as_dir A) oldsz newsz) s Q.
Proof.
  intros Hs Hn Ho HN HS. unfold deallocuvm. destruct (oldsz <=? newsz) eqn:E; [apply wp_ret, HN; lia|]. apply wp_bind.
  rewrite PGROUNDUP_eq by (unfold KERNBASE, PGSIZE in *; lia). fold (npages newsz).
  eapply wp_dealloc_loop; [done|unfold npages, PGSIZE; zlia|done|unfold npages, PGSIZE; zlia|lia|].
  intros s' l' A' X. apply wp_ret. eapply HS; [lia|exact X].
Qed.

(** ** [freevm] *)

Lemma wp_free_tables d R js : forall s l rem (Q : unit -> kmem -> Prop),
  kinv s l -> page d -> NoDup (d :: tab_pages rem ++ R ++ l) -> NoDup js ->
  (forall j, j ∈ js -> match rem !! j with Some t => word s d j = pde_of t | None => has (word s d j) PTE_P = false end) ->
  (forall j t, rem !! j = Some t -> j ∈ js /\ page t) ->
  (forall s' l', kinv s' l' -> l' ≡ₚ tab_pages rem ++ l -> (forall a, a ∉ tab_pages rem -> pages s' !! a = pages s !! a) -> Q tt s') ->
  wp P (meach js (free_table end_ d)) s Q.
Proof.
  induction js as [|i js IH]; intros s l rem Q Hk Hd Hnd Hni Hw Hr HQ; cbn [meach].
  { apply wp_ret, (HQ s l); [done| |done]. assert (rem = ∅) as ->; [|done]. apply map_empty. intros j.
    destruct (rem !! j) eqn:E; [|done]. destruct (Hr _ _ E) as [?%elem_of_nil _]. done. }
  apply NoDup_cons in Hni as [Hi Hni]. apply wp_bind. unfold free_table. apply wp_bind. eapply wp_get_pte; [done|done|].
  assert (Hwi := Hw i ltac:(by left)). destruct (rem !! i) as [t|] eqn:E.
  - destruct (Hr i t E) as [_ Hp]. rewrite Hwi, (pde_present end_), (pde_addr end_) by done. unfold when.
    destruct (owned_facts _ _ _ _ Hnd) as (N1 & N2 & N3 & N4 & N5). pose proof (tab_in _ _ _ E) as Hin.
    destruct (N4 t Hin) as [T1 T2].
    eapply wp_kfree; [done|by eapply page_u32|done|done|done|]. intros s1 Hk1 _ Hfr.
    assert (Hrest : t :: tab_pages (delete i rem) ≡ₚ tab_pages rem) by (by rewrite (tab_delete _ _ _ E)).
    assert (Htd : d <> t) by (by intros ->).
    assert (Hwd : forall j, word s1 d j = word s d j) by (intros j; apply word_ext; unfold pg; by rewrite Hfr).
    eapply (IH s1 (t :: l) (delete i rem)); [done|done| |done| | |].
    + eapply nodup_perm; [|exact Hnd]. apply Permutation_skip. rewrite <- Hrest. simpl.
      rewrite (app_assoc _ R (t :: l)), (app_assoc _ R l). by rewrite <- Permutation_middle.
    + intros j Hj. rewrite lookup_delete_ne by (by intros ->). rewrite Hwd. apply Hw. by right.
    + intros j u Hj. apply lookup_delete_Some in Hj as [Hne Hj]. destruct (Hr j u Hj) as [Hin' Hpu]. split; [|done].
      apply elem_of_cons in Hin' as [->|?]; done.
    + intros s' l' Hk' Hl' Hf'. apply (HQ s' l'); [done| |].
      * rewrite Hl', <- Hrest. simpl. by rewrite <- Permutation_middle.
      * intros a Ha. rewrite <- Hrest in Ha. apply not_elem_of_cons in Ha as [Hat Ha]. rewrite Hf' by done. by apply Hfr.
  - rewrite Hwi. unfold when. apply wp_ret. eapply (IH s l rem); try done.
    + intros j Hj. apply Hw. by right.
    + intros j t Hj. destruct (Hr j t Hj) as [Hin Hp]. split; [|done]. apply elem_of_cons in Hin as [->|?]; [congruence|done].
Qed.

Lemma wp_freevm s l A R (Q : unit -> kmem -> Prop) :
  space s l A R ->
  (forall s' l', kinv s' l' -> l' ≡ₚ owned A ++ l -> (forall a, a ∈ R -> pages s' !! a = pages s !! a) -> Q tt s') ->
  wp P (freevm end_ (as_dir A)) s Q.
Proof.
  intros Hs HQ. unfold freevm. assert (Hpd := pt_dir _ _ _ _ (sp_pgt _ _ _ _ Hs)).
  destruct (page_bounds _ _ Hpd) as [Hd0 _]. rewrite (proj2 (Z.eqb_neq (as_dir A) 0)) by lia. apply wp_bind.
  eapply wp_deallocuvm; [done|done|unfold KERNBASE; lia|unfold KERNBASE; lia|]. intros _ s1 l1 A1 X.
  assert (Hs1 := sh_space _ _ _ _ _ _ _ _ _ X). assert (Hempty : as_user A1 = ∅).
  { apply map_empty. intros n. destruct (as_user A1 !! n) as [[a f]|] eqn:E; [|done]. exfalso.
    destruct (sp_user _ _ _ _ Hs1 n a f E) as (Hn & _). rewrite (sh_user _ _ _ _ _ _ _ _ _ X) in E.
    unfold npages, NUSER, KERNBASE, PGSIZE in *. rewrite decide_True in E; [done|]. zlia. }
  assert (Hown : owned A1 = as_dir A1 :: tab_pages (as_tabs A1)) by (unfold owned; rewrite Hempty; simpl; by rewrite app_nil_r).
  rewrite <- (sh_dir _ _ _ _ _ _ _ _ _ X) in Hpd |- *. assert (Hnd := sp_nodup _ _ _ _ Hs1). rewrite Hempty in Hnd. simpl in Hnd.
  assert (Hpt := sp_pgt _ _ _ _ Hs1). apply wp_bind.
  eapply (wp_free_tables _ R); [apply Hs1|done|exact Hnd|apply NoDup_seqZ| | |].
  - intros j Hj%elem_of_seqZ. destruct (as_tabs A1 !! j) as [t|] eqn:E; [by apply (pt_tab _ _ _ _ Hpt)|]. by apply (pt_none _ _ _ _ Hpt).
  - intros j t E. destruct (pt_tab _ _ _ _ Hpt j t E) as (Hj & Hp & _). split; [|done]. by apply elem_of_seqZ.
  - intros s2 l2 Hk2 Hl2 Hf2. destruct (owned_facts _ _ _ _ Hnd) as (N1 & N2 & N3 & N4 & N5).
    eapply wp_kfree; [done|by eapply page_u32|done|done| |].
    { rewrite Hl2, elem_of_app. tauto. }
    intros s3 Hk3 _ Hf3. eapply HQ; [exact Hk3| |].
    + rewrite <- (sh_own _ _ _ _ _ _ _ _ _ X), Hown, Hl2. done.
    + intros a Ha. destruct (N5 a Ha) as (A1' & A2 & A3). rewrite Hf3, Hf2 by done. apply X. by left.
Qed.
End rules.
End spaces.
