(* ===== verification/VmGrow.v ===== *)
(** * Building address spaces (vm.c)

    [setupkvm] and [allocuvm]: what they map, and that no page is lost when
    memory runs out. *)

From S2P Require Import Prelude Params Bytes Str Kalloc Vm VmTable VmSpace.
Import Kalloc.

Section spaces.
Context (end_ : Z) (Hend : KERNBASE < end_).
Notation page := (page end_).
Notation kinv := (kinv end_).
Notation pgt := (pgt end_).
Notation space := (space end_).
Notation ext := (ext end_).
Implicit Types (s : kmem) (l R : list Z) (A : aspace).

(** ** Mapping into an address space *)

(** Tables have been added to [A]. *)
Record retabled s l A R s' l' A' : Prop := {
  rt_space : space s' l' A' R;
  rt_dir : as_dir A' = as_dir A;
  rt_user : as_user A' = as_user A;
  rt_own : owned A' ++ l' ≡ₚ owned A ++ l;
  rt_free : exists u, l = u ++ l';
  rt_frame a : a ∈ user_pages (as_user A) \/ a ∈ R -> pages s' !! a = pages s !! a;
}.

Definition with_tabs A ts : aspace := Aspace (as_dir A) ts (as_user A).

Lemma ext_space s l A R s' l' ts' : space s l A R -> ext s l (as_dir A) (as_tabs A) s' l' ts' ->
  (forall n, 0 <= n < NUSER -> ent s' ts' n = ent s (as_tabs A) n) -> retabled s l A R s' l' (with_tabs A ts').
Proof.
  intros Hs X He. split; try done.
  - split; [apply X|apply X| |apply Hs|].
    + intros n Hn. rewrite He by done. by apply Hs.
    + eapply ext_nodup; [exact X|apply Hs].
  - unfold owned. simpl. apply Permutation_skip. rewrite <- !app_assoc, (Permutation_app_comm (user_pages _) l'), (Permutation_app_comm (user_pages _) l), !app_assoc.
    by rewrite (ex_own _ _ _ _ _ _ _ _ X).
  - apply X.
  - intros a Ha. destruct (owned_facts _ _ _ _ (sp_nodup _ _ _ _ _ Hs)) as (_ & _ & _ & _ & N5).
    destruct (N5 a) as (? & ? & ?); [by apply elem_of_app|]. by apply (ex_frame _ _ _ _ _ _ _ _ X).
Qed.

Lemma retabled_refl s l A R : space s l A R -> retabled s l A R s l A.
Proof. intros Hs. split; try done. by exists []. Qed.
Lemma retabled_trans s l A R s1 l1 A1 s2 l2 A2 : retabled s l A R s1 l1 A1 -> retabled s1 l1 A1 R s2 l2 A2 -> retabled s l A R s2 l2 A2.
Proof.
  intros [X1 X2 X3 X4 [u Xu] X5] [Y1 Y2 Y3 Y4 [w Yw] Y5]. split; try congruence.
  - by rewrite Y4.
  - exists (u ++ w). by rewrite Xu, Yw, app_assoc.
  - intros a Ha. rewrite Y5; [by apply X5|by rewrite X3].
Qed.

(** A user page has been mapped. *)
Record grown_user s l A R n a f s' l' A' : Prop := {
  gu_space : space s' l' A' R;
  gu_dir : as_dir A' = as_dir A;
  gu_user : as_user A' = <[n := (a, f)]> (as_user A);
  gu_own : owned A' ++ l' ≡ₚ a :: owned A ++ l;
  gu_free : exists u, l = u ++ l';
  gu_kern m : NUSER <= m -> ent s' (as_tabs A') m = ent s (as_tabs A) m;
  gu_tabs i : is_Some (as_tabs A' !! i) -> is_Some (as_tabs A !! i) \/ i = n / 1024;
  gu_frame b : b = a \/ b ∈ user_pages (as_user A) \/ b ∈ R -> pages s' !! b = pages s !! b;
}.

Section rules.
Context (P : prot kmem).

Lemma has_P f : has (Z.lor f 1) PTE_P = true.
Proof.
  unfold has, PTE_P. change 1 with (Z.ones 1). rewrite Z.land_ones by lia. apply negb_true_iff, Z.eqb_neq. intros H.
  apply (f_equal (fun z => Z.testbit z 0)) in H. rewrite Z.mod_pow2_bits_low, Z.lor_spec, orb_true_r in H by lia. done.
Qed.

Lemma wp_map_user s l A R n a perm (Q : Z -> kmem -> Prop) :
  space s l A (a :: R) -> page a -> 0 <= n < NUSER -> as_user A !! n = None -> 0 <= perm < 4096 ->
  (forall s' l' A', grown_user s l A R n a (Z.lor perm 1) s' l' A' -> Q 0 s') ->
  (forall s' A', retabled s l A (a :: R) s' [] A' -> (forall m, ent s' (as_tabs A') m = ent s (as_tabs A) m) ->
     l = [] -> as_tabs A' = as_tabs A -> as_tabs A !! (n / 1024) = None -> Q (-1) s') ->
  wp P (mappages (as_dir A) (n * PGSIZE) PGSIZE (V2P a) perm) s Q.
Proof.
  intros Hs Hp Hn Hno Hperm HS HF. change PGSIZE with (u32 (1 * PGSIZE)) at 2.
  destruct (page_V2P _ a Hp) as (_ & Hu & Ha & _). unfold is_u32 in Hu.
  eapply wp_mappages; [apply Hs|apply Hs|apply Hs|lia|lia|unfold NUSER in *; lia|lia|lia|exact Ha|exact Hperm| | |].
  - intros m Hm. replace m with n by lia. rewrite (sp_ent _ _ _ _ _ Hs n Hn), Hno. done.
  - intros s' l' ts' [X Xe Xt _].
    assert (He : forall m, ent s' ts' m = if decide (m = n) then Z.lor (V2P a) (Z.lor perm 1) else ent s (as_tabs A) m).
    { intros m. rewrite Xe. destruct (decide (m = n)) as [Hm|]; [|by rewrite decide_False by lia]. rewrite decide_True by lia.
      by rewrite page_entry_eq, Hm, Z.sub_diag, Z.mul_0_l, Z.add_0_r. }
    assert (Hperms : forall x, tab_pages ts' ++ (user_pages (<[n := (a, Z.lor perm 1)]> (as_user A)) ++ x) ++ l' ≡ₚ
        tab_pages (as_tabs A) ++ (user_pages (as_user A) ++ a :: x) ++ l).
    { intros x. rewrite user_insert by done. rewrite <- Permutation_middle.
      rewrite (Permutation_app_comm _ l'), (Permutation_app_comm (a :: _) l), !app_assoc, (ex_own _ _ _ _ _ _ _ _ X). by rewrite <- !app_assoc. }
    apply (HS s' l' (Aspace (as_dir A) ts' (<[n := (a, Z.lor perm 1)]> (as_user A)))). split; try done.
    + split; [apply X|apply X| | |].
      * intros m Hm. rewrite He. simpl. case_decide as E; [subst; by rewrite lookup_insert_eq|].
        rewrite lookup_insert_ne by done. by apply Hs.
      * intros m b g. simpl. intros [[<- [= <- <-]]|[_ E]]%lookup_insert_Some; [|by apply (sp_user _ _ _ _ _ Hs m b g)].
        split_and!; try done; try lia; try apply perm_bound; try done. apply has_P.
      * simpl. eapply nodup_perm; [apply Permutation_skip, Hperms|]. apply Hs.
    + unfold owned. simpl. rewrite (Permutation_swap (as_dir A) a). apply Permutation_skip.
      pose proof (Hperms []) as Hq. rewrite !app_nil_r in Hq. rewrite <- !app_assoc in *. rewrite Hq. simpl.
      rewrite !app_assoc, <- Permutation_middle. done.
    + apply X.
    + intros m Hm. simpl. rewrite He, decide_False by lia. done.
    + intros i Hi. destruct (Xt i Hi) as [?|(m & Hm & ->)]; [by left|right; f_equal; lia].
    + intros b Hb. destruct (owned_facts _ _ _ _ (sp_nodup _ _ _ _ _ Hs)) as (_ & _ & _ & _ & N5).
      destruct (N5 b) as (? & ? & ?); [|by apply (ex_frame _ _ _ _ _ _ _ _ X)].
      rewrite elem_of_app, elem_of_cons. tauto.
  - intros s' ts' j Hj [X Xe _ Xn] Hnone. destruct (Xn ltac:(lia)) as [-> <-]. assert (He : forall m, ent s' (as_tabs A) m = ent s (as_tabs A) m) by (intros m; by rewrite Xe, decide_False by lia).
    apply (HF s' (with_tabs A (as_tabs A))); [by apply ext_space|done|done|done|by replace (n + j) with n in Hnone by lia].
Qed.

(** ** [setupkvm] *)

(** The entries of the kernel's part. *)
Definition kern s A (k : Z -> Z) : Prop := forall n, NUSER <= n < 2 ^ 20 -> ent s (as_tabs A) n = k n.
Definition map_range (n cnt pa perm : Z) (k : Z -> Z) (m : Z) : Z :=
  if decide (n <= m < n + cnt) then page_entry (pa + (m - n) * PGSIZE) perm else k m.

(** The directory entries in use. *)
Definition tabs_in A (T : Z -> Prop) : Prop := forall i, is_Some (as_tabs A !! i) -> T i.

Lemma wp_kmap_step s l A R k n cnt pa pe perm (T : Z -> Prop) (Q : option unit -> kmem -> Prop) :
  space s l A R -> kern s A k -> NUSER <= n -> 1 <= cnt -> n + cnt <= 2 ^ 20 -> 0 <= pa -> pa + (cnt - 1) * PGSIZE < 2 ^ 32 ->
  aligned pa -> 0 <= perm < 4096 -> (forall m, n <= m < n + cnt -> k m = 0) -> u32 (pe - pa) = u32 (cnt * PGSIZE) ->
  tabs_in A T -> (forall m, n <= m < n + cnt -> T (m / 1024)) ->
  (forall s' l' A', retabled s l A R s' l' A' -> kern s' A' (map_range n cnt pa perm k) -> tabs_in A' T -> Q None s') ->
  (forall s' l' A', kinv s' l' -> l' ≡ₚ owned A ++ l -> (forall a, a ∈ R -> pages s' !! a = pages s !! a) ->
     l' ≡ₚ owned A' -> as_user A' = as_user A -> tabs_in A' T -> (exists i, T i /\ as_tabs A' !! i = None) -> Q (Some tt) s') ->
  wp P (kmap_step end_ (as_dir A) (n * PGSIZE, pa, pe, perm)) s Q.
Proof.
  intros Hs Hkern Hn Hc Hnc Hpa Hpb Hal Hperm Hno Hsz HT HTr HS HF. unfold kmap_step. rewrite Hsz. apply wp_bind.
  eapply wp_mappages; [apply Hs|apply Hs|apply Hs|unfold NUSER in *; lia|done|done|done|done|done|done| | |].
  - intros m Hm. rewrite Hkern by lia. by rewrite Hno.
  - intros s' l' ts' [X Xe Xt _]. simpl. apply wp_ret. apply (HS s' l' (with_tabs A ts')).
    + apply ext_space; [done|done|]. intros m Hm. rewrite Xe, decide_False by lia. done.
    + intros m Hm. simpl. rewrite Xe. unfold map_range. case_decide; [done|]. by apply Hkern.
    + intros i Hi. destruct (Xt i Hi) as [?|(m & Hm & ->)]; auto.
  - intros s' ts' j Hj [X Xe Xt _] Hnone. simpl. assert (RT : retabled s l A R s' [] (with_tabs A ts')).
    { apply ext_space; [done|done|]. intros m Hm. rewrite Xe, decide_False by lia. done. }
    apply wp_bind. change (as_dir A) with (as_dir (with_tabs A ts')). eapply wp_freevm; [done|apply RT|].
    intros s2 l2 Hk2 Hl2 Hf2. apply wp_ret. apply (HF s2 l2 (with_tabs A ts')); [done| | |by rewrite Hl2, app_nil_r|done| |].
    + rewrite Hl2. apply RT.
    + intros a Ha. rewrite Hf2 by done. apply RT. by right.
    + intros i Hi. destruct (Xt i Hi) as [?|(m & Hm & ->)]; [auto|apply HTr; lia].
    + exists ((n + j) / 1024). split; [apply HTr; lia|done].
Qed.

(** A zeroed page is an address space without mappings. *)
Lemma pgt_new s l d : kinv s l -> page d -> d ∉ l -> pgt (put s d zeroed) d ∅.
Proof.
  intros Hk Hd Hl. split; [done|intros i t; by rewrite lookup_empty|]. intros i Hi _. rewrite word_put, get32_zero_page by done. done.
Qed.

Lemma new_space s l d R : kinv s l -> page d -> NoDup (d :: R ++ l) -> space (put s d zeroed) l (Aspace d ∅ ∅) R.
Proof.
  intros Hk Hd Hnd. assert (Hdl : d ∉ l) by (apply NoDup_cons in Hnd as [Hn _]; rewrite elem_of_app in Hn; tauto).
  split; simpl.
  - apply kinv_put; [done..|apply length_zeroed].
  - by eapply pgt_new.
  - intros n _. by rewrite lookup_empty.
  - intros n a f. by rewrite lookup_empty.
  - done.
Qed.

Section kernel.
Context (data : Z) (Hdata : aligned data /\ KERNLINK < data < KERNBASE + PHYSTOP).

(** The kernel's mappings: its memory at [KERNBASE], its text without write
    permission, and the devices. *)
Definition kpte (n : Z) : Z :=
  if decide (n * PGSIZE < KERNLINK) then page_entry (n * PGSIZE - KERNBASE) PTE_W
  else if decide (n * PGSIZE < data) then page_entry (n * PGSIZE - KERNBASE) 0
  else if decide (n * PGSIZE < KERNBASE + PHYSTOP) then page_entry (n * PGSIZE - KERNBASE) PTE_W
  else if decide (n * PGSIZE < DEVSPACE) then 0
  else page_entry (n * PGSIZE) PTE_W.

(** The directory entries of the kernel's part. *)
Definition ktab (i : Z) : Prop := 512 <= i < 568 \/ 1016 <= i < 1024.

Lemma wp_kmap_cons s l A R s1 l1 A1 k n cnt pa pe perm rest (Q : option unit -> kmem -> Prop) :
  retabled s l A R s1 l1 A1 -> kern s1 A1 k -> tabs_in A1 ktab -> NUSER <= n -> 1 <= cnt -> n + cnt <= 2 ^ 20 -> 0 <= pa -> pa + (cnt - 1) * PGSIZE < 2 ^ 32 ->
  aligned pa -> 0 <= perm < 4096 -> (forall m, n <= m < n + cnt -> k m = 0) -> u32 (pe - pa) = u32 (cnt * PGSIZE) ->
  (forall m, n <= m < n + cnt -> ktab (m / 1024)) ->
  (forall s' l' A', retabled s l A R s' l' A' -> kern s' A' (map_range n cnt pa perm k) -> tabs_in A' ktab ->
     wp P (mfor rest (kmap_step end_ (as_dir A))) s' Q) ->
  (forall s' l' A', kinv s' l' -> l' ≡ₚ owned A ++ l -> (forall a, a ∈ R -> pages s' !! a = pages s !! a) ->
     l' ≡ₚ owned A' -> as_user A' = as_user A -> tabs_in A' ktab -> (exists i, ktab i /\ as_tabs A' !! i = None) -> Q (Some tt) s') ->
  wp P (mfor ((n * PGSIZE, pa, pe, perm) :: rest) (kmap_step end_ (as_dir A))) s1 Q.
Proof.
  intros RT Hk HT Hn Hc Hnc Hpa Hpb Hal Hperm Hno Hsz HTr HS HF. cbn [mfor]. apply wp_bind. rewrite <- (rt_dir _ _ _ _ _ _ _ RT).
  eapply (wp_kmap_step _ _ _ _ _ _ _ _ _ _ ktab); [apply RT|done..| |].
  - intros s2 l2 A2 RT2 Hk2 HT2. rewrite (rt_dir _ _ _ _ _ _ _ RT). eapply HS; [by eapply retabled_trans|done|done].
  - intros s2 l2 A2 Hk2 Hl2 Hf2 Ho2 Hu2 HT2 HN2. apply wp_ret. apply (HF s2 l2 A2); [done| | |done| |done|done].
    + rewrite Hl2. apply RT.
    + intros a Ha. rewrite Hf2 by done. apply RT. by right.
    + by rewrite Hu2, (rt_user _ _ _ _ _ _ _ RT).
Qed.

Ltac range := first [assumption|unfold map_range, aligned, PTE_W, PGSIZE, NUSER in *; intros;
  rewrite ?decide_False by lia; first [done|lia|zlia]].

Ltac tabrange := intros; unfold ktab, NUSER in *; zlia.

Lemma wp_kmaps s l A R (Q : option unit -> kmem -> Prop) :
  space s l A R -> kern s A (fun _ => 0) -> tabs_in A ktab ->
  (forall s' l' A', retabled s l A R s' l' A' -> kern s' A' kpte -> tabs_in A' ktab -> Q None s') ->
  (forall s' l' A', kinv s' l' -> l' ≡ₚ owned A ++ l -> (forall a, a ∈ R -> pages s' !! a = pages s !! a) ->
     l' ≡ₚ owned A' -> as_user A' = as_user A -> tabs_in A' ktab -> (exists i, ktab i /\ as_tabs A' !! i = None) -> Q (Some tt) s') ->
  wp P (mfor (kmap data) (kmap_step end_ (as_dir A))) s Q.
Proof.
  intros Hs Hk HT HS HF. destruct Hdata as [Hal Hdb]. unfold aligned in Hal. set (nd := data / PGSIZE).
  assert (Hnd : data = nd * PGSIZE) by (unfold nd, PGSIZE in *; zlia).
  assert (Hndb : 2 ^ 19 + 256 < nd < 2 ^ 19 + 57344) by (unfold KERNLINK, KERNBASE, EXTMEM, PHYSTOP, PGSIZE in *; lia).
  assert (Hv : V2P data = (nd - 2 ^ 19) * PGSIZE) by (unfold V2P, KERNBASE; rewrite u32_small; unfold is_u32, PGSIZE in *; lia).
  replace (kmap data) with [(NUSER * PGSIZE, 0, EXTMEM, PTE_W); ((NUSER + 256) * PGSIZE, EXTMEM, V2P data, 0);
    (nd * PGSIZE, V2P data, PHYSTOP, PTE_W); (0xFE000 * PGSIZE, DEVSPACE, 0, PTE_W)] by (unfold kmap; rewrite Hnd at 4; reflexivity).
  rewrite Hv. unfold EXTMEM, PHYSTOP, DEVSPACE, NUSER in *.
  assert (Hu : u32 (234881024 - (nd - 2 ^ 19) * PGSIZE) = u32 ((2 ^ 19 + 57344 - nd) * PGSIZE)) by (f_equal; unfold PGSIZE; lia).
  assert (Hu2 : u32 ((nd - 2 ^ 19) * PGSIZE - 1048576) = u32 ((nd - 2 ^ 19 - 256) * PGSIZE)) by (f_equal; unfold PGSIZE; lia).
  assert (Hal2 : aligned ((nd - 2 ^ 19) * PGSIZE)) by (unfold aligned, PGSIZE; zlia).
  eapply (wp_kmap_cons s l A R s l A _ _ 256); [by apply retabled_refl|exact Hk|exact HT|range|range|range|range|range|range|range|range|range|tabrange| |exact HF]. intros s1 l1 A1 R1 K1 T1.
  eapply (wp_kmap_cons s l A R s1 l1 A1 _ _ (nd - 2 ^ 19 - 256)); [exact R1|exact K1|exact T1|range|range|range|range|range|range|range|range|range|tabrange| |exact HF]. intros s2 l2 A2 R2 K2 T2.
  eapply (wp_kmap_cons s l A R s2 l2 A2 _ _ (2 ^ 19 + 57344 - nd)); [exact R2|exact K2|exact T2|range|range|range|range|range|range|range|range|range|tabrange| |exact HF]. intros s3 l3 A3 R3 K3 T3.
  eapply (wp_kmap_cons s l A R s3 l3 A3 _ _ 8192); [exact R3|exact K3|exact T3|range|range|range|range|range|range|range|range|range|tabrange| |exact HF]. intros s4 l4 A4 R4 K4 T4.
  apply wp_ret. apply (HS s4 l4 A4 R4); [|exact T4]. intros m Hm. rewrite K4 by done.
  clear -Hm Hnd Hndb. unfold kpte, map_range, KERNLINK, KERNBASE, EXTMEM, PHYSTOP, DEVSPACE, NUSER, PGSIZE in *. rewrite Hnd. clear Hnd.
  repeat case_decide; try lia; f_equal; lia.
Qed.

Definition ktabs : gset Z := list_to_set (seqZ 512 56 ++ seqZ 1016 8).
Lemma ktabs_size : size ktabs = 64%nat.
Proof.
  unfold ktabs. rewrite size_list_to_set; [by rewrite length_app, !length_seqZ|]. apply NoDup_app. split_and!; [apply NoDup_seqZ| |apply NoDup_seqZ].
  intros x Hx%elem_of_seqZ Hy%elem_of_seqZ. lia.
Qed.
Lemma ktabs_in x : ktab x -> x ∈ ktabs.
Proof. intros Hx. unfold ktabs, ktab in *. rewrite elem_of_list_to_set, elem_of_app, !elem_of_seqZ. lia. Qed.
Lemma ktab_le A : tabs_in A ktab -> (size (as_tabs A) <= 64)%nat.
Proof. intros HT. rewrite <- (size_dom (D := gset Z)), <- ktabs_size. apply subseteq_size. intros x Hx%elem_of_dom%HT. by apply ktabs_in. Qed.
Lemma ktab_size A i : tabs_in A ktab -> ktab i -> as_tabs A !! i = None -> (size (as_tabs A) < 64)%nat.
Proof.
  intros HT Hi Hn. rewrite <- (size_dom (D := gset Z)), <- ktabs_size. apply subset_size. split.
  - intros x Hx%elem_of_dom%HT. by apply ktabs_in.
  - intros Hsub. specialize (Hsub i (ktabs_in i Hi)). apply elem_of_dom in Hsub. rewrite Hn in Hsub. by destruct Hsub.
Qed.
Lemma length_owned A : length (owned A) = (1 + size (as_tabs A) + size (as_user A))%nat.
Proof. unfold owned, tab_pages, user_pages. simpl. by rewrite length_app, !length_fmap, !length_map_to_list. Qed.
Lemma ktab_owned A i : as_user A = ∅ -> tabs_in A ktab -> ktab i -> as_tabs A !! i = None -> (length (owned A) <= 64)%nat.
Proof. intros Hu HT Hi Hn. pose proof (ktab_size A i HT Hi Hn). rewrite length_owned, Hu, map_size_empty. lia. Qed.

Lemma wp_setupkvm s l R (Q : Z -> kmem -> Prop) :
  kinv s l -> NoDup (R ++ l) ->
  (forall s' l' A, space s' l' A R -> as_user A = ∅ -> kern s' A kpte -> tabs_in A ktab -> owned A ++ l' ≡ₚ l -> (exists u, l = u ++ l') ->
     (forall a, a ∈ R -> pages s' !! a = pages s !! a) -> Q (as_dir A) s') ->
  (forall s' l', kinv s' l' -> l' ≡ₚ l -> (forall a, a ∈ R -> pages s' !! a = pages s !! a) -> (length l <= 64)%nat -> Q 0 s') ->
  wp P (setupkvm end_ data) s Q.
Proof.
  intros Hk Hnd HS HF. unfold setupkvm. apply wp_bind. eapply wp_kalloc; [done|]. destruct l as [|d l]; intros s1 Hk1 Hp1 _.
  { simpl. apply wp_ret. eapply HF; [done|done|by rewrite Hp1|simpl; lia]. }
  assert (Hpd : page d) by (pose proof (ki_page _ _ _ Hk) as HP; by apply Forall_cons in HP as [? _]).
  destruct (page_bounds _ _ Hpd) as [Hd0 _]. rewrite (proj2 (Z.eqb_neq d 0)) by lia.
  apply wp_bind. eapply wp_zero_page; [done|done|]. change (DEVSPACE <? P2V PHYSTOP) with false. cbv beta iota.
  assert (Hnd' : NoDup (d :: R ++ l)) by (eapply nodup_perm; [apply Permutation_middle|done]).
  set (s2 := put s1 d zeroed). set (A0 := Aspace d ∅ ∅). assert (Hs2 : space s2 l A0 R) by (by apply new_space).
  assert (Hfr2 : forall a, a ∈ R -> pages s2 !! a = pages s !! a).
  { intros a Ha. unfold s2, put. simpl. rewrite lookup_insert_ne, Hp1; [done|]. intros ->. apply NoDup_cons in Hnd' as [Hn _].
    apply Hn, elem_of_app. by left. }
  apply wp_bind. change d with (as_dir A0) at 1.
  eapply wp_mono; [apply (wp_kmaps s2 l A0 R (fun r s' => match r with
      | None => exists l' A', retabled s2 l A0 R s' l' A' /\ kern s' A' kpte /\ tabs_in A' ktab
      | Some _ => exists l', kinv s' l' /\ l' ≡ₚ owned A0 ++ l /\ (forall a, a ∈ R -> pages s' !! a = pages s2 !! a) /\ (length l' <= 64)%nat end));
    [done|done|intros i [? Hi]; simpl in Hi; by rewrite lookup_empty in Hi|eauto|]|].
  - intros s' l' A' H1 H2 H3 H4 H5 H6 (i & Hi & Hn). exists l'. split_and!; try done. rewrite H4. by eapply ktab_owned.
  - intros r s' HR. apply wp_ret. destruct r as [[]|].
    + destruct HR as (l' & Hk' & Hl' & Hf' & H65). eapply (HF s' l'); [done|done| |by rewrite Hl' in H65].
      intros a Ha. by rewrite Hf', Hfr2.
    + destruct HR as (l' & A' & RT & Hkp & HT). replace d with (as_dir A') by (by rewrite (rt_dir _ _ _ _ _ _ _ RT)).
      eapply (HS s' l' A'); [apply RT|by rewrite (rt_user _ _ _ _ _ _ _ RT)|done|done| | |].
      * rewrite (rt_own _ _ _ _ _ _ _ RT). done.
      * destruct (rt_free _ _ _ _ _ _ _ RT) as [u ->]. by exists (d :: u).
      * intros a Ha. rewrite <- Hfr2 by done. apply RT. by right.
Qed.
End kernel.

(** ** [allocuvm] *)

(** Pages go from the free list to the caller and back, and are filled. *)
Lemma space_ext s s' l l' A R R' : space s l A R -> kinv s' l' -> R' ++ l' ≡ₚ R ++ l ->
  (forall a, a ∈ owned A -> pages s' !! a = pages s !! a) -> space s' l' A R'.
Proof.
  intros Hs Hk Hp Hf. assert (Hpg : forall a, a ∈ owned A -> pg s' a = pg s a) by (intros a Ha; unfold pg; by rewrite Hf).
  split; [done| | |apply Hs|].
  - eapply (pgt_ext _ s); [|apply Hs]. apply Hpg. by left.
  - intros n Hn. rewrite (ent_ext s) by (intros t Ht; apply Hpg; right; apply elem_of_app; by left). by apply Hs.
  - eapply nodup_perm; [|exact (sp_nodup _ _ _ _ _ Hs)]. by rewrite <- !(app_assoc (user_pages _)), Hp.
Qed.

Lemma owned_not_R s l A R a : space s l A R -> a ∈ owned A -> a ∉ R /\ a ∉ l.
Proof.
  intros Hs Ha. pose proof (sp_nodup _ _ _ _ _ Hs) as Hn. unfold owned in Ha.
  assert (Hn' : NoDup ((as_dir A :: tab_pages (as_tabs A) ++ user_pages (as_user A)) ++ R ++ l)).
  { eapply nodup_perm; [|exact Hn]. simpl. by rewrite <- !app_assoc. }
  apply NoDup_app in Hn' as (_ & H2 & _). specialize (H2 a Ha). rewrite elem_of_app in H2. tauto.
Qed.

Lemma space_take s s' l a A R : space s (a :: l) A R -> kinv s' l -> pages s' = pages s -> space s' l A (a :: R).
Proof. intros Hs Hk Hp. eapply space_ext; [exact Hs|done|simpl; by rewrite Permutation_middle|]. by rewrite Hp. Qed.
Lemma space_fill s l a d A R : space s l A (a :: R) -> page a -> length d = 4096%nat -> space (put s a d) l A (a :: R).
Proof.
  intros Hs Hp Hd. eapply space_ext; [exact Hs| |done|].
  - apply kinv_put; [apply Hs|done| |done]. pose proof (sp_nodup _ _ _ _ _ Hs) as Hn.
    destruct (owned_facts _ _ _ _ Hn) as (_ & _ & _ & _ & N5). apply N5. rewrite elem_of_app, elem_of_cons. auto.
  - intros b Hb. unfold put. simpl. rewrite lookup_insert_ne; [done|]. intros <-.
    destruct (owned_not_R _ _ _ _ _ Hs Hb) as [Hn _]. apply Hn. by left.
Qed.
Lemma space_give s s' l a A R : space s l A (a :: R) -> kinv s' (a :: l) -> (forall b, b <> a -> pages s' !! b = pages s !! b) ->
  space s' (a :: l) A R.
Proof.
  intros Hs Hk Hf. eapply space_ext; [exact Hs|done|simpl; by rewrite Permutation_middle|]. intros b Hb. apply Hf. intros ->.
  destruct (owned_not_R _ _ _ _ _ Hs Hb) as [Hn _]. apply Hn. by left.
Qed.
Lemma R_not_free s l A R a : space s l A (a :: R) -> a ∉ l.
Proof.
  intros Hs. destruct (owned_facts _ _ _ _ (sp_nodup _ _ _ _ _ Hs)) as (_ & _ & _ & _ & N5). apply N5.
  rewrite elem_of_app, elem_of_cons. auto.
Qed.

(** Zeroed pages have been mapped in a range where there were none. *)
Record enlarged s l A R lo hi s' l' A' : Prop := {
  en_space : space s' l' A' R;
  en_dir : as_dir A' = as_dir A;
  en_same n : ~ lo <= n < hi -> as_user A' !! n = as_user A !! n;
  en_new n : lo <= n < hi -> exists a, as_user A' !! n = Some (a, 7) /\ pages s' !! a = Some zeroed;
  en_own : owned A' ++ l' ≡ₚ owned A ++ l;
  en_cost : Z.of_nat (length l) <= Z.of_nat (length l') + 2 * (hi - lo);
  en_kern n : NUSER <= n -> ent s' (as_tabs A') n = ent s (as_tabs A) n;
  en_frame a : a ∈ user_pages (as_user A) \/ a ∈ R -> pages s' !! a = pages s !! a;
}.

Lemma enlarged_refl s l A R lo : space s l A R -> enlarged s l A R lo lo s l A.
Proof. intros Hs. split; try done; lia. Qed.

(** A page and at most one table. *)
Lemma grown_cost s l A R n a f s' l' A' : grown_user s l A R n a f s' l' A' -> as_user A !! n = None -> (length l <= length l' + 1)%nat.
Proof.
  intros G Hn. pose proof (Permutation_length (gu_own _ _ _ _ _ _ _ _ _ _ G)) as E. cbn [length] in E. rewrite !length_app, !length_owned in E.
  rewrite (gu_user _ _ _ _ _ _ _ _ _ _ G), map_size_insert_None in E by done.
  assert (Ht : (size (as_tabs A') <= 1 + size (as_tabs A))%nat).
  { rewrite <- !(size_dom (D := gset Z)). trans (size ({[n / 1024]} ∪ dom (as_tabs A))).
    - apply subseteq_size. intros i Hi%elem_of_dom. apply (gu_tabs _ _ _ _ _ _ _ _ _ _ G) in Hi as [Hi| ->]; [|set_solver]. apply elem_of_union_r. by apply elem_of_dom.
    - rewrite size_union_alt, size_singleton. apply Nat.add_le_mono with (n := 1%nat) (m := 1%nat); [lia|]. apply subseteq_size. set_solver. }
  lia.
Qed.

Lemma enlarged_user s l A R lo n s1 l1 A1 b : enlarged s l A R lo n s1 l1 A1 -> (forall m, lo <= m < n -> as_user A !! m = None) ->
  b ∈ user_pages (as_user A) -> b ∈ user_pages (as_user A1).
Proof.
  intros X Hno (m & f & E)%in_user. apply (user_in _ m _ f). rewrite (en_same _ _ _ _ _ _ _ _ _ X); [done|].
  intros Hm. by rewrite Hno in E.
Qed.

(** The user pages are as before. *)
Record kept s l A R s' l' A' : Prop := {
  kp_space : space s' l' A' R;
  kp_dir : as_dir A' = as_dir A;
  kp_user : as_user A' = as_user A;
  kp_own : owned A' ++ l' ≡ₚ owned A ++ l;
  kp_kern n : NUSER <= n -> ent s' (as_tabs A') n = ent s (as_tabs A) n;
  kp_frame a : a ∈ user_pages (as_user A) \/ a ∈ R -> pages s' !! a = pages s !! a;
}.

Section grow.
Context s l A R (oldsz newsz : Z) (Hold : 0 <= oldsz) (Hnew : oldsz <= newsz < KERNBASE).
Notation lo := (npages oldsz).
Notation hi := (npages newsz).
Context (Hno : forall m, lo <= m < hi -> as_user A !! m = None).

Lemma undo_user n s1 l1 A1 A2 : enlarged s l A R lo n s1 l1 A1 -> n <= hi ->
  (forall m, as_user A2 !! m = if decide (lo <= m < hi) then None else as_user A1 !! m) -> as_user A2 = as_user A.
Proof.
  intros X Hn H2. apply map_eq. intros m. rewrite H2. case_decide; [by rewrite Hno|]. apply (en_same _ _ _ _ _ _ _ _ _ X). lia.
Qed.

Lemma wp_alloc_undo n s1 l1 A1 (Q : Z -> kmem -> Prop) : enlarged s l A R lo n s1 l1 A1 -> lo < hi -> n <= hi ->
  (forall s' l' A', kept s l A R s' l' A' -> Q oldsz s') ->
  wp P (deallocuvm end_ (as_dir A) newsz oldsz) s1 Q.
Proof.
  intros X Hlh Hn HQ. rewrite <- (en_dir _ _ _ _ _ _ _ _ _ X).
  eapply wp_deallocuvm; [done|apply X|done|lia| |].
  { intros ?. exfalso. assert (newsz = oldsz) by lia. subst. lia. }
  intros _ s2 l2 A2 Y. assert (Hu := undo_user _ _ _ _ _ X Hn (sh_user _ _ _ _ _ _ _ _ _ _ Y)).
  apply (HQ s2 l2 A2). split.
  - apply Y.
  - by rewrite (sh_dir _ _ _ _ _ _ _ _ _ _ Y), (en_dir _ _ _ _ _ _ _ _ _ X).
  - done.
  - rewrite (sh_own _ _ _ _ _ _ _ _ _ _ Y). apply X.
  - intros m Hm. rewrite (sh_tabs _ _ _ _ _ _ _ _ _ _ Y), (sh_kern _ _ _ _ _ _ _ _ _ _ Y) by done. by apply X.
  - intros b Hb. rewrite (sh_frame _ _ _ _ _ _ _ _ _ _ Y); [by apply X|]. destruct Hb as [Hb|Hb]; [right|by left].
    rewrite Hu. by apply in_user.
Qed.

(** One more page: from the allocation on. *)
Definition alloc_page d a mem : M kmem (Z + Z) :=
  zero_page mem ;;;
  r <- mappages d a PGSIZE (V2P mem) (Z.lor PTE_W PTE_U) ;;
  if r <? 0 then deallocuvm end_ d newsz oldsz ;;; kfree end_ mem ;;; ret (inr 0)
  else ret (inl (u32 (a + PGSIZE))).

(** There is no page for a page table. *)
Lemma wp_alloc_failed n s1 a l1 A1 s2 s3 A3 (Q : Z + Z -> kmem -> Prop) :
  enlarged s l A R lo n s1 (a :: l1) A1 -> page a -> lo <= n < hi -> retabled s2 l1 A1 (a :: R) s3 [] A3 ->
  (forall b, b ∈ user_pages (as_user A1) \/ b ∈ R -> pages s2 !! b = pages s1 !! b /\ b <> a) ->
  (forall m, NUSER <= m -> ent s3 (as_tabs A3) m = ent s1 (as_tabs A1) m) ->
  (forall s' l' A', kept s l A R s' l' A' -> Q (inr 0) s') ->
  wp P (deallocuvm end_ (as_dir A1) newsz oldsz ;;; kfree end_ a ;;; ret (inr 0)) s3 Q.
Proof.
  intros X Hpa Hn RT Hf2 Hes HF. apply wp_bind. rewrite <- (rt_dir _ _ _ _ _ _ _ RT).
  eapply wp_deallocuvm; [done|apply RT|done|lia| |].
  { intros ?. exfalso. assert (newsz = oldsz) by lia. subst. lia. }
  intros _ s4 l4 A4 Y. assert (Hs4 := sh_space _ _ _ _ _ _ _ _ _ _ Y).
  assert (Hu : as_user A4 = as_user A).
  { eapply (undo_user n); [exact X|lia|]. intros m. rewrite (sh_user _ _ _ _ _ _ _ _ _ _ Y). by rewrite (rt_user _ _ _ _ _ _ _ RT). }
  apply wp_bind. eapply wp_kfree; [apply Hs4|by eapply page_u32|done|done|by eapply R_not_free|]. intros s5 Hk5 _ Hf5. apply wp_ret.
  assert (Hs5 := space_give _ _ _ _ _ _ Hs4 Hk5 Hf5). apply (HF s5 (a :: l4) A4). split.
  - done.
  - by rewrite (sh_dir _ _ _ _ _ _ _ _ _ _ Y), (rt_dir _ _ _ _ _ _ _ RT), (en_dir _ _ _ _ _ _ _ _ _ X).
  - done.
  - rewrite <- Permutation_middle, (sh_own _ _ _ _ _ _ _ _ _ _ Y), (rt_own _ _ _ _ _ _ _ RT), Permutation_middle. apply X.
  - intros m Hm. rewrite (ent_ext s4).
    { rewrite (sh_tabs _ _ _ _ _ _ _ _ _ _ Y), (sh_kern _ _ _ _ _ _ _ _ _ _ Y), Hes by done. by apply X. }
    intros b Hb. assert (Hown : b ∈ owned A4) by (right; apply elem_of_app; by left).
    destruct (owned_not_R _ _ _ _ _ Hs4 Hown) as [Hb' _]. unfold pg. rewrite Hf5; [done|]. intros ->. apply Hb'. by left.
  - intros b Hb. assert (Hb1 : b ∈ user_pages (as_user A1) \/ b ∈ R).
    { destruct Hb as [Hb|Hb]; [left|by right]. eapply enlarged_user; [exact X| |exact Hb]. intros; apply Hno; lia. }
    destruct (Hf2 b Hb1) as [E2 Hba]. rewrite Hf5 by done. rewrite (sh_frame _ _ _ _ _ _ _ _ _ _ Y).
    + rewrite (rt_frame _ _ _ _ _ _ _ RT); [rewrite E2; by apply X|]. destruct Hb1; [by left|right; by right].
    + destruct Hb as [Hb|Hb]; [right; rewrite Hu; by apply in_user|left; by right].
Qed.

Lemma wp_alloc_page n s1 a l1 A1 (s1' : kmem) (Q : Z + Z -> kmem -> Prop) :
  enlarged s l A R lo n s1 (a :: l1) A1 -> kinv s1' l1 -> pages s1' = pages s1 -> page a -> lo <= n < hi ->
  (forall s' l' A', enlarged s l A R lo (n + 1) s' l' A' -> Q (inl ((n + 1) * PGSIZE)) s') ->
  (forall s' l' A', kept s l A R s' l' A' -> l1 = [] -> Q (inr 0) s') ->
  wp P (alloc_page (as_dir A) (n * PGSIZE) a) s1' Q.
Proof.
  intros X Hk1 Hp1 Hpa Hn HS HF. unfold alloc_page. assert (Hx := space_take _ _ _ _ _ _ (en_space _ _ _ _ _ _ _ _ _ X) Hk1 Hp1).
  apply wp_bind. eapply wp_zero_page; [done|done|]. apply (space_fill _ _ _ zeroed) in Hx; [|done|apply length_zeroed].
  set (s2 := put s1' a zeroed) in *.
  assert (Hf2 : forall b, b ∈ user_pages (as_user A1) \/ b ∈ R -> pages s2 !! b = pages s1 !! b /\ b <> a).
  { intros b Hb. assert (Hba : b <> a); [|split; [|done]; unfold s2, put; simpl; by rewrite lookup_insert_ne, Hp1].
    intros ->. pose proof (sp_nodup _ _ _ _ _ (en_space _ _ _ _ _ _ _ _ _ X)) as Hnd.
    destruct (owned_facts _ _ _ _ Hnd) as (_ & _ & _ & _ & N5). destruct (N5 a) as [N _]; [by apply elem_of_app|]. apply N. by left. }
  assert (Hes : forall m, ent s2 (as_tabs A1) m = ent s1 (as_tabs A1) m).
  { intros m. apply ent_ext. intros b Hb. assert (Hown : b ∈ owned A1) by (right; apply elem_of_app; by left).
    destruct (owned_not_R _ _ _ _ _ Hx Hown) as [Hb' _]. unfold pg, s2, put. simpl. rewrite lookup_insert_ne, Hp1; [done|].
    intros <-. apply Hb'. by left. }
  assert (Hlt : n < NUSER) by (unfold npages, NUSER, KERNBASE, PGSIZE in *; zlia).
  assert (Hn0 : 0 <= n) by (unfold npages, PGSIZE in *; zlia).
  assert (Hfree : as_user A1 !! n = None) by (rewrite (en_same _ _ _ _ _ _ _ _ _ X) by lia; apply Hno; lia).
  apply wp_bind. rewrite <- (en_dir _ _ _ _ _ _ _ _ _ X).
  eapply wp_map_user; [exact Hx|exact Hpa|lia| |done| |].
  { exact Hfree. }
  - intros s3 l3 A3 G. pose proof (grown_cost _ _ _ _ _ _ _ _ _ _ G Hfree) as Hc. pose proof (en_cost _ _ _ _ _ _ _ _ _ X) as Hc1. simpl in Hc1. simpl. apply wp_ret. rewrite u32_small by (unfold is_u32, NUSER, PGSIZE in *; lia).
    replace (n * PGSIZE + PGSIZE) with ((n + 1) * PGSIZE) by lia. apply (HS s3 l3 A3). split.
    + apply G.
    + by rewrite (gu_dir _ _ _ _ _ _ _ _ _ _ G), (en_dir _ _ _ _ _ _ _ _ _ X).
    + intros m Hm. rewrite (gu_user _ _ _ _ _ _ _ _ _ _ G), lookup_insert_ne by lia. apply X. lia.
    + intros m Hm. rewrite (gu_user _ _ _ _ _ _ _ _ _ _ G). destruct (decide (m = n)) as [->|Hne].
      * exists a. rewrite lookup_insert_eq. split; [done|]. rewrite (gu_frame _ _ _ _ _ _ _ _ _ _ G) by auto.
        unfold s2, put. simpl. apply lookup_insert_eq.
      * destruct (en_new _ _ _ _ _ _ _ _ _ X m ltac:(lia)) as (b & E & Eb). exists b. rewrite lookup_insert_ne by done. split; [done|].
        apply user_in in E. rewrite (gu_frame _ _ _ _ _ _ _ _ _ _ G) by auto. by rewrite (proj1 (Hf2 b (or_introl E))).
    + rewrite (gu_own _ _ _ _ _ _ _ _ _ _ G), Permutation_middle. apply X.
    + lia.
    + intros m Hm. rewrite (gu_kern _ _ _ _ _ _ _ _ _ _ G) by done. rewrite Hes. by apply X.
    + intros b Hb. assert (Hb1 : b ∈ user_pages (as_user A1) \/ b ∈ R).
      { destruct Hb as [Hb|Hb]; [left|by right]. eapply enlarged_user; [exact X| |exact Hb]. intros; apply Hno; lia. }
      rewrite (gu_frame _ _ _ _ _ _ _ _ _ _ G) by auto. rewrite (proj1 (Hf2 b Hb1)). by apply X.
  - intros s3 A3 RT He3 Hl1 _ _. simpl. eapply (wp_alloc_failed n s1 a l1 A1 s2); try done; [intros m _; by rewrite He3, Hes|]. intros s' l' A' Kp. by eapply HF.
Qed.

Lemma wp_alloc_loop fuel : forall n s1 l1 A1 (Q : Z -> kmem -> Prop),
  enlarged s l A R lo n s1 l1 A1 -> lo <= n <= hi -> hi - n < Z.of_nat fuel ->
  (forall s' l' A', enlarged s l A R lo hi s' l' A' -> Q newsz s') ->
  (forall s' l' A', kept s l A R s' l' A' -> Z.of_nat (length l) < 2 * (hi - lo) -> Q 0 s') ->
  wp P (mwhile fuel (alloc_step end_ (as_dir A) oldsz newsz) (n * PGSIZE)) s1 Q.
Proof.
  induction fuel as [|fuel IH]; intros n s1 l1 A1 Q X Hn Hfuel HS HF; [lia|]. cbn [mwhile]. apply wp_bind. unfold alloc_step.
  destruct (decide (n < hi)) as [Hlt|Hge].
  2: { rewrite (proj2 (Z.ltb_ge _ _)) by (unfold npages, PGSIZE in *; zlia). apply wp_ret, wp_ret. eapply HS. by replace hi with n by lia. }
  rewrite (proj2 (Z.ltb_lt _ _)) by (unfold npages, PGSIZE in *; zlia). apply wp_bind. pose proof (en_cost _ _ _ _ _ _ _ _ _ X) as Hc.
  eapply wp_kalloc; [apply X|]. destruct l1 as [|a l1]; intros s2 Hk2 Hp2 _.
  - simpl. apply wp_bind. assert (X2 : enlarged s l A R lo n s2 [] A1).
    { assert (Hpg : forall a, pg s2 a = pg s1 a) by (intros; unfold pg; by rewrite Hp2).
      destruct X. split; try done; [eapply space_ext; [done|done|done|by rewrite Hp2]|by rewrite Hp2| |by rewrite Hp2].
      intros m Hm. rewrite (ent_ext s1) by done. by apply en_kern0. }
    eapply (wp_alloc_undo n); [exact X2|lia|lia|]. intros s' l' A' Kp. apply wp_ret, wp_ret. eapply HF; [exact Kp|simpl in Hc; lia].
  - assert (Hpa : page a) by (pose proof (ki_page _ _ _ (sp_inv _ _ _ _ _ (en_space _ _ _ _ _ _ _ _ _ X))) as HP; by apply Forall_cons in HP as [? _]).
    destruct (page_bounds _ _ Hpa) as [Ha0 _]. rewrite (proj2 (Z.eqb_neq a 0)) by lia.
    eapply (wp_alloc_page n s1 a l1 A1 s2); [exact X|exact Hk2|exact Hp2|exact Hpa|lia| |].
    + intros s' l' A' X'. eapply IH; [exact X'|lia|lia|done|done].
    + intros s' l' A' Kp ->. apply wp_ret. eapply HF; [exact Kp|simpl in Hc; lia].
Qed.
End grow.

Lemma wp_allocuvm s l A R oldsz newsz (Q : Z -> kmem -> Prop) :
  space s l A R -> 0 <= oldsz < KERNBASE -> 0 <= newsz -> (forall m, npages oldsz <= m < npages newsz -> as_user A !! m = None) ->
  (KERNBASE <= newsz -> Q 0 s) -> (newsz < oldsz -> Q oldsz s) ->
  (oldsz <= newsz < KERNBASE -> forall s' l' A', enlarged s l A R (npages oldsz) (npages newsz) s' l' A' -> Q newsz s') ->
  (oldsz <= newsz < KERNBASE -> forall s' l' A', kept s l A R s' l' A' ->
     Z.of_nat (length l) < 2 * (npages newsz - npages oldsz) -> Q 0 s') ->
  wp P (allocuvm end_ (as_dir A) oldsz newsz) s Q.
Proof.
  intros Hs Hold Hnew Hno HK HL HS HF. unfold allocuvm. destruct (KERNBASE <=? newsz) eqn:E1; [apply wp_ret, HK; lia|].
  destruct (newsz <? oldsz) eqn:E2; [apply wp_ret, HL; lia|]. rewrite PGROUNDUP_eq by (unfold KERNBASE, PGSIZE in *; lia). fold (npages oldsz).
  assert (Hr : oldsz <= newsz < KERNBASE) by lia. assert (Hm : npages oldsz <= npages newsz) by (unfold npages, PGSIZE; zlia).
  eapply (wp_alloc_loop s l A R oldsz newsz); [lia|exact Hr|exact Hno|by apply enlarged_refl|lia| |by apply HS|by apply HF].
  unfold npages, PGSIZE in *. zlia.
Qed.
End rules.
End spaces.
