(* ===== verification/VmCopy.v ===== *)
(** * Copying address spaces (vm.c)

    [copyuvm] gives a child its own copy of the parent's memory. *)

From S2P Require Import Prelude Params Bytes Str Kalloc Vm VmTable VmSpace VmGrow.
Import Kalloc.

Section spaces.
Context (end_ : Z) (Hend : KERNBASE < end_).
Context (data : Z) (Hdata : aligned data /\ KERNLINK < data < KERNBASE + PHYSTOP).
Notation page := (page end_).
Notation kinv := (kinv end_).
Notation pgt := (pgt end_).
Notation space := (space end_).
Implicit Types (s : kmem) (l R : list Z) (A B : aspace).

Lemma owned_nodup s l A R : space s l A R -> NoDup ((owned A ++ R) ++ l).
Proof.
  intros Hs. eapply nodup_perm; [|exact (sp_nodup _ _ _ _ _ Hs)]. unfold owned. simpl. by rewrite <- !app_assoc.
Qed.

(** ** [copyuvm] *)

Section copy.
Context s l A R (Hs : space s l A R).

(** [B] has copies of the first [n] pages of [A]. *)
Record copied (n : Z) s1 l1 B : Prop := {
  cp_space : space s1 l1 B (owned A ++ R);
  cp_page m a f : 0 <= m < n -> as_user A !! m = Some (a, f) -> exists b, as_user B !! m = Some (b, f) /\ pages s1 !! b = pages s !! a;
  cp_none m : ~ 0 <= m < n -> as_user B !! m = None;
  cp_kern : kern s1 B (kpte data);
  cp_tabs : tabs_in B (fun i => ktab i \/ exists m, 0 <= m < n /\ i = m / 1024);
  cp_own : owned B ++ l1 ≡ₚ l;
  cp_frame a : a ∈ owned A ++ R -> pages s1 !! a = pages s !! a;
}.

(** The parent in the state of the copy. *)
Lemma copied_parent n s1 l1 B : copied n s1 l1 B -> space s1 l1 A (owned B ++ R).
Proof.
  intros C. eapply space_ext; [exact Hs|apply C| |].
  - rewrite <- app_assoc, (Permutation_app_comm R l1), app_assoc, (cp_own _ _ _ _ C). apply Permutation_app_comm.
  - intros a Ha. apply C, elem_of_app. by left.
Qed.

Lemma flags_P f : 0 <= f -> has f PTE_P = true -> Z.lor f 1 = f.
Proof.
  intros Hf Hh. unfold has, PTE_P in Hh. change 1 with (Z.ones 1) in Hh. rewrite Z.land_ones in Hh by lia. change (2 ^ 1) with 2 in Hh.
  apply Z.bits_inj'. intros k Hk. rewrite Z.lor_spec. destruct (decide (k = 0)) as [->|Hne].
  - rewrite orb_true_r. rewrite Z.bit0_odd, Zodd_mod. symmetry. apply Zeq_is_eq_bool. pose proof (Z.mod_pos_bound f 2). lia.
  - rewrite (Z.bits_above_log2 1), orb_false_r; [done|lia|simpl; lia].
Qed.

(** *** Counting *)

(** The tables for [n] user pages. *)
Definition ntabs (n : Z) : Z := (n + 1023) / 1024.

Lemma present_tab s1 ts m : has (ent s1 ts m) PTE_P = true -> is_Some (ts !! (m / 1024)).
Proof. unfold ent. by destruct (ts !! (m / 1024)). Qed.

Lemma kpte_present i : ktab i -> has (kpte data (i * 1024)) PTE_P = true.
Proof.
  intros Hi. assert (He : forall pa perm, aligned pa -> has (page_entry pa perm) PTE_P = true).
  { intros pa perm Hp. rewrite page_entry_eq, pte_has by done. apply has_P. }
  unfold kpte, ktab, aligned, KERNLINK, KERNBASE, EXTMEM, PHYSTOP, DEVSPACE, PGSIZE in *.
  repeat case_decide; try (apply He; zlia). exfalso. lia.
Qed.

Lemma copied_tabs n s1 l1 B : copied n s1 l1 B -> 0 <= n <= NUSER -> (forall m, 0 <= m < n -> is_Some (as_user A !! m)) ->
  Z.of_nat (size (as_tabs B)) = 64 + ntabs n.
Proof.
  intros C Hn Hall. set (L := seqZ 512 56 ++ seqZ 1016 8 ++ seqZ 0 (ntabs n)).
  assert (Hnt : 0 <= ntabs n <= 512) by (unfold ntabs, NUSER in *; zlia).
  assert (HL : NoDup L).
  { unfold L. rewrite !NoDup_app. split_and!; try apply NoDup_seqZ; intros x Hx%elem_of_seqZ; rewrite ?elem_of_app, !elem_of_seqZ; lia. }
  assert (Hd : dom (as_tabs B) = list_to_set L).
  { apply set_eq. intros i. rewrite elem_of_dom, elem_of_list_to_set. unfold L. rewrite !elem_of_app, !elem_of_seqZ. split.
    - intros [Hk|(m & Hm & ->)]%(cp_tabs _ _ _ _ C); [unfold ktab in Hk; lia|]. right; right. unfold ntabs. zlia.
    - intros Hi. destruct (decide (ktab i)) as [Hk|Hk].
      + replace i with (i * 1024 / 1024) by zlia. apply (present_tab s1). rewrite (cp_kern _ _ _ _ C); [by apply kpte_present|].
        unfold ktab, NUSER in *. lia.
      + assert (Hi' : 0 <= i < ntabs n) by (unfold ktab in Hk; lia). assert (Hin : 0 <= i * 1024 < n) by (unfold ntabs in *; zlia).
        destruct (Hall _ Hin) as [[a f] Ea]. destruct (cp_page _ _ _ _ C _ _ _ Hin Ea) as (b & Eb & _).
        destruct (sp_user _ _ _ _ _ (cp_space _ _ _ _ C) _ _ _ Eb) as (_ & Hpb & Hf & Hh).
        replace i with (i * 1024 / 1024) by zlia. apply (present_tab s1). rewrite (sp_ent _ _ _ _ _ (cp_space _ _ _ _ C)) by lia.
        rewrite Eb. by apply (user_entry_facts end_). }
  rewrite <- size_dom, Hd, size_list_to_set by done. unfold L. rewrite !length_app, !length_seqZ. lia.
Qed.

(** Where the pages are. *)
Lemma copied_count n s1 l1 B : copied n s1 l1 B -> 0 <= n -> (forall m, 0 <= m < n -> is_Some (as_user A !! m)) ->
  Z.of_nat (length l) = Z.of_nat (length l1) + 65 + ntabs n + n.
Proof.
  intros C Hn Hall. assert (HnU : n <= NUSER).
  { destruct (decide (n = 0)) as [->|]; [unfold NUSER; lia|]. destruct (Hall (n - 1) ltac:(lia)) as [[a f] E].
    destruct (sp_user _ _ _ _ _ Hs _ _ _ E) as [? _]. lia. }
  assert (Hu : size (as_user B) = Z.to_nat n).
  { rewrite <- size_dom. replace (dom (as_user B)) with (list_to_set (seqZ 0 n) : gset Z).
    - rewrite size_list_to_set by apply NoDup_seqZ. apply length_seqZ.
    - apply set_eq. intros i. rewrite elem_of_dom, elem_of_list_to_set, elem_of_seqZ. split.
      + intros Hi. destruct (Hall i ltac:(lia)) as [[a f] E]. destruct (cp_page _ _ _ _ C i a f ltac:(lia) E) as (b & -> & _). done.
      + intros [x Hx]. destruct (decide (0 <= i < n)); [lia|]. by rewrite (cp_none _ _ _ _ C) in Hx. }
  pose proof (copied_tabs _ _ _ _ C ltac:(lia) Hall) as Ht.
  pose proof (Permutation_length (cp_own _ _ _ _ C)) as Hl. rewrite length_app, length_owned, Hu in Hl. lia.
Qed.

Section rules.
Context (P : prot kmem).

(** [copyuvm] failed in its loop, at page [n]; a page that was to be mapped is
    lost. *)
Definition copy_failed sz s' : Prop := exists l' lost n s1 B, space s' l' A (lost ++ R) /\ lost ++ l' ≡ₚ l /\
  (forall a, a ∈ owned A ++ R -> pages s' !! a = pages s !! a) /\ 0 <= n < npages sz /\ copied n s1 lost B /\
  (lost = [] \/ (exists a, lost = [a]) /\ as_tabs B !! (n / 1024) = None).

Lemma wp_copy_undo s1 B sz n s0 B0 (lost : list Z) (Q : Z + Z -> kmem -> Prop) :
  space s1 [] B (owned A ++ lost ++ R) -> (lost ++ owned B ≡ₚ l) ->
  (forall a, a ∈ owned A ++ R -> pages s1 !! a = pages s !! a) -> 0 <= n < npages sz -> copied n s0 lost B0 ->
  (lost = [] \/ (exists a, lost = [a]) /\ as_tabs B0 !! (n / 1024) = None) ->
  (forall s', copy_failed sz s' -> Q (inr 0) s') ->
  wp P (freevm end_ (as_dir B) ;;; ret (inr 0)) s1 Q.
Proof.
  intros HB Hown Hf Hn C Hlost HQ. apply wp_bind. eapply wp_freevm; [done|exact HB|]. intros s2 l2 Hk2 Hl2 Hf2. apply wp_ret, HQ.
  assert (Hfr : forall a, a ∈ owned A ++ R -> pages s2 !! a = pages s !! a).
  { intros a Ha. rewrite Hf2; [by apply Hf|]. rewrite !elem_of_app in *. tauto. }
  rewrite app_nil_r in Hl2. exists l2, lost, n, s0, B0. split_and!; [|by rewrite Hl2|done|lia|lia|done|done].
  eapply space_ext; [exact Hs|done| |].
  - rewrite Hl2, <- app_assoc, (Permutation_app_comm R), app_assoc, Hown. apply Permutation_app_comm.
  - intros a Ha. apply Hfr, elem_of_app. by left.
Qed.

Lemma PGSIZE_nat : Z.to_nat PGSIZE = 4096%nat.
Proof. reflexivity. Qed.
Lemma wp_load_page s1 l1 a (Q : list Z -> kmem -> Prop) : kinv s1 l1 -> page a -> Q (pg s1 a) s1 -> wp P (load a 0 (Z.to_nat PGSIZE)) s1 Q.
Proof.
  intros Hk Hp HQ. destruct (kinv_pg _ _ _ _ Hk Hp) as [E Hl]. eapply wp_ret_intro; [|exact HQ]. unfold load. rewrite E, PGSIZE_nat, Hl.
  rewrite Nat.add_0_l, Nat.leb_refl. by rewrite slice_all.
Qed.
Lemma wp_store_page s1 l1 a bs (Q : unit -> kmem -> Prop) : kinv s1 l1 -> page a -> length bs = 4096%nat ->
  Q tt (put s1 a bs) -> wp P (store a 0 bs) s1 Q.
Proof.
  intros Hk Hp Hb HQ. destruct (kinv_pg _ _ _ _ Hk Hp) as [E Hl]. eapply wp_ret_intro; [|exact HQ]. unfold store. rewrite E, Hl, Hb.
  rewrite Nat.add_0_l, Nat.leb_refl. unfold put, splice. do 3 f_equal. rewrite take_0, drop_ge by lia. by rewrite app_nil_r.
Qed.

Lemma copied_step n s1 l1 B s3 l3 mem f a s4 l4 B4 : copied n s1 l1 B -> l1 = mem :: l3 -> 0 <= n -> as_user A !! n = Some (a, f) ->
  grown_user end_ s3 l3 B (owned A ++ R) n mem f s4 l4 B4 -> pages s3 !! mem = pages s !! a ->
  (forall b, b <> mem -> pages s3 !! b = pages s1 !! b) -> mem ∉ owned A ++ R -> mem ∉ owned B ->
  copied (n + 1) s4 l4 B4.
Proof.
  intros C -> Hn0 E G Hm Hf Hma Hmb. split.
  - apply G.
  - intros m a' f' Hm' E'. rewrite (gu_user _ _ _ _ _ _ _ _ _ _ _ G). destruct (decide (m = n)) as [->|Hne].
    + rewrite E in E'. injection E' as <- <-. exists mem. rewrite lookup_insert_eq. split; [done|].
      rewrite (gu_frame _ _ _ _ _ _ _ _ _ _ _ G) by auto. done.
    + rewrite lookup_insert_ne by done. destruct (cp_page _ _ _ _ C m a' f' ltac:(lia) E') as (b & Eb & Hb). exists b. split; [done|].
      apply user_in in Eb. rewrite (gu_frame _ _ _ _ _ _ _ _ _ _ _ G) by auto. rewrite Hf; [done|]. intros ->. apply Hmb. right.
      apply elem_of_app. by right.
  - intros m Hm'. rewrite (gu_user _ _ _ _ _ _ _ _ _ _ _ G), lookup_insert_ne by lia. apply C. lia.
  - intros m Hm'. rewrite (gu_kern _ _ _ _ _ _ _ _ _ _ _ G) by lia. rewrite (ent_ext s1); [by apply C|].
    intros t Ht. unfold pg. rewrite Hf; [done|]. intros ->. apply Hmb. right. apply elem_of_app. by left.
  - intros i [Hi| ->]%(gu_tabs _ _ _ _ _ _ _ _ _ _ _ G); [|right; exists n; lia].
    destruct (cp_tabs _ _ _ _ C i Hi) as [?|(m & Hm' & ->)]; [by left|right; exists m; lia].
  - rewrite (gu_own _ _ _ _ _ _ _ _ _ _ _ G), Permutation_middle. apply C.
  - intros b Hb. rewrite (gu_frame _ _ _ _ _ _ _ _ _ _ _ G) by auto. rewrite Hf by (by intros ->). by apply C.
Qed.

(** The rest of a turn, once the page [a] and the flags [f] are known. *)
Definition copy_page d i a f : M kmem (Z + Z) :=
  mem <- kalloc ;;
  if mem =? 0 then freevm end_ d ;;; ret (inr 0)
  else
    bs <- load a 0 (Z.to_nat PGSIZE) ;;
    store mem 0 bs ;;;
    r <- mappages d i PGSIZE (V2P mem) f ;;
    if r <? 0 then freevm end_ d ;;; ret (inr 0)
    else ret (inl (u32 (i + PGSIZE))).

Lemma wp_copy_page sz n s1 l1 B a f (Q : Z + Z -> kmem -> Prop) :
  copied n s1 l1 B -> 0 <= n < npages sz -> as_user A !! n = Some (a, f) ->
  (forall s' l' B', copied (n + 1) s' l' B' -> as_dir B' = as_dir B -> Q (inl ((n + 1) * PGSIZE)) s') ->
  (forall s', copy_failed sz s' -> Q (inr 0) s') ->
  wp P (copy_page (as_dir B) (n * PGSIZE) a f) s1 Q.
Proof.
  intros C Hn0 E HS HF. destruct (sp_user _ _ _ _ _ Hs n a f E) as (Hn & Hpa & Hf & Hh). unfold copy_page. apply wp_bind.
  eapply wp_kalloc; [apply C|]. destruct l1 as [|mem l1]; intros s2 Hk2 Hp2 _.
  { simpl. eapply (wp_copy_undo s2 B sz n s1 B []); [eapply space_ext; [apply C|done|done|by rewrite Hp2]| | |done|exact C|by left|exact HF].
    - simpl. rewrite <- (cp_own _ _ _ _ C). by rewrite app_nil_r.
    - intros b Hb. rewrite Hp2. by apply C. }
  assert (Hpm : page mem) by (pose proof (ki_page _ _ _ (sp_inv _ _ _ _ _ (cp_space _ _ _ _ C))) as HP; by apply Forall_cons in HP as [? _]).
  destruct (page_bounds _ _ Hpm) as [Hm0 _]. rewrite (proj2 (Z.eqb_neq mem 0)) by lia.
  apply wp_bind. eapply wp_load_page; [done|done|]. destruct (kinv_pg _ _ _ _ Hk2 Hpa) as [Ea Hla].
  apply wp_bind. eapply wp_store_page; [done|done|done|]. set (bs := pg s2 a) in *. set (s3 := put s2 mem bs).
  assert (H3 : space s3 l1 B (mem :: owned A ++ R)) by (apply space_fill; [by eapply space_take; [apply C| |]|done|done]).
  assert (Hfr3 : forall b, b <> mem -> pages s3 !! b = pages s1 !! b) by (intros b Hb; unfold s3, put; simpl; by rewrite lookup_insert_ne, Hp2).
  assert (Hmem : forall b, b ∈ owned A ++ R -> b <> mem).
  { intros b Hb ->. pose proof (sp_nodup _ _ _ _ _ H3) as Hnd. apply NoDup_cons in Hnd as [_ Hnd]. apply NoDup_app in Hnd as (_ & _ & Hnd).
    apply NoDup_app in Hnd as (Hnd & _ & _). apply NoDup_app in Hnd as (_ & _ & Hnd). apply NoDup_cons in Hnd as [Hn' _]. done. }
  assert (Hbs : Some bs = pages s !! a).
  { rewrite <- (cp_frame _ _ _ _ C); [by rewrite <- Hp2|]. rewrite elem_of_app. left. right. apply elem_of_app. right. by eapply user_in. }
  assert (Hm3 : pages s3 !! mem = Some bs) by (unfold s3, put; simpl; apply lookup_insert_eq). rewrite Hbs in Hm3.
  assert (HmB : mem ∉ owned B) by (intros Hin; destruct (owned_not_R _ _ _ _ _ _ H3 Hin) as [Hx _]; apply Hx; by left).
  clearbody s3 bs. apply wp_bind.
  eapply wp_map_user; [exact H3|exact Hpm|exact Hn|apply C; lia|exact Hf| |].
  - intros s4 l4 B4 G. simpl. apply wp_ret. rewrite u32_small by (unfold is_u32, NUSER, PGSIZE in *; lia).
    replace (n * PGSIZE + PGSIZE) with ((n + 1) * PGSIZE) by lia. rewrite (flags_P f) in G by (done || lia).
    apply (HS s4 l4 B4); [|apply G]. eapply (copied_step n s1 (mem :: l1) B s3 l1 mem f a); try done; [lia|]. intros Hin. by apply (Hmem mem).
  - intros s4 B4 RT _ -> _ Hnone. simpl. rewrite <- (rt_dir _ _ _ _ _ _ _ _ RT).
    eapply (wp_copy_undo s4 B4 sz n s1 B [mem]); [eapply space_ext; [apply RT|apply RT| |done]| | |done|exact C| |exact HF].
    + rewrite !app_nil_r. symmetry. apply (Permutation_middle (owned A) R mem).
    + simpl. pose proof (rt_own _ _ _ _ _ _ _ _ RT) as Ho. rewrite !app_nil_r in Ho. rewrite Ho, <- (cp_own _ _ _ _ C). by rewrite <- Permutation_middle, app_nil_r.
    + intros b Hb. rewrite (rt_frame _ _ _ _ _ _ _ _ RT) by (right; by right). rewrite Hfr3 by auto. by apply C.
    + right. split; [by exists mem|done].
Qed.

Lemma wp_copy_step n s1 l1 B sz (Q : Z + Z -> kmem -> Prop) :
  copied n s1 l1 B -> 0 <= n -> n * PGSIZE < sz -> is_Some (as_user A !! n) ->
  (forall s' l' B', copied (n + 1) s' l' B' -> as_dir B' = as_dir B -> Q (inl ((n + 1) * PGSIZE)) s') ->
  (forall s', copy_failed sz s' -> Q (inr 0) s') ->
  wp P (copy_step end_ (as_dir A) (as_dir B) sz (n * PGSIZE)) s1 Q.
Proof.
  intros C Hn0 Hlt [[a f] E] HS HF. unfold copy_step. rewrite (proj2 (Z.ltb_lt _ _)) by done. apply wp_bind.
  assert (HA := copied_parent _ _ _ _ C). destruct (sp_user _ _ _ _ _ HA n a f E) as (Hn & Hpa & Hf & Hh).
  destruct (user_entry_facts _ a f Hpa Hf Hh) as (_ & H1 & H2 & _ & H3).
  assert (Hent := sp_ent _ _ _ _ _ HA n Hn). rewrite E in Hent. simpl in Hent. unfold ent in Hent.
  eapply wp_walkpgdir; [apply HA|apply HA|exact (sp_nodup _ _ _ _ _ HA)|unfold is_u32, NUSER, PGSIZE in *; lia|..].
  all: replace (n * PGSIZE / PGSIZE) with n by (unfold PGSIZE; zlia).
  - intros t Ht Hp. rewrite Ht in Hent. apply wp_bind. eapply wp_get_pte; [apply HA|done|]. rewrite Hent, H1, H2, H3. simpl.
    eapply (wp_copy_page sz n); [exact C|unfold npages, PGSIZE in *; zlia|exact E|done|done].
  - intros Hnone. rewrite Hnone in Hent. rewrite <- Hent in H1. done.
  - done.
  - done.
Qed.

Lemma wp_copy_loop sz fuel : forall n s1 l1 B (Q : Z -> kmem -> Prop),
  copied n s1 l1 B -> 0 <= n <= npages sz -> npages sz - n < Z.of_nat fuel -> (forall m, 0 <= m < npages sz -> is_Some (as_user A !! m)) ->
  (forall s' l' B', copied (npages sz) s' l' B' -> Q (as_dir B') s') ->
  (forall s', copy_failed sz s' -> Q 0 s') ->
  wp P (mwhile fuel (copy_step end_ (as_dir A) (as_dir B) sz) (n * PGSIZE)) s1 Q.
Proof.
  induction fuel as [|fuel IH]; intros n s1 l1 B Q C Hn Hfuel Hall HS HF; [lia|]. cbn [mwhile]. apply wp_bind.
  destruct (decide (n < npages sz)) as [Hlt|Hge].
  2: { unfold copy_step. rewrite (proj2 (Z.ltb_ge _ _)) by (unfold npages, PGSIZE in *; zlia). apply wp_ret, wp_ret. eapply HS.
       by replace (npages sz) with n by lia. }
  eapply wp_copy_step; [exact C|lia|unfold npages, PGSIZE in *; zlia|apply Hall; lia| |].
  - intros s' l' B' C' Hd. rewrite <- Hd. eapply IH; [exact C'|lia|lia|done|done|done].
  - intros s' Hf. by apply wp_ret, HF.
Qed.
End rules.
End copy.

(** The outcome of [copyuvm], which neither panics nor waits. *)
Definition copy_done s l A R sz r s' : Prop :=
  (r <> 0 /\ exists l' B, r = as_dir B /\ copied s l A R (npages sz) s' l' B) \/
  (r = 0 /\ (copy_failed s l A R sz s' \/ exists l', space s' l' A R /\ l' ≡ₚ l /\ (length l <= 64)%nat /\
     forall a, a ∈ owned A ++ R -> pages s' !! a = pages s !! a)).

Lemma copyuvm_done s l A R sz : space s l A R -> 0 <= sz -> (forall n, 0 <= n < npages sz -> is_Some (as_user A !! n)) ->
  exists r s', copyuvm end_ data (as_dir A) sz s = Ret r s' /\ copy_done s l A R sz r s'.
Proof.
  intros Hs Hsz Hall. apply wp_strict. unfold copyuvm. apply wp_bind.
  eapply (wp_setupkvm end_ Hend _ data Hdata s l (owned A ++ R)); [apply Hs|exact (owned_nodup _ _ _ _ Hs)| |].
  - intros s1 l1 B HB Hu Hk HT Hown Hfree Hf. assert (HpB := pt_dir _ _ _ _ (sp_pgt _ _ _ _ _ HB)).
    destruct (page_bounds _ _ HpB) as [HB0 _]. rewrite (proj2 (Z.eqb_neq (as_dir B) 0)) by lia. change 0 with (0 * PGSIZE) at 1.
    eapply (wp_copy_loop s l A R Hs); [|unfold npages, PGSIZE; zlia|unfold npages, PGSIZE; zlia|done| |].
    + split; try done; [lia| |intros i Hi; left; by apply HT]. intros m _. by rewrite Hu, lookup_empty.
    + intros s' l' B' C. left. assert (HpB' := pt_dir _ _ _ _ (sp_pgt _ _ _ _ _ (cp_space _ _ _ _ _ _ _ _ C))).
      destruct (page_bounds _ _ HpB'). split; [lia|]. by exists l', B'.
    + intros s' Hcf. right. split; [done|by left].
  - intros s1 l1 Hk1 Hl1 Hf1 H64. simpl. apply wp_ret. right. split; [done|]. right. exists l1. split_and!; try done.
    eapply space_ext; [exact Hs|done|simpl; by rewrite Hl1|]. intros a Ha. apply Hf1, elem_of_app. by left.
Qed.

Lemma copy_done_frame s l A R sz r s' a : copy_done s l A R sz r s' -> a ∈ owned A ++ R -> pages s' !! a = pages s !! a.
Proof. intros [(_ & l' & B & _ & C)|[_ [(l' & lost & n & s1 & B & _ & _ & F & _)|(l' & _ & _ & _ & F)]]]; [apply C|apply F|apply F]. Qed.

(** The pages that a copy of [sz] bytes takes: the directory, 64 tables for the
    kernel's part, the pages and their tables. *)
Definition copy_cost (sz : Z) : Z := 65 + ntabs (npages sz) + npages sz.

Lemma copy_done_cost s l A R sz r s' : space s l A R -> 0 <= sz -> (forall n, 0 <= n < npages sz -> is_Some (as_user A !! n)) ->
  copy_done s l A R sz r s' -> r <> 0 <-> copy_cost sz <= Z.of_nat (length l).
Proof.
  intros Hs Hsz Hall D. assert (Hnp : 0 <= npages sz) by (unfold npages, PGSIZE; zlia). unfold copy_cost.
  destruct D as [(Hr & l' & B & _ & C)|[-> D]].
  - split; [intros _|done]. pose proof (copied_count s l A R Hs _ _ _ _ C Hnp Hall). lia.
  - split; [done|]. intros Hle. exfalso. destruct D as [(l' & lost & n & s1 & B & _ & _ & _ & Hn & C & Hlost)|(l' & _ & _ & H64 & _)].
    + pose proof (copied_count s l A R Hs _ _ _ _ C ltac:(lia) ltac:(intros; apply Hall; lia)) as Hc.
      destruct Hlost as [->|[[a ->] Hnone]]; simpl in Hc; [unfold ntabs in *; zlia|].
      assert (Hn1 : n mod 1024 = 0); [|unfold ntabs in *; zlia]. destruct (decide (n mod 1024 = 0)) as [|Hne]; [done|].
      pose proof (Hall (n - 1) ltac:(zlia)) as [[b g] Eb]. destruct (cp_page _ _ _ _ _ _ _ _ C (n - 1) b g ltac:(zlia) Eb) as (x & Ex & _).
      destruct (sp_user _ _ _ _ _ (cp_space _ _ _ _ _ _ _ _ C) _ _ _ Ex) as (Hx & Hpx & Hfx & Hhx).
      pose proof (sp_ent _ _ _ _ _ (cp_space _ _ _ _ _ _ _ _ C) (n - 1) Hx) as He. rewrite Ex in He. simpl in He.
      assert (Hsome : is_Some (as_tabs B !! ((n - 1) / 1024))).
      { apply (present_tab s1). rewrite He. by apply (user_entry_facts end_). }
      replace ((n - 1) / 1024) with (n / 1024) in Hsome by zlia. rewrite Hnone in Hsome. by destruct Hsome.
    + unfold ntabs in *. zlia.
Qed.

(** C7: [copyuvm] gives the child of [fork] its own memory.  It succeeds exactly
    when the allocator has the pages for the copy.  On success the new page table
    maps the same pages with the same flags to new pages with the same bytes, and
    the kernel's part; no page belongs to two address spaces.  Either way the
    parent's pages, its page table and those of others are untouched; on failure
    all pages it took are free again but at most one. *)
Theorem copyuvm_correct s l A R sz :
  space s l A R -> 0 <= sz -> (forall n, 0 <= n < npages sz -> is_Some (as_user A !! n)) ->
  exists r s', copyuvm end_ data (as_dir A) sz s = Ret r s' /\
    (r <> 0 <-> copy_cost sz <= Z.of_nat (length l)) /\
    (forall a, a ∈ owned A ++ R -> pages s' !! a = pages s !! a) /\
    (r <> 0 -> exists l' B, r = as_dir B /\ space s' l' A (owned B ++ R) /\ space s' l' B (owned A ++ R) /\
       (forall n a f, 0 <= n < npages sz -> as_user A !! n = Some (a, f) ->
          exists b, as_user B !! n = Some (b, f) /\ pages s' !! b = pages s !! a) /\
       (forall n, ~ 0 <= n < npages sz -> as_user B !! n = None) /\ kern s' B (kpte data) /\ owned B ++ l' ≡ₚ l) /\
    (r = 0 -> exists l' lost, space s' l' A (lost ++ R) /\ lost ++ l' ≡ₚ l /\ (length lost <= 1)%nat).
Proof.
  intros Hs Hsz Hall. destruct (copyuvm_done s l A R sz Hs Hsz Hall) as (r & s' & E & D). exists r, s'.
  split; [done|]. split; [by eapply copy_done_cost|]. split; [by intros a; eapply copy_done_frame|].
  destruct D as [(Hr & l' & B & -> & C)|[-> [(l' & lost & n & s1 & B & F1 & F2 & _ & _ & _ & F3)|(l' & F1 & F2 & _)]]].
  - split; [|done]. intros _. exists l', B. split_and!; try done; try apply C. by eapply copied_parent.
  - split; [done|]. intros _. exists l', lost. split_and!; [done|done|]. destruct F3 as [->|[[a ->] _]]; simpl; lia.
  - split; [done|]. intros _. exists l', []. split_and!; [done|done|simpl; lia].
Qed.

(** C37: with 66 free pages - enough for the page table of the kernel's part and
    one page, but not for the table to map that page - [copyuvm] returns 0 and a
    page is lost: it is neither free nor in any address space. *)
Theorem copyuvm_leak s l A R sz :
  space s l A R -> 0 < sz -> (forall n, 0 <= n < npages sz -> is_Some (as_user A !! n)) -> length l = 66%nat ->
  exists s' l' a, copyuvm end_ data (as_dir A) sz s = Ret 0 s' /\ kinv s' l' /\ a ∈ l /\ a ∉ l' /\ a ∉ owned A ++ R /\ length l' = 65%nat.
Proof.
  intros Hs Hsz Hall Hlen. destruct (copyuvm_done s l A R sz Hs ltac:(lia) Hall) as (r & s' & E & D).
  assert (Hc := copy_done_cost s l A R sz r s' Hs ltac:(lia) Hall D). assert (Hnp : 1 <= npages sz) by (unfold npages, PGSIZE; zlia).
  destruct D as [(Hr & _)|[-> D]]; [apply Hc in Hr; unfold copy_cost, ntabs in *; zlia|].
  destruct D as [(l' & lost & n & s1 & B & F1 & F2 & _ & Hn & C & Hlost)|(l' & _ & _ & ? & _)]; [|lia].
  pose proof (copied_count s l A R Hs _ _ _ _ C ltac:(lia) ltac:(intros; apply Hall; lia)) as Hcnt.
  destruct Hlost as [->|[[a ->] _]]; [simpl in Hcnt; unfold ntabs in *; zlia|]. exists s', l', a.
  pose proof (owned_nodup _ _ _ _ F1) as Hnd. pose proof (Permutation_length F2) as Hl. simpl in Hl.
  split_and!; [done|apply F1|by rewrite <- F2; left| | |lia].
  - by eapply R_not_free.
  - intros Ha. assert (Hnd2 : NoDup (a :: (owned A ++ R) ++ l')).
    { eapply nodup_perm; [|exact Hnd]. rewrite <- !app_assoc. apply (Permutation_middle (owned A) (R ++ l') a). }
    apply NoDup_cons in Hnd2 as [Hx _]. apply Hx, elem_of_app. by left.
Qed.
End spaces.
