(* ===== verification/VmUser.v ===== *)
(** * User memory (vm.c)

    The bytes at the user addresses of a page table: [copyout], and the life of
    an address space from [setupkvm] to [freevm]. *)

From S2P Require Import Prelude Params Bytes Str Kalloc Vm VmTable VmSpace VmGrow.
Import Kalloc.

Section spaces.
Context (end_ : Z) (Hend : KERNBASE < end_).
Notation page := (page end_).
Notation kinv := (kinv end_).
Notation pgt := (pgt end_).
Notation space := (space end_).
Implicit Types (s : kmem) (l R : list Z) (A B : aspace).

(** The byte at a user address. *)
Definition ubyte s A (x : Z) : option Z :=
  match as_user A !! (x / PGSIZE) with Some (a, _) => pg s a !! Z.to_nat (x mod PGSIZE) | None => None end.

(** [x] may be written with [copyout]. *)
Definition writable A (x : Z) : Prop := exists a f, as_user A !! (x / PGSIZE) = Some (a, f) /\ has f PTE_U = true.

(** ** [copyout] *)

Lemma space_user_put s l A R n a f d : space s l A R -> as_user A !! n = Some (a, f) -> length d = 4096%nat -> space (put s a d) l A R.
Proof.
  intros Hs E Hd. destruct (space_facts _ _ _ _ _ Hs) as [_ Hdis]. destruct (Hdis n a f E) as (D1 & D2 & D3 & D4).
  destruct (sp_user _ _ _ _ _ Hs n a f E) as (_ & Hp & _). split; [|apply (pgt_ext _ s)|..|apply Hs|apply Hs].
  - apply kinv_put; [apply Hs|done..].
  - by apply pg_put_ne.
  - apply Hs.
  - intros m Hm. rewrite (ent_ext s); [by apply Hs|]. intros t Ht. apply pg_put_ne. by intros ->.
Qed.

Lemma ubyte_put s l A R n a f o bs : space s l A R -> as_user A !! n = Some (a, f) -> (o + length bs <= 4096)%nat ->
  forall x, ubyte (put s a (splice o bs (pg s a))) A x =
    if decide (n * PGSIZE + Z.of_nat o <= x < n * PGSIZE + Z.of_nat (o + length bs)) then bs !! Z.to_nat (x - (n * PGSIZE + Z.of_nat o))
    else ubyte s A x.
Proof.
  intros Hs E Ho x. destruct (sp_user _ _ _ _ _ Hs n a f E) as (Hn & Hp & _). destruct (kinv_pg _ _ _ _ (sp_inv _ _ _ _ _ Hs) Hp) as [_ Hl].
  unfold ubyte. destruct (decide (x / PGSIZE = n)) as [Hx|Hx].
  - rewrite Hx, E, pg_put, lookup_splice by (rewrite Hl; done). case_decide as H1.
    + rewrite decide_True by (unfold PGSIZE in *; zlia). f_equal. unfold PGSIZE in *. zlia.
    + rewrite decide_False by (unfold PGSIZE in *; zlia). done.
  - rewrite decide_False by (unfold PGSIZE in *; zlia). destruct (as_user A !! (x / PGSIZE)) as [[b g]|] eqn:Eb; [|done].
    rewrite pg_put_ne; [done|]. intros ->. apply Hx. destruct (space_facts _ _ _ _ _ Hs) as [Hu _]. by eapply user_inj.
Qed.

Section rules.
Context (P : prot kmem).

Lemma wp_uva2ka s l A R n a f (Q : Z -> kmem -> Prop) : space s l A R -> as_user A !! n = Some (a, f) ->
  Q (if has f PTE_U then a else 0) s -> wp P (uva2ka (as_dir A) (n * PGSIZE)) s Q.
Proof.
  intros Hs E HQ. unfold uva2ka. apply wp_bind. destruct (sp_user _ _ _ _ _ Hs n a f E) as (Hn & Hp & Hf & Hh).
  destruct (user_entry_facts _ a f Hp Hf Hh) as (_ & H1 & H2 & _). destruct (page_V2P _ a Hp) as (_ & _ & Hal & _).
  assert (Hent := sp_ent _ _ _ _ _ Hs n Hn). rewrite E in Hent. simpl in Hent. unfold ent in Hent.
  eapply wp_walkpgdir; [apply Hs|apply Hs|exact (sp_nodup _ _ _ _ _ Hs)|unfold is_u32, NUSER, PGSIZE in *; lia|..].
  all: replace (n * PGSIZE / PGSIZE) with n by (unfold PGSIZE; zlia).
  - intros t Ht Hpt. rewrite Ht in Hent. apply wp_bind. eapply wp_get_pte; [apply Hs|done|]. rewrite Hent, H1, H2.
    rewrite pte_has by done. simpl. apply wp_ret. by destruct (has f PTE_U).
  - intros Hnone. rewrite Hnone in Hent. rewrite <- Hent in H1. done.
  - done.
  - done.
Qed.

Lemma wp_store s l a o bs (Q : unit -> kmem -> Prop) : kinv s l -> page a -> (o + length bs <= 4096)%nat ->
  Q tt (put s a (splice o bs (pg s a))) -> wp P (store a o bs) s Q.
Proof.
  intros Hk Hp Hb HQ. destruct (kinv_pg _ _ _ _ Hk Hp) as [E Hl]. eapply wp_ret_intro; [|exact HQ]. unfold store. rewrite E, Hl.
  by rewrite (proj2 (Nat.leb_le _ _)) by done.
Qed.

(** The bytes [buf] are at [va]; nothing else has changed. *)
Record put_user s l A R va buf s' : Prop := {
  pu_space : space s' l A R;
  pu_bytes x : ubyte s' A x = if decide (va <= x < va + Z.of_nat (length buf)) then buf !! Z.to_nat (x - va) else ubyte s A x;
  pu_frame a : a ∉ user_pages (as_user A) -> pages s' !! a = pages s !! a;
}.

(** A store to the page of a user address. *)
Lemma put_user_store s l A R n a f o bs : space s l A R -> as_user A !! n = Some (a, f) -> (o + length bs <= 4096)%nat ->
  put_user s l A R (n * PGSIZE + Z.of_nat o) bs (put s a (splice o bs (pg s a))).
Proof.
  intros Hs E Hfit. destruct (sp_user _ _ _ _ _ Hs _ a f E) as (Hn & Hp & _). split.
  - eapply space_user_put; [exact Hs|exact E|]. rewrite length_splice; [by apply (kinv_pg _ _ _ _ (sp_inv _ _ _ _ _ Hs))|].
    rewrite (proj2 (kinv_pg _ _ _ _ (sp_inv _ _ _ _ _ Hs) Hp)). exact Hfit.
  - intros x. rewrite (ubyte_put _ _ _ _ _ _ _ _ _ Hs E Hfit).
    replace (n * PGSIZE + Z.of_nat o + Z.of_nat (length bs)) with (n * PGSIZE + Z.of_nat (o + length bs)) by lia. done.
  - intros b Hb'. unfold put. simpl. rewrite lookup_insert_ne; [done|]. intros <-. apply Hb'. by eapply user_in.
Qed.

Lemma wp_copyout_step s l A R va buf (Q : Z * list Z + Z -> kmem -> Prop) : let n := Nat.min (Z.to_nat (PGSIZE - va mod PGSIZE)) (length buf) in
  space s l A R -> 0 <= va < KERNBASE -> (0 < length buf)%nat -> writable A va ->
  (forall s', put_user s l A R va (take n buf) s' -> Q (inl (u32 (va - va mod PGSIZE + PGSIZE), drop n buf)) s') ->
  wp P (copyout_step (as_dir A) (va, buf)) s Q.
Proof.
  intros n Hs Hva Hb (a & f & E & Hf) HQ. unfold copyout_step. rewrite (proj2 (Z.ltb_lt _ _)) by lia.
  rewrite PGROUNDDOWN_eq by (unfold is_u32, KERNBASE in *; lia). apply wp_bind. eapply wp_uva2ka; [exact Hs|exact E|]. rewrite Hf.
  destruct (sp_user _ _ _ _ _ Hs _ a f E) as (Hn & Hp & _). destruct (page_bounds _ _ Hp) as [Ha0 _].
  rewrite (proj2 (Z.eqb_neq a 0)) by lia. replace (va - va / PGSIZE * PGSIZE) with (va mod PGSIZE) by (unfold PGSIZE; zlia).
  replace (va / PGSIZE * PGSIZE) with (va - va mod PGSIZE) by (unfold PGSIZE; zlia).
  replace (Z.to_nat (Z.min (PGSIZE - va mod PGSIZE) (Z.of_nat (length buf)))) with n by (unfold n, PGSIZE; zlia).
  assert (Hfit : (Z.to_nat (va mod PGSIZE) + length (take n buf) <= 4096)%nat) by (rewrite length_take; unfold n, PGSIZE; zlia).
  apply wp_bind. eapply wp_store; [apply Hs|done|exact Hfit|]. apply wp_ret, HQ.
  pose proof (put_user_store _ _ _ _ _ _ _ _ _ Hs E Hfit) as X.
  by replace (va / PGSIZE * PGSIZE + Z.of_nat (Z.to_nat (va mod PGSIZE))) with va in X by (unfold PGSIZE; zlia).
Qed.

Lemma put_user_nil s l A R va : space s l A R -> put_user s l A R va [] s.
Proof. intros Hs. split; [done| |done]. intros x. rewrite decide_False; [done|]. simpl. lia. Qed.

Lemma put_user_app s l A R va b1 s1 b2 s2 : put_user s l A R va b1 s1 -> put_user s1 l A R (va + Z.of_nat (length b1)) b2 s2 ->
  put_user s l A R va (b1 ++ b2) s2.
Proof.
  intros X Y. split; [apply Y| |].
  - intros x. rewrite (pu_bytes _ _ _ _ _ _ _ Y), (pu_bytes _ _ _ _ _ _ _ X), length_app.
    destruct (decide (va + Z.of_nat (length b1) <= x < va + Z.of_nat (length b1) + Z.of_nat (length b2))) as [H1|H1].
    + rewrite decide_True by lia. rewrite lookup_app_r by lia. f_equal. lia.
    + destruct (decide (va <= x < va + Z.of_nat (length b1))) as [H2|H2].
      * rewrite decide_True by lia. by rewrite lookup_app_l by lia.
      * by rewrite decide_False by lia.
  - intros a Ha. by rewrite (pu_frame _ _ _ _ _ _ _ Y a Ha), (pu_frame _ _ _ _ _ _ _ X a Ha).
Qed.

Lemma wp_copyout_loop l A R fuel : forall s va buf (Q : Z -> kmem -> Prop),
  space s l A R -> 0 <= va -> va + Z.of_nat (length buf) <= KERNBASE -> (length buf < fuel)%nat ->
  (forall x, va <= x < va + Z.of_nat (length buf) -> writable A x) ->
  (forall s', put_user s l A R va buf s' -> Q 0 s') ->
  wp P (mwhile fuel (copyout_step (as_dir A)) (va, buf)) s Q.
Proof.
  induction fuel as [|fuel IH]; intros s va buf Q Hs Hva Hend' Hfuel Hw HQ; [lia|]. simpl. apply wp_bind.
  destruct buf as [|b buf]; [simpl; apply wp_ret; simpl; apply wp_ret, HQ; by apply put_user_nil|]. set (bb := b :: buf) in *.
  assert (Hlen : (0 < length bb)%nat) by (simpl; lia). eapply wp_copyout_step; [exact Hs|lia|done|apply Hw; lia|]. intros s1 X.
  set (n := Nat.min (Z.to_nat (PGSIZE - va mod PGSIZE)) (length bb)) in *. assert (Hn : (0 < n <= length bb)%nat) by (unfold n, PGSIZE; zlia).
  assert (Hl1 : length (take n bb) = n) by (rewrite length_take; lia). assert (Hl2 : length (drop n bb) = (length bb - n)%nat) by apply length_drop.
  destruct (decide (n = length bb)) as [E|E].
  - rewrite (drop_ge bb n) in * by lia. rewrite (take_ge bb n) in X by lia. destruct fuel; [lia|]. simpl. apply wp_ret. by apply wp_ret, HQ.
  - assert (Ev : va - va mod PGSIZE + PGSIZE = va + Z.of_nat n) by (unfold n, PGSIZE in *; zlia). rewrite Ev.
    rewrite u32_small by (unfold is_u32, KERNBASE in *; lia). apply IH; [apply X|lia|lia|lia|intros x Hx; apply Hw; lia|].
    intros s2 Y. apply HQ. rewrite <- (take_drop n bb). eapply put_user_app; [exact X|]. by rewrite Hl1.
Qed.
(** [copyout] to mapped addresses: it stops with -1 at the first page that the
    user may not access. *)
Definition mapped A (x : Z) : Prop := is_Some (as_user A !! (x / PGSIZE)).
Record user_only s l A R s' : Prop := {
  uo_space : space s' l A R;
  uo_frame a : a ∉ user_pages (as_user A) -> pages s' !! a = pages s !! a;
}.

Lemma wp_copyout_refused s l A R va buf (Q : Z * list Z + Z -> kmem -> Prop) :
  space s l A R -> 0 <= va < KERNBASE -> (0 < length buf)%nat -> mapped A va -> ~ writable A va -> Q (inr (-1)) s ->
  wp P (copyout_step (as_dir A) (va, buf)) s Q.
Proof.
  intros Hs Hva Hb ([a f] & E) Hw HQ. unfold copyout_step. rewrite (proj2 (Z.ltb_lt _ _)) by lia.
  rewrite PGROUNDDOWN_eq by (unfold is_u32, KERNBASE in *; lia). apply wp_bind. eapply wp_uva2ka; [exact Hs|exact E|].
  destruct (has f PTE_U) eqn:Hf; [exfalso; apply Hw; by exists a, f|]. by apply wp_ret.
Qed.

Lemma wp_copyout_some l A R fuel : forall s va buf (Q : Z -> kmem -> Prop),
  space s l A R -> 0 <= va -> va + Z.of_nat (length buf) <= KERNBASE -> (length buf < fuel)%nat ->
  (forall x, va <= x < va + Z.of_nat (length buf) -> mapped A x) ->
  (exists x, va <= x < va + Z.of_nat (length buf) /\ ~ writable A x) ->
  (forall s', user_only s l A R s' -> Q (-1) s') ->
  wp P (mwhile fuel (copyout_step (as_dir A)) (va, buf)) s Q.
Proof.
  induction fuel as [|fuel IH]; intros s va buf Q Hs Hva Hend' Hfuel Hm (x & Hx & Hnw) HQ; [lia|]. cbn [mwhile]. apply wp_bind.
  assert (Hlen : (0 < length buf)%nat) by lia. destruct (decide (x / PGSIZE = va / PGSIZE)) as [E|E].
  - eapply wp_copyout_refused; [exact Hs|lia|done|apply Hm; lia|unfold writable in *; by rewrite <- E|]. apply wp_ret, HQ. by split.
  - destruct (Hm va) as ([a f] & Ea); [lia|]. destruct (has f PTE_U) eqn:Hf.
    + eapply wp_copyout_step; [exact Hs|lia|done|by exists a, f|]. intros s1 X.
      set (n := Nat.min (Z.to_nat (PGSIZE - va mod PGSIZE)) (length buf)) in *. assert (Hn : (0 < n <= length buf)%nat) by (unfold n, PGSIZE; zlia).
      assert (Hl2 : length (drop n buf) = (length buf - n)%nat) by apply length_drop.
      assert (Ev : va - va mod PGSIZE + PGSIZE = va + Z.of_nat n) by (unfold n, PGSIZE in *; zlia). rewrite Ev.
      rewrite u32_small by (unfold is_u32, KERNBASE in *; lia). apply IH; [apply X|lia|lia|lia|intros y Hy; apply Hm; lia| |].
      * exists x. split; [|done]. rewrite Hl2. unfold PGSIZE in *. zlia.
      * intros s2 Y. apply HQ. split; [apply Y|]. intros b Hb. by rewrite (uo_frame _ _ _ _ _ Y b Hb), (pu_frame _ _ _ _ _ _ _ X b Hb).
    + eapply wp_copyout_refused; [exact Hs|lia|done|by exists (a, f)| |apply wp_ret, HQ; by split].
      intros (b & g & Eb & Hg). rewrite Ea in Eb. injection Eb as <- <-. congruence.
Qed.
End rules.

(** C36: [copyout] to user addresses that are mapped for the user returns 0 and
    puts the bytes there, across pages wherever these are in memory; no other
    byte of the address space changes, nor does its page table or any page that
    is not one of its user pages. *)
Theorem copyout_correct s l A R va p : space s l A R -> 0 <= va -> va + Z.of_nat (length p) <= KERNBASE ->
  (forall x, va <= x < va + Z.of_nat (length p) -> writable A x) ->
  exists s', copyout (as_dir A) va p s = Ret 0 s' /\ space s' l A R /\
    (forall x, ubyte s' A x = if decide (va <= x < va + Z.of_nat (length p)) then p !! Z.to_nat (x - va) else ubyte s A x) /\
    (forall a, a ∉ user_pages (as_user A) -> pages s' !! a = pages s !! a).
Proof.
  intros Hs Hva Hl Hw.
  assert (W : wp strict (copyout (as_dir A) va p) s (fun r s' => r = 0 /\ put_user s l A R va p s')).
  { eapply wp_copyout_loop; [exact Hs|done|done|lia|done|done]. }
  apply wp_strict in W as (r & s' & E & -> & X). exists s'. split_and!; [done|apply X..].
Qed.

(** ** The guard page *)

Lemma clear_flag p f : is_u32 (Z.lor p f) -> Z.land p PTE_U = 0 -> Z.land (Z.lor p f) (u32 (Z.lnot PTE_U)) = Z.lor p (Z.ldiff f PTE_U).
Proof.
  intros Hu Hp. change (u32 (Z.lnot PTE_U)) with (Z.ldiff (Z.ones 32) PTE_U).
  replace (Z.land (Z.lor p f) (Z.ldiff (Z.ones 32) PTE_U)) with (Z.ldiff (Z.land (Z.lor p f) (Z.ones 32)) PTE_U).
  2: { apply Z.bits_inj'. intros n _. rewrite Z.land_spec, !Z.ldiff_spec, Z.land_spec. by rewrite andb_assoc. }
  rewrite Z.land_ones by lia. rewrite Z.mod_small by (unfold is_u32 in Hu; lia). apply Z.bits_inj'. intros n _.
  assert (Hb := f_equal (fun z => Z.testbit z n) Hp). simpl in Hb. rewrite Z.land_spec, Z.bits_0 in Hb.
  rewrite Z.ldiff_spec, !Z.lor_spec, Z.ldiff_spec. by destruct (Z.testbit p n), (Z.testbit f n), (Z.testbit PTE_U n).
Qed.
Lemma flag_cleared f : 0 <= f < 4096 -> has f PTE_P = true ->
  0 <= Z.ldiff f PTE_U < 4096 /\ has (Z.ldiff f PTE_U) PTE_P = true /\ has (Z.ldiff f PTE_U) PTE_U = false.
Proof.
  intros Hf Hh. assert (H1 : Z.land (Z.ldiff f PTE_U) PTE_P = Z.land f PTE_P).
  { apply Z.bits_inj'. intros n _. rewrite !Z.land_spec, Z.ldiff_spec.
    destruct (Z.testbit PTE_P n) eqn:E; [|by rewrite !andb_false_r]. destruct (Z.testbit PTE_U n) eqn:E2; [|by rewrite andb_true_r].
    assert (Hx := f_equal (fun z => Z.testbit z n) (eq_refl : Z.land PTE_P PTE_U = 0)). simpl in Hx. by rewrite Z.land_spec, E, E2, Z.bits_0 in Hx. }
  split_and!; [apply Z.ldiff_nonneg; left; lia| |unfold has in *; by rewrite H1|].
  2: { unfold has. replace (Z.land (Z.ldiff f PTE_U) PTE_U) with 0; [done|]. apply Z.bits_inj'. intros n _.
       rewrite Z.bits_0, Z.land_spec, Z.ldiff_spec. by destruct (Z.testbit f n), (Z.testbit PTE_U n). }
  replace (Z.ldiff f PTE_U) with (f - Z.land f PTE_U); [assert (0 <= Z.land f PTE_U) by (apply Z.land_nonneg; left; lia); lia|].
  rewrite Z.sub_nocarry_ldiff; apply Z.bits_inj'; intros n _; rewrite ?Z.bits_0, !Z.ldiff_spec, Z.land_spec;
    by destruct (Z.testbit f n), (Z.testbit PTE_U n).
Qed.

Definition guarded A n a f : aspace := Aspace (as_dir A) (as_tabs A) (<[n := (a, Z.ldiff f PTE_U)]> (as_user A)).

Lemma guarded_pages A n a f : as_user A !! n = Some (a, f) -> user_pages (as_user (guarded A n a f)) ≡ₚ user_pages (as_user A).
Proof.
  intros E. simpl. rewrite <- (insert_delete_eq (as_user A)), user_insert by apply lookup_delete_eq. by rewrite <- user_delete.
Qed.

Lemma guard_space s l A R n a f t : space s l A R -> as_user A !! n = Some (a, f) -> as_tabs A !! (n / 1024) = Some t ->
  space (set_ent s t n (Z.lor (V2P a) (Z.ldiff f PTE_U))) l (guarded A n a f) R.
Proof.
  intros Hs E Ht. destruct (sp_user _ _ _ _ _ Hs n a f E) as (Hn & Hp & Hf & Hh). destruct (flag_cleared f Hf Hh) as (Hf' & Hh' & _).
  destruct (user_entry_facts _ a _ Hp Hf' Hh') as (Hu & _). destruct (owned_facts _ _ _ _ (sp_nodup _ _ _ _ _ Hs)) as (N1 & N2 & N3 & N4 & N5).
  pose proof (tab_in _ _ _ Ht) as Htin. assert (Htd : t <> as_dir A) by (by intros ->). destruct (N4 t Htin) as [Htl _].
  assert (X := set_ent_ext _ _ _ _ _ n t (Z.lor (V2P a) (Z.ldiff f PTE_U)) (sp_inv _ _ _ _ _ Hs) (sp_pgt _ _ _ _ _ Hs) Ht Htd Htl).
  split; [apply X|apply X| | |].
  - intros m Hm. rewrite (set_ent_ent end_ s l (as_dir A)) by (done || apply Hs). simpl. case_decide as Em.
    + subst. by rewrite lookup_insert_eq.
    + rewrite lookup_insert_ne by done. by apply Hs.
  - intros m b g Hm. simpl in Hm. apply lookup_insert_Some in Hm as [[<- [= <- <-]]|[_ Hm]]; [done|by apply (sp_user _ _ _ _ _ Hs)].
  - eapply nodup_perm; [|exact (sp_nodup _ _ _ _ _ Hs)]. simpl. apply Permutation_skip, Permutation_app_head, Permutation_app_tail, Permutation_app_tail.
    exact (guarded_pages A n a f E).
Qed.

Lemma wp_clearpteu P s l A R n a f (Q : unit -> kmem -> Prop) : space s l A R -> as_user A !! n = Some (a, f) ->
  (forall s', space s' l (guarded A n a f) R -> (forall b, b ∉ tab_pages (as_tabs A) -> pages s' !! b = pages s !! b) ->
     (forall m, m <> n -> ent s' (as_tabs A) m = ent s (as_tabs A) m) -> Q tt s') ->
  wp P (clearpteu (as_dir A) (n * PGSIZE)) s Q.
Proof.
  intros Hs E HQ. unfold clearpteu. apply wp_bind. destruct (sp_user _ _ _ _ _ Hs n a f E) as (Hn & Hp & Hf & Hh).
  destruct (user_entry_facts _ a f Hp Hf Hh) as (Hu & H1 & _). destruct (page_V2P _ a Hp) as (_ & _ & Hal & _).
  assert (Hent := sp_ent _ _ _ _ _ Hs n Hn). rewrite E in Hent. simpl in Hent. unfold ent in Hent.
  eapply wp_walkpgdir; [apply Hs|apply Hs|exact (sp_nodup _ _ _ _ _ Hs)|unfold is_u32, NUSER, PGSIZE in *; lia|..].
  all: replace (n * PGSIZE / PGSIZE) with n by (unfold PGSIZE; zlia).
  - intros t Ht Hpt. rewrite Ht in Hent. apply wp_bind. eapply wp_get_pte; [apply Hs|done|]. rewrite Hent.
    rewrite clear_flag by (done || by apply land_high). eapply wp_set_pte; [apply Hs|done|]. fold (set_ent s t n (Z.lor (V2P a) (Z.ldiff f PTE_U))).
    apply HQ; [by apply guard_space| |].
    + intros b Hb. unfold set_ent, put. simpl. rewrite lookup_insert_ne; [done|]. intros <-. apply Hb. by eapply tab_in.
    + intros m Hm. destruct (flag_cleared f Hf Hh) as (Hf' & Hh' & _). destruct (user_entry_facts _ a _ Hp Hf' Hh') as (Hu' & _).
      destruct (owned_facts _ _ _ _ (sp_nodup _ _ _ _ _ Hs)) as (Hnt & _).
      rewrite (set_ent_ent end_ s l (as_dir A)) by (done || apply Hs). by rewrite decide_False.
  - intros Hnone. rewrite Hnone in Hent. rewrite <- Hent in H1. done.
  - done.
  - done.
Qed.

(** The guard page below the stack.  After [clearpteu] of a mapped user page,
    [copyout] to an address in the page is refused with -1 and changes nothing;
    every other page of the address space is as before. *)
Theorem clearpteu_guards s l A R n a f va p : space s l A R -> as_user A !! n = Some (a, f) ->
  va / PGSIZE = n -> p <> [] ->
  exists s' A', clearpteu (as_dir A) (n * PGSIZE) s = Ret tt s' /\ space s' l A' R /\ as_dir A' = as_dir A /\
    (forall m, m <> n -> as_user A' !! m = as_user A !! m) /\ (forall x, ubyte s' A' x = ubyte s A x) /\
    copyout (as_dir A) va p s' = Ret (-1) s'.
Proof.
  intros Hs E Hva Hp. destruct (sp_user _ _ _ _ _ Hs n a f E) as (Hn & _ & Hf & Hh). destruct (flag_cleared f Hf Hh) as (_ & _ & Hno).
  assert (W : wp strict (clearpteu (as_dir A) (n * PGSIZE)) s (fun _ s' =>
    space s' l (guarded A n a f) R /\ forall b, b ∉ tab_pages (as_tabs A) -> pages s' !! b = pages s !! b)) by (eapply wp_clearpteu; [exact Hs|exact E|done]).
  apply wp_strict in W as ([] & s' & Er & Hs' & Hfr). exists s', (guarded A n a f). split_and!; [done|done|done| | |].
  - intros m Hm. simpl. by rewrite lookup_insert_ne.
  - intros x. unfold ubyte. simpl. assert (Hpg : forall m b g, as_user A !! m = Some (b, g) -> pg s' b = pg s b).
    { intros m b g Hm. unfold pg. rewrite Hfr; [done|]. destruct (space_facts _ _ _ _ _ Hs) as [_ Hd]. by destruct (Hd m b g Hm) as (_ & _ & ? & _). }
    destruct (decide (x / PGSIZE = n)) as [->|Hne].
    + rewrite lookup_insert_eq, E. by rewrite (Hpg _ _ _ E).
    + rewrite lookup_insert_ne by done. destruct (as_user A !! (x / PGSIZE)) as [[b g]|] eqn:Eb; [|done]. by rewrite (Hpg _ _ _ Eb).
  - assert (W2 : wp strict (copyout (as_dir A) va p) s' (fun r s2 => r = -1 /\ s2 = s')).
    { unfold copyout. destruct p as [|b p]; [done|]. cbn [length mwhile]. apply wp_bind. unfold copyout_step. cbn [length].
      rewrite (proj2 (Z.ltb_lt 0 _)) by lia. unfold NUSER, PGSIZE in *. rewrite PGROUNDDOWN_eq by (unfold is_u32; zlia). unfold PGSIZE. rewrite Hva.
      apply wp_bind. eapply (wp_uva2ka strict s' l (guarded A n a f)); [exact Hs'|simpl; by rewrite lookup_insert_eq|]. rewrite Hno. by apply wp_ret, wp_ret. }
    by apply wp_strict in W2 as (r & s2 & E2 & -> & ->).
Qed.

(** ** The life of an address space *)

(** C35: [allocuvm] from [oldsz] to [newsz] either returns [newsz] and the new pages
    of the address space are zero and mapped for the user to write, or, without
    memory, returns 0 and the mapped pages are those from before.  The pages of
    other address spaces and the bytes already mapped are untouched, and no page
    is lost or shared: what the address space owns and what is free are the same
    pages as before.  It succeeds when there are two free pages for each new page
    (at most one of them for a page table). *)
Theorem allocuvm_correct s l A R oldsz newsz : space s l A R -> 0 <= oldsz <= newsz -> newsz < KERNBASE ->
  (forall m, npages oldsz <= m < npages newsz -> as_user A !! m = None) ->
  exists r s' l' A', allocuvm end_ (as_dir A) oldsz newsz s = Ret r s' /\ space s' l' A' R /\ as_dir A' = as_dir A /\
    owned A' ++ l' ≡ₚ owned A ++ l /\
    (forall a, a ∈ user_pages (as_user A) \/ a ∈ R -> pages s' !! a = pages s !! a) /\
    (r = newsz /\ (forall n, ~ npages oldsz <= n < npages newsz -> as_user A' !! n = as_user A !! n) /\
       (forall n, npages oldsz <= n < npages newsz -> exists a, as_user A' !! n = Some (a, 7) /\ pages s' !! a = Some zeroed)
     \/ r = 0 /\ as_user A' = as_user A /\ Z.of_nat (length l) < 2 * (npages newsz - npages oldsz)).
Proof.
  intros Hs Ho Hn Hno.
  assert (W : wp strict (allocuvm end_ (as_dir A) oldsz newsz) s (fun r s' => exists l' A',
    (r = newsz /\ enlarged end_ s l A R (npages oldsz) (npages newsz) s' l' A') \/ (r = 0 /\ kept end_ s l A R s' l' A' /\ Z.of_nat (length l) < 2 * (npages newsz - npages oldsz)))).
  { eapply wp_allocuvm; [exact Hend|exact Hs|lia|lia|done|lia|lia| |]; intros _ s' l' A' X; exists l', A'; auto. }
  apply wp_strict in W as (r & s' & E & l' & A' & [[-> X]|(-> & X & Hc)]); eexists _, s', l', A'; (split_and!; [exact E|apply X..|]).
  - left. split_and!; [done|apply X..].
  - right. split_and!; [done|apply X|done].
Qed.

Context (data : Z) (Hdata : aligned data /\ KERNLINK < data < KERNBASE + PHYSTOP).

(** C34: round trip: an address space that is set up with [setupkvm], grown with
    [allocuvm] (as in [exec]) and destroyed with [freevm] gives all its pages back -
    the directory, the page tables and the user pages - whether or not there was
    memory for it; the pages of others are untouched. *)
Theorem freevm_roundtrip s l R sz : kinv s l -> NoDup (R ++ l) -> 0 <= sz < KERNBASE ->
  exists s' l', (d <- setupkvm end_ data ;; if d =? 0 then ret tt else allocuvm end_ d 0 sz ;;; freevm end_ d) s = Ret tt s' /\
    kinv s' l' /\ l' ≡ₚ l /\ (forall a, a ∈ R -> pages s' !! a = pages s !! a).
Proof.
  intros Hk Hnd Hsz.
  assert (W : wp strict (d <- setupkvm end_ data ;; if d =? 0 then ret tt else allocuvm end_ d 0 sz ;;; freevm end_ d) s
    (fun _ s' => exists l', kinv s' l' /\ l' ≡ₚ l /\ (forall a, a ∈ R -> pages s' !! a = pages s !! a))).
  { apply wp_bind. eapply wp_setupkvm; [done..| |].
    - intros s1 l1 A Hs1 Hu _ _ Hown _ Hfr. destruct (page_bounds _ _ (pt_dir _ _ _ _ (sp_pgt _ _ _ _ _ Hs1))) as [Hd0 _].
      rewrite (proj2 (Z.eqb_neq (as_dir A) 0)) by lia.
      assert (F : forall s2 l2 A2, space s2 l2 A2 R -> as_dir A2 = as_dir A -> owned A2 ++ l2 ≡ₚ owned A ++ l1 ->
        (forall a, a ∈ R -> pages s2 !! a = pages s1 !! a) ->
        wp strict (freevm end_ (as_dir A)) s2 (fun _ s' => exists l', kinv s' l' /\ l' ≡ₚ l /\ (forall a, a ∈ R -> pages s' !! a = pages s !! a))).
      { intros s2 l2 A2 Hs2 Hd2 Ho2 Hf2. rewrite <- Hd2. eapply wp_freevm; [exact Hend|exact Hs2|]. intros s' l' Hk' Hl' Hf'. exists l'. split_and!; [done| |].
        - by rewrite Hl', Ho2, Hown.
        - intros a Ha. by rewrite Hf', Hf2, Hfr. }
      apply wp_bind. eapply wp_allocuvm; [exact Hend|exact Hs1|unfold KERNBASE; lia|lia|intros m _; by rewrite Hu, lookup_empty|lia|lia| |];
        intros _ s2 l2 A2 X; [|intros _]; eapply (F s2 l2 A2); try apply X; intros a Ha; apply X; by right.
    - intros s1 l1 Hk1 Hl1 Hfr _. simpl. apply wp_ret. by exists l1. }
  apply wp_strict in W as ([] & s' & E & l' & X). by exists s', l'.
Qed.
End spaces.
