(* ===== verification/VmDemo.v ===== *)
(** * Address spaces exist

    Machines with a few free pages and a process that has one page of memory: the
    inputs at which the theorems of the virtual memory files are applied. *)

From S2P Require Import Prelude Params Bytes Str Kalloc Vm VmTable VmSpace VmGrow VmCopy VmUser.
Import Kalloc.

(** A kernel that leaves [n] pages below PHYSTOP, all of them free. *)
Definition tail_end (n : nat) : Z := KERNBASE + PHYSTOP - Z.of_nat n * PGSIZE.
Definition blank (n : nat) : kmem := Kmem false 0 0 (list_to_map ((fun a => (a, zeroed)) <$> page_run (tail_end n) n)).

Lemma tail_page n a : (n < 1000)%nat -> page (tail_end n) a <-> a ∈ page_run (tail_end n) n.
Proof.
  intros Hn. rewrite (page_run_range _ (KERNBASE + PHYSTOP)); unfold page, tail_end, KERNBASE, PHYSTOP, PGSIZE in *; zlia.
Qed.
Lemma run_nodup p n : NoDup (page_run p n).
Proof. unfold page_run. apply NoDup_fmap_2; [intros i j; unfold PGSIZE; lia|apply NoDup_seq]. Qed.

Lemma blank_inv n : (n < 1000)%nat -> kinv (tail_end n) (blank n) [].
Proof.
  intros Hn. split; [constructor|done|constructor| |done]. intros a Ha%tail_page; [|done]. exists zeroed. split; [|apply length_zeroed].
  apply elem_of_list_to_map_1.
  - rewrite <- list_fmap_compose. change (compose fst (fun a : Z => (a, zeroed))) with (fun a : Z => a). rewrite list_fmap_id. apply run_nodup.
  - apply list_elem_of_fmap. by exists a.
Qed.

Lemma free_pages n : (n < 1000)%nat -> exists s l, kinv (tail_end n) s l /\ length l = n.
Proof.
  intros Hn. assert (Hb : KERNBASE < tail_end n) by (unfold tail_end, KERNBASE, PHYSTOP, PGSIZE; lia).
  assert (W : wp strict (mwhile (S n) (freerange_step (tail_end n) (KERNBASE + PHYSTOP)) (tail_end n)) (blank n)
    (fun _ s => kinv (tail_end n) s (rev (page_run (tail_end n) n) ++ []))).
  { eapply (wp_freerange (tail_end n) strict (KERNBASE + PHYSTOP) n); [exact Hb|by apply blank_inv|..].
    - unfold KERNBASE in Hb; lia.
    - reflexivity.
    - unfold tail_end, PGSIZE. lia.
    - apply Forall_forall. intros a. by apply tail_page.
    - intros a _. apply not_elem_of_nil.
    - lia.
    - done. }
  apply wp_strict in W as (_ & s & _ & Hk). eexists _, _. split; [exact Hk|]. rewrite app_nil_r, length_rev. unfold page_run.
  by rewrite length_fmap, length_seq.
Qed.

(** A process with one page, and [n] free pages. *)
Lemma one_page n : (n < 900)%nat -> exists s l A a, space (tail_end (3 + n)) s l A [] /\ as_user A = {[0 := (a, 7)]} /\ length l = n.
Proof.
  intros Hn. destruct (free_pages (3 + n) ltac:(lia)) as (s & l & Hk & Hl). set (e := tail_end (3 + n)) in *.
  destruct l as [|d [|a l]]; [done..|]. simpl in Hl. pose proof (ki_page _ _ _ Hk) as HF. apply Forall_cons in HF as [Hd HF].
  apply Forall_cons in HF as [Ha HF]. pose proof (ki_nodup _ _ _ Hk) as Hnd. destruct l as [|t l]; [done|]. simpl in Hl.
  assert (W : wp strict (kalloc ;;; kalloc) s (fun _ s' => kinv e s' (t :: l))).
  { apply wp_bind. eapply wp_kalloc; [exact Hk|]. intros s1 Hk1 _ _. eapply wp_kalloc; [exact Hk1|]. by intros s3 Hk3 _ _. }
  apply wp_strict in W as (_ & s2 & _ & Hk2).
  assert (Hs : space e (put s2 d zeroed) (t :: l) (Aspace d ∅ ∅) [a]) by (apply new_space; [done|done|exact Hnd]).
  assert (W : wp strict (mappages (as_dir (Aspace d ∅ ∅)) (0 * PGSIZE) PGSIZE (V2P a) 6) (put s2 d zeroed) (fun _ s' => exists l' A',
    grown_user e (put s2 d zeroed) (t :: l) (Aspace d ∅ ∅) [] 0 a 7 s' l' A')).
  { eapply wp_map_user; [exact Hs|done|done|done|done| |done]. intros s' l' A' X. by exists l', A'. }
  apply wp_strict in W as (_ & s3 & _ & l3 & A3 & X). exists s3, l3, A3, a. split_and!; [apply X|by rewrite (gu_user _ _ _ _ _ _ _ _ _ _ _ X)|].
  pose proof (Permutation_length (gu_own _ _ _ _ _ _ _ _ _ _ _ X)) as Hc. cbn [length app] in Hc. rewrite !length_app, !length_owned in Hc.
  rewrite (gu_user _ _ _ _ _ _ _ _ _ _ _ X) in Hc. cbn [as_tabs as_user length] in Hc. rewrite insert_empty, map_size_singleton, map_size_empty in Hc.
  assert (Ht : as_tabs A3 = {[0 := default 0 (as_tabs A3 !! 0)]}).
  { assert (Hp := sp_ent _ _ _ _ _ (gu_space _ _ _ _ _ _ _ _ _ _ _ X) 0 ltac:(done)).
    rewrite (gu_user _ _ _ _ _ _ _ _ _ _ _ X) in Hp. simpl in Hp. rewrite lookup_insert_eq in Hp. simpl in Hp.
    unfold ent in Hp. change (0 / 1024) with 0 in Hp. destruct (as_tabs A3 !! 0) as [u|] eqn:E.
    - apply map_eq. intros i. destruct (decide (i = 0)) as [->|Hi]; [by rewrite lookup_singleton_eq|]. rewrite lookup_singleton_ne by done.
      apply eq_None_not_Some. intros [[? H]|H]%(gu_tabs _ _ _ _ _ _ _ _ _ _ _ X); [done|done].
    - exfalso. assert (has (Z.lor (V2P a) 7) PTE_P = true) as Hh; [|by rewrite <- Hp in Hh].
      by apply (user_entry_facts e a 7 Ha ltac:(lia) eq_refl). }
  rewrite Ht, map_size_singleton, map_size_empty in Hc. lia.
Qed.

(** ** The theorems at work *)

Lemma data_ok : aligned 0x80108000 /\ KERNLINK < 0x80108000 < KERNBASE + PHYSTOP.
Proof. by repeat split. Qed.
Lemma end_ok n : (n < 1000)%nat -> KERNBASE < tail_end n.
Proof. unfold tail_end, KERNBASE, PHYSTOP, PGSIZE. lia. Qed.

(** With 67 free pages the page of the process is copied. *)
Lemma copyuvm_witness : exists s l A r s', space (tail_end 70) s l A [] /\
  copyuvm (tail_end 70) 0x80108000 (as_dir A) 4096 s = Ret r s' /\ r <> 0.
Proof.
  destruct (one_page 67 ltac:(lia)) as (s & l & A & a & Hs & Hu & Hl).
  destruct (copyuvm_correct (tail_end 70) (end_ok 70 ltac:(lia)) 0x80108000 data_ok s l A [] 4096 Hs) as (r & s' & E & Hr & _).
  - lia.
  - intros n Hn. exists (a, 7). rewrite Hu. replace n with 0 by (change (npages 4096) with 1 in Hn; lia). apply lookup_singleton_eq.
  - exists s, l, A, r, s'. split_and!; [done|done|]. apply Hr. rewrite Hl. reflexivity.
Defined.

(** With 66 it is not, and there are 65 left. *)
Lemma copyuvm_leak_witness : exists s l A s' l', space (tail_end 69) s l A [] /\ length l = 66%nat /\
  copyuvm (tail_end 69) 0x80108000 (as_dir A) 4096 s = Ret 0 s' /\ kinv (tail_end 69) s' l' /\ length l' = 65%nat.
Proof.
  destruct (one_page 66 ltac:(lia)) as (s & l & A & a & Hs & Hu & Hl).
  destruct (copyuvm_leak (tail_end 69) (end_ok 69 ltac:(lia)) 0x80108000 data_ok s l A [] 4096 Hs) as (s' & l' & b & E & Hk & _ & _ & _ & Hl').
  - lia.
  - intros n Hn. exists (a, 7). rewrite Hu. replace n with 0 by (change (npages 4096) with 1 in Hn; lia). apply lookup_singleton_eq.
  - exact Hl.
  - by exists s, l, A, s', l'.
Defined.

(** Three bytes at address 4000. *)
Lemma copyout_witness : exists s l A s', space (tail_end 4) s l A [] /\ copyout (as_dir A) 4000 [1; 2; 3] s = Ret 0 s' /\
  ubyte s' A 4001 = Some 2.
Proof.
  destruct (one_page 1 ltac:(lia)) as (s & l & A & a & Hs & Hu & Hl).
  destruct (copyout_correct (tail_end 4) s l A [] 4000 [1; 2; 3] Hs) as (s' & E & _ & Hb & _); [lia|by vm_compute| |].
  - intros x Hx. exists a, 7. rewrite Hu. simpl in Hx. replace (x / PGSIZE) with 0 by (unfold PGSIZE; zlia). split; [apply lookup_singleton_eq|done].
  - exists s, l, A, s'. split_and!; [done|done|]. by rewrite Hb.
Defined.

Lemma clearpteu_witness : exists s l A s', space (tail_end 4) s l A [] /\ clearpteu (as_dir A) 0 s = Ret tt s' /\
  copyout (as_dir A) 4000 [1; 2; 3] s' = Ret (-1) s'.
Proof.
  destruct (one_page 1 ltac:(lia)) as (s & l & A & a & Hs & Hu & Hl).
  destruct (clearpteu_guards (tail_end 4) s l A [] 0 a 7 4000 [1; 2; 3] Hs) as (s' & A' & E & _ & _ & _ & _ & Hc); [by rewrite Hu, lookup_singleton_eq|done|done|].
  by exists s, l, A, s'.
Defined.

Lemma allocuvm_witness : exists s l A r s', space (tail_end 8) s l A [] /\ allocuvm (tail_end 8) (as_dir A) 4096 12000 s = Ret r s'.
Proof.
  destruct (one_page 5 ltac:(lia)) as (s & l & A & a & Hs & Hu & Hl).
  destruct (allocuvm_correct (tail_end 8) (end_ok 8 ltac:(lia)) s l A [] 4096 12000 Hs) as (r & s' & _ & _ & E & _); [lia|done| |].
  - intros m Hm. rewrite Hu. apply lookup_singleton_ne. change (npages 4096) with 1 in Hm. lia.
  - by exists s, l, A, r, s'.
Defined.

Lemma freevm_witness : exists s l s' l', kinv (tail_end 80) s l /\ length l = 80%nat /\
  (d <- setupkvm (tail_end 80) 0x80108000 ;; if d =? 0 then ret tt else allocuvm (tail_end 80) d 0 12000 ;;; freevm (tail_end 80) d) s = Ret tt s' /\
  kinv (tail_end 80) s' l' /\ l' ≡ₚ l.
Proof.
  destruct (free_pages 80 ltac:(lia)) as (s & l & Hk & Hl).
  destruct (freevm_roundtrip (tail_end 80) (end_ok 80 ltac:(lia)) 0x80108000 data_ok s l [] 12000 Hk (ki_nodup _ _ _ Hk) ltac:(done))
    as (s' & l' & E & Hk' & Hp & _).
  by exists s, l, s', l'.
Defined.
