(* ===== verification/Args.v ===== *)
(** * System call arguments (syscall.c)

    The argument fetchers read the user stack of the current process and check
    pointers against the size of its memory. *)

From S2P Require Import Prelude Params Bytes.

(** ** Fetching arguments

    [mem] is the memory of the process, [sz] its size.  The result is [None]
    for the return value -1. *)

(** [*( int* )(addr)] *)
Definition load_int (mem : Z -> Z) (addr : Z) : Z :=
  s32 (unle ((fun i => mem (u32 (addr + Z.of_nat i))) <$> seq 0 4)).

Definition fetchint (mem : Z -> Z) (sz addr : Z) : option Z :=
  if (sz <=? addr) || (sz <? u32 (addr + 4)) then None else Some (load_int mem addr).

(** The loop of [fetchstr] from [s] on, [n] bytes before the end. *)
Fixpoint scan_str (mem : Z -> Z) (n : nat) (s : Z) : option Z :=
  match n with
  | O => None
  | S n => if mem s =? 0 then Some s else scan_str mem n (s + 1)
  end.

(** The pointer and the length. *)
Definition fetchstr (mem : Z -> Z) (sz addr : Z) : option (Z * Z) :=
  if sz <=? addr then None
  else s ← scan_str mem (Z.to_nat (sz - addr)) addr; Some (addr, s - addr).

Definition argint (mem : Z -> Z) (sz esp n : Z) : option Z :=
  fetchint mem sz (u32 (esp + 4 + 4 * n)).

Definition argptr (mem : Z -> Z) (sz esp n size : Z) : option Z :=
  i ← argint mem sz esp n;
  if (size <? 0) || (sz <=? u32 i) || (sz <? u32 (u32 i + size)) then None else Some (u32 i).

Definition argstr (mem : Z -> Z) (sz esp n : Z) : option (Z * Z) :=
  addr ← argint mem sz esp n; fetchstr mem sz (u32 addr).

Lemma argptr_inside mem sz esp n size p :
  0 <= sz < KERNBASE -> is_s32 size ->
  argptr mem sz esp n size = Some p ->
  0 <= p /\ 0 <= size /\ p + size <= sz /\
  let a := u32 (esp + 4 + 4 * n) in 0 <= a /\ a + 4 <= sz /\ p = u32 (load_int mem a).
Proof.
  unfold argptr, argint, fetchint, KERNBASE, is_s32. intros Hsz Hsize H.
  set (a := u32 (esp + 4 + 4 * n)) in *. pose proof (u32_is (esp + 4 + 4 * n)) as Ha. fold a in Ha.
  destruct ((sz <=? a) || (sz <? u32 (a + 4))) eqn:H1; [done|]. simpl in H.
  set (i := load_int mem a) in *. pose proof (u32_is i) as Hi.
  destruct ((size <? 0) || (sz <=? u32 i) || (sz <? u32 (u32 i + size))) eqn:H2; [done|]. injection H as <-.
  unfold is_u32 in *. rewrite (u32_small (a + 4)) in H1 by (unfold is_u32; lia).
  rewrite (u32_small (u32 i + size)) in H2 by (unfold is_u32; lia). lia.
Qed.

(** An accepted pointer argument lies in the process: for a process below
    KERNBASE (which [allocuvm] ensures) a block that [argptr] accepts ends
    within the first [sz] bytes, and the words that were read to decide it did
    too, although the additions are done modulo 2^32. *)
Theorem argptr_in_bounds mem sz esp n size p :
  0 <= sz < KERNBASE -> is_s32 size ->
  argptr mem sz esp n size = Some p ->
  0 <= p /\ 0 <= size /\ p + size <= sz /\
  let a := u32 (esp + 4 + 4 * n) in 0 <= a /\ a + 4 <= sz /\ p = u32 (load_int mem a).
Proof. apply argptr_inside. Qed.

Lemma scan_str_spec mem n s :
  match scan_str mem n s with
  | Some e => s <= e < s + Z.of_nat n /\ mem e = 0 /\ forall k, s <= k < e -> mem k <> 0
  | None => forall k, s <= k < s + Z.of_nat n -> mem k <> 0
  end.
Proof.
  revert s. induction n as [|n IH]; intros s; cbn [scan_str]; [lia|].
  destruct (Z.eqb_spec (mem s) 0) as [H0|H0]; [split; [lia|]; split; [done|lia]|].
  specialize (IH (s + 1)). destruct (scan_str mem n (s + 1)) as [e|].
  - destruct IH as (H1 & H2 & H3). split; [lia|]. split; [done|]. intros k Hk.
    destruct (decide (k = s)) as [->|]; [done|]. apply H3. lia.
  - intros k Hk. destruct (decide (k = s)) as [->|]; [done|]. apply IH. lia.
Qed.

(** A string argument is accepted exactly if it is terminated within the
    process, and the length that is returned is that of the string. *)
Theorem argstr_terminated mem sz esp n :
  0 <= sz < KERNBASE ->
  match argint mem sz esp n with
  | None => argstr mem sz esp n = None
  | Some i =>
      let p := u32 i in
      (forall len, argstr mem sz esp n = Some (p, len) <->
         0 <= len /\ p + len < sz /\ mem (p + len) = 0 /\ forall k, 0 <= k < len -> mem (p + k) <> 0) /\
      (argstr mem sz esp n = None <-> forall k, p <= k < sz -> mem k <> 0)
  end.
Proof.
  intros Hsz. unfold argstr. destruct (argint mem sz esp n) as [i|]; [|done]. cbn [mbind option_bind].
  set (p := u32 i). pose proof (u32_is i) as Hp. fold p in Hp. unfold is_u32 in Hp. cbv zeta.
  unfold fetchstr. destruct (Z.leb_spec sz p) as [Hle|Hgt].
  - split; [intros len; split; [done|lia]|]. split; [|done]. lia.
  - pose proof (scan_str_spec mem (Z.to_nat (sz - p)) p) as Hs.
    destruct (scan_str mem _ p) as [e|]; cbn [mbind option_bind].
    + destruct Hs as (H1 & H2 & H3). split.
      * intros len. split.
        -- intros [= <-]. replace (p + (e - p)) with e by lia. split_and!; [lia|lia|done|].
           intros k Hk. apply H3. lia.
        -- intros (L1 & L2 & L3 & L4). f_equal. f_equal.
           destruct (Z.lt_trichotomy (e - p) len) as [Hlt|[Heq|Hlt]]; [|done|].
           ++ exfalso. apply (L4 (e - p)); [lia|]. by replace (p + (e - p)) with e by lia.
           ++ exfalso. by apply (H3 (p + len)); [lia|].
      * split; [done|]. intros H. exfalso. apply (H e); [lia|done].
    + split.
      * intros len. split; [done|]. intros (L1 & L2 & L3 & L4). exfalso. by apply (Hs (p + len)); [lia|].
      * split; [|done]. intros _ k Hk. apply Hs. lia.
Qed.

(** ** Concrete arguments *)

(** A stack at address 0: the return address, 16, and the pointer 64. *)
Definition demo_stack (a : Z) : Z := if a =? 4 then 16 else if a =? 8 then 64 else if a =? 70 then 0 else
  if a <? 64 then 0 else 7.

Lemma argptr_witness : argptr demo_stack 4096 0 1 100 = Some 64 /\ 64 + 100 <= 4096.
Proof.
  assert (H : argptr demo_stack 4096 0 1 100 = Some 64) by reflexivity. split; [exact H|].
  apply (argptr_in_bounds demo_stack 4096 0 1 100 64); [split; [discriminate|reflexivity]|split; [discriminate|reflexivity]|exact H].
Defined.

Lemma argstr_witness : argstr demo_stack 4096 0 1 = Some (64, 6).
Proof.
  assert (Hs : 0 <= 4096 < KERNBASE) by (split; [discriminate|reflexivity]).
  pose proof (argstr_terminated demo_stack 4096 0 1 Hs) as H.
  assert (Ha : argint demo_stack 4096 0 1 = Some 64) by reflexivity. rewrite Ha in H.
  destruct H as [H _]. refine (proj2 (H 6) _).
  split; [discriminate|]. split; [reflexivity|]. split; [reflexivity|].
  intros k Hk. change (u32 64) with 64. unfold demo_stack.
  destruct (Z.eqb_spec (64 + k) 4), (Z.eqb_spec (64 + k) 8), (Z.eqb_spec (64 + k) 70), (Z.ltb_spec (64 + k) 64); lia.
Defined.
