(* ===== verification/Grep.v ===== *)
(** * The grep program (grep.c)

    Strings are the lists of their characters before the terminating 0.  The
    recursive matcher is shown to decide the language of the pattern, and the
    line loop to print the matching lines, if every read completes a line. *)

From S2P Require Import Prelude.

Module Grep.

Definition CARET : Z := 94.
Definition STAR : Z := 42.
Definition DOT : Z := 46.
Definition DOLLAR : Z := 36.
Definition NL : Z := 10.

(** ** The matcher *)

(** [matchstar(c, re, text)], with [matchhere re] as an argument: the
    do-while loop over [text]. *)
Definition matchstar (here : list Z -> bool) (c : Z) : list Z -> bool :=
  fix go (text : list Z) : bool :=
    here text ||
    match text with
    | [] => false
    | t :: text => if (t =? c) || (c =? DOT) then go text else false
    end.

Fixpoint matchhere (re text : list Z) {struct re} : bool :=
  match re with
  | [] => true
  | r0 :: re1 =>
      let plain :=
        if (r0 =? DOLLAR) && bool_decide (re1 = []) then bool_decide (text = [])
        else match text with
             | [] => false
             | t :: text => if (r0 =? DOT) || (r0 =? t) then matchhere re1 text else false
             end in
      match re1 with
      | r1 :: re2 => if r1 =? STAR then matchstar (matchhere re2) r0 text else plain
      | [] => plain
      end
  end.

(** The loop of [match]: at every position, the end included. *)
Fixpoint search (re text : list Z) : bool :=
  matchhere re text || match text with [] => false | _ :: text => search re text end.

Definition match_ (re text : list Z) : bool :=
  match re with
  | r0 :: re1 => if r0 =? CARET then matchhere re1 text else search re text
  | [] => search re text
  end.

(** ** What a pattern means *)

Definition sym (c t : Z) : Prop := c = DOT \/ c = t.

(** [here re text]: a prefix of [text] is in the language of [re]. *)
Inductive here : list Z -> list Z -> Prop :=
| here_nil text : here [] text
| here_star c re text1 text2 :
    Forall (sym c) text1 -> here re text2 -> here (c :: STAR :: re) (text1 ++ text2)
| here_end : here [DOLLAR] []
| here_char c re t text :
    head re <> Some STAR -> ~ (c = DOLLAR /\ re = []) -> sym c t -> here re text ->
    here (c :: re) (t :: text).

Lemma matchstar_spec (mh : list Z -> bool) c text :
  matchstar mh c text = true <->
  exists text1 text2, text = text1 ++ text2 /\ Forall (sym c) text1 /\ mh text2 = true.
Proof.
  induction text as [|t text IH]; cbn [matchstar].
  - rewrite orb_false_r. split.
    + intros H. by exists [], [].
    + intros (t1 & t2 & Ht & _ & H). by destruct t1, t2.
  - rewrite orb_true_iff. split.
    + intros [H|H]; [by exists [], (t :: text)|]. destruct ((t =? c) || (c =? DOT)) eqn:Hc; [|done].
      apply IH in H as (t1 & t2 & -> & HF & H). exists (t :: t1), t2. split_and!; [done| |done].
      constructor; [|done]. unfold sym. lia.
    + intros ([|t' t1] & t2 & Ht & HF & H); simpl in Ht.
      * left. by subst.
      * injection Ht as <- ->. apply Forall_cons in HF as [Hs HF]. right.
        assert ((t =? c) || (c =? DOT) = true) as -> by (unfold sym in Hs; lia).
        apply IH. eauto.
Qed.

Lemma matchhere_spec re : forall text, matchhere re text = true <-> here re text.
Proof.
  assert (H : forall n re, (length re <= n)%nat -> forall text, matchhere re text = true <-> here re text).
  { clear re. induction n as [|n IH]; intros re Hn text.
    { destruct re; [|simpl in Hn; lia]. split; [constructor|done]. }
    destruct re as [|r0 re1]; [split; [constructor|done]|]. simpl in Hn.
    assert (Hplain : head re1 <> Some STAR ->
      (if (r0 =? DOLLAR) && bool_decide (re1 = []) then bool_decide (text = [])
       else match text with
            | [] => false
            | t :: text => if (r0 =? DOT) || (r0 =? t) then matchhere re1 text else false
            end) = true <-> here (r0 :: re1) text).
    { intros Hh. destruct ((r0 =? DOLLAR) && bool_decide (re1 = [])) eqn:Hd.
      - apply andb_true_iff in Hd as [Hd1%Z.eqb_eq Hd2%bool_decide_eq_true]. subst.
        rewrite bool_decide_eq_true. split; [intros ->; constructor|]. inversion 1; subst; [done|].
        exfalso. naive_solver.
      - assert (Hnd : ~ (r0 = DOLLAR /\ re1 = [])).
        { intros [-> ->]. by rewrite bool_decide_eq_true_2 in Hd. }
        destruct text as [|t text].
        + split; [done|]. inversion 1; subst; naive_solver.
        + destruct ((r0 =? DOT) || (r0 =? t)) eqn:Hs.
          * rewrite IH by lia. split; [intros Hx; constructor; [done|done|unfold sym; lia|done]|].
            inversion 1; subst; [naive_solver|done].
          * split; [done|]. inversion 1; subst; [naive_solver|]. unfold sym in *. lia. }
    cbn [matchhere]. destruct re1 as [|r1 re2]; [by apply Hplain|].
    destruct (Z.eqb_spec r1 STAR) as [->|Hne].
    - rewrite matchstar_spec. split.
      + intros (t1 & t2 & -> & HF & Hm). constructor; [done|]. apply IH; [simpl in Hn; lia|done].
      + inversion 1 as [|c re t1 t2 HF Hm| |c re t text' Hh Hx Hs Hm]; subst; [|by destruct Hh].
        exists t1, t2. split_and!; [done|done|]. apply IH; [simpl in Hn; lia|done].
    - apply Hplain. intros [= ->]. done. }
  intros text. by apply (H (length re)).
Qed.

(** C40: the matcher is correct and complete, and it terminates on every
    pattern and text: [match] answers yes exactly if the text (with [^]) or
    some suffix of it (without) starts with a word of the pattern's language. *)
Theorem match_correct re text :
  match_ re text = true <->
  match re with
  | r0 :: re1 => if decide (r0 = CARET) then here re1 text
                 else exists pre suf, text = pre ++ suf /\ here re suf
  | [] => True
  end.
Proof.
  assert (Hs : search re text = true <-> exists pre suf, text = pre ++ suf /\ here re suf).
  { induction text as [|t text IH]; cbn [search]; rewrite orb_true_iff, matchhere_spec.
    - split.
      + intros [H|H]; [by exists [], []|done].
      + intros (pre & suf & Hx & H). destruct pre, suf; try done. by left.
    - rewrite IH. split.
      + intros [H|(pre & suf & -> & H)]; [by exists [], (t :: text)|by exists (t :: pre), suf].
      + intros ([|t' pre] & suf & Hx & H); simpl in Hx; [left; by subst|].
        injection Hx as <- ->. right. eauto. }
  unfold match_. destruct re as [|r0 re1].
  - rewrite Hs. split; [done|]. intros _. exists [], text. split; [done|constructor].
  - destruct (Z.eqb_spec r0 CARET) as [->|Hne].
    + rewrite decide_True by done. apply matchhere_spec.
    + rewrite decide_False by done. apply Hs.
Qed.

(** ** The line loop *)

(** [strchr(p, '\n')] of the rest [p] of the buffer: the text before the
    newline and after it; it does not look beyond a 0. *)
Fixpoint strchr_nl (p : list Z) : option (list Z * list Z) :=
  match p with
  | [] => None
  | c :: p =>
      if c =? 0 then None
      else if c =? NL then Some ([], p)
      else '(l, r) ← strchr_nl p; Some (c :: l, r)
  end.

(** The inner loop: what is written, and the rest of the buffer; [fuel] is
    the length of the buffer. *)
Fixpoint grep_lines (fuel : nat) (pattern p : list Z) : list Z * list Z :=
  match fuel with
  | O => ([], p)
  | S fuel =>
      match strchr_nl p with
      | None => ([], p)
      | Some (line, rest) =>
          let '(out, r) := grep_lines fuel pattern rest in
          ((if match_ pattern line then line ++ [NL] else []) ++ out, r)
      end
  end.

(** One turn of the outer loop: [buf] holds [m] characters from before, and
    the read brought [chunk].  Without a newline the buffer is thrown away. *)
Definition grep_step (pattern m chunk : list Z) : list Z * list Z :=
  let buf := m ++ chunk in
  let '(out, p) := grep_lines (length buf) pattern buf in
  (out, if bool_decide (length p = length buf) then [] else p).

(** [reads] are the results of the calls of [read]; an empty one is the end of
    the file. *)
Fixpoint grep (pattern m : list Z) (reads : list (list Z)) : list Z :=
  match reads with
  | [] | [] :: _ => []
  | chunk :: reads =>
      let '(out, m) := grep_step pattern m chunk in
      out ++ grep pattern m reads
  end.

(** A complete line. *)
Definition line (l : list Z) : Prop := 0 ∉ l /\ NL ∉ l.

Lemma strchr_nl_line l rest : line l -> strchr_nl (l ++ NL :: rest) = Some (l, rest).
Proof.
  intros [H0 Hn]. induction l as [|c l IH]; cbn [strchr_nl app]; [done|].
  apply not_elem_of_cons in H0 as [H0 H0']. apply not_elem_of_cons in Hn as [Hn Hn'].
  rewrite (proj2 (Z.eqb_neq c 0)), (proj2 (Z.eqb_neq c NL)) by done. by rewrite IH.
Qed.

(** The lines [ls], each with its newline, and those of them that match. *)
Definition text_of (ls : list (list Z)) : list Z := ls ≫= fun l => l ++ [NL].
Definition matching (pattern : list Z) (ls : list (list Z)) : list (list Z) :=
  filter (fun l => match_ pattern l = true) ls.

Lemma strchr_nl_none l : line l -> strchr_nl l = None.
Proof.
  intros [H0 Hn]. induction l as [|c l IH]; [done|]. cbn [strchr_nl].
  apply not_elem_of_cons in H0 as [H0 H0']. apply not_elem_of_cons in Hn as [Hn Hn'].
  rewrite (proj2 (Z.eqb_neq c 0)), (proj2 (Z.eqb_neq c NL)) by done. by rewrite IH.
Qed.

Lemma grep_lines_spec pattern ls rest fuel :
  Forall line ls -> line rest -> (length (text_of ls) <= fuel)%nat ->
  grep_lines fuel pattern (text_of ls ++ rest) = (text_of (matching pattern ls), rest).
Proof.
  intros HF Hr. revert fuel. induction HF as [|l ls Hl HF IH]; intros fuel Hf.
  - destruct fuel as [|fuel]; [done|]. cbn [grep_lines]. simpl. by rewrite strchr_nl_none.
  - unfold text_of in *. cbn [mbind list_bind] in *. rewrite !length_app in Hf. cbn [length] in Hf.
    destruct fuel as [|fuel]; [lia|]. cbn [grep_lines]. rewrite <- !app_assoc. cbn [app].
    rewrite strchr_nl_line by done. rewrite IH by lia. unfold matching.
    destruct (match_ pattern l) eqn:Hm.
    + rewrite filter_cons_True by done. cbn [mbind list_bind]. by rewrite <- app_assoc.
    + rewrite filter_cons_False by (by rewrite Hm). done.
Qed.

(** The file as it arrives: each read completes the lines [ls] and leaves the
    beginning [rest] of the next one. *)
Inductive arrives : list Z -> list (list Z) -> list (list Z) -> list Z -> Prop :=
| arr_nil m : line m -> arrives m [] [] m
| arr_cons m chunk reads ls lss rest end_ :
    chunk <> [] -> ls <> [] -> m ++ chunk = text_of ls ++ rest -> Forall line ls -> line rest ->
    arrives rest reads lss end_ -> arrives m (chunk :: reads) (ls ++ lss) end_.

(** [grep] prints, in order, exactly the lines of the file that match the
    pattern, provided that every read completes at least one line; characters
    after the last newline are not looked at. *)
Theorem grep_correct pattern m reads lss end_ :
  arrives m reads lss end_ -> grep pattern m reads = text_of (matching pattern lss).
Proof.
  induction 1 as [m Hm|m chunk reads ls lss rest end_ Hc Hls Hbuf HF Hr _ IH]; [done|].
  cbn [grep]. destruct chunk as [|c chunk]; [done|]. unfold grep_step. rewrite Hbuf.
  rewrite grep_lines_spec; [|done|done|rewrite length_app; lia].
  rewrite bool_decide_eq_false_2.
  - rewrite IH. unfold matching, text_of. by rewrite filter_app, bind_app.
  - rewrite length_app. destruct ls as [|l ls]; [done|]. unfold text_of. cbn [mbind list_bind].
    rewrite !length_app. simpl. lia.
Qed.

(** "ab" and "c\n" in one read, and as two reads. *)
Lemma grep_witness : grep [CARET; 97] [] [[97; 98; 99; NL]] = [97; 98; 99; NL].
Proof.
  rewrite (grep_correct [CARET; 97] [] [[97; 98; 99; NL]] [[97; 98; 99]] []); [reflexivity|].
  apply (arr_cons [] [97; 98; 99; NL] [] [[97; 98; 99]] [] [] []); [done|done|done| | |].
  - constructor; [|constructor]. split; by apply (bool_decide_unpack _).
  - split; by apply (bool_decide_unpack _).
  - constructor. split; by apply (bool_decide_unpack _).
Defined.

(** A line that arrives in two reads, the first without newline, is cut:
    its beginning is thrown away, and the rest is matched as if it were the
    line. *)
Theorem grep_drops_partial_lines :
  match_ [CARET; 99] [97; 98; 99] = false /\
  grep [CARET; 99] [] [[97; 98]; [99; NL]] = [99; NL] /\
  match_ [CARET; 97] [97; 98; 99] = true /\
  grep [CARET; 97] [] [[97; 98]; [99; NL]] = [].
Proof. by vm_compute. Qed.

End Grep.
