(* ===== verification/Umalloc.v ===== *)
(** * The memory allocator of user programs (umalloc.c)

    A circular list of free blocks in order of their addresses.  The memory
    between the first block and the break is a sequence of blocks, free or
    allocated; the theorems say what [malloc] and [free] do to that sequence. *)

From S2P Require Import Prelude Params.

Module Umalloc.

(** [union header] at an address: [ptr] and [size], in units of 8 bytes. *)
Record header := Header { h_ptr : Z; h_size : Z }.
(** The headers in memory, [freep], and the break of the process. *)
Record um := Um { hdr : gmap Z header; freep : Z; brk : Z }.
#[export] Instance header_eta : Eta header := fun r => Header (h_ptr r) (h_size r).
#[export] Instance um_eta : Eta um := fun r => Um (hdr r) (freep r) (brk r).

Section umalloc.
(** The address of [base], where the heap starts, and the new break that the
    kernel sets for [sbrk], if it does. *)
Context (base heap0 : Z) (grow : Z -> Z -> option Z).

(** Memory that has not been written is zero. *)
Definition get_hdr (p : Z) : M um header := fun s =>
  if (p =? base) || (heap0 <=? p) && (p + 8 <=? brk s) then Ret (default (Header 0 0) (hdr s !! p)) s else Fault s.
Definition set_hdr (p : Z) (f : header -> header) : M um unit :=
  h <- get_hdr p ;; modify (fun s => s <| hdr ::= <[p := f h]> |>).
Definition get_ptr (p : Z) : M um Z := h <- get_hdr p ;; ret (h_ptr h).
Definition get_size (p : Z) : M um Z := h <- get_hdr p ;; ret (h_size h).
Definition set_ptr (p v : Z) : M um unit := set_hdr p (fun h => h <| h_ptr := v |>).
Definition set_size (p v : Z) : M um unit := set_hdr p (fun h => h <| h_size := v |>).

(** [sbrk(n)] for an int [n]: the old break, or -1 as a pointer. *)
Definition sbrk (n : Z) : M um Z := fun s =>
  match grow (brk s) n with
  | Some b => Ret (brk s) (s <| brk := b |>)
  | None => Ret (u32 (-1)) s
  end.

(** One turn of the loop of [free]: the next [p], or the one where it stops. *)
Definition free_step (bp p : Z) : M um (Z + Z) :=
  nx <- get_ptr p ;;
  if (p <? bp) && (bp <? nx) then ret (inr p)
  else if (nx <=? p) && ((p <? bp) || (bp <? nx)) then ret (inr p)
  else ret (inl nx).

Definition free (ap : Z) : M um unit :=
  let bp := ap - 8 in
  st <- gets id ;;
  p <- mwhile (S (size (hdr st))) (free_step bp) (freep st) ;;
  bsize <- get_size bp ;;
  nx <- get_ptr p ;;
  (if bp + 8 * bsize =? nx then
     nsize <- get_size nx ;;
     set_size bp (u32 (bsize + nsize)) ;;;
     nnx <- get_ptr nx ;;
     set_ptr bp nnx
   else set_ptr bp nx) ;;;
  psize <- get_size p ;;
  (if p + 8 * psize =? bp then
     bsize <- get_size bp ;;
     set_size p (u32 (psize + bsize)) ;;;
     bnx <- get_ptr bp ;;
     set_ptr p bnx
   else set_ptr p bp) ;;;
  modify (fun s => s <| freep := p |>).

Definition morecore (nu : Z) : M um Z :=
  let nu := if nu <? 4096 then 4096 else nu in
  p <- sbrk (s32 (u32 (nu * 8))) ;;
  if p =? u32 (-1) then ret 0
  else
    set_size p nu ;;;
    free (p + 8) ;;;
    gets freep.

(** One turn of the loop of [malloc]: the next [prevp] and [p], or the result. *)
Definition malloc_step (nunits : Z) (x : Z * Z) : M um (Z * Z + Z) :=
  let '(prevp, p) := x in
  sz <- get_size p ;;
  if nunits <=? sz then
    p <- (if sz =? nunits then
            nx <- get_ptr p ;;
            set_ptr prevp nx ;;;
            ret p
          else
            set_size p (sz - nunits) ;;;
            let p := p + 8 * (sz - nunits) in
            set_size p nunits ;;;
            ret p) ;;
    modify (fun s => s <| freep := prevp |>) ;;;
    ret (inr (p + 8))
  else
    f <- gets freep ;;
    if p =? f then
      p <- morecore nunits ;;
      if p =? 0 then ret (inr 0) else nx <- get_ptr p ;; ret (inl (p, nx))
    else nx <- get_ptr p ;; ret (inl (p, nx)).

Definition malloc (nbytes : Z) : M um Z :=
  let nunits := u32 (nbytes + 8 - 1) / 8 + 1 in
  f <- gets freep ;;
  (if f =? 0 then
     set_ptr base base ;;;
     modify (fun s => s <| freep := base |>) ;;;
     set_size base 0
   else ret tt) ;;;
  prevp <- gets freep ;;
  p <- get_ptr prevp ;;
  st <- gets id ;;
  mwhile (4 * size (hdr st) + 6) (malloc_step nunits) (prevp, p).

(** ** The heap as a sequence of blocks *)

(** Size in units and whether the block is free, from the first address on. *)
Notation blocks := (list (Z * bool)).
Definition total (H : blocks) : Z := foldr (fun b z => b.1 + z) 0 H.
Fixpoint frees (a : Z) (H : blocks) : list (Z * Z) :=
  match H with
  | [] => []
  | (n, true) :: H => (a, n) :: frees (a + 8 * n) H
  | (n, false) :: H => frees (a + 8 * n) H
  end.
Fixpoint allocs (a : Z) (H : blocks) : list (Z * Z) :=
  match H with
  | [] => []
  | (n, true) :: H => allocs (a + 8 * n) H
  | (n, false) :: H => (a, n) :: allocs (a + 8 * n) H
  end.
(** No two free blocks are adjacent; [p] says whether the block before is free. *)
Fixpoint coalesced (p : bool) (H : blocks) : Prop :=
  match H with
  | [] => True
  | (_, b) :: H => p && b = false /\ coalesced b H
  end.

Definition first (l : list (Z * Z)) (d : Z) : Z := match l with [] => d | (a, _) :: _ => a end.
(** The headers link the blocks of [l] in order, the last one to [d]. *)
Fixpoint seg (h : gmap Z header) (l : list (Z * Z)) (d : Z) : Prop :=
  match l with
  | [] => True
  | (a, n) :: l => h !! a = Some (Header (first l d) n) /\ seg h l d
  end.

Definition ring (H : blocks) : list (Z * Z) := (base, 0) :: frees heap0 H.
Record inv (s : um) (H : blocks) : Prop := {
  in_seg : seg (hdr s) (ring H) base;
  in_alloc a n : (a, n) ∈ allocs heap0 H -> exists x, hdr s !! a = Some (Header x n);
  in_pos : Forall (fun b => 0 < b.1) H;
  in_coal : coalesced false H;
  in_brk : brk s = heap0 + 8 * total H;
  in_max : brk s < 2 ^ 31;
  in_freep : freep s ∈ (ring H).*1;
}.

Context (Hbase : 0 < base) (Hheap : base + 8 <= heap0).
Context (Hgrow : forall b n b', 0 < n -> grow b n = Some b' -> b' = b + n /\ b' < 2 ^ 31).

Lemma total_app H1 H2 : total (H1 ++ H2) = total H1 + total H2.
Proof. induction H1 as [|[n b] H1 IH]; simpl; [lia|]. fold (total H1) (total (H1 ++ H2)). lia. Qed.
Lemma total_nonneg H : Forall (fun b => 0 < b.1) H -> 0 <= total H.
Proof. induction 1 as [|[n b] H Hn _ IH]; simpl in *; [lia|]. fold (total H). lia. Qed.
Lemma frees_app a H1 H2 : frees a (H1 ++ H2) = frees a H1 ++ frees (a + 8 * total H1) H2.
Proof.
  revert a. induction H1 as [|[n [|]] H1 IH]; intros a; simpl; [f_equal; lia|f_equal|]; rewrite IH; do 2 f_equal; fold (total H1); lia.
Qed.
Lemma allocs_app a H1 H2 : allocs a (H1 ++ H2) = allocs a H1 ++ allocs (a + 8 * total H1) H2.
Proof.
  revert a. induction H1 as [|[n [|]] H1 IH]; intros a; simpl; [f_equal; lia| |f_equal]; rewrite IH; do 2 f_equal; fold (total H1); lia.
Qed.
Lemma frees_bounds H : forall a b n, Forall (fun b => 0 < b.1) H -> (b, n) ∈ frees a H -> a <= b /\ b + 8 * n <= a + 8 * total H /\ 0 < n.
Proof.
  induction H as [|[m [|]] H IH]; intros a b n Hp Hin; simpl in *; [by apply elem_of_nil in Hin|..]; apply Forall_cons in Hp as [Hm Hp]; simpl in Hm;
    pose proof (total_nonneg H Hp); fold (total H).
  - apply elem_of_cons in Hin as [[= -> ->]|Hin]; [lia|]. apply IH in Hin; [lia|done].
  - apply IH in Hin; [lia|done].
Qed.
Lemma allocs_bounds H : forall a b n, Forall (fun b => 0 < b.1) H -> (b, n) ∈ allocs a H -> a <= b /\ b + 8 * n <= a + 8 * total H /\ 0 < n.
Proof.
  induction H as [|[m [|]] H IH]; intros a b n Hp Hin; simpl in *; [by apply elem_of_nil in Hin|..]; apply Forall_cons in Hp as [Hm Hp]; simpl in Hm;
    pose proof (total_nonneg H Hp); fold (total H).
  - apply IH in Hin; [lia|done].
  - apply elem_of_cons in Hin as [[= -> ->]|Hin]; [lia|]. apply IH in Hin; [lia|done].
Qed.

Lemma first_app l1 l2 d : first (l1 ++ l2) d = first l1 (first l2 d).
Proof. by destruct l1 as [|[a n] l1]. Qed.
Lemma free_seg_app h l1 l2 d : seg h (l1 ++ l2) d <-> seg h l1 (first l2 d) /\ seg h l2 d.
Proof. induction l1 as [|[a n] l1 IH]; simpl; [tauto|]. rewrite IH, first_app. tauto. Qed.
Lemma seg_insert h l d a x : a ∉ l.*1 -> seg h l d -> seg (<[a := x]> h) l d.
Proof.
  induction l as [|[b n] l IH]; simpl; [done|]. intros Hn [H1 H2]. apply not_elem_of_cons in Hn as [Hne Hn]. split; [by rewrite lookup_insert_ne by done|by apply IH].
Qed.
Lemma seg_at h l1 a n l2 d : seg h (l1 ++ (a, n) :: l2) d -> h !! a = Some (Header (first l2 d) n).
Proof. intros [_ [H _]]%free_seg_app. done. Qed.

Lemma frees_nodup H : forall a, Forall (fun b => 0 < b.1) H -> NoDup (frees a H).*1.
Proof.
  induction H as [|[m [|]] H IH]; intros a Hp; simpl; [constructor|..]; apply Forall_cons in Hp as [Hm Hp]; simpl in Hm; [|by apply IH].
  apply NoDup_cons. split; [|by apply IH]. intros ([b n] & -> & Hin)%list_elem_of_fmap. apply frees_bounds in Hin; [|done]. simpl in Hin. lia.
Qed.
Lemma ring_nodup H : Forall (fun b => 0 < b.1) H -> NoDup (ring H).*1.
Proof.
  intros Hp. simpl. apply NoDup_cons. split; [|by apply frees_nodup]. intros ([b n] & E & Hin)%list_elem_of_fmap. apply frees_bounds in Hin; [|done]. simpl in E. lia.
Qed.
Lemma frees_lt H : forall a D p k r kr R, Forall (fun b => 0 < b.1) H -> frees a H = D ++ (p, k) :: (r, kr) :: R -> p + 8 * k <= r.
Proof.
  induction H as [|[m [|]] H IH]; intros a D p k r kr R Hp E; simpl in *; [by destruct D|..]; apply Forall_cons in Hp as [Hm Hp]; simpl in Hm.
  - destruct D as [|d D]; [|injection E as _ E; by eapply IH]. injection E as -> -> E. assert (Hin : (r, kr) ∈ frees (p + 8 * k) H) by (rewrite E; set_solver).
    apply frees_bounds in Hin; [lia|done].
  - by eapply IH.
Qed.
Lemma free_ring_lt H D p k r kr R : Forall (fun b => 0 < b.1) H -> ring H = D ++ (p, k) :: (r, kr) :: R -> p < r.
Proof.
  intros Hp E. destruct D as [|d D]; [injection E as <- <- E|injection E as <- E].
  - assert (Hin : (r, kr) ∈ frees heap0 H) by (rewrite E; set_solver). apply frees_bounds in Hin; [lia|done].
  - pose proof (frees_lt _ _ _ _ _ _ _ _ Hp E). assert (Hin : (p, k) ∈ frees heap0 H) by (rewrite E; set_solver). apply frees_bounds in Hin; [lia|done].
Qed.
Lemma seg_in h l d a n : seg h l d -> (a, n) ∈ l -> exists x, h !! a = Some (Header x n).
Proof. intros Hs (l1 & l2 & ->)%list_elem_of_split. eexists. by eapply seg_at. Qed.

Lemma ring_size s H : inv s H -> (length (ring H) <= size (hdr s))%nat.
Proof.
  intros Hi. pose proof (ring_nodup H (in_pos _ _ Hi)) as Hnd. rewrite <- (length_fmap fst (ring H)), <- (size_list_to_set (C := gset Z)) by done.
  rewrite <- (size_dom (hdr s)). apply subseteq_size. intros a ([b n] & -> & Hin)%elem_of_list_to_set%list_elem_of_fmap.
  destruct (seg_in _ _ _ _ _ (in_seg _ _ Hi) Hin) as [x Hx]. by apply elem_of_dom_2 in Hx.
Qed.

Definition valid (s : um) (p : Z) : Prop := p = base \/ heap0 <= p /\ p + 8 <= brk s.
Lemma ring_valid s H a n : inv s H -> (a, n) ∈ ring H -> valid s a.
Proof.
  intros Hi [[= -> ->]|Hin]%elem_of_cons; [by left|right]. apply frees_bounds in Hin; [|apply Hi]. rewrite (in_brk _ _ Hi). lia.
Qed.
Lemma alloc_valid s H a n : inv s H -> (a, n) ∈ allocs heap0 H -> valid s a.
Proof. intros Hi Hin. right. apply allocs_bounds in Hin; [|apply Hi]. rewrite (in_brk _ _ Hi). lia. Qed.

Section rules.
Context (P : prot um).

Lemma wp_get_hdr s p (Q : header -> um -> Prop) : valid s p -> Q (default (Header 0 0) (hdr s !! p)) s -> wp P (get_hdr p) s Q.
Proof.
  intros Hv HQ. unfold wp, get_hdr. destruct ((p =? base) || (heap0 <=? p) && (p + 8 <=? brk s)) eqn:E; [done|]. exfalso.
  apply orb_false_iff in E as [E1 E2]. apply andb_false_iff in E2. unfold valid in Hv. lia.
Qed.
Lemma wp_get_ptr s p x n (Q : Z -> um -> Prop) : valid s p -> hdr s !! p = Some (Header x n) -> Q x s -> wp P (get_ptr p) s Q.
Proof. intros Hv E HQ. apply wp_bind, wp_get_hdr; [done|]. rewrite E. by apply wp_ret. Qed.
Lemma wp_get_size s p x n (Q : Z -> um -> Prop) : valid s p -> hdr s !! p = Some (Header x n) -> Q n s -> wp P (get_size p) s Q.
Proof. intros Hv E HQ. apply wp_bind, wp_get_hdr; [done|]. rewrite E. by apply wp_ret. Qed.
Lemma wp_set_ptr s p x n v (Q : unit -> um -> Prop) : valid s p -> hdr s !! p = Some (Header x n) ->
  Q tt (s <| hdr ::= <[p := Header v n]> |>) -> wp P (set_ptr p v) s Q.
Proof. intros Hv E HQ. apply wp_bind, wp_get_hdr; [done|]. rewrite E. by apply wp_modify. Qed.
Lemma wp_set_size s p v (Q : unit -> um -> Prop) : valid s p ->
  (forall x, (forall n, hdr s !! p = Some n -> x = h_ptr n) -> Q tt (s <| hdr ::= <[p := Header x v]> |>)) -> wp P (set_size p v) s Q.
Proof.
  intros Hv HQ. apply wp_bind, wp_get_hdr; [done|]. apply wp_modify. apply HQ. intros n ->. done.
Qed.

(** ** [free] *)

(** The search ends at the last block before [bp]. *)
Lemma wp_free_fwd s H X q m Y bp : inv s H -> ring H = X ++ (q, m) :: Y -> Forall (fun b => b.1 < bp) (X ++ [(q, m)]) -> Forall (fun b => bp < b.1) Y ->
  forall fuel D p k R (Q : Z -> um -> Prop), X ++ [(q, m)] = D ++ (p, k) :: R -> (length R < fuel)%nat -> Q q s ->
  wp P (mwhile fuel (free_step bp) p) s Q.
Proof.
  intros Hi Hr Hlt Hgt. induction fuel as [|fuel IH]; intros D p k R Q HX Hf HQ; [lia|]. cbn [mwhile]. apply wp_bind. unfold free_step. apply wp_bind.
  assert (Hr2 : ring H = D ++ (p, k) :: (R ++ Y)).
  { rewrite Hr. change ((q, m) :: Y) with ([(q, m)] ++ Y). rewrite app_assoc, HX, <- app_assoc. done. }
  assert (Hp : (p, k) ∈ ring H) by (rewrite Hr2; set_solver).
  eapply wp_get_ptr; [by eapply ring_valid|eapply seg_at; rewrite <- Hr2; apply Hi|].
  assert (Hpb : p < bp) by (rewrite HX in Hlt; apply Forall_app in Hlt as [_ Hlt]; by apply Forall_cons in Hlt as [? _]).
  rewrite (proj2 (Z.ltb_lt p bp)) by done. destruct R as [|[r kr] R].
  - apply app_inj_tail in HX as [_ [= -> ->]]. simpl. destruct Y as [|[y ky] Y]; simpl.
    + assert (Hpb2 : base <= p). { destruct D as [|d D]; [injection Hr2 as <- _ _; lia|]. injection Hr2 as <- Hr2. assert (Hin : (p, k) ∈ frees heap0 H) by (rewrite Hr2; set_solver).
        apply frees_bounds in Hin; [lia|apply Hi]. }
      rewrite (proj2 (Z.leb_le base p)) by done. simpl. destruct (bp <? base); by apply wp_ret, wp_ret.
    + apply Forall_cons in Hgt as [Hy _]. simpl in Hy. rewrite (proj2 (Z.ltb_lt bp y)) by done. by apply wp_ret, wp_ret.
  - simpl. assert (Hrb : r < bp). { rewrite HX in Hlt. apply Forall_app in Hlt as [_ Hlt]. apply Forall_cons in Hlt as [_ Hlt]. by apply Forall_cons in Hlt as [? _]. }
    rewrite (proj2 (Z.ltb_ge bp r)) by lia. simpl. assert (Hpr : p < r).
    { eapply (free_ring_lt H D p k r kr); [apply Hi|]. rewrite Hr2. done. }
    rewrite (proj2 (Z.leb_gt r p)) by lia. simpl. apply wp_ret. eapply (IH (D ++ [(p, k)]) r kr R); [rewrite HX; by rewrite <- app_assoc|simpl in Hf; lia|done].
Qed.

Lemma wp_free_find s H X q m Y bp (Q : Z -> um -> Prop) : inv s H -> ring H = X ++ (q, m) :: Y ->
  Forall (fun b => b.1 < bp) (X ++ [(q, m)]) -> Forall (fun b => bp < b.1) Y -> Q q s ->
  wp P (mwhile (S (size (hdr s))) (free_step bp) (freep s)) s Q.
Proof.
  intros Hi Hr Hlt Hgt HQ. pose proof (ring_size s H Hi) as Hsz. pose proof (in_freep _ _ Hi) as Hfp. rewrite Hr in Hsz. rewrite length_app in Hsz. simpl in Hsz.
  assert (Hfwd := wp_free_fwd s H X q m Y bp Hi Hr Hlt Hgt).
  assert (Hx0 : exists k X', X ++ [(q, m)] = (base, k) :: X').
  { destruct X as [|x X]; simpl in *; [injection Hr as <- <- _; by eexists _, _|]. injection Hr as <- _. by eexists _, _. }
  assert (Hbb : base < bp) by (destruct Hx0 as (k & X' & E); rewrite E in Hlt; by apply Forall_cons in Hlt as [? _]).
  assert (Hwalk : forall fuel D p k R, Y = D ++ (p, k) :: R -> (length R + length X + 2 <= fuel)%nat -> wp P (mwhile fuel (free_step bp) p) s Q).
  { induction fuel as [|fuel IH]; intros D p k R HY Hf; [lia|]. cbn [mwhile]. apply wp_bind. unfold free_step. apply wp_bind.
    assert (Hr2 : ring H = (X ++ (q, m) :: D) ++ (p, k) :: R) by (rewrite Hr, HY, <- app_assoc; done). assert (Hp : (p, k) ∈ ring H) by (rewrite Hr2; set_solver).
    eapply wp_get_ptr; [by eapply ring_valid|eapply seg_at; rewrite <- Hr2; apply Hi|].
    assert (Hpb : bp < p) by (rewrite HY in Hgt; apply Forall_app in Hgt as [_ Hgt]; by apply Forall_cons in Hgt as [? _]).
    rewrite (proj2 (Z.ltb_ge p bp)) by lia. simpl. destruct R as [|[r kr] R]; simpl.
    - rewrite (proj2 (Z.ltb_ge bp base)) by lia. rewrite andb_false_r. apply wp_ret. destruct Hx0 as (k0 & X' & E). eapply (Hfwd fuel [] base k0 X'); [done| |done].
      apply (f_equal length) in E. rewrite length_app in E. simpl in *. lia.
    - assert (p < r) by (eapply free_ring_lt; [apply Hi|exact Hr2]). rewrite (proj2 (Z.leb_gt r p)) by lia. simpl. apply wp_ret.
      eapply (IH (D ++ [(p, k)])); [rewrite HY, <- app_assoc; done|simpl in Hf; lia]. }
  apply list_elem_of_fmap in Hfp as ([p k] & -> & Hin). rewrite Hr in Hin. change ((q, m) :: Y) with ([(q, m)] ++ Y) in Hin. rewrite app_assoc in Hin.
  apply elem_of_app in Hin as [Hin|Hin]; apply list_elem_of_split in Hin as (D & R & E); cbn [fst].
  - eapply Hfwd; [exact E| |done]. apply (f_equal length) in E. rewrite !length_app in E. simpl in E. lia.
  - eapply Hwalk; [exact E|]. apply (f_equal length) in E. rewrite !length_app in E. simpl in E. lia.
Qed.

(** Giving back the block of [n] units between [H1] and [H2]. *)
Definition join_right (n : Z) (H2 : blocks) : Z * blocks := match H2 with (k, true) :: H2 => (n + k, H2) | _ => (n, H2) end.
Fixpoint join_left (H1 : blocks) (n : Z) : blocks :=
  match H1 with
  | [] => [(n, true)]
  | [(k, true)] => [(k + n, true)]
  | b :: H1 => b :: join_left H1 n
  end.
Definition join (H1 : blocks) (n : Z) (H2 : blocks) : blocks := let '(m, H2) := join_right n H2 in join_left H1 m ++ H2.

Lemma join_left_free H1 k n : join_left (H1 ++ [(k, true)]) n = H1 ++ [(k + n, true)].
Proof.
  induction H1 as [|[m b] H1 IH]; [done|]. cbn [app join_left]. destruct b, (H1 ++ [(k, true)]) as [|c T] eqn:E; try (by apply app_nil in E as [_ ?]); by rewrite IH.
Qed.
Lemma join_left_alloc H1 k n : join_left (H1 ++ [(k, false)]) n = H1 ++ [(k, false); (n, true)].
Proof.
  induction H1 as [|[m b] H1 IH]; [done|]. cbn [app join_left]. destruct b, (H1 ++ [(k, false)]) as [|c T] eqn:E; try (by apply app_nil in E as [_ ?]); by rewrite IH.
Qed.

Definition free_last (p : bool) (H : blocks) : bool := match last H with Some (_, b) => b | None => p end.
Lemma join_left_plain H1 n : free_last false H1 = false -> join_left H1 n = H1 ++ [(n, true)].
Proof.
  destruct H1 as [|[k b] T] using rev_ind; [done|]. unfold free_last. rewrite last_snoc. destruct b; [done|]. intros _. rewrite join_left_alloc. by rewrite <- app_assoc.
Qed.
Lemma coalesced_app H1 : forall p H2, coalesced p (H1 ++ H2) <-> coalesced p H1 /\ coalesced (free_last p H1) H2.
Proof.
  induction H1 as [|[n b] H1 IH]; intros p H2; [unfold free_last; simpl; tauto|]. cbn [app coalesced]. rewrite IH. unfold free_last.
  destruct H1 as [|c H1]; [simpl; tauto|]. rewrite last_cons_cons. destruct (proj2 (last_is_Some (c :: H1)) ltac:(done)) as [x ->]. tauto.
Qed.

Lemma frees_allocs H : forall a b m n, Forall (fun b => 0 < b.1) H -> (b, m) ∈ frees a H -> (b, n) ∈ allocs a H -> False.
Proof.
  induction H as [|[k [|]] H IH]; intros a b m n Hp Hf Ha; simpl in *; [by apply elem_of_nil in Hf|..]; apply Forall_cons in Hp as [Hk Hp]; simpl in Hk.
  - apply elem_of_cons in Hf as [[= -> ->]|Hf]; [apply allocs_bounds in Ha; [lia|done]|by eapply IH].
  - apply elem_of_cons in Ha as [[= -> ->]|Ha]; [apply frees_bounds in Hf; [lia|done]|by eapply IH].
Qed.

(** The situation of [free]: a heap with the allocated block [bp] of [n] units
    between [H1] and [H2]. *)
Section block.
Context (s : um) (H1 : blocks) (n : Z) (H2 : blocks) (Hi : inv s (H1 ++ (n, false) :: H2)).
Notation bp := (heap0 + 8 * total H1).
Notation Y := (frees (bp + 8 * n) H2).

Lemma blk_pos : Forall (fun b => 0 < b.1) H1 /\ 0 < n /\ Forall (fun b => 0 < b.1) H2.
Proof. pose proof (in_pos _ _ Hi) as Hp. apply Forall_app in Hp as [? Hp]. by apply Forall_cons in Hp as [? ?]. Qed.
Lemma blk_ring : ring (H1 ++ (n, false) :: H2) = ring H1 ++ Y.
Proof. unfold ring. by rewrite frees_app. Qed.
Lemma blk_before a k : (a, k) ∈ ring H1 -> a < bp /\ a + 8 * k <= bp.
Proof.
  destruct blk_pos as (Hp & _ & _). pose proof (total_nonneg _ Hp). intros [[= -> ->]|Hin]%elem_of_cons; [lia|]. apply frees_bounds in Hin; [lia|done].
Qed.
Lemma blk_after a k : (a, k) ∈ Y -> bp + 8 * n <= a /\ a + 8 * k <= brk s.
Proof.
  destruct blk_pos as (_ & _ & Hp). intros Hin. apply frees_bounds in Hin; [|done]. rewrite (in_brk _ _ Hi), total_app. simpl. fold (total H2). lia.
Qed.
Lemma blk_header : exists x, hdr s !! bp = Some (Header x n).
Proof. apply (in_alloc _ _ Hi). rewrite allocs_app. apply elem_of_app. right. simpl. by left. Qed.
Lemma blk_valid : valid s bp.
Proof.
  destruct blk_pos as (Hp1 & Hn & Hp2). right. rewrite (in_brk _ _ Hi), total_app. simpl. fold (total H2). pose proof (total_nonneg _ Hp1). pose proof (total_nonneg _ Hp2). lia.
Qed.

Notation nr := (join_right n H2).1.
Notation H2' := (join_right n H2).2.
Notation Yr := (frees (bp + 8 * nr) H2').

Lemma right_facts : total H2' + nr = total H2 + n /\ 0 < nr /\ n <= nr /\ Forall (fun b => 0 < b.1) H2' /\ coalesced true H2' /\
  allocs (bp + 8 * nr) H2' = allocs (bp + 8 * n) H2.
Proof.
  destruct blk_pos as (_ & Hn & Hp). pose proof (in_coal _ _ Hi) as Hc. apply coalesced_app in Hc as [_ [_ Hc]].
  destruct H2 as [|[k [|]] T]; simpl in *; [split_and!; (lia || done)| |by destruct Hc as [_ Hc]; split_and!; (lia || done)].
  fold (total T). apply Forall_cons in Hp as [Hk Hp]. simpl in Hk. destruct Hc as [_ Hc]. split_and!; try (lia || done). f_equal. lia.
Qed.

Lemma right_cases : (exists k T, H2 = (k, true) :: T) \/ (nr = n /\ H2' = H2 /\ first Y base <> bp + 8 * n).
Proof.
  destruct blk_pos as (Hp1 & Hn & Hp). pose proof (total_nonneg _ Hp1). destruct H2 as [|[k [|]] T]; [right|left; by eexists _, _|right]; simpl.
  - split_and!; [done|done|lia].
  - split_and!; [done|done|]. apply Forall_cons in Hp as [Hk Hp]. simpl in Hk. destruct (frees _ T) as [|[a m] F] eqn:E; simpl; [lia|].
    assert (Hin : (a, m) ∈ frees (bp + 8 * n + 8 * k) T) by (rewrite E; by left). apply frees_bounds in Hin; [lia|done].
Qed.

(** The first half of [free]: [bp] becomes a free block, together with a free
    block after it. *)
Lemma wp_free_right (Q : unit -> um -> Prop) :
  Q tt (s <| hdr ::= <[bp := Header (first Yr base) nr]> |>) ->
  wp P (if bp + 8 * n =? first Y base then
          nsize <- get_size (first Y base) ;;
          set_size bp (u32 (n + nsize)) ;;;
          nnx <- get_ptr (first Y base) ;;
          set_ptr bp nnx
        else set_ptr bp (first Y base)) s Q.
Proof.
  intros HQ. destruct blk_header as [x Hx]. destruct blk_pos as (Hp1 & Hn & Hp2).
  pose proof (total_nonneg _ Hp1) as Ht1. destruct right_cases as [(k & T & E)|(E1 & E2 & E3)].
  - assert (Er : nr = n + k /\ H2' = T) by (rewrite E; done). destruct Er as [Er1 Er2]. rewrite Er1, Er2 in HQ.
    assert (EY : Y = (bp + 8 * n, k) :: frees (bp + 8 * n + 8 * k) T) by (rewrite E; done).
    replace (bp + 8 * (n + k)) with (bp + 8 * n + 8 * k) in HQ by lia. rewrite EY. cbn [first]. rewrite Z.eqb_refl.
    assert (Hin : (bp + 8 * n, k) ∈ Y) by (rewrite EY; by left). destruct (blk_after _ _ Hin) as [_ Hbnd].
    assert (Hseg : hdr s !! (bp + 8 * n) = Some (Header (first (frees (bp + 8 * n + 8 * k) T) base) k)).
    { eapply (seg_at _ (ring H1)). rewrite <- EY, <- blk_ring. apply Hi. }
    rewrite E in Hp2. apply Forall_cons in Hp2 as [Hk _]. simpl in Hk. pose proof (in_max _ _ Hi).
    assert (Hv : valid s (bp + 8 * n)) by (right; lia).
    apply wp_bind. eapply wp_get_size; [exact Hv|exact Hseg|]. rewrite u32_small by (unfold is_u32; lia).
    apply wp_bind, wp_set_size; [apply blk_valid|]. intros x' _. apply wp_bind. eapply wp_get_ptr; [exact Hv|simpl; rewrite lookup_insert_ne by lia; exact Hseg|].
    eapply wp_set_ptr; [apply blk_valid|simpl; apply lookup_insert_eq|]. simpl. by rewrite insert_insert_eq.
  - rewrite E1, E2 in HQ. rewrite (proj2 (Z.eqb_neq _ _)) by congruence. by eapply wp_set_ptr; [apply blk_valid|exact Hx|].
Qed.

(** The block before. *)
Lemma left_cases : (exists H1' m, H1 = H1' ++ [(m, true)] /\ ring H1 = ring H1' ++ [(bp - 8 * m, m)]) \/
  (free_last false H1 = false /\ forall X q m, ring H1 = X ++ [(q, m)] -> q + 8 * m < bp).
Proof.
  destruct blk_pos as (Hp & _ & _). destruct H1 as [|b0 T0] using rev_ind.
  - right. split; [done|]. intros X q m E. destruct X as [|? X]; simpl in E; [injection E as <- <-|by destruct X]. simpl. lia.
  - clear IHT0. destruct b0 as [m [|]]; [left|right].
    + exists T0, m. split; [done|]. unfold ring. rewrite frees_app, total_app. simpl. do 4 f_equal. lia.
    + split; [unfold free_last; by rewrite last_snoc|]. intros X q k E. apply Forall_app in Hp as [Hp Hm]. apply Forall_cons in Hm as [Hm _]. simpl in Hm.
      unfold ring in E. rewrite frees_app in E. simpl in E. rewrite app_nil_r in E. fold (ring T0) in E. assert (Hin : (q, k) ∈ ring T0) by (rewrite E; set_solver).
      rewrite total_app. simpl. pose proof (total_nonneg _ Hp). apply elem_of_cons in Hin as [[= -> ->]|Hin]; [lia|]. apply frees_bounds in Hin; [lia|done].
Qed.

Lemma right_before a : (a ∈ (ring H1).*1) -> a <> bp /\ a ∉ Yr.*1.
Proof.
  intros ([b k] & -> & Hin)%list_elem_of_fmap. destruct (blk_before _ _ Hin) as [Hlt _]. simpl. split; [lia|].
  intros ([c m] & -> & Hc)%list_elem_of_fmap. destruct right_facts as (_ & Hnr & _ & Hp & _). apply frees_bounds in Hc; [|done]. simpl in *. lia.
Qed.
Lemma right_seg : seg (hdr s) Yr base.
Proof.
  pose proof (in_seg _ _ Hi) as Hs. rewrite blk_ring in Hs. apply free_seg_app in Hs as [_ Hs]. destruct right_cases as [(k & T & E)|(E1 & E2 & _)].
  - rewrite E in *. simpl in *. replace (bp + 8 * (n + k)) with (bp + 8 * n + 8 * k) by lia. apply Hs.
  - by rewrite E1, E2.
Qed.
(** The allocated blocks that are left. *)
Lemma others_alloc a k : (a, k) ∈ allocs heap0 H1 ++ allocs (bp + 8 * n) H2 -> a <> bp /\ a ∉ (ring H1).*1 /\ exists x, hdr s !! a = Some (Header x k).
Proof.
  destruct blk_pos as (Hp1 & Hn & Hp2). intros Hin.
  assert (Ha : (a, k) ∈ allocs heap0 (H1 ++ (n, false) :: H2)) by (rewrite allocs_app; simpl; set_solver).
  assert (Hne : a <> bp). { apply elem_of_app in Hin as [Hin|Hin]; apply allocs_bounds in Hin; (lia || done). }
  split_and!; [done| |by apply (in_alloc _ _ Hi)]. intros ([b m] & -> & Hb)%list_elem_of_fmap.
  apply elem_of_cons in Hb as [[= -> ->]|Hb]; [apply allocs_bounds in Ha; [simpl in *; lia|apply Hi]|].
  eapply (frees_allocs _ heap0 b); [apply Hi| |exact Ha]. rewrite frees_app. apply elem_of_app. by left.
Qed.
Lemma join_allocs : allocs heap0 (join H1 n H2) = allocs heap0 H1 ++ allocs (bp + 8 * n) H2.
Proof.
  destruct right_facts as (Ht & _ & _ & _ & _ & <-). unfold join. destruct (join_right n H2) as [m T]. simpl in *.
  destruct left_cases as [(H1' & k & -> & _)|[Hf _]].
  - rewrite join_left_free, !allocs_app, !total_app. simpl. rewrite !app_nil_r. do 2 f_equal. lia.
  - assert (E : join_left H1 m = H1 ++ [(m, true)]) by (by apply join_left_plain). rewrite E, !allocs_app, !total_app. simpl. rewrite app_nil_r. do 2 f_equal. lia.
Qed.
Lemma join_rest : Forall (fun b => 0 < b.1) (join H1 n H2) /\ coalesced false (join H1 n H2) /\ total (join H1 n H2) = total (H1 ++ (n, false) :: H2).
Proof.
  destruct right_facts as (Ht & Hr & _ & Hp & Hc & _). destruct blk_pos as (Hp1 & _ & _). pose proof (in_coal _ _ Hi) as Hc1. apply coalesced_app in Hc1 as [Hc1 _].
  unfold join. destruct (join_right n H2) as [m T]. simpl in *. destruct left_cases as [(H1' & k & E & _)|[Hf _]].
  - rewrite E in *. apply coalesced_app in Hc1 as [Hc1 [Hc2 _]]. apply Forall_app in Hp1 as [Hp1 Hk]. apply Forall_cons in Hk as [Hk _]. simpl in Hk.
    rewrite join_left_free. split_and!.
    + apply Forall_app_2; [|done]. apply Forall_app_2; [done|]. constructor; [simpl; lia|constructor].
    + rewrite <- app_assoc. apply coalesced_app. split; [done|]. simpl. done.
    + rewrite !total_app. simpl. fold (total H2) (total T). lia.
  - rewrite join_left_plain by done. split_and!.
    + apply Forall_app_2; [|done]. apply Forall_app_2; [done|]. by constructor.
    + rewrite <- app_assoc. apply coalesced_app. split; [done|]. simpl. by rewrite Hf.
    + rewrite !total_app. simpl. fold (total H2) (total T). lia.
Qed.

(** A state whose free list is that of the joined heap. *)
Lemma inv_join s' q : brk s' = brk s -> freep s' = q -> q ∈ (ring (join H1 n H2)).*1 -> seg (hdr s') (ring (join H1 n H2)) base ->
  (forall a, a <> bp -> a ∉ (ring H1).*1 -> hdr s' !! a = hdr s !! a) -> inv s' (join H1 n H2).
Proof.
  intros Hb Hq Hin Hs Hfr. destruct join_rest as (J1 & J2 & J3). split; [done| |done|done| | |by rewrite Hq].
  - intros a k Ha. rewrite join_allocs in Ha. destruct (others_alloc a k Ha) as (A1 & A2 & A3). by rewrite Hfr.
  - by rewrite Hb, J3, (in_brk _ _ Hi).
  - rewrite Hb. apply Hi.
Qed.

(** The second half: the block before [q] is extended or linked to [bp]. *)
Section left_half.
Context (X : list (Z * Z)) (q m : Z) (s1 : um) (HX : ring H1 = X ++ [(q, m)]) (Hs1 : s1 = (s <| hdr ::= <[bp := Header (first Yr base) nr]> |>)).
Context (Q : unit -> um -> Prop) (HQ : forall s', inv s' (join H1 n H2) -> brk s' = brk s -> Q tt s').

Lemma left_in : (q, m) ∈ ring H1.
Proof. rewrite HX. set_solver. Qed.
Lemma left_apart : q <> bp /\ q ∉ Yr.*1.
Proof. apply right_before, list_elem_of_fmap. exists (q, m). split; [done|apply left_in]. Qed.
Lemma left_valid : valid s1 q /\ valid s1 bp.
Proof.
  assert (Hv : forall p, valid s p -> valid s1 p) by (unfold valid; by rewrite Hs1). split; apply Hv; [|apply blk_valid].
  apply (ring_valid s _ q m Hi). rewrite blk_ring. apply elem_of_app. left. apply left_in.
Qed.
Lemma left_hdr : hdr s1 !! q = Some (Header (first Y base) m) /\ hdr s1 !! bp = Some (Header (first Yr base) nr).
Proof.
  rewrite Hs1. simpl. split; [|apply lookup_insert_eq]. rewrite lookup_insert_ne by (destruct left_apart; congruence).
  eapply (seg_at _ X). change ((q, m) :: Y) with ([(q, m)] ++ Y). rewrite app_assoc, <- HX, <- blk_ring. apply Hi.
Qed.
Lemma left_seg : seg (hdr s1) X q /\ X.*1 ## [q; bp] /\ seg (hdr s1) Yr base.
Proof.
  pose proof (in_seg _ _ Hi) as Hseg. rewrite blk_ring, HX, <- app_assoc in Hseg. apply free_seg_app in Hseg as [Hseg _]. destruct blk_pos as (Hp1 & _ & _).
  assert (Hnb : bp ∉ X.*1) by (intros Hc; destruct (right_before bp) as [? _]; [rewrite HX, fmap_app; set_solver|done]). rewrite Hs1. simpl. split_and!.
  - by apply seg_insert.
  - pose proof (ring_nodup H1 Hp1) as Hnd. rewrite HX, fmap_app in Hnd. apply NoDup_app in Hnd as (_ & Hnd & _). set_solver.
  - apply seg_insert; [|apply right_seg]. intros ([c k] & E & Hc)%list_elem_of_fmap. destruct right_facts as (_ & Hnr & _ & Hp & _).
    apply frees_bounds in Hc; [simpl in E; lia|done].
Qed.
(** The block is in place once the list is the one of the joined heap. *)
Lemma left_end h' : seg h' (ring (join H1 n H2)) base -> q ∈ (ring (join H1 n H2)).*1 -> (forall a, a <> q -> h' !! a = hdr s1 !! a) ->
  Q tt (s1 <| hdr := h' |> <| freep := q |>).
Proof.
  intros G1 G2 G3. apply HQ; [|by rewrite Hs1]. apply (inv_join _ q); [by rewrite Hs1|done..|]. intros a A1 A2. simpl. rewrite G3.
  - rewrite Hs1. simpl. by rewrite lookup_insert_ne.
  - intros ->. apply A2, list_elem_of_fmap. exists (q, m). split; [done|apply left_in].
Qed.

Lemma wp_free_merge H1' k : H1 = H1' ++ [(k, true)] -> ring H1 = ring H1' ++ [(bp - 8 * k, k)] ->
  wp P ((bsize <- get_size bp ;; set_size q (u32 (m + bsize)) ;;; bnx <- get_ptr bp ;; set_ptr q bnx) ;;; modify (fun s => s <| freep := q |>)) s1 Q.
Proof.
  intros E Er. rewrite HX in Er. apply app_inj_tail in Er as [EX [= Eq Ek]]. destruct left_apart as [Hqb HqY], left_valid as [Hqv Hbv], left_hdr as [Hqh Hbh], left_seg as (HXs & HXd & HYs).
  destruct right_facts as (Ht & Hnr & Hnn & Hp & _). pose proof (in_brk _ _ Hi) as Hbrk. pose proof (in_max _ _ Hi) as Hmax. rewrite total_app in Hbrk. simpl in Hbrk. fold (total H2) in Hbrk.
  pose proof (total_nonneg _ Hp). assert (Hm0 : 0 <= total H1) by (apply total_nonneg, blk_pos).
  assert (Hk : 0 < k <= total H1).
  { destruct blk_pos as (Hp1 & _ & _). rewrite E in Hp1 |- *. apply Forall_app in Hp1 as [Hp1' Hp1]. apply Forall_cons in Hp1 as [? _]. rewrite total_app. simpl in *.
    pose proof (total_nonneg _ Hp1'). lia. }
  assert (Ej : ring (join H1 n H2) = X ++ (q, m + nr) :: Yr).
  { unfold join. destruct (join_right n H2) as [mm T]. simpl in *. rewrite EX, Eq, Ek, E, join_left_free. unfold ring. rewrite !frees_app, !total_app. simpl. rewrite <- app_assoc. simpl.
    f_equal. f_equal. f_equal; [f_equal; lia|f_equal; lia]. }
  apply wp_bind, wp_bind. eapply wp_get_size; [exact Hbv|exact Hbh|]. rewrite u32_small by (unfold is_u32; lia).
  apply wp_bind, wp_set_size; [exact Hqv|]. intros x Hx. apply wp_bind.
  eapply wp_get_ptr; [exact Hbv|simpl; rewrite lookup_insert_ne by done; exact Hbh|]. eapply wp_set_ptr; [exact Hqv|simpl; apply lookup_insert_eq|]. simpl. rewrite insert_insert_eq.
  apply wp_modify. simpl. refine (left_end (<[q := Header (first Yr base) (m + nr)]> (hdr s1)) _ _ _).
  - rewrite Ej. apply free_seg_app. split; [apply seg_insert; [set_solver|done]|]. cbn [seg]. rewrite lookup_insert_eq. split; [done|]. apply seg_insert; [done|exact HYs].
  - rewrite Ej, fmap_app. simpl. set_solver.
  - intros a Ha. by rewrite lookup_insert_ne.
Qed.

Lemma wp_free_link : free_last false H1 = false -> wp P (set_ptr q bp ;;; modify (fun s => s <| freep := q |>)) s1 Q.
Proof.
  intros Hf. destruct left_apart as [Hqb HqY], left_valid as [Hqv Hbv], left_hdr as [Hqh Hbh], left_seg as (HXs & HXd & HYs), right_facts as (Ht & _).
  assert (Ej : ring (join H1 n H2) = X ++ (q, m) :: (bp, nr) :: Yr).
  { unfold join. destruct (join_right n H2) as [mm T]. simpl in *. rewrite join_left_plain by done. change ((q, m) :: ?l) with ([(q, m)] ++ l). rewrite app_assoc, <- HX. unfold ring.
    rewrite !frees_app, !total_app. simpl. rewrite <- app_assoc. simpl. do 3 f_equal. f_equal. lia. }
  apply wp_bind. eapply wp_set_ptr; [exact Hqv|exact Hqh|]. apply wp_modify. simpl. refine (left_end (<[q := Header bp m]> (hdr s1)) _ _ _).
  - rewrite Ej. apply free_seg_app. split; [apply seg_insert; [set_solver|done]|]. cbn [seg]. rewrite lookup_insert_eq, lookup_insert_ne by done. split_and!; [done|done|].
    apply seg_insert; [done|exact HYs].
  - rewrite Ej, fmap_app. simpl. set_solver.
  - intros a Ha. by rewrite lookup_insert_ne.
Qed.

Lemma wp_free_left :
  wp P (psize <- get_size q ;;
        (if q + 8 * psize =? bp then
           bsize <- get_size bp ;;
           set_size q (u32 (psize + bsize)) ;;;
           bnx <- get_ptr bp ;;
           set_ptr q bnx
         else set_ptr q bp) ;;;
        modify (fun s => s <| freep := q |>)) s1 Q.
Proof.
  destruct left_valid as [Hqv _], left_hdr as [Hqh _]. apply wp_bind. eapply wp_get_size; [exact Hqv|exact Hqh|]. destruct left_cases as [(H1' & k & E & Er)|[Hf Hlt]].
  - pose proof Er as Er'. rewrite HX in Er'. apply app_inj_tail in Er' as [_ [= Eq Ek]]. rewrite (proj2 (Z.eqb_eq _ _)) by lia. by eapply wp_free_merge.
  - specialize (Hlt _ _ _ HX). rewrite (proj2 (Z.eqb_neq _ _)) by lia. by apply wp_free_link.
Qed.
End left_half.

Lemma wp_free (Q : unit -> um -> Prop) : (forall s', inv s' (join H1 n H2) -> brk s' = brk s -> Q tt s') -> wp P (free (bp + 8)) s Q.
Proof.
  intros HQ. unfold free. cbv zeta. replace (bp + 8 - 8) with bp by lia. apply wp_bind, wp_gets, wp_bind. unfold id.
  destruct (exists_last (l := ring H1)) as (X & [q m] & HX); [done|]. assert (Hr : ring (H1 ++ (n, false) :: H2) = X ++ (q, m) :: Y).
  { rewrite blk_ring, HX, <- app_assoc. done. }
  destruct blk_pos as (_ & Hn & _). eapply (wp_free_find s _ X q m Y bp); [exact Hi|exact Hr| | |].
  { rewrite <- HX. apply Forall_forall. intros [a k] Ha. by apply blk_before in Ha as [? _]. }
  { apply Forall_forall. intros [a k] Ha. apply blk_after in Ha as [? _]. simpl. lia. }
  destruct blk_header as [x Hx]. apply wp_bind. eapply wp_get_size; [apply blk_valid|exact Hx|]. apply wp_bind.
  eapply wp_get_ptr; [apply (ring_valid s _ q m Hi); rewrite Hr; set_solver|eapply seg_at; rewrite <- Hr; apply Hi|].
  apply wp_bind, wp_free_right. eapply wp_free_left; [exact HX|done|done].
Qed.
End block.

(** ** [malloc] *)

Lemma coalesced_weaken H : coalesced true H -> coalesced false H.
Proof. destruct H as [|[n b] H]; [done|]. intros [_ Hc]. by split. Qed.

(** Taking [u] units from the free block that has them, from its end. *)
Inductive carve (u : Z) : blocks -> blocks -> Z -> Prop :=
  | carve_all H1 H2 : carve u (H1 ++ (u, true) :: H2) (H1 ++ (u, false) :: H2) (heap0 + 8 * total H1)
  | carve_tail H1 n H2 : u < n -> carve u (H1 ++ (n, true) :: H2) (H1 ++ (n - u, true) :: (u, false) :: H2) (heap0 + 8 * total H1 + 8 * (n - u)).

Lemma frees_split H : forall a F1 p n F2, frees a H = F1 ++ (p, n) :: F2 ->
  exists H1 H2, H = H1 ++ (n, true) :: H2 /\ F1 = frees a H1 /\ p = a + 8 * total H1 /\ F2 = frees (p + 8 * n) H2.
Proof.
  induction H as [|[m b] H IH]; intros a F1 p n F2 E; cbn [frees] in E; [by destruct F1|]. destruct b.
  - destruct F1 as [|f F1].
    + injection E as -> -> E. exists [], H. split_and!; [done|done|simpl; lia|done].
    + injection E as <- E. apply IH in E as (H1 & H2 & -> & -> & -> & ->). exists ((m, true) :: H1), H2. simpl. fold (total H1). split_and!; [done|done|lia|f_equal; lia].
  - apply IH in E as (H1 & H2 & -> & -> & -> & ->). exists ((m, false) :: H1), H2. simpl. fold (total H1). split_and!; [done|done|lia|f_equal; lia].
Qed.

Lemma allocs_split H : forall a p n, (p, n) ∈ allocs a H -> exists H1 H2, H = H1 ++ (n, false) :: H2 /\ p = a + 8 * total H1.
Proof.
  induction H as [|[m b] H IH]; intros a p n Hin; cbn [allocs] in Hin; [by apply elem_of_nil in Hin|]. destruct b.
  - apply IH in Hin as (H1 & H2 & -> & ->). exists ((m, true) :: H1), H2. split; [done|]. simpl. fold (total H1). lia.
  - apply elem_of_cons in Hin as [[= -> ->]|Hin]; [exists [], H; split; [done|simpl; lia]|].
    apply IH in Hin as (H1 & H2 & -> & ->). exists ((m, false) :: H1), H2. split; [done|]. simpl. fold (total H1). lia.
Qed.

Lemma carve_allocs u H H' p : carve u H H' p -> allocs heap0 H' ≡ₚ (p, u) :: allocs heap0 H.
Proof.
  intros [H1 H2|H1 n H2 Hn]; rewrite !allocs_app; simpl.
  - by rewrite <- Permutation_middle.
  - replace (heap0 + 8 * total H1 + 8 * (n - u) + 8 * u) with (heap0 + 8 * total H1 + 8 * n) by lia. by rewrite <- Permutation_middle.
Qed.

(** The branch of [malloc] that has found a block. *)
Definition take (u prevp p sz : Z) : M um (Z * Z + Z) :=
  p <- (if sz =? u then
          nx <- get_ptr p ;;
          set_ptr prevp nx ;;;
          ret p
        else
          set_size p (sz - u) ;;;
          let p := p + 8 * (sz - u) in
          set_size p u ;;;
          ret p) ;;
  modify (fun s => s <| freep := prevp |>) ;;;
  ret (inr (p + 8)).

(** The heap with another division of the same memory. *)
Lemma inv_recut s H s' H' : inv s H -> seg (hdr s') (ring H') base -> (forall a n, (a, n) ∈ allocs heap0 H' -> exists x, hdr s' !! a = Some (Header x n)) ->
  Forall (fun b => 0 < b.1) H' -> coalesced false H' -> total H' = total H -> brk s' = brk s -> freep s' ∈ (ring H').*1 -> inv s' H'.
Proof. intros Hi H1 H2 H3 H4 H5 H6 H7. split; try done; rewrite H6; [rewrite H5|]; apply Hi. Qed.

(** The situation of [malloc]: the free block [p] of [n] units between [H1] and
    [H2], which is after [prevp] in the list. *)
Section found.
Context (s : um) (H1 : blocks) (n : Z) (H2 : blocks) (Hi : inv s (H1 ++ (n, true) :: H2)).
Context (Z0 : list (Z * Z)) (prevp k : Z) (EF : ring H1 = Z0 ++ [(prevp, k)]).
Notation p := (heap0 + 8 * total H1).
Notation W := (frees (p + 8 * n) H2).

Lemma fnd_pos : Forall (fun b => 0 < b.1) H1 /\ 0 < n /\ Forall (fun b => 0 < b.1) H2 /\ 0 <= total H1 /\ 0 <= total H2.
Proof.
  pose proof (in_pos _ _ Hi) as Hp. apply Forall_app in Hp as [H Hp]. apply Forall_cons in Hp as [? ?]. split_and!; [done..|by apply total_nonneg|by apply total_nonneg].
Qed.
Lemma ring_cut H' F : frees p H' = F -> ring (H1 ++ H') = Z0 ++ (prevp, k) :: F.
Proof. intros <-. unfold ring. rewrite frees_app. change ((base, 0) :: frees heap0 H1 ++ ?l) with (ring H1 ++ l). rewrite EF, <- app_assoc. done. Qed.
Lemma fnd_ring : ring (H1 ++ (n, true) :: H2) = Z0 ++ (prevp, k) :: (p, n) :: W.
Proof. by apply ring_cut. Qed.
Lemma fnd_seg : seg (hdr s) Z0 prevp /\ hdr s !! prevp = Some (Header p k) /\ hdr s !! p = Some (Header (first W base) n) /\ seg (hdr s) W base.
Proof. pose proof (in_seg _ _ Hi) as Hs. rewrite fnd_ring in Hs. apply free_seg_app in Hs as (? & ? & ? & ?). done. Qed.
Lemma fnd_valid : valid s p /\ valid s prevp.
Proof. split; [apply (ring_valid s _ p n Hi)|apply (ring_valid s _ prevp k Hi)]; rewrite fnd_ring; set_solver. Qed.
Lemma fnd_order a m : ((a, m) ∈ Z0 \/ a = prevp -> a < p) /\ ((a, m) ∈ W -> p + 8 * n <= a).
Proof.
  destruct fnd_pos as (Hp1 & _ & Hp2 & Ht & _). split.
  - intros Hor. assert (exists m, (a, m) ∈ ring H1) as (m' & Hin) by (rewrite EF; destruct Hor as [?| ->]; [exists m|exists k]; set_solver).
    apply elem_of_cons in Hin as [[= -> ->]|Hin]; [lia|]. apply frees_bounds in Hin; [lia|done].
  - intros Hin. apply frees_bounds in Hin; [lia|done].
Qed.
Lemma fnd_notin a : (p <= a -> a ∉ Z0.*1 /\ a <> prevp) /\ (a < p + 8 * n -> a ∉ W.*1).
Proof.
  split.
  - intros Ha. split; [intros ([b m] & -> & Hin)%list_elem_of_fmap|intros ->]; [pose proof (proj1 (fnd_order b m) (or_introl Hin))|pose proof (proj1 (fnd_order prevp 0) (or_intror eq_refl))]; simpl in *; lia.
  - intros Ha ([b m] & -> & Hin)%list_elem_of_fmap. apply (proj2 (fnd_order b m)) in Hin. simpl in *. lia.
Qed.
Lemma fnd_prevp : prevp ∉ Z0.*1 /\ prevp ∉ W.*1.
Proof.
  pose proof (ring_nodup _ (in_pos _ _ Hi)) as Hnd. rewrite fnd_ring, fmap_app in Hnd. apply NoDup_app in Hnd as (_ & Hz & Hnd). simpl in *.
  apply NoDup_cons in Hnd as [Hq _]. set_solver.
Qed.
(** The allocated blocks. *)
Lemma fnd_allocs a m : (a, m) ∈ allocs heap0 H1 ++ allocs (p + 8 * n) H2 ->
  a <> prevp /\ (a < p \/ p + 8 * n <= a) /\ exists x, hdr s !! a = Some (Header x m).
Proof.
  destruct fnd_pos as (Hp1 & Hn & Hp2 & _). intros Hin. assert (Ha : (a, m) ∈ allocs heap0 (H1 ++ (n, true) :: H2)) by (by rewrite allocs_app). split_and!.
  - intros ->. assert (Hq : (prevp, k) ∈ ring (H1 ++ (n, true) :: H2)) by (rewrite fnd_ring; set_solver). apply elem_of_cons in Hq as [[= -> ->]|Hq].
    + apply allocs_bounds in Ha; [lia|apply Hi].
    + eapply frees_allocs; [apply Hi|exact Hq|exact Ha].
  - apply elem_of_app in Hin as [Hin|Hin]; apply allocs_bounds in Hin; (lia || done).
  - by apply (in_alloc _ _ Hi).
Qed.
Lemma fnd_coal : coalesced false H1 /\ free_last false H1 = false /\ coalesced false H2.
Proof.
  pose proof (in_coal _ _ Hi) as Hc. apply coalesced_app in Hc as [Hc1 [Hc2 Hc3]]. rewrite andb_true_r in Hc2. split_and!; [done|done|by apply coalesced_weaken].
Qed.

(** The whole block is taken out of the list. *)
Lemma inv_take_all s' : hdr s' = <[prevp := Header (first W base) k]> (hdr s) -> brk s' = brk s -> freep s' = prevp -> inv s' (H1 ++ (n, false) :: H2).
Proof.
  intros Eh Eb Ef. destruct fnd_seg as (Sz & Sq & Sp & Sw), fnd_pos as (Hp1 & Hn & Hp2 & _), fnd_prevp as [Nz Nw], fnd_coal as (C1 & _ & C2).
  assert (Er : ring (H1 ++ (n, false) :: H2) = Z0 ++ (prevp, k) :: W) by (by apply ring_cut). pose proof (proj1 (fnd_notin p) ltac:(lia)) as [_ Hpq].
  eapply inv_recut; [exact Hi|..]; [| | | | |done|].
  - rewrite Er, Eh. apply free_seg_app. split; [by apply seg_insert|]. cbn [seg]. rewrite lookup_insert_eq. split; [done|by apply seg_insert].
  - intros a m Hin. rewrite allocs_app in Hin. simpl in Hin. rewrite Eh. assert (Hor : (a, m) = (p, n) \/ (a, m) ∈ allocs heap0 H1 ++ allocs (p + 8 * n) H2) by set_solver.
    destruct Hor as [[= -> ->]|Hor]; [rewrite lookup_insert_ne by done; by eexists|]. destruct (fnd_allocs a m Hor) as (A1 & _ & A2). by rewrite lookup_insert_ne.
  - apply Forall_app_2; [done|]. by constructor.
  - apply coalesced_app. split; [done|]. simpl. by rewrite andb_false_r.
  - by rewrite !total_app.
  - rewrite Ef, Er, fmap_app. set_solver.
Qed.

(** The last [u] units are cut off. *)
Lemma inv_take_tail s' u x : 0 < u < n -> hdr s' = <[p + 8 * (n - u) := Header x u]> (<[p := Header (first W base) (n - u)]> (hdr s)) -> brk s' = brk s -> freep s' = prevp ->
  inv s' (H1 ++ (n - u, true) :: (u, false) :: H2).
Proof.
  intros Hu Eh Eb Ef. destruct fnd_seg as (Sz & Sq & Sp & Sw), fnd_pos as (Hp1 & Hn & Hp2 & _), fnd_coal as (C1 & Cf & C2). set (p2 := p + 8 * (n - u)) in *.
  assert (Hp2n : p < p2 < p + 8 * n) by (unfold p2; lia). pose proof (proj1 (fnd_notin p2) ltac:(lia)) as [Nz2 Nq2]. pose proof (proj1 (fnd_notin p) ltac:(lia)) as [Nz Nq].
  assert (Er : ring (H1 ++ (n - u, true) :: (u, false) :: H2) = Z0 ++ (prevp, k) :: (p, n - u) :: W) by (apply ring_cut; simpl; do 2 f_equal; lia).
  eapply inv_recut; [exact Hi|..]; [| | | | |done|].
  - rewrite Er, Eh. apply free_seg_app. split; [by apply seg_insert, seg_insert|]. cbn [seg]. rewrite (lookup_insert_ne _ p2 prevp), (lookup_insert_ne _ p prevp) by congruence.
    rewrite (lookup_insert_ne _ p2 p), lookup_insert_eq by lia. split_and!; [exact Sq|done|]. apply seg_insert; [apply fnd_notin; lia|]. apply seg_insert; [apply fnd_notin; lia|done].
  - intros a m Hin. rewrite allocs_app in Hin. simpl in Hin. rewrite Eh. fold p2 in Hin. replace (p2 + 8 * u) with (p + 8 * n) in Hin by (unfold p2; lia).
    assert (Hor : (a, m) = (p2, u) \/ (a, m) ∈ allocs heap0 H1 ++ allocs (p + 8 * n) H2) by set_solver. destruct Hor as [[= -> ->]|Hor]; [rewrite lookup_insert_eq; by eexists|].
    destruct (fnd_allocs a m Hor) as (_ & A1 & A2). rewrite !lookup_insert_ne by lia. done.
  - apply Forall_app_2; [done|]. constructor; [simpl; lia|]. constructor; [simpl; lia|done].
  - apply coalesced_app. split; [done|]. simpl. by rewrite Cf.
  - rewrite !total_app. simpl. lia.
  - rewrite Ef, Er, fmap_app. set_solver.
Qed.
End found.

Lemma wp_take s H u Z0 prevp k p n W (Q : Z * Z + Z -> um -> Prop) : inv s H -> 0 < u <= n -> ring H = Z0 ++ (prevp, k) :: (p, n) :: W ->
  (forall s' H' a, carve u H H' a -> inv s' H' -> brk s' = brk s -> Q (inr (a + 8)) s') -> wp P (take u prevp p n) s Q.
Proof.
  intros Hi Hu Hr HQ. unfold take. apply wp_bind.
  assert (Hsplit : exists F1, ring H = (base, 0) :: F1 ++ (p, n) :: W /\ (base, 0) :: F1 = Z0 ++ [(prevp, k)]).
  { destruct Z0 as [|z Z0]; [injection Hr as <- <- Hr; exists []|injection Hr as <- Hr; exists (Z0 ++ [(prevp, k)])]; (split; [|done]); unfold ring; rewrite Hr; [done|].
    by rewrite <- app_assoc. }
  destruct Hsplit as (F1 & Er & EF). injection Er as Er. destruct (frees_split _ _ _ _ _ _ Er) as (H1 & H2 & -> & -> & -> & ->).
  change ((base, 0) :: frees heap0 H1) with (ring H1) in EF. destruct (fnd_valid _ _ _ _ Hi _ _ _ EF) as [Hvp Hvq].
  destruct (fnd_seg _ _ _ _ Hi _ _ _ EF) as (_ & Hhq & Hhp & _). destruct (fnd_pos _ _ _ _ Hi) as (_ & _ & _ & Ht1 & Ht2). destruct (Z.eqb_spec n u) as [->|Hne].
  - apply wp_bind. eapply wp_get_ptr; [exact Hvp|exact Hhp|]. apply wp_bind. eapply wp_set_ptr; [exact Hvq|exact Hhq|]. apply wp_ret, wp_bind, wp_modify, wp_ret.
    apply (HQ _ (H1 ++ (u, false) :: H2)); [apply carve_all| |done]. by eapply inv_take_all.
  - assert (Hv2 : forall h, valid (s <| hdr := h |>) (heap0 + 8 * total H1 + 8 * (n - u))).
    { intros h. right. simpl. rewrite (in_brk _ _ Hi), total_app. simpl. fold (total H2). lia. }
    apply wp_bind, wp_set_size; [exact Hvp|]. intros x Hx. specialize (Hx _ Hhp). simpl in Hx. subst x. cbv zeta.
    apply wp_bind, wp_set_size; [apply (Hv2 (<[heap0 + 8 * total H1 := Header (first (frees (heap0 + 8 * total H1 + 8 * n) H2) base) (n - u)]> (hdr s)))|].
    intros x _. apply wp_ret, wp_bind, wp_modify, wp_ret.
    apply (HQ _ (H1 ++ (n - u, true) :: (u, false) :: H2)); [apply carve_tail; lia| |done]. eapply inv_take_tail; [exact Hi|exact EF|lia|done..].
Qed.

(** What [malloc] does when it is back at [freep]. *)
Definition more (u : Z) : M um (Z * Z + Z) :=
  p <- morecore u ;; if p =? 0 then ret (inr 0) else nx <- get_ptr p ;; ret (inl (p, nx)).

Section search.
Context (s : um) (H : blocks) (u : Z) (Hi : inv s H) (Hu : 0 < u) (Q : Z -> um -> Prop).
Context (HT : forall s' H' a, carve u H H' a -> inv s' H' -> brk s' = brk s -> Q (a + 8) s').
Notation loop fuel := (mwhile fuel (malloc_step u)).
Notation small := (Forall (fun b : Z * Z => b.2 < u)).
Notation again fuel := (fun (a : Z * Z + Z) s' => wp P (match a with inl a' => loop fuel a' | inr b => ret b end) s' Q).

(** One turn at [p]. *)
Lemma wp_malloc_turn fuel D prevp p n R : ring H = D ++ (p, n) :: R -> (D <> [] -> exists D' k, D = D' ++ [(prevp, k)]) ->
  (n < u -> p = freep s -> wp P (more u) s (again fuel)) ->
  (n < u -> p <> freep s -> wp P (loop fuel (p, first R base)) s Q) ->
  wp P (loop (S fuel) (prevp, p)) s Q.
Proof.
  intros Hr Hprev HM HN. cbn [mwhile]. apply wp_bind. unfold malloc_step at 1. apply wp_bind. assert (Hin : (p, n) ∈ ring H) by (rewrite Hr; set_solver).
  assert (Hv : valid s p) by (by apply (ring_valid s H p n)). assert (Hh : hdr s !! p = Some (Header (first R base) n)) by (eapply seg_at; rewrite <- Hr; apply Hi).
  eapply wp_get_size; [exact Hv|exact Hh|]. destruct (Z.leb_spec u n) as [Hle|Hlt].
  - destruct D as [|d D]; [injection Hr as <- <- _; lia|]. destruct Hprev as (D' & k & ED); [done|]. rewrite ED, <- app_assoc in Hr.
    apply (wp_take s H u D' prevp k p n R); [done|lia|done|]. intros s' H' a H1 H2 H3. apply wp_ret. by eapply HT.
  - apply wp_bind, wp_gets. destruct (Z.eqb_spec p (freep s)) as [E|E]; [by apply HM|]. apply wp_bind. eapply wp_get_ptr; [exact Hv|exact Hh|]. apply wp_ret. by apply HN.
Qed.

Lemma split_unique (X : list (Z * Z)) a k Y : forall R1 m R2, NoDup (X ++ (a, k) :: Y).*1 -> X ++ (a, k) :: Y = R1 ++ (a, m) :: R2 -> X = R1 /\ k = m /\ Y = R2.
Proof.
  induction X as [|x X IH]; intros R1 m R2 Hnd E; destruct R1 as [|r R1]; simpl in *.
  - injection E as -> ->. done.
  - injection E as <- E. apply NoDup_cons in Hnd as [Hnd _]. exfalso. apply Hnd. rewrite E, fmap_app. set_solver.
  - injection E as -> E. apply NoDup_cons in Hnd as [Hnd _]. exfalso. apply Hnd. rewrite fmap_app. set_solver.
  - injection E as <- E. apply NoDup_cons in Hnd as [_ Hnd]. by destruct (IH _ _ _ Hnd E) as (-> & -> & ->).
Qed.

(** From [p] to the end of the list, or to [freep]. *)
Lemma wp_malloc_fwd N : forall R fuel D prevp p n, ring H = D ++ (p, n) :: R -> (D <> [] -> exists D' k, D = D' ++ [(prevp, k)]) -> (length R + 1 + N <= fuel)%nat ->
  (forall R1 m R2 fuel', (p, n) :: R = R1 ++ (freep s, m) :: R2 -> small (R1 ++ [(freep s, m)]) -> (N <= fuel')%nat -> wp P (more u) s (again fuel')) ->
  (forall q fuel', freep s ∉ ((p, n) :: R).*1 -> small ((p, n) :: R) -> (N <= fuel')%nat -> wp P (loop fuel' (q, base)) s Q) ->
  wp P (loop fuel (prevp, p)) s Q.
Proof.
  induction R as [|[r m] R IH]; intros fuel D prevp p n Hr Hprev Hf HM HE; (destruct fuel as [|fuel]; [lia|]); eapply wp_malloc_turn; [exact Hr|exact Hprev| | |exact Hr|exact Hprev| |].
  - intros Hn ->. apply (HM [] n []); [done|by repeat constructor|simpl in Hf; lia].
  - intros Hn Hne. apply HE; [simpl; set_solver|by repeat constructor|simpl in Hf; lia].
  - intros Hn ->. apply (HM [] n ((r, m) :: R)); [done|by repeat constructor|simpl in Hf; lia].
  - intros Hn Hne. apply (IH fuel (D ++ [(p, n)]) p r m); [by rewrite <- app_assoc|by exists D, n|simpl in Hf; lia| |].
    + intros R1 m1 R2 fuel' E Hs Hf'. apply (HM ((p, n) :: R1) m1 R2); [by rewrite E|by constructor|done].
    + intros q fuel' Hn' Hs Hf'. apply HE; [simpl in *; set_solver|by constructor|done].
Qed.

(** The search: it takes the first block that is large enough, or comes back to
    [freep] when there is none. *)
Lemma wp_malloc_search N fuel nx : (exists X k Y, ring H = X ++ (freep s, k) :: Y /\ nx = first Y base) -> (2 * length (ring H) + N + 1 <= fuel)%nat ->
  (small (ring H) -> forall fuel', (N <= fuel')%nat -> wp P (more u) s (again fuel')) ->
  wp P (loop fuel (freep s, nx)) s Q.
Proof.
  intros (X & k & Y & Hr & ->) Hf HM. pose proof (ring_nodup H (in_pos _ _ Hi)) as Hnd. rewrite Hr in Hnd, Hf. rewrite length_app in Hf. simpl in Hf.
  assert (Hbase2 : forall q fuel', small Y -> (length X + length Y + 1 + N <= fuel')%nat -> wp P (loop fuel' (q, base)) s Q).
  { intros q fuel' HY Hf'. assert (Hlen := f_equal length Hr). rewrite length_app in Hlen. simpl in Hlen.
    apply (wp_malloc_fwd N (frees heap0 H) fuel' [] q base 0); [done|done|lia| |].
    - intros R1 m R2 fuel2 E Hs Hf2. apply HM; [|done]. change ((base, 0) :: frees heap0 H) with (ring H) in E. rewrite Hr in E.
      destruct (split_unique _ _ _ _ _ _ _ Hnd E) as (-> & -> & ->). rewrite Hr. change ((freep s, m) :: R2) with ([(freep s, m)] ++ R2). rewrite app_assoc. by apply Forall_app_2.
    - intros q2 fuel2 Hnin. exfalso. apply Hnin, Hi. }
  destruct Y as [|[y m] Y].
  - apply Hbase2; [constructor|simpl in *; lia].
  - simpl. eapply (wp_malloc_fwd (length X + length ((y, m) :: Y) + 1 + N) Y fuel (X ++ [(freep s, k)]) (freep s) y m); [by rewrite <- app_assoc|by exists X, k|simpl in *; lia| |].
    + intros R1 m1 R2 fuel' E _ _. exfalso. rewrite fmap_app in Hnd. apply NoDup_app in Hnd as (_ & _ & Hnd). simpl in Hnd. apply NoDup_cons in Hnd as [Hnd _].
      apply Hnd. assert (Hin : freep s ∈ ((y, m) :: Y).*1) by (rewrite E, fmap_app; set_solver). exact Hin.
    + intros q fuel' _ Hs Hf'. by apply Hbase2.
Qed.
End search.

Notation asked u := (if u <? 4096 then 4096 else u).

Lemma inv_append s H nu b x : inv s H -> 0 < nu -> b = brk s + 8 * nu -> b < 2 ^ 31 ->
  inv (s <| brk := b |> <| hdr ::= <[brk s := Header x nu]> |>) (H ++ [(nu, false)]).
Proof.
  intros Hi Hn -> Hb. pose proof (in_pos _ _ Hi) as Hp. assert (Hr : ring (H ++ [(nu, false)]) = ring H) by (unfold ring; rewrite frees_app; simpl; by rewrite app_nil_r).
  split; cbn [hdr brk freep].
  - rewrite Hr. refine (seg_insert (hdr s) (ring H) base (brk s) _ _ (in_seg _ _ Hi)). intros ([a n] & E & [[= -> ->]|Hin]%elem_of_cons)%list_elem_of_fmap; simpl in E; rewrite (in_brk _ _ Hi) in E.
    + pose proof (total_nonneg _ Hp). lia.
    + apply frees_bounds in Hin; [lia|done].
  - intros a n Hin. rewrite allocs_app in Hin. simpl. simpl in Hin. apply elem_of_app in Hin as [Hin|[= -> ->]%list_elem_of_singleton].
    + rewrite lookup_insert_ne; [by apply Hi|]. rewrite (in_brk _ _ Hi). apply allocs_bounds in Hin; [lia|done].
    + rewrite <- (in_brk _ _ Hi), lookup_insert_eq. by eexists.
  - apply Forall_app_2; [done|]. by constructor.
  - apply coalesced_app. split; [apply Hi|]. simpl. by rewrite andb_false_r.
  - simpl. rewrite (in_brk _ _ Hi), total_app. simpl. lia.
  - simpl. done.
  - rewrite Hr. apply Hi.
Qed.

Lemma join_has_big H nu : 0 < nu -> Forall (fun b => 0 < b.1) H -> exists a m, (a, m) ∈ ring (join H nu []) /\ nu <= m.
Proof.
  intros Hn Hp. unfold join. simpl. rewrite app_nil_r. destruct H as [|[k b] T] using rev_ind.
  - exists heap0, nu. split; [|lia]. simpl. right. by left.
  - apply Forall_app in Hp as [_ Hk]. apply Forall_cons in Hk as [Hk _]. simpl in Hk. destruct b.
    + rewrite join_left_free. eexists _, (k + nu). split; [|lia]. unfold ring. rewrite frees_app. right. apply elem_of_app. right. by left.
    + rewrite join_left_alloc. eexists _, nu. split; [|lia]. unfold ring. rewrite frees_app. right. apply elem_of_app. right. by left.
Qed.

Lemma wp_morecore s H u (Q : Z -> um -> Prop) : inv s H -> 0 < u -> 8 * u < 2 ^ 31 ->
  (grow (brk s) (8 * asked u) = None -> Q 0 s) ->
  (forall s', inv s' (join H (asked u) []) -> Q (freep s') s') ->
  wp P (morecore u) s Q.
Proof.
  intros Hi Hu Hmax HF HS. unfold morecore. cbv zeta. set (nu := asked u) in *. assert (Hnu : 0 < nu /\ 8 * nu < 2 ^ 31) by (unfold nu; destruct (Z.ltb_spec u 4096); lia).
  replace (s32 (u32 (nu * 8))) with (8 * nu) by (rewrite u32_small, s32_small; unfold is_s32, is_u32; lia).
  pose proof (in_max _ _ Hi) as Hb. pose proof (in_pos _ _ Hi) as Hp. apply wp_bind. unfold wp, sbrk. destruct (grow (brk s) (8 * nu)) as [b|] eqn:E.
  2: { simpl. by apply HF. }
  destruct (Hgrow (brk s) (8 * nu) b ltac:(lia) E) as [Hb1 Hb2]. cbn [wpo]. pose proof (total_nonneg _ Hp). pose proof (in_brk _ _ Hi) as Hbrk.
  rewrite (proj2 (Z.eqb_neq (brk s) (u32 (-1)))) by (change (u32 (-1)) with (2 ^ 32 - 1); lia).
  apply wp_bind, wp_set_size; [right; simpl; lia|]. intros x _. apply wp_bind.
  assert (Hi2 := inv_append s H nu b x Hi ltac:(lia) Hb1 Hb2). rewrite Hbrk.
  eapply (wp_free _ H nu []); [rewrite Hbrk in Hi2; exact Hi2|]. intros s' Hs' _. apply wp_gets. by apply HS.
Qed.

Lemma ring_freep s H : inv s H -> exists X k Y, ring H = X ++ (freep s, k) :: Y /\ valid s (freep s) /\ hdr s !! freep s = Some (Header (first Y base) k).
Proof.
  intros Hi. pose proof (in_freep _ _ Hi) as Hin. apply list_elem_of_fmap in Hin as ([p k] & E & Hin). simpl in E. rewrite E.
  assert (Hin2 := Hin). apply list_elem_of_split in Hin2 as (X & Y & Er). exists X, k, Y. split_and!; [done|by apply (ring_valid s H p k)|]. eapply seg_at. rewrite <- Er. apply Hi.
Qed.

(** The search after the heap has grown ends with a block. *)
Lemma wp_malloc_loop s H u fuel nx (Q : Z -> um -> Prop) : inv s H -> 0 < u -> 8 * u < 2 ^ 31 ->
  (exists X k Y, ring H = X ++ (freep s, k) :: Y /\ nx = first Y base) -> (4 * length (ring H) + 6 <= fuel)%nat ->
  (forall s' H' a, carve u H H' a \/ carve u (join H (asked u) []) H' a -> inv s' H' -> Q (a + 8) s') ->
  (Forall (fun b => b.2 < u) (frees heap0 H) -> grow (brk s) (8 * asked u) = None -> Q 0 s) ->
  wp P (mwhile fuel (malloc_step u) (freep s, nx)) s Q.
Proof.
  intros Hi Hu Hmax Hnx Hf HT HF. set (H' := join H (asked u) []). assert (Hl : (length (ring H') <= S (length (ring H)))%nat).
  { unfold H', join. simpl. rewrite app_nil_r. destruct H as [|[k b] T] using rev_ind; [simpl; lia|]. clear. destruct b; [rewrite join_left_free|rewrite join_left_alloc]; unfold ring; rewrite !frees_app; simpl; rewrite !length_app; simpl; lia. }
  apply (wp_malloc_search s H u Hi Hu Q) with (N := (2 * length (ring H) + 3)%nat); [|done|lia|].
  { intros s' H2 a H1 H3 _. eapply HT; [by left|done]. }
  intros Hsmall fuel' Hf'. unfold more. apply wp_bind, (wp_morecore s H u); [done|done|done| |].
  { intros E. simpl. apply wp_ret, wp_ret. apply HF; [|done]. by apply Forall_cons in Hsmall as [_ Hsmall]. }
  intros s1 Hi1. destruct (ring_freep s1 H' Hi1) as (X & k & Y & Er & Hv & Hh).
  assert (Hfp : freep s1 <> 0) by (destruct Hv as [->|Hv]; lia). rewrite (proj2 (Z.eqb_neq _ _)) by done. apply wp_bind. eapply wp_get_ptr; [exact Hv|exact Hh|]. apply wp_ret.
  apply (wp_malloc_search s1 H' u Hi1 Hu Q) with (N := 0%nat); [|by exists X, k, Y|lia|].
  { intros s' H2 a H1 H3 _. eapply HT; [by right|done]. }
  intros Hno. exfalso. destruct (join_has_big H (asked u)) as (a & m & Hin & Hm); [destruct (Z.ltb_spec u 4096); lia|apply Hi|].
  eapply Forall_forall in Hno; [|exact Hin]. simpl in Hno. destruct (Z.ltb_spec u 4096); lia.
Qed.

(** Before the first call nothing is set up. *)
Definition usable (s : um) (H : blocks) : Prop := inv s H \/ (H = [] /\ freep s = 0 /\ brk s = heap0 /\ heap0 < 2 ^ 31).

Lemma wp_malloc s H nbytes (Q : Z -> um -> Prop) : let u := (nbytes + 7) / 8 + 1 in usable s H -> 0 <= nbytes <= 2 ^ 31 - 16 ->
  (forall s' H' a, carve u H H' a \/ carve u (join H (asked u) []) H' a -> inv s' H' -> Q (a + 8) s') ->
  (forall s', inv s' H -> Forall (fun b => b.2 < u) (frees heap0 H) -> grow (brk s) (8 * asked u) = None -> Q 0 s') ->
  wp P (malloc nbytes) s Q.
Proof.
  intros u Hs Hn HT HF. assert (Hu : 0 < u /\ 8 * u < 2 ^ 31) by (unfold u; Z.to_euclidean_division_equations; lia). unfold malloc. cbv zeta.
  replace (u32 (nbytes + 8 - 1) / 8 + 1) with u by (rewrite u32_small; unfold is_u32, u; repeat f_equal; lia).
  assert (Hgo : forall s1, inv s1 H -> brk s1 = brk s ->
    wp P (prevp <- gets freep ;; p <- get_ptr prevp ;; st <- gets id ;; mwhile (4 * size (hdr st) + 6) (malloc_step u) (prevp, p)) s1 Q).
  { intros s1 Hi Hb. destruct (ring_freep s1 H Hi) as (X & k & Y & Er & Hv & Hh). apply wp_bind, wp_gets, wp_bind. eapply wp_get_ptr; [exact Hv|exact Hh|]. apply wp_bind, wp_gets. unfold id.
    pose proof (ring_size s1 H Hi). apply (wp_malloc_loop s1 H u); [done|lia|lia|by exists X, k, Y|lia|done|]. intros H1 H2. apply HF; [done|done|by rewrite <- Hb]. }
  apply wp_bind, wp_gets, wp_bind. destruct Hs as [Hi|(-> & Hf & Hb & Hm)].
  - destruct (ring_freep s H Hi) as (X & k & Y & Er & Hv & Hh). assert (Hfp : freep s <> 0) by (destruct Hv as [->|Hv]; lia).
    rewrite (proj2 (Z.eqb_neq _ _)) by done. apply wp_ret. by apply Hgo.
  - rewrite Hf. simpl. apply wp_bind. unfold set_ptr, set_hdr. apply wp_bind, wp_get_hdr; [by left|]. apply wp_modify, wp_bind, wp_modify, wp_set_size; [by left|].
    intros x Hx. simpl in Hx. specialize (Hx _ (lookup_insert_eq _ _ _)). simpl in Hx. subst x. apply Hgo; [|done]. split; simpl.
    + rewrite lookup_insert_eq. done.
    + intros a n Hin. by apply elem_of_nil in Hin.
    + constructor.
    + done.
    + rewrite Hb. unfold total. simpl. lia.
    + lia.
    + by left.
Qed.
End rules.

Lemma allocs_disjoint H : forall x a n b m, Forall (fun b => 0 < b.1) H -> (a, n) ∈ allocs x H -> (b, m) ∈ allocs x H -> a <> b -> a + 8 * n <= b \/ b + 8 * m <= a.
Proof.
  induction H as [|[k []] H IH]; intros x a n b m Hp Ha Hb Hne; cbn [allocs] in *; [by apply elem_of_nil in Ha|..]; apply Forall_cons in Hp as [Hk Hp]; simpl in Hk.
  - by eapply IH.
  - apply elem_of_cons in Ha as [[= -> ->]|Ha], Hb as [[= -> ->]|Hb]; [done| | |by eapply IH].
    + apply allocs_bounds in Hb; [lia|done].
    + apply allocs_bounds in Ha; [lia|done].
Qed.
Lemma allocs_nodup H : forall a, Forall (fun b => 0 < b.1) H -> NoDup (allocs a H).*1.
Proof.
  induction H as [|[m [|]] H IH]; intros a Hp; simpl; [constructor|..]; apply Forall_cons in Hp as [Hm Hp]; simpl in Hm; [by apply IH|].
  apply NoDup_cons. split; [|by apply IH]. intros ([b n] & -> & Hin)%list_elem_of_fmap. apply allocs_bounds in Hin; [|done]. simpl in Hin. lia.
Qed.
Lemma grown_allocs s H n : inv s H -> 0 < n -> allocs heap0 (join H n []) = allocs heap0 H.
Proof.
  intros Hi Hn. unfold join. simpl. rewrite app_nil_r. destruct H as [|[k b] T] using rev_ind; [done|].
  destruct b; [rewrite join_left_free|rewrite join_left_alloc]; rewrite !allocs_app; simpl; [by rewrite !app_nil_r|done].
Qed.

(** C15: [malloc] returns memory that nobody else has.  For a request of [nbytes]
    it returns the address of a block of at least [nbytes] bytes that does not
    overlap any block that is allocated, and all of these stay allocated where
    they are; or 0, only when no free block is large enough and the kernel grants
    no more memory. *)
Theorem malloc_correct s H nbytes : usable s H -> 0 <= nbytes <= 2 ^ 31 - 16 ->
  exists r s' H', malloc nbytes s = Ret r s' /\ inv s' H' /\
    ((exists u, nbytes + 8 <= 8 * u /\ allocs heap0 H' ≡ₚ (r - 8, u) :: allocs heap0 H /\
        forall a n, (a, n) ∈ allocs heap0 H -> a + 8 * n <= r - 8 \/ r + nbytes <= a) \/
     (r = 0 /\ H' = H /\ (forall a n, (a, n) ∈ frees heap0 H -> 8 * n < nbytes + 16) /\ exists k, 0 < k /\ grow (brk s) k = None)).
Proof.
  intros Hs Hn. set (u := (nbytes + 7) / 8 + 1). assert (Hu : nbytes + 8 <= 8 * u < nbytes + 16) by (unfold u; Z.to_euclidean_division_equations; lia).
  assert (W : wp strict (malloc nbytes) s (fun r s' =>
    (exists H' a, r = a + 8 /\ inv s' H' /\ allocs heap0 H' ≡ₚ (a, u) :: allocs heap0 H) \/
    (r = 0 /\ inv s' H /\ Forall (fun b => b.2 < u) (frees heap0 H) /\ exists k, 0 < k /\ grow (brk s) k = None))).
  { eapply wp_malloc; [exact Hs|exact Hn| |].
    - intros s' H' a Hc Hi'. left. exists H', a. split_and!; [done|done|]. destruct Hc as [Hc|Hc]; rewrite (carve_allocs _ _ _ _ Hc); [done|]. fold u.
      destruct Hs as [Hi|(-> & _)]; [rewrite (grown_allocs s) by (done || (destruct (Z.ltb_spec u 4096); lia)); done|done].
    - intros s' Hi' Hsm Hg. right. split_and!; [done|done|done|]. exists (8 * (if u <? 4096 then 4096 else u)). split; [destruct (Z.ltb_spec u 4096); lia|exact Hg]. }
  apply wp_strict in W as (r & s' & E & [(H' & a & -> & Hi' & Hp)|(-> & Hi' & Hsm & Hk)]).
  - exists (a + 8), s', H'. split_and!; [done|done|]. left. exists u. replace (a + 8 - 8) with a by lia. split_and!; [lia|done|]. intros b n Hb.
    pose proof (in_pos _ _ Hi') as Hpos. assert (Hd := allocs_nodup _ heap0 Hpos). rewrite Hp in Hd. simpl in Hd. apply NoDup_cons in Hd as [Hd _].
    destruct (allocs_disjoint H' heap0 b n a u Hpos) as [?|?]; [rewrite Hp; by right|rewrite Hp; by left| |by left|right; lia].
    intros ->. apply Hd. apply list_elem_of_fmap. by exists (a, n).
  - exists 0, s', H. split_and!; [done|done|]. right. split_and!; [done|done| |done]. intros a n Hin. eapply Forall_forall in Hsm; [|exact Hin]. simpl in Hsm. lia.
Qed.

Lemma coalesced_single H : Forall (fun b => 0 < b.1) H -> coalesced false H -> H <> [] -> (forall a, allocs a H = []) -> H = [(total H, true)].
Proof.
  intros Hp Hc Hne Ha. destruct H as [|[n b] H]; [done|]. destruct b; [|by specialize (Ha 0)]. destruct H as [|[m c] H]; [unfold total; simpl; do 2 f_equal; lia|].
  destruct Hc as [_ [Hc _]]. destruct c; [done|]. by specialize (Ha 0).
Qed.
Lemma allocs_nil H : forall a b, allocs a H = [] -> allocs b H = [].
Proof. induction H as [|[n []] H IH]; intros a b E; [done|by eapply IH|done]. Qed.

(** C16: [free] of an allocated block takes it back: exactly the other blocks stay
    allocated, the break does not move, and free memory is coalesced: when no
    block is left the whole heap is one free block again. *)
Theorem free_correct s H p n : inv s H -> (p, n) ∈ allocs heap0 H ->
  exists s' H', free (p + 8) s = Ret tt s' /\ inv s' H' /\ allocs heap0 H ≡ₚ (p, n) :: allocs heap0 H' /\ brk s' = brk s /\
    (allocs heap0 H' = [] -> frees heap0 H' = [(heap0, (brk s - heap0) / 8)]).
Proof.
  intros Hi Hin. destruct (allocs_split H heap0 p n Hin) as (H1 & H2 & -> & ->).
  assert (W : wp strict (free (heap0 + 8 * total H1 + 8)) s (fun _ s' => inv s' (join H1 n H2) /\ brk s' = brk s)) by (eapply (wp_free _ _ H1 n H2); [exact Hi|done]).
  apply wp_strict in W as ([] & s' & E & Hi' & Hb). exists s', (join H1 n H2). split_and!; [done|done| |done|].
  - rewrite (join_allocs s H1 n H2 Hi), allocs_app. simpl. by rewrite <- Permutation_middle.
  - intros Ha. destruct (join_rest s H1 n H2 Hi) as (J1 & J2 & J3).
    assert (Hne : join H1 n H2 <> []) by (unfold join; destruct (join_right n H2) as [m T]; destruct H1 as [|[k b] T1] using rev_ind; [done|]; destruct b; [rewrite join_left_free|rewrite join_left_alloc]; by destruct T1).
    assert (Es : join H1 n H2 = [(total (join H1 n H2), true)]) by (apply coalesced_single; [done..|]; intros a; by eapply allocs_nil). rewrite Es. simpl.
    rewrite J3, (in_brk _ _ Hi). do 2 f_equal. Z.to_euclidean_division_equations. lia.
Qed.
End umalloc.

(** ** A concrete process *)

(** The heap starts at 4096, [base] is a static variable at 256, and the kernel
    gives at most a megabyte. *)
Definition demo_grow (b n : Z) : option Z := if b + n <? 2 ^ 20 then Some (b + n) else None.
Definition demo_um : um := Um ∅ 0 4096.
Lemma demo_grow_ok b n b' : 0 < n -> demo_grow b n = Some b' -> b' = b + n /\ b' < 2 ^ 31.
Proof. unfold demo_grow. destruct (Z.ltb_spec (b + n) (2 ^ 20)); intros; simplify_eq; lia. Qed.
Lemma demo_usable : usable 256 4096 demo_um [].
Proof. by right. Qed.

Lemma malloc_witness : exists r s' H', malloc 256 4096 demo_grow 100 demo_um = Ret r s' /\ inv 256 4096 s' H' /\ r <> 0.
Proof.
  destruct (malloc_correct 256 4096 demo_grow ltac:(lia) ltac:(lia) demo_grow_ok demo_um [] 100 demo_usable ltac:(lia)) as (r & s' & H' & E & Hi & Hc).
  exists r, s', H'. split_and!; [exact E|exact Hi|]. destruct Hc as [(u & _ & Hp & _)|(-> & _)]; [|vm_compute in E; discriminate E].
  intros ->. assert (Hin : (0 - 8, u) ∈ allocs 4096 H') by (rewrite Hp; by left). apply allocs_bounds in Hin; [lia|apply Hi].
Defined.

(** The heap after one [malloc]: 4082 units are free, 14 are allocated. *)
Definition demo_one : um := Um (<[36752 := Header 0 14]> (<[4096 := Header 256 4082]> {[256 := Header 4096 0]})) 256 36864.
Lemma demo_one_inv : inv 256 4096 demo_one [(4082, true); (14, false)].
Proof.
  split; [by vm_compute| | | |by vm_compute|by vm_compute|]; [..|simpl; set_solver].
  - intros a n Hin. apply list_elem_of_singleton in Hin as [= -> ->]. exists 0. by vm_compute.
  - repeat constructor; simpl; lia.
  - simpl. done.
Qed.
Lemma free_witness : exists s' H', free 256 4096 36760 demo_one = Ret tt s' /\ inv 256 4096 s' H' /\ frees 4096 H' = [(4096, 4096)].
Proof.
  destruct (free_correct 256 4096 demo_grow ltac:(lia) ltac:(lia) demo_grow_ok demo_one _ 36752 14 demo_one_inv ltac:(simpl; left)) as (s' & H' & E & Hi & Hp & _ & Hf).
  exists s', H'. split_and!; [exact E|exact Hi|]. apply Hf. apply Permutation_singleton_l in Hp. by injection Hp.
Defined.
End Umalloc.
