(* ===== verification/Sleeplock.v ===== *)
(** * Sleep locks (sleeplock.c)

    The long-term locks of buffers and inodes.  A lock is part of a larger
    object; its operations take the accessors of the object. *)

From S2P Require Import Prelude.

Module Sleep.

(** [struct sleeplock].  [spin] is the spin lock [lk->lk]; [wakeups] counts the
    calls of [wakeup(lk)], whose effect on the sleepers is that of [wakeup] in
    proc.c. *)
Record sleeplock := Sleeplock {
  spin : bool;
  locked : Z;
  pid : Z;
  wakeups : nat;
}.
#[global] Instance sleeplock_eta : Eta sleeplock := fun r =>
  Sleeplock (spin r) (locked r) (pid r) (wakeups r).

Definition initsleeplock (lk : sleeplock) : sleeplock :=
  lk <| spin := false |> <| locked := 0 |> <| pid := 0 |>.

Section ops.
Context {S : Type}.
(** Read and write the lock in its object; the pid of the caller; a bound on
    the number of times the caller is woken while the lock is held. *)
Context (rd : M S sleeplock) (wr : sleeplock -> M S unit) (mypid : Z) (fuel : nat).

Definition acquire : M S unit :=
  lk <- rd ;; if spin lk then (fun s => Spin s) else wr (lk <| spin := true |>).
Definition release : M S unit :=
  lk <- rd ;; if spin lk then wr (lk <| spin := false |>) else panic "release".
(** [sleep(lk, &lk->lk)] *)
Definition sleep : M S unit := release ;;; swtch ;;; acquire.
Definition wakeup : M S unit := lk <- rd ;; wr (lk <| wakeups ::= Datatypes.S |>).

(** One test of [while (lk->locked)]. *)
Definition wait_step (_ : unit) : M S (unit + unit) :=
  lk <- rd ;; if locked lk =? 0 then ret (inr tt) else sleep ;;; ret (inl tt).

Definition acquiresleep : M S unit :=
  acquire ;;;
  mwhile fuel wait_step tt ;;;
  (lk <- rd ;; wr (lk <| locked := 1 |> <| pid := mypid |>)) ;;;
  release.

Definition releasesleep : M S unit :=
  acquire ;;;
  (lk <- rd ;; wr (lk <| locked := 0 |> <| pid := 0 |>)) ;;;
  wakeup ;;;
  release.

Definition holdingsleep : M S Z :=
  acquire ;;;
  lk <- rd ;;
  release ;;;
  ret (locked lk).

(** ** Uncontended locks *)

(** The lock [lk] is what the accessors see in [s]; writing it gives [put]. *)
Context (put : sleeplock -> S -> S) (has : S -> sleeplock -> Prop).
Context (Hrd : forall s lk, has s lk -> rd s = Ret lk s).
Context (Hwr : forall s lk lk', has s lk -> wr lk' s = Ret tt (put lk' s) /\ has (put lk' s) lk').
Context (Hput : forall s lk lk' lk'', has s lk -> put lk'' (put lk' s) = put lk'' s).

Lemma acquire_free s lk : has s lk -> spin lk = false ->
  acquire s = Ret tt (put (lk <| spin := true |>) s).
Proof. intros Hs Hl. unfold acquire. rewrite (run_bind _ _ _ _ _ (Hrd s lk Hs)), Hl. by eapply Hwr. Qed.
Lemma release_held s lk : has s lk -> spin lk = true ->
  release s = Ret tt (put (lk <| spin := false |>) s).
Proof. intros Hs Hl. unfold release. rewrite (run_bind _ _ _ _ _ (Hrd s lk Hs)), Hl. by eapply Hwr. Qed.

Lemma acquiresleep_free s lk : has s lk -> spin lk = false -> locked lk = 0 -> (0 < fuel)%nat ->
  acquiresleep s = Ret tt (put (lk <| locked := 1 |> <| pid := mypid |>) s).
Proof.
  intros Hs Hl Hk Hf. unfold acquiresleep.
  rewrite (run_bind _ _ _ _ _ (acquire_free s lk Hs Hl)).
  destruct (Hwr s lk (lk <| spin := true |>) Hs) as [_ H1].
  destruct fuel as [|n]; [lia|]. cbn [mwhile].
  assert (H2 : wait_step tt (put (lk <| spin := true |>) s) = Ret (inr tt) (put (lk <| spin := true |>) s)).
  { unfold wait_step. rewrite (run_bind _ _ _ _ _ (Hrd _ _ H1)). simpl. by rewrite Hk. }
  erewrite run_bind; [|erewrite run_bind; [|exact H2]; reflexivity].
  erewrite run_bind; [|erewrite run_bind; [|exact (Hrd _ _ H1)]; exact (proj1 (Hwr _ _ _ H1))].
  destruct (Hwr _ _ (lk <| spin := true |> <| locked := 1 |> <| pid := mypid |>) H1) as [_ H3].
  rewrite (release_held _ _ H3) by done. f_equal. rewrite (Hput _ _ _ _ H1), (Hput _ _ _ _ Hs).
  f_equal. destruct lk; simpl in *; congruence.
Qed.

Lemma releasesleep_free s lk : has s lk -> spin lk = false ->
  releasesleep s = Ret tt (put (lk <| locked := 0 |> <| pid := 0 |> <| wakeups ::= Datatypes.S |>) s).
Proof.
  intros Hs Hl. unfold releasesleep.
  rewrite (run_bind _ _ _ _ _ (acquire_free s lk Hs Hl)).
  destruct (Hwr s lk (lk <| spin := true |>) Hs) as [_ H1].
  erewrite run_bind; [|erewrite run_bind; [|exact (Hrd _ _ H1)]; exact (proj1 (Hwr _ _ _ H1))].
  destruct (Hwr _ _ (lk <| spin := true |> <| locked := 0 |> <| pid := 0 |>) H1) as [_ H2].
  erewrite run_bind; [|unfold wakeup; erewrite run_bind; [|exact (Hrd _ _ H2)]; exact (proj1 (Hwr _ _ _ H2))].
  destruct (Hwr _ _ (lk <| spin := true |> <| locked := 0 |> <| pid := 0 |> <| wakeups ::= Datatypes.S |>) H2) as [_ H3].
  rewrite (release_held _ _ H3) by done. f_equal.
  rewrite (Hput _ _ _ _ H2), (Hput _ _ _ _ H1), (Hput _ _ _ _ Hs). f_equal. destruct lk; simpl in *; congruence.
Qed.

Lemma holdingsleep_free s lk : has s lk -> spin lk = false -> holdingsleep s = Ret (locked lk) (put lk s).
Proof.
  intros Hs Hl. unfold holdingsleep.
  rewrite (run_bind _ _ _ _ _ (acquire_free s lk Hs Hl)).
  destruct (Hwr s lk (lk <| spin := true |>) Hs) as [_ H1].
  rewrite (run_bind _ _ _ _ _ (Hrd _ _ H1)), (run_bind _ _ _ _ _ (release_held _ _ H1 eq_refl)).
  unfold ret. f_equal. rewrite (Hput _ _ _ _ Hs). f_equal. destruct lk; simpl in *; congruence.
Qed.

(** *** A lock that is held

    A process that asks for the lock gives up the processor, and again each of
    the first [n] times it gets the processor back with the lock still held. *)
Definition is_held (s : S) : Prop := exists lk, has s lk /\ spin lk = false /\ locked lk <> 0.
Fixpoint waits {A} (n : nat) (o : out S A) : Prop :=
  match n with
  | O => True
  | Datatypes.S n => exists s k, o = Swtch s k /\ is_held s /\ forall s', is_held s' -> waits n (k s')
  end.

Lemma waits_obind {A B} n : forall (o : out S A) (f : A -> M S B), waits n o -> waits n (obind o f).
Proof.
  induction n as [|n IH]; intros o f; [done|]. intros (s & k & -> & Hs & Hk). cbn [obind].
  exists s. eexists. split; [reflexivity|]. split; [done|]. intros s' Hs'. by apply IH, Hk.
Qed.

Lemma wait_loop_waits n : forall m s lk, (n <= m)%nat -> has s lk -> spin lk = true -> locked lk <> 0 ->
  waits n (mwhile m wait_step tt s).
Proof.
  induction n as [|n IH]; intros m s lk Hm Hs Hsp Hl; [done|]. destruct m as [|m]; [lia|].
  set (lk1 := lk <| spin := false |>). destruct (Hwr s lk lk1 Hs) as [E1 H1].
  cbn [mwhile]. unfold wait_step at 1, sleep, bind. rewrite (Hrd s lk Hs). cbn [obind].
  rewrite (proj2 (Z.eqb_neq _ _) Hl). rewrite (release_held s lk Hs Hsp). fold lk1. cbn [obind swtch].
  exists (put lk1 s). eexists. split; [reflexivity|]. split; [by exists lk1|].
  intros s' (lk' & Hs' & Hsp' & Hl'). cbn beta. rewrite (acquire_free s' lk' Hs' Hsp'). cbn [obind ret].
  destruct (Hwr s' lk' (lk' <| spin := true |>) Hs') as [_ H2]. by eapply IH; [lia|exact H2| |].
Qed.

Lemma acquiresleep_waits {A} n s (f : unit -> M S A) : (n <= fuel)%nat -> is_held s -> waits n (bind acquiresleep f s).
Proof.
  intros Hn (lk & Hs & Hsp & Hl). unfold bind. apply waits_obind. unfold acquiresleep, bind.
  rewrite (acquire_free s lk Hs Hsp). cbn [obind]. destruct (Hwr s lk (lk <| spin := true |>) Hs) as [_ H2].
  apply waits_obind. by eapply wait_loop_waits; [exact Hn|exact H2| |].
Qed.
End ops.
End Sleep.
