(* ===== verification/Block.v ===== *)
(** * The block store

    What the log uses of the buffer cache ([BlockStore]), what the file system
    uses of the log ([TxStore]), and what they promise ([BlockStoreOk],
    [TxStoreOk]): reads return the last content of a block, a block is held at
    most once, nothing written is lost. *)

From S2P Require Import Prelude Params Bytes.

Definition BSIZE : nat := 512.
Definition ROOTDEV : Z := 1.
Definition B_VALID : Z := 0x2.
Definition B_DIRTY : Z := 0x4.

(** A buffer is known by its index in the cache.  [b_data] is [b->data], and
    [b_update] sets it to [f(b->data)]. *)
Class Buffers (S : Type) := {
  bread : Z -> Z -> M S nat;
  brelse : nat -> M S unit;
  b_data : nat -> M S (list Z);
  b_update : nat -> (list Z -> list Z) -> M S unit;
}.

(** What the log uses in addition: [b->blockno], [b->flags |= B_DIRTY], and the
    write to the disk. *)
Class BlockStore (S : Type) := {
  bs_buffers :: Buffers S;
  b_blockno : nat -> M S Z;
  b_pin : nat -> M S unit;
  bwrite : nat -> M S unit;
}.

(** What the file system uses in addition. *)
Class TxStore (S : Type) := {
  tx_buffers :: Buffers S;
  log_write : nat -> M S unit;
}.

(** What the system calls use: [begin_op] and [end_op]. *)
Class TxOps (S : Type) := {
  to_tx :: TxStore S;
  begin_op : M S unit;
  end_op : M S unit;
}.

(** The abstract store: the content of each block as the kernel sees it, its
    content on disk, the blocks held with their buffers, the blocks with a
    dirty buffer, and the writes to the disk so far. *)
Record bview := BView {
  cont : Z -> list Z;
  dsk : Z -> list Z;
  held : gmap Z nat;
  pinned : gset Z;
  writes : list (Z * list Z);
}.
#[export] Instance bview_eta : Eta bview := fun r =>
  BView (cont r) (dsk r) (held r) (pinned r) (writes r).

Definition fupd {A} (f : Z -> A) (k : Z) (v : A) : Z -> A := fun x => if decide (x = k) then v else f x.

Lemma fupd_eq {A} (f : Z -> A) k v : fupd f k v k = v.
Proof. unfold fupd. by rewrite decide_True. Qed.
Lemma fupd_ne {A} (f : Z -> A) k v x : x <> k -> fupd f k v x = f x.
Proof. intros H. unfold fupd. by rewrite decide_False. Qed.

(** Views with the same blocks. *)
#[export] Instance bview_equiv : Equiv bview := fun v w =>
  (forall x, cont v x = cont w x) /\ (forall x, dsk v x = dsk w x) /\
  held v = held w /\ pinned v = pinned w /\ writes v = writes w.
#[export] Instance bview_equivalence : Equivalence (≡@{bview}).
Proof.
  split.
  - by intros v.
  - intros v w (H1 & H2 & H3 & H4 & H5). split_and!; by symmetry.
  - intros u v w (H1 & H2 & H3 & H4 & H5) (J1 & J2 & J3 & J4 & J5).
    split_and!; intros; etrans; eauto.
Qed.

(** The blocks with a buffer that cannot be recycled. *)
Definition busy (v : bview) : gset Z := dom (held v) ∪ pinned v.

Lemma size_add_le (x : Z) (X : gset Z) : (size ({[x]} ∪ X) <= 1 + size X)%nat.
Proof.
  rewrite size_union_alt, size_singleton. assert (size (X ∖ {[x]}) <= size X)%nat; [|lia].
  apply subseteq_size. set_solver.
Qed.

Lemma size_union_le (X Y : gset Z) : (size (X ∪ Y) <= size X + size Y)%nat.
Proof.
  rewrite size_union_alt. assert (size (Y ∖ X) <= size Y)%nat; [|lia]. apply subseteq_size. set_solver.
Qed.

Class BuffersOk (S : Type) `{Buffers S} := {
  nblocks : Z;
  capacity : nat;
  rep : S -> bview -> Prop;
  rep_equiv s v w : v ≡ w -> rep s v -> rep s w;
  rep_len s v bn : rep s v -> 0 <= bn < nblocks -> length (cont v bn) = BSIZE;
  bread_ok s v bn : rep s v -> 0 <= bn < nblocks -> held v !! bn = None ->
    (bn ∈ pinned v \/ (size (busy v) < capacity)%nat) ->
    exists h s', bread ROOTDEV bn s = Ret h s' /\ rep s' (v <| held ::= <[bn := h]> |>);
  b_data_ok s v bn h : rep s v -> held v !! bn = Some h -> b_data h s = Ret (cont v bn) s;
  b_update_ok s v bn h f : rep s v -> held v !! bn = Some h ->
    length (f (cont v bn)) = BSIZE ->
    exists s', b_update h f s = Ret tt s' /\ rep s' (v <| cont := fupd (cont v) bn (f (cont v bn)) |>);
  brelse_ok s v bn h : rep s v -> held v !! bn = Some h ->
    (bn ∈ pinned v \/ cont v bn = dsk v bn) ->
    exists s', brelse h s = Ret tt s' /\ rep s' (v <| held ::= delete bn |>);
}.

Class BlockStoreOk (S : Type) `{BlockStore S} := {
  bs_ok :: BuffersOk S;
  b_blockno_ok s v bn h : rep s v -> held v !! bn = Some h -> b_blockno h s = Ret bn s;
  b_pin_ok s v bn h : rep s v -> held v !! bn = Some h ->
    exists s', b_pin h s = Ret tt s' /\ rep s' (v <| pinned ::= union {[bn]} |>);
  bwrite_ok s v bn h : rep s v -> held v !! bn = Some h ->
    exists s', bwrite h s = Ret tt s' /\
      rep s' (v <| dsk := fupd (dsk v) bn (cont v bn) |>
                <| pinned ::= fun p => p ∖ {[bn]} |>
                <| writes ::= fun l => l ++ [(bn, cont v bn)] |>);
}.

(** A transaction has room for [tx_room] blocks, all of them home blocks: those
    on the disk that the log does not use for itself. *)
Class TxStoreOk (S : Type) `{TxStore S} := {
  tx_ok :: BuffersOk S;
  tx_room : nat;
  home_block : Z -> Prop;
  home_disk bn : home_block bn -> 0 <= bn < nblocks;
  log_write_ok s v bn h : rep s v -> held v !! bn = Some h -> home_block bn -> (size (pinned v) < tx_room)%nat ->
    exists s', log_write h s = Ret tt s' /\ rep s' (v <| pinned ::= union {[bn]} |>);
}.

(** A system call that starts when no other is in progress and ends: the content
    is on the disk before ([quiet]) and, but for the blocks of the log, after. *)
Class TxOpsOk (S : Type) `{TxOps S} := {
  to_ok :: TxStoreOk S;
  quiet : S -> (Z -> list Z) -> Prop;
  begin_op_ok s c : quiet s c -> exists s' v, begin_op s = Ret tt s' /\ rep s' v /\
    (forall x, cont v x = c x) /\ (forall x, dsk v x = c x) /\ held v = ∅ /\ pinned v = ∅;
  end_op_ok s v : rep s v -> held v = ∅ -> (size (pinned v) <= tx_room)%nat -> (size (pinned v) < capacity)%nat ->
    (forall x, x ∉ pinned v -> cont v x = dsk v x) ->
    exists s' c, end_op s = Ret tt s' /\ quiet s' c /\ forall x, home_block x -> c x = cont v x;
}.

#[export] Instance rep_proper {S} `{BuffersOk S} (s : S) : Proper ((≡) ==> iff) (rep s).
Proof. intros v w Hvw. split; by apply rep_equiv. Qed.

(** ** The super block (fs.h, fs.c) *)

Record superblock := Superblock {
  sb_size : Z;
  sb_nblocks : Z;
  sb_ninodes : Z;
  sb_nlog : Z;
  sb_logstart : Z;
  sb_inodestart : Z;
  sb_bmapstart : Z;
}.

(** [memmove(sb, bp->data, sizeof( *sb))] *)
Definition sb_of (d : list Z) : superblock :=
  Superblock (get32 0 d) (get32 4 d) (get32 8 d) (get32 12 d) (get32 16 d) (get32 20 d) (get32 24 d).

Definition readsb {S} `{Buffers S} (dev : Z) : M S superblock :=
  bp <- bread dev 1 ;;
  d <- b_data bp ;;
  brelse bp ;;;
  ret (sb_of d).

Lemma readsb_ok {S} `{BuffersOk S} (s : S) v :
  rep s v -> 0 <= 1 < nblocks -> held v !! 1 = None -> (1 ∈ pinned v \/ (size (busy v) < capacity)%nat) ->
  (1 ∈ pinned v \/ cont v 1 = dsk v 1) ->
  exists s', readsb ROOTDEV s = Ret (sb_of (cont v 1)) s' /\ rep s' v.
Proof.
  intros Hr H1 Hh Hc Hd. destruct (bread_ok s v 1 Hr H1 Hh Hc) as (h & s1 & E1 & R1).
  assert (Hh1 : held (v <| held ::= <[1 := h]> |>) !! 1 = Some h) by apply lookup_insert_eq.
  pose proof (b_data_ok s1 _ 1 h R1 Hh1) as E2. destruct (brelse_ok s1 _ 1 h R1 Hh1 Hd) as (s2 & E3 & R2).
  exists s2. split; [unfold readsb; run E1; run E2; by run E3|]. eapply rep_equiv; [|exact R2]. split_and!; try done.
  simpl. by apply delete_insert_id.
Qed.
