(* ===== verification/Bio.v ===== *)
(** * The buffer cache (bio.c, memide.c)

    The cache as a doubly linked ring of buffers in front of the in-memory disk
    driver memide.c, for a process that runs without interference by others:
    a buffer that is locked stays locked.  The theorems show that the cache is
    a block store in the sense of [BlockStoreOk]. *)

From S2P Require Import Prelude Params Bytes Sleeplock Block.

Module Bio.

Record buf := Buf {
  flags : Z;
  dev : Z;
  blockno : Z;
  lk : Sleep.sleeplock;
  refcnt : Z;
  prev : nat;
  next : nat;
  data : list Z;
}.
#[export] Instance buf_eta : Eta buf := fun r =>
  Buf (flags r) (dev r) (blockno r) (lk r) (refcnt r) (prev r) (next r) (data r).

(** [bcache] and the disk.  The buffer of index [HEAD] is [bcache.head]. *)
Record bcache := Bcache {
  lock : bool;
  bufs : list buf;
  disk : list (list Z);
  trace : list (Z * list Z);
}.
#[export] Instance bcache_eta : Eta bcache := fun r =>
  Bcache (lock r) (bufs r) (disk r) (trace r).

Definition HEAD : nat := NBUF.

Definition acquire : M bcache unit := fun s =>
  if lock s then Spin s else Ret tt (s <| lock := true |>).
Definition release : M bcache unit := fun s =>
  if lock s then Ret tt (s <| lock := false |>) else Panic "release" s.

Definition get_buf (i : nat) : M bcache buf := fun s =>
  match bufs s !! i with Some b => Ret b s | None => Fault s end.
Definition set_buf (i : nat) (f : buf -> buf) : M bcache unit := fun s =>
  match bufs s !! i with Some b => Ret tt (s <| bufs ::= <[i := f b]> |>) | None => Fault s end.

(** [b] goes in front of the list. *)
Definition push_front (b : nat) : M bcache unit :=
  hd <- get_buf HEAD ;;
  set_buf b (fun x => x <| next := next hd |>) ;;;
  set_buf b (fun x => x <| prev := HEAD |>) ;;;
  set_buf (next hd) (fun x => x <| prev := b |>) ;;;
  set_buf HEAD (fun x => x <| next := b |>).

(** One turn of the loop of [binit]. *)
Definition binit_step (b : nat) : M bcache unit :=
  hd <- get_buf HEAD ;;
  set_buf b (fun x => x <| next := next hd |>) ;;;
  set_buf b (fun x => x <| prev := HEAD |>) ;;;
  set_buf b (fun x => x <| lk ::= Sleep.initsleeplock |>) ;;;
  hd <- get_buf HEAD ;;
  set_buf (next hd) (fun x => x <| prev := b |>) ;;;
  set_buf HEAD (fun x => x <| next := b |>).

Definition binit : M bcache unit :=
  modify (fun s => s <| lock := false |>) ;;;
  set_buf HEAD (fun x => x <| prev := HEAD |>) ;;;
  set_buf HEAD (fun x => x <| next := HEAD |>) ;;;
  meach (seq 0 NBUF) binit_step.

Section ops.
(** The pid of the caller, and the bound on its wakeups while it waits for a
    sleep lock. *)
Context (mypid : Z) (fuel : nat).

Definition rd_lk (i : nat) : M bcache Sleep.sleeplock := b <- get_buf i ;; ret (lk b).
Definition wr_lk (i : nat) (l : Sleep.sleeplock) : M bcache unit := set_buf i (fun x => x <| lk := l |>).
Definition acquiresleep (i : nat) : M bcache unit := Sleep.acquiresleep (rd_lk i) (wr_lk i) mypid fuel.
Definition releasesleep (i : nat) : M bcache unit := Sleep.releasesleep (rd_lk i) (wr_lk i).
Definition holdingsleep (i : nat) : M bcache Z := Sleep.holdingsleep (rd_lk i) (wr_lk i).

(** The searches of [bget]: forward for the block, backward for a buffer to
    recycle.  The list has [NBUF] buffers and the head. *)
Definition find_by (step : buf -> nat) (ok : buf -> bool) (b : nat) : M bcache (nat + option nat) :=
  if decide (b = HEAD) then ret (inr None)
  else x <- get_buf b ;; if ok x then ret (inr (Some b)) else ret (inl (step x)).
Definition find_cached (dv bno : Z) : nat -> M bcache (nat + option nat) :=
  find_by next (fun x => (dev x =? dv) && (blockno x =? bno)).
Definition find_unused : nat -> M bcache (nat + option nat) :=
  find_by prev (fun x => (refcnt x =? 0) && (Z.land (flags x) B_DIRTY =? 0)).

Definition bget (dv bno : Z) : M bcache nat :=
  acquire ;;;
  hd <- get_buf HEAD ;;
  r <- mwhile (S NBUF) (find_cached dv bno) (next hd) ;;
  match r with
  | Some b =>
      set_buf b (fun x => x <| refcnt ::= fun n => u32 (n + 1) |>) ;;;
      release ;;; acquiresleep b ;;; ret b
  | None =>
      hd <- get_buf HEAD ;;
      r <- mwhile (S NBUF) find_unused (prev hd) ;;
      match r with
      | Some b =>
          set_buf b (fun x => x <| dev := dv |>) ;;;
          set_buf b (fun x => x <| blockno := bno |>) ;;;
          set_buf b (fun x => x <| flags := 0 |>) ;;;
          set_buf b (fun x => x <| refcnt := 1 |>) ;;;
          release ;;; acquiresleep b ;;; ret b
      | None => panic "bget: no buffers"
      end
  end.

(** memide.c *)
Definition iderw (b : nat) : M bcache unit :=
  h <- holdingsleep b ;;
  if h =? 0 then panic "iderw: buf not locked"
  else
    x <- get_buf b ;;
    if Z.land (flags x) (Z.lor B_VALID B_DIRTY) =? B_VALID then panic "iderw: nothing to do"
    else if negb (dev x =? 1) then panic "iderw: request not for disk 1"
    else
      d <- gets disk ;;
      match d !! Z.to_nat (blockno x) with
      | None => panic "iderw: block out of range"
      | Some p =>
          (if negb (Z.land (flags x) B_DIRTY =? 0) then
             set_buf b (fun x => x <| flags := Z.land (flags x) (Z.lnot B_DIRTY) |>) ;;;
             modify (fun s => s <| disk ::= <[Z.to_nat (blockno x) := data x]> |>
                                <| trace ::= fun l => l ++ [(blockno x, data x)] |>)
           else set_buf b (fun x => x <| data := p |>)) ;;;
          set_buf b (fun x => x <| flags := Z.lor (flags x) B_VALID |>)
      end.

Definition bread (dv bno : Z) : M bcache nat :=
  b <- bget dv bno ;;
  x <- get_buf b ;;
  when (Z.land (flags x) B_VALID =? 0) (iderw b) ;;;
  ret b.

Definition pin (b : nat) : M bcache unit :=
  set_buf b (fun x => x <| flags := Z.lor (flags x) B_DIRTY |>).

Definition bwrite (b : nat) : M bcache unit :=
  h <- holdingsleep b ;;
  if h =? 0 then panic "bwrite" else pin b ;;; iderw b.

(** [b->next->prev = b->prev; b->prev->next = b->next] *)
Definition unlink (b : nat) : M bcache unit :=
  x <- get_buf b ;;
  set_buf (next x) (fun y => y <| prev := prev x |>) ;;;
  x <- get_buf b ;;
  set_buf (prev x) (fun y => y <| next := next x |>).

Definition brelse (b : nat) : M bcache unit :=
  h <- holdingsleep b ;;
  if h =? 0 then panic "brelse"
  else
    releasesleep b ;;;
    acquire ;;;
    set_buf b (fun x => x <| refcnt ::= fun n => u32 (n - 1) |>) ;;;
    x <- get_buf b ;;
    when (refcnt x =? 0) (unlink b ;;; push_front b) ;;;
    release.

#[export] Instance bio_buffers : Buffers bcache := {
  Block.bread := bread;
  Block.brelse := brelse;
  b_data b := x <- get_buf b ;; ret (data x);
  b_update b f := set_buf b (fun x => x <| data ::= f |>);
}.
#[export] Instance bio_store : BlockStore bcache := {
  bs_buffers := bio_buffers;
  b_blockno b := x <- get_buf b ;; ret (blockno x);
  b_pin := pin;
  Block.bwrite := bwrite;
}.
End ops.

(** ** The ring *)

(** From [a] through [l] to [z], by [next] forward and by [prev] backward. *)
Fixpoint path (ns ps : list nat) (a : nat) (l : list nat) (z : nat) : Prop :=
  match l with
  | [] => ns !! a = Some z /\ ps !! z = Some a
  | x :: l => (ns !! a = Some x /\ ps !! x = Some a) /\ path ns ps x l z
  end.

Lemma path_app ns ps a l1 x l2 z :
  path ns ps a (l1 ++ x :: l2) z <-> path ns ps a l1 x /\ path ns ps x l2 z.
Proof. revert a. induction l1 as [|y l1 IH]; intros a; simpl; [done|]. rewrite IH. tauto. Qed.

Lemma path_ext ns ps ns' ps' a l z :
  (forall x, x ∈ a :: l -> ns' !! x = ns !! x) -> (forall x, x ∈ l ++ [z] -> ps' !! x = ps !! x) ->
  path ns ps a l z -> path ns' ps' a l z.
Proof.
  revert a. induction l as [|y l IH]; intros a Hn Hp; simpl.
  - rewrite Hn, Hp by set_solver. done.
  - rewrite Hn, Hp by set_solver. intros [H1 H2]. split; [done|]. apply IH; [set_solver|set_solver|done].
Qed.

Lemma path_last ns ps a l z : path ns ps a l z ->
  exists p l', a :: l = l' ++ [p] /\ ns !! p = Some z /\ ps !! z = Some p.
Proof.
  revert a. induction l as [|y l IH]; intros a; simpl.
  - intros [H1 H2]. by exists a, [].
  - intros [_ Hp]. destruct (IH y Hp) as (p & l' & Heq & H1 & H2). exists p, (a :: l'). by rewrite Heq.
Qed.

Definition ring (ns ps : list nat) (l : list nat) : Prop :=
  NoDup (HEAD :: l) /\ path ns ps HEAD l HEAD.

Lemma ring_lt ns ps l x : ring ns ps l -> x ∈ HEAD :: l -> (x < length ns)%nat /\ (x < length ps)%nat.
Proof.
  intros [_ Hp] Hx.
  assert (Hgen : forall a z, path ns ps a l z -> x ∈ a :: l -> (x < length ns)%nat).
  { clear. induction l as [|y l IH]; intros a z; simpl.
    - intros [H1 _] ->%list_elem_of_singleton. by eapply lookup_lt_Some.
    - intros [[H1 _] H2] [-> | Hx]%elem_of_cons; [by eapply lookup_lt_Some|]. by eapply IH. }
  assert (Hgen' : forall a z, path ns ps a l z -> x ∈ l ++ [z] -> (x < length ps)%nat).
  { clear. induction l as [|y l IH]; intros a z; simpl.
    - intros [_ H1] ->%list_elem_of_singleton. by eapply lookup_lt_Some.
    - intros [[_ H1] H2] [-> | Hx]%elem_of_cons; [by eapply lookup_lt_Some|]. by eapply IH. }
  split; [by eapply Hgen|]. eapply Hgen'; [done|set_solver].
Qed.

Lemma path_unlink ns ps a l1 i l2 z p n :
  path ns ps a (l1 ++ i :: l2) z -> ps !! i = Some p -> ns !! i = Some n ->
  NoDup (a :: l1 ++ i :: l2) -> NoDup (l1 ++ i :: l2 ++ [z]) ->
  path (<[p := n]> ns) (<[n := p]> ps) a (l1 ++ l2) z.
Proof.
  rewrite path_app. intros [H1 H2] Hp Hn Hd1 Hd2.
  destruct (path_last _ _ _ _ _ H1) as (p' & l' & Heq & Hpn & Hpi). simplify_eq.
  assert (Hnz : exists l3, l2 ++ [z] = n :: l3 /\
    (forall b ns' ps', ns' !! b = Some n -> ps' !! n = Some b ->
      (forall x, x ∈ l2 -> ns' !! x = ns !! x) -> (forall x, x ∈ l3 -> ps' !! x = ps !! x) -> path ns' ps' b l2 z)).
  { destruct l2 as [|y l2]; simpl in H2.
    - destruct H2 as [H2 _]. simplify_eq. exists []. split; [done|]. intros b ns' ps' Hb Hz _ _. done.
    - destruct H2 as [[H2 _] H3]. simplify_eq. exists (l2 ++ [z]). split; [done|].
      intros b ns' ps' Hb Hz Hx Hy. split; [done|]. by eapply path_ext. }
  destruct Hnz as (l3 & Hl3 & Hnew). rewrite Hl3 in Hd2.
  assert (Hlp : (p < length ns)%nat) by by eapply lookup_lt_Some.
  assert (Hln : (n < length ps)%nat).
  { destruct l2 as [|y l2]; simpl in H2; [|destruct H2 as [H2 _]]; destruct H2 as [H2a H2b]; simplify_eq;
      by eapply lookup_lt_Some. }
  assert (Hpl : path (<[p:=n]> ns) (<[n:=p]> ps) p l2 z).
  { apply Hnew; [by rewrite list_lookup_insert_eq|by rewrite list_lookup_insert_eq| |].
    - intros x Hx. apply list_lookup_insert_ne. intros ->.
      change (a :: l1 ++ i :: l2) with ((a :: l1) ++ i :: l2) in Hd1. rewrite Heq in Hd1.
      apply NoDup_app in Hd1 as (_ & Hd1 & _). apply (Hd1 x); set_solver.
    - intros x Hx. apply list_lookup_insert_ne. intros ->.
      apply NoDup_app in Hd2 as (_ & _ & Hd2). rewrite !NoDup_cons in Hd2. set_solver. }
  destruct l1 as [|y l1 _] using rev_ind.
  - simpl in *. assert (p = a) as -> by (destruct l'; simplify_eq/=; [done|by destruct l']). done.
  - rewrite app_comm_cons in Heq. apply app_inj_tail in Heq as [<- ->].
    rewrite path_app in H1. destruct H1 as [H1 _]. rewrite <- app_assoc. simpl. rewrite path_app. split; [|done].
    eapply path_ext; [| |exact H1].
    + intros x Hx. apply list_lookup_insert_ne. intros ->.
      rewrite <- app_assoc in Hd1. change (NoDup ((a :: l1) ++ x :: i :: l2)) in Hd1.
      apply NoDup_middle in Hd1 as [Hd1 _]. done.
    + intros x Hx. apply list_lookup_insert_ne. intros ->.
      apply NoDup_app in Hd2 as (_ & Hd2 & _). apply (Hd2 x); [done|set_solver].
Qed.

Lemma ring_unlink ns ps l1 i l2 p n :
  ring ns ps (l1 ++ i :: l2) -> ps !! i = Some p -> ns !! i = Some n ->
  ring (<[p := n]> ns) (<[n := p]> ps) (l1 ++ l2).
Proof.
  intros [Hd Hp] H1 H2. split.
  - rewrite NoDup_cons in Hd |- *. rewrite NoDup_app, NoDup_cons in Hd. rewrite NoDup_app. set_solver.
  - eapply path_unlink; [done|done|done|done|].
    rewrite app_comm_cons, app_assoc. rewrite (Permutation_app_comm (_ ++ _)). done.
Qed.

Lemma ring_push ns ps i l f :
  ring ns ps l -> i ∉ HEAD :: l -> (i < length ns)%nat -> (i < length ps)%nat -> ns !! HEAD = Some f ->
  ring (<[HEAD := i]> (<[i := f]> ns)) (<[f := i]> (<[i := HEAD]> ps)) (i :: l).
Proof.
  intros Hr Hi Hln Hlp Hf. destruct (ring_lt _ _ _ HEAD Hr) as [HH1 HH2]; [set_solver|].
  destruct Hr as [Hd Hp]. apply not_elem_of_cons in Hi as [HiH Hil].
  pose proof Hd as Hd'. apply NoDup_cons in Hd' as [HHl Hdl].
  split; [rewrite !NoDup_cons; set_solver|]. destruct l as [|x l]; simpl in Hp.
  - destruct Hp as [Hp1 Hp2]. simplify_eq. simpl.
    rewrite !list_lookup_insert_eq by (rewrite ?length_insert; done).
    rewrite !(list_lookup_insert_ne _ HEAD i) by done. by rewrite !list_lookup_insert_eq.
  - destruct Hp as [[Hp1 Hp2] Hp3]. simplify_eq. rewrite NoDup_cons in Hdl.
    assert (x <> i /\ x <> HEAD) as [Hxi HxH] by set_solver. simpl.
    assert ((x < length ps)%nat) by (by eapply lookup_lt_Some).
    rewrite !list_lookup_insert_eq by (rewrite ?length_insert; done).
    rewrite (list_lookup_insert_ne _ x i), (list_lookup_insert_ne _ HEAD i) by done.
    rewrite !list_lookup_insert_eq by done. split; [done|]. split; [done|].
    eapply path_ext; [| |done].
    + intros y Hy. rewrite !list_lookup_insert_ne; set_solver.
    + intros y Hy. rewrite !list_lookup_insert_ne; set_solver.
Qed.
(** The searches along the ring. *)
Fixpoint follows (ls : list nat) (x : nat) (l : list nat) : Prop :=
  match l with
  | [] => x = HEAD
  | y :: l => x = y /\ y <> HEAD /\ exists z, ls !! y = Some z /\ follows ls z l
  end.

Lemma follows_next ns ps a l x : path ns ps a l HEAD -> HEAD ∉ l -> ns !! a = Some x -> follows ns x l.
Proof.
  revert a x. induction l as [|y l IH]; intros a x; simpl.
  - intros [H1 _] _ H2. congruence.
  - intros [[H1 _] H2] HH%not_elem_of_cons Ha. simplify_eq. split; [done|]. split; [naive_solver|].
    assert (exists z, ns !! y = Some z) as [z Hz].
    { destruct l as [|z l]; simpl in H2; naive_solver. }
    exists z. split; [done|]. apply (IH y); [done|tauto|done].
Qed.

Lemma follows_prev ns ps l z x : path ns ps HEAD l z -> HEAD ∉ l -> ps !! z = Some x -> follows ps x (rev l).
Proof.
  revert z x. induction l as [|y l IH] using rev_ind; intros z x.
  - intros [_ H1] _ H2. simpl. congruence.
  - rewrite path_app, rev_app_distr. intros [H1 [_ H2]] HH Hz. simplify_eq. simpl.
    split; [done|]. split; [set_solver|].
    destruct (path_last _ _ _ _ _ H1) as (p & l' & _ & _ & Hp). exists p. split; [done|].
    apply (IH y); [done|set_solver|done].
Qed.

Lemma find_by_run s step ok l : forall fuel x,
  follows (step <$> bufs s) x l -> (length l < fuel)%nat ->
  exists r, mwhile fuel (find_by step ok) x s = Ret r s /\
    match r with
    | Some i => i ∈ l /\ exists b, bufs s !! i = Some b /\ ok b = true
    | None => forall i b, i ∈ l -> bufs s !! i = Some b -> ok b = false
    end.
Proof.
  induction l as [|y l IH]; intros fuel x Hf Hl; (destruct fuel as [|fuel]; [simpl in Hl; lia|]); simpl in *.
  - subst x. exists None. split; [done|]. set_solver.
  - destruct Hf as (-> & Hy & z & Hz & Hf). rewrite list_lookup_fmap in Hz.
    destruct (bufs s !! y) as [b|] eqn:Hb; simplify_eq/=.
    assert (Hst : find_by step ok y s = Ret (if ok b then inr (Some y) else inl (step b)) s).
    { unfold find_by. rewrite decide_False by done. unfold bind, get_buf. rewrite Hb. simpl. by destruct (ok b). }
    run Hst. destruct (ok b) eqn:Hok.
    + exists (Some y). split; [done|]. split; [set_solver|]. eauto.
    + destruct (IH fuel (step b)) as (r & Hr & Hspec); [done|lia|]. exists r. split; [done|].
      destruct r as [i|]; [set_solver|]. intros i c [-> | Hi]%elem_of_cons Hc; [congruence|eauto].
Qed.

(** ** Changes of one buffer *)

Definition at_ (i : nat) (b : buf) (s : bcache) : bcache := s <| bufs ::= <[i := b]> |>.

Lemma at_id i b s : bufs s !! i = Some b -> at_ i b s = s.
Proof. intros Hb. unfold at_. destruct s. simpl in *. by rewrite list_insert_id. Qed.
Lemma at_at i b b' s : at_ i b' (at_ i b s) = at_ i b' s.
Proof. unfold at_. destruct s. simpl. by rewrite list_insert_insert_eq. Qed.

Section at_buf.
Context (i : nat) (s : bcache) (Hi : (i < length (bufs s))%nat).

Lemma at_lookup b : bufs (at_ i b s) !! i = Some b.
Proof. simpl. by apply list_lookup_insert_eq. Qed.
Lemma get_buf_at b : get_buf i (at_ i b s) = Ret b (at_ i b s).
Proof. unfold get_buf. by rewrite at_lookup. Qed.
Lemma set_buf_at b f : set_buf i f (at_ i b s) = Ret tt (at_ i (f b) s).
Proof.
  unfold set_buf. rewrite at_lookup. f_equal. change (at_ i (f b) (at_ i b s) = at_ i (f b) s). apply at_at.
Qed.
End at_buf.

Section sleep_at.
Context (i : nat) (mypid : Z) (fuel : nat).
Definition has_lk (s : bcache) (l : Sleep.sleeplock) : Prop := exists b, bufs s !! i = Some b /\ lk b = l.
Definition put_lk (l : Sleep.sleeplock) (s : bcache) : bcache :=
  match bufs s !! i with Some b => at_ i (b <| lk := l |>) s | None => s end.

Lemma rd_lk_ok s l : has_lk s l -> rd_lk i s = Ret l s.
Proof. intros (b & Hb & <-). unfold rd_lk, bind, get_buf. by rewrite Hb. Qed.
Lemma wr_lk_ok s l l' : has_lk s l -> wr_lk i l' s = Ret tt (put_lk l' s) /\ has_lk (put_lk l' s) l'.
Proof.
  intros (b & Hb & <-). unfold wr_lk, put_lk, set_buf. rewrite Hb. split; [done|].
  eexists. split; [apply at_lookup; by eapply lookup_lt_Some|done].
Qed.
Lemma put_lk_put s l l' l'' : has_lk s l -> put_lk l'' (put_lk l' s) = put_lk l'' s.
Proof.
  intros (b & Hb & <-). unfold put_lk. rewrite Hb. rewrite at_lookup by (by eapply lookup_lt_Some).
  by rewrite at_at.
Qed.

Context (s : bcache) (b : buf) (Hi : (i < length (bufs s))%nat) (Hspin : Sleep.spin (lk b) = false).
Lemma has_at : has_lk (at_ i b s) (lk b).
Proof. exists b. by rewrite at_lookup. Qed.
Lemma put_at l : put_lk l (at_ i b s) = at_ i (b <| lk := l |>) s.
Proof. unfold put_lk. rewrite at_lookup by done. by rewrite at_at. Qed.

Lemma acquiresleep_at : Sleep.locked (lk b) = 0 -> (0 < fuel)%nat ->
  acquiresleep mypid fuel i (at_ i b s)
  = Ret tt (at_ i (b <| lk := (lk b) <| Sleep.locked := 1 |> <| Sleep.pid := mypid |> |>) s).
Proof.
  intros Hl Hf. unfold acquiresleep.
  rewrite (Sleep.acquiresleep_free _ _ _ _ put_lk has_lk rd_lk_ok wr_lk_ok put_lk_put _ _ has_at) by done.
  by rewrite put_at.
Qed.
Lemma releasesleep_at :
  releasesleep i (at_ i b s)
  = Ret tt (at_ i (b <| lk := (lk b) <| Sleep.locked := 0 |> <| Sleep.pid := 0 |> <| Sleep.wakeups ::= S |> |>) s).
Proof.
  unfold releasesleep.
  rewrite (Sleep.releasesleep_free _ _ put_lk has_lk rd_lk_ok wr_lk_ok put_lk_put _ _ has_at) by done.
  by rewrite put_at.
Qed.
Lemma holdingsleep_at : holdingsleep i (at_ i b s) = Ret (Sleep.locked (lk b)) (at_ i b s).
Proof.
  unfold holdingsleep.
  rewrite (Sleep.holdingsleep_free _ _ put_lk has_lk rd_lk_ok wr_lk_ok put_lk_put _ _ has_at) by done.
  rewrite put_at. by destruct b.
Qed.
End sleep_at.

(** ** The cache as a block store *)

Section store.
(** The number of blocks of the disk. *)
Context (ndisk : nat).
Notation nb := (Z.of_nat ndisk).

(** Buffer [i] caches its block. *)
Record cached (v : bview) (i : nat) (b : buf) : Prop := {
  ca_range : 0 <= blockno b < nb;
  ca_data : data b = cont v (blockno b);
  ca_flags : flags b = if decide (blockno b ∈ pinned v) then Z.lor B_VALID B_DIRTY else B_VALID;
  ca_lk : refcnt b = Sleep.locked (lk b);
  ca_held : (Sleep.locked (lk b) = 0 /\ held v !! blockno b = None) \/
            (Sleep.locked (lk b) = 1 /\ held v !! blockno b = Some i);
  ca_clean : Sleep.locked (lk b) = 0 -> blockno b ∉ pinned v -> cont v (blockno b) = dsk v (blockno b);
}.
(** A buffer that was never used. *)
Definition fresh (b : buf) : Prop :=
  dev b = 0 /\ flags b = 0 /\ refcnt b = 0 /\ Sleep.locked (lk b) = 0.
Definition buf_ok (v : bview) (i : nat) (b : buf) : Prop :=
  Sleep.spin (lk b) = false /\ (fresh b \/ dev b = 1 /\ cached v i b).
(** A block that needs no buffer. *)
Definition calm (v : bview) (bn : Z) : Prop :=
  cont v bn = dsk v bn /\ held v !! bn = None /\ bn ∉ pinned v.

Record rep (s : bcache) (v : bview) : Prop := {
  rp_len : length (bufs s) = S NBUF;
  rp_ring : exists l, l ≡ₚ seq 0 NBUF /\ ring (next <$> bufs s) (prev <$> bufs s) l;
  rp_lock : lock s = false;
  rp_disk : length (disk s) = ndisk;
  rp_dsk bn : 0 <= bn < nb -> disk s !! Z.to_nat bn = Some (dsk v bn);
  rp_size bn : 0 <= bn < nb -> length (cont v bn) = BSIZE;
  rp_buf i b : (i < NBUF)%nat -> bufs s !! i = Some b -> buf_ok v i b;
  rp_uniq i j b c : (i < NBUF)%nat -> (j < NBUF)%nat -> bufs s !! i = Some b -> bufs s !! j = Some c ->
    dev b = 1 -> dev c = 1 -> blockno b = blockno c -> i = j;
  rp_none bn : (forall i b, (i < NBUF)%nat -> bufs s !! i = Some b -> dev b = 1 -> blockno b <> bn) ->
    calm v bn;
  rp_trace : trace s = writes v;
}.

(** The views agree on a block. *)
Definition agree (v v' : bview) (bn : Z) : Prop :=
  cont v' bn = cont v bn /\ dsk v' bn = dsk v bn /\ held v' !! bn = held v !! bn /\
  (bn ∈ pinned v' <-> bn ∈ pinned v).

Lemma cached_agree v v' i b : agree v v' (blockno b) -> cached v i b -> cached v' i b.
Proof.
  intros (H1 & H2 & H3 & H4) [C1 C2 C3 C4 C5 C6]. split; rewrite ?H1, ?H2, ?H3, ?H4; try done.
  rewrite C3. by repeat case_decide; tauto.
Qed.
Lemma calm_agree v v' bn : agree v v' bn -> calm v bn -> calm v' bn.
Proof. unfold calm. intros (-> & -> & -> & ->). done. Qed.

Lemma rep_ext s v w : v ≡ w -> rep s v -> rep s w.
Proof.
  intros (H1 & H2 & H3 & H4 & H5) Hr.
  assert (Hag : forall x, agree v w x) by (intros x; unfold agree; by rewrite H1, H2, H3, H4).
  split; try apply Hr.
  - intros bn Hbn. rewrite <- H2. by apply (rp_dsk _ _ Hr).
  - intros bn Hbn. rewrite <- H1. by apply (rp_size _ _ Hr).
  - intros i b Hi Hb. destruct (rp_buf _ _ Hr i b Hi Hb) as [G1 [G2|[G2 G3]]]; (split; [done|]); [by left|right].
    split; [done|]. by eapply cached_agree.
  - intros bn Hbn. eapply calm_agree; [done|]. by apply (rp_none _ _ Hr).
  - rewrite <- H5. apply Hr.
Qed.

(** One buffer, and the view of its block, change. *)
Lemma rep_upd s v i b b' v' s' bn :
  rep s v -> (i < NBUF)%nat -> bufs s !! i = Some b -> next b' = next b -> prev b' = prev b ->
  lock s' = false -> bufs s' = <[i := b']> (bufs s) -> trace s' = writes v' ->
  length (disk s') = ndisk -> (forall bn, 0 <= bn < nb -> disk s' !! Z.to_nat bn = Some (dsk v' bn)) ->
  (forall x, x <> bn -> agree v v' x) -> (0 <= bn < nb -> length (cont v' bn) = BSIZE) ->
  (forall j c, j <> i -> (j < NBUF)%nat -> bufs s !! j = Some c -> dev c = 1 -> blockno c <> bn) ->
  buf_ok v' i b' -> dev b' = 1 -> blockno b' = bn ->
  (dev b = 1 -> blockno b <> bn -> calm v (blockno b)) ->
  rep s' v'.
Proof.
  intros Hr Hi Hb Hn Hp Hlk Hbufs Htr Hdl Hds Hag Hsz Hoth Hok Hdev Hbn Hold.
  assert (Hlt : (i < length (bufs s))%nat) by (rewrite (rp_len _ _ Hr); lia).
  assert (Hlook : forall j c, bufs s' !! j = Some c -> (j = i /\ c = b') \/ (j <> i /\ bufs s !! j = Some c)).
  { intros j c. rewrite Hbufs. destruct (decide (j = i)) as [-> |Hne].
    - rewrite list_lookup_insert_eq by done. naive_solver.
    - rewrite list_lookup_insert_ne by done. naive_solver. }
  split; try done.
  - rewrite Hbufs, length_insert. apply Hr.
  - destruct (rp_ring _ _ Hr) as (l & Hl & Hring). exists l. split; [done|].
    rewrite Hbufs, !list_fmap_insert, Hn, Hp.
    rewrite !list_insert_id by (rewrite list_lookup_fmap, Hb; done). done.
  - intros x Hx. destruct (decide (x = bn)) as [-> |Hne]; [by apply Hsz|].
    destruct (Hag x Hne) as [-> _]. by eapply rp_size.
  - intros j c Hj [[-> ->] | [Hne Hc]]%Hlook; [done|].
    destruct (rp_buf _ _ Hr j c Hj Hc) as [H1 [H2|[H2 H3]]]; split; auto. right. split; [done|].
    eapply cached_agree; [|done]. by apply Hag, (Hoth j c).
  - intros j k c d Hj Hk [[-> ->] | [Hne Hc]]%Hlook [[-> ->] | [Hne' Hd]]%Hlook H1 H2 H3; [done| | |].
    + exfalso. by eapply (Hoth k d); [..|congruence].
    + exfalso. by eapply (Hoth j c); [..|congruence].
    + by eapply (rp_uniq _ _ Hr).
  - intros x Hx.
    assert (Hxn : x <> bn).
    { intros ->. eapply (Hx i b'); [done| |done|done]. rewrite Hbufs. by apply list_lookup_insert_eq. }
    apply (calm_agree v); [by apply Hag|].
    destruct (decide (dev b = 1 /\ blockno b = x)) as [[H1 <-]|Hno]; [by apply Hold|].
    apply (rp_none _ _ Hr). intros j c Hj Hc Hd He. destruct (decide (j = i)) as [-> |Hne]; [naive_solver|].
    apply (Hx j c); [done| |done|done]. by rewrite Hbufs, list_lookup_insert_ne.
Qed.

(** The buffer of a held block. *)
Lemma rep_held s v bn h : rep s v -> held v !! bn = Some h ->
  exists b, (h < NBUF)%nat /\ bufs s !! h = Some b /\ dev b = 1 /\ blockno b = bn /\ cached v h b /\
    Sleep.spin (lk b) = false /\ Sleep.locked (lk b) = 1.
Proof.
  intros Hr Hh.
  destruct (decide (Exists (fun b => dev b = 1 /\ blockno b = bn) (take NBUF (bufs s)))) as [He|He].
  - apply Exists_exists in He as (b & Hb & Hdev & Hbn). apply list_elem_of_lookup in Hb as (i & Hb).
    pose proof (lookup_lt_Some _ _ _ Hb) as Hi. rewrite length_take in Hi.
    rewrite lookup_take_lt in Hb by lia.
    destruct (rp_buf _ _ Hr i b) as [H1 [H2|[H2 H3]]]; [lia|done|destruct H2; lia|].
    destruct (ca_held _ _ _ H3) as [[Hl Hn] | [Hl Hn]]; [congruence|].
    assert (i = h) as -> by congruence. exists b. split_and!; try done. lia.
  - destruct (rp_none _ _ Hr bn) as (_ & H1 & _); [|congruence].
    intros i b Hi Hb Hdev Hbn. apply He. apply Exists_exists. exists b. split; [|done].
    apply list_elem_of_lookup. exists i. by rewrite lookup_take_lt.
Qed.

(** No other buffer has the block of buffer [i]. *)
Lemma rep_other s v i b : rep s v -> (i < NBUF)%nat -> bufs s !! i = Some b -> dev b = 1 ->
  forall j c, j <> i -> (j < NBUF)%nat -> bufs s !! j = Some c -> dev c = 1 -> blockno c <> blockno b.
Proof. intros Hr Hi Hb Hd j c Hne Hj Hc Hd' He. apply Hne. by eapply (rp_uniq _ _ Hr). Qed.

(** *** Moving a buffer to the front *)

Definition core (b : buf) : buf := b <| next := 0%nat |> <| prev := 0%nat |>.
(** Only links differ. *)
Definition same (s s' : bcache) : Prop :=
  lock s' = lock s /\ disk s' = disk s /\ trace s' = trace s /\ core <$> bufs s' = core <$> bufs s.

Lemma same_trans s1 s2 s3 : same s1 s2 -> same s2 s3 -> same s1 s3.
Proof. unfold same. naive_solver congruence. Qed.

Lemma same_len s s' : same s s' -> length (bufs s') = length (bufs s).
Proof. intros (_ & _ & _ & H). apply (f_equal length) in H. by rewrite !length_fmap in H. Qed.

Lemma set_next s i n : (i < length (bufs s))%nat ->
  exists s', set_buf i (fun x => x <| next := n |>) s = Ret tt s' /\ same s s' /\
    next <$> bufs s' = <[i := n]> (next <$> bufs s) /\ prev <$> bufs s' = prev <$> bufs s.
Proof.
  intros Hi. destruct (lookup_lt_is_Some_2 _ _ Hi) as [b Hb]. unfold set_buf. rewrite Hb.
  eexists. split; [done|]. unfold same. simpl. rewrite !list_fmap_insert. split_and!; try done.
  - rewrite (list_insert_id (core <$> _)); [done|]. by rewrite list_lookup_fmap, Hb.
  - rewrite (list_insert_id (prev <$> _)); [done|]. by rewrite list_lookup_fmap, Hb.
Qed.
Lemma set_prev s i n : (i < length (bufs s))%nat ->
  exists s', set_buf i (fun x => x <| prev := n |>) s = Ret tt s' /\ same s s' /\
    next <$> bufs s' = next <$> bufs s /\ prev <$> bufs s' = <[i := n]> (prev <$> bufs s).
Proof.
  intros Hi. destruct (lookup_lt_is_Some_2 _ _ Hi) as [b Hb]. unfold set_buf. rewrite Hb.
  eexists. split; [done|]. unfold same. simpl. rewrite !list_fmap_insert. split_and!; try done.
  - rewrite (list_insert_id (core <$> _)); [done|]. by rewrite list_lookup_fmap, Hb.
  - rewrite (list_insert_id (next <$> _)); [done|]. by rewrite list_lookup_fmap, Hb.
Qed.

Lemma get_links s i n p : (next <$> bufs s) !! i = Some n -> (prev <$> bufs s) !! i = Some p ->
  exists b, get_buf i s = Ret b s /\ next b = n /\ prev b = p.
Proof.
  rewrite !list_lookup_fmap. intros Hn Hp. unfold get_buf. destruct (bufs s !! i) as [b|]; [|done].
  exists b. split; [done|]. simpl in *. split; congruence.
Qed.

Lemma ring_prev ns ps l i : ring ns ps l -> i ∈ l ->
  exists n p, ns !! i = Some n /\ ps !! i = Some p /\ n ∈ HEAD :: l /\ p ∈ HEAD :: l /\ p <> i /\ n <> i.
Proof.
  intros [Hd Hp] Hi. apply list_elem_of_split in Hi as (l1 & l2 & ->).
  rewrite path_app in Hp. destruct Hp as [H1 H2].
  destruct (path_last _ _ _ _ _ H1) as (p & l' & Heq & Hpn & Hpi).
  assert (Hpin : p ∈ HEAD :: l1) by (rewrite Heq; set_solver).
  assert (exists n, ns !! i = Some n /\ n ∈ HEAD :: l2) as (n & Hn & Hnin).
  { destruct l2 as [|y l2]; simpl in H2; [exists HEAD|exists y]; (split; [tauto|set_solver]). }
  rewrite app_comm_cons in Hd. apply NoDup_middle in Hd as [Hd1 Hd2].
  exists n, p. split_and!; [done|done|set_solver|set_solver|set_solver|set_solver].
Qed.

Lemma ring_prev_head ns ps l : ring ns ps l ->
  exists n p, ns !! HEAD = Some n /\ ps !! HEAD = Some p /\ n ∈ HEAD :: l.
Proof.
  intros [Hd Hp]. destruct (path_last _ _ _ _ _ Hp) as (p & l' & Heq & Hpn & Hpi).
  destruct l as [|x l]; simpl in Hp; [exists HEAD, p|exists x, p]; (split_and!; [tauto|done|set_solver]).
Qed.

Lemma move_to_front s l i :
  ring (next <$> bufs s) (prev <$> bufs s) l -> i ∈ l ->
  exists s' l', (unlink i ;;; push_front i) s = Ret tt s' /\ same s s' /\ l' ≡ₚ l /\
    ring (next <$> bufs s') (prev <$> bufs s') l'.
Proof.
  intros Hr Hi. destruct (ring_prev _ _ _ _ Hr Hi) as (n & p & Hn & Hp & Hnin & Hpin & Hpi & Hni).
  destruct (ring_lt _ _ _ _ Hr Hnin) as [Hnl _]. destruct (ring_lt _ _ _ _ Hr Hpin) as [Hpl _].
  destruct (ring_lt _ _ _ HEAD Hr) as [HHl _]; [set_solver|].
  destruct (ring_lt _ _ _ i Hr) as [Hil _]; [set_solver|]. rewrite length_fmap in *.
  apply list_elem_of_split in Hi as (l1 & l2 & ->). pose proof (ring_unlink _ _ _ _ _ _ _ Hr Hp Hn) as Hr1.
  destruct Hr as [Hd _]. pose proof Hd as Hd'. rewrite app_comm_cons in Hd'. apply NoDup_middle in Hd' as [Hi1 Hi2].
  destruct (get_links s i n p Hn Hp) as (x & Hg & Hxn & Hxp).
  destruct (set_prev s n p Hnl) as (s1 & E1 & S1 & N1 & P1). pose proof (same_len _ _ S1) as L1.
  destruct (get_links s1 i n p) as (x1 & Hg1 & Hxn1 & Hxp1); [by rewrite N1|by rewrite P1, list_lookup_insert_ne|].
  destruct (set_next s1 p n) as (s2 & E2 & S2 & N2 & P2); [lia|]. pose proof (same_len _ _ S2) as L2.
  rewrite <- N1, <- P1, <- N2, <- P2 in Hr1.
  destruct (ring_prev_head _ _ _ Hr1) as (f & q & Hf & Hq & Hfin).
  destruct (ring_lt _ _ _ _ Hr1 Hfin) as [Hfl _]. rewrite length_fmap in Hfl.
  destruct (get_links s2 HEAD f q Hf Hq) as (hd & Hg2 & Hhf & _).
  destruct (set_next s2 i f) as (s3 & E3 & S3 & N3 & P3); [lia|]. pose proof (same_len _ _ S3) as L3.
  destruct (set_prev s3 i HEAD) as (s4 & E4 & S4 & N4 & P4); [lia|]. pose proof (same_len _ _ S4) as L4.
  destruct (set_prev s4 f i) as (s5 & E5 & S5 & N5 & P5); [lia|]. pose proof (same_len _ _ S5) as L5.
  destruct (set_next s5 HEAD i) as (s6 & E6 & S6 & N6 & P6); [lia|].
  exists s6, (i :: l1 ++ l2). split_and!.
  - assert (unlink i s = Ret tt s2) as Hu.
    { unfold unlink. run Hg. rewrite Hxn, Hxp. run E1. run Hg1. by rewrite Hxn1, Hxp1, E2. }
    run Hu. unfold push_front. run Hg2. rewrite Hhf. run E3. run E4. run E5. exact E6.
  - do 5 (eapply same_trans; [eassumption|]). exact S6.
  - by rewrite Permutation_middle.
  - rewrite N6, N5, N4, N3, P6, P5, P4, P3. apply ring_push; [done| | | |done].
    + rewrite app_comm_cons. set_solver.
    + rewrite length_fmap. lia.
    + rewrite length_fmap. lia.
Qed.


Lemma buf_ok_core v i b b' : core b' = core b -> buf_ok v i b -> buf_ok v i b'.
Proof.
  destruct b, b'. unfold core. simpl. intros [=]. subst. unfold buf_ok, fresh. simpl.
  intros [H1 [H2|[H2 [C1 C2 C3 C4 C5 C6]]]]; (split; [done|]); [by left|right]. split; [done|]. by split.
Qed.

Lemma rep_relink s s' v l : rep s v -> same s s' -> l ≡ₚ seq 0 NBUF ->
  ring (next <$> bufs s') (prev <$> bufs s') l -> rep s' v.
Proof.
  intros Hr HS Hl Hring. pose proof (same_len _ _ HS) as HL. destruct HS as (H1 & H2 & H3 & H4).
  assert (Hback : forall i b', bufs s' !! i = Some b' -> exists b, bufs s !! i = Some b /\ core b = core b').
  { intros i b' Hb'. by apply (list_fmap_lookup_eq core (bufs s') (bufs s)). }
  assert (Hfwd : forall i b, bufs s !! i = Some b -> exists b', bufs s' !! i = Some b' /\ core b' = core b).
  { intros i b Hb. by apply (list_fmap_lookup_eq core (bufs s) (bufs s')). }
  assert (Hcd : forall b b', core b = core b' -> dev b = dev b' /\ blockno b = blockno b').
  { intros [] []. unfold core. simpl. by intros [=]. }
  destruct Hr. split; try (rewrite ?HL, ?H1, ?H2, ?H3; done); [by exists l| | |].
  - intros i b' Hi (b & Hb & Hc)%Hback. eapply buf_ok_core; [by symmetry|eauto].
  - intros i j b' c' Hi Hj (b & Hb & Hbc)%Hback (c & Hc & Hcc)%Hback Hd1 Hd2 He.
    destruct (Hcd _ _ Hbc), (Hcd _ _ Hcc). eapply (rp_uniq0 i j b c); congruence.
  - intros bn Hbn. apply rp_none0. intros i b Hi (b' & Hb' & Hc)%Hfwd Hd. destruct (Hcd _ _ Hc).
    rewrite <- H0. eapply Hbn; [done|done|congruence].
Qed.

(** *** The operations *)

Section laws.
Context (mypid : Z) (fuel : nat) (Hfuel : (0 < fuel)%nat).

Lemma iderw_read s i b p :
  (i < length (bufs s))%nat -> Sleep.spin (lk b) = false -> Sleep.locked (lk b) = 1 ->
  dev b = 1 -> flags b = 0 -> disk s !! Z.to_nat (blockno b) = Some p ->
  iderw i (at_ i b s) = Ret tt (at_ i (b <| data := p |> <| flags := B_VALID |>) s).
Proof.
  intros Hi H1 H2 H3 H4 H5. unfold iderw. run (holdingsleep_at i s b Hi H1). rewrite H2.
  change (1 =? 0) with false. cbn match. run (get_buf_at i s Hi b). rewrite H4, H3.
  change (Z.land 0 (Z.lor B_VALID B_DIRTY) =? B_VALID) with false. change (negb (1 =? 1)) with false.
  change (negb (Z.land 0 B_DIRTY =? 0)) with false. cbn match. unfold bind at 1. unfold gets. cbn [obind].
  change (disk (at_ i b s)) with (disk s). rewrite H5. run (set_buf_at i s Hi b (fun x => x <| data := p |>)).
  rewrite (set_buf_at i s Hi). simpl. by rewrite H4.
Qed.

Lemma iderw_write s i b p :
  (i < length (bufs s))%nat -> Sleep.spin (lk b) = false -> Sleep.locked (lk b) = 1 ->
  dev b = 1 -> flags b = Z.lor B_VALID B_DIRTY -> disk s !! Z.to_nat (blockno b) = Some p ->
  iderw i (at_ i b s) = Ret tt (at_ i (b <| flags := B_VALID |>)
    (s <| disk ::= <[Z.to_nat (blockno b) := data b]> |> <| trace ::= fun l => l ++ [(blockno b, data b)] |>)).
Proof.
  intros Hi H1 H2 H3 H4 H5. unfold iderw. run (holdingsleep_at i s b Hi H1). rewrite H2.
  change (1 =? 0) with false. cbn match. run (get_buf_at i s Hi b). rewrite H4, H3.
  change (Z.land (Z.lor B_VALID B_DIRTY) (Z.lor B_VALID B_DIRTY) =? B_VALID) with false.
  change (negb (1 =? 1)) with false.
  change (negb (Z.land (Z.lor B_VALID B_DIRTY) B_DIRTY =? 0)) with true.
  cbn match. unfold bind at 1. unfold gets. cbn [obind].
  change (disk (at_ i b s)) with (disk s). rewrite H5.
  set (s1 := s <| disk ::= _ |> <| trace ::= _ |>).
  set (b1 := b <| flags := Z.land (flags b) (Z.lnot B_DIRTY) |>).
  erewrite (run_bind _ _ _ tt (at_ i b1 s1)).
  - rewrite (set_buf_at i s1 Hi). simpl. by rewrite H4.
  - run (set_buf_at i s Hi b (fun x => x <| flags := Z.land (flags x) (Z.lnot B_DIRTY) |>)). done.
Qed.

Lemma b_update_rep s v bn h f :
  rep s v -> held v !! bn = Some h -> length (f (cont v bn)) = BSIZE ->
  exists s', set_buf h (fun x => x <| data ::= f |>) s = Ret tt s' /\
    rep s' (v <| cont := fupd (cont v) bn (f (cont v bn)) |>).
Proof.
  intros Hr Hh Hl. destruct (rep_held s v bn h Hr Hh) as (b & Hi & Hb & Hdev & <- & Hc & Hsp & Hlk).
  unfold set_buf. rewrite Hb. eexists. split; [done|]. destruct Hc.
  eapply (rep_upd s v h b (b <| data ::= f |>) _ _ (blockno b)); try done; try apply Hr.
  - intros x Hx. unfold agree. simpl. by rewrite fupd_ne.
  - intros _. simpl. by rewrite fupd_eq.
  - by eapply rep_other.
  - split; [done|right]. split; [done|]. split; simpl; try done; [by rewrite fupd_eq, ca_data0|].
    rewrite Hlk. done.
Qed.

Lemma pin_rep s v bn h :
  rep s v -> held v !! bn = Some h ->
  exists s', pin h s = Ret tt s' /\ rep s' (v <| pinned ::= union {[bn]} |>).
Proof.
  intros Hr Hh. destruct (rep_held s v bn h Hr Hh) as (b & Hi & Hb & Hdev & <- & Hc & Hsp & Hlk).
  unfold pin, set_buf. rewrite Hb. eexists. split; [done|]. destruct Hc.
  eapply (rep_upd s v h b (b <| flags := Z.lor (flags b) B_DIRTY |>) _ _ (blockno b)); try done; try apply Hr.
  - intros x Hx. unfold agree. simpl. set_solver.
  - by eapply rep_other.
  - split; [done|right]. split; [done|]. split; simpl; try done.
    + rewrite decide_True by set_solver. rewrite ca_flags0. by case_decide.
    + rewrite Hlk. done.
Qed.

Lemma bwrite_rep s v bn h :
  rep s v -> held v !! bn = Some h ->
  exists s', bwrite h s = Ret tt s' /\
    rep s' (v <| dsk := fupd (dsk v) bn (cont v bn) |>
              <| pinned ::= fun p => p ∖ {[bn]} |>
              <| writes ::= fun l => l ++ [(bn, cont v bn)] |>).
Proof.
  intros Hr Hh. destruct (rep_held s v bn h Hr Hh) as (b & Hi & Hb & Hdev & <- & Hc & Hsp & Hlk).
  assert (Hlt : (h < length (bufs s))%nat) by (by eapply lookup_lt_Some).
  destruct Hc. pose proof (rp_dsk _ _ Hr _ ca_range0) as Hd.
  set (b1 := b <| flags := Z.lor (flags b) B_DIRTY |>).
  assert (Hf1 : flags b1 = Z.lor B_VALID B_DIRTY) by (simpl; rewrite ca_flags0; by case_decide).
  eexists. split.
  { replace (bwrite h s) with (bwrite h (at_ h b s)) by (by rewrite at_id). unfold bwrite. run (holdingsleep_at h s b Hlt Hsp). rewrite Hlk.
    change (1 =? 0) with false. cbn match.
    erewrite (run_bind _ _ _ tt (at_ h b1 s)) by (unfold pin; by rewrite (set_buf_at h s Hlt)).
    eapply (iderw_write s h b1); try done. }
  eapply (rep_upd s v h b (b1 <| flags := B_VALID |>) _ _ (blockno b)); try done; try apply Hr.
  - simpl. by rewrite (rp_trace _ _ Hr), ca_data0.
  - simpl. rewrite length_insert. apply Hr.
  - intros bn Hbn. simpl. destruct (decide (bn = blockno b)) as [-> |Hne].
    + rewrite fupd_eq, list_lookup_insert_eq by (by eapply lookup_lt_Some). by rewrite ca_data0.
    + rewrite fupd_ne by done. rewrite list_lookup_insert_ne by lia. by apply Hr.
  - intros x Hx. unfold agree. simpl. rewrite fupd_ne by done. set_solver.
  - by eapply rep_other.
  - split; [done|right]. split; [done|]. split; simpl; try done.
    + by rewrite decide_False by set_solver.
    + intros. by rewrite fupd_eq.
Qed.

Lemma brelse_rep s v bn h :
  rep s v -> held v !! bn = Some h -> (bn ∈ pinned v \/ cont v bn = dsk v bn) ->
  exists s', brelse h s = Ret tt s' /\ rep s' (v <| held ::= delete bn |>).
Proof.
  intros Hr Hh Hp. destruct (rep_held s v bn h Hr Hh) as (b & Hi & Hb & Hdev & <- & Hc & Hsp & Hlk).
  assert (Hlt : (h < length (bufs s))%nat) by (by eapply lookup_lt_Some). destruct Hc.
  set (b1 := b <| lk := (lk b) <| Sleep.locked := 0 |> <| Sleep.pid := 0 |> <| Sleep.wakeups ::= S |> |>).
  set (b2 := b1 <| refcnt ::= fun n => u32 (n - 1) |>).
  assert (Hrc : refcnt b2 = 0) by (simpl; rewrite ca_lk0, Hlk; done).
  assert (Hr2 : rep (at_ h b2 s) (v <| held ::= delete (blockno b) |>)).
  { eapply (rep_upd s v h b b2 _ _ (blockno b)); try done; try apply Hr.
    - intros x Hx. unfold agree. simpl. by rewrite lookup_delete_ne.
    - by eapply rep_other.
    - split; [done|right]. split; [done|]. split; simpl; try done.
      + rewrite lookup_delete_eq. by left.
      + intros _ Hn. by destruct Hp. }
  destruct (rp_ring _ _ Hr2) as (l & Hl & Hring).
  destruct (move_to_front (at_ h b2 (s <| lock := true |>)) l h) as (s3 & l' & Hm & HS & Hl' & Hring').
  { exact Hring. }
  { rewrite Hl. apply elem_of_seq. lia. }
  exists (s3 <| lock := false |>). split.
  - unfold brelse. rewrite <- (at_id h b s Hb) at 1. run (holdingsleep_at h s b Hlt Hsp). rewrite Hlk.
    change (1 =? 0) with false. cbn match. run (releasesleep_at h s b Hlt Hsp). fold b1.
    assert (Ha : acquire (at_ h b1 s) = Ret tt (at_ h b1 (s <| lock := true |>))).
    { unfold acquire. simpl. by rewrite (rp_lock _ _ Hr). }
    run Ha. run (set_buf_at h (s <| lock := true |>) Hlt b1 (fun x => x <| refcnt ::= fun n => u32 (n - 1) |>)).
    fold b2. run (get_buf_at h (s <| lock := true |>) Hlt b2). rewrite Hrc. simpl (0 =? 0). unfold when. run Hm.
    unfold release. destruct HS as [-> _]. done.
  - eapply (rep_relink (at_ h b2 s)); [done| |etrans; [exact Hl'|exact Hl]|exact Hring'].
    destruct HS as (H1 & H2 & H3 & H4). split_and!; try done. simpl. symmetry. apply Hr.
Qed.

Definition unused (x : buf) : bool := (refcnt x =? 0) && (Z.land (flags x) B_DIRTY =? 0).

Lemma unused_spec v i b : buf_ok v i b ->
  unused b = true <-> fresh b \/ (dev b = 1 /\ Sleep.locked (lk b) = 0 /\ calm v (blockno b)).
Proof.
  unfold unused. rewrite andb_true_iff, !Z.eqb_eq. intros [_ [Hf|[Hd []]]]; split.
  - by left.
  - intros _. destruct Hf as (_ & -> & -> & _). done.
  - intros [H1 H2]. right. split; [done|]. split; [congruence|].
    assert (blockno b ∉ pinned v) by (rewrite ca_flags0 in H2; by case_decide).
    split_and!; [apply ca_clean0; congruence| |done]. destruct ca_held0 as [[]|[]]; [done|congruence].
  - intros [(H1 & _) | (_ & H1 & _ & _ & H2)]; [lia|]. split; [congruence|].
    rewrite ca_flags0, decide_False by done. done.
Qed.

Lemma all_used s v : rep s v ->
  (forall i b, (i < NBUF)%nat -> bufs s !! i = Some b -> unused b = false) -> (NBUF <= size (busy v))%nat.
Proof.
  intros Hr Hall. set (bl := blockno <$> take NBUF (bufs s)).
  assert (Hlook : forall i bn, bl !! i = Some bn -> exists b, (i < NBUF)%nat /\ bufs s !! i = Some b /\
    dev b = 1 /\ blockno b = bn /\ bn ∈ busy v).
  { intros i bn. unfold bl. rewrite list_lookup_fmap. destruct (take NBUF (bufs s) !! i) as [b|] eqn:Hb; [|done].
    intros [=]. pose proof (lookup_lt_Some _ _ _ Hb) as Hi. rewrite length_take in Hi.
    rewrite lookup_take_lt in Hb by lia. exists b.
    assert (Hok := rp_buf _ _ Hr i b ltac:(lia) Hb). assert (Hu := Hall i b ltac:(lia) Hb).
    destruct (decide (dev b = 1)) as [Hd|Hd].
    - split_and!; [lia|done|done|done|]. unfold busy. rewrite elem_of_union. subst bn.
      destruct (decide (blockno b ∈ pinned v)) as [Hp|Hp]; [by right|left]. apply elem_of_dom.
      destruct Hok as [_ [(Hz & _)|[_ Hc]]]; [lia|]. destruct (ca_held _ _ _ Hc) as [[Hl Hn]|[Hl Hn]]; [|by rewrite Hn].
      exfalso. apply not_true_iff_false in Hu. apply Hu. apply (unused_spec v i b).
      + split; [apply (rp_buf _ _ Hr i b); [lia|done]|]. right. by split.
      + right. split_and!; [done|done|]. split_and!; [by apply (ca_clean _ _ _ Hc)|done|done].
    - exfalso. apply not_true_iff_false in Hu. apply Hu. apply (unused_spec v i b); [done|].
      destruct Hok as [_ [Hf|[Hd' _]]]; [by left|done]. }
  assert (HND : NoDup bl).
  { apply NoDup_alt. intros i j bn Hi Hj. destruct (Hlook i bn Hi) as (b & ? & ? & ? & ? & _).
    destruct (Hlook j bn Hj) as (c & ? & ? & ? & ? & _). eapply (rp_uniq _ _ Hr i j b c); congruence. }
  assert (Hlen : length bl = NBUF).
  { unfold bl. rewrite length_fmap, length_take, (rp_len _ _ Hr). lia. }
  rewrite <- Hlen, <- (size_list_to_set (C := gset Z) bl HND). apply subseteq_size.
  intros bn Hbn. apply elem_of_list_to_set, list_elem_of_lookup in Hbn as (i & Hi).
  by destruct (Hlook i bn Hi) as (b & _ & _ & _ & _ & ?).
Qed.

Lemma ring_search s v (ok : buf -> bool) (step : buf -> nat) (x : nat) :
  rep s v -> (step = next \/ step = prev) -> step <$> bufs s !! HEAD = Some x ->
  exists r, mwhile (S NBUF) (find_by step ok) x (s <| lock := true |>) = Ret r (s <| lock := true |>) /\
    match r with
    | Some i => (i < NBUF)%nat /\ exists b, bufs s !! i = Some b /\ ok b = true
    | None => forall i b, (i < NBUF)%nat -> bufs s !! i = Some b -> ok b = false
    end.
Proof.
  intros Hr Hstep Hx. destruct (rp_ring _ _ Hr) as (l & Hl & Hd & Hp).
  apply NoDup_cons in Hd as [HH _]. rewrite <- list_lookup_fmap in Hx.
  assert (Hin : forall i, i ∈ l <-> (i < NBUF)%nat) by (intros i; rewrite Hl, elem_of_seq; lia).
  assert (Hlen : length l = NBUF) by (rewrite Hl; apply length_seq).
  assert (exists l', follows (step <$> bufs s) x l' /\ length l' = NBUF /\ forall i, i ∈ l' <-> i ∈ l)
    as (l' & Hf & Hlen' & Hin').
  { destruct Hstep as [-> | ->].
    - exists l. split_and!; [by eapply follows_next|done|done].
    - exists (rev l). split_and!; [by eapply follows_prev|by rewrite length_rev|]. intros i.
      by rewrite <- (Permutation_rev l). }
  destruct (find_by_run (s <| lock := true |>) step ok l' (S NBUF) x) as (r & Hr1 & Hspec);
    [simpl; exact Hf|lia|].
  exists r. split; [done|]. destruct r as [i|].
  - destruct Hspec as [Hi Hb]. split; [by apply Hin, Hin'|done].
  - intros i b Hi Hb. apply (Hspec i b); [by apply Hin', Hin|done].
Qed.

Notation locked_by b := (b <| lk := (lk b) <| Sleep.locked := 1 |> <| Sleep.pid := mypid |> |>).

Lemma head_link s v (step : buf -> nat) : rep s v -> (step = next \/ step = prev) ->
  exists hd, get_buf HEAD (s <| lock := true |>) = Ret hd (s <| lock := true |>) /\
    step <$> bufs s !! HEAD = Some (step hd) /\ bufs s !! HEAD = Some hd.
Proof.
  intros Hr _. destruct (lookup_lt_is_Some_2 (bufs s) HEAD) as [hd Hh]; [rewrite (rp_len _ _ Hr); unfold HEAD; lia|].
  exists hd. unfold get_buf. simpl. rewrite Hh. done.
Qed.

(** [bget] finds the buffer of the block, or recycles one. *)
Lemma bget_run s v bn : rep s v -> held v !! bn = None -> (bn ∈ pinned v \/ (size (busy v) < NBUF)%nat) ->
  exists i b, (i < NBUF)%nat /\ bufs s !! i = Some b /\ Sleep.spin (lk b) = false /\ Sleep.locked (lk b) = 0 /\
    ((dev b = 1 /\ blockno b = bn /\ cached v i b /\
      bget mypid fuel ROOTDEV bn s = Ret i (at_ i (locked_by (b <| refcnt := 1 |>)) s)) \/
     ((fresh b \/ dev b = 1 /\ calm v (blockno b)) /\
      (forall j c, (j < NBUF)%nat -> bufs s !! j = Some c -> dev c = 1 -> blockno c <> bn) /\
      bget mypid fuel ROOTDEV bn s =
        Ret i (at_ i (locked_by (b <| dev := 1 |> <| blockno := bn |> <| flags := 0 |> <| refcnt := 1 |>)) s))).
Proof.
  intros Hr Hh Hsz.
  assert (Ha : acquire s = Ret tt (s <| lock := true |>)) by (unfold acquire; by rewrite (rp_lock _ _ Hr)).
  destruct (head_link s v next Hr ltac:(by left)) as (hd & Hg & Hx & Hhd).
  destruct (ring_search s v (fun x => (dev x =? ROOTDEV) && (blockno x =? bn)) next _ Hr ltac:(by left) Hx)
    as (r & Hfind & Hspec).
  assert (Hrel : forall i b, release (at_ i b (s <| lock := true |>)) = Ret tt (at_ i b s)).
  { intros i b. unfold release. simpl. unfold at_. destruct s. simpl. by rewrite <- (rp_lock _ _ Hr). }
  destruct r as [i|].
  - destruct Hspec as (Hi & b & Hb & Hok). apply andb_true_iff in Hok as [Hdev%Z.eqb_eq Hbn%Z.eqb_eq].
    destruct (rp_buf _ _ Hr i b Hi Hb) as [Hsp [[Hd0 _]|[_ Hc]]]; [unfold ROOTDEV in *; lia|].
    destruct (ca_held _ _ _ Hc) as [[Hl _]|[_ Hn]]; [|congruence].
    assert (Hlt : (i < length (bufs (s <| lock := true |>)))%nat) by (by eapply lookup_lt_Some).
    exists i, b. split_and!; try done. left. split_and!; try done.
    unfold bget. run Ha. run Hg. unfold find_cached. run Hfind. cbn match.
    set (s1 := s <| lock := true |>) in *. set (b1 := b <| refcnt ::= fun n => u32 (n + 1) |>).
    assert (Hs1 : set_buf i (fun x => x <| refcnt ::= fun n => u32 (n + 1) |>) s1 = Ret tt (at_ i b1 s1)).
    { unfold set_buf. simpl. by rewrite Hb. }
    run Hs1. run (Hrel i b1). run (acquiresleep_at i mypid fuel s b1 Hlt Hsp Hl Hfuel).
    assert (Hb1 : b1 = b <| refcnt := 1 |>).
    { unfold b1. pose proof (ca_lk _ _ _ Hc) as Hrc. rewrite Hl in Hrc. destruct b. simpl in *. by rewrite Hrc. }
    by rewrite Hb1.
  - destruct (head_link s v prev Hr ltac:(by right)) as (hd' & Hg' & Hx' & Hhd').
    destruct (ring_search s v unused prev _ Hr ltac:(by right) Hx') as (r & Hfind' & Hspec').
    assert (Hno : forall j c, (j < NBUF)%nat -> bufs s !! j = Some c -> dev c = 1 -> blockno c <> bn).
    { intros j c Hj Hc Hdc Hbc. pose proof (Hspec j c Hj Hc) as Hf. unfold ROOTDEV in Hf.
      rewrite Hdc, Hbc, !Z.eqb_refl in Hf. done. }
    destruct r as [i|].
    2: { destruct Hsz as [Hpin|Hsz]; [by destruct (rp_none _ _ Hr bn Hno) as (_ & _ & ?)|].
         pose proof (all_used s v Hr Hspec'). lia. }
    destruct Hspec' as (Hi & b & Hb & Hok). pose proof (rp_buf _ _ Hr i b Hi Hb) as Hbok.
    apply (unused_spec v i b Hbok) in Hok.
    assert (Hl : Sleep.locked (lk b) = 0) by (destruct Hok as [(_ & _ & _ & ?)|(_ & ? & _)]; done).
    assert (Hlt : (i < length (bufs (s <| lock := true |>)))%nat) by (by eapply lookup_lt_Some).
    exists i, b. split_and!; try done; [apply Hbok|]. right. split_and!; [naive_solver|done|].
    unfold bget. run Ha. run Hg. unfold find_cached. run Hfind. cbn match. run Hg'.
    unfold find_unused. fold unused. run Hfind'. cbn match.
    set (s1 := s <| lock := true |>) in *.
    assert (Hs1 : set_buf i (fun x => x <| dev := ROOTDEV |>) s1 = Ret tt (at_ i (b <| dev := ROOTDEV |>) s1)).
    { unfold set_buf. simpl. by rewrite Hb. }
    run Hs1. run (set_buf_at i s1 Hlt (b <| dev := ROOTDEV |>) (fun x => x <| blockno := bn |>)).
    match goal with |- context [at_ i ?c s1] => run (set_buf_at i s1 Hlt c (fun x => x <| flags := 0 |>)) end.
    match goal with |- context [at_ i ?c s1] => run (set_buf_at i s1 Hlt c (fun x => x <| refcnt := 1 |>)) end.
    match goal with |- context [at_ i ?x s1] => run (Hrel i x);
      run (acquiresleep_at i mypid fuel s x Hlt (proj1 Hbok) Hl Hfuel) end.
    done.
Qed.

Lemma bread_rep s v bn : rep s v -> 0 <= bn < nb -> held v !! bn = None -> (bn ∈ pinned v \/ (size (busy v) < NBUF)%nat) ->
  exists h s', bread mypid fuel ROOTDEV bn s = Ret h s' /\ rep s' (v <| held ::= <[bn := h]> |>).
Proof.
  intros Hr Hbn Hh Hsz.
  destruct (bget_run s v bn Hr Hh Hsz) as (i & b & Hi & Hb & Hsp & Hl & Hcase). exists i.
  assert (Hlt : (i < length (bufs s))%nat) by (by eapply lookup_lt_Some).
  assert (Hag : forall x, x <> bn -> agree v (v <| held ::= <[bn := i]> |>) x).
  { intros x Hx. unfold agree. simpl. by rewrite lookup_insert_ne. }
  destruct Hcase as [(Hdev & Hbno & Hc & Hrun)|(Hold & Hnone & Hrun)].
  - eexists. split.
    { unfold bread. run Hrun. run (get_buf_at i s Hlt (locked_by (b <| refcnt := 1 |>))).
      change (flags (locked_by (b <| refcnt := 1 |>))) with (flags b).
      assert (Hv : (Z.land (flags b) B_VALID =? 0) = false) by (rewrite (ca_flags _ _ _ Hc); by case_decide).
      rewrite Hv. reflexivity. }
    destruct Hc.
    eapply (rep_upd s v i b (locked_by (b <| refcnt := 1 |>)) _ _ bn); try done; try apply Hr.
    + subst bn. by eapply rep_other.
    + split; [done|right]. split; [done|]. split; simpl; try done.
      subst bn. rewrite lookup_insert_eq. by right.
  - set (b1 := locked_by (b <| dev := 1 |> <| blockno := bn |> <| flags := 0 |> <| refcnt := 1 |>)) in *.
    exists (at_ i (b1 <| data := dsk v bn |> <| flags := B_VALID |>) s). split.
    { unfold bread. run Hrun. run (get_buf_at i s Hlt b1). change (Z.land (flags b1) B_VALID =? 0) with true.
      unfold when. run (iderw_read s i b1 (dsk v bn) Hlt Hsp eq_refl eq_refl eq_refl (rp_dsk _ _ Hr bn Hbn)). done. }
    destruct (rp_none _ _ Hr bn) as (H1 & H2 & H3); [done|].
    eapply (rep_upd s v i b (b1 <| data := dsk v bn |> <| flags := B_VALID |>) _ _ bn); try done; try apply Hr.
    + intros j c _. by apply Hnone.
    + split; [done|right]. split; [done|]. split; simpl; try done.
      * by rewrite decide_False.
      * rewrite lookup_insert_eq. by right.
    + intros Hd _. destruct Hold as [(Hd' & _)|[_ ?]]; [lia|done].
Qed.

(** The cache discharges the promise of the interface. *)
#[export] Instance bio_buffers_ok : @BuffersOk bcache (bio_buffers mypid fuel).
Proof.
  refine {| Block.nblocks := nb; Block.capacity := NBUF; Block.rep := rep |}.
  - apply rep_ext.
  - intros s v bn Hr Hbn. by eapply rp_size.
  - intros s v bn. apply bread_rep.
  - intros s v bn h Hr Hh. destruct (rep_held s v bn h Hr Hh) as (b & Hi & Hb & _ & <- & Hc & _).
    simpl. unfold bind, get_buf. rewrite Hb. simpl. unfold ret. by rewrite (ca_data _ _ _ Hc).
  - intros s v bn h f. apply b_update_rep.
  - intros s v bn h. apply brelse_rep.
Defined.
#[export] Instance bio_ok : @BlockStoreOk bcache (bio_store mypid fuel).
Proof.
  refine (@Build_BlockStoreOk bcache (bio_store mypid fuel) bio_buffers_ok _ _ _).
  - intros s v bn h Hr Hh. destruct (rep_held s v bn h Hr Hh) as (b & Hi & Hb & _ & <- & _).
    simpl. unfold bind, get_buf. rewrite Hb. done.
  - intros s v bn h. apply pin_rep.
  - intros s v bn h. apply bwrite_rep.
Defined.
End laws.

(** *** Initialisation *)

(** A buffer of zeroed memory, but for its links. *)
Definition zeroed (b : buf) : Prop := fresh b /\ Sleep.spin (lk b) = false.

(** The store of a disk that nothing has been read from. *)
Definition boot_view (d : list (list Z)) : bview :=
  let c bn := default [] (d !! Z.to_nat bn) in BView c c ∅ ∅ [].

Lemma zeroed_core b b' : core b' = core b -> zeroed b -> zeroed b'.
Proof. destruct b, b'. unfold core. simpl. intros [=]. by subst. Qed.
Lemma zeroed_same s s' : same s s' -> Forall zeroed (bufs s) -> Forall zeroed (bufs s').
Proof.
  intros (_ & _ & _ & Hc) HF. apply Forall_lookup. intros i b' Hb'.
  destruct (list_fmap_lookup_eq core (bufs s') (bufs s) i b') as (b & Hb & Hcb); [done|done|].
  eapply zeroed_core; [by symmetry|]. by eapply (Forall_lookup_1 _ _ i).
Qed.

(** The state of the loop when the buffers of [l] are linked. *)
Definition binit_inv (s0 : bcache) (l : list nat) (s : bcache) : Prop :=
  ring (next <$> bufs s) (prev <$> bufs s) l /\ Forall zeroed (bufs s) /\ lock s = false /\
  disk s = disk s0 /\ trace s = trace s0 /\ length (bufs s) = S NBUF.

Lemma init_lk s i : (i < length (bufs s))%nat -> Forall zeroed (bufs s) ->
  exists s', set_buf i (fun x => x <| lk ::= Sleep.initsleeplock |>) s = Ret tt s' /\
    lock s' = lock s /\ disk s' = disk s /\ trace s' = trace s /\ length (bufs s') = length (bufs s) /\
    next <$> bufs s' = next <$> bufs s /\ prev <$> bufs s' = prev <$> bufs s /\ Forall zeroed (bufs s').
Proof.
  intros Hi HF. destruct (lookup_lt_is_Some_2 _ _ Hi) as [b Hb]. unfold set_buf. rewrite Hb.
  eexists. split; [done|]. simpl. rewrite length_insert, !list_fmap_insert. split_and!; try done.
  - apply list_insert_id. by rewrite list_lookup_fmap, Hb.
  - apply list_insert_id. by rewrite list_lookup_fmap, Hb.
  - apply Forall_insert; [done|]. pose proof (Forall_lookup_1 _ _ _ _ HF Hb) as [(H1 & H2 & H3 & H4) H5]. done.
Qed.

Lemma binit_step_ok s0 s l i : binit_inv s0 l s -> (i < NBUF)%nat -> i ∉ l ->
  exists s', binit_step i s = Ret tt s' /\ binit_inv s0 (i :: l) s'.
Proof.
  intros (Hr & HF & Hl & Hd & Ht & Hlen) Hi Hil.
  destruct (ring_prev_head _ _ _ Hr) as (f & q & Hf & Hq & Hfin).
  destruct (ring_lt _ _ _ _ Hr Hfin) as [Hfl _]. rewrite length_fmap in Hfl.
  destruct (get_links s HEAD f q Hf Hq) as (hd & Hg & Hhf & _).
  destruct (set_next s i f) as (s1 & E1 & S1 & N1 & P1); [lia|]. pose proof (same_len _ _ S1) as L1.
  destruct (set_prev s1 i HEAD) as (s2 & E2 & S2 & N2 & P2); [lia|]. pose proof (same_len _ _ S2) as L2.
  assert (HF2 : Forall zeroed (bufs s2)) by eauto using zeroed_same.
  destruct (init_lk s2 i) as (s3 & E3 & A3 & B3 & C3 & L3 & N3 & P3 & HF3); [lia|done|].
  assert (Hi0 : i <> HEAD) by (unfold HEAD; lia).
  destruct (lookup_lt_is_Some_2 (prev <$> bufs s3) HEAD) as [q' Hq']; [rewrite length_fmap; unfold HEAD; lia|].
  destruct (get_links s3 HEAD f q') as (hd' & Hg' & Hhf' & _); [|done|].
  { by rewrite N3, N2, N1, list_lookup_insert_ne. }
  destruct (set_prev s3 f i) as (s4 & E4 & S4 & N4 & P4); [lia|]. pose proof (same_len _ _ S4) as L4.
  destruct (set_next s4 HEAD i) as (s5 & E5 & S5 & N5 & P5); [unfold HEAD; lia|]. pose proof (same_len _ _ S5) as L5.
  exists s5. split.
  { unfold binit_step. run Hg. rewrite Hhf. run E1. run E2. run E3. run Hg'. rewrite Hhf'. run E4. exact E5. }
  destruct S1 as (A1 & B1 & C1 & _), S2 as (A2 & B2 & C2 & _). split_and!.
  - rewrite N5, N4, N3, N2, N1, P5, P4, P3, P2, P1. apply ring_push; [done| | | |done].
    + rewrite not_elem_of_cons. done.
    + rewrite length_fmap. lia.
    + rewrite length_fmap. lia.
  - eauto using zeroed_same.
  - destruct S4 as (A4 & _), S5 as (A5 & _). congruence.
  - destruct S4 as (_ & B4 & _), S5 as (_ & B5 & _). congruence.
  - destruct S4 as (_ & _ & C4 & _), S5 as (_ & _ & C5 & _). congruence.
  - lia.
Qed.

Lemma binit_loop s0 is_ : forall l s, binit_inv s0 l s -> NoDup is_ -> (forall i, i ∈ is_ -> (i < NBUF)%nat /\ i ∉ l) ->
  exists s', meach is_ binit_step s = Ret tt s' /\ binit_inv s0 (rev is_ ++ l) s'.
Proof.
  induction is_ as [|i is_ IH]; intros l s HI Hnd Hin; [by exists s|].
  apply NoDup_cons in Hnd as [Hn Hnd]. destruct (Hin i) as [Hi Hil]; [set_solver|].
  destruct (binit_step_ok s0 s l i HI Hi Hil) as (s1 & E1 & HI1).
  destruct (IH (i :: l) s1 HI1 Hnd) as (s2 & E2 & HI2).
  { intros j Hj. destruct (Hin j) as [Hj1 Hj2]; [set_solver|]. split; [done|set_solver]. }
  exists s2. cbn [meach]. run E1. split; [done|]. simpl. by rewrite <- app_assoc.
Qed.

Lemma binit_rep s :
  length (bufs s) = S NBUF -> Forall zeroed (bufs s) -> trace s = [] ->
  length (disk s) = ndisk -> Forall (fun d => length d = BSIZE) (disk s) ->
  exists s', binit s = Ret tt s' /\ disk s' = disk s /\ rep s' (boot_view (disk s)).
Proof.
  intros Hlen HF Ht Hd Hbs. set (s1 := s <| lock := false |>).
  destruct (set_prev s1 HEAD HEAD) as (s2 & E2 & S2 & N2 & P2); [simpl; unfold HEAD; lia|]. pose proof (same_len _ _ S2) as L2.
  destruct (set_next s2 HEAD HEAD) as (s3 & E3 & S3 & N3 & P3); [rewrite L2; simpl; unfold HEAD; lia|]. pose proof (same_len _ _ S3) as L3.
  assert (Hinv : binit_inv s [] s3).
  { pose proof S2 as (A2 & B2 & C2 & _). pose proof S3 as (A3 & B3 & C3 & _). split_and!; simpl in *; try congruence.
    - split; [apply NoDup_singleton|]. simpl. rewrite N3, P3, P2.
      rewrite !list_lookup_insert_eq; [done|..]; rewrite length_fmap; simpl; unfold HEAD in *; lia.
    - eapply zeroed_same; [exact S3|]. by eapply zeroed_same. }
  destruct (binit_loop s (seq 0 NBUF) [] s3 Hinv) as (s4 & E4 & Hr & HF4 & Hl4 & Hd4 & Ht4 & Hlen4).
  { apply NoDup_seq. }
  { intros i Hi%elem_of_seq. split; [lia|set_solver]. }
  exists s4. split_and!; [|done|].
  { unfold binit. erewrite (run_bind _ _ _ tt s1) by done. run E2. run E3. exact E4. }
  rewrite app_nil_r in Hr.
  assert (Hdk : forall bn, 0 <= bn < nb -> exists d, disk s !! Z.to_nat bn = Some d /\ length d = BSIZE).
  { intros bn Hbn. destruct (lookup_lt_is_Some_2 (disk s) (Z.to_nat bn)) as [d Hdd]; [lia|].
    exists d. split; [done|]. by apply (Forall_lookup_1 _ _ _ _ Hbs Hdd). }
  split; try done.
  - exists (rev (seq 0 NBUF)). split; [by rewrite <- Permutation_rev|done].
  - by rewrite Hd4.
  - intros bn Hbn. destruct (Hdk bn Hbn) as (d & Hdd & _). simpl. by rewrite Hd4, Hdd.
  - intros bn Hbn. destruct (Hdk bn Hbn) as (d & Hdd & Hl). simpl. by rewrite Hdd.
  - intros i b _ Hb. destruct (Forall_lookup_1 _ _ _ _ HF4 Hb) as [H1 H2]. split; [done|by left].
  - intros i j b c _ _ Hb _ Hdb. destruct (Forall_lookup_1 _ _ _ _ HF4 Hb) as [(H1 & _) _]. lia.
  - simpl. congruence.
Qed.

(** [binit], run on zeroed memory, links the buffers into a ring and
    leaves a cache in which every block has the content it has on disk, no
    block is held and none is dirty. *)
Theorem binit_correct s :
  length (bufs s) = S NBUF -> Forall zeroed (bufs s) -> trace s = [] ->
  length (disk s) = ndisk -> Forall (fun d => length d = BSIZE) (disk s) ->
  exists s', binit s = Ret tt s' /\ disk s' = disk s /\ rep s' (boot_view (disk s)).
Proof. apply binit_rep. Qed.

(** C17: the buffer cache refines the block store.  [bread] of a block that the
    caller does not hold returns a locked buffer with the current content of
    the block, whether it was cached or has to displace another block, unless
    all buffers are locked or dirty with other blocks.  [bwrite] makes the content of a held
    buffer that of the disk and clears its dirty mark.  [brelse] gives the
    buffer up; no content is lost, since the buffer is dirty or equal to the
    disk.  No operation changes the content of another block, on disk or in the
    cache. *)
Theorem bcache_correct mypid fuel s v bn :
  (0 < fuel)%nat -> rep s v -> 0 <= bn < nb ->
  (held v !! bn = None -> (bn ∈ pinned v \/ (size (busy v) < NBUF)%nat) ->
   exists h s', bread mypid fuel ROOTDEV bn s = Ret h s' /\ rep s' (v <| held ::= <[bn := h]> |>) /\
     data <$> bufs s' !! h = Some (cont v bn)) /\
  (forall h, held v !! bn = Some h ->
   (exists s', bwrite h s = Ret tt s' /\
      rep s' (v <| dsk := fupd (dsk v) bn (cont v bn) |> <| pinned ::= fun p => p ∖ {[bn]} |>
                <| writes ::= fun l => l ++ [(bn, cont v bn)] |>)) /\
   (bn ∈ pinned v \/ cont v bn = dsk v bn ->
    exists s', brelse h s = Ret tt s' /\ rep s' (v <| held ::= delete bn |>))).
Proof.
  intros Hf Hr Hbn. split.
  - intros Hh Hsz. destruct (bread_rep mypid fuel Hf s v bn Hr Hbn Hh Hsz) as (h & s' & Hrun & Hr').
    exists h, s'. split_and!; [done|done|].
    destruct (rep_held _ _ bn h Hr') as (b & _ & Hb & _ & <- & Hc & _); [apply lookup_insert_eq|].
    rewrite Hb. simpl. by rewrite (ca_data _ _ _ Hc).
  - intros h Hh. split; [by eapply bwrite_rep|by eapply brelse_rep].
Qed.
End store.

(** ** Witnesses *)

Definition zero_buf : buf := Buf 0 0 0 (Sleep.Sleeplock false 0 0 0) 0 0 0 (replicate BSIZE 0).
Definition demo_bcache : bcache :=
  Bcache true (replicate (S NBUF) zero_buf) [replicate BSIZE 7; replicate BSIZE 9] [].

Lemma demo_zeroed : Forall zeroed (bufs demo_bcache).
Proof. apply Forall_replicate. done. Qed.
Lemma demo_disk : Forall (fun d => length d = BSIZE) (disk demo_bcache).
Proof. repeat constructor. Qed.

Lemma binit_witness : exists s', binit demo_bcache = Ret tt s' /\ rep 2 s' (boot_view (disk demo_bcache)).
Proof.
  destruct (binit_correct 2 demo_bcache eq_refl demo_zeroed eq_refl eq_refl demo_disk) as (s' & H1 & _ & H2).
  exists s'. split; [exact H1|exact H2].
Defined.

Lemma bcache_witness : exists s h s', binit demo_bcache = Ret tt s /\ bread 3 1 ROOTDEV 1 s = Ret h s' /\
  data <$> bufs s' !! h = Some (replicate BSIZE 9).
Proof.
  destruct (binit_rep 2 demo_bcache eq_refl demo_zeroed eq_refl eq_refl demo_disk) as (s & H1 & _ & H2).
  assert (Hb : 0 <= 1 < Z.of_nat 2) by lia.
  destruct (proj1 (bcache_correct 2 3 1 s _ 1 ltac:(lia) H2 Hb) eq_refl ltac:(right; vm_compute; lia)) as (h & s' & Hr & _ & Hd).
  exists s, h, s'. split; [exact H1|]. split; [exact Hr|exact Hd].
Defined.
End Bio.
