(* ===== verification/Log.v ===== *)
(** * The redo log (log.c)

    The log makes the block writes of a group of file system calls atomic with
    respect to crashes.  It is modelled over any block store.  The theorems show
    that a crash at any point of a commit, followed by recovery, leaves all
    home blocks as before or all as after the transaction; that recovery may
    itself be interrupted; and that [begin_op] reserves space in the log.
    LogShare has the system calls that share the log. *)

From S2P Require Import Prelude Params Bytes Sleeplock Block Bio.

Module Log.

(** [struct log] with the block store below it.  [lock] is the spin lock,
    [block] the array of the header in memory; a block number is its 32-bit
    pattern.  [wakeups] counts the calls of [wakeup(&log)].
    [spurious] is auxiliary: a bound on the wakeups still to come that find no
    room. *)
Record log (S : Type) := MkLog {
  lock : bool;
  start : Z;
  size_ : Z;
  outstanding : Z;
  committing : Z;
  dev : Z;
  n : Z;
  block : list Z;
  wakeups : nat;
  spurious : nat;
  store : S;
}.
Arguments MkLog {S}.
Arguments lock {S}. Arguments start {S}. Arguments size_ {S}. Arguments outstanding {S}.
Arguments committing {S}. Arguments dev {S}. Arguments n {S}. Arguments block {S}.
Arguments wakeups {S}. Arguments spurious {S}. Arguments store {S}.
#[export] Instance log_eta S : Eta (log S) := fun r =>
  MkLog (lock r) (start r) (size_ r) (outstanding r) (committing r) (dev r) (n r) (block r)
    (wakeups r) (spurious r) (store r).

Section ops.
Context {S : Type} `{BlockStore S}.
(** A bound on the times a process is woken in [begin_op] without space. *)
Context (fuel : nat).
Notation L := (log S).

(** An operation of the block store. *)
Definition io {A} (m : M S A) : M L A := lift store (fun e s => s <| store := e |>) m.

Definition acquire : M L unit := fun s => if lock s then Spin s else Ret tt (s <| lock := true |>).
Definition release : M L unit := fun s =>
  if lock s then Ret tt (s <| lock := false |>) else Panic "release" s.
Definition sleep : M L unit := release ;;; swtch ;;; acquire.
Definition wakeup : M L unit := modify (fun s => s <| wakeups ::= Datatypes.S |>).

(** [log.lh.block[i]] *)
Definition get_block (i : nat) : M L Z := fun s =>
  match block s !! i with Some b => Ret b s | None => Fault s end.
Definition set_block (i : nat) (b : Z) : M L unit := fun s =>
  if decide (i < length (block s))%nat then Ret tt (s <| block ::= <[i := b]> |>) else Fault s.

(** One turn of [install_trans]. *)
Definition install_block (tail : nat) : M L unit :=
  l <- gets id ;;
  lbuf <- io (bread (dev l) (u32 (start l + Z.of_nat tail + 1))) ;;
  b <- get_block tail ;;
  dbuf <- io (bread (dev l) b) ;;
  d <- io (b_data lbuf) ;;
  io (b_update dbuf (fun _ => d)) ;;;
  io (bwrite dbuf) ;;;
  io (brelse lbuf) ;;;
  io (brelse dbuf).

Definition install_trans : M L unit :=
  l <- gets id ;; meach (seq 0 (Z.to_nat (n l))) install_block.

(** Offset of [block[i]] in the header block. *)
Definition hoff (i : nat) : nat := (4 + 4 * i)%nat.

Definition read_head : M L unit :=
  l <- gets id ;;
  buf <- io (bread (dev l) (start l)) ;;
  d <- io (b_data buf) ;;
  modify (fun s => s <| n := s32 (get32 0 d) |>) ;;;
  l <- gets id ;;
  meach (seq 0 (Z.to_nat (n l))) (fun i => set_block i (get32 (hoff i) d)) ;;;
  io (brelse buf).

Definition write_head : M L unit :=
  l <- gets id ;;
  buf <- io (bread (dev l) (start l)) ;;
  io (b_update buf (put32 0 (n l))) ;;;
  meach (seq 0 (Z.to_nat (n l))) (fun i => b <- get_block i ;; io (b_update buf (put32 (hoff i) b))) ;;;
  io (bwrite buf) ;;;
  io (brelse buf).

Definition recover_from_log : M L unit :=
  read_head ;;;
  install_trans ;;;
  modify (fun s => s <| n := 0 |>) ;;;
  write_head.

(** [sizeof(struct logheader)] *)
Definition sizeof_logheader : Z := 4 + 4 * LOGSIZE.

Definition initlog (dv : Z) : M L unit :=
  if Z.of_nat BSIZE <=? sizeof_logheader then panic "initlog: too big logheader"
  else
    modify (fun s => s <| lock := false |>) ;;;
    sb <- io (readsb dv) ;;
    modify (fun s => s <| start := sb_logstart sb |>) ;;;
    modify (fun s => s <| size_ := sb_nlog sb |>) ;;;
    modify (fun s => s <| dev := dv |>) ;;;
    recover_from_log.

(** One turn of the loop of [begin_op]. *)
Definition begin_step (_ : unit) : M L (unit + unit) :=
  l <- gets id ;;
  if negb (committing l =? 0) then sleep ;;; ret (inl tt)
  else if LOGSIZE <? n l + (outstanding l + 1) * MAXOPBLOCKS then sleep ;;; ret (inl tt)
  else
    modify (fun s => s <| outstanding ::= Z.add 1 |>) ;;;
    release ;;;
    ret (inr tt).

Definition begin_op : M L unit := acquire ;;; mwhile fuel begin_step tt.

(** One turn of [write_log]. *)
Definition log_block (tail : nat) : M L unit :=
  l <- gets id ;;
  to <- io (bread (dev l) (u32 (start l + Z.of_nat tail + 1))) ;;
  b <- get_block tail ;;
  from <- io (bread (dev l) b) ;;
  d <- io (b_data from) ;;
  io (b_update to (fun _ => d)) ;;;
  io (bwrite to) ;;;
  io (brelse from) ;;;
  io (brelse to).

Definition write_log : M L unit :=
  l <- gets id ;; meach (seq 0 (Z.to_nat (n l))) log_block.

Definition commit : M L unit :=
  l <- gets id ;;
  when (0 <? n l)
    (write_log ;;;
     write_head ;;;
     install_trans ;;;
     modify (fun s => s <| n := 0 |>) ;;;
     write_head).

Definition end_op : M L unit :=
  acquire ;;;
  modify (fun s => s <| outstanding ::= fun x => x - 1 |>) ;;;
  l <- gets id ;;
  if negb (committing l =? 0) then panic "log.committing"
  else
    (if outstanding l =? 0 then modify (fun s => s <| committing := 1 |>) else wakeup) ;;;
    release ;;;
    when (outstanding l =? 0)
      (commit ;;;
       acquire ;;;
       modify (fun s => s <| committing := 0 |>) ;;;
       wakeup ;;;
       release).

(** The index of [bno] among the first [m] logged blocks, or [m]. *)
Fixpoint absorb (bs : list Z) (m : nat) (bno : Z) : nat :=
  match m, bs with
  | Datatypes.S m, b :: bs => if b =? bno then 0 else Datatypes.S (absorb bs m bno)
  | _, _ => 0
  end.

Definition log_write (b : nat) : M L unit :=
  l <- gets id ;;
  if (LOGSIZE <=? n l) || (size_ l - 1 <=? n l) then panic "too big a transaction"
  else if outstanding l <? 1 then panic "log_write outside of trans"
  else
    acquire ;;;
    l <- gets id ;;
    bno <- io (b_blockno b) ;;
    let i := absorb (block l) (Z.to_nat (n l)) bno in
    set_block i bno ;;;
    when (Z.of_nat i =? n l) (modify (fun s => s <| n ::= Z.add 1 |>)) ;;;
    io (b_pin b) ;;;
    release.
End ops.

(** ** Header blocks *)

Definition put_blocks (i : nat) (bs : list Z) (d : list Z) : list Z :=
  foldl (fun d ib => put32 (hoff ib.1) ib.2 d) d (zip (seq i (length bs)) bs).
(** The header block of the logged blocks [bs], written over [d]. *)
Definition header (bs : list Z) (d : list Z) : list Z := put_blocks 0 bs (put32 0 (Z.of_nat (length bs)) d).
(** What recovery reads from it. *)
Definition hdr_blocks (d : list Z) : list Z :=
  (fun i => get32 (hoff i) d) <$> seq 0 (Z.to_nat (s32 (get32 0 d))).

Lemma put_blocks_cons i b bs d : put_blocks i (b :: bs) d = put_blocks (S i) bs (put32 (hoff i) b d).
Proof. done. Qed.

Lemma put_blocks_get i bs : forall d, (hoff (i + length bs) <= length d)%nat -> Forall is_u32 bs ->
  length (put_blocks i bs d) = length d /\
  (forall o, (o + 4 <= hoff i)%nat -> get32 o (put_blocks i bs d) = get32 o d) /\
  (forall j b, bs !! j = Some b -> get32 (hoff (i + j)) (put_blocks i bs d) = b).
Proof.
  revert i. induction bs as [|b bs IH]; intros i d Hl HF; [done|]. rewrite put_blocks_cons.
  apply Forall_cons in HF as [Hb HF]. unfold hoff in *. cbn [length] in Hl.
  assert (Hlen : length (put32 (4 + 4 * i) b d) = length d) by (apply length_put32; lia).
  destruct (IH (S i) (put32 (4 + 4 * i) b d)) as (H1 & H2 & H3); [lia|done|].
  split_and!.
  - congruence.
  - intros o Ho. rewrite H2 by lia. apply get32_put32; lia.
  - intros [|j] c Hj; simpl in Hj.
    + injection Hj as ->. rewrite Nat.add_0_r, H2 by lia. rewrite get_put32 by lia. by apply u32_small.
    + rewrite <- (H3 j c Hj). f_equal. lia.
Qed.

Lemma header_ok bs d : (hoff (length bs) <= length d)%nat -> Forall is_u32 bs -> length d = BSIZE ->
  length (header bs d) = length d /\ get32 0 (header bs d) = Z.of_nat (length bs) /\ hdr_blocks (header bs d) = bs.
Proof.
  intros Hl HF Hd. assert (Hlen : length (put32 0 (Z.of_nat (length bs)) d) = length d).
  { apply length_put32. rewrite Hd. unfold BSIZE. lia. }
  destruct (put_blocks_get 0 bs (put32 0 (Z.of_nat (length bs)) d)) as (H1 & H2 & H3); [rewrite Hlen; exact Hl|done|].
  fold (header bs d) in *. unfold hoff, BSIZE in *.
  assert (Hn : get32 0 (header bs d) = Z.of_nat (length bs)).
  { rewrite H2 by (unfold hoff; lia). rewrite get_put32 by lia. apply u32_small. unfold is_u32. lia. }
  split_and!; [congruence|done|]. apply list_eq. intros j. unfold hdr_blocks.
  rewrite list_lookup_fmap, Hn, s32_small, Nat2Z.id by (unfold is_s32; lia).
  destruct (bs !! j) as [b|] eqn:Hj.
  - pose proof (lookup_lt_Some _ _ _ Hj). rewrite lookup_seq_lt by done. simpl. f_equal. by apply H3.
  - rewrite lookup_seq_ge; [done|]. by apply lookup_ge_None.
Qed.

(** ** Writes to the store *)

(** A sequence of block writes applied to a disk, and to the view of it. *)
Definition apply_ws (ws : list (Z * list Z)) (D : Z -> list Z) : Z -> list Z :=
  foldl (fun D w => fupd D w.1 w.2) D ws.
Definition vput (v : bview) (w : Z * list Z) : bview :=
  v <| cont := fupd (cont v) w.1 w.2 |> <| dsk := fupd (dsk v) w.1 w.2 |>
    <| pinned ::= fun p => p ∖ {[w.1]} |> <| writes ::= fun l => l ++ [w] |>.
Definition vputs (v : bview) (ws : list (Z * list Z)) : bview := foldl vput v ws.

Lemma vputs_dsk ws v : dsk (vputs v ws) = apply_ws ws (dsk v).
Proof. revert v. induction ws as [|w ws IH]; intros v; [done|]. apply (IH (vput v w)). Qed.
Lemma vputs_cont ws v : cont (vputs v ws) = apply_ws ws (cont v).
Proof. revert v. induction ws as [|w ws IH]; intros v; [done|]. apply (IH (vput v w)). Qed.
Lemma vputs_held ws v : held (vputs v ws) = held v.
Proof. revert v. induction ws as [|w ws IH]; intros v; [done|]. apply (IH (vput v w)). Qed.
Lemma vputs_writes ws v : writes (vputs v ws) = writes v ++ ws.
Proof.
  revert v. induction ws as [|w ws IH]; intros v; simpl; [by rewrite app_nil_r|].
  etrans; [apply (IH (vput v w))|]. simpl. by rewrite <- app_assoc.
Qed.
Lemma vputs_pinned ws v x : x ∈ pinned (vputs v ws) <-> x ∈ pinned v /\ x ∉ ws.*1.
Proof.
  revert v. induction ws as [|w ws IH]; intros v; [set_solver|].
  rewrite (IH (vput v w)). simpl. set_solver.
Qed.
Lemma vputs_app ws1 ws2 v : vputs v (ws1 ++ ws2) = vputs (vputs v ws1) ws2.
Proof. apply foldl_app. Qed.
Lemma apply_ws_app ws1 ws2 D : apply_ws (ws1 ++ ws2) D = apply_ws ws2 (apply_ws ws1 D).
Proof. apply foldl_app. Qed.

Lemma apply_ws_one w D : apply_ws [w] D = fupd D w.1 w.2.
Proof. done. Qed.

Lemma apply_ws_notin ws : forall D x, x ∉ ws.*1 -> apply_ws ws D x = D x.
Proof.
  induction ws as [|w ws IH]; intros D x Hx; [done|]. simpl in Hx. apply not_elem_of_cons in Hx as [H1 H2].
  etrans; [apply (IH (fupd D w.1 w.2) x H2)|]. by apply fupd_ne.
Qed.
(** A block that is only written with one value. *)
Lemma apply_ws_in ws x d : forall D, x ∈ ws.*1 -> (forall d', (x, d') ∈ ws -> d' = d) -> apply_ws ws D x = d.
Proof.
  induction ws as [|[y e] ws IH]; intros D Hx Hd; [set_solver|].
  destruct (decide (x ∈ ws.*1)) as [Hin|Hin].
  - apply (IH (fupd D y e)); [done|]. intros d' Hd'. apply Hd. set_solver.
  - change (apply_ws ws (fupd D y e) x = d). rewrite apply_ws_notin by done. simpl in Hx.
    assert (x = y) as -> by set_solver. rewrite fupd_eq. apply Hd. set_solver.
Qed.

(** The writes of [write_log] and of [install_trans] for the blocks [bs], from
    log block [i] on, when the blocks have the content [c]. *)
Fixpoint log_ws (st : Z) (i : nat) (c : Z -> list Z) (bs : list Z) : list (Z * list Z) :=
  match bs with [] => [] | b :: bs => (st + Z.of_nat i + 1, c b) :: log_ws st (S i) c bs end.
Fixpoint inst_ws (st : Z) (i : nat) (c : Z -> list Z) (bs : list Z) : list (Z * list Z) :=
  match bs with [] => [] | b :: bs => (b, c (st + Z.of_nat i + 1)) :: inst_ws st (S i) c bs end.

Lemma log_ws_ext st bs c c' : forall i, (forall b, b ∈ bs -> c b = c' b) -> log_ws st i c bs = log_ws st i c' bs.
Proof.
  induction bs as [|b bs IH]; intros i Hc; [done|]. simpl. rewrite Hc by set_solver. f_equal. apply IH. set_solver.
Qed.
Lemma inst_ws_ext st bs c c' : forall i,
  (forall j, (i <= j < i + length bs)%nat -> c (st + Z.of_nat j + 1) = c' (st + Z.of_nat j + 1)) ->
  inst_ws st i c bs = inst_ws st i c' bs.
Proof.
  induction bs as [|b bs IH]; intros i Hc; [done|]. simpl. rewrite Hc by (simpl; lia). f_equal.
  apply IH. intros j Hj. apply Hc. simpl. lia.
Qed.
Lemma inst_ws_fst st c bs : forall i, (inst_ws st i c bs).*1 = bs.
Proof. induction bs as [|b bs IH]; intros i; [done|]. simpl. by rewrite IH. Qed.
Lemma log_ws_fst st c bs : forall i x, x ∈ (log_ws st i c bs).*1 -> st + Z.of_nat i < x <= st + Z.of_nat (i + length bs).
Proof.
  induction bs as [|b bs IH]; intros i x; simpl; [set_solver|]. intros [-> |Hx]%elem_of_cons; [lia|].
  apply IH in Hx. lia.
Qed.

(** What the log blocks hold after [write_log]. *)
Lemma apply_log_ws st c bs : forall i D j b, bs !! j = Some b ->
  apply_ws (log_ws st i c bs) D (st + Z.of_nat (i + j) + 1) = c b.
Proof.
  induction bs as [|a bs IH]; intros i D j b Hj; [done|]. cbn [log_ws]. unfold apply_ws. cbn [foldl].
  destruct j as [|j]; simplify_eq/=.
  - rewrite Nat.add_0_r. etrans; [apply apply_ws_notin|apply fupd_eq].
    intros Hx%log_ws_fst. lia.
  - replace (i + S j)%nat with (S i + j)%nat by lia. by apply (IH (S i)).
Qed.
(** [install_trans] after [write_log]. *)
Lemma inst_ws_map st bs (c c' : Z -> list Z) : forall i,
  (forall j b, bs !! j = Some b -> c' (st + Z.of_nat (i + j) + 1) = c b) ->
  inst_ws st i c' bs = (fun b => (b, c b)) <$> bs.
Proof.
  induction bs as [|b bs IH]; intros i Hc; [done|]. cbn [inst_ws fmap list_fmap]. f_equal.
  - rewrite <- (Hc 0%nat b eq_refl). by rewrite Nat.add_0_r.
  - apply IH. intros j x Hj. rewrite <- (Hc (S j) x Hj). do 2 f_equal. lia.
Qed.

(** The writes of a commit, in order: the log blocks, the header, the home
    blocks, the empty header. *)
Definition commit_ws (st : Z) (c : Z -> list Z) (bs : list Z) : list (Z * list Z) :=
  let h := header bs (c st) in
  log_ws st 0 c bs ++ [(st, h)] ++ ((fun b => (b, c b)) <$> bs) ++ [(st, header [] h)].

(** The writes of a recovery from the disk [D]. *)
Definition recover_ws (st : Z) (D : Z -> list Z) : list (Z * list Z) :=
  inst_ws st 0 D (hdr_blocks (D st)) ++ [(st, header [] (D st))].
Definition recovered (st : Z) (D : Z -> list Z) : Z -> list Z := apply_ws (recover_ws st D) D.

(** ** Crashes *)

Lemma hdr_empty d : length d = BSIZE -> hdr_blocks (header [] d) = [].
Proof. intros Hd. apply header_ok; [rewrite Hd; unfold hoff, BSIZE; simpl; lia|constructor|done]. Qed.
Lemma recovered_none st D : hdr_blocks (D st) = [] -> forall x, x <> st -> recovered st D x = D x.
Proof. intros Hn x Hx. unfold recovered, recover_ws. rewrite Hn. cbn. by apply fupd_ne. Qed.

Section crash.
(** The log has [sz] blocks from [st] on; the transaction writes the blocks
    [bs] outside it, with the content [c]. *)
Context (st sz : Z) (c : Z -> list Z) (bs : list Z).
Context (Hfit : Z.of_nat (length bs) < sz) (Hoff : (hoff (length bs) <= BSIZE)%nat).
Context (Hu : Forall is_u32 bs) (Hc : length (c st) = BSIZE).
Notation outside x := (~ st <= x < st + sz).
Context (Hbs : forall b, b ∈ bs -> outside b).
Notation h1 := (header bs (c st)).

Lemma hdr_full : length h1 = BSIZE /\ hdr_blocks h1 = bs.
Proof. destruct (header_ok bs (c st)) as (H1 & _ & H2); [by rewrite Hc|done|done|]. by rewrite H1. Qed.

(** A disk whose header and log blocks describe the transaction. *)
Definition full (D : Z -> list Z) : Prop :=
  hdr_blocks (D st) = bs /\ (forall j b, bs !! j = Some b -> D (st + Z.of_nat (0 + j) + 1) = c b).

Lemma home_ws_in D x : apply_ws ((fun b => (b, c b)) <$> bs) D x = if decide (x ∈ bs) then c x else D x.
Proof.
  case_decide as Hin.
  - apply apply_ws_in.
    + rewrite <- list_fmap_compose. apply list_elem_of_fmap. by exists x.
    + intros d (b & [= -> ->] & _)%list_elem_of_fmap. done.
  - apply apply_ws_notin. rewrite <- list_fmap_compose. by intros (b & -> & ?)%list_elem_of_fmap.
Qed.

Lemma recovered_full D x : full D -> outside x -> recovered st D x = if decide (x ∈ bs) then c x else D x.
Proof.
  intros [Hh Hl] Hx. assert (0 < sz) by lia. unfold recovered, recover_ws. rewrite Hh, (inst_ws_map st bs c D 0 Hl).
  rewrite apply_ws_app. cbn. rewrite fupd_ne by lia. apply home_ws_in.
Qed.

Lemma home_ws_notin k x : x ∉ bs -> x ∉ (take k ((fun b => (b, c b)) <$> bs)).*1.
Proof.
  intros Hx. rewrite <- !fmap_take, <- list_fmap_compose. intros (b & -> & Hb)%list_elem_of_fmap.
  apply Hx. rewrite <- (take_drop k bs). apply elem_of_app. by left.
Qed.
Lemma log_ws_notin k x : outside x \/ x = st -> x ∉ (take k (log_ws st 0 c bs)).*1.
Proof.
  intros Hx Hin. assert (x ∈ (log_ws st 0 c bs).*1) as Hin'.
  { rewrite <- (take_drop k (log_ws st 0 c bs)), fmap_app. apply elem_of_app. by left. }
  apply log_ws_fst in Hin'. simpl in Hin'. lia.
Qed.

(** The disk after all writes of a commit. *)
Lemma commit_final D0 :
  let D := apply_ws (commit_ws st c bs) D0 in
  hdr_blocks (D st) = [] /\ (forall x, outside x -> D x = if decide (x ∈ bs) then c x else D0 x).
Proof.
  unfold commit_ws. cbv zeta. rewrite !apply_ws_app, !apply_ws_one. cbn [fst snd]. split.
  - rewrite fupd_eq. apply hdr_empty. apply hdr_full.
  - intros x Hx. rewrite fupd_ne by lia. rewrite home_ws_in. case_decide; [done|]. rewrite fupd_ne by lia.
    apply apply_ws_notin. rewrite <- (firstn_all (log_ws _ _ _ _)). apply log_ws_notin. by left.
Qed.

(** The disk after the first [k] writes of a commit. *)
Lemma commit_prefix k D0 : let D := apply_ws (take k (commit_ws st c bs)) D0 in
  (D st = D0 st /\ forall x, outside x -> D x = D0 x) \/
  (full D /\ forall x, outside x -> x ∉ bs -> D x = D0 x) \/
  (hdr_blocks (D st) = [] /\ forall x, outside x -> D x = if decide (x ∈ bs) then c x else D0 x).
Proof.
  cbv zeta. destruct (decide (length (commit_ws st c bs) <= k)%nat) as [Hall|Hall].
  { do 2 right. rewrite take_ge by done. apply commit_final. }
  apply Nat.nle_gt in Hall. revert Hall. unfold commit_ws. cbv zeta. rewrite !length_app. cbn [length].
  set (ws1 := log_ws st 0 c bs). set (ws3 := (fun b => (b, c b)) <$> bs).
  intros Hall. assert (Hstb : st ∉ bs) by (intros Hb; specialize (Hbs st Hb); lia).
  destruct (decide (k <= length ws1)%nat) as [Hk|Hk].
  - left. rewrite take_app_le by done. split; [|intros x Hx]; apply apply_ws_notin.
    + apply log_ws_notin. by right.
    + apply log_ws_notin. by left.
  - right. rewrite take_app_ge by lia. destruct (k - length ws1)%nat as [|k'] eqn:Ek; [lia|].
    cbn [app take]. set (D1 := apply_ws ws1 D0).
    assert (HD1 : forall x, outside x -> D1 x = D0 x).
    { intros x Hx. apply apply_ws_notin. rewrite <- (firstn_all ws1). apply log_ws_notin. by left. }
    rewrite apply_ws_app. fold D1. change (apply_ws ((st, h1) :: ?l) D1) with (apply_ws l (fupd D1 st h1)).
    set (D2 := fupd D1 st h1).
    assert (HD2l : forall j b, bs !! j = Some b -> D2 (st + Z.of_nat (0 + j) + 1) = c b).
    { intros j b Hj. unfold D2. rewrite fupd_ne by lia. by apply apply_log_ws. }
    assert (HD2 : forall x, outside x -> D2 x = D0 x) by (intros x Hx; unfold D2; rewrite fupd_ne by lia; auto).
    left. rewrite take_app_le by lia. unfold full. split; [split|].
    + rewrite apply_ws_notin by (by apply home_ws_notin). unfold D2. rewrite fupd_eq. apply hdr_full.
    + intros j b Hj. rewrite apply_ws_notin; [by apply HD2l|]. apply home_ws_notin. intros Hin.
      specialize (Hbs _ Hin). pose proof (lookup_lt_Some _ _ _ Hj). lia.
    + intros x Hx Hin. rewrite apply_ws_notin; [by apply HD2|by apply home_ws_notin].
Qed.

Lemma crash_outcome k D0 : hdr_blocks (D0 st) = [] ->
  let D := apply_ws (take k (commit_ws st c bs)) D0 in
  (hdr_blocks (D st) = [] \/ hdr_blocks (D st) = bs) /\
  ((forall x, outside x -> recovered st D x = D0 x) \/
   (forall x, outside x -> recovered st D x = if decide (x ∈ bs) then c x else D0 x)).
Proof.
  intros H0 D. destruct (commit_prefix k D0) as [[H1 H2]|[[H1 H2]|[H1 H2]]]; fold D in H1, H2.
  - assert (Hn : hdr_blocks (D st) = []) by (by rewrite H1). split; [by left|left]. intros x Hx.
    rewrite recovered_none by (done || lia). by apply H2.
  - split; [right; apply H1|right]. intros x Hx. rewrite recovered_full by done. case_decide; [done|]. by apply H2.
  - split; [by left|right]. intros x Hx. rewrite recovered_none by (done || lia). by apply H2.
Qed.

End crash.

(** The value of a written block does not depend on what was there. *)
Lemma apply_ws_base ws D D' x : x ∈ ws.*1 -> apply_ws ws D x = apply_ws ws D' x.
Proof.
  revert D D'. induction ws as [|[y e] ws IH]; intros D D' Hx; [set_solver|].
  change (apply_ws ws (fupd D y e) x = apply_ws ws (fupd D' y e) x).
  destruct (decide (x ∈ ws.*1)) as [Hin|Hin]; [by apply IH|].
  rewrite !apply_ws_notin by done. assert (x = y) as -> by set_solver. by rewrite !fupd_eq.
Qed.

(** A recovery that is cut short and run again. *)
Section again.
Context (st sz : Z) (D : Z -> list Z) (k : nat).
Context (Hfit : Z.of_nat (length (hdr_blocks (D st))) < sz) (Hlen : length (D st) = BSIZE).
Context (Hbs : forall b, b ∈ hdr_blocks (D st) -> ~ st <= b < st + sz).
Notation bs := (hdr_blocks (D st)).
Notation W := (inst_ws st 0 D bs).
Notation D' := (apply_ws (take k (recover_ws st D)) D).

Lemma again_prefix : (k <= length W)%nat -> forall y, y ∉ bs -> D' y = D y.
Proof.
  intros Hk y Hy. unfold recover_ws. rewrite take_app_le by done. apply apply_ws_notin. intros Hin. apply Hy.
  rewrite <- (inst_ws_fst st D bs 0), <- (take_drop k W), fmap_app. apply elem_of_app. by left.
Qed.

Lemma again_full : ~ (k <= length W)%nat -> hdr_blocks (D' st) = [] /\ D' = recovered st D.
Proof.
  intros Hk. unfold recovered. rewrite take_ge by (unfold recover_ws; rewrite length_app; simpl; lia).
  split; [|done]. unfold recover_ws. rewrite apply_ws_app, apply_ws_one. simpl. rewrite fupd_eq. by apply hdr_empty.
Qed.

Lemma recover_hdr : hdr_blocks (D' st) = [] \/ hdr_blocks (D' st) = bs.
Proof.
  destruct (decide (k <= length W)%nat) as [Hk|Hk]; [right|left; by apply again_full].
  rewrite again_prefix; [done|done|]. intros Hin. specialize (Hbs st Hin). lia.
Qed.

Lemma recovered_again x : ~ st <= x < st + sz -> recovered st D' x = recovered st D x.
Proof.
  intros Hx. destruct (decide (k <= length W)%nat) as [Hk|Hk].
  - pose proof (again_prefix Hk) as HD'. set (E := D') in *. clearbody E.
    assert (Hst : E st = D st) by (apply HD'; intros Hin; specialize (Hbs st Hin); lia).
    unfold recovered, recover_ws. rewrite Hst, (inst_ws_ext st bs E D 0).
    2: { intros j Hj. apply HD'. intros Hin. specialize (Hbs _ Hin). lia. }
    rewrite !apply_ws_app, !apply_ws_one. simpl. rewrite !fupd_ne by lia.
    destruct (decide (x ∈ bs)); [by apply apply_ws_base; rewrite inst_ws_fst|].
    rewrite !apply_ws_notin by (by rewrite inst_ws_fst). by apply HD'.
  - destruct (again_full Hk) as [H1 H2]. rewrite recovered_none by (done || lia). by rewrite H2.
Qed.
End again.

(** ** The operations on a block store that keeps its promise *)

Section laws.
Context {S : Type} `{BlockStoreOk S}.
Notation L := (log S).
Implicit Types (s : L) (v : bview).

Definition wst s (e : S) : L := s <| store := e |>.

(** A block is held and released. *)
Ltac held_eq :=
  apply map_eq; intros ?; rewrite ?lookup_delete, ?lookup_insert, ?lookup_delete, ?lookup_insert, ?lookup_empty;
  repeat case_decide; congruence.

Lemma wst_id s : wst s (store s) = s.
Proof. by destruct s. Qed.
Lemma io_at {A} (m : M S A) s e a e' : m e = Ret a e' -> io m (wst s e) = Ret a (wst s e').
Proof. unfold io, lift. intros Hm. simpl. by rewrite Hm. Qed.

(** Block [bn] of the disk. *)
Definition in_disk (bn : Z) : Prop := 0 <= bn < nblocks.

(** The copies of [write_log] and of [install_trans], as writes to the store. *)
Lemma log_block_run s e v i b :
  rep e v -> held v = ∅ -> dev s = ROOTDEV -> block s !! i = Some b ->
  let to := start s + Z.of_nat i + 1 in
  in_disk to -> nblocks <= 2 ^ 32 -> in_disk b -> to <> b -> b ∈ pinned v -> to ∉ pinned v ->
  (size (pinned v) < capacity)%nat ->
  exists e', log_block i (wst s e) = Ret tt (wst s e') /\ rep e' (vput v (to, cont v b)).
Proof.
  intros Hr Hh Hdev Hb to Hto Hmax Hbd Hne Hpb Hpt Hcap. unfold in_disk in *.
  assert (Hu : u32 (start s + Z.of_nat i + 1) = to) by (apply u32_small; unfold is_u32; lia).
  destruct (bread_ok e v to Hr Hto) as (h1 & e1 & E1 & R1).
  { by rewrite Hh. }
  { right. unfold busy. rewrite Hh, dom_empty_L, union_empty_l_L. done. }
  destruct (bread_ok e1 _ b R1 Hbd) as (h2 & e2 & E2 & R2).
  { simpl. rewrite lookup_insert_ne, Hh by done. done. }
  { by left. }
  assert (Hh2 : held (v <| held ::= <[to := h1]> |> <| held ::= <[b := h2]> |>) !! b = Some h2) by apply lookup_insert_eq.
  assert (Hh1 : held (v <| held ::= <[to := h1]> |> <| held ::= <[b := h2]> |>) !! to = Some h1).
  { simpl. rewrite lookup_insert_ne by done. apply lookup_insert_eq. }
  pose proof (b_data_ok e2 _ b h2 R2 Hh2) as E3.
  destruct (b_update_ok e2 _ to h1 (fun _ => cont v b) R2 Hh1) as (e3 & E4 & R3).
  { by eapply rep_len. }
  destruct (bwrite_ok e3 _ to h1 R3 Hh1) as (e4 & E5 & R4).
  destruct (brelse_ok e4 _ b h2 R4 Hh2) as (e5 & E6 & R5).
  { left. simpl. set_solver. }
  destruct (brelse_ok e5 _ to h1 R5) as (e6 & E7 & R6).
  { simpl. rewrite lookup_delete_ne by done. rewrite lookup_insert_ne by done. apply lookup_insert_eq. }
  { right. simpl. rewrite !fupd_eq. done. }
  exists e6. split.
  - unfold log_block. erewrite (run_bind (gets id)) by done. unfold id.
    change (start (wst s e)) with (start s). change (dev (wst s e)) with (dev s). rewrite Hu, Hdev. run (io_at _ s _ _ _ E1).
    assert (Hgb : get_block i (wst s e1) = Ret b (wst s e1)) by (unfold get_block; simpl; by rewrite Hb).
    run Hgb. run (io_at _ s _ _ _ E2). run (io_at _ s _ _ _ E3). run (io_at _ s _ _ _ E4).
    run (io_at _ s _ _ _ E5). run (io_at _ s _ _ _ E6). apply (io_at _ s _ _ _ E7).
  - eapply eq_ind; [exact R6|]. destruct v as [c d h p w]. simpl in *. subst h. unfold vput. simpl. rewrite fupd_eq.
    f_equal. held_eq.
Qed.

Lemma install_block_run s e v i b :
  rep e v -> held v = ∅ -> dev s = ROOTDEV -> block s !! i = Some b ->
  let from := start s + Z.of_nat i + 1 in
  in_disk from -> nblocks <= 2 ^ 32 -> in_disk b -> from <> b -> cont v from = dsk v from ->
  (size (pinned v) < capacity)%nat -> (b ∈ pinned v \/ (1 + size (pinned v) < capacity)%nat) ->
  exists e', install_block i (wst s e) = Ret tt (wst s e') /\ rep e' (vput v (b, cont v from)).
Proof.
  intros Hr Hh Hdev Hb from Hfrom Hmax Hbd Hne Hcl Hcap Hcap2. unfold in_disk in *.
  assert (Hu : u32 (start s + Z.of_nat i + 1) = from) by (apply u32_small; unfold is_u32; lia).
  destruct (bread_ok e v from Hr Hfrom) as (h1 & e1 & E1 & R1).
  { by rewrite Hh. }
  { right. unfold busy. rewrite Hh, dom_empty_L, union_empty_l_L. done. }
  destruct (bread_ok e1 _ b R1 Hbd) as (h2 & e2 & E2 & R2).
  { simpl. rewrite lookup_insert_ne, Hh by done. done. }
  { destruct Hcap2 as [?|Hcap2]; [by left|right]. unfold busy. simpl. rewrite Hh, insert_empty, dom_singleton_L.
    pose proof (size_add_le from (pinned v)). lia. }
  set (v2 := v <| held ::= <[from := h1]> |> <| held ::= <[b := h2]> |>) in *.
  assert (Hh2 : held v2 !! b = Some h2) by apply lookup_insert_eq.
  assert (Hh1 : held v2 !! from = Some h1).
  { simpl. rewrite lookup_insert_ne by done. apply lookup_insert_eq. }
  pose proof (b_data_ok e2 _ from h1 R2 Hh1) as E3.
  destruct (b_update_ok e2 _ b h2 (fun _ => cont v from) R2 Hh2) as (e3 & E4 & R3).
  { by eapply rep_len. }
  destruct (bwrite_ok e3 _ b h2 R3 Hh2) as (e4 & E5 & R4).
  destruct (brelse_ok e4 _ from h1 R4 Hh1) as (e5 & E6 & R5).
  { right. simpl. rewrite !fupd_ne by done. done. }
  destruct (brelse_ok e5 _ b h2 R5) as (e6 & E7 & R6).
  { simpl. rewrite lookup_delete_ne by done. apply lookup_insert_eq. }
  { right. simpl. rewrite !fupd_eq. done. }
  exists e6. split.
  - unfold install_block. erewrite (run_bind (gets id)) by done. unfold id.
    change (start (wst s e)) with (start s). change (dev (wst s e)) with (dev s). rewrite Hu, Hdev. run (io_at _ s _ _ _ E1).
    assert (Hgb : get_block i (wst s e1) = Ret b (wst s e1)) by (unfold get_block; simpl; by rewrite Hb).
    run Hgb. run (io_at _ s _ _ _ E2). run (io_at _ s _ _ _ E3). run (io_at _ s _ _ _ E4).
    run (io_at _ s _ _ _ E5). run (io_at _ s _ _ _ E6). apply (io_at _ s _ _ _ E7).
  - eapply eq_ind; [exact R6|]. unfold v2. destruct v as [c d h p w]. simpl in *. subst h. unfold vput. simpl. rewrite fupd_eq.
    f_equal. held_eq.
Qed.

(** Block [bn] is held in buffer [h] with content [d]. *)
Definition vhold v (bn : Z) (h : nat) (d : list Z) : bview :=
  v <| held := {[bn := h]} |> <| cont := fupd (cont v) bn d |>.

Lemma vhold_update v bn h d d' :
  (vhold v bn h d) <| cont := fupd (cont (vhold v bn h d)) bn d' |> ≡ vhold v bn h d'.
Proof.
  split_and!; try done. intros x. simpl. unfold fupd. by case_decide.
Qed.

Lemma vhold_cont v bn h d : cont (vhold v bn h d) bn = d.
Proof. apply fupd_eq. Qed.

Lemma set_head_run s v bn h bs : forall i e d,
  rep e (vhold v bn h d) -> in_disk bn -> (forall j b, bs !! j = Some b -> block s !! (i + j)%nat = Some b) ->
  (hoff (i + length bs) <= BSIZE)%nat ->
  exists e', meach (seq i (length bs)) (fun i => b <- get_block i ;; io (b_update h (put32 (hoff i) b))) (wst s e)
             = Ret tt (wst s e') /\ rep e' (vhold v bn h (put_blocks i bs d)).
Proof.
  induction bs as [|b bs IH]; intros i e d Hr Hbn Hbs Hl; [by exists e|].
  assert (Hh : held (vhold v bn h d) !! bn = Some h) by apply lookup_singleton_eq.
  assert (Hld : length d = BSIZE).
  { rewrite <- (rep_len e _ bn Hr Hbn). by rewrite vhold_cont. }
  destruct (b_update_ok e _ bn h (put32 (hoff i) b) Hr Hh) as (e1 & E1 & R1).
  { rewrite vhold_cont, length_put32; [done|]. rewrite Hld. unfold hoff in *. cbn [length] in Hl. lia. }
  rewrite vhold_cont, vhold_update in R1.
  destruct (IH (1 + i)%nat e1 (put32 (hoff i) b d) R1 Hbn) as (e2 & E2 & R2).
  { intros j c Hj. rewrite <- (Hbs (1 + j)%nat c Hj). f_equal. lia. }
  { cbn [length] in Hl. unfold hoff in *. lia. }
  exists e2. rewrite put_blocks_cons. split; [|exact R2]. cbn [length seq meach].
  erewrite run_bind; [exact E2|].
  assert (Hg : get_block i (wst s e) = Ret b (wst s e)).
  { pose proof (Hbs 0%nat b eq_refl) as Hb0. rewrite Nat.add_0_r in Hb0. unfold get_block. simpl. by rewrite Hb0. }
  run Hg. apply io_at, E1.
Qed.

Lemma write_head_run s e v bs :
  rep e v -> held v = ∅ -> dev s = ROOTDEV -> in_disk (start s) -> (size (pinned v) < capacity)%nat ->
  n s = Z.of_nat (length bs) -> (forall j b, bs !! j = Some b -> block s !! j = Some b) ->
  (hoff (length bs) <= BSIZE)%nat ->
  exists e', write_head (wst s e) = Ret tt (wst s e') /\ rep e' (vput v (start s, header bs (cont v (start s)))).
Proof.
  intros Hr Hh Hdev Hst Hcap Hn Hbs Hl. set (bn := start s) in *.
  destruct (bread_ok e v bn Hr Hst) as (h & e1 & E1 & R1).
  { by rewrite Hh. }
  { right. unfold busy. rewrite Hh, dom_empty_L, union_empty_l_L. done. }
  assert (R1' : rep e1 (vhold v bn h (cont v bn))).
  { eapply rep_equiv; [|exact R1]. split_and!; try done; simpl; [|by rewrite Hh].
    intros x. unfold fupd. case_decide; by subst. }
  assert (Hheld : forall d, held (vhold v bn h d) !! bn = Some h) by (intros; apply lookup_singleton_eq).
  destruct (b_update_ok e1 _ bn h (put32 0 (n s)) R1' (Hheld _)) as (e2 & E2 & R2).
  { rewrite vhold_cont, length_put32; rewrite (rep_len e v bn Hr Hst); [done|unfold BSIZE; lia]. }
  rewrite vhold_cont, vhold_update in R2.
  destruct (set_head_run s v bn h bs 0 e2 _ R2 Hst Hbs Hl) as (e3 & E3 & R3).
  rewrite Hn in R3. fold (header bs (cont v bn)) in R3.
  destruct (bwrite_ok e3 _ bn h R3 (Hheld _)) as (e4 & E4 & R4).
  destruct (brelse_ok e4 _ bn h R4 (Hheld _)) as (e5 & E5 & R5).
  { right. simpl. by rewrite !fupd_eq. }
  exists e5. split.
  - unfold write_head. erewrite (run_bind (gets id)) by done. unfold id. change (n (wst s e)) with (n s).
    change (start (wst s e)) with bn. change (dev (wst s e)) with (dev s). rewrite Hdev.
    replace (Z.to_nat (n s)) with (length bs) by lia. run (io_at _ s _ _ _ E1). run (io_at _ s _ _ _ E2). run E3. run (io_at _ s _ _ _ E4).
    apply (io_at _ s _ _ _ E5).
  - eapply rep_equiv; [|exact R5]. split_and!; try done; simpl; try (by rewrite fupd_eq).
    rewrite Hh. apply delete_singleton_eq.
Qed.

(** *** The log region *)

Definition in_log s (x : Z) : Prop := start s <= x < start s + size_ s.
Definition home s (x : Z) : Prop := in_disk x /\ ~ in_log s x.

(** The log lies on the disk. *)
Record geom s : Prop := {
  ge_dev : dev s = ROOTDEV;
  ge_start : 0 <= start s;
  ge_size : 0 < size_ s <= LOGSIZE;
  ge_end : start s + size_ s <= nblocks;
  ge_max : nblocks <= 2 ^ 32;
  ge_block : length (block s) = Z.to_nat LOGSIZE;
}.

(** [bs] are blocks of the header in memory from index [i] on. *)
Definition listed s (i : nat) (bs : list Z) : Prop := forall j b, bs !! j = Some b -> block s !! (i + j)%nat = Some b.

Lemma listed_cons s i b bs : listed s i (b :: bs) -> block s !! i = Some b /\ listed s (1 + i) bs.
Proof.
  intros Hl. split.
  - pose proof (Hl 0%nat b eq_refl) as Hb. by rewrite Nat.add_0_r in Hb.
  - intros j c Hj. rewrite <- (Hl (1 + j)%nat c Hj). f_equal. lia.
Qed.

Lemma vput_pinned_le v w : (size (pinned (vput v w)) <= size (pinned v))%nat.
Proof. apply subseteq_size. simpl. set_solver. Qed.

Lemma write_log_run s bs : forall i e v,
  geom s -> rep e v -> held v = ∅ -> listed s i bs -> Forall (home s) bs ->
  (forall b, b ∈ bs -> b ∈ pinned v) -> (forall x, in_log s x -> x ∉ pinned v) ->
  Z.of_nat (i + length bs) < size_ s -> (size (pinned v) < capacity)%nat ->
  exists e', meach (seq i (length bs)) log_block (wst s e) = Ret tt (wst s e') /\
    rep e' (vputs v (log_ws (start s) i (cont v) bs)).
Proof.
  induction bs as [|b bs IH]; intros i e v Hg Hr Hh Hl HF Hp Hnp Hn Hcap; [by exists e|].
  pose proof Hg as [G1 G2 G3 G4 G5 G6].
  apply listed_cons in Hl as [Hb Hl]. apply Forall_cons in HF as [[Hbd Hbl] HF]. cbn [length] in Hn.
  set (to := start s + Z.of_nat i + 1).
  assert (Hto : in_log s to) by (unfold in_log, to; lia).
  destruct (log_block_run s e v i b Hr Hh G1 Hb) as (e1 & E1 & R1); try done.
  { unfold in_disk, in_log, to in *. lia. }
  { intros Heq. apply Hbl. fold to in Heq. by rewrite <- Heq. }
  { apply Hp. set_solver. }
  { by apply Hnp. }
  fold to in R1.
  destruct (IH (1 + i)%nat e1 (vput v (to, cont v b)) Hg R1 Hh Hl HF) as (e2 & E2 & R2).
  - intros c Hc. simpl. rewrite Forall_forall in HF. destruct (HF c Hc) as [_ Hcl]. set_unfold. naive_solver.
  - intros x Hx. simpl. specialize (Hnp x Hx). set_solver.
  - lia.
  - pose proof (vput_pinned_le v (to, cont v b)). lia.
  - exists e2. cbn [length seq meach]. run E1. split; [exact E2|]. cbn [log_ws]. unfold vputs. cbn [foldl]. fold to.
    rewrite (log_ws_ext _ _ (cont v) (cont (vput v (to, cont v b)))); [exact R2|].
    intros c Hc. simpl. rewrite fupd_ne; [done|]. rewrite Forall_forall in HF. destruct (HF c Hc) as [_ Hcl]. naive_solver.
Qed.

Lemma install_trans_run s bs : forall i e v,
  geom s -> rep e v -> held v = ∅ -> listed s i bs -> Forall (home s) bs ->
  (NoDup bs /\ (forall b, b ∈ bs -> b ∈ pinned v) \/ (1 + size (pinned v) < capacity)%nat) ->
  (forall j, (i <= j < i + length bs)%nat -> cont v (start s + Z.of_nat j + 1) = dsk v (start s + Z.of_nat j + 1)) ->
  Z.of_nat (i + length bs) < size_ s -> (size (pinned v) < capacity)%nat ->
  exists e', meach (seq i (length bs)) install_block (wst s e) = Ret tt (wst s e') /\
    rep e' (vputs v (inst_ws (start s) i (cont v) bs)).
Proof.
  induction bs as [|b bs IH]; intros i e v Hg Hr Hh Hl HF Hp Hcl Hn Hcap; [by exists e|].
  pose proof Hg as [G1 G2 G3 G4 G5 G6].
  apply listed_cons in Hl as [Hb Hl]. apply Forall_cons in HF as [[Hbd Hbl] HF]. cbn [length] in Hn.
  set (from := start s + Z.of_nat i + 1).
  assert (Hfrom : in_log s from) by (unfold in_log, from; lia).
  destruct (install_block_run s e v i b Hr Hh G1 Hb) as (e1 & E1 & R1); try done.
  { unfold in_disk, in_log, from in *. lia. }
  { intros Heq. apply Hbl. fold from in Heq. by rewrite <- Heq. }
  { apply Hcl. simpl. lia. }
  { destruct Hp as [[_ Hp]|Hp]; [left; apply Hp; set_solver|by right]. }
  fold from in R1.
  pose proof (vput_pinned_le v (b, cont v from)) as Hle.
  destruct (IH (1 + i)%nat e1 (vput v (b, cont v from)) Hg R1 Hh Hl HF) as (e2 & E2 & R2).
  - destruct Hp as [[Hnd Hp]|Hp]; [left|right; lia]. apply NoDup_cons in Hnd as [Hnb Hnd]. split; [done|].
    intros c Hc. simpl. specialize (Hp c). set_solver.
  - intros j Hj. simpl. set (x := start s + Z.of_nat j + 1).
    assert (x <> b) by (intros <-; apply Hbl; unfold in_log, x; lia).
    rewrite !fupd_ne by done. apply Hcl. simpl. lia.
  - lia.
  - lia.
  - exists e2. cbn [length seq meach]. run E1. split; [exact E2|]. cbn [inst_ws]. unfold vputs. cbn [foldl]. fold from.
    rewrite (inst_ws_ext _ _ (cont v) (cont (vput v (b, cont v from)))); [exact R2|].
    intros j Hj. simpl. rewrite fupd_ne; [done|]. intros <-. apply Hbl. unfold in_log. lia.
Qed.

(** *** Commit *)

(** The log in memory holds the blocks [bs] of a transaction. *)
Record txn s v (bs : list Z) : Prop := {
  tx_n : n s = Z.of_nat (length bs);
  tx_listed : listed s 0 bs;
  tx_nodup : NoDup bs;
  tx_home : Forall (home s) bs;
  tx_pinned b : b ∈ bs -> b ∈ pinned v;
  tx_log x : in_log s x -> x ∉ pinned v;
  tx_fits : Z.of_nat (length bs) < size_ s;
  tx_cap : (size (pinned v) < capacity)%nat;
  tx_held : held v = ∅;
}.

Lemma size_log s (bs : list Z) : geom s -> Z.of_nat (length bs) < size_ s -> (hoff (length bs) <= BSIZE)%nat.
Proof. intros G Hl. pose proof (ge_size s G). unfold hoff, BSIZE, LOGSIZE, MAXOPBLOCKS in *. lia. Qed.

Lemma wst_set_n s e k : (wst s e) <| n := k |> = wst (s <| n := k |>) e.
Proof. done. Qed.
Lemma geom_set_n s k : geom s -> geom (s <| n := k |>).
Proof. intros []. by split. Qed.

Lemma commit_run s v bs : geom s -> rep (store s) v -> txn s v bs -> bs <> [] ->
  exists e', commit s = Ret tt (wst (s <| n := 0 |>) e') /\
    rep e' (vputs v (commit_ws (start s) (cont v) bs)).
Proof.
  intros G Hr [T1 T2 T3 T4 T5 T6 T7 T8 T9] Hne. set (st := start s).
  assert (Hst : in_log s st) by (pose proof (ge_size s G); unfold in_log, st; lia).
  assert (Hstd : in_disk st) by (pose proof (ge_start s G); pose proof (ge_end s G); unfold in_disk, in_log, st in *; lia).
  assert (Hstb : forall b, b ∈ bs -> ~ in_log s b) by (intros b Hb; rewrite Forall_forall in T4; by apply T4).
  pose proof (size_log s bs G T7) as Hoff.
  set (ws1 := log_ws st 0 (cont v) bs). set (h1 := header bs (cont v st)).
  destruct (write_log_run s bs 0 (store s) v G Hr T9 T2 T4 T5 T6 T7 T8) as (e1 & E1 & R1). fold st ws1 in R1.
  assert (Hws1 : forall x, ~ in_log s x \/ x = st -> x ∉ ws1.*1).
  { intros x Hx Hin. apply log_ws_fst in Hin. unfold in_log, st in *. simpl in Hin. lia. }
  assert (Hp1 : pinned (vputs v ws1) = pinned v).
  { apply set_eq. intros x. rewrite vputs_pinned. split; [tauto|]. intros Hx. split; [done|]. apply Hws1. left.
    intros Hl. by apply (T6 x). }
  destruct (write_head_run s e1 (vputs v ws1) bs R1) as (e2 & E2 & R2); try done.
  { by rewrite vputs_held. }
  { apply G. }
  { by rewrite Hp1. }
  fold st in R2. rewrite vputs_cont, (apply_ws_notin ws1 _ st) in R2 by (apply Hws1; by right). fold h1 in R2.
  change (vput (vputs v ws1) (st, h1)) with (vputs (vputs v ws1) [(st, h1)]) in R2. rewrite <- vputs_app in R2.
  set (ws2 := ws1 ++ [(st, h1)]) in *.
  assert (Hp2 : pinned (vputs v ws2) = pinned v).
  { apply set_eq. intros x. unfold ws2. rewrite vputs_app, vputs_pinned, Hp1. split; [tauto|]. intros Hx.
    split; [done|]. simpl. intros ->%list_elem_of_singleton. by apply (T6 st). }
  assert (Hlog2 : forall D j b, bs !! j = Some b -> apply_ws ws2 D (st + Z.of_nat (0 + j) + 1) = cont v b).
  { intros D j b Hj. unfold ws2. rewrite apply_ws_app. cbn. rewrite fupd_ne by lia. apply (apply_log_ws st (cont v) bs 0 D j b Hj). }
  destruct (install_trans_run s bs 0 e2 (vputs v ws2) G R2) as (e3 & E3 & R3); try done.
  { by rewrite vputs_held. }
  { left. by rewrite Hp2. }
  { intros j Hj. destruct (lookup_lt_is_Some_2 bs j) as [b Hb]; [lia|].
    rewrite vputs_cont, vputs_dsk. fold st. etrans; [apply (Hlog2 _ j b Hb)|symmetry; apply (Hlog2 _ j b Hb)]. }
  { by rewrite Hp2. }
  fold st in R3. rewrite vputs_cont, (inst_ws_map st bs (cont v)) in R3 by (intros; by apply Hlog2).
  rewrite <- vputs_app in R3. set (ws3 := ws2 ++ _) in *.
  destruct (write_head_run (s <| n := 0 |>) e3 (vputs v ws3) [] R3) as (e4 & E4 & R4); try done.
  { by rewrite vputs_held. }
  { apply G. }
  { unfold ws3. rewrite vputs_app. eapply Nat.le_lt_trans; [|exact T8]. apply subseteq_size.
    intros x. rewrite vputs_pinned, Hp2. tauto. }
  { simpl. unfold hoff, BSIZE. lia. }
  exists e4. split.
  - unfold commit. erewrite (run_bind (gets id)) by done. unfold id.
    rewrite (proj2 (Z.ltb_lt 0 (n s))) by (destruct bs; [done|simpl in T1; lia]). unfold when, write_log.
    assert (Hnn : Z.to_nat (n s) = length bs) by lia. rewrite <- (wst_id s) at 1.
    erewrite (run_bind _ _ _ tt (wst s e1)).
    2: { erewrite (run_bind (gets id)) by done. unfold id. simpl (n _). rewrite Hnn. exact E1. }
    run E2. erewrite (run_bind _ _ _ tt (wst s e3)).
    2: { unfold install_trans. erewrite (run_bind (gets id)) by done. unfold id. simpl (n _). rewrite Hnn. exact E3. }
    erewrite (run_bind (modify _)) by done. rewrite wst_set_n. exact E4.
  - change (start (s <| n := 0 |>)) with st in R4. eapply eq_ind; [exact R4|].
    unfold commit_ws. fold ws1 h1. rewrite app_assoc. fold ws2. rewrite app_assoc. fold ws3.
    rewrite vputs_app. cbn [vputs foldl]. do 2 f_equal. rewrite vputs_cont. unfold ws3, ws2.
    rewrite !apply_ws_app. rewrite (apply_ws_notin (_ <$> _)). 
    + cbn. by rewrite fupd_eq.
    + rewrite <- list_fmap_compose. intros (b & -> & Hb)%list_elem_of_fmap. by apply (Hstb b).
Qed.

(** *** Recovery *)

Lemma set_blocks_run (f : nat -> Z) k : forall i s, (i + k <= length (block s))%nat ->
  exists bl, meach (seq i k) (fun i => set_block i (f i)) s = Ret tt (s <| block := bl |>) /\
    length bl = length (block s) /\ (forall j, (i <= j < i + k)%nat -> bl !! j = Some (f j)) /\
    (forall j, (j < i)%nat -> bl !! j = block s !! j).
Proof.
  induction k as [|k IH]; intros i s Hl.
  - exists (block s). split_and!; [by destruct s|done|lia|done].
  - destruct (IH (1 + i)%nat (s <| block ::= <[i := f i]> |>)) as (bl & E & Hlen & Hin & Hout).
    { simpl. rewrite length_insert. lia. }
    exists bl. cbn [seq meach]. split_and!.
    + erewrite run_bind; [exact E|]. unfold set_block. rewrite decide_True by lia. done.
    + simpl in Hlen. by rewrite length_insert in Hlen.
    + intros j Hj. destruct (decide (j = i)) as [-> |Hne]; [|apply Hin; lia].
      rewrite Hout by lia. simpl. apply list_lookup_insert_eq. lia.
    + intros j Hj. rewrite Hout by lia. simpl. apply list_lookup_insert_ne. lia.
Qed.

(** The header block describes a transaction that fits the log. *)
Definition hdr_ok s (d : list Z) : Prop :=
  Forall (home s) (hdr_blocks d) /\ Z.of_nat (length (hdr_blocks d)) < size_ s.

Lemma read_head_run s e v :
  geom s -> rep e v -> held v = ∅ -> (size (pinned v) < capacity)%nat ->
  cont v (start s) = dsk v (start s) -> hdr_ok s (cont v (start s)) ->
  let d := cont v (start s) in
  exists bl e', read_head (wst s e) = Ret tt (wst (s <| n := s32 (get32 0 d) |> <| block := bl |>) e') /\
    length bl = length (block s) /\ (forall j b, hdr_blocks d !! j = Some b -> bl !! j = Some b) /\ rep e' v.
Proof.
  intros G Hr Hh Hcap Hcl [_ Hlen] d. pose proof G as [G1 G2 G3 G4 G5 G6]. fold d in Hlen.
  assert (Hst : in_disk (start s)) by (unfold in_disk; lia).
  destruct (bread_ok e v (start s) Hr Hst) as (h & e1 & E1 & R1).
  { by rewrite Hh. }
  { right. unfold busy. rewrite Hh, dom_empty_L, union_empty_l_L. done. }
  assert (Hhd : held (v <| held ::= <[start s := h]> |>) !! start s = Some h) by apply lookup_insert_eq.
  pose proof (b_data_ok e1 _ _ h R1 Hhd) as E2. change (cont _ (start s)) with d in E2.
  destruct (brelse_ok e1 _ _ h R1 Hhd (or_intror Hcl)) as (e2 & E3 & R2).
  set (k := Z.to_nat (s32 (get32 0 d))). set (s1 := s <| n := s32 (get32 0 d) |>).
  assert (Hk : (0 + k <= length (block (wst s1 e1)))%nat).
  { simpl. unfold hdr_blocks in Hlen. rewrite length_fmap, length_seq in Hlen. fold k in Hlen.
    rewrite G6. lia. }
  destruct (set_blocks_run (fun i => get32 (hoff i) d) k 0 (wst s1 e1) Hk) as (bl & E & Hl & Hin & _).
  exists bl, e2. split_and!.
  - unfold read_head. erewrite (run_bind (gets id)) by done. unfold id. change (start (wst s e)) with (start s).
    change (dev (wst s e)) with (dev s). rewrite G1. run (io_at _ s _ _ _ E1). run (io_at _ s _ _ _ E2).
    erewrite (run_bind (modify _)) by done. rewrite wst_set_n. fold s1.
    erewrite (run_bind (gets id)) by done. unfold id. change (Z.to_nat (n (wst s1 e1))) with k. run E.
    change ((wst s1 e1) <| block := bl |>) with (wst (s1 <| block := bl |>) e1). apply (io_at _ _ _ _ _ E3).
  - exact Hl.
  - intros j b. unfold hdr_blocks. fold k. rewrite list_lookup_fmap. intros Hj.
    destruct (decide (j < k)%nat) as [Hlt|Hge].
    + rewrite lookup_seq_lt in Hj by done. simpl in Hj. injection Hj as <-. apply Hin. lia.
    + by rewrite lookup_seq_ge in Hj by lia.
  - eapply rep_equiv; [|exact R2]. split_and!; try done. simpl. rewrite Hh. held_eq.
Qed.

(** The state after a reboot: nothing is cached, and the disk has the content
    [D]. *)
Record booted s v (D : Z -> list Z) : Prop := {
  bo_geom : geom s;
  bo_rep : rep (store s) v;
  bo_held : held v = ∅;
  bo_pinned : pinned v = ∅;
  bo_cont x : in_disk x -> cont v x = D x;
  bo_dsk x : in_disk x -> dsk v x = D x;
  bo_cap : (1 < capacity)%nat;
}.

Lemma recover_run s v D : booted s v D -> hdr_ok s (D (start s)) ->
  exists s', recover_from_log s = Ret tt s' /\ n s' = 0 /\ start s' = start s /\ size_ s' = size_ s /\
    geom s' /\ rep (store s') (vputs v (recover_ws (start s) D)).
Proof.
  intros [G Hr Hh Hp Hcont Hdsk Hcap] Hok. pose proof G as [G1 G2 G3 G4 G5 G6]. set (st := start s) in *.
  assert (Hst : in_disk st) by (unfold in_disk; lia). set (bs := hdr_blocks (D st)).
  assert (Hsz : size (pinned v) = 0%nat) by (by rewrite Hp, size_empty).
  destruct (read_head_run s (store s) v G Hr Hh) as (bl & e1 & E1 & Hbl & Hin & R1); try (fold st).
  { lia. }
  { by rewrite Hcont, Hdsk. }
  { by rewrite Hcont. }
  fold st in E1, Hin. rewrite Hcont in E1, Hin by done. fold bs in Hin.
  set (s1 := s <| n := s32 (get32 0 (D st)) |> <| block := bl |>) in *.
  assert (G' : geom s1) by (split; try done; simpl; by rewrite Hbl).
  destruct Hok as [Hhome Hfit]. fold bs in Hhome, Hfit.
  destruct (install_trans_run s1 bs 0 e1 v G' R1 Hh Hin Hhome) as (e2 & E2 & R2); try done.
  { right. lia. }
  { intros j Hj. assert (in_disk (start s1 + Z.of_nat j + 1)).
    { unfold in_disk. change (start s1) with (start s). lia. }
    by rewrite Hcont, Hdsk. }
  { lia. }
  change (start s1) with st in R2.
  rewrite (inst_ws_ext st bs (cont v) D 0) in R2.
  2: { intros j Hj. apply Hcont. unfold in_disk, st. lia. }
  destruct (write_head_run (s1 <| n := 0 |>) e2 _ [] R2) as (e3 & E3 & R3); try done.
  { by rewrite vputs_held. }
  { eapply Nat.le_lt_trans; [apply subseteq_size|]; [|rewrite Hsz; lia].
    intros x. rewrite vputs_pinned. tauto. }
  { simpl. unfold hoff, BSIZE. lia. }
  exists (wst (s1 <| n := 0 |>) e3). split_and!; try done.
  - unfold recover_from_log. rewrite <- (wst_id s) at 1. run E1. erewrite (run_bind _ _ _ tt (wst s1 e2)).
    2: { unfold install_trans. erewrite (run_bind (gets id)) by done. unfold id. simpl (n _).
         replace (Z.to_nat (s32 (get32 0 (D st)))) with (length bs); [exact E2|].
         unfold bs, hdr_blocks. by rewrite length_fmap, length_seq. }
    erewrite (run_bind (modify _)) by done. exact E3.
  - destruct G'. by split.
  - change (start (s1 <| n := 0 |>)) with st in R3. unfold recover_ws. fold bs. rewrite vputs_app.
    rewrite vputs_cont, apply_ws_notin, Hcont in R3; [exact R3|done|].
    rewrite inst_ws_fst. intros Hb. rewrite Forall_forall in Hhome. destruct (Hhome _ Hb) as [_ Hn]. apply Hn.
    unfold in_log, st. lia.
Qed.

Lemma recovery_dsk s v D st x : booted s v D -> in_disk x ->
  dsk (vputs v (recover_ws st D)) x = recovered st D x.
Proof.
  intros HB Hx. rewrite vputs_dsk. unfold recovered.
  destruct (decide (x ∈ (recover_ws st D).*1)); [by apply apply_ws_base|].
  rewrite !apply_ws_notin by done. by apply (bo_dsk _ _ _ HB).
Qed.

Lemma home_u32 s bs : geom s -> Forall (home s) bs -> Forall is_u32 bs.
Proof.
  intros G HF. eapply Forall_impl; [exact HF|]. intros b [Hb _]. pose proof (ge_max s G).
  unfold in_disk, is_u32 in *. lia.
Qed.

(** C1: crash safety of [commit].  A commit of the blocks [bs] makes the home
    blocks on disk those of the cache.  If the machine stops after any number
    [k] of its disk writes, then recovery from the disk as it is at that point
    gives either all home blocks as they were before the transaction, or all
    as they are after it. *)
Theorem commit_crash_safe s v bs :
  geom s -> rep (store s) v -> txn s v bs -> bs <> [] ->
  hdr_blocks (dsk v (start s)) = [] -> (forall x, home s x -> x ∉ bs -> cont v x = dsk v x) ->
  exists s' ws, commit s = Ret tt s' /\ n s' = 0 /\ rep (store s') (vputs v ws) /\
    hdr_blocks (dsk (vputs v ws) (start s)) = [] /\
    (forall x, home s x -> dsk (vputs v ws) x = cont v x) /\
    (forall k s2 v2, booted s2 v2 (apply_ws (take k ws) (dsk v)) -> start s2 = start s -> size_ s2 = size_ s ->
     exists s3 v3, recover_from_log s2 = Ret tt s3 /\ rep (store s3) v3 /\
       ((forall x, home s x -> dsk v3 x = dsk v x) \/ (forall x, home s x -> dsk v3 x = cont v x))).
Proof.
  intros G Hr HT Hne Hhdr Hcl. destruct (commit_run s v bs G Hr HT Hne) as (e' & E & R).
  destruct HT as [T1 T2 T3 T4 T5 T6 T7 T8 T9]. set (st := start s) in *. set (ws := commit_ws st (cont v) bs) in *.
  assert (Hst : length (cont v st) = BSIZE).
  { eapply rep_len; [done|]. pose proof (ge_start s G). pose proof (ge_end s G). unfold st. lia. }
  assert (Hb : forall b, b ∈ bs -> ~ st <= b < st + size_ s) by (intros b Hb; rewrite Forall_forall in T4; by apply T4).
  pose proof (home_u32 s bs G T4) as Hu. pose proof (size_log s bs G T7) as Hoff.
  pose proof (fun k => crash_outcome st (size_ s) (cont v) bs T7 Hoff Hu Hst Hb k (dsk v)) as Hpre. fold ws in Hpre.
  assert (Hnew : forall x, home s x -> (if decide (x ∈ bs) then cont v x else dsk v x) = cont v x).
  { intros x Hx. case_decide; [done|]. symmetry. by apply Hcl. }
  destruct (commit_final st (size_ s) (cont v) bs T7 Hoff Hu Hst (dsk v)) as [F1 F2]. fold ws in F1, F2.
  exists (wst (s <| n := 0 |>) e'), ws. split_and!; [done|done|done|by rewrite vputs_dsk| |].
  - intros x Hx. rewrite vputs_dsk, F2 by apply Hx. by apply Hnew.
  - intros k s2 v2 HB Hs2 Hz2. set (D := apply_ws (take k ws) (dsk v)) in *.
    destruct (Hpre k Hhdr) as [Hcase Hres]. fold D in Hcase, Hres.
    assert (Hhm : forall x, home s2 x <-> home s x) by (intros x; unfold home, in_log; by rewrite Hs2, Hz2).
    assert (Hok : hdr_ok s2 (D (start s2))).
    { unfold hdr_ok. rewrite Hs2, Hz2. fold st. destruct Hcase as [-> | ->]; (split; [|simpl; lia]); [constructor|].
      eapply Forall_impl; [exact T4|]. intros x. apply Hhm. }
    destruct (recover_run s2 v2 D HB Hok) as (s3 & E3 & _ & _ & _ & _ & R3). rewrite Hs2 in R3. fold st in R3.
    exists s3, (vputs v2 (recover_ws st D)). split_and!; [done|done|].
    destruct Hres as [Hres|Hres]; [left|right]; intros x Hx; rewrite (recovery_dsk s2 v2 D) by (done || apply Hx).
    + by apply Hres, Hx.
    + rewrite Hres by apply Hx. by apply Hnew.
Qed.

(** C24: recovery may itself be interrupted.  Recovery from a disk [D] whose
    header describes a transaction returns; if the machine stops after any
    number [k] of its writes and recovers again, the home blocks are those of
    a recovery that is not interrupted. *)
Theorem recovery_restartable s v D :
  booted s v D -> hdr_ok s (D (start s)) -> length (D (start s)) = BSIZE ->
  exists s' ws, recover_from_log s = Ret tt s' /\ n s' = 0 /\ rep (store s') (vputs v ws) /\
    (forall k s2 v2, booted s2 v2 (apply_ws (take k ws) D) -> start s2 = start s -> size_ s2 = size_ s ->
     exists s3 v3, recover_from_log s2 = Ret tt s3 /\ rep (store s3) v3 /\
       forall x, home s x -> dsk v3 x = dsk (vputs v ws) x).
Proof.
  intros HB Hok Hlen. destruct (recover_run s v D HB Hok) as (s' & E & Hn & _ & _ & _ & R).
  set (st := start s) in *. exists s', (recover_ws st D). split_and!; [done|done|done|].
  intros k s2 v2 HB2 Hs2 Hz2. set (D2 := apply_ws (take k (recover_ws st D)) D) in *.
  destruct Hok as [Hhome Hfit].
  assert (Hb : forall b, b ∈ hdr_blocks (D st) -> ~ st <= b < st + size_ s)
    by (intros b Hb; rewrite Forall_forall in Hhome; by apply Hhome).
  assert (Hok2 : hdr_ok s2 (D2 (start s2))).
  { rewrite Hs2. unfold hdr_ok. rewrite Hz2.
    pose proof (recover_hdr st (size_ s) D k Hfit Hlen Hb) as Hc. fold D2 st in Hc |- *.
    destruct Hc as [-> | ->]; (split; [|simpl; lia]); [constructor|].
    eapply Forall_impl; [exact Hhome|]. intros x. unfold home, in_log. by rewrite Hs2, Hz2. }
  destruct (recover_run s2 v2 D2 HB2 Hok2) as (s3 & E3 & _ & _ & _ & _ & R3). rewrite Hs2 in R3. fold st in R3.
  exists s3, (vputs v2 (recover_ws st D2)). split_and!; [done|done|]. intros x [Hx Hxl].
  rewrite (recovery_dsk s2 v2 D2), (recovery_dsk s v D) by done. by apply (recovered_again st (size_ s)).
Qed.

(** *** log_write *)

(** The logged blocks after [bno] is written. *)
Definition absorbed (bs : list Z) (bno : Z) : list Z := if decide (bno ∈ bs) then bs else bs ++ [bno].

Lemma absorb_spec bl bs bno : (forall j b, bs !! j = Some b -> bl !! j = Some b) ->
  let i := absorb bl (length bs) bno in
  (i <= length bs)%nat /\ (bno ∈ bs -> bs !! i = Some bno) /\ (bno ∉ bs -> i = length bs).
Proof.
  revert bl. induction bs as [|b bs IH]; intros bl Hl.
  { destruct bl; (split_and!; [simpl; lia|intros []%not_elem_of_nil|done]). }
  destruct bl as [|b' bl]; [by specialize (Hl 0%nat b eq_refl)|].
  assert (b' = b) as -> by (specialize (Hl 0%nat b eq_refl); by simplify_eq/=).
  destruct (IH bl) as (H1 & H2 & H3); [intros j c Hj; apply (Hl (1 + j)%nat c Hj)|].
  cbn [length absorb]. destruct (Z.eqb_spec b bno) as [-> |Hne].
  - split_and!; [lia|done|set_solver].
  - split_and!; [lia| |].
    + intros [-> |Hin]%elem_of_cons; [done|]. by apply H2.
    + intros Hn%not_elem_of_cons. f_equal. apply H3. tauto.
Qed.

Lemma log_write_run s v bs bno h :
  rep (store s) v -> held v !! bno = Some h -> lock s = false -> length (block s) = Z.to_nat LOGSIZE ->
  n s = Z.of_nat (length bs) -> listed s 0 bs -> n s < LOGSIZE -> n s < size_ s - 1 -> 1 <= outstanding s ->
  exists e bl, log_write h s = Ret tt (s <| lock := false |> <| n := Z.of_nat (length (absorbed bs bno)) |> <| block := bl |> <| store := e |>) /\
    length bl = length (block s) /\ (forall j b, absorbed bs bno !! j = Some b -> bl !! j = Some b) /\
    rep e (v <| pinned ::= union {[bno]} |>).
Proof.
  intros Hr Hh Hlk Hbl Hn Hl Hn1 Hn2 Hout. unfold log_write. erewrite (run_bind (gets id)) by done. unfold id.
  rewrite (proj2 (Z.leb_gt LOGSIZE (n s))), (proj2 (Z.leb_gt (size_ s - 1) (n s))) by lia. cbn [orb].
  rewrite (proj2 (Z.ltb_ge (outstanding s) 1)) by lia.
  set (s1 := s <| lock := true |>).
  assert (Ha : acquire s = Ret tt s1) by (unfold acquire; by rewrite Hlk). run Ha.
  erewrite (run_bind (gets id)) by done. unfold id.
  rewrite <- (wst_id s1). run (io_at _ s1 _ _ _ (b_blockno_ok _ _ _ _ Hr Hh)). rewrite wst_id.
  replace (Z.to_nat (n s1)) with (length bs) by (simpl; lia).
  destruct (absorb_spec (block s1) bs bno Hl) as (Hi & Hin & Hout'). set (i := absorb _ _ _) in *.
  assert (Hilt : (i < length (block s1))%nat) by (simpl; rewrite Hbl; lia).
  set (bl := <[i := bno]> (block s1)).
  assert (Hsb : set_block i bno s1 = Ret tt (s1 <| block := bl |>)) by (unfold set_block; by rewrite decide_True).
  run Hsb. destruct (b_pin_ok _ _ _ _ Hr Hh) as (e & Ep & Rp).
  set (s2 := s1 <| block := bl |> <| n := Z.of_nat (length (absorbed bs bno)) |>).
  assert (Hw : when (Z.of_nat i =? n s1) (modify (fun s => s <| n ::= Z.add 1 |>)) (s1 <| block := bl |>) = Ret tt s2).
  { unfold s2, absorbed. case_decide as Hd.
    - rewrite (proj2 (Z.eqb_neq (Z.of_nat i) (n s1))).
      + rewrite <- Hn. unfold s1, bl. by destruct s.
      + simpl. rewrite Hn. pose proof (lookup_lt_Some _ _ _ (Hin Hd)). lia.
    - rewrite (Hout' Hd), length_app. cbn [length]. change (n s1) with (n s). rewrite Hn, Z.eqb_refl.
      replace (Z.of_nat (length bs + 1)) with (1 + n s) by lia. done. }
  run Hw. rewrite <- (wst_id s2). run (io_at _ s2 _ _ _ Ep). exists e, bl. split_and!; [done|by apply length_insert| |done].
  intros j b Hj. unfold bl. unfold absorbed in Hj. case_decide as Hd.
  - destruct (decide (j = i)) as [-> |Hne]; [rewrite list_lookup_insert_eq by done; by rewrite <- Hj, Hin|].
    rewrite list_lookup_insert_ne by done. by apply Hl.
  - rewrite (Hout' Hd) in Hilt |- *. apply lookup_app_Some in Hj as [Hj|[Hj1 Hj2]].
    + pose proof (lookup_lt_Some _ _ _ Hj). rewrite list_lookup_insert_ne by lia. by apply Hl.
    + apply list_lookup_singleton_Some in Hj2 as [Hj2 <-].
      replace j with (length bs) by lia. by apply list_lookup_insert_eq.
Qed.

(** [log_write] records the block of a held buffer once (absorption) and
    pins it in the cache; the blocks logged so far stay.  It panics when the
    log is full, or outside of a transaction. *)
Theorem log_write_correct s v bs bno h :
  rep (store s) v -> held v !! bno = Some h -> lock s = false -> length (block s) = Z.to_nat LOGSIZE ->
  n s = Z.of_nat (length bs) -> listed s 0 bs ->
  if (LOGSIZE <=? n s) || (size_ s - 1 <=? n s) then log_write h s = Panic "too big a transaction" s
  else if outstanding s <? 1 then log_write h s = Panic "log_write outside of trans" s
  else
    exists s', log_write h s = Ret tt s' /\ lock s' = false /\ outstanding s' = outstanding s /\
      n s' = Z.of_nat (length (absorbed bs bno)) /\ listed s' 0 (absorbed bs bno) /\
      rep (store s') (v <| pinned ::= union {[bno]} |>).
Proof.
  intros Hr Hh Hlk Hbl Hn Hl. destruct (_ || _) eqn:H1.
  { unfold log_write. erewrite (run_bind (gets id)) by done. unfold id. by rewrite H1. }
  destruct (outstanding s <? 1) eqn:H2.
  { unfold log_write. erewrite (run_bind (gets id)) by done. unfold id. by rewrite H1, H2. }
  apply orb_false_iff in H1 as [H1%Z.leb_gt H1'%Z.leb_gt]. apply Z.ltb_ge in H2.
  destruct (log_write_run s v bs bno h) as (e & bl & E & Hlb & Hbs & R); try done.
  eexists. split; [exact E|]. split_and!; try done.
Qed.

(** *** Reservations *)

(** There is room for one more system call. *)
Definition space s : Prop := committing s = 0 /\ n s + (outstanding s + 1) * MAXOPBLOCKS <= LOGSIZE.
#[export] Instance space_dec s : Decision (space s).
Proof. unfold space. apply _. Defined.

(** A process waits in [begin_op] only while there is no room; when it is
    woken, there is room or one of the spurious wakeups is used up. *)
Definition begin_prot : prot L := {|
  tolerated _ := False;
  guar s := lock s = false /\ ~ space s;
  rely s s' := lock s' = false /\ (space s' \/ (spurious s' < spurious s)%nat);
|}.

Lemma begin_step_go s : lock s = true -> space s ->
  begin_step tt s = Ret (inr tt) (s <| outstanding ::= Z.add 1 |> <| lock := false |>).
Proof.
  intros Hl [Hc Hs]. unfold begin_step. erewrite (run_bind (gets id)) by done. unfold id. rewrite Hc. simpl (0 =? 0).
  rewrite (proj2 (Z.ltb_ge _ _)) by done. cbn. unfold bind, modify, release. simpl. by rewrite Hl.
Qed.

Lemma begin_step_wait s : lock s = true -> ~ space s ->
  begin_step tt s = (sleep ;;; ret (inl tt)) s.
Proof.
  intros Hl Hs. unfold begin_step. erewrite (run_bind (gets id)) by done. unfold id.
  destruct (Z.eqb_spec (committing s) 0) as [Hc|Hc]; [|done]. cbn [negb].
  destruct (Z.ltb_spec LOGSIZE (n s + (outstanding s + 1) * MAXOPBLOCKS)); [done|]. by destruct Hs.
Qed.

Lemma begin_loop fuel : forall s, lock s = true ->
  ((if decide (space s) then 0 else 1 + spurious s) < fuel)%nat ->
  wp begin_prot (mwhile fuel begin_step tt) s (fun _ s' => lock s' = false /\ committing s' = 0 /\
    n s' + outstanding s' * MAXOPBLOCKS <= LOGSIZE).
Proof.
  induction fuel as [|fuel IH]; intros s Hl Hf; [lia|]. cbn [mwhile]. apply wp_bind.
  case_decide as Hsp.
  - eapply wp_ret_intro; [by apply begin_step_go|]. apply wp_ret. destruct Hsp as [H1 H2]. split_and!; [done|done|].
    simpl. lia.
  - unfold wp. rewrite begin_step_wait by done. apply wp_bind, wp_bind. unfold wp, release. rewrite Hl. cbn [wpo].
    apply wp_bind, wp_swtch; [by split|]. intros s' [Hl' Hs']. unfold wp, acquire. rewrite Hl'. cbn [wpo].
    apply wp_ret, IH; [done|]. destruct Hs' as [Hs'|Hs'].
    + rewrite decide_True by exact Hs'. lia.
    + simpl in Hs'. change (spurious (s' <| lock := true |>)) with (spurious s'). case_decide; lia.
Qed.

(** [begin_op] waits, without holding the lock, exactly while a commit is
    running or the log might not have room for one more system call.  It
    returns with a reservation: the logged blocks and [MAXOPBLOCKS] for every
    system call in progress, the new one included, fit the log. *)
Theorem begin_op_correct fuel s :
  lock s = false -> (1 + spurious s < fuel)%nat ->
  (space s -> begin_op fuel s = Ret tt (s <| outstanding ::= Z.add 1 |> <| lock := false |>)) /\
  wp begin_prot (begin_op fuel) s (fun _ s' => lock s' = false /\ committing s' = 0 /\
    n s' + outstanding s' * MAXOPBLOCKS <= LOGSIZE).
Proof.
  intros Hl Hf. assert (Ha : acquire s = Ret tt (s <| lock := true |>)) by (unfold acquire; by rewrite Hl). split.
  - intros Hs. unfold begin_op. run Ha. destruct fuel as [|fuel]; [lia|]. cbn [mwhile].
    run (begin_step_go (s <| lock := true |>) eq_refl Hs). done.
  - apply wp_bind. eapply wp_ret_intro; [exact Ha|]. apply begin_loop; [done|]. simpl. case_decide; lia.
Qed.

(** A commit, also of no block. *)
Lemma commit_any s v bs : geom s -> rep (store s) v -> txn s v bs ->
  (forall x, home s x -> x ∉ bs -> cont v x = dsk v x) ->
  exists e ws, commit s = Ret tt (wst (s <| n := 0 |>) e) /\ rep e (vputs v ws) /\
    (forall x, home s x -> dsk (vputs v ws) x = cont v x) /\ (forall b, b ∈ bs -> b ∈ ws.*1).
Proof.
  intros G Hr HT Hcl. destruct bs as [|b bs].
  - exists (store s), []. split_and!; [|done|intros x Hx; apply symmetry, Hcl; [done|set_solver]|set_solver].
    unfold commit. erewrite (run_bind (gets id)) by done. unfold id. destruct HT as [T1 _ _ _ _ _ _ _ _].
    rewrite T1. cbn. unfold ret. f_equal. simpl in T1. unfold wst. by destruct s; simpl in *; subst.
  - destruct (commit_run s v (b :: bs)) as (e & E & R); try done.
    exists e, (commit_ws (start s) (cont v) (b :: bs)). split_and!; [done|done| |].
    2: { intros x Hx. unfold commit_ws. cbv zeta. rewrite !fmap_app, <- list_fmap_compose. change (fst ∘ _) with (id (A := Z)).
         rewrite list_fmap_id. set_solver. }
    intros x Hx. rewrite vputs_dsk. destruct HT as [T1 T2 T3 T4 T5 T6 T7 T8 T9].
    assert (Hst : length (cont v (start s)) = BSIZE).
    { eapply rep_len; [done|]. pose proof (ge_start s G). pose proof (ge_end s G). lia. }
    destruct (commit_final (start s) (size_ s) (cont v) (b :: bs) T7 (size_log s _ G T7) (home_u32 s _ G T4) Hst (dsk v)) as [_ F].
    rewrite F by apply Hx. case_decide; [done|]. symmetry. by apply Hcl.
Qed.

(** The last [end_op] commits. *)
Lemma end_op_last s v bs :
  lock s = false -> geom s -> rep (store s) v -> txn s v bs ->
  (forall x, home s x -> x ∉ bs -> cont v x = dsk v x) -> committing s = 0 -> outstanding s = 1 ->
  exists e ws, end_op s = Ret tt ((wst s e) <| n := 0 |> <| outstanding := 0 |> <| wakeups ::= Datatypes.S |>) /\
    rep e (vputs v ws) /\ (forall x, home s x -> dsk (vputs v ws) x = cont v x) /\ (forall b, b ∈ bs -> b ∈ ws.*1).
Proof.
  intros Hl G Hr HT Hcl Hc0 Ho. set (s1 := s <| lock := true |> <| outstanding := outstanding s - 1 |>).
  assert (Ha : acquire s = Ret tt (s <| lock := true |>)) by (unfold acquire; by rewrite Hl).
  set (s2 := s1 <| committing := 1 |> <| lock := false |>).
  destruct (commit_any s2 v bs) as (e & ws & Ec & Rc & Hc & Hw); [by destruct G|done|by destruct HT|done|].
  exists e, ws. split; [|done]. set (s3 := wst (s2 <| n := 0 |>) e) in *.
  unfold end_op. run Ha. erewrite (run_bind (modify _)) by done. erewrite (run_bind (gets id)) by done. unfold id.
  change (committing (_ <| outstanding ::= _ |>)) with (committing s). change (outstanding (_ <| outstanding ::= _ |>)) with (outstanding s - 1).
  rewrite Hc0, Ho. change (1 - 1 =? 0) with true. cbn [negb Z.eqb]. erewrite (run_bind (modify _)) by done.
  assert (Hrel : release (s1 <| committing := 1 |>) = Ret tt s2) by done. run Hrel. unfold when. run Ec.
  unfold bind, acquire, modify, wakeup, release, s3, s2, s1, wst. destruct s. simpl in *. by subst.
Qed.

(** [end_op].  While other system calls are in progress it only gives up its
    reservation.  The last one commits the transaction: the home blocks on disk
    become those of the cache, the log is empty and open for new system calls,
    and those that wait are woken.  It panics when a commit is in progress. *)
Theorem end_op_correct s v bs :
  lock s = false -> geom s -> rep (store s) v -> txn s v bs ->
  (forall x, home s x -> x ∉ bs -> cont v x = dsk v x) ->
  (committing s <> 0 -> exists s', end_op s = Panic "log.committing" s') /\
  (committing s = 0 -> outstanding s <> 1 ->
   end_op s = Ret tt (s <| outstanding ::= fun x => x - 1 |> <| wakeups ::= Datatypes.S |>)) /\
  (committing s = 0 -> outstanding s = 1 ->
   exists s' ws, end_op s = Ret tt s' /\ lock s' = false /\ committing s' = 0 /\ outstanding s' = 0 /\ n s' = 0 /\
     wakeups s' = Datatypes.S (wakeups s) /\ rep (store s') (vputs v ws) /\
     (forall x, home s x -> dsk (vputs v ws) x = cont v x)).
Proof.
  intros Hl G Hr HT Hcl. set (s1 := s <| lock := true |> <| outstanding := outstanding s - 1 |>).
  assert (E0 : forall (f : M L unit), (acquire ;;; modify (fun s => s <| outstanding ::= fun x => x - 1 |>) ;;; f) s = f s1).
  { intros f. assert (Ha : acquire s = Ret tt (s <| lock := true |>)) by (unfold acquire; by rewrite Hl). by run Ha. }
  unfold end_op. rewrite E0. erewrite (run_bind (gets id)) by done. unfold id. change (committing s1) with (committing s).
  change (outstanding s1) with (outstanding s - 1). split_and!.
  - intros Hc. rewrite (proj2 (Z.eqb_neq _ 0) Hc). by exists s1.
  - intros -> Ho. cbn [negb Z.eqb]. rewrite (proj2 (Z.eqb_neq (outstanding s - 1) 0)) by lia.
    cbn. unfold bind, wakeup, modify, release, ret. simpl. by rewrite <- Hl.
  - intros Hc Ho. destruct (end_op_last s v bs Hl G Hr HT Hcl Hc Ho) as (e & ws & E & R & Hd & _).
    revert E. unfold end_op. rewrite E0. erewrite (run_bind (gets id)) by done. unfold id. change (committing s1) with (committing s).
    change (outstanding s1) with (outstanding s - 1). intros E. eexists _, ws. split; [exact E|]. by split_and!.
Qed.
End laws.

(** ** Witnesses

    A disk of ten zeroed blocks, the log in blocks 2 to 5, and a transaction
    that has written block 8. *)

Section demo.
Local Instance demo_store : BlockStore Bio.bcache := Bio.bio_store 3 1.
Local Instance demo_ok : BlockStoreOk Bio.bcache := Bio.bio_ok 10 3 1 (Nat.lt_0_1).

Definition demo_disk : list (list Z) := replicate 10 (replicate BSIZE 0).
Definition demo_boot : Bio.bcache := Bio.Bcache false (replicate (S NBUF) Bio.zero_buf) demo_disk [].
Definition demo_v0 : bview := Bio.boot_view demo_disk.
Definition demo_v : bview :=
  demo_v0 <| cont := fupd (cont demo_v0) 8 (replicate BSIZE 1) |> <| pinned := {[8]} |>.

Lemma demo_rep0 : exists e, rep e demo_v0.
Proof.
  destruct (Bio.binit_rep 10 demo_boot) as (e & _ & _ & R).
  - reflexivity.
  - apply Forall_replicate. done.
  - reflexivity.
  - reflexivity.
  - apply Forall_replicate. reflexivity.
  - exists e. exact R.
Qed.

Lemma demo_store_rep : exists e, rep e demo_v.
Proof.
  destruct demo_rep0 as (e & R). assert (H8 : 0 <= 8 < nblocks) by (change nblocks with 10; lia).
  destruct (bread_ok e demo_v0 8 R H8 eq_refl) as (h & e1 & _ & R1); [right; vm_compute; lia|].
  destruct (b_update_ok e1 _ 8 h (fun _ => replicate BSIZE 1) R1) as (e2 & _ & R2); [apply lookup_insert_eq|reflexivity|].
  destruct (b_pin_ok e2 _ 8 h R2) as (e3 & _ & R3); [apply lookup_insert_eq|].
  destruct (brelse_ok e3 _ 8 h R3) as (e4 & _ & R4); [apply lookup_insert_eq|left; set_solver|].
  exists e4. eapply rep_equiv; [|exact R4]. split_and!; try done; vm_compute; reflexivity.
Qed.

Definition demo_log (e : Bio.bcache) : log Bio.bcache :=
  MkLog false 2 4 1 0 ROOTDEV 1 (8 :: replicate 29 0) 0 0 e.

Lemma demo_geom e : geom (demo_log e).
Proof. split; try done; simpl; change nblocks with 10; unfold LOGSIZE, MAXOPBLOCKS; lia. Qed.

Lemma demo_txn e : txn (demo_log e) demo_v [8].
Proof.
  split; try done; simpl.
  - intros [|j] b Hj; by simplify_eq/=.
  - apply NoDup_singleton.
  - apply Forall_singleton. unfold home, in_disk, in_log. change nblocks with 10. simpl. lia.
  - intros x ->%list_elem_of_singleton. set_solver.
  - intros x Hx ->%elem_of_singleton. unfold in_log in Hx. simpl in Hx. lia.
  - vm_compute. lia.
Qed.
Lemma demo_hdr : hdr_blocks (dsk demo_v 2) = [].
Proof. vm_compute. reflexivity. Qed.
Lemma demo_clean e x : home (demo_log e) x -> x ∉ [8] -> cont demo_v x = dsk demo_v x.
Proof. intros _ Hx%not_elem_of_cons. simpl. rewrite fupd_ne by tauto. done. Qed.

Lemma commit_crash_safe_witness : exists e s', commit (demo_log e) = Ret tt s' /\ n s' = 0.
Proof.
  destruct demo_store_rep as (e & R).
  destruct (commit_crash_safe (demo_log e) demo_v [8] (demo_geom e) R (demo_txn e) ltac:(discriminate) demo_hdr (demo_clean e))
    as (s' & ws & E & Hn & _).
  exists e, s'. split; [exact E|exact Hn].
Defined.

(** A disk that was left by a crash after the commit: the header lists block 8,
    and its content is in the log. *)
Definition demo_crash : list (list Z) :=
  <[2%nat := header [8] (replicate BSIZE 0)]> (<[3%nat := replicate BSIZE 1]> demo_disk).
Definition demo_vc : bview := Bio.boot_view demo_crash.
Lemma demo_hdr8 : hdr_blocks (dsk demo_vc 2) = [8].
Proof. vm_compute. reflexivity. Qed.
Lemma demo_rep_crash : exists e, rep e demo_vc.
Proof.
  destruct (Bio.binit_rep 10 (Bio.Bcache false (replicate (S NBUF) Bio.zero_buf) demo_crash [])) as (e & _ & _ & R).
  - reflexivity.
  - apply Forall_replicate. done.
  - reflexivity.
  - reflexivity.
  - apply Forall_insert; [apply Forall_insert; [apply Forall_replicate|]|]; reflexivity.
  - exists e. exact R.
Qed.
Lemma demo_booted e : rep e demo_vc -> booted (demo_log e) demo_vc (dsk demo_vc).
Proof. intros R. split; try done; try apply demo_geom. vm_compute. lia. Qed.

Lemma recovery_restartable_witness : exists e s', recover_from_log (demo_log e) = Ret tt s' /\ n s' = 0.
Proof.
  destruct demo_rep_crash as (e & R).
  assert (Hok : hdr_ok (demo_log e) (dsk demo_vc (start (demo_log e)))).
  { unfold hdr_ok. change (start (demo_log e)) with 2. rewrite demo_hdr8. split; [|simpl; lia].
    apply Forall_singleton. unfold home, in_disk, in_log. change nblocks with 10. simpl. lia. }
  destruct (recovery_restartable (demo_log e) demo_vc (dsk demo_vc) (demo_booted e R) Hok eq_refl) as (s' & ws & E & Hn & _).
  exists e, s'. split; [exact E|exact Hn].
Defined.

Lemma log_write_witness : exists e h s', log_write h (demo_log e) = Ret tt s' /\ n s' = 1.
Proof.
  destruct demo_store_rep as (e & R). assert (H8 : 0 <= 8 < nblocks) by (change nblocks with 10; lia).
  destruct (bread_ok e demo_v 8 R H8 eq_refl) as (h & e1 & _ & R1); [right; vm_compute; lia|].
  destruct (log_write_correct (demo_log e1) _ [8] 8 h R1 (lookup_insert_eq _ _ _) eq_refl eq_refl eq_refl
    (tx_listed _ _ _ (demo_txn e1))) as (s' & E & _ & _ & Hn & _).
  exists e1, h, s'. split; [exact E|exact Hn].
Defined.

Lemma begin_op_witness : exists e s', begin_op 2 (demo_log e) = Ret tt s' /\ outstanding s' = 2.
Proof.
  destruct demo_store_rep as (e & R).
  destruct (begin_op_correct 2 (demo_log e) eq_refl ltac:(simpl; lia)) as [Hgo _].
  assert (Hs : space (demo_log e)) by (split; [reflexivity|vm_compute; discriminate]).
  exists e. eexists. split; [exact (Hgo Hs)|reflexivity].
Defined.

Lemma end_op_witness : exists e s', end_op (demo_log e) = Ret tt s' /\ outstanding s' = 0 /\ n s' = 0.
Proof.
  destruct demo_store_rep as (e & R).
  destruct (end_op_correct (demo_log e) demo_v [8] eq_refl (demo_geom e) R (demo_txn e) (demo_clean e)) as (_ & _ & H).
  destruct (H eq_refl eq_refl) as (s' & ws & E & _ & _ & Ho & Hn & _).
  exists e, s'. split; [exact E|]. split; [exact Ho|exact Hn].
Defined.
End demo.
End Log.
