(* ===== verification/LogShare.v ===== *)
(** * System calls that share the log (log.c)

    Several system calls use the log at the same time.  The steps of all of them
    are interleaved, those that go to sleep in [begin_op], in the buffer cache or
    in the commit included: [begin_op] reserves room for a whole system call, and
    the theorems say how far the reservations can be relied upon. *)

From S2P Require Import Prelude Params Bytes Block Bio Log.
Import Log.

Section share.
Context {S : Type} `{BlockStore S}.
Notation L := (log S).

(** [begin_op], from the start or where it was put to sleep. *)
Inductive entering : M L unit -> Prop :=
| enter_call fuel : entering (begin_op fuel)
| enter_woken k s s' k' : entering k -> k s = Swtch s' k' -> entering k'.

(** The operations on buffers that a system call uses, from the start or where
    they were put to sleep. *)
Inductive buffer_op : forall A, M S A -> Prop :=
| op_bread dv b : buffer_op nat (bread dv b)
| op_data h : buffer_op (list Z) (b_data h)
| op_update h f : buffer_op unit (b_update h f)
| op_brelse h : buffer_op unit (brelse h)
| op_woken A m e e' k : buffer_op A m -> m e = Swtch e' k -> buffer_op A k.

(** The log, the system calls in progress with the number of [log_write]s each
    has done, and the [end_op] that is asleep in its commit, if any.  A system
    call writes at most [MAXOPBLOCKS] blocks. *)
Definition sharing : Type := L * list Z * option (M L unit).

Inductive res_step : sharing -> sharing -> Prop :=
| res_begin k s s' ws c : entering k -> k s = Ret tt s' -> res_step (s, ws, c) (s', ws ++ [0], c)
| res_begin_sleep k s s' k' ws c : entering k -> k s = Swtch s' k' -> res_step (s, ws, c) (s', ws, c)
| res_write s s' ws c i w h : ws !! i = Some w -> w < MAXOPBLOCKS -> log_write h s = Ret tt s' ->
    res_step (s, ws, c) (s', <[i := w + 1]> ws, c)
| res_io A (m : M S A) s a s' ws c : buffer_op A m -> io m s = Ret a s' -> res_step (s, ws, c) (s', ws, c)
| res_io_sleep A (m : M S A) s s' k ws c : buffer_op A m -> io m s = Swtch s' k -> res_step (s, ws, c) (s', ws, c)
| res_end s s' ws1 w ws2 c : end_op s = Ret tt s' -> res_step (s, ws1 ++ w :: ws2, c) (s', ws1 ++ ws2, c)
| res_end_sleep s s' k ws1 w ws2 c : end_op s = Swtch s' k -> res_step (s, ws1 ++ w :: ws2, c) (s', ws1 ++ ws2, Some k)
| res_commit s s' ws k : k s = Ret tt s' -> res_step (s, ws, Some k) (s', ws, None)
| res_commit_sleep s s' ws k k' : k s = Swtch s' k' -> res_step (s, ws, Some k) (s', ws, Some k').

(** What is left of the reservations. *)
Definition credit (ws : list Z) : Z := foldr (fun w c => (MAXOPBLOCKS - w) + c) 0 ws.
Lemma credit_app l1 l2 : credit (l1 ++ l2) = credit l1 + credit l2.
Proof. induction l1 as [|w l1 IH]; simpl; lia. Qed.
Lemma credit_nonneg ws : Forall (fun w => 0 <= w <= MAXOPBLOCKS) ws ->
  0 <= credit ws <= Z.of_nat (length ws) * MAXOPBLOCKS.
Proof. induction 1 as [|w ws Hw _ IH]; simpl in *; [done|]. unfold MAXOPBLOCKS in *. lia. Qed.
Lemma credit_insert ws i w : ws !! i = Some w -> credit (<[i := w + 1]> ws) = credit ws - 1.
Proof.
  intros Hi. rewrite <- (take_drop_middle ws i w Hi) at 2.
  rewrite insert_take_drop by (by eapply lookup_lt_Some). rewrite !credit_app. simpl. lia.
Qed.

(** ** Computations between which others change the store

    [along G o Q]: if [o] returns, [Q] holds; whenever it gives up the processor
    [G] holds, and it gets the processor back with another store only. *)

Fixpoint along {A} (G : L -> Prop) (o : out L A) (Q : A -> L -> Prop) : Prop :=
  match o with
  | Ret a s => Q a s
  | Swtch s k => G s /\ forall e, along G (k (wst s e)) Q
  | _ => True
  end.

Lemma along_bind {A B} G (o : out L A) (f : A -> L -> out L B) Q :
  along G o (fun a s => along G (f a s) Q) -> along G (obind o f) Q.
Proof. induction o as [a s|msg s|s|s| |s k IH]; simpl; auto. intros [HG HR]. split; [done|]. intros e. apply IH, HR. Qed.

(** A computation that changes only the store. *)
Definition store_only {A} (m : M L A) : Prop := forall G s (Q : A -> L -> Prop),
  (forall e, G (wst s e)) -> (forall a e, Q a (wst s e)) -> along G (m s) Q.

Lemma wst_wst (s : L) e e' : wst (wst s e) e' = wst s e'.
Proof. done. Qed.
Lemma so_bind {A B} (m : M L A) (f : A -> M L B) : store_only m -> (forall a, store_only (f a)) -> store_only (bind m f).
Proof. intros Hm Hf G s Q HG HQ. apply along_bind, Hm; [done|]. intros a e. by apply Hf. Qed.
Lemma so_here {A} (m : M L A) : (forall s, (exists a, m s = Ret a s) \/ m s = Fault s) -> store_only m.
Proof.
  intros Hm G s Q HG HQ. destruct (Hm s) as [[a ->]| ->]; [|done]. simpl. rewrite <- (wst_id s). apply HQ.
Qed.
Lemma so_io {A} (m : M S A) : store_only (io m).
Proof.
  intros G s Q HG HQ. unfold io, lift. generalize (m (store s)). intros o. revert s HG HQ.
  induction o as [a e|msg e|e|e| |e k IH]; intros s HG HQ; simpl; try done; [apply HQ|].
  split; [apply HG|]. intros e'. apply IH; intros; [apply HG|apply HQ].
Qed.
Lemma so_each {A} (f : A -> M L unit) l : (forall a, store_only (f a)) -> store_only (meach l f).
Proof.
  intros Hf. induction l as [|a l IH]; [apply so_here; left; by eexists|]. cbn [meach]. by apply so_bind.
Qed.
Lemma so_gets {A} (f : L -> A) : store_only (gets f).
Proof. apply so_here. left. by eexists. Qed.
Lemma so_get_block i : store_only (get_block i).
Proof. apply so_here. intros s. unfold get_block. destruct (block s !! i); [left; by eexists|by right]. Qed.

Lemma write_log_so : store_only write_log.
Proof. repeat (apply so_bind || apply so_each || apply so_gets || apply so_get_block || apply so_io || intros ?). Qed.
Lemma install_trans_so : store_only install_trans.
Proof. repeat (apply so_bind || apply so_each || apply so_gets || apply so_get_block || apply so_io || intros ?). Qed.
Lemma write_head_so : store_only write_head.
Proof. repeat (apply so_bind || apply so_each || apply so_gets || apply so_get_block || apply so_io || intros ?). Qed.

Lemma commit_along (s : L) G (Q : unit -> L -> Prop) : 0 <= n s ->
  (forall e, G (wst s e)) -> (forall e, G ((wst s e) <| n := 0 |>)) -> (forall e, Q tt ((wst s e) <| n := 0 |>)) ->
  along G (commit s) Q.
Proof.
  intros Hn HG HG0 HQ. unfold commit. rewrite (run_bind (gets id) _ s s s eq_refl). unfold id, when.
  destruct (Z.ltb_spec 0 (n s)) as [_|Hle].
  - apply along_bind, write_log_so; [done|]. intros [] e1. apply along_bind, write_head_so; [done|]. intros [] e2.
    apply along_bind, install_trans_so; [done|]. intros [] e3.
    rewrite (run_bind (modify _) _ _ _ _ eq_refl). apply write_head_so; [intros e; exact (HG0 e)|]. intros [] e. exact (HQ e).
  - assert (Hs : s = (wst s (store s)) <| n := 0 |>) by (assert (n s = 0) by lia; destruct s; simpl in *; by subst).
    simpl. rewrite Hs. exact (HQ (store s)).
Qed.

(** ** The invariant *)

Section invariant.
(** [log.size] *)
Context (sz : Z).

(** The commit is running. *)
Record mid (s : L) : Prop := {
  md_lock : lock s = false;
  md_comm : committing s = 1;
  md_out : outstanding s = 0;
  md_n : 0 <= n s <= LOGSIZE;
  md_len : length (block s) = Z.to_nat LOGSIZE;
  md_size : size_ s = sz;
}.

Record res_inv (s : L) (ws : list Z) : Prop := {
  ri_lock : lock s = false;
  ri_comm : committing s = 0;
  ri_out : outstanding s = Z.of_nat (length ws);
  ri_n : 0 <= n s;
  ri_len : length (block s) = Z.to_nat LOGSIZE;
  ri_size : size_ s = sz;
  ri_ws : Forall (fun w => 0 <= w <= MAXOPBLOCKS) ws;
  ri_room : n s + credit ws <= LOGSIZE;
  ri_empty : ws = [] -> n s = 0;
}.

Definition sharing_inv (x : sharing) : Prop :=
  match x with
  | (s, ws, None) => res_inv s ws
  | (s, ws, Some k) => ws = [] /\ mid s /\ forall e, along mid (k (wst s e)) (fun _ s' => res_inv s' [])
  end.

Lemma mid_wst s e : mid s -> mid (wst s e).
Proof. by intros []. Qed.
Lemma res_inv_wst s ws e : res_inv s ws -> res_inv (wst s e) ws.
Proof. by intros []. Qed.
Lemma inv_wst s ws c e : sharing_inv (s, ws, c) -> sharing_inv (wst s e, ws, c).
Proof.
  destruct c as [k|]; simpl; [|apply res_inv_wst]. intros (H1 & H2 & H3). split_and!; [done|by apply mid_wst|done].
Qed.

(** *** Each operation *)

Lemma begin_op_sleeps fuel (s s' : L) k : begin_op fuel s = Swtch s' k ->
  s' = s /\ exists fuel', forall t, k t = begin_op fuel' t.
Proof.
  unfold begin_op, bind at 1, acquire. destruct (lock s) eqn:Hl; [done|]. cbn [obind]. destruct fuel as [|fuel]; [done|].
  cbn [mwhile]. set (s1 := s <| lock := true |>).
  assert (Hs1 : s1 <| lock := false |> = s) by (by destruct s; simpl in *; subst).
  assert (Hgo : forall o, o = (sleep ;;; ret (inl tt)) s1 ->
    obind o (fun r => match r with inl a' => mwhile fuel begin_step a' | inr b => ret b end) = Swtch s' k ->
    s' = s /\ exists fuel', forall t, k t = begin_op fuel' t).
  { intros o ->. unfold sleep, bind at 1 2 3, release. simpl (lock s1). cbn [obind swtch]. rewrite Hs1. intros [= <- <-].
    split; [done|]. exists fuel. intros t. unfold begin_op, bind, acquire, ret. simpl. by destruct (lock t). }
  unfold bind at 1. unfold begin_step at 1. rewrite (run_bind (gets id) _ _ _ _ eq_refl). unfold id.
  destruct (committing s1 =? 0); cbn [negb]; [|by apply Hgo].
  destruct (LOGSIZE <? _); [by apply Hgo|]. done.
Qed.

Lemma entering_begin k : entering k -> exists fuel, forall s, k s = begin_op fuel s.
Proof.
  induction 1 as [fuel|k s s' k' _ [fuel IH] E]; [by exists fuel|]. rewrite IH in E. by apply begin_op_sleeps in E as [_ ?].
Qed.

Lemma begin_op_inv fuel (s s' : L) : begin_op fuel s = Ret tt s' ->
  lock s = false /\ committing s = 0 /\ s' = s <| outstanding ::= Z.add 1 |> /\
  n s + (outstanding s + 1) * MAXOPBLOCKS <= LOGSIZE.
Proof.
  unfold begin_op, bind at 1, acquire. destruct (lock s) eqn:Hl; [done|]. cbn [obind]. destruct fuel as [|fuel]; [done|].
  cbn [mwhile]. unfold begin_step, bind, gets. cbn. destruct (Z.eqb_spec (committing s) 0) as [Hc|]; cbn; [|done].
  destruct (Z.ltb_spec LOGSIZE (n s + (outstanding s + 1) * MAXOPBLOCKS)) as [|Hs]; cbn; [done|].
  intros [= <-]. split_and!; [done|done| |done]. by destruct s; simpl in *; subst.
Qed.

Lemma io_inv {A} (m : M S A) (s : L) a s' : io m s = Ret a s' -> exists e, s' = wst s e.
Proof. unfold io, lift. destruct (m (store s)); simpl; try done. intros [= <- <-]. by eexists. Qed.
Lemma io_sleep_inv {A} (m : M S A) (s : L) s' k : io m s = Swtch s' k -> exists e, s' = wst s e.
Proof. unfold io, lift. destruct (m (store s)); simpl; try done. intros [= <- <-]. by eexists. Qed.

Lemma bind_inv {T A B} (m : M T A) (f : A -> M T B) s b s' : bind m f s = Ret b s' ->
  (exists a s1, m s = Ret a s1 /\ f a s1 = Ret b s').
Proof. unfold bind. destruct (m s); simpl; try done. eauto. Qed.

(** A [log_write] that returns adds at most one block. *)
Lemma log_write_inv h (s s' : L) : log_write h s = Ret tt s' ->
  exists e bl k, s' = s <| n := k |> <| block := bl |> <| store := e |> /\
    length bl = length (block s) /\ n s <= k <= n s + 1.
Proof.
  unfold log_write. rewrite (run_bind (gets id) _ s s s eq_refl). unfold id.
  destruct (_ || _); [done|]. destruct (outstanding s <? 1); [done|]. intros ([] & s1 & Ha & Hr)%bind_inv.
  unfold acquire in Ha. destruct (lock s) eqn:Hl; [done|]. injection Ha as <-.
  rewrite (run_bind (gets id) _ _ _ _ eq_refl) in Hr. apply bind_inv in Hr as (bno & s2 & [e ->]%io_inv & Hr).
  apply bind_inv in Hr as ([] & s3 & Hs & Hr). unfold set_block in Hs. case_decide; [|done]. injection Hs as <-.
  apply bind_inv in Hr as ([] & s4 & Hw & Hr). apply bind_inv in Hr as ([] & s5 & [e' ->]%io_inv & Hr).
  unfold release in Hr. destruct (lock (wst s4 e')); [|done]. injection Hr as <-.
  set (i := absorb _ _ _) in *.
  exists e', (<[i := bno]> (block s)), (if Z.of_nat i =? n s then 1 + n s else n s). split; [|split].
  - unfold when in Hw. unfold id in Hw. simpl in Hw. destruct (Z.of_nat i =? n s); injection Hw as <-; by destruct s; simpl in *; subst.
  - apply length_insert.
  - destruct (_ =? _); lia.
Qed.

Lemma end_op_others (s : L) : lock s = false -> committing s = 0 -> outstanding s <> 1 ->
  end_op s = Ret tt (s <| outstanding ::= (fun x => x - 1) |> <| wakeups ::= Datatypes.S |>).
Proof.
  intros Hl Hc Ho. unfold end_op, acquire, bind at 1. rewrite Hl. cbn [obind].
  rewrite (run_bind (modify _) _ _ _ _ eq_refl), (run_bind (gets id) _ _ _ _ eq_refl). unfold id.
  simpl (committing _). simpl (outstanding _). rewrite Hc. cbn [negb Z.eqb].
  rewrite (proj2 (Z.eqb_neq (outstanding s - 1) 0)) by lia. cbn. by destruct s; simpl in *; subst.
Qed.

(** The last system call commits, and others may run meanwhile. *)
Lemma end_op_last_along (s : L) w : res_inv s [w] -> along mid (end_op s) (fun _ s' => res_inv s' []).
Proof.
  intros [Hl Hc Ho Hn Hlen Hsz Hws Hroom _]. simpl in *. rewrite Forall_singleton in Hws.
  unfold end_op. rewrite (run_bind acquire _ _ tt (s <| lock := true |>)) by (unfold acquire; by rewrite Hl).
  rewrite (run_bind (modify _) _ _ _ _ eq_refl), (run_bind (gets id) _ _ _ _ eq_refl). unfold id.
  simpl (committing _). simpl (outstanding _). rewrite Hc, Ho. change (Z.of_nat 1 - 1 =? 0) with true. cbn [negb Z.eqb when].
  rewrite (run_bind (modify _) _ _ _ _ eq_refl). erewrite (run_bind release) by reflexivity.
  apply along_bind, commit_along; [done|intros e; split; simpl; (done || lia)..|].
  intros e. erewrite (run_bind acquire) by reflexivity. rewrite (run_bind (modify _) _ _ _ _ eq_refl).
  unfold wakeup. rewrite (run_bind (modify _) _ _ _ _ eq_refl). split; simpl; (done || lia).
Qed.

Lemma begin_step_keeps k s s' ws c : entering k -> k s = Ret tt s' -> sharing_inv (s, ws, c) -> sharing_inv (s', ws ++ [0], c).
Proof.
  intros [fuel Hk]%entering_begin E HI. rewrite Hk in E. apply begin_op_inv in E as (_ & Hc & -> & Hroom).
  destruct c as [k'|]; simpl in *; [destruct HI as (_ & [] & _); lia|].
  destruct HI as [H1 H2 H3 H4 H5 H6 H7 H8 H9]. pose proof (credit_nonneg ws H7). split; simpl; try done.
  - rewrite length_app. simpl. lia.
  - apply Forall_app. split; [done|]. apply Forall_singleton. unfold MAXOPBLOCKS. lia.
  - rewrite credit_app. simpl. rewrite H3 in Hroom. lia.
  - by intros [_ ?]%app_eq_nil.
Qed.

Lemma write_keeps h s s' ws c i w : ws !! i = Some w -> w < MAXOPBLOCKS -> log_write h s = Ret tt s' ->
  sharing_inv (s, ws, c) -> sharing_inv (s', <[i := w + 1]> ws, c).
Proof.
  intros Hi Hw E HI. destruct c as [k'|]; simpl in *; [by destruct HI as (-> & _)|].
  destruct HI as [H1 H2 H3 H4 H5 H6 H7 H8 H9]. apply log_write_inv in E as (e & bl & k & -> & Hbl & Hk).
  pose proof (Forall_lookup_1 _ _ _ _ H7 Hi) as Hwi. simpl in Hwi. split; simpl; try done.
  - by rewrite length_insert.
  - lia.
  - by rewrite Hbl.
  - apply Forall_insert; [done|lia].
  - rewrite (credit_insert ws i w Hi). lia.
  - intros Hnil. apply lookup_lt_Some in Hi. rewrite <- (length_insert ws i (w + 1)), Hnil in Hi. simpl in Hi. lia.
Qed.

(** [end_op] of any system call. *)
Lemma end_op_along (s : L) ws1 w ws2 : res_inv s (ws1 ++ w :: ws2) ->
  (forall s', end_op s = Ret tt s' -> res_inv s' (ws1 ++ ws2)) /\
  (forall s' k, end_op s = Swtch s' k -> ws1 ++ ws2 = [] /\ mid s' /\ forall e, along mid (k (wst s' e)) (fun _ s' => res_inv s' [])).
Proof.
  intros HI. destruct (ws1 ++ ws2) as [|x ws] eqn:Hws.
  - apply app_eq_nil in Hws as [-> ->]. apply end_op_last_along in HI. split.
    + intros s' E. by rewrite E in HI.
    + intros s' k E. rewrite E in HI. done.
  - assert (Hlen : length (ws1 ++ w :: ws2) = Datatypes.S (Datatypes.S (length ws))).
    { rewrite length_app. simpl. rewrite Nat.add_succ_r, <- length_app, Hws. done. }
    assert (Hcr : credit (ws1 ++ w :: ws2) = (MAXOPBLOCKS - w) + credit (x :: ws)).
    { rewrite <- Hws, !credit_app. simpl. lia. }
    destruct HI as [H1 H2 H3 H4 H5 H6 H7 H8 H9].
    assert (H7' : Forall (fun w => 0 <= w <= MAXOPBLOCKS) (x :: ws) /\ 0 <= w <= MAXOPBLOCKS).
    { rewrite <- Hws. apply Forall_app in H7 as [? [? ?]%Forall_cons]. split; [by apply Forall_app|done]. }
    rewrite end_op_others by (done || lia). split; [|done]. intros s' [= <-]. split; simpl; try done; simpl in *; lia || tauto.
Qed.

Lemma res_step_inv x y : res_step x y -> sharing_inv x -> sharing_inv y.
Proof.
  intros Hstep HI. destruct Hstep as [k s s' ws c Hk E|k s s' k' ws c Hk E|s s' ws c i w h Hi Hw E|
    A m s a s' ws c _ E|A m s s' k ws c _ E|s s' ws1 w ws2 c E|s s' k ws1 w ws2 c E|s s' ws k E|s s' ws k k' E].
  - by eapply begin_step_keeps.
  - apply entering_begin in Hk as [fuel Hk]. rewrite Hk in E. by apply begin_op_sleeps in E as [-> _].
  - by eapply write_keeps.
  - apply io_inv in E as [e ->]. by apply inv_wst.
  - apply io_sleep_inv in E as [e ->]. by apply inv_wst.
  - destruct c as [k|]; [by destruct HI as [[_ ?]%app_eq_nil _]|]. apply end_op_along in HI as [HI _]. by apply HI.
  - destruct c as [k'|]; [by destruct HI as [[_ ?]%app_eq_nil _]|]. apply end_op_along in HI as [_ HI]. by apply HI.
  - destruct HI as (-> & _ & HI). specialize (HI (store s)). rewrite wst_id, E in HI. exact HI.
  - destruct HI as (-> & _ & HI). specialize (HI (store s)). rewrite wst_id, E in HI. by destruct HI.
Qed.

(** An empty log, before any system call. *)
Record log_idle (s : L) : Prop := {
  li_lock : lock s = false;
  li_comm : committing s = 0;
  li_out : outstanding s = 0;
  li_n : n s = 0;
  li_len : length (block s) = Z.to_nat LOGSIZE;
  li_size : size_ s = sz;
}.

Lemma reachable_inv s0 x : log_idle s0 -> rtc res_step (s0, [], None) x -> sharing_inv x.
Proof.
  intros [H1 H2 H3 H4 H5 H6] Hr.
  assert (Hgen : forall x y, rtc res_step x y -> sharing_inv x -> sharing_inv y).
  { induction 1; eauto using res_step_inv. }
  apply (Hgen _ _ Hr). split; simpl; try done; try lia. rewrite H4. done.
Qed.
End invariant.
End share.

Section reservations.
Context {S : Type} `{BlockStoreOk S}.
Notation L := (log S).

Lemma begin_op_go (s : L) : lock s = false -> space s -> begin_op 1 s = Ret tt (s <| outstanding ::= Z.add 1 |>).
Proof.
  intros Hl Hs. unfold begin_op. rewrite (run_bind acquire _ _ tt (s <| lock := true |>)) by (unfold acquire; by rewrite Hl).
  cbn [mwhile]. run (begin_step_go (s <| lock := true |>) eq_refl Hs). by destruct s; simpl in *; subst.
Qed.

Lemma log_write_room sz (s : L) ws i w v bno h : res_inv sz s ws -> ws !! i = Some w -> w < MAXOPBLOCKS ->
  rep (store s) v -> held v !! bno = Some h -> LOGSIZE < sz \/ LOGSIZE <= sz /\ 2 <= credit ws ->
  exists s', log_write h s = Ret tt s'.
Proof.
  intros [H1 H2 H3 H4 H5 H6 H7 H8 _] Hi Hw Hr Hh Hroom.
  assert (Hcr : 1 <= credit ws).
  { rewrite <- (take_drop_middle ws i w Hi) in H7 |- *. rewrite Forall_app, Forall_cons in H7. destruct H7 as (F1 & _ & F2).
    rewrite credit_app. simpl. pose proof (credit_nonneg _ F1). pose proof (credit_nonneg _ F2). lia. }
  pose proof (lookup_lt_Some _ _ _ Hi).
  destruct (log_write_run s v (take (Z.to_nat (n s)) (block s)) bno h) as (e & bl & E & _); try done; try lia.
  - rewrite length_take, H5. lia.
  - intros j b Hj. by apply lookup_take_Some in Hj as [? _].
  - by eexists.
Qed.

(** C25: however system calls interleave, their sleeps in [begin_op], in the
    buffer cache and in the commit included, as long as each writes at most
    [MAXOPBLOCKS] blocks the blocks in the log and what the calls in progress may
    still write fit in [LOGSIZE].  When no call is in progress and no commit is
    running, the log is empty and [begin_op] does not wait.  A call that has not
    used up its reservation can write: [log_write] returns, if the log region has
    more than [LOGSIZE] blocks; with a region of [LOGSIZE] blocks it returns unless
    this is the last write of all reservations. *)
Theorem log_reservation sz (s0 s : L) ws c :
  log_idle sz s0 -> rtc res_step (s0, [], None) (s, ws, c) ->
  (0 <= n s /\ n s + credit ws <= LOGSIZE /\ outstanding s = Z.of_nat (length ws)) /\
  (ws = [] -> c = None -> n s = 0 /\ exists s', begin_op 1 s = Ret tt s') /\
  (forall i w v bno h, ws !! i = Some w -> w < MAXOPBLOCKS -> rep (store s) v -> held v !! bno = Some h ->
     LOGSIZE < sz \/ LOGSIZE <= sz /\ 2 <= credit ws -> exists s', log_write h s = Ret tt s').
Proof.
  intros Hi Hr. pose proof (reachable_inv sz s0 _ Hi Hr) as HI. destruct c as [k|]; simpl in HI.
  - destruct HI as (-> & [] & _). simpl. split_and!; (done || lia).
  - pose proof HI as [H1 H2 H3 H4 H5 H6 H7 H8 H9]. split_and!; [done|done|done| |intros; by eapply log_write_room].
    intros -> _. split; [by apply H9|]. eexists. apply begin_op_go; [done|]. split; [done|].
    rewrite H9, H3 by done. done.
Qed.

(** ** Three calls that fill the log *)

(** The writes of three calls, of which the first uses up its reservation before
    the second starts to write, and the second before the third. *)
Definition fill_ws (k : nat) : list Z :=
  (fun j => Z.max 0 (Z.min MAXOPBLOCKS (Z.of_nat k - j * MAXOPBLOCKS))) <$> [0; 1; 2].

(** They have written the blocks [ds]. *)
Record filled (s : L) (v : bview) (ds : list Z) : Prop := {
  fi_lock : lock s = false;
  fi_out : outstanding s = 3;
  fi_n : n s = Z.of_nat (length ds);
  fi_len : length (block s) = Z.to_nat LOGSIZE;
  fi_size : size_ s = LOGSIZE;
  fi_listed : listed s 0 ds;
  fi_nodup : NoDup ds;
  fi_rep : rep (store s) v;
  fi_held : held v = ∅;
  fi_pinned : pinned v = list_to_set ds;
}.

Lemma three_begin (s : L) v : log_idle LOGSIZE s -> rep (store s) v -> held v = ∅ -> pinned v = ∅ ->
  exists s', rtc res_step (s, [], None) (s', fill_ws 0, None) /\ filled s' v [].
Proof.
  intros [H1 H2 H3 H4 H5 H6] Hr Hh Hp. exists (s <| outstanding := 3 |>). split; [|split; try done; constructor].
  assert (Hb : forall k ws, 0 <= k <= 2 -> outstanding s = 0 ->
    res_step (s <| outstanding := k |>, ws, None) (s <| outstanding := 1 + k |>, ws ++ [0], None)).
  { intros k ws Hk _. apply (res_begin (begin_op 1)); [constructor|].
    rewrite begin_op_go; [done|done|]. split; [done|]. simpl. rewrite H4. unfold LOGSIZE, MAXOPBLOCKS. lia. }
  replace s with (s <| outstanding := 0 |>) at 1 by (destruct s; simpl in *; by subst).
  eapply rtc_l; [apply Hb; (done || lia)|]. eapply rtc_l; [apply (Hb 1); (done || lia)|].
  eapply rtc_l; [apply (Hb 2); (done || lia)|]. apply rtc_refl.
Qed.

Lemma busy_filled s v ds : filled s v ds -> (size (busy v) <= length ds)%nat.
Proof.
  intros Hf. unfold busy. rewrite (fi_held _ _ _ Hf), (fi_pinned _ _ _ Hf), dom_empty_L, (left_id_L ∅ (∪)).
  by rewrite size_list_to_set by apply Hf.
Qed.

Lemma fill_ws_step k : (k < 30)%nat -> exists i w,
  fill_ws k !! i = Some w /\ w < MAXOPBLOCKS /\ <[i := w + 1]> (fill_ws k) = fill_ws (1 + k).
Proof.
  intros Hk. unfold fill_ws, MAXOPBLOCKS. cbn [fmap list_fmap].
  assert (H3 : forall a b c a' b' c' : Z, a = a' -> b = b' -> c = c' -> [a; b; c] = [a'; b'; c']) by (by intros; subst).
  assert (Hc : (k < 10 \/ 10 <= k < 20 \/ 20 <= k < 30)%nat) by lia. destruct Hc as [Hc|[Hc|Hc]].
  - exists 0%nat. eexists. split; [reflexivity|]. split; [lia|]. apply H3; lia.
  - exists 1%nat. eexists. split; [reflexivity|]. split; [lia|]. apply H3; lia.
  - exists 2%nat. eexists. split; [reflexivity|]. split; [lia|]. apply H3; lia.
Qed.

(** A call reads a block, and finds it locked in a buffer. *)
Lemma fill_bread (s : L) v ds b ws : filled s v ds -> b ∉ ds -> 0 <= b < nblocks -> (length ds < capacity)%nat ->
  exists h e, res_step (s, ws, None) (wst s e, ws, None) /\ rep e (v <| held ::= <[b := h]> |>).
Proof.
  intros Hf Hb Hin Hcap. pose proof (busy_filled _ _ _ Hf).
  destruct (bread_ok (store s) v b (fi_rep _ _ _ Hf) Hin) as (h & e & E & R); [by rewrite (fi_held _ _ _ Hf)|right; lia|].
  exists h, e. split; [|done]. eapply (res_io nat (bread ROOTDEV b)); [constructor|].
  rewrite <- (wst_id s) at 1. by apply io_at.
Qed.

Lemma fill_one (s : L) v ds b : filled s v ds -> b ∉ ds -> 0 <= b < nblocks -> (length ds < capacity)%nat -> (length ds < 29)%nat ->
  exists s' v', rtc res_step (s, fill_ws (length ds), None) (s', fill_ws (length (ds ++ [b])), None) /\ filled s' v' (ds ++ [b]).
Proof.
  intros Hf Hb Hin Hcap Hlt. destruct (fill_bread s v ds b (fill_ws (length ds)) Hf Hb Hin Hcap) as (h & e1 & S1 & R1).
  destruct Hf as [F1 F2 F3 F4 F5 F6 F7 F8 F9 F10].
  assert (Hab : absorbed ds b = ds ++ [b]) by (unfold absorbed; by rewrite decide_False).
  destruct (log_write_run (wst s e1) _ ds b h R1) as (e2 & bl & E2 & Hbl & Hl & R2); try done; simpl;
    [by apply lookup_insert_eq|unfold LOGSIZE, MAXOPBLOCKS in *; lia..|]. rewrite Hab in *.
  destruct (brelse_ok e2 _ b h R2) as (e3 & E3 & R3); [apply lookup_insert_eq|left; simpl; set_solver|].
  destruct (fill_ws_step (length ds)) as (i & w & Hi & Hw & Hws); [lia|].
  eexists _, _. split.
  - eapply rtc_l; [exact S1|]. eapply rtc_l; [by eapply res_write|]. rewrite Hws, length_app, Nat.add_comm.
    apply rtc_once. eapply (res_io unit (brelse h)); [constructor|]. rewrite <- (wst_id (_ <| store := e2 |>)). by apply io_at.
  - split; simpl; try done.
    + rewrite length_app. simpl. lia.
    + by rewrite Hbl.
    + apply NoDup_app. split_and!; [done|set_solver|apply NoDup_singleton].
    + simpl. by rewrite F9, delete_insert_eq, delete_empty.
    + simpl. rewrite F10, list_to_set_app_L. set_solver.
Qed.

Lemma fill_all bs : forall (s : L) v ds, filled s v ds -> NoDup (ds ++ bs) -> Forall (fun b => 0 <= b < nblocks) bs ->
  (length (ds ++ bs) <= 29)%nat -> (29 <= capacity)%nat ->
  exists s' v', rtc res_step (s, fill_ws (length ds), None) (s', fill_ws (length (ds ++ bs)), None) /\ filled s' v' (ds ++ bs).
Proof.
  induction bs as [|b bs IH]; intros s v ds Hf Hnd Hin Hlen Hcap.
  { rewrite app_nil_r. exists s, v. split; [apply rtc_refl|done]. }
  apply Forall_cons in Hin as [Hb Hin]. pose proof Hnd as (_ & Hdisj & _)%NoDup_app. rewrite length_app in Hlen. simpl in Hlen.
  destruct (fill_one s v ds b Hf) as (s1 & v1 & R1 & F1); [intros Hx; apply (Hdisj b Hx); left|done|lia|lia|].
  assert (Happ : ds ++ b :: bs = (ds ++ [b]) ++ bs) by (by rewrite <- app_assoc).
  rewrite Happ in *. destruct (IH s1 v1 (ds ++ [b]) F1) as (s2 & v2 & R2 & F2); [done|done|rewrite !length_app; simpl; lia|done|].
  exists s2, v2. split; [by etrans|done].
Qed.

(** C26: the reservations promise one block more than the log has.  With the
    shipped [log.size = LOGSIZE], of which one block is the header, and 30 blocks of
    the disk, there is a run of three system calls, all admitted by [begin_op], that
    read and write 29 of the blocks: the first two use up their reservations, the
    third is one write short of its own.  When it then reads the last block and
    writes it, [log_write] panics. *)
Theorem reservation_exceeds_log (s : L) v bs b :
  log_idle LOGSIZE s -> rep (store s) v -> held v = ∅ -> pinned v = ∅ -> (30 <= capacity)%nat ->
  length bs = 29%nat -> NoDup (bs ++ [b]) -> Forall (fun b => 0 <= b < nblocks) (bs ++ [b]) ->
  exists s' v' h, rtc res_step (s, [], None) (s', [MAXOPBLOCKS; MAXOPBLOCKS; MAXOPBLOCKS - 1], None) /\
    rep (store s') v' /\ held v' !! b = Some h /\ log_write h s' = Panic "too big a transaction" s'.
Proof.
  intros Hi Hr Hh Hp Hcap Hlen Hnd Hin. rewrite Forall_app, Forall_singleton in Hin. destruct Hin as [Hin Hb].
  apply NoDup_app in Hnd as (Hnd & Hdisj & _).
  destruct (three_begin s v Hi Hr Hh Hp) as (s1 & R1 & F1).
  destruct (fill_all bs s1 v [] F1) as (s2 & v2 & R2 & F2); [done|done|simpl; lia|lia|]. simpl in R2, F2. rewrite Hlen in R2.
  destruct (fill_bread s2 v2 bs b (fill_ws 29) F2) as (h & e & S3 & R3); [|done|lia|].
  { intros Hx. apply (Hdisj b Hx). left. }
  exists (wst s2 e), (v2 <| held ::= <[b := h]> |>), h. split_and!.
  - etrans; [exact R1|]. etrans; [exact R2|]. by apply rtc_once.
  - done.
  - apply lookup_insert_eq.
  - unfold log_write. rewrite (run_bind (gets id) _ _ _ _ eq_refl). unfold id. simpl.
    rewrite (fi_n _ _ _ F2), (fi_size _ _ _ F2), Hlen. done.
Qed.
End reservations.

(** ** The theorems at work

    A disk of 70 zeroed blocks with the log in the blocks 2 to 31. *)

Section demo.
Local Instance share_store : BlockStore Bio.bcache := Bio.bio_store 3 1.
Local Instance share_ok : BlockStoreOk Bio.bcache := Bio.bio_ok 70 3 1 (Nat.lt_0_1).

Definition share_disk : list (list Z) := replicate 70 (replicate BSIZE 0).
Definition share_v : bview := Bio.boot_view share_disk.
Lemma share_rep : exists e, rep e share_v.
Proof.
  destruct (Bio.binit_rep 70 (Bio.Bcache false (replicate (S NBUF) Bio.zero_buf) share_disk [])) as (e & _ & _ & R).
  - reflexivity.
  - apply Forall_replicate. done.
  - reflexivity.
  - reflexivity.
  - apply Forall_replicate. reflexivity.
  - exists e. exact R.
Qed.
Definition share_log (e : Bio.bcache) : log Bio.bcache := MkLog false 2 LOGSIZE 0 0 ROOTDEV 0 (replicate 30 0) 0 0 e.
Lemma share_idle e : log_idle LOGSIZE (share_log e).
Proof. by split. Qed.

(** A call begins, reads block 40 and writes it. *)
Lemma log_reservation_witness : exists e s1 s2 h s3,
  begin_op 1 (share_log e) = Ret tt s1 /\ io (bread ROOTDEV 40) s1 = Ret h s2 /\ log_write h s2 = Ret tt s3.
Proof.
  destruct share_rep as (e & R). set (s1 := (share_log e) <| outstanding := 1 |>).
  assert (E1 : begin_op 1 (share_log e) = Ret tt s1) by reflexivity.
  assert (H40 : 0 <= 40 < nblocks) by (change nblocks with 70; lia).
  destruct (bread_ok e share_v 40 R H40 eq_refl) as (h & e2 & E2 & R2); [right; vm_compute; lia|].
  assert (E3 : io (bread ROOTDEV 40) s1 = Ret h (wst s1 e2)) by (apply (io_at _ s1 e), E2).
  assert (Hr : rtc res_step (share_log e, [], None) (wst s1 e2, [0], None)).
  { eapply rtc_l; [exact (res_begin _ _ _ [] None (enter_call 1) E1)|].
    apply rtc_once. exact (res_io nat (bread ROOTDEV 40) s1 h _ [0] None (op_bread _ _) E3). }
  destruct (proj2 (proj2 (log_reservation LOGSIZE (share_log e) (wst s1 e2) [0] None (share_idle e) Hr))
    0%nat 0 _ 40 h eq_refl eq_refl R2 (lookup_insert_eq _ _ _)) as (s3 & E4); [right; split; discriminate|].
  exists e, s1, (wst s1 e2), h, s3. split; [exact E1|]. split; [exact E3|exact E4].
Defined.

(** Three calls write the blocks 32 to 60; the third then writes block 61. *)
Lemma reservation_exceeds_log_witness : exists (s' : log Bio.bcache) h, log_write h s' = Panic "too big a transaction" s'.
Proof.
  destruct share_rep as (e & R).
  destruct (reservation_exceeds_log (share_log e) share_v (seqZ 32 29) 61 (share_idle e) R eq_refl eq_refl)
    as (s' & v' & h & _ & _ & _ & E).
  - vm_compute. lia.
  - reflexivity.
  - apply (bool_decide_unpack _). vm_compute. exact I.
  - apply (bool_decide_unpack _). vm_compute. exact I.
  - exists s', h. exact E.
Defined.
End demo.
