(* ===== verification/Tx.v ===== *)
(** * Transactions (log.c as seen by fs.c)

    The log over a block store is what the file system writes through: inside
    [begin_op] and [end_op] it offers the operations of [TxStore] and keeps the
    promise of [TxStoreOk]. *)

From S2P Require Import Prelude Params Bytes Block Log.

#[local] Existing Instance Log.log_eta.

Section tx.
Context {S : Type} `{BlockStoreOk S}.
Notation L := (Log.log S).

#[export] Instance log_buffers : Buffers L := {
  bread dev bno := Log.io (bread dev bno);
  brelse b := Log.io (brelse b);
  b_data b := Log.io (b_data b);
  b_update b f := Log.io (b_update b f);
}.
#[export] Instance log_tx : TxStore L := {
  tx_buffers := log_buffers;
  log_write := Log.log_write;
}.

(** The log region of the disk, fixed by the super block. *)
Context (start size_ : Z).

(** One system call is in progress; the dirty blocks are those in the header,
    and they are home blocks. *)
Record in_tx (s : L) (v : bview) : Prop := {
  it_rep : rep (Log.store s) v;
  it_lock : Log.lock s = false;
  it_start : Log.start s = start;
  it_size : Log.size_ s = size_;
  it_geom : Log.geom s;
  it_out : Log.outstanding s = 1;
  it_comm : Log.committing s = 0;
  it_pinned : exists bs, Log.n s = Z.of_nat (length bs) /\ Log.listed s 0 bs /\ NoDup bs /\
    Forall (Log.home s) bs /\ pinned v = list_to_set bs;
}.

Lemma in_tx_store s v e v' : in_tx s v -> rep e v' -> pinned v' = pinned v -> in_tx (Log.wst s e) v'.
Proof.
  intros [] Hr Hp. split; try done; [by destruct it_geom0|]. rewrite Hp. done.
Qed.

#[export] Instance log_buffers_ok : @BuffersOk L log_buffers.
Proof.
  refine {| nblocks := nblocks; capacity := capacity; rep := in_tx |}.
  - intros s v w Hvw Hs. assert (Hp : pinned w = pinned v) by (symmetry; apply Hvw).
    rewrite <- (Log.wst_id s). eapply in_tx_store; [done| |done]. rewrite <- Hvw. apply Hs.
  - intros s v bn Hs. apply rep_len with (Log.store s). apply Hs.
  - intros s v bn Hs Hbn Hh Hc. destruct (bread_ok _ v bn (it_rep _ _ Hs) Hbn Hh Hc) as (h & e & E & R).
    exists h, (Log.wst s e). split; [|by eapply in_tx_store]. rewrite <- (Log.wst_id s) at 1. by apply Log.io_at.
  - intros s v bn h Hs Hh. pose proof (b_data_ok _ v bn h (it_rep _ _ Hs) Hh) as E.
    rewrite <- (Log.wst_id s). by apply Log.io_at.
  - intros s v bn h f Hs Hh Hl. destruct (b_update_ok _ v bn h f (it_rep _ _ Hs) Hh Hl) as (e & E & R).
    exists (Log.wst s e). split; [|by eapply in_tx_store]. rewrite <- (Log.wst_id s) at 1. by apply Log.io_at.
  - intros s v bn h Hs Hh Hc. destruct (brelse_ok _ v bn h (it_rep _ _ Hs) Hh Hc) as (e & E & R).
    exists (Log.wst s e). split; [|by eapply in_tx_store]. rewrite <- (Log.wst_id s) at 1. by apply Log.io_at.
Defined.

#[export] Instance log_tx_ok : @TxStoreOk L log_tx.
Proof.
  refine (@Build_TxStoreOk L log_tx log_buffers_ok (Z.to_nat (Z.min LOGSIZE (size_ - 1)))
    (fun bn => 0 <= bn < nblocks /\ ~ start <= bn < start + size_) _ _); [by intros bn [? _]|].
  intros s v bn h Hs Hh Hhome Hroom. destruct Hs as [H1 H2 H3 H4 H5 H6 H7 (bs & B1 & B2 & B3 & B4 & B5)].
  rewrite B5, size_list_to_set in Hroom by done.
  destruct (Log.log_write_run s v bs bn h) as (e & bl & E & Hbl & Hl & R); try done; [apply H5|lia|lia|lia|].
  eexists. split; [exact E|]. split; try done; simpl.
  - destruct H5. split; try done. simpl. congruence.
  - exists (Log.absorbed bs bn). split_and!; [done|exact Hl| | |].
    + unfold Log.absorbed. case_decide; [done|]. apply NoDup_app. split_and!; [done|set_solver|apply NoDup_singleton].
    + unfold Log.absorbed. case_decide; [done|]. apply Forall_app. split; [done|]. apply Forall_singleton.
      unfold Log.home, Log.in_disk, Log.in_log. simpl. by rewrite H3, H4.
    + rewrite B5. unfold Log.absorbed. case_decide; set_solver.
Defined.

(** ** Whole system calls *)

(** [fuel] bounds the wakeups of [begin_op]. *)
Context (fuel : nat).
#[export] Instance log_ops : TxOps L := {
  to_tx := log_tx;
  begin_op := Log.begin_op fuel;
  end_op := Log.end_op;
}.

(** No system call is in progress and the log is empty. *)
Record at_rest (s : L) (c : Z -> list Z) : Prop := {
  ar_lock : Log.lock s = false;
  ar_start : Log.start s = start;
  ar_size : Log.size_ s = size_;
  ar_geom : Log.geom s;
  ar_out : Log.outstanding s = 0;
  ar_comm : Log.committing s = 0;
  ar_n : Log.n s = 0;
  ar_rep : exists v, rep (Log.store s) v /\ held v = ∅ /\ pinned v = ∅ /\
    (forall x, cont v x = c x) /\ (forall x, dsk v x = c x);
}.

Lemma begin_rest s c : (0 < fuel)%nat -> at_rest s c -> Log.begin_op fuel s = Ret tt (s <| Log.outstanding := 1 |>).
Proof.
  intros Hf [A1 A2 A3 A4 A5 A6 A7 _]. unfold Log.begin_op.
  assert (Ha : Log.acquire s = Ret tt (s <| Log.lock := true |>)) by (unfold Log.acquire; by rewrite A1).
  run Ha. destruct fuel as [|f]; [lia|]. cbn [mwhile].
  assert (Hsp : Log.space (s <| Log.lock := true |>)).
  { split; [exact A6|]. simpl. rewrite A5, A7. unfold LOGSIZE, MAXOPBLOCKS. lia. }
  run (Log.begin_step_go (s <| Log.lock := true |>) eq_refl Hsp). unfold ret. destruct s. simpl in *. by subst.
Qed.

Context (Hfuel : (0 < fuel)%nat).
#[export] Instance log_ops_ok : @TxOpsOk L log_ops.
Proof.
  refine (@Build_TxOpsOk L log_ops log_tx_ok at_rest _ _).
  - intros s c Hr. pose proof Hr as [A1 A2 A3 A4 A5 A6 A7 (v & V1 & V2 & V3 & V4 & V5)].
    exists (s <| Log.outstanding := 1 |>), v. split_and!; [by eapply begin_rest| |done..].
    split; try done; [by destruct A4|]. exists []. split_and!; [done|by intros j b|constructor|constructor|by rewrite V3].
  - intros s v Hr Hh Hroom Hcap Hcl. change (in_tx s v) in Hr. destruct Hr as [H1 H2 H3 H4 H5 H6 H7 (bs & B1 & B2 & B3 & B4 & B5)].
    change (size (pinned v) <= Z.to_nat (Z.min LOGSIZE (size_ - 1)))%nat in Hroom.
    assert (Hlen : Z.of_nat (length bs) < size_).
    { pose proof (Log.ge_size s H5). rewrite B5, size_list_to_set in Hroom by done. lia. }
    assert (Hhome : forall b, b ∈ bs -> Log.home s b) by (by apply Forall_forall).
    assert (HT : Log.txn s v bs).
    { split; try done; [intros b Hb; rewrite B5; by apply elem_of_list_to_set| |by rewrite H4].
      intros x Hx Hp. rewrite B5, elem_of_list_to_set in Hp. by apply (Hhome x Hp). }
    destruct (Log.end_op_last s v bs) as (e & ws & E & R & Hd & Hw); [done|done|done|done| |done|done|].
    { intros x _ Hx. apply Hcl. by rewrite B5, elem_of_list_to_set. }
    assert (Hsame : forall x, cont (Log.vputs v ws) x = dsk (Log.vputs v ws) x).
    { intros x. rewrite Log.vputs_cont, Log.vputs_dsk. destruct (decide (x ∈ ws.*1)) as [Hx|Hx]; [by apply Log.apply_ws_base|].
      rewrite !Log.apply_ws_notin by done. apply Hcl. rewrite B5, elem_of_list_to_set. by intros ?%Hw. }
    eexists _, (dsk (Log.vputs v ws)). split; [exact E|]. split.
    + split; try done; [by destruct H5|]. exists (Log.vputs v ws). split_and!; [done|by rewrite Log.vputs_held| |done|done].
      apply set_eq. intros x. rewrite Log.vputs_pinned, B5, elem_of_list_to_set. split; [|set_solver]. intros [Hx Hn]. by destruct (Hn (Hw x Hx)).
    + intros x [Hx Hnl]. apply Hd. split; [done|]. unfold Log.in_log. by rewrite H3, H4.
Defined.
End tx.
