(* ===== verification/Fs.v ===== *)
(** * The file system (fs.c)

    Block allocation, inodes, file content, directories and path names, over
    any store with transactions.  A pointer to an inode is its index in
    [icache]; a null pointer is [None].  Memory that is read into or written
    from is the list of the bytes. *)

From S2P Require Import Prelude Params Bytes Str Sleeplock Block.

(** ** Layout (fs.h, param.h, stat.h) *)

Definition NINODE : nat := 50.
Definition NDEV : Z := 10.
Definition ROOTINO : Z := 1.
Definition NDIRECT : nat := 12.
Definition NINDIRECT : nat := BSIZE / 4.
Definition MAXFILE : nat := NDIRECT + NINDIRECT.
Definition sizeof_dinode : nat := 64.
Definition IPB : Z := Z.of_nat (BSIZE / sizeof_dinode).
Definition BPB : Z := Z.of_nat BSIZE * 8.
Definition DIRSIZ : nat := 14.
Definition sizeof_dirent : Z := 16.
Definition T_DIR : Z := 1.
Definition T_FILE : Z := 2.
Definition T_DEV : Z := 3.

Definition IBLOCK (i : Z) (sb : superblock) : Z := i / IPB + sb_inodestart sb.
Definition BBLOCK (b : Z) (sb : superblock) : Z := b / BPB + sb_bmapstart sb.

(** A C [short]. *)
Definition s16 (z : Z) : Z := (z + 2 ^ 15) mod 2 ^ 16 - 2 ^ 15.

(** [struct inode]. *)
Record inode := Inode {
  i_dev : Z;
  i_inum : Z;
  i_ref : Z;
  i_lk : Sleep.sleeplock;
  i_valid : Z;
  i_type : Z;
  i_major : Z;
  i_minor : Z;
  i_nlink : Z;
  i_size : Z;
  i_addrs : list Z;
}.
#[export] Instance inode_eta : Eta inode := fun r =>
  Inode (i_dev r) (i_inum r) (i_ref r) (i_lk r) (i_valid r) (i_type r) (i_major r) (i_minor r)
    (i_nlink r) (i_size r) (i_addrs r).

(** [struct stat] *)
Record stat := Stat { st_type : Z; st_dev : Z; st_ino : Z; st_nlink : Z; st_size : Z }.

(** [icache], the super block, and the store. *)
Record fs (T : Type) := MkFs {
  ic_lock : bool;
  inodes : list inode;
  sb : superblock;
  tx : T;
}.
Arguments MkFs {T}. Arguments ic_lock {T}. Arguments inodes {T}. Arguments sb {T}. Arguments tx {T}.
#[export] Instance fs_eta T : Eta (fs T) := fun r => MkFs (ic_lock r) (inodes r) (sb r) (tx r).

(** ** Pure parts *)

(** The dinode at byte [o] of a block: what [ilock] reads, [iupdate] writes. *)
Definition doff (inum : Z) : nat := (Z.to_nat (inum mod IPB) * sizeof_dinode)%nat.
Definition get_dinode (o : nat) (d : list Z) (ip : inode) : inode :=
  ip <| i_type := s16 (get16 o d) |> <| i_major := s16 (get16 (o + 2) d) |>
     <| i_minor := s16 (get16 (o + 4) d) |> <| i_nlink := s16 (get16 (o + 6) d) |>
     <| i_size := get32 (o + 8) d |>
     <| i_addrs := (fun k => get32 (o + 12 + 4 * k) d) <$> seq 0 (S NDIRECT) |>.
Definition put_dinode (o : nat) (ip : inode) (d : list Z) : list Z :=
  let d := put16 o (i_type ip) d in
  let d := put16 (o + 2) (i_major ip) d in
  let d := put16 (o + 4) (i_minor ip) d in
  let d := put16 (o + 6) (i_nlink ip) d in
  let d := put32 (o + 8) (i_size ip) d in
  splice (o + 12) (i_addrs ip ≫= le 4) d.

(** The free bit map: bit [bi] of the block [d]. *)
Definition bit_mask (bi : nat) : Z := Z.shiftl 1 (Z.of_nat (bi mod 8)).
Definition byte_at (d : list Z) (i : nat) : Z := default 0 (d !! i).
Definition bit_free (d : list Z) (bi : nat) : bool := Z.land (byte_at d (bi / 8)) (bit_mask bi) =? 0.
Definition set_bit (bi : nat) (d : list Z) : list Z :=
  <[(bi / 8)%nat := Z.lor (byte_at d (bi / 8)) (bit_mask bi)]> d.
Definition clear_bit (bi : nat) (d : list Z) : list Z :=
  <[(bi / 8)%nat := u8 (Z.land (byte_at d (bi / 8)) (Z.lnot (bit_mask bi)))]> d.
(** The inner loop of [balloc]: the first free one of [lim] bits from [bi]. *)
Fixpoint first_free (d : list Z) (bi lim : nat) : option nat :=
  match lim with
  | O => None
  | S lim => if bit_free d bi then Some bi else first_free d (S bi) lim
  end.

(** The values of a loop variable: 0, [step], 2 [step], ... below [z]. *)
Definition steps (step z : Z) : list Z := (fun k => step * Z.of_nat k) <$> seq 0 (Z.to_nat ((z + step - 1) / step)).

(** The loop of [iget] over the cache: an entry in use for the inode, or the
    first free entry. *)
Fixpoint iget_scan (l : list inode) (i : nat) (dev inum : Z) (empty : option nat) : nat + option nat :=
  match l with
  | [] => inr empty
  | ip :: l =>
      if (0 <? i_ref ip) && (i_dev ip =? dev) && (i_inum ip =? inum) then inl i
      else iget_scan l (S i) dev inum
             (match empty with None => if i_ref ip =? 0 then Some i else None | _ => empty end)
  end.

(** Path names, without their terminating 0. *)
Definition SLASH : Z := 47.
Fixpoint skip_slashes (path : list Z) : list Z :=
  match path with c :: p => if c =? SLASH then skip_slashes p else path | [] => [] end.
Fixpoint path_elem (path : list Z) : list Z * list Z :=
  match path with
  | c :: p => if c =? SLASH then ([], path) else let '(e, r) := path_elem p in (c :: e, r)
  | [] => ([], [])
  end.
(** [name] is the array of [DIRSIZ] bytes that is written to. *)
Definition skipelem (path name : list Z) : option (list Z * list Z) :=
  match skip_slashes path with
  | [] => None
  | path =>
      let '(s, path) := path_elem path in
      let name := if (DIRSIZ <=? length s)%nat then take DIRSIZ s
                  else s ++ [0] ++ drop (S (length s)) name in
      Some (skip_slashes path, name)
  end.

(** [struct dirent] *)
Definition de_inum (de : list Z) : Z := get16 0 de.
Definition de_name (de : list Z) : list Z := slice 2 DIRSIZ de.

Definition namecmp (s t : list Z) : option Z := strncmp s t DIRSIZ.

(** ** The operations *)

Section ops.
Context {T : Type} `{TxStore T}.
Notation F := (fs T).
(** The caller's pid, a bound on its wakeups while it waits for an inode, and
    the device switch [devsw]. *)
Context (mypid : Z) (fuel : nat).
Context (dev_read : Z -> option (nat -> Z -> M F (Z * list Z))).
Context (dev_write : Z -> option (nat -> list Z -> Z -> M F Z)).

Definition io {A} (m : M T A) : M F A := lift tx (fun e s => s <| tx := e |>) m.

Definition acquire : M F unit := fun s => if ic_lock s then Spin s else Ret tt (s <| ic_lock := true |>).
Definition release : M F unit := fun s =>
  if ic_lock s then Ret tt (s <| ic_lock := false |>) else Panic "release" s.

Definition get_ip (i : nat) : M F inode := fun s =>
  match inodes s !! i with Some ip => Ret ip s | None => Fault s end.
Definition set_ip (i : nat) (f : inode -> inode) : M F unit := fun s =>
  match inodes s !! i with Some ip => Ret tt (s <| inodes ::= <[i := f ip]> |>) | None => Fault s end.

Definition rd_lk (i : nat) : M F Sleep.sleeplock := ip <- get_ip i ;; ret (i_lk ip).
Definition wr_lk (i : nat) (l : Sleep.sleeplock) : M F unit := set_ip i (fun x => x <| i_lk := l |>).
Definition acquiresleep (i : nat) : M F unit := Sleep.acquiresleep (rd_lk i) (wr_lk i) mypid fuel.
Definition releasesleep (i : nat) : M F unit := Sleep.releasesleep (rd_lk i) (wr_lk i).
Definition holdingsleep (i : nat) : M F Z := Sleep.holdingsleep (rd_lk i) (wr_lk i).

Definition bzero (dev bno : Z) : M F unit :=
  bp <- io (bread dev bno) ;;
  io (b_update bp (fun _ => replicate BSIZE 0)) ;;;
  io (log_write bp) ;;;
  io (brelse bp).

(** One turn of the outer loop of [balloc]. *)
Definition balloc_step (dev : Z) (b : Z) : M F (option Z) :=
  s <- gets id ;;
  bp <- io (bread dev (BBLOCK b (sb s))) ;;
  d <- io (b_data bp) ;;
  match first_free d 0 (Z.to_nat (Z.min BPB (sb_size (sb s) - b))) with
  | Some bi =>
      io (b_update bp (set_bit bi)) ;;;
      io (log_write bp) ;;;
      io (brelse bp) ;;;
      bzero dev (b + Z.of_nat bi) ;;;
      ret (Some (b + Z.of_nat bi))
  | None => io (brelse bp) ;;; ret None
  end.
Definition balloc (dev : Z) : M F Z :=
  s <- gets id ;;
  r <- mfor (steps BPB (sb_size (sb s))) (balloc_step dev) ;;
  match r with Some b => ret b | None => panic "balloc: out of blocks" end.

Definition bfree (dev b : Z) : M F unit :=
  sb' <- io (readsb dev) ;;
  modify (fun s => s <| sb := sb' |>) ;;;
  bp <- io (bread dev (BBLOCK b sb')) ;;
  let bi := Z.to_nat (b mod BPB) in
  d <- io (b_data bp) ;;
  if bit_free d bi then panic "freeing free block"
  else
    io (b_update bp (clear_bit bi)) ;;;
    io (log_write bp) ;;;
    io (brelse bp).

Definition iinit (dev : Z) : M F unit :=
  modify (fun s => s <| ic_lock := false |>) ;;;
  meach (seq 0 NINODE) (fun i => set_ip i (fun ip => ip <| i_lk ::= Sleep.initsleeplock |>)) ;;;
  sb' <- io (readsb dev) ;;
  modify (fun s => s <| sb := sb' |>).

Definition iget (dev inum : Z) : M F nat :=
  acquire ;;;
  s <- gets id ;;
  match iget_scan (inodes s) 0 dev inum None with
  | inl i => set_ip i (fun ip => ip <| i_ref ::= Z.add 1 |>) ;;; release ;;; ret i
  | inr None => panic "iget: no inodes"
  | inr (Some i) =>
      set_ip i (fun ip => ip <| i_dev := dev |> <| i_inum := inum |> <| i_ref := 1 |> <| i_valid := 0 |>) ;;;
      release ;;; ret i
  end.

(** One turn of the loop of [ialloc]. *)
Definition ialloc_step (dev type : Z) (inum : nat) : M F (option nat) :=
  s <- gets id ;;
  bp <- io (bread dev (IBLOCK (Z.of_nat inum) (sb s))) ;;
  d <- io (b_data bp) ;;
  let o := doff (Z.of_nat inum) in
  if s16 (get16 o d) =? 0 then
    io (b_update bp (fun d => put16 o type (splice o (replicate sizeof_dinode 0) d))) ;;;
    io (log_write bp) ;;;
    io (brelse bp) ;;;
    i <- iget dev (Z.of_nat inum) ;;
    ret (Some i)
  else io (brelse bp) ;;; ret None.
Definition ialloc (dev type : Z) : M F nat :=
  s <- gets id ;;
  r <- mfor (seq 1 (Z.to_nat (sb_ninodes (sb s)) - 1)) (ialloc_step dev type) ;;
  match r with Some i => ret i | None => panic "ialloc: no inodes" end.

Definition iupdate (i : nat) : M F unit :=
  ip <- get_ip i ;;
  s <- gets id ;;
  bp <- io (bread (i_dev ip) (IBLOCK (i_inum ip) (sb s))) ;;
  io (b_update bp (put_dinode (doff (i_inum ip)) ip)) ;;;
  io (log_write bp) ;;;
  io (brelse bp).

Definition idup (i : nat) : M F nat :=
  acquire ;;; set_ip i (fun ip => ip <| i_ref ::= Z.add 1 |>) ;;; release ;;; ret i.

Definition ilock (i : nat) : M F unit :=
  ip <- get_ip i ;;
  if i_ref ip <? 1 then panic "ilock"
  else
    acquiresleep i ;;;
    ip <- get_ip i ;;
    when (i_valid ip =? 0)
      (s <- gets id ;;
       bp <- io (bread (i_dev ip) (IBLOCK (i_inum ip) (sb s))) ;;
       d <- io (b_data bp) ;;
       set_ip i (get_dinode (doff (i_inum ip)) d) ;;;
       io (brelse bp) ;;;
       set_ip i (fun ip => ip <| i_valid := 1 |>) ;;;
       ip <- get_ip i ;;
       when (i_type ip =? 0) (panic "ilock: no type")).

Definition iunlock (i : nat) : M F unit :=
  h <- holdingsleep i ;;
  ip <- get_ip i ;;
  if (h =? 0) || (i_ref ip <? 1) then panic "iunlock" else releasesleep i.

(** [bmap]: the block of the file, or one that is allocated. *)
Definition bmap (i : nat) (bn : Z) : M F Z :=
  ip <- get_ip i ;;
  if bn <? Z.of_nat NDIRECT then
    let addr := default 0 (i_addrs ip !! Z.to_nat bn) in
    if addr =? 0 then
      addr <- balloc (i_dev ip) ;;
      set_ip i (fun ip => ip <| i_addrs ::= <[Z.to_nat bn := addr]> |>) ;;;
      ret addr
    else ret addr
  else
    let bn := bn - Z.of_nat NDIRECT in
    if bn <? Z.of_nat NINDIRECT then
      let addr := default 0 (i_addrs ip !! NDIRECT) in
      addr <- (if addr =? 0 then
                 addr <- balloc (i_dev ip) ;;
                 set_ip i (fun ip => ip <| i_addrs ::= <[NDIRECT := addr]> |>) ;;;
                 ret addr
               else ret addr) ;;
      bp <- io (bread (i_dev ip) addr) ;;
      d <- io (b_data bp) ;;
      let addr := get32 (4 * Z.to_nat bn) d in
      addr <- (if addr =? 0 then
                 addr <- balloc (i_dev ip) ;;
                 io (b_update bp (put32 (4 * Z.to_nat bn) addr)) ;;;
                 io (log_write bp) ;;;
                 ret addr
               else ret addr) ;;
      io (brelse bp) ;;;
      ret addr
    else panic "bmap: out of range".

Definition itrunc (i : nat) : M F unit :=
  meach (seq 0 NDIRECT) (fun k =>
    ip <- get_ip i ;;
    let a := default 0 (i_addrs ip !! k) in
    when (negb (a =? 0))
      (bfree (i_dev ip) a ;;;
       set_ip i (fun ip => ip <| i_addrs ::= <[k := 0]> |>))) ;;;
  ip <- get_ip i ;;
  let ind := default 0 (i_addrs ip !! NDIRECT) in
  when (negb (ind =? 0))
    (bp <- io (bread (i_dev ip) ind) ;;
     meach (seq 0 NINDIRECT) (fun j =>
       d <- io (b_data bp) ;;
       let a := get32 (4 * j) d in
       when (negb (a =? 0)) (bfree (i_dev ip) a)) ;;;
     io (brelse bp) ;;;
     bfree (i_dev ip) ind ;;;
     set_ip i (fun ip => ip <| i_addrs ::= <[NDIRECT := 0]> |>)) ;;;
  set_ip i (fun ip => ip <| i_size := 0 |>) ;;;
  iupdate i.

Definition iput (i : nat) : M F unit :=
  acquiresleep i ;;;
  ip <- get_ip i ;;
  when (negb (i_valid ip =? 0) && (i_nlink ip =? 0))
    (acquire ;;;
     ip <- get_ip i ;;
     let r := i_ref ip in
     release ;;;
     when (r =? 1)
       (itrunc i ;;;
        set_ip i (fun ip => ip <| i_type := 0 |>) ;;;
        iupdate i ;;;
        set_ip i (fun ip => ip <| i_valid := 0 |>))) ;;;
  releasesleep i ;;;
  acquire ;;;
  set_ip i (fun ip => ip <| i_ref ::= fun r => r - 1 |>) ;;;
  release.

Definition iunlockput (i : nat) : M F unit := iunlock i ;;; iput i.

Definition stati (i : nat) : M F stat :=
  ip <- get_ip i ;; ret (Stat (i_type ip) (i_dev ip) (i_inum ip) (i_nlink ip) (i_size ip)).

(** One turn of the loop of [readi]: [tot], [off] and the bytes read. *)
Definition readi_step (i : nat) (n : Z) (x : Z * Z * list Z) : M F ((Z * Z * list Z) + list Z) :=
  let '(tot, off, acc) := x in
  if tot <? n then
    ip <- get_ip i ;;
    bno <- bmap i (off / Z.of_nat BSIZE) ;;
    bp <- io (bread (i_dev ip) bno) ;;
    let m := Z.min (n - tot) (Z.of_nat BSIZE - off mod Z.of_nat BSIZE) in
    d <- io (b_data bp) ;;
    io (brelse bp) ;;;
    ret (inl (tot + m, u32 (off + m), acc ++ slice (Z.to_nat (off mod Z.of_nat BSIZE)) (Z.to_nat m) d))
  else ret (inr acc).

(** The count or -1, and the bytes copied to [dst]. *)
Definition readi (i : nat) (off n : Z) : M F (Z * list Z) :=
  ip <- get_ip i ;;
  if i_type ip =? T_DEV then
    if (i_major ip <? 0) || (NDEV <=? i_major ip) then ret (-1, [])
    else match dev_read (i_major ip) with None => ret (-1, []) | Some f => f i n end
  else if (i_size ip <? off) || (u32 (off + n) <? off) then ret (-1, [])
  else
    let n := if i_size ip <? u32 (off + n) then i_size ip - off else n in
    bs <- mwhile (S (Z.to_nat n)) (readi_step i n) (0, off, []) ;;
    ret (n, bs).

(** One turn of the loop of [writei]; [src] are the bytes still to write. *)
Definition writei_step (i : nat) (n : Z) (x : Z * Z * list Z) : M F ((Z * Z * list Z) + Z) :=
  let '(tot, off, src) := x in
  if tot <? n then
    ip <- get_ip i ;;
    bno <- bmap i (off / Z.of_nat BSIZE) ;;
    bp <- io (bread (i_dev ip) bno) ;;
    let m := Z.min (n - tot) (Z.of_nat BSIZE - off mod Z.of_nat BSIZE) in
    io (b_update bp (splice (Z.to_nat (off mod Z.of_nat BSIZE)) (take (Z.to_nat m) src))) ;;;
    io (log_write bp) ;;;
    io (brelse bp) ;;;
    ret (inl (tot + m, u32 (off + m), drop (Z.to_nat m) src))
  else ret (inr off).

Definition writei (i : nat) (src : list Z) (off n : Z) : M F Z :=
  ip <- get_ip i ;;
  if i_type ip =? T_DEV then
    if (i_major ip <? 0) || (NDEV <=? i_major ip) then ret (-1)
    else match dev_write (i_major ip) with None => ret (-1) | Some f => f i src n end
  else if (i_size ip <? off) || (u32 (off + n) <? off) then ret (-1)
  else if Z.of_nat (MAXFILE * BSIZE) <? u32 (off + n) then ret (-1)
  else
    off <- mwhile (S (Z.to_nat n)) (writei_step i n) (0, off, src) ;;
    ip <- get_ip i ;;
    when ((0 <? n) && (i_size ip <? off))
      (set_ip i (fun ip => ip <| i_size := off |>) ;;; iupdate i) ;;;
    ret n.

(** The entry at [off]; [None] in the result means that the search goes on. *)
Definition lookup_step (i : nat) (name : list Z) (off : Z) : M F (option (nat * Z)) :=
  r <- readi i off sizeof_dirent ;;
  if negb (r.1 =? sizeof_dirent) then panic "dirlookup read"
  else if de_inum r.2 =? 0 then ret None
  else match namecmp name (de_name r.2) with
       | None => fault
       | Some c =>
           if c =? 0 then
             ip <- get_ip i ;; j <- iget (i_dev ip) (de_inum r.2) ;; ret (Some (j, off))
           else ret None
       end.

(** The inode with its offset [*poff]. *)
Definition dirlookup (i : nat) (name : list Z) : M F (option (nat * Z)) :=
  ip <- get_ip i ;;
  if negb (i_type ip =? T_DIR) then panic "dirlookup not DIR"
  else mfor (steps sizeof_dirent (i_size ip)) (lookup_step i name).

(** The search of [dirlink] for a free entry. *)
Definition free_step (i : nat) (off : Z) : M F (option Z) :=
  r <- readi i off sizeof_dirent ;;
  if negb (r.1 =? sizeof_dirent) then panic "dirlink read"
  else if de_inum r.2 =? 0 then ret (Some off) else ret None.

(** [strncpy] writes all bytes of [de.name], whatever they were. *)
Definition dirlink (i : nat) (name : list Z) (inum : Z) : M F Z :=
  r <- dirlookup i name ;;
  match r with
  | Some (j, _) => iput j ;;; ret (-1)
  | None =>
      ip <- get_ip i ;;
      let offs := steps sizeof_dirent (i_size ip) in
      r <- mfor offs (free_step i) ;;
      let off := match r with Some o => o | None => sizeof_dirent * Z.of_nat (length offs) end in
      match strncpy (replicate DIRSIZ 0) name DIRSIZ with
      | None => fault
      | Some nm =>
          w <- writei i (le 2 inum ++ nm) off sizeof_dirent ;;
          if negb (w =? sizeof_dirent) then panic "dirlink" else ret 0
      end
  end.

(** One turn of the loop of [namex]: the inode, the path, the name array. *)
Definition namex_step (parent : bool) (x : nat * list Z * list Z)
  : M F ((nat * list Z * list Z) + (option nat * list Z)) :=
  let '(i, path, name) := x in
  match skipelem path name with
  | None => if parent then iput i ;;; ret (inr (None, name)) else ret (inr (Some i, name))
  | Some (path, name) =>
      ilock i ;;;
      ip <- get_ip i ;;
      if negb (i_type ip =? T_DIR) then iunlockput i ;;; ret (inr (None, name))
      else if parent && match path with [] => true | _ => false end then
        iunlock i ;;; ret (inr (Some i, name))
      else
        r <- dirlookup i name ;;
        match r with
        | None => iunlockput i ;;; ret (inr (None, name))
        | Some (next, _) => iunlockput i ;;; ret (inl (next, path, name))
        end
  end.

(** [cwd] is [myproc()->cwd]. *)
Definition namex (cwd : nat) (path : list Z) (parent : bool) (name : list Z) : M F (option nat * list Z) :=
  i <- (match path with
        | c :: _ => if c =? SLASH then iget ROOTDEV ROOTINO else idup cwd
        | [] => idup cwd
        end) ;;
  mwhile (S (length path)) (namex_step parent) (i, path, name).

Definition namei (cwd : nat) (path name0 : list Z) : M F (option nat) :=
  r <- namex cwd path false name0 ;; ret r.1.
Definition nameiparent (cwd : nat) (path name : list Z) : M F (option nat * list Z) :=
  namex cwd path true name.
End ops.
