(* ===== verification/File.v ===== *)
(** * Open files (file.c, pipealloc of pipe.c)

    The table of open files over the file system, the pipes and the page
    allocator.  A pointer to a file is its index in [ftable.file], a pointer to
    a pipe is the address of its page. *)

From S2P Require Import Prelude Params Bytes Str Sleeplock Block Fs.
From S2P Require Pipe Kalloc.

(** file.h *)
Inductive fdtype := FD_NONE | FD_PIPE | FD_INODE.
Record file := MkFile {
  f_type : fdtype;
  f_ref : Z;
  f_readable : Z;
  f_writable : Z;
  f_pipe : Z;
  f_ip : option nat;
  f_off : Z;
}.
#[export] Instance file_eta : Eta file := fun r =>
  MkFile (f_type r) (f_ref r) (f_readable r) (f_writable r) (f_pipe r) (f_ip r) (f_off r).

(** The process that makes the system call: its open files and its current
    directory, its memory and the size of it, its stack pointer, and whether it
    has been killed. *)
Record caller := Caller {
  c_ofile : list (option nat);
  c_cwd : nat;
  c_mem : Z -> Z;
  c_sz : Z;
  c_esp : Z;
  c_killed : bool;
}.
#[export] Instance caller_eta : Eta caller := fun r =>
  Caller (c_ofile r) (c_cwd r) (c_mem r) (c_sz r) (c_esp r) (c_killed r).

Record ker (T : Type) := MkKer {
  ft_lock : bool;
  files : list file;
  fsys : fs T;
  kpages : Kalloc.Kalloc.kmem;
  kpipes : gmap Z Pipe.Pipe.pipe;
  cur : caller;
}.
Arguments MkKer {T}. Arguments ft_lock {T}. Arguments files {T}. Arguments fsys {T}. Arguments kpages {T}. Arguments kpipes {T}. Arguments cur {T}.
#[export] Instance ker_eta T : Eta (ker T) := fun r => MkKer (ft_lock r) (files r) (fsys r) (kpages r) (kpipes r) (cur r).

(** [((MAXOPBLOCKS-1-1-2) / 2) * 512], the bytes that [filewrite] writes in one
    transaction. *)
Definition write_max : Z := (MAXOPBLOCKS - 1 - 1 - 2) / 2 * 512.

#[local] Existing Instance Pipe.Pipe.pipe_eta.

Section ops.
Context {T : Type} `{TxOps T}.
Notation K := (ker T).
(** The caller's pid, bounds on its wakeups while it waits for an inode and for
    a pipe, the device switch, and the end of the kernel's image. *)
Context (mypid : Z) (fuel pfuel : nat).
Context (dev_read : Z -> option (nat -> Z -> M (fs T) (Z * list Z))).
Context (dev_write : Z -> option (nat -> list Z -> Z -> M (fs T) Z)).
Context (end_ : Z).

Definition on_fs {A} (m : M (fs T) A) : M K A := lift fsys (fun e s => s <| fsys := e |>) m.
Definition on_pages {A} (m : M Kalloc.Kalloc.kmem A) : M K A := lift kpages (fun e s => s <| kpages := e |>) m.
Definition begin_op : M K unit := on_fs (io begin_op).
Definition end_op : M K unit := on_fs (io end_op).

Definition acquire : M K unit := fun s => if ft_lock s then Spin s else Ret tt (s <| ft_lock := true |>).
Definition release : M K unit := fun s =>
  if ft_lock s then Ret tt (s <| ft_lock := false |>) else Panic "release" s.

Definition get_file (k : nat) : M K file := fun s =>
  match files s !! k with Some f => Ret f s | None => Fault s end.
Definition set_file (k : nat) (g : file -> file) : M K unit := fun s =>
  match files s !! k with Some f => Ret tt (s <| files ::= <[k := g f]> |>) | None => Fault s end.
(** [f->ip], dereferenced by what follows. *)
Definition file_ip (f : file) : M K nat := match f_ip f with Some i => ret i | None => fault end.

(** A routine of pipe.c on the pipe at [p]. *)
Definition the_pipe (p : Z) (s : K) : Pipe.Pipe.pipe :=
  (default (Pipe.Pipe.MkPipe false [] 0 0 0 0 false false false false [] [] 0) (kpipes s !! p))
    <| Pipe.Pipe.killed := c_killed (cur s) |>.
Definition on_pipe {A} (p : Z) (m : M Pipe.Pipe.pipe A) : M K A := fun s =>
  match kpipes s !! p with
  | None => Fault s
  | Some _ => lift (the_pipe p) (fun x s => s <| kpipes ::= <[p := x]> |>) m s
  end.

(** ** The table of open files *)

Definition fileinit : M K unit := modify (fun s => s <| ft_lock := false |>).

Fixpoint free_file (l : list file) (k : nat) : option nat :=
  match l with
  | [] => None
  | f :: l => if f_ref f =? 0 then Some k else free_file l (S k)
  end.
Definition filealloc : M K (option nat) :=
  acquire ;;;
  l <- gets files ;;
  match free_file l 0 with
  | Some k => set_file k (fun f => f <| f_ref := 1 |>) ;;; release ;;; ret (Some k)
  | None => release ;;; ret None
  end.

Definition filedup (k : nat) : M K nat :=
  acquire ;;;
  f <- get_file k ;;
  if f_ref f <? 1 then panic "filedup"
  else set_file k (fun f => f <| f_ref ::= Z.add 1 |>) ;;; release ;;; ret k.

(** [pipeclose], and the [kfree] in it of the page of the pipe. *)
Definition pipeclose (p : Z) (writable : Z) : M K unit :=
  on_pipe p (Pipe.Pipe.pipeclose (negb (writable =? 0))) ;;;
  q <- gets (the_pipe p) ;;
  when (Pipe.Pipe.freed q)
    (on_pages (Kalloc.Kalloc.kfree end_ p) ;;; modify (fun s => s <| kpipes ::= delete p |>)).

Definition fileclose (k : nat) : M K unit :=
  acquire ;;;
  f <- get_file k ;;
  if f_ref f <? 1 then panic "fileclose"
  else
    set_file k (fun f => f <| f_ref ::= fun r => r - 1 |>) ;;;
    if 0 <? f_ref f - 1 then release
    else
      ff <- get_file k ;;
      set_file k (fun f => f <| f_ref := 0 |> <| f_type := FD_NONE |>) ;;;
      release ;;;
      match f_type ff with
      | FD_PIPE => pipeclose (f_pipe ff) (f_writable ff)
      | FD_INODE =>
          begin_op ;;;
          i <- file_ip ff ;;
          on_fs (iput mypid fuel i) ;;;
          end_op
      | FD_NONE => ret tt
      end.

(** [None] for -1. *)
Definition filestat (k : nat) : M K (option stat) :=
  f <- get_file k ;;
  match f_type f with
  | FD_INODE =>
      i <- file_ip f ;;
      on_fs (ilock mypid fuel i) ;;;
      st <- on_fs (stati i) ;;
      on_fs (iunlock i) ;;;
      ret (Some st)
  | _ => ret None
  end.

(** The count or -1, and the bytes copied to [addr]. *)
Definition fileread (k : nat) (n : Z) : M K (Z * list Z) :=
  f <- get_file k ;;
  if f_readable f =? 0 then ret (-1, [])
  else match f_type f with
  | FD_PIPE =>
      r <- on_pipe (f_pipe f) (Pipe.Pipe.piperead pfuel n) ;;
      match r with None => ret (-1, []) | Some bs => ret (Z.of_nat (length bs), bs) end
  | FD_INODE =>
      i <- file_ip f ;;
      on_fs (ilock mypid fuel i) ;;;
      f <- get_file k ;;
      r <- on_fs (readi dev_read i (f_off f) (u32 n)) ;;
      when (0 <? r.1) (set_file k (fun f => f <| f_off ::= fun o => u32 (o + r.1) |>)) ;;;
      on_fs (iunlock i) ;;;
      ret r
  | FD_NONE => panic "fileread"
  end.

(** [n] is not negative in [filewrite], as [argptr] ensures.  One turn of its
    loop, at [j] (the variable [i]): the next
    one, or its last value.  [src] are the bytes at [addr]. *)
Definition write_step (k i : nat) (src : list Z) (n : Z) (j : Z) : M K (Z + Z) :=
  if j <? n then
    let n1 := Z.min (n - j) write_max in
    begin_op ;;;
    on_fs (ilock mypid fuel i) ;;;
    f <- get_file k ;;
    r <- on_fs (writei dev_write i (take (Z.to_nat n1) (drop (Z.to_nat j) src)) (f_off f) n1) ;;
    when (0 <? r) (set_file k (fun f => f <| f_off ::= fun o => u32 (o + r) |>)) ;;;
    on_fs (iunlock i) ;;;
    end_op ;;;
    if r <? 0 then ret (inr j)
    else if negb (r =? n1) then panic "short filewrite"
    else ret (inl (j + r))
  else ret (inr j).

Definition filewrite (k : nat) (src : list Z) (n : Z) : M K Z :=
  f <- get_file k ;;
  if f_writable f =? 0 then ret (-1)
  else match f_type f with
  | FD_PIPE => on_pipe (f_pipe f) (Pipe.Pipe.pipewrite pfuel src n)
  | FD_INODE =>
      i <- file_ip f ;;
      j <- mwhile (S (Z.to_nat n)) (write_step k i src n) 0 ;;
      ret (if j =? n then n else -1)
  | FD_NONE => panic "filewrite"
  end.

(** ** [pipealloc] *)

(** The offset of [data] in [struct pipe], after the spin lock. *)
Definition pipe_data_off : nat := 52.

(** The exit with -1. *)
Definition pipealloc_bad (p : Z) (f0 f1 : option nat) : M K (option (nat * nat)) :=
  when (negb (p =? 0)) (on_pages (Kalloc.Kalloc.kfree end_ p)) ;;;
  (if f0 is Some f then fileclose f else ret tt) ;;;
  (if f1 is Some f then fileclose f else ret tt) ;;;
  ret None.

Definition pipealloc : M K (option (nat * nat)) :=
  f0 <- filealloc ;;
  match f0 with
  | None => pipealloc_bad 0 None None
  | Some a =>
      f1 <- filealloc ;;
      match f1 with
      | None => pipealloc_bad 0 (Some a) None
      | Some b =>
          p <- on_pages Kalloc.Kalloc.kalloc ;;
          if p =? 0 then pipealloc_bad 0 (Some a) (Some b)
          else
            modify (fun s => s <| kpipes ::= <[p :=
              Pipe.Pipe.MkPipe false (slice pipe_data_off (Z.to_nat Pipe.Pipe.PIPESIZE)
                  (default [] (Kalloc.Kalloc.pages (kpages s) !! p)))
                0 0 1 1 false false false false [] [] 0]> |>) ;;;
            set_file a (fun f => f <| f_type := FD_PIPE |> <| f_readable := 1 |> <| f_writable := 0 |> <| f_pipe := p |>) ;;;
            set_file b (fun f => f <| f_type := FD_PIPE |> <| f_readable := 0 |> <| f_writable := 1 |> <| f_pipe := p |>) ;;;
            ret (Some (a, b))
      end
  end.
End ops.
