(* ===== verification/SysFile.v ===== *)
(** * System calls on files (sysfile.c)

    The handlers of sysfile.c for the process that makes the call. *)

From S2P Require Import Prelude Params Bytes Str Sleeplock Block Fs Args File.
From S2P Require Pipe Kalloc.

(** fcntl.h *)
Definition O_RDONLY : Z := 0.
Definition O_WRONLY : Z := 1.
Definition O_RDWR : Z := 2.
Definition O_CREATE : Z := 512.

(** Conversion to [short]. *)
Definition s16 (z : Z) : Z := (z + 2 ^ 15) mod 2 ^ 16 - 2 ^ 15.

(** [!!(x & m)] *)
Definition flag (x m : Z) : bool := negb (Z.land x m =? 0).
Definition of_bool (b : bool) : Z := if b then 1 else 0.

Definition DOT : list Z := [46; 0].
Definition DOTDOT : list Z := [46; 46; 0].

Section ops.
Context {T : Type} `{TxOps T}.
Notation K := (ker T).
Context (mypid : Z) (fuel pfuel : nat).
Context (dev_read : Z -> option (nat -> Z -> M (fs T) (Z * list Z))).
Context (dev_write : Z -> option (nat -> list Z -> Z -> M (fs T) Z)).
Context (end_ : Z).
(** The bytes of an array [name] that was not initialised. *)
Context (name0 : list Z).
(** exec.c *)
Context (exec : list Z -> list (list Z) -> M K Z).

Notation fileclose := (fileclose mypid fuel end_).
Notation ilock i := (on_fs (ilock mypid fuel i)).
Notation iunlock i := (on_fs (iunlock i)).
Notation iput i := (on_fs (iput mypid fuel i)).
Notation iunlockput i := (on_fs (iunlockput mypid fuel i)).
Notation iupdate i := (on_fs (iupdate i)).
Notation ialloc dev type := (on_fs (ialloc dev type)).
Notation dirlookup i name := (on_fs (dirlookup dev_read i name)).
Notation dirlink i name inum := (on_fs (dirlink mypid fuel dev_read dev_write i name inum)).
Notation get_ip i := (on_fs (get_ip i)).
Notation set_ip i f := (on_fs (set_ip i f)).

(** [namei] and [nameiparent] with the current directory of the process. *)
Definition namei (path : list Z) : M K (option nat) :=
  c <- gets cur ;; on_fs (namei mypid fuel dev_read (c_cwd c) path name0).
Definition nameiparent (path : list Z) : M K (option nat * list Z) :=
  c <- gets cur ;; on_fs (nameiparent mypid fuel dev_read (c_cwd c) path name0).

(** ** Arguments *)

Definition arg_int (n : Z) : M K (option Z) :=
  c <- gets cur ;; ret (argint (c_mem c) (c_sz c) (c_esp c) n).
Definition arg_ptr (n size : Z) : M K (option Z) :=
  c <- gets cur ;; ret (argptr (c_mem c) (c_sz c) (c_esp c) n size).
(** The characters of the string. *)
Definition arg_str (n : Z) : M K (option (list Z)) :=
  c <- gets cur ;;
  ret (x ← argstr (c_mem c) (c_sz c) (c_esp c) n; Some (c_mem c <$> seqZ x.1 x.2)).

(** Reads and writes of the memory of the process. *)
Definition load_bytes (a n : Z) : M K (list Z) := c <- gets cur ;; ret (c_mem c <$> seqZ a n).
Definition store_bytes (a : Z) (bs : list Z) : M K unit :=
  modify (fun s => s <| cur ::= fun c => c <| c_mem ::= fun mem x =>
    default (mem x) (if x <? a then None else bs !! Z.to_nat (x - a)) |> |>).

(** The descriptor and the file. *)
Definition argfd (n : Z) : M K (option (nat * nat)) :=
  o <- arg_int n ;;
  c <- gets cur ;;
  ret (fd ← o; if (fd <? 0) || (Z.of_nat NOFILE <=? fd) then None
               else f ← mjoin (c_ofile c !! Z.to_nat fd); Some (Z.to_nat fd, f)).

Fixpoint free_fd (l : list (option nat)) (fd : nat) : option nat :=
  match l with
  | [] => None
  | o :: l => if o is Some _ then free_fd l (S fd) else Some fd
  end.
Definition set_fd (fd : nat) (o : option nat) : M K unit :=
  modify (fun s => s <| cur ::= fun c => c <| c_ofile ::= <[fd := o]> |> |>).
Definition fdalloc (f : nat) : M K Z :=
  c <- gets cur ;;
  match free_fd (take NOFILE (c_ofile c)) 0 with
  | Some fd => set_fd fd (Some f) ;;; ret (Z.of_nat fd)
  | None => ret (-1)
  end.

(** ** Calls on descriptors *)

Definition sys_dup : M K Z :=
  o <- argfd 0 ;;
  match o with
  | None => ret (-1)
  | Some (_, f) =>
      fd <- fdalloc f ;;
      if fd <? 0 then ret (-1) else filedup f ;;; ret fd
  end.

Definition sys_read : M K Z :=
  o <- argfd 0 ;;
  match o with
  | None => ret (-1)
  | Some (_, f) =>
      on <- arg_int 2 ;;
      match on with
      | None => ret (-1)
      | Some n =>
          op <- arg_ptr 1 n ;;
          match op with
          | None => ret (-1)
          | Some p =>
              r <- fileread mypid fuel pfuel dev_read f n ;;
              store_bytes p r.2 ;;;
              ret r.1
          end
      end
  end.

Definition sys_write : M K Z :=
  o <- argfd 0 ;;
  match o with
  | None => ret (-1)
  | Some (_, f) =>
      on <- arg_int 2 ;;
      match on with
      | None => ret (-1)
      | Some n =>
          op <- arg_ptr 1 n ;;
          match op with
          | None => ret (-1)
          | Some p => src <- load_bytes p n ;; filewrite mypid fuel pfuel dev_write f src n
          end
      end
  end.

Definition sys_close : M K Z :=
  o <- argfd 0 ;;
  match o with
  | None => ret (-1)
  | Some (fd, f) => set_fd fd None ;;; fileclose f ;;; ret 0
  end.

(** [sizeof(struct stat)], with the padding after the two shorts. *)
Definition sizeof_stat : Z := 20.
Definition store_stat (p : Z) (st : stat) : M K unit :=
  store_bytes (p + 4) (le 4 (st_dev st)) ;;;
  store_bytes (p + 8) (le 4 (st_ino st)) ;;;
  store_bytes p (le 2 (st_type st)) ;;;
  store_bytes (p + 12) (le 2 (st_nlink st)) ;;;
  store_bytes (p + 16) (le 4 (st_size st)).

Definition sys_fstat : M K Z :=
  o <- argfd 0 ;;
  match o with
  | None => ret (-1)
  | Some (_, f) =>
      op <- arg_ptr 1 sizeof_stat ;;
      match op with
      | None => ret (-1)
      | Some p =>
          r <- filestat mypid fuel f ;;
          match r with None => ret (-1) | Some st => store_stat p st ;;; ret 0 end
      end
  end.

(** ** Calls on paths *)

(** [ip->nlink++] and [ip->nlink--] *)
Definition link_up (ip : inode) : inode := ip <| i_nlink ::= fun n => s16 (n + 1) |>.
Definition link_down (ip : inode) : inode := ip <| i_nlink ::= fun n => s16 (n - 1) |>.

(** The exit [bad] of [sys_link]. *)
Definition link_bad (i : nat) : M K Z :=
  ilock i ;;;
  set_ip i link_down ;;;
  iupdate i ;;;
  iunlockput i ;;;
  end_op ;;;
  ret (-1).

Definition sys_link : M K Z :=
  oold <- arg_str 0 ;;
  match oold with
  | None => ret (-1)
  | Some old =>
      onew <- arg_str 1 ;;
      match onew with
      | None => ret (-1)
      | Some new =>
          begin_op ;;;
          oi <- namei old ;;
          match oi with
          | None => end_op ;;; ret (-1)
          | Some i =>
              ilock i ;;;
              ip <- get_ip i ;;
              if i_type ip =? T_DIR then iunlockput i ;;; end_op ;;; ret (-1)
              else
                set_ip i link_up ;;;
                iupdate i ;;;
                iunlock i ;;;
                r <- nameiparent new ;;
                match r.1 with
                | None => link_bad i
                | Some d =>
                    ilock d ;;;
                    dp <- get_ip d ;;
                    ip <- get_ip i ;;
                    z <- (if negb (i_dev dp =? i_dev ip) then ret (-1) else dirlink d r.2 (i_inum ip)) ;;
                    if z <? 0 then iunlockput d ;;; link_bad i
                    else
                      iunlockput d ;;;
                      iput i ;;;
                      end_op ;;;
                      ret 0
                end
          end
      end
  end.

(** One turn of the loop of [isdirempty]. *)
Definition empty_step (d : nat) (off : Z) : M K (option Z) :=
  r <- on_fs (readi dev_read d off sizeof_dirent) ;;
  if negb (r.1 =? sizeof_dirent) then panic "isdirempty: readi"
  else if negb (de_inum r.2 =? 0) then ret (Some 0) else ret None.
Definition isdirempty (d : nat) : M K Z :=
  dp <- get_ip d ;;
  r <- mfor (drop 2 (steps sizeof_dirent (i_size dp))) (empty_step d) ;;
  ret (default 1 r).

(** [namecmp(name, s) == 0] *)
Definition same_name (name s : list Z) : M K bool :=
  match namecmp name s with None => fault | Some z => ret (z =? 0) end.

(** The exit [bad] of [sys_unlink]. *)
Definition unlink_bad (d : nat) : M K Z := iunlockput d ;;; end_op ;;; ret (-1).

(** [sys_unlink] from the entry at [off] for the inode [i] on. *)
Definition unlink_entry (d i : nat) (off : Z) : M K Z :=
  ilock i ;;;
  ip <- get_ip i ;;
  if i_nlink ip <? 1 then panic "unlink: nlink < 1"
  else
    e <- (if i_type ip =? T_DIR then isdirempty i else ret 1) ;;
    if e =? 0 then iunlockput i ;;; unlink_bad d
    else
      w <- on_fs (writei dev_write d (replicate 16 0) off sizeof_dirent) ;;
      if negb (w =? sizeof_dirent) then panic "unlink: writei"
      else
        when (i_type ip =? T_DIR) (set_ip d link_down ;;; iupdate d) ;;;
        iunlockput d ;;;
        set_ip i link_down ;;;
        iupdate i ;;;
        iunlockput i ;;;
        end_op ;;;
        ret 0.

Definition sys_unlink : M K Z :=
  opath <- arg_str 0 ;;
  match opath with
  | None => ret (-1)
  | Some path =>
      begin_op ;;;
      r <- nameiparent path ;;
      match r.1 with
      | None => end_op ;;; ret (-1)
      | Some d =>
          ilock d ;;;
          dot <- same_name r.2 DOT ;;
          dotdot <- (if (dot : bool) then ret true else same_name r.2 DOTDOT) ;;
          if (dotdot : bool) then unlink_bad d
          else
            o <- dirlookup d r.2 ;;
            match o with
            | None => unlink_bad d
            | Some (i, off) => unlink_entry d i off
            end
      end
  end.

(** [create] from the allocation of the inode on. *)
Definition create_new (d : nat) (name : list Z) (type major minor : Z) : M K (option nat) :=
  dp <- get_ip d ;;
  i <- ialloc (i_dev dp) type ;;
  ilock i ;;;
  set_ip i (fun ip => ip <| i_major := major |> <| i_minor := minor |> <| i_nlink := 1 |>) ;;;
  iupdate i ;;;
  ip <- get_ip i ;;
  when (type =? T_DIR)
    (set_ip d link_up ;;;
     iupdate d ;;;
     z1 <- dirlink i DOT (i_inum ip) ;;
     z2 <- (if z1 <? 0 then ret z1 else dp <- get_ip d ;; dirlink i DOTDOT (i_inum dp)) ;;
     when (z2 <? 0) (panic "create dots")) ;;;
  z <- dirlink d name (i_inum ip) ;;
  if z <? 0 then panic "create: dirlink"
  else iunlockput d ;;; ret (Some i).

(** [ialloc] panics and does not return 0, so that the check for it in the
    source is void.  The inode is returned locked. *)
Definition create (path : list Z) (type major minor : Z) : M K (option nat) :=
  r <- nameiparent path ;;
  match r.1 with
  | None => ret None
  | Some d =>
      ilock d ;;;
      o <- dirlookup d r.2 ;;
      match o with
      | Some (i, _) =>
          iunlockput d ;;;
          ilock i ;;;
          ip <- get_ip i ;;
          if (type =? T_FILE) && (i_type ip =? T_FILE) then ret (Some i)
          else iunlockput i ;;; ret None
      | None => create_new d r.2 type major minor
      end
  end.

(** [sys_open] from the locked inode [i] on. *)
Definition open_inode (i : nat) (omode : Z) : M K Z :=
  o <- filealloc ;;
  match o with
  | None => iunlockput i ;;; end_op ;;; ret (-1)
  | Some f =>
      fd <- fdalloc f ;;
      if fd <? 0 then fileclose f ;;; iunlockput i ;;; end_op ;;; ret (-1)
      else
        iunlock i ;;;
        end_op ;;;
        set_file f (fun x => x <| f_type := FD_INODE |> <| f_ip := Some i |> <| f_off := 0 |>
          <| f_readable := of_bool (negb (flag omode O_WRONLY)) |>
          <| f_writable := of_bool (flag omode O_WRONLY || flag omode O_RDWR) |>) ;;;
        ret fd
  end.

Definition sys_open : M K Z :=
  opath <- arg_str 0 ;;
  match opath with
  | None => ret (-1)
  | Some path =>
      om <- arg_int 1 ;;
      match om with
      | None => ret (-1)
      | Some omode =>
          begin_op ;;;
          if flag omode O_CREATE then
            oi <- create path T_FILE 0 0 ;;
            match oi with
            | None => end_op ;;; ret (-1)
            | Some i => open_inode i omode
            end
          else
            oi <- namei path ;;
            match oi with
            | None => end_op ;;; ret (-1)
            | Some i =>
                ilock i ;;;
                ip <- get_ip i ;;
                if (i_type ip =? T_DIR) && negb (omode =? O_RDONLY) then iunlockput i ;;; end_op ;;; ret (-1)
                else open_inode i omode
            end
      end
  end.

Definition sys_mkdir : M K Z :=
  begin_op ;;;
  opath <- arg_str 0 ;;
  oi <- (match opath with None => ret None | Some path => create path T_DIR 0 0 end) ;;
  match oi with
  | None => end_op ;;; ret (-1)
  | Some i => iunlockput i ;;; end_op ;;; ret 0
  end.

Definition sys_mknod : M K Z :=
  begin_op ;;;
  opath <- arg_str 0 ;;
  oi <- (match opath with
         | None => ret None
         | Some path =>
             omajor <- arg_int 1 ;;
             match omajor with
             | None => ret None
             | Some major =>
                 ominor <- arg_int 2 ;;
                 match ominor with
                 | None => ret None
                 | Some minor => create path T_DEV (s16 major) (s16 minor)
                 end
             end
         end) ;;
  match oi with
  | None => end_op ;;; ret (-1)
  | Some i => iunlockput i ;;; end_op ;;; ret 0
  end.

Definition sys_chdir : M K Z :=
  begin_op ;;;
  opath <- arg_str 0 ;;
  oi <- (match opath with None => ret None | Some path => namei path end) ;;
  match oi with
  | None => end_op ;;; ret (-1)
  | Some i =>
      ilock i ;;;
      ip <- get_ip i ;;
      if negb (i_type ip =? T_DIR) then iunlockput i ;;; end_op ;;; ret (-1)
      else
        iunlock i ;;;
        c <- gets cur ;;
        iput (c_cwd c) ;;;
        end_op ;;;
        modify (fun s => s <| cur ::= fun c => c <| c_cwd := i |> |>) ;;;
        ret 0
  end.

(** ** [exec] and [pipe] *)

(** The loop of [sys_exec] at [i], with the arguments so far. *)
Definition exec_step (uargv : Z) (x : nat * list (list Z)) : M K ((nat * list (list Z)) + option (list (list Z))) :=
  let '(i, argv) := x in
  c <- gets cur ;;
  if (MAXARG <=? i)%nat then ret (inr None)
  else match fetchint (c_mem c) (c_sz c) (u32 (uargv + 4 * Z.of_nat i)) with
  | None => ret (inr None)
  | Some uarg =>
      if uarg =? 0 then ret (inr (Some argv))
      else match fetchstr (c_mem c) (c_sz c) (u32 uarg) with
      | None => ret (inr None)
      | Some (a, len) => ret (inl (S i, argv ++ [c_mem c <$> seqZ a len]))
      end
  end.
Definition sys_exec : M K Z :=
  opath <- arg_str 0 ;;
  match opath with
  | None => ret (-1)
  | Some path =>
      ou <- arg_int 1 ;;
      match ou with
      | None => ret (-1)
      | Some uargv =>
          o <- mwhile (S MAXARG) (exec_step (u32 uargv)) (0%nat, []) ;;
          match o with None => ret (-1) | Some argv => exec path argv end
      end
  end.

Definition sys_pipe : M K Z :=
  op <- arg_ptr 0 8 ;;
  match op with
  | None => ret (-1)
  | Some p =>
      o <- pipealloc mypid fuel end_ ;;
      match o with
      | None => ret (-1)
      | Some (rf, wf) =>
          fd0 <- fdalloc rf ;;
          fd1 <- (if fd0 <? 0 then ret (-1) else fdalloc wf) ;;
          if (fd0 <? 0) || (fd1 <? 0) then
            when (0 <=? fd0) (set_fd (Z.to_nat fd0) None) ;;;
            fileclose rf ;;;
            fileclose wf ;;;
            ret (-1)
          else
            store_bytes p (le 4 fd0) ;;;
            store_bytes (p + 4) (le 4 fd1) ;;;
            ret 0
      end
  end.
End ops.
