(* ===== verification/Sh.v ===== *)
(** * The shell (sh.c)

    The parser of command lines, which builds a tree of nodes whose strings point
    into the line, and the interpreter of that tree as a program of system calls. *)

From S2P Require Import Prelude Params Bytes Str SysFile.

Module Sh.

Definition MAXARGS : nat := 10.

(** A pointer to a node is its index in the heap; a [char*] is an index in the
    line.  The constructors are the values of [type]. *)
Definition ptr : Type := option nat.
Inductive node :=
  | EXEC (argv eargv : list (option nat))
  | REDIR (cmd : ptr) (file efile : nat) (mode fd : Z)
  | PIPE (left right : ptr)
  | LIST (left right : ptr)
  | BACK (cmd : ptr).

(** The line with its final NUL, the nodes, and how many nodes [malloc] has
    memory for. *)
Record sh := Shell { line : list Z; heap : list node; room : nat }.
#[export] Instance sh_eta : Eta sh := fun r => Shell (line r) (heap r) (room r).

(** ** Constructors *)

(** [malloc] and [memset], which writes to address 0 when there is no memory. *)
Definition new (n : node) : M sh ptr := fun s =>
  if (length (heap s) <? room s)%nat then Ret (Some (length (heap s))) (s <| heap ::= fun h => h ++ [n] |>) else Fault s.

Definition execcmd : M sh ptr := new (EXEC (replicate MAXARGS None) (replicate MAXARGS None)).
Definition redircmd (subcmd : ptr) (file efile : nat) (mode fd : Z) : M sh ptr := new (REDIR subcmd file efile mode fd).
Definition pipecmd (left right : ptr) : M sh ptr := new (PIPE left right).
Definition listcmd (left right : ptr) : M sh ptr := new (LIST left right).
Definition backcmd (subcmd : ptr) : M sh ptr := new (BACK subcmd).

(** ** Tokens *)

Definition whitespace : list Z := [32; 9; 13; 10; 11].
Definition symbols : list Z := [60; 124; 62; 38; 59; 40; 41].

(** [strchr(s, c) != 0] for the string literal [s] (ulib.c). *)
Fixpoint strchr (s : list Z) (c : Z) : bool :=
  match s with
  | [] => false
  | d :: s => if d =? c then true else strchr s c
  end.

(** [*s] *)
Definition ch (s : nat) : M sh Z := fun st =>
  match line st !! s with Some c => Ret c st | None => Fault st end.

(** [while(s < es && strchr(whitespace, *s)) s++] *)
Definition skip (es s : nat) : M sh nat :=
  mwhile (S (es - s)) (fun s =>
    if (s <? es)%nat then c <- ch s ;; ret (if strchr whitespace c then inl (S s) else inr s)
    else ret (inr s)) s.
(** [while(s < es && !strchr(whitespace, *s) && !strchr(symbols, *s)) s++] *)
Definition skip_word (es s : nat) : M sh nat :=
  mwhile (S (es - s)) (fun s =>
    if (s <? es)%nat then c <- ch s ;; ret (if negb (strchr whitespace c) && negb (strchr symbols c) then inl (S s) else inr s)
    else ret (inr s)) s.

(** The token, [q], [eq] and the new [*ps]. *)
Definition gettoken (ps es : nat) : M sh (Z * nat * nat * nat) :=
  s <- skip es ps ;;
  let q := s in
  c <- ch s ;;
  r <- (if c =? 0 then ret (c, s)
        else if (c =? 124) || (c =? 40) || (c =? 41) || (c =? 59) || (c =? 38) || (c =? 60) then ret (c, S s)
        else if c =? 62 then
          d <- ch (S s) ;;
          ret (if d =? 62 then (43, S (S s)) else (c, S s))
        else s' <- skip_word es s ;; ret (97, s')) ;;
  let '(tok, eq) := r in
  s <- skip es eq ;;
  ret (tok, q, eq, s).

Definition peek (ps es : nat) (toks : list Z) : M sh (bool * nat) :=
  s <- skip es ps ;;
  c <- ch s ;;
  ret (negb (c =? 0) && strchr toks c, s).

(** ** Parsing *)

(** One turn of the loop of [parseredirs]. *)
Definition redir_step (es : nat) (x : ptr * nat) : M sh (ptr * nat + ptr * nat) :=
  let '(cmd, ps) := x in
  k <- peek ps es [60; 62] ;;
  let '(more, ps) := k in
  if more then
    t <- gettoken ps es ;;
    let '(tok, _, _, ps) := t in
    t <- gettoken ps es ;;
    let '(tok2, q, eq, ps) := t in
    if negb (tok2 =? 97) then panic "missing file for redirection"
    else
      cmd <- (if tok =? 60 then redircmd cmd q eq O_RDONLY 0
              else if tok =? 62 then redircmd cmd q eq (Z.lor O_WRONLY O_CREATE) 1
              else if tok =? 43 then redircmd cmd q eq (Z.lor O_WRONLY O_CREATE) 1
              else ret cmd) ;;
      ret (inl (cmd, ps))
  else ret (inr (cmd, ps)).
Definition parseredirs (cmd : ptr) (ps es : nat) : M sh (ptr * nat) :=
  mwhile (S (es - ps)) (redir_step es) (cmd, ps).

(** [cmd->argv[argc] = q; cmd->eargv[argc] = eq] *)
Definition set_arg (cmd : ptr) (argc : nat) (q eq : option nat) : M sh unit := fun s =>
  match cmd with
  | Some i =>
      match heap s !! i with
      | Some (EXEC argv eargv) =>
          if (argc <? length argv)%nat && (argc <? length eargv)%nat then
            Ret tt (s <| heap ::= <[i := EXEC (<[argc := q]> argv) (<[argc := eq]> eargv)]> |>)
          else Fault s
      | _ => Fault s
      end
  | None => Fault s
  end.

(** One turn of the loop of [parseexec]. *)
Definition arg_step (cmd : ptr) (es : nat) (x : nat * ptr * nat) : M sh (nat * ptr * nat + nat * ptr * nat) :=
  let '(argc, r, ps) := x in
  k <- peek ps es [124; 41; 38; 59] ;;
  let '(stop, ps) := k in
  if stop then ret (inr (argc, r, ps))
  else
    t <- gettoken ps es ;;
    let '(tok, q, eq, ps) := t in
    if tok =? 0 then ret (inr (argc, r, ps))
    else if negb (tok =? 97) then panic "syntax"
    else
      set_arg cmd argc (Some q) (Some eq) ;;;
      let argc := S argc in
      if (MAXARGS <=? argc)%nat then panic "too many args"
      else
        k <- parseredirs r ps es ;;
        let '(r, ps) := k in
        ret (inl (argc, r, ps)).

(** [while(peek(ps, es, "&")) ...] of [parseline] *)
Definition back_step (es : nat) (x : ptr * nat) : M sh (ptr * nat + ptr * nat) :=
  let '(cmd, ps) := x in
  k <- peek ps es [38] ;;
  let '(more, ps) := k in
  if more then
    t <- gettoken ps es ;;
    let '(_, _, _, ps) := t in
    cmd <- backcmd cmd ;;
    ret (inl (cmd, ps))
  else ret (inr (cmd, ps)).

(** The four functions call each other: [call f] is a call of the function [f]. *)
Inductive fn := Fline | Fpipe | Fblock | Fexec.
Section parsers.
Context (call : fn -> nat -> nat -> M sh (ptr * nat)).

Definition parseline (ps es : nat) : M sh (ptr * nat) :=
  k <- call Fpipe ps es ;;
  k <- mwhile (S (es - k.2)) (back_step es) k ;;
  let '(cmd, ps) := k in
  k <- peek ps es [59] ;;
  let '(more, ps) := k in
  if more then
    t <- gettoken ps es ;;
    let '(_, _, _, ps) := t in
    k <- call Fline ps es ;;
    let '(r, ps) := k in
    cmd <- listcmd cmd r ;;
    ret (cmd, ps)
  else ret (cmd, ps).

Definition parsepipe (ps es : nat) : M sh (ptr * nat) :=
  k <- call Fexec ps es ;;
  let '(cmd, ps) := k in
  k <- peek ps es [124] ;;
  let '(more, ps) := k in
  if more then
    t <- gettoken ps es ;;
    let '(_, _, _, ps) := t in
    k <- call Fpipe ps es ;;
    let '(r, ps) := k in
    cmd <- pipecmd cmd r ;;
    ret (cmd, ps)
  else ret (cmd, ps).

Definition parseblock (ps es : nat) : M sh (ptr * nat) :=
  k <- peek ps es [40] ;;
  let '(ok, ps) := k in
  if negb ok then panic "parseblock"
  else
    t <- gettoken ps es ;;
    let '(_, _, _, ps) := t in
    k <- call Fline ps es ;;
    let '(cmd, ps) := k in
    k <- peek ps es [41] ;;
    let '(ok, ps) := k in
    if negb ok then panic "syntax - missing )"
    else
      t <- gettoken ps es ;;
      let '(_, _, _, ps) := t in
      parseredirs cmd ps es.

Definition parseexec (ps es : nat) : M sh (ptr * nat) :=
  k <- peek ps es [40] ;;
  let '(block, ps) := k in
  if block then call Fblock ps es
  else
    cmd <- execcmd ;;
    k <- parseredirs cmd ps es ;;
    let '(r, ps) := k in
    k <- mwhile (S (es - ps)) (arg_step cmd es) (0%nat, r, ps) ;;
    let '(argc, r, ps) := k in
    set_arg cmd argc None None ;;;
    ret (r, ps).
End parsers.

(** Each call takes one unit of fuel. *)
Fixpoint parse (fuel : nat) (f : fn) (ps es : nat) : M sh (ptr * nat) :=
  match fuel with
  | O => stall
  | S fuel =>
      match f with
      | Fline => parseline (parse fuel) ps es
      | Fpipe => parsepipe (parse fuel) ps es
      | Fblock => parseblock (parse fuel) ps es
      | Fexec => parseexec (parse fuel) ps es
      end
  end.

(** [*p = 0] *)
Definition nul (p : nat) : M sh unit := fun s =>
  if (p <? length (line s))%nat then Ret tt (s <| line ::= <[p := 0]> |>) else Fault s.

(** [for(i=0; ecmd->argv[i]; i++) *ecmd->eargv[i] = 0] *)
Definition nul_args (argv eargv : list (option nat)) : M sh unit :=
  mwhile (S (length argv)) (fun i =>
    match argv !! i with
    | Some (Some _) =>
        match eargv !! i with
        | Some (Some e) => nul e ;;; ret (inl (S i))
        | _ => fault
        end
    | Some None => ret (inr tt)
    | None => fault
    end) 0%nat.

Fixpoint nulterminate (fuel : nat) (cmd : ptr) : M sh ptr :=
  match fuel with
  | O => stall
  | S fuel =>
      match cmd with
      | None => ret None
      | Some i =>
          h <- gets heap ;;
          match h !! i with
          | Some (EXEC argv eargv) => nul_args argv eargv
          | Some (REDIR c _ efile _ _) => nulterminate fuel c ;;; nul efile
          | Some (PIPE l r) | Some (LIST l r) => nulterminate fuel l ;;; nulterminate fuel r ;;; ret tt
          | Some (BACK c) => nulterminate fuel c ;;; ret tt
          | None => fault
          end ;;;
          ret cmd
      end
  end.

(** [s] is the start of the line. *)
Definition parsecmd : M sh ptr :=
  st <- gets id ;;
  match strlen (line st) with
  | None => fault
  | Some n =>
      let es := Z.to_nat n in
      k <- parse (4 * es + 4) Fline 0 es ;;
      let '(cmd, ps) := k in
      k <- peek ps es [] ;;
      let '(_, ps) := k in
      if negb (ps =? es)%nat then panic "syntax"
      else
        h <- gets heap ;;
        nulterminate (S (length h)) cmd ;;;
        ret cmd
  end.

(** ** Running *)

(** A program of system calls: what follows a call is a function of its result. *)
Inductive prog :=
  | Exit
  | Exec (path : list Z) (argv : list (list Z)) (k : prog)
  | Print (msg : string) (arg : list Z) (k : prog)
  | Close (fd : Z) (k : prog)
  | Open (file : list Z) (mode : Z) (k : Z -> prog)
  | Dup (fd : Z) (k : Z -> prog)
  | Pipe (k : Z -> Z -> Z -> prog)
  | Fork (k : Z -> prog)
  | Wait (k : prog)
  | Stuck.

(** [panic] and [fork1] of the shell. *)
Definition die (msg : string) : prog := Print msg [] Exit.
Definition fork1 (k : Z -> prog) : prog := Fork (fun pid => if pid =? -1 then die "fork" else k pid).

(** The C string at a position of the line. *)
Definition str_at (st : sh) (p : nat) : list Z := cstr (drop p (line st)).
(** The strings of [argv] up to the first null pointer. *)
Fixpoint args_at (st : sh) (argv : list (option nat)) : list (list Z) :=
  match argv with
  | Some p :: argv => str_at st p :: args_at st argv
  | _ => []
  end.

(** [runcmd] does not return: what follows it is never executed. *)
Fixpoint runcmd (fuel : nat) (st : sh) (cmd : ptr) : prog :=
  match fuel with
  | O => Stuck
  | S fuel =>
      match cmd with
      | None => Exit
      | Some i =>
          match heap st !! i with
          | Some (EXEC argv _) =>
              match argv with
              | Some p :: _ => Exec (str_at st p) (args_at st argv) (Print "exec %s failed" (str_at st p) Exit)
              | _ => Exit
              end
          | Some (REDIR c file _ mode fd) =>
              Close fd (Open (str_at st file) mode (fun r =>
                if r <? 0 then Print "open %s failed" (str_at st file) Exit else runcmd fuel st c))
          | Some (LIST l r) =>
              fork1 (fun pid => if pid =? 0 then runcmd fuel st l else Wait (runcmd fuel st r))
          | Some (PIPE l r) =>
              Pipe (fun res p0 p1 =>
                if res <? 0 then die "pipe"
                else fork1 (fun pid =>
                  if pid =? 0 then Close 1 (Dup p1 (fun _ => Close p0 (Close p1 (runcmd fuel st l))))
                  else fork1 (fun pid =>
                    if pid =? 0 then Close 0 (Dup p0 (fun _ => Close p0 (Close p1 (runcmd fuel st r))))
                    else Close p0 (Close p1 (Wait (Wait Exit))))))
          | Some (BACK c) => fork1 (fun pid => if pid =? 0 then runcmd fuel st c else Exit)
          | None => Stuck
          end
      end
  end.
End Sh.
