(* ===== verification/ShParse.v ===== *)
(** * The grammar of the shell

    The lexical structure and the grammar of command lines, as a specification
    independent of positions and pointers, and the proof that [parsecmd] decides
    the grammar and builds the tree with its strings terminated. *)

From S2P Require Import Prelude Params Bytes Str SysFile Sh.
Import Sh.

Module ShSpec.
#[local] Arguments strchr : simpl never.
#[local] Arguments Nat.leb : simpl never.

(** ** Tokens *)

Inductive tok := Word (w : list Z) | Bar | Amp | Semi | Lp | Rp | Lt | Gt | App.

Definition ws (c : Z) : bool := strchr whitespace c.
Definition sep (c : Z) : bool := ws c || strchr symbols c.

Definition flush (w : list Z) : list tok := match w with [] => [] | _ => [Word w] end.
Definition sym (c : Z) : tok :=
  if c =? 124 then Bar else if c =? 38 then Amp else if c =? 59 then Semi else if c =? 40 then Lp
  else if c =? 41 then Rp else if c =? 60 then Lt else Gt.

(** The tokens of a text, [w] being the part of a word already read. *)
Fixpoint lexw (w b : list Z) : list tok :=
  match b with
  | [] => flush w
  | c :: r =>
      if ws c then flush w ++ lexw [] r
      else if strchr symbols c then
        flush w ++
        match r with
        | d :: r' => if (c =? 62) && (d =? 62) then App :: lexw [] r' else sym c :: lexw [] r
        | [] => [sym c]
        end
      else lexw (w ++ [c]) r
  end.
Definition lex (b : list Z) : list tok := lexw [] b.

(** What [gettoken] returns for a token, and its first character (any letter for
    a word). *)
Definition code (t : tok) : Z :=
  match t with Word _ => 97 | Bar => 124 | Amp => 38 | Semi => 59 | Lp => 40 | Rp => 41 | Lt => 60 | Gt => 62 | App => 43 end.
Definition lead (t : tok) : Z := match t with App => 62 | t => code t end.

Lemma word_or t : (exists w, t = Word w) \/ (code t =? 97) = false /\ forall w, t <> Word w.
Proof. destruct t; [left; by eexists|right; done..]. Qed.

(** ** Grammar *)

(** Commands; [W] are the strings. *)
Inductive ast (W : Type) :=
  | Exec (args : list W)
  | Redir (c : ast W) (file : W) (mode fd : Z)
  | Pipe (l r : ast W)
  | List (l r : ast W)
  | Back (c : ast W).
Arguments Exec {W} _. Arguments Redir {W} _ _ _ _. Arguments Pipe {W} _ _. Arguments List {W} _ _. Arguments Back {W} _.

Fixpoint amap {V W} (f : V -> W) (t : ast V) : ast W :=
  match t with
  | Exec args => Exec (f <$> args)
  | Redir c w m d => Redir (amap f c) (f w) m d
  | Pipe l r => Pipe (amap f l) (amap f r)
  | List l r => List (amap f l) (amap f r)
  | Back c => Back (amap f c)
  end.

(** A redirection: mode, descriptor, file. *)
Definition wrap {W} (rs : list (Z * Z * W)) (t : ast W) : ast W :=
  foldl (fun t '(m, d, w) => Redir t w m d) t rs.

Notation str := (list Z).
Definition redir_of (t : tok) : option (Z * Z) :=
  match t with Lt => Some (O_RDONLY, 0) | Gt | App => Some (Z.lor O_WRONLY O_CREATE, 1) | _ => None end.
Definition starts (ts : list tok) (p : tok -> bool) : bool := match ts with t :: _ => p t | [] => false end.
Definition isin (l : list Z) (t : tok) : bool := strchr l (lead t).

Inductive gredirs : list tok -> list (Z * Z * str) -> list tok -> Prop :=
  | gr_stop ts : starts ts (isin [60; 62]) = false -> gredirs ts [] ts
  | gr_one k m d w ts rs rest : redir_of k = Some (m, d) -> gredirs ts rs rest -> gredirs (k :: Word w :: ts) ((m, d, w) :: rs) rest.

(** Words and redirections, after [n] words: fewer than MAXARGS in all. *)
Inductive gargs : nat -> list tok -> list str -> list (Z * Z * str) -> list tok -> Prop :=
  | ga_stop n ts : ts = [] \/ starts ts (isin [124; 41; 38; 59]) = true -> gargs n ts [] [] ts
  | ga_word n w ts rs1 ts1 ws rs rest : (n + 1 < MAXARGS)%nat -> gredirs ts rs1 ts1 -> gargs (n + 1) ts1 ws rs rest ->
      gargs n (Word w :: ts) (w :: ws) (rs1 ++ rs) rest.

(** [&] after a command. *)
Inductive gbacks : ast str -> list tok -> ast str -> list tok -> Prop :=
  | gb_stop t ts : starts ts (isin [38]) = false -> gbacks t ts t ts
  | gb_amp t ts t' rest : gbacks (Back t) ts t' rest -> gbacks t (Amp :: ts) t' rest.

Inductive gexec : list tok -> ast str -> list tok -> Prop :=
  | ge_simple ts rs1 ts1 ws rs2 rest : starts ts (isin [40]) = false -> gredirs ts rs1 ts1 -> gargs 0 ts1 ws rs2 rest ->
      gexec ts (wrap (rs1 ++ rs2) (Exec ws)) rest
  | ge_block ts t ts1 rs rest : gline ts t (Rp :: ts1) -> gredirs ts1 rs rest -> gexec (Lp :: ts) (wrap rs t) rest
with gpipe : list tok -> ast str -> list tok -> Prop :=
  | gp_one ts t rest : gexec ts t rest -> starts rest (isin [124]) = false -> gpipe ts t rest
  | gp_more ts t ts1 t2 rest : gexec ts t (Bar :: ts1) -> gpipe ts1 t2 rest -> gpipe ts (Pipe t t2) rest
with gline : list tok -> ast str -> list tok -> Prop :=
  | gl_one ts t ts1 t1 rest : gpipe ts t ts1 -> gbacks t ts1 t1 rest -> starts rest (isin [59]) = false -> gline ts t1 rest
  | gl_more ts t ts1 t1 ts2 t2 rest : gpipe ts t ts1 -> gbacks t ts1 t1 (Semi :: ts2) -> gline ts2 t2 rest -> gline ts (List t1 t2) rest.

Scheme gexec_mut := Induction for gexec Sort Prop
  with gpipe_mut := Induction for gpipe Sort Prop
  with gline_mut := Induction for gline Sort Prop.
Combined Scheme grammar_ind from gexec_mut, gpipe_mut, gline_mut.

(** *** Determinism *)

Lemma gredirs_det ts rs rest rs' rest' : gredirs ts rs rest -> gredirs ts rs' rest' -> rs = rs' /\ rest = rest'.
Proof.
  intros H. revert rs' rest'. induction H as [ts Hn|k m d w ts rs rest Hk H IH]; intros rs' rest' H'; inversion H'; subst; simplify_eq; try done.
  - exfalso. destruct k; done.
  - exfalso. destruct k; done.
  - edestruct IH as [-> ->]; [eassumption|done].
Qed.
Lemma gargs_det n ts ws rs rest ws' rs' rest' : gargs n ts ws rs rest -> gargs n ts ws' rs' rest' -> ws = ws' /\ rs = rs' /\ rest = rest'.
Proof.
  intros H. revert ws' rs' rest'. induction H as [n ts Hn|n w ts rs1 ts1 ws rs rest Hl Hr H IH]; intros ws' rs' rest' H'; inversion H'; subst; try done.
  - destruct Hn; done.
  - match goal with H : _ \/ _ |- _ => destruct H; done end.
  - match goal with H : gredirs ts _ _ |- _ => destruct (gredirs_det _ _ _ _ _ Hr H) as [-> ->] end.
    edestruct IH as (-> & -> & ->); [eassumption|done].
Qed.
Lemma gbacks_det t ts t1 r1 t2 r2 : gbacks t ts t1 r1 -> gbacks t ts t2 r2 -> t1 = t2 /\ r1 = r2.
Proof.
  intros H. revert t2 r2. induction H as [t ts Hn|t ts t' rest H IH]; intros t2 r2 H'; inversion H'; subst; try done. by apply IH.
Qed.

Ltac detg := repeat match goal with
  | H1 : gredirs ?ts _ _, H2 : gredirs ?ts _ _ |- _ => destruct (gredirs_det _ _ _ _ _ H1 H2) as [? ?]; clear H2; simplify_eq
  | H1 : gargs ?n ?ts _ _ _, H2 : gargs ?n ?ts _ _ _ |- _ => destruct (gargs_det _ _ _ _ _ _ _ _ H1 H2) as (? & ? & ?); clear H2; simplify_eq
  | H1 : gbacks ?t ?ts _ _, H2 : gbacks ?t ?ts _ _ |- _ => destruct (gbacks_det _ _ _ _ _ _ H1 H2) as [? ?]; clear H2; simplify_eq
  | IH : forall t' rest', ?g ?ts t' rest' -> _ = t' /\ _ = rest', H : ?g ?ts _ _ |- _ => destruct (IH _ _ H) as [? ?]; clear H; simplify_eq
  end.

Lemma grammar_det :
  (forall ts t rest, gexec ts t rest -> forall t' rest', gexec ts t' rest' -> t = t' /\ rest = rest') /\
  (forall ts t rest, gpipe ts t rest -> forall t' rest', gpipe ts t' rest' -> t = t' /\ rest = rest') /\
  (forall ts t rest, gline ts t rest -> forall t' rest', gline ts t' rest' -> t = t' /\ rest = rest').
Proof.
  apply grammar_ind.
  - intros ts rs1 ts1 ws rs2 rest Hs H1 H2 t' rest' H'. inversion H'; subst; [|done]. by detg.
  - intros ts t ts1 rs rest H IH Hr t' rest' H'. inversion H'; subst; [done|]. by detg.
  - intros ts t rest H IH Hs t' rest' H'. inversion H'; subst; by detg.
  - intros ts t ts1 t2 rest H IH H2 IH2 t' rest' H'. inversion H'; subst; by detg.
  - intros ts t ts1 t1 rest H IH Hb Hs t' rest' H'. inversion H'; subst; by detg.
  - intros ts t ts1 t1 ts2 t2 rest H IH Hb H2 IH2 t' rest' H'. inversion H'; subst; by detg.
Qed.

(** ** The scanner *)

Lemma lexw_sep w c r : sep c = true -> lexw w (c :: r) = flush w ++ lex (c :: r).
Proof. unfold lex, sep. simpl. destruct (ws c); [done|]. simpl. by intros ->. Qed.

Lemma lexw_word v w r : Forall (fun c => sep c = false) w -> (r = [] \/ exists c r', r = c :: r' /\ sep c = true) -> v ++ w <> [] ->
  lexw v (w ++ r) = Word (v ++ w) :: lex r.
Proof.
  intros Hw Hr. revert v. induction Hw as [|c w Hc Hw IH]; intros v Hne; simpl.
  - rewrite app_nil_r in *. destruct Hr as [->|(c & r' & -> & Hc)]; [by destruct v|]. rewrite lexw_sep by done. by destruct v.
  - unfold sep in Hc. apply orb_false_iff in Hc as [-> ->]. rewrite IH by (by destruct v). by rewrite <- app_assoc.
Qed.

Lemma length_flush w : (length (flush w) <= length w)%nat.
Proof. destruct w; simpl; lia. Qed.
Lemma length_lexw n : forall w b, (length b <= n)%nat -> (length (lexw w b) <= (if w is [] then 0 else 1) + length b)%nat.
Proof.
  induction n as [|n IH]; intros w b Hn; (destruct b as [|c r]; simpl in *; [by destruct w; simpl; lia|]); [lia|].
  assert (Hr := IH [] r ltac:(lia)). simpl in Hr. destruct (ws c).
  { rewrite length_app. destruct w; simpl; lia. }
  destruct (strchr symbols c); [|pose proof (IH (w ++ [c]) r ltac:(lia)) as H; destruct w; simpl in *; lia].
  rewrite length_app. destruct r as [|d r']; [destruct w; simpl; lia|].
  simpl in Hn. assert (Hr' := IH [] r' ltac:(lia)). simpl in Hr'. destruct (_ && _); destruct w; cbn [length flush] in *; lia.
Qed.

(** The character classes are disjoint. *)
Lemma strchr_spec l c : strchr l c = true <-> c ∈ l.
Proof.
  induction l as [|d l IH]; [split; [done|by intros ?%elem_of_nil]|]. change (strchr (d :: l) c) with (if d =? c then true else strchr l c). rewrite elem_of_cons, <- IH.
  destruct (Z.eqb_spec d c) as [->|Hne]; [split; [by intros; left|done]|]. split; [by intros; right|]. by intros [->|?].
Qed.
Lemma symbols_not_ws c : strchr symbols c = true -> ws c = false.
Proof.
  intros Hc%strchr_spec. unfold symbols in Hc. repeat (apply elem_of_cons in Hc as [->|Hc]; [done|]). by apply elem_of_nil in Hc.
Qed.

Lemma lexw_starts r : forall c w, exists w' ts, lexw (c :: w) r = Word w' :: ts.
Proof.
  induction r as [|d r IH]; intros c w; simpl; [by eexists _, _|]. destruct (ws d); [by eexists _, _|]. destruct (strchr symbols d); [by eexists _, _|].
  apply IH.
Qed.

Section line.
Context (b : list Z) (Hb : 0 ∉ b).
Notation es := (length b).

(** From position [s] on, the tokens are [ts]. *)
Definition at_ (s : nat) (ts : list tok) : Prop := (s <= es)%nat /\ lex (drop s b) = ts.
(** [q, eq) is a word, and what follows it is not part of a word. *)
Definition word (q eq : nat) (w : list Z) : Prop :=
  (q < eq <= es)%nat /\ slice q (eq - q) b = w /\ Forall (fun c => sep c = false) w /\ (eq = es \/ exists c, b !! eq = Some c /\ sep c = true).

Lemma at_count s ts : at_ s ts -> (length ts <= es - s)%nat.
Proof. intros [Hs <-]. pose proof (length_lexw _ [] (drop s b) (Nat.le_refl _)) as H. rewrite length_drop in H. exact H. Qed.

Lemma drop_cons s c : b !! s = Some c -> drop s b = c :: drop (S s) b.
Proof. apply drop_S. Qed.
Lemma not_nul s c : b !! s = Some c -> c <> 0.
Proof. intros H ->. apply Hb. by eapply list_elem_of_lookup_2. Qed.

Section rules.
Context (P : prot sh).
Notation on st := (line st = b ++ [0]).

Lemma wp_ch st s (Q : Z -> sh -> Prop) : on st -> (s <= es)%nat ->
  (forall c, b !! s = Some c -> c <> 0 -> (s < es)%nat -> Q c st) -> (s = es -> Q 0 st) -> wp P (ch s) st Q.
Proof.
  intros Ho Hs HQ H0. unfold wp, ch. rewrite Ho. destruct (decide (s = es)) as [->|Hne].
  - rewrite lookup_app_r, Nat.sub_diag by lia. by apply H0.
  - rewrite lookup_app_l by lia. destruct (lookup_lt_is_Some_2 b s) as [c Hc]; [lia|]. rewrite Hc. apply HQ; [done| |lia]. by eapply not_nul.
Qed.

Lemma wp_skip st s (Q : nat -> sh -> Prop) : on st -> (s <= es)%nat ->
  (forall s', (s <= s' <= es)%nat -> lex (drop s' b) = lex (drop s b) -> (s' = es \/ exists c, b !! s' = Some c /\ ws c = false) -> Q s' st) ->
  wp P (skip es s) st Q.
Proof.
  intros Ho. unfold skip. assert (Hn : (es - s < Datatypes.S (es - s))%nat) by lia. revert Hn. generalize (Datatypes.S (es - s)) as n. intros n. revert s.
  induction n as [|n IH]; intros s Hn Hs HQ; [lia|]. simpl. apply wp_bind. destruct (Nat.ltb_spec s es) as [Hlt|Hge].
  - apply wp_bind. apply wp_ch; [done|lia| |lia]. intros c Hc _ _. apply wp_ret. destruct (ws c) eqn:E; unfold ws in E; rewrite E.
    + apply IH; [lia|lia|]. intros s' Hs' Hl. apply HQ; [lia|]. rewrite Hl, (drop_cons s c Hc). unfold lex. simpl. unfold ws. by rewrite E.
    + apply wp_ret, HQ; [lia|done|]. right. by exists c.
  - apply wp_ret, wp_ret, HQ; [lia|done|]. left. lia.
Qed.

Lemma wp_skip_word st s (Q : nat -> sh -> Prop) : on st -> (s <= es)%nat ->
  (forall s', (s <= s' <= es)%nat -> Forall (fun c => sep c = false) (slice s (s' - s) b) ->
     (s' = es \/ exists c, b !! s' = Some c /\ sep c = true) -> Q s' st) ->
  wp P (skip_word es s) st Q.
Proof.
  intros Ho. unfold skip_word. assert (Hn : (es - s < Datatypes.S (es - s))%nat) by lia. revert Hn. generalize (Datatypes.S (es - s)) as n. intros n. revert s.
  induction n as [|n IH]; intros s Hn Hs HQ; [lia|]. simpl. apply wp_bind. destruct (Nat.ltb_spec s es) as [Hlt|Hge].
  - apply wp_bind. apply wp_ch; [done|lia| |lia]. intros c Hc _ _. apply wp_ret. rewrite <- negb_orb. fold (ws c). fold (sep c).
    destruct (sep c) eqn:E; simpl.
    + apply wp_ret, HQ; [lia| |right; by exists c]. rewrite Nat.sub_diag. constructor.
    + apply IH; [lia|lia|]. intros s' Hs' Hl. apply HQ; [lia|]. unfold slice in *. replace (s' - s)%nat with (Datatypes.S (s' - Datatypes.S s)) by lia.
      rewrite (drop_cons s c Hc). simpl. by constructor.
  - apply wp_ret, wp_ret, HQ; [lia| |left; lia]. rewrite Nat.sub_diag. constructor.
Qed.

Lemma lex_sym s c : b !! s = Some c -> strchr symbols c = true -> c <> 62 -> lex (drop s b) = sym c :: lex (drop (Datatypes.S s) b).
Proof.
  intros Hc Hs Hne. rewrite (drop_cons s c Hc). unfold lex. simpl. rewrite (symbols_not_ws c Hs), Hs. simpl.
  rewrite (proj2 (Z.eqb_neq c 62)) by done. by destruct (drop _ b).
Qed.
Lemma lex_gt s : b !! s = Some 62 -> lex (drop s b) =
  if decide (b !! Datatypes.S s = Some 62) then App :: lex (drop (Datatypes.S (Datatypes.S s)) b) else Gt :: lex (drop (Datatypes.S s) b).
Proof.
  intros Hc. rewrite (drop_cons s 62 Hc). unfold lex. simpl. destruct (b !! Datatypes.S s) as [d|] eqn:E.
  - rewrite (drop_cons _ d E). destruct (Z.eqb_spec d 62) as [->|Hne]; [by rewrite decide_True|]. rewrite decide_False by congruence. done.
  - rewrite (drop_ge b (Datatypes.S s)) by (by apply lookup_ge_None). done.
Qed.
Lemma lex_end : lex (drop es b) = [].
Proof. by rewrite drop_all. Qed.
Lemma lex_word s s' : (s < s' <= es)%nat -> Forall (fun c => sep c = false) (slice s (s' - s) b) ->
  (s' = es \/ exists c, b !! s' = Some c /\ sep c = true) -> lex (drop s b) = Word (slice s (s' - s) b) :: lex (drop s' b).
Proof.
  intros Hs Hw He. replace (drop s b) with (slice s (s' - s) b ++ drop s' b).
  - unfold lex. rewrite lexw_word; [done|done| |].
    + destruct He as [->|(c & Hc & Hsep)]; [left; apply drop_all|right]. exists c, (drop (Datatypes.S s') b). split; [by apply drop_cons|done].
    + simpl. intros E. apply (f_equal length) in E. unfold slice in E. rewrite length_take, length_drop in E. simpl in E. lia.
  - unfold slice. rewrite <- (take_drop (s' - s) (drop s b)) at 2. rewrite drop_drop. do 3 f_equal. lia.
Qed.

(** [gettoken] takes one token off. *)
Lemma wp_gettoken st ps ts (Q : Z * nat * nat * nat -> sh -> Prop) : on st -> at_ ps ts ->
  (ts = [] -> forall q s, at_ s [] -> Q (0, q, q, s) st) ->
  (forall t ts' q eq s, ts = t :: ts' -> at_ s ts' -> (forall w, t = Word w -> word q eq w) -> Q (code t, q, eq, s) st) ->
  wp P (gettoken ps es) st Q.
Proof.
  intros Ho [Hps Hts] H0 HQ. unfold gettoken. apply wp_bind, wp_skip; [done|done|]. intros s Hs Hl Hnws. rewrite Hts in Hl.
  assert (Hend : forall t (ts' : list tok) (eq : nat), ts = t :: ts' -> at_ eq ts' -> (forall w, t = Word w -> word s eq w) ->
    wp P (s' <- skip es eq ;; ret (code t, s, eq, s')) st Q).
  { intros t ts' eq -> [Hq Hq'] Hw. apply wp_bind, wp_skip; [done|done|]. intros s' Hs' Hl' _. apply wp_ret. eapply HQ; [done| |done]. split; [lia|congruence]. }
  apply wp_bind, wp_ch; [done|lia| |].
  - intros c Hc Hc0 Hlt. rewrite (proj2 (Z.eqb_neq c 0)) by done. apply wp_bind. destruct Hnws as [->|(c' & Hc' & Hws)]; [lia|]. assert (c' = c) as -> by congruence. clear Hc'.
    destruct (strchr symbols c) eqn:Es.
    + destruct (decide (c = 62)) as [->|Hne].
      * simpl. pose proof (lex_gt s Hc) as Hg. rewrite Hl in Hg. apply wp_bind, wp_ch; [done|lia| |].
        -- intros d Hd _ Hlt'. apply wp_ret. rewrite Hd in Hg. destruct (Z.eqb_spec d 62) as [->|Hnd].
           ++ rewrite decide_True in Hg by done. eapply (Hend App); [exact Hg|split; [lia|done]|done].
           ++ rewrite decide_False in Hg by congruence. eapply (Hend Gt); [exact Hg|split; [lia|done]|done].
        -- intros He. apply wp_ret. rewrite decide_False in Hg by (rewrite lookup_ge_None_2 by lia; done).
           eapply (Hend Gt); [exact Hg|split; [lia|done]|done].
      * pose proof (lex_sym s c Hc Es Hne) as Hg. rewrite Hl in Hg. apply strchr_spec in Es. unfold symbols in Es.
        repeat (apply elem_of_cons in Es as [->|Es]; [first [done|simpl; apply wp_ret; unfold sym in Hg; simpl in Hg; eapply (Hend _ _ _ Hg); [split; [lia|done]|done]]|]). by apply elem_of_nil in Es.
    + assert (Hnot : forall d, d ∈ symbols -> c <> d) by (intros d Hd ->; apply strchr_spec in Hd; congruence).
      assert (Hns : forall d, strchr symbols d = true -> (c =? d) = false) by (intros d Hd; apply Z.eqb_neq, Hnot; by apply strchr_spec).
      rewrite !Hns by done. simpl. apply wp_bind, wp_skip_word; [done|lia|]. intros s' Hs' Hw He. apply wp_ret.
      assert (s <> s'). { intros <-. destruct He as [->|(d & Hd & Hsep)]; [lia|]. assert (d = c) as -> by congruence. unfold sep in Hsep. by rewrite Hws, Es in Hsep. }
      pose proof (lex_word s s' ltac:(lia) Hw He) as Hg. rewrite Hl in Hg. eapply (Hend (Word _)); [exact Hg|split; [lia|done]|].
      intros w [= <-]. split_and!; [lia|lia|done|done|done].
  - intros ->. simpl. apply wp_bind, wp_ret. rewrite lex_end in Hl. subst ts. apply wp_bind, wp_skip; [done|lia|]. intros s' Hs' Hl' _. apply wp_ret.
    apply H0; [done|]. split; [lia|]. rewrite Hl'. apply lex_end.
Qed.

Lemma lex_nonempty s c : b !! s = Some c -> ws c = false -> lex (drop s b) <> [].
Proof.
  intros Hc Hws. destruct (strchr symbols c) eqn:Es.
  - destruct (decide (c = 62)) as [->|Hne]; [rewrite (lex_gt s Hc); by case_decide|]. by rewrite (lex_sym s c Hc Es Hne).
  - rewrite (drop_cons s c Hc). unfold lex. simpl. rewrite Hws, Es. by destruct (lexw_starts (drop (Datatypes.S s) b) c []) as (w & ts' & ->).
Qed.

Lemma wp_peek_end st ps ts toks (Q : bool * nat -> sh -> Prop) : on st -> at_ ps ts -> forallb (strchr symbols) toks = true ->
  (forall s, at_ s ts -> (s = es <-> ts = []) -> Q (starts ts (isin toks), s) st) -> wp P (peek ps es toks) st Q.
Proof.
  intros Ho [Hps Hts] Htoks HQ. unfold peek. apply wp_bind, wp_skip; [done|done|]. intros s Hs Hl Hnws. rewrite Hts in Hl.
  assert (Hin : forall d, strchr toks d = true -> strchr symbols d = true).
  { intros d Hd%strchr_spec. apply (proj1 (forallb_forall _ _) Htoks). by apply list_elem_of_In. }
  assert (Hat : at_ s ts) by (split; [lia|done]).
  assert (He : s = es <-> ts = []).
  { rewrite <- Hl. split; [intros ->; apply lex_end|]. intros E. destruct Hnws as [->|(c & Hc & Hws)]; [done|]. exfalso. by apply (lex_nonempty s c). }
  specialize (HQ s Hat He). apply wp_bind, wp_ch; [done|lia| |].
  - intros c Hc Hc0 Hlt. apply wp_ret. rewrite (proj2 (Z.eqb_neq c 0)) by done. simpl.
    replace (strchr toks c) with (starts ts (isin toks)); [done|]. destruct Hnws as [->|(c' & Hc' & Hws)]; [lia|]. assert (c' = c) as -> by congruence.
    destruct (strchr symbols c) eqn:Es.
    + assert (Hlead : exists t ts', ts = t :: ts' /\ lead t = c); [|by destruct Hlead as (t & ts' & -> & <-)]. rewrite <- Hl.
      destruct (decide (c = 62)) as [->|Hne]; [rewrite (lex_gt s Hc); case_decide; by eexists _, _|]. rewrite (lex_sym s c Hc Es Hne). eexists _, _. split; [done|].
      apply strchr_spec in Es. unfold symbols in Es. repeat (apply elem_of_cons in Es as [->|Es]; [done|]). by apply elem_of_nil in Es.
    + rewrite <- Hl, (drop_cons s c Hc). unfold lex. simpl. rewrite Hws, Es. destruct (lexw_starts (drop (Datatypes.S s) b) c []) as (w & ts' & ->). simpl.
      unfold isin. simpl. transitivity false; [|symmetry]; apply not_true_iff_false; intros H%Hin; [done|congruence].
  - intros ->. apply wp_ret. rewrite lex_end in Hl. rewrite <- Hl in HQ. exact HQ.
Qed.
Lemma wp_peek st ps ts toks (Q : bool * nat -> sh -> Prop) : on st -> at_ ps ts -> forallb (strchr symbols) toks = true ->
  (forall s, at_ s ts -> Q (starts ts (isin toks), s) st) -> wp P (peek ps es toks) st Q.
Proof. intros Ho Hat Ht HQ. apply (wp_peek_end st ps ts); [done..|]. intros s Hs _. by apply HQ. Qed.
End rules.

(** ** The tree in the heap *)

Notation pos := (nat * nat)%type.
Definition argv_of (ws : list pos) : list (option nat) := (Some <$> ws.*1) ++ replicate (MAXARGS - length ws) None.
Definition eargv_of (ws : list pos) : list (option nat) := (Some <$> ws.*2) ++ replicate (MAXARGS - length ws) None.

(** The node at [p] is the root of [t]; nodes come after those they point to. *)
Fixpoint tree (h : list node) (p : ptr) (t : ast pos) : Prop :=
  match t with
  | Exec ws => exists i, p = Some i /\ h !! i = Some (EXEC (argv_of ws) (eargv_of ws)) /\ (length ws < MAXARGS)%nat
  | Redir c w m d => exists i j, p = Some i /\ (j < i)%nat /\ h !! i = Some (REDIR (Some j) w.1 w.2 m d) /\ tree h (Some j) c
  | Pipe l r => exists i j k, p = Some i /\ (j < i)%nat /\ (k < i)%nat /\ h !! i = Some (PIPE (Some j) (Some k)) /\ tree h (Some j) l /\ tree h (Some k) r
  | List l r => exists i j k, p = Some i /\ (j < i)%nat /\ (k < i)%nat /\ h !! i = Some (LIST (Some j) (Some k)) /\ tree h (Some j) l /\ tree h (Some k) r
  | Back c => exists i j, p = Some i /\ (j < i)%nat /\ h !! i = Some (BACK (Some j)) /\ tree h (Some j) c
  end.

Lemma tree_ext h h' t : forall p, tree h p t -> h `prefix_of` h' -> tree h' p t.
Proof.
  intros p H Hp. assert (Hl : forall (i : nat) n, h !! i = Some n -> h' !! i = Some n) by (intros i n E; by eapply prefix_lookup_Some).
  revert p H. induction t as [ws|c IH w m d|l IHl r IHr|l IHl r IHr|c IH]; intros p H; simpl in *.
  - destruct H as (i & ? & ? & ?). exists i. auto.
  - destruct H as (i & j & ? & ? & ? & ?). exists i, j. auto.
  - destruct H as (i & j & k & ? & ? & ? & ? & ? & ?). exists i, j, k. split_and!; auto.
  - destruct H as (i & j & k & ? & ? & ? & ? & ? & ?). exists i, j, k. split_and!; auto.
  - destruct H as (i & j & ? & ? & ? & ?). exists i, j. auto.
Qed.
Lemma tree_ptr h p t : tree h p t -> exists i, p = Some i /\ (i < length h)%nat.
Proof.
  intros H. assert (exists i n, p = Some i /\ h !! i = Some n) as (i & n & -> & E); [|exists i; split; [done|by eapply lookup_lt_Some]].
  destruct t; simpl in H; naive_solver.
Qed.

(** [p] is [p0] with the redirections [rs] around it. *)
Inductive wraps (h : list node) (p0 : ptr) : list (Z * Z * pos) -> ptr -> Prop :=
  | wraps_nil : wraps h p0 [] p0
  | wraps_snoc rs i j m d q e : wraps h p0 rs (Some j) -> (j < i)%nat -> h !! i = Some (REDIR (Some j) q e m d) ->
      wraps h p0 (rs ++ [(m, d, (q, e))]) (Some i).

Lemma wraps_tree h p0 rs p t : wraps h p0 rs p -> tree h p0 t -> tree h p (wrap rs t).
Proof.
  intros H Ht. induction H as [|rs i j m d q e H IH Hj Hi]; [done|]. unfold wrap. rewrite foldl_app. simpl. exists i, j. auto.
Qed.
Lemma wraps_ext h h' p0 rs p : wraps h p0 rs p -> (forall (i : nat) c q e m d, h !! i = Some (REDIR c q e m d) -> h' !! i = Some (REDIR c q e m d)) ->
  wraps h' p0 rs p.
Proof. intros H He. induction H as [|rs i j m d q e H IH Hj Hi]; [constructor|]. eapply wraps_snoc; [done|done|]. by apply He. Qed.
Lemma wraps_ptr h p0 rs p : wraps h p0 rs p -> (exists i, p0 = Some i /\ (i < length h)%nat) -> exists i, p = Some i /\ (i < length h)%nat.
Proof. intros [|]; [done|]. intros _. exists i. split; [done|by eapply lookup_lt_Some]. Qed.

(** ** The parser *)

Definition content (w : pos) : list Z := slice w.1 (w.2 - w.1) b.
Definition good (w : pos) : Prop := word w.1 w.2 (content w).
Definition rcontent (r : Z * Z * pos) : Z * Z * str := let '(m, d, w) := r in (m, d, content w).
Fixpoint strings (t : ast pos) : list pos :=
  match t with
  | Exec ws => ws
  | Redir c w _ _ => strings c ++ [w]
  | Pipe l r | List l r => strings l ++ strings r
  | Back c => strings c
  end.

Lemma strings_wrap rs t : strings (wrap rs t) = strings t ++ rs.*2.
Proof.
  revert t. induction rs as [|[[m d] w] rs IH]; intros t; [by rewrite app_nil_r|]. change (wrap ((m, d, w) :: rs) t) with (wrap rs (Redir t w m d)).
  rewrite IH. simpl. by rewrite <- app_assoc.
Qed.
Lemma amap_wrap {V W} (f : V -> W) rs t : amap f (wrap rs t) = wrap ((fun '(m, d, w) => (m, d, f w)) <$> rs) (amap f t).
Proof. revert t. induction rs as [|[[m d] w] rs IH]; intros t; [done|]. simpl. by rewrite IH. Qed.

(** The tokens [ts] have been read up to [ts'] and nodes made: no more than two
    for each token, and [k]. *)
Record parsed (k : nat) (st : sh) (ts : list tok) (st' : sh) (ts' : list tok) : Prop := {
  pa_line : line st' = line st;
  pa_room : room st' = room st;
  pa_heap : heap st `prefix_of` heap st';
  pa_count : (length (heap st') + 2 * length ts' <= length (heap st) + 2 * length ts + k)%nat;
  pa_rest : (length ts' <= length ts)%nat;
}.

Lemma parsed_refl k st ts : parsed k st ts st ts.
Proof. split; [done..|lia|lia]. Qed.
Lemma parsed_trans k1 k2 k st ts st1 ts1 st2 ts2 : parsed k1 st ts st1 ts1 -> parsed k2 st1 ts1 st2 ts2 -> (k1 + k2 <= k)%nat -> parsed k st ts st2 ts2.
Proof.
  intros [A1 A2 A3 A4 A5] [B1 B2 B3 B4 B5] Hk. split; [by rewrite B1|by rewrite B2|by etrans|lia|lia].
Qed.
Lemma parsed_tok k t st ts : parsed k st (t :: ts) st ts.
Proof. split; [done..|simpl; lia|simpl; lia]. Qed.

Section parse.
Context (P : prot sh).
Notation on st := (line st = b ++ [0]).

Lemma wp_new st n (Q : ptr -> sh -> Prop) : (length (heap st) < room st)%nat -> Q (Some (length (heap st))) (st <| heap ::= fun h => h ++ [n] |>) ->
  wp P (new n) st Q.
Proof. intros Hr HQ. unfold wp, new. by rewrite (proj2 (Nat.ltb_lt _ _)) by done. Qed.

Lemma parsed_new st ts n : parsed 1 st ts (st <| heap ::= fun h => h ++ [n] |>) ts.
Proof. split; simpl; [done..|by apply prefix_app_r|rewrite length_app; simpl; lia|lia]. Qed.

Lemma wp_redir_loop p0 fuel : forall st cmd ps ts rs0 (Q : ptr * nat -> sh -> Prop), (length ts < fuel)%nat ->
  on st -> at_ ps ts -> wraps (heap st) p0 rs0 cmd -> (exists i, cmd = Some i /\ (i < length (heap st))%nat) ->
  (length (heap st) + 2 * length ts <= room st)%nat ->
  ((forall rs rest, ~ gredirs ts rs rest) -> forall m, tolerated P m) ->
  (forall st' rs p s rest, gredirs ts (rcontent <$> rs) rest -> parsed 0 st ts st' rest -> at_ s rest -> wraps (heap st') p0 (rs0 ++ rs) p ->
     Forall good rs.*2 -> Q (p, s) st') ->
  wp P (mwhile fuel (redir_step es) (cmd, ps)) st Q.
Proof.
  induction fuel as [|fuel IH]; intros st cmd ps ts rs0 Q Hfuel Ho Hat Hw Hcmd Hroom HF HS; [lia|]. cbn [mwhile]. apply wp_bind. set (K := mwhile fuel (redir_step es)). unfold redir_step.
  apply wp_bind, (wp_peek P st ps ts); [done|done|done|]. intros s1 Hat1. destruct (starts ts (isin [60; 62])) eqn:Est.
  2: { apply wp_ret, wp_ret. apply (HS st [] _ _ ts); [by constructor|apply parsed_refl|done|by rewrite app_nil_r|constructor]. }
  destruct ts as [|t ts]; [done|]. assert (exists m d, redir_of t = Some (m, d)) as (m & d & Hrd) by (destruct t; naive_solver).
  apply wp_bind, (wp_gettoken P st s1 (t :: ts)); [done|done|done|]. intros t' ts' q0 eq0 s2 [= <- <-] Hat2 _.
  apply wp_bind, (wp_gettoken P st s2 ts); [done|done| |].
  { intros -> q s3 _. simpl. apply HF. intros rs rest H. inversion H; subst; simpl in *; congruence. }
  intros t2 ts2 q e s3 -> Hat3 Hword. destruct (word_or t2) as [[w ->]|[Hc Hnw]].
  - specialize (Hword w eq_refl). assert (Hcw : content (q, e) = w) by apply Hword. simpl.
    assert (Hcont : wp P (redircmd cmd q e m d) st (fun a s' => wp P (ret (inl (a, s3))) s' (fun a0 s'0 => wp P
      match a0 with inl a' => K a' | inr b0 => ret b0 end s'0 Q))).
    { simpl in Hroom, Hfuel. apply wp_new; [lia|]. apply wp_ret. destruct Hcmd as (j & -> & Hj). unfold K. eapply (IH _ _ _ ts2 (rs0 ++ [(m, d, (q, e))])).
      - lia.
      - done.
      - done.
      - eapply wraps_snoc; [|exact Hj|simpl; by rewrite lookup_app_r, Nat.sub_diag by lia].
        eapply wraps_ext; [exact Hw|]. intros i c0 q1 e1 m1 d1 Hi. simpl. by apply lookup_app_l_Some.
      - eexists. split; [done|]. simpl. rewrite length_app. simpl. lia.
      - simpl. rewrite length_app. simpl. lia.
      - intros Hn. apply HF. intros rs rest H. inversion H; subst; [congruence|]. by eapply Hn.
      - intros st' rs p s rest H1 H2 H3 H4 H5. apply (HS st' ((m, d, (q, e)) :: rs) p s rest).
        + simpl. rewrite Hcw. by constructor.
        + destruct H2 as [A1 A2 A3 A4 A5]. simpl in *. rewrite length_app in A4. split; [done|done|etrans; [|exact A3]; by apply prefix_app_r|simpl in *; lia|simpl; lia].
        + done.
        + by rewrite <- app_assoc in H4.
        + simpl. constructor; [|done]. unfold good. by rewrite Hcw. }
    destruct t; try done; injection Hrd as <- <-; apply wp_bind; exact Hcont.
  - rewrite Hc. simpl. apply HF. intros rs rest H. inversion H; subst; simpl in *; [congruence|]. by eapply Hnw.
Qed.

Lemma wp_parseredirs p0 st cmd ps ts rs0 (Q : ptr * nat -> sh -> Prop) :
  on st -> at_ ps ts -> wraps (heap st) p0 rs0 cmd -> (exists i, cmd = Some i /\ (i < length (heap st))%nat) ->
  (length (heap st) + 2 * length ts <= room st)%nat ->
  ((forall rs rest, ~ gredirs ts rs rest) -> forall m, tolerated P m) ->
  (forall st' rs p s rest, gredirs ts (rcontent <$> rs) rest -> parsed 0 st ts st' rest -> at_ s rest -> wraps (heap st') p0 (rs0 ++ rs) p ->
     Forall good rs.*2 -> Q (p, s) st') ->
  wp P (parseredirs cmd ps es) st Q.
Proof. intros Ho Hat. pose proof (at_count _ _ Hat). apply wp_redir_loop; [lia|done|done]. Qed.

Lemma args_snoc (f : pos -> nat) ws w : (length ws < MAXARGS)%nat ->
  <[length ws := Some (f w)]> ((Some <$> (f <$> ws)) ++ replicate (MAXARGS - length ws) None) =
  (Some <$> (f <$> (ws ++ [w]))) ++ replicate (MAXARGS - length (ws ++ [w])) None.
Proof.
  intros Hl. rewrite insert_app_r_alt by (rewrite !length_fmap; lia). rewrite !length_fmap, Nat.sub_diag. rewrite !fmap_app, <- app_assoc. f_equal.
  rewrite length_app. simpl. replace (MAXARGS - length ws)%nat with (Datatypes.S (MAXARGS - (length ws + 1))) by lia. done.
Qed.
Lemma args_end (f : pos -> nat) ws : (length ws < MAXARGS)%nat ->
  <[length ws := None]> ((Some <$> (f <$> ws)) ++ replicate (MAXARGS - length ws) None) = (Some <$> (f <$> ws)) ++ replicate (MAXARGS - length ws) None.
Proof.
  intros Hl. rewrite insert_app_r_alt by (rewrite !length_fmap; lia). rewrite !length_fmap, Nat.sub_diag.
  by replace (MAXARGS - length ws)%nat with (Datatypes.S (MAXARGS - (length ws + 1))) by lia.
Qed.
Lemma length_args (f : pos -> nat) ws : (length ws < MAXARGS)%nat ->
  length ((Some <$> (f <$> ws)) ++ replicate (MAXARGS - length ws) None) = MAXARGS.
Proof. intros Hl. rewrite length_app, !length_fmap, length_replicate. lia. Qed.

Definition exec_node (ws : list pos) : node := EXEC (argv_of ws) (eargv_of ws).

Lemma wp_set_arg st e ws a1 a2 ws' (Q : unit -> sh -> Prop) : heap st !! e = Some (exec_node ws) -> (length ws < MAXARGS)%nat ->
  EXEC (<[length ws := a1]> (argv_of ws)) (<[length ws := a2]> (eargv_of ws)) = exec_node ws' ->
  Q tt (st <| heap ::= <[e := exec_node ws']> |>) -> wp P (set_arg (Some e) (length ws) a1 a2) st Q.
Proof.
  intros He Hl Hn HQ. unfold wp, set_arg. rewrite He. unfold exec_node, argv_of, eargv_of in *. rewrite !length_args by done.
  rewrite (proj2 (Nat.ltb_lt _ _) Hl). simpl. by rewrite Hn.
Qed.

(** What the loop of [parseexec] does to the heap above [h0], whose first node is
    the one that gets the arguments. *)
Record added (h0 : list node) (st : sh) (ts : list tok) (st' : sh) (ts' : list tok) : Prop := {
  ad_line : line st' = line st;
  ad_room : room st' = room st;
  ad_heap : h0 `prefix_of` heap st';
  ad_count : (length (heap st') + 2 * length ts' <= length (heap st) + 2 * length ts)%nat;
  ad_rest : (length ts' <= length ts)%nat;
}.

Lemma prefix_insert (h0 h : list node) n : h0 `prefix_of` h -> h0 `prefix_of` <[length h0 := n]> h.
Proof. intros [k ->]. rewrite insert_app_r_alt by lia. by apply prefix_app_r. Qed.

Lemma wp_arg_loop h0 fuel : let e := length h0 in forall st r ps ts ws0 rs0 (Q : nat * ptr * nat -> sh -> Prop), (length ts < fuel)%nat ->
  on st -> at_ ps ts -> h0 `prefix_of` heap st -> heap st !! e = Some (exec_node ws0) -> (length ws0 < MAXARGS)%nat ->
  wraps (heap st) (Some e) rs0 r -> (length (heap st) + 2 * length ts <= room st)%nat ->
  ((forall ws rs rest, ~ gargs (length ws0) ts ws rs rest) -> forall m, tolerated P m) ->
  (forall st' ws rs p s rest, gargs (length ws0) ts (content <$> ws) (rcontent <$> rs) rest -> added h0 st ts st' rest -> at_ s rest ->
     heap st' !! e = Some (exec_node (ws0 ++ ws)) -> (length (ws0 ++ ws) < MAXARGS)%nat ->
     wraps (heap st') (Some e) (rs0 ++ rs) p -> Forall good ws -> Forall good rs.*2 -> Q (length (ws0 ++ ws), p, s) st') ->
  wp P (mwhile fuel (arg_step (Some e) es) (length ws0, r, ps)) st Q.
Proof.
  intros e. induction fuel as [|fuel IH]; intros st r ps ts ws0 rs0 Q Hfuel Ho Hat Hpre He Hl0 Hw Hroom HF HS; [lia|].
  assert (Hvalid : exists i, r = Some i /\ (i < length (heap st))%nat).
  { eapply wraps_ptr; [exact Hw|]. exists e. split; [done|by eapply lookup_lt_Some]. }
  assert (Hstop : ts = [] \/ starts ts (isin [124; 41; 38; 59]) = true -> forall s, at_ s ts -> Q (length ws0, r, s) st).
  { intros Hst s Hs. specialize (HS st [] [] r s ts). rewrite !app_nil_r in HS. apply HS; [by constructor|split; [done|done|done|lia|lia]|done|done|done|done|constructor|constructor]. }
  cbn [mwhile]. apply wp_bind. set (K := mwhile fuel (arg_step (Some e) es)). unfold arg_step. apply wp_bind, (wp_peek P st ps ts); [done|done|done|].
  intros s1 Hat1. destruct (starts ts (isin [124; 41; 38; 59])) eqn:Est; [apply wp_ret, wp_ret, Hstop; [by right|done]|].
  apply wp_bind, (wp_gettoken P st s1 ts); [done|done| |].
  { intros -> q s2 Hs2. simpl. apply wp_ret, wp_ret, Hstop; [by left|done]. }
  intros t ts2 q eq s2 -> Hat2 Hword. destruct (word_or t) as [[w ->]|[Hc Hnw]].
  2: { rewrite (proj2 (Z.eqb_neq (code t) 0)) by (by destruct t). rewrite Hc. simpl. apply HF. intros ws rs rest H. inversion H; subst; [|by eapply Hnw].
       match goal with H : _ \/ _ |- _ => destruct H; [done|congruence] end. }
  specialize (Hword w eq_refl). assert (Hcw : content (q, eq) = w) by apply Hword. simpl. simpl in Hroom, Hfuel. apply wp_bind.
  eapply (wp_set_arg st e ws0 _ _ (ws0 ++ [(q, eq)])); [done|done|unfold exec_node, argv_of, eargv_of; f_equal; [by apply (args_snoc fst ws0 (q, eq))|by apply (args_snoc snd ws0 (q, eq))]|].
  assert (Hl1 : length (ws0 ++ [(q, eq)]) = (length ws0 + 1)%nat) by (by rewrite length_app). destruct (Nat.leb_spec MAXARGS (Datatypes.S (length ws0))) as [Hge|Hlt].
  { apply HF. intros ws rs rest H. inversion H; subst; [|lia]. match goal with H : _ \/ _ |- _ => destruct H; done end. }
  assert (He1 : (e < length (heap st))%nat) by (by eapply lookup_lt_Some).
  apply wp_bind. eapply (wp_parseredirs (Some e) _ r s2 ts2 rs0); [done|done| |by simpl; rewrite length_insert|simpl; rewrite length_insert; lia| |].
  - eapply wraps_ext; [exact Hw|]. intros i c q1 e1 m1 d1 Hi. simpl. rewrite list_lookup_insert_ne; [done|]. intros <-. by rewrite He in Hi.
  - intros Hn. apply HF. intros ws rs rest H. inversion H; subst; [|by eapply Hn]. match goal with H : _ \/ _ |- _ => destruct H; done end.
  - intros st2 rs1 p1 s3 ts3 Hg1 X1 Hat3 Hw1 Hgood1. apply wp_ret. simpl. unfold K. replace (Datatypes.S (length ws0)) with (length (ws0 ++ [(q, eq)])) by lia.
    destruct X1 as [A1 A2 A3 A4 A5]. simpl in A1, A2, A3, A4. rewrite length_insert in A4.
    apply (IH st2 p1 s3 ts3 (ws0 ++ [(q, eq)]) (rs0 ++ rs1)); [lia|congruence|done| | |lia|done|lia| |].
    + etrans; [|exact A3]. by apply prefix_insert.
    + eapply prefix_lookup_Some; [|exact A3]. by apply list_lookup_insert_eq.
    + intros Hn. apply HF. intros ws rs rest H. inversion H; subst; [match goal with H : _ \/ _ |- _ => destruct H; done end|]. detg. eapply Hn. by rewrite Hl1.
    + intros st' ws rs p s rest H1 H2 H3 H4 H5 H6 H7 H8. rewrite <- app_assoc in H4, H5, H6. rewrite <- app_assoc. apply (HS st' ((q, eq) :: ws) (rs1 ++ rs) p s rest); try done.
      * rewrite fmap_app. rewrite Hl1 in H1. cbn [fmap list_fmap]. rewrite Hcw. by econstructor; [lia|..].
      * destruct H2 as [B1 B2 B3 B4 B5]. split; [congruence|congruence|done|simpl; lia|simpl; lia].
      * constructor; [|done]. unfold good. by rewrite Hcw.
      * rewrite fmap_app. by apply Forall_app.
Qed.

Lemma wp_back_loop fuel : forall st cmd ps ts t (Q : ptr * nat -> sh -> Prop), (length ts < fuel)%nat ->
  on st -> at_ ps ts -> tree (heap st) cmd t -> Forall good (strings t) -> (length (heap st) + 2 * length ts <= room st)%nat ->
  (forall st' t' p s rest, gbacks (amap content t) ts (amap content t') rest -> parsed 0 st ts st' rest -> at_ s rest -> tree (heap st') p t' ->
     Forall good (strings t') -> Q (p, s) st') ->
  wp P (mwhile fuel (back_step es) (cmd, ps)) st Q.
Proof.
  induction fuel as [|fuel IH]; intros st cmd ps ts t Q Hfuel Ho Hat Ht Hg Hroom HS; [lia|]. cbn [mwhile]. apply wp_bind.
  set (K := mwhile fuel (back_step es)). unfold back_step. apply wp_bind, (wp_peek P st ps ts); [done|done|done|].
  intros s1 Hat1. destruct (starts ts (isin [38])) eqn:Est.
  2: { apply wp_ret, wp_ret. apply (HS st t cmd s1 ts); [by constructor|apply parsed_refl|done..]. }
  destruct ts as [|t0 ts]; [done|]. assert (t0 = Amp) as -> by (by destruct t0).
  apply wp_bind, (wp_gettoken P st s1 (Amp :: ts)); [done|done|done|]. intros t' ts' q0 eq0 s2 [= <- <-] Hat2 _. simpl in Hroom, Hfuel.
  destruct (tree_ptr _ _ _ Ht) as (j & -> & Hj). apply wp_bind, wp_new; [lia|]. apply wp_ret. unfold K.
  apply (IH _ _ s2 ts (Back t)); [lia|done|done| |done|simpl; rewrite length_app; simpl; lia|].
  - exists (length (heap st)), j. split_and!; [done|done|simpl; by rewrite lookup_app_r, Nat.sub_diag by lia|].
    eapply tree_ext; [exact Ht|]. by apply prefix_app_r.
  - intros st' t2 p s rest H1 H2 H3 H4 H5. apply (HS st' t2 p s rest); [by constructor| |done..].
    destruct H2 as [A1 A2 A3 A4 A5]. simpl in *. rewrite length_app in A4. simpl in A4. split; [done|done|etrans; [|exact A3]; by apply prefix_app_r|simpl; lia|simpl; lia].
Qed.

(** [f] decides [g], and builds the tree. *)
Definition decides (g : list tok -> ast str -> list tok -> Prop) (f : nat -> nat -> M sh (ptr * nat)) (ok : list tok -> Prop) : Prop :=
  forall st ps ts (Q : ptr * nat -> sh -> Prop), ok ts -> on st -> at_ ps ts -> (length (heap st) + 2 * length ts + 1 <= room st)%nat ->
  ((forall t rest, ~ g ts t rest) -> forall m, tolerated P m) ->
  (forall st' t p s rest, g ts (amap content t) rest -> parsed 1 st ts st' rest -> at_ s rest -> tree (heap st') p t -> Forall good (strings t) ->
     Q (p, s) st') ->
  wp P (f ps es) st Q.

(** A node for two trees, the second of which has been parsed after the first. *)
Lemma tree_two st1 st2 ts1 k ts2 c n t j : parsed k st1 ts1 st2 ts2 -> tree (heap st1) c t -> c = Some j -> tree (heap (st2 <| heap ::= fun h => h ++ [n] |>)) (Some j) t.
Proof.
  intros X Ht ->. eapply tree_ext; [exact Ht|]. etrans; [apply X|]. by apply prefix_app_r.
Qed.

Lemma parsepipe_step fuel : decides gexec (parse fuel Fexec) (fun ts => 4 * length ts + 2 <= fuel)%nat ->
  decides gpipe (parse fuel Fpipe) (fun ts => 4 * length ts + 3 <= fuel)%nat ->
  decides gpipe (parse (Datatypes.S fuel) Fpipe) (fun ts => 4 * length ts + 3 <= Datatypes.S fuel)%nat.
Proof.
  intros He Hp st ps ts Q Hf Ho Hat Hroom HF HS. unfold decides in He, Hp. cbn [parse]. unfold parsepipe. apply wp_bind, (He _ _ ts); [lia|done|done|done| |].
  { intros Hno. apply HF. intros t rest H. inversion H; subst; by eapply Hno. }
  intros st1 t p s1 ts1 Hg1 X1 Hat1 Ht1 Hgood1. destruct X1 as [A1 A2 A3 A4 A5]. apply wp_bind, (wp_peek P st1 s1 ts1); [congruence|done|done|].
  intros s2 Hat2. destruct (starts ts1 (isin [124])) eqn:Est.
  2: { apply wp_ret. apply (HS st1 t p s2 ts1); [by constructor|done|done..]. }
  destruct ts1 as [|t0 ts1]; [done|]. assert (t0 = Bar) as -> by (by destruct t0). simpl in A4, A5.
  apply wp_bind, (wp_gettoken P st1 s2 (Bar :: ts1)); [congruence|done|done|]. intros t' ts' q0 eq0 s3 [= <- <-] Hat3 _.
  destruct (tree_ptr _ _ _ Ht1) as (j & -> & Hj).
  apply wp_bind, (Hp _ _ ts1); [lia|congruence|done|lia| |].
  { intros Hno. apply HF. intros t2 rest H. inversion H as [? ? ? H1 H2|? ? ? ? ? H1 H2]; subst.
    - destruct (proj1 grammar_det _ _ _ H1 _ _ Hg1) as [_ ->]. done.
    - destruct (proj1 grammar_det _ _ _ H1 _ _ Hg1) as [_ [= ->]]. by eapply Hno. }
  intros st2 t2 p2 s4 rest Hg2 X2 Hat4 Ht2 Hgood2. destruct (tree_ptr _ _ _ Ht2) as (k & -> & Hk). pose proof X2 as [B1 B2 B3 B4 B5].
  pose proof (prefix_length _ _ B3) as Hpl. apply wp_bind, wp_new; [lia|]. apply wp_ret. apply (HS _ (Pipe t t2) _ s4 rest).
  - by econstructor.
  - split; simpl; [congruence|congruence|etrans; [exact A3|]; etrans; [exact B3|by apply prefix_app_r]|rewrite length_app; simpl; lia|lia].
  - done.
  - exists (length (heap st2)), j, k. split_and!; [done|lia|lia|simpl; by rewrite lookup_app_r, Nat.sub_diag by lia| |].
    + by eapply tree_two.
    + eapply tree_ext; [exact Ht2|]. by apply prefix_app_r.
  - simpl. by apply Forall_app.
Qed.

Lemma parseline_step fuel : decides gpipe (parse fuel Fpipe) (fun ts => 4 * length ts + 3 <= fuel)%nat ->
  decides gline (parse fuel Fline) (fun ts => 4 * length ts + 4 <= fuel)%nat ->
  decides gline (parse (Datatypes.S fuel) Fline) (fun ts => 4 * length ts + 4 <= Datatypes.S fuel)%nat.
Proof.
  intros Hp Hl st ps ts Q Hf Ho Hat Hroom HF HS. unfold decides in Hp, Hl. cbn [parse]. unfold parseline. apply wp_bind, (Hp _ _ ts); [lia|done|done|done| |].
  { intros Hno. apply HF. intros t rest H. inversion H; subst; by eapply Hno. }
  intros st0 t p s0 ts0 Hg0 X0 Hat0 Ht0 Hgood0. pose proof (at_count _ _ Hat0) as Hcnt. pose proof X0 as [A1 A2 A3 A4 A5].
  apply wp_bind. cbn [snd]. apply (wp_back_loop _ st0 p s0 ts0 t); [lia|congruence|done|done|done|lia|].
  intros st1 t1 p1 s1 ts1 Hg1 X1 Hat1 Ht1 Hgood1. assert (X01 : parsed 1 st ts st1 ts1) by (eapply parsed_trans; [exact X0|exact X1|lia]). clear A1 A2 A3 A4 A5 X0 X1.
  pose proof X01 as [A1 A2 A3 A4 A5]. apply wp_bind, (wp_peek P st1 s1 ts1); [congruence|done|done|]. intros s2 Hat2. destruct (starts ts1 (isin [59])) eqn:Est.
  2: { apply wp_ret. apply (HS st1 t1 p1 s2 ts1); [by econstructor|done..]. }
  destruct ts1 as [|t2 ts1]; [done|]. assert (t2 = Semi) as -> by (by destruct t2). simpl in A4, A5.
  apply wp_bind, (wp_gettoken P st1 s2 (Semi :: ts1)); [congruence|done|done|]. intros t' ts' q0 eq0 s3 [= <- <-] Hat3 _.
  destruct (tree_ptr _ _ _ Ht1) as (j & -> & Hj). apply wp_bind, (Hl _ _ ts1); [lia|congruence|done|lia| |].
  { intros Hno. apply HF. intros t2 rest H. inversion H as [? ? ? ? ? H1 H2|? ? ? ? ? ? ? H1 H2]; subst.
    all: destruct (proj1 (proj2 grammar_det) _ _ _ H1 _ _ Hg0) as [-> ->]; detg. by eapply Hno. }
  intros st2 t2 p2 s4 rest Hg2 X2 Hat4 Ht2 Hgood2. destruct (tree_ptr _ _ _ Ht2) as (k & -> & Hk). pose proof X2 as [B1 B2 B3 B4 B5].
  pose proof (prefix_length _ _ B3) as Hpl. apply wp_bind, wp_new; [lia|]. apply wp_ret. apply (HS _ (List t1 t2) _ s4 rest).
  - by eapply gl_more.
  - split; simpl; [congruence|congruence|etrans; [exact A3|]; etrans; [exact B3|by apply prefix_app_r]|rewrite length_app; simpl; lia|lia].
  - done.
  - exists (length (heap st2)), j, k. split_and!; [done|lia|lia|simpl; by rewrite lookup_app_r, Nat.sub_diag by lia| |].
    + by eapply tree_two.
    + eapply tree_ext; [exact Ht2|]. by apply prefix_app_r.
  - simpl. by apply Forall_app.
Qed.

Lemma parseblock_step fuel : decides gline (parse fuel Fline) (fun ts => 4 * length ts + 4 <= fuel)%nat ->
  decides gexec (parse (Datatypes.S fuel) Fblock) (fun ts => starts ts (isin [40]) = true /\ (4 * length ts + 1 <= Datatypes.S fuel)%nat).
Proof.
  intros Hl st ps ts Q [Hst Hf] Ho Hat Hroom HF HS. unfold decides in Hl. cbn [parse]. unfold parseblock. apply wp_bind, (wp_peek P st ps ts); [done|done|done|].
  intros s1 Hat1. rewrite Hst. simpl. destruct ts as [|t0 ts]; [done|]. assert (t0 = Lp) as -> by (by destruct t0). simpl in Hf, Hroom.
  apply wp_bind, (wp_gettoken P st s1 (Lp :: ts)); [done|done|done|]. intros t' ts' q0 eq0 s2 [= <- <-] Hat2 _.
  apply wp_bind, (Hl _ _ ts); [lia|done|done|lia| |].
  { intros Hno. apply HF. intros t rest H. inversion H; subst; [done|]. by eapply Hno. }
  intros st1 t p s3 ts1 Hg1 X1 Hat3 Ht1 Hgood1. pose proof X1 as [A1 A2 A3 A4 A5]. apply wp_bind, (wp_peek P st1 s3 ts1); [congruence|done|done|].
  intros s4 Hat4. destruct (starts ts1 (isin [41])) eqn:Est; simpl.
  2: { apply HF. intros t2 rest H. inversion H; subst; [done|].
       match goal with H : gline ts _ _ |- _ => destruct (proj2 (proj2 grammar_det) _ _ _ H _ _ Hg1) as [_ <-]; done end. }
  destruct ts1 as [|t2 ts1]; [done|]. assert (t2 = Rp) as -> by (by destruct t2). simpl in A4, A5.
  apply wp_bind, (wp_gettoken P st1 s4 (Rp :: ts1)); [congruence|done|done|]. intros t' ts' q1 eq1 s5 [= <- <-] Hat5 _.
  apply (wp_parseredirs p st1 p s5 ts1 []); [congruence|done|constructor|by eapply tree_ptr|lia| |].
  { intros Hno. apply HF. intros t2 rest H. inversion H; subst; [done|].
    match goal with H : gline ts _ _ |- _ => destruct (proj2 (proj2 grammar_det) _ _ _ H _ _ Hg1) as [_ [= <-]] end. by eapply Hno. }
  intros st2 rs p2 s6 rest Hg2 X2 Hat6 Hw2 Hgood2. pose proof X2 as [B1 B2 B3 B4 B5]. apply (HS st2 (wrap rs t) p2 s6 rest).
  - rewrite amap_wrap. by eapply ge_block.
  - split; [congruence|congruence|by etrans|simpl; lia|simpl; lia].
  - done.
  - eapply wraps_tree; [exact Hw2|]. by eapply tree_ext.
  - rewrite strings_wrap. by apply Forall_app.
Qed.

Lemma parseexec_step fuel : decides gexec (parse fuel Fblock) (fun ts => starts ts (isin [40]) = true /\ (4 * length ts + 1 <= fuel)%nat) ->
  decides gexec (parse (Datatypes.S fuel) Fexec) (fun ts => 4 * length ts + 2 <= Datatypes.S fuel)%nat.
Proof.
  intros Hbl st ps ts Q Hf Ho Hat Hroom HF HS. unfold decides in Hbl. cbn [parse]. unfold parseexec. apply wp_bind, (wp_peek P st ps ts); [done|done|done|].
  intros s1 Hat1. destruct (starts ts (isin [40])) eqn:Est; [apply (Hbl _ _ ts); [split; [done|lia]|done..]|].
  apply wp_bind, wp_new; [lia|]. set (st1 := st <| heap ::= _ |>).
  assert (He1 : heap st1 !! length (heap st) = Some (exec_node [])) by (unfold st1; simpl; by rewrite lookup_app_r, Nat.sub_diag by lia).
  assert (Hl1 : length (heap st1) = (length (heap st) + 1)%nat) by (unfold st1; simpl; rewrite length_app; done).
  assert (Hr1 : room st1 = room st) by done. assert (Ho1 : line st1 = line st) by done.
  apply wp_bind, (wp_parseredirs (Some (length (heap st))) st1 _ s1 ts []); [done|done|constructor|eexists; split; [done|lia]|rewrite Hl1, ?Hr1; lia| |].
  { intros Hno. apply HF. intros t rest H. inversion H; subst; [by eapply Hno|done]. }
  intros st2 rs1 r s2 ts2 Hg2 X2 Hat2 Hw2 Hgood2. destruct X2 as [A1 A2 A3 A4 A5]. pose proof (at_count _ _ Hat2) as Hcnt.
  assert (Hpre : (heap st) `prefix_of` heap st2) by (etrans; [|exact A3]; unfold st1; simpl; by apply prefix_app_r).
  apply wp_bind, (wp_arg_loop (heap st) _ st2 r s2 ts2 [] rs1); [lia|congruence|done|done|by eapply prefix_lookup_Some|simpl; unfold MAXARGS; lia|done|lia| |].
  { intros Hno. apply HF. intros t rest H. inversion H; subst; [|done]. detg. by eapply Hno. }
  intros st3 ws rs2 p s3 rest Hg3 [B1 B2 B3 B4 B5] Hat3 He3 Hlen Hw3 Hgw Hgr. simpl in *.
  apply wp_bind, (wp_set_arg st3 _ ws None None ws); [done|done|unfold exec_node, argv_of, eargv_of; f_equal; [by apply (args_end fst)|by apply (args_end snd)]|].
  apply wp_ret. assert (E3 : (st3 <| heap ::= <[length (heap st) := exec_node ws]> |>) = st3).
  { destruct st3 as [ln3 hp3 rm3]. simpl in *. by rewrite list_insert_id. }
  rewrite E3. apply (HS _ (wrap (rs1 ++ rs2) (Exec ws)) p s3 rest).
  - rewrite amap_wrap, fmap_app. by econstructor.
  - split; simpl; [congruence|congruence|done|lia|lia].
  - done.
  - eapply wraps_tree; [exact Hw3|]. by exists (length (heap st)).
  - rewrite strings_wrap, fmap_app. simpl. by repeat apply Forall_app_2.
Qed.

Lemma parse_decides fuel :
  decides gline (parse fuel Fline) (fun ts => 4 * length ts + 4 <= fuel)%nat /\
  decides gpipe (parse fuel Fpipe) (fun ts => 4 * length ts + 3 <= fuel)%nat /\
  decides gexec (parse fuel Fblock) (fun ts => starts ts (isin [40]) = true /\ (4 * length ts + 1 <= fuel)%nat) /\
  decides gexec (parse fuel Fexec) (fun ts => 4 * length ts + 2 <= fuel)%nat.
Proof.
  induction fuel as [|fuel (IH1 & IH2 & IH3 & IH4)]; [split_and!; intros st ps ts Q Hf; lia|].
  split_and!; [by apply parseline_step|by apply parsepipe_step|by apply parseblock_step|by apply parseexec_step].
Qed.
End parse.

(** ** Termination of the strings *)

(** [m'] is [m] with NULs at the positions [l]. *)
Definition zapped (l : list nat) (m m' : list Z) : Prop :=
  length m' = length m /\ forall i, m' !! i = if decide (i ∈ l) then (fun _ => 0) <$> m !! i else m !! i.

Lemma zapped_nil m : zapped [] m m.
Proof. split; [done|]. intros i. rewrite decide_False; [done|]. apply not_elem_of_nil. Qed.
Lemma zapped_app l1 l2 m m1 m2 : zapped l1 m m1 -> zapped l2 m1 m2 -> zapped (l1 ++ l2) m m2.
Proof.
  intros [A1 A2] [B1 B2]. split; [congruence|]. intros i. rewrite B2, A2.
  destruct (decide (i ∈ l1)), (decide (i ∈ l2)), (decide (i ∈ l1 ++ l2)) as [H|H]; rewrite elem_of_app in H; try tauto.
  by destruct (m !! i).
Qed.
Lemma zapped_one p m : (p < length m)%nat -> zapped [p] m (<[p := 0]> m).
Proof.
  intros Hp. split; [apply length_insert|]. intros i. destruct (decide (i ∈ [p])) as [->%list_elem_of_singleton|H].
  - rewrite list_lookup_insert_eq by done. destruct (lookup_lt_is_Some_2 m p Hp) as [c ->]. done.
  - rewrite list_lookup_insert_ne; [done|]. intros ->. apply H. by apply list_elem_of_singleton.
Qed.

Section nul.
Context (P : prot sh).

Lemma wp_nul st p (Q : unit -> sh -> Prop) : (p < length (line st))%nat ->
  (forall m, zapped [p] (line st) m -> Q tt (st <| line := m |>)) -> wp P (nul p) st Q.
Proof.
  intros Hp HQ. unfold wp, nul. rewrite (proj2 (Nat.ltb_lt _ _)) by done. simpl. by apply HQ, zapped_one.
Qed.

Lemma wp_nul_args ws st (Q : unit -> sh -> Prop) : (length ws < MAXARGS)%nat -> Forall (fun w : pos => w.2 < length (line st))%nat ws ->
  (forall m, zapped ws.*2 (line st) m -> Q tt (st <| line := m |>)) -> wp P (nul_args (argv_of ws) (eargv_of ws)) st Q.
Proof.
  intros Hl Hall HQ. unfold nul_args. assert (Hla : length (argv_of ws) = MAXARGS) by (by apply (length_args fst)). rewrite Hla.
  assert (H : forall done_ rest fuel (st1 : sh), ws = done_ ++ rest -> (length rest < fuel)%nat -> (exists m, zapped done_.*2 (line st) m /\ st1 = (st <| line := m |>)) ->
    wp P (mwhile fuel (fun i => match argv_of ws !! i with
      | Some (Some _) => match eargv_of ws !! i with Some (Some e) => nul e ;;; ret (inl (Datatypes.S i)) | _ => fault end
      | Some None => ret (inr tt) | None => fault end) (length done_)) st1 Q).
  { intros done_ rest. revert done_. induction rest as [|w rest IH]; intros done_ fuel st1 -> Hf (m & Hm & ->); (destruct fuel as [|fuel]; [simpl in Hf; lia|]); cbn [mwhile]; apply wp_bind.
    - rewrite app_nil_r in *. unfold argv_of at 1. rewrite lookup_app_r by (rewrite !length_fmap; lia). rewrite !length_fmap, Nat.sub_diag.
      replace (MAXARGS - length done_)%nat with (Datatypes.S (MAXARGS - (length done_ + 1))) by lia. simpl. apply wp_ret, wp_ret. by apply HQ.
    - unfold argv_of at 1, eargv_of at 1. rewrite !lookup_app_l by (rewrite !length_fmap, length_app; simpl; lia).
      rewrite !list_lookup_fmap, !lookup_app_r, Nat.sub_diag by lia. simpl. apply wp_bind. apply Forall_app in Hall as [_ Hall]. apply Forall_cons in Hall as [Hw _].
      apply wp_nul; [simpl; destruct Hm as [-> _]; done|]. intros m1 Hm1. apply wp_ret.
      replace (Datatypes.S (length done_)) with (length (done_ ++ [w])) by (rewrite length_app; simpl; lia). apply (IH (done_ ++ [w])); [by rewrite <- app_assoc|simpl in Hf; lia|].
      exists m1. split; [|done]. rewrite fmap_app. by eapply zapped_app. }
  apply (H [] ws); [done|lia|]. exists (line st). split; [apply zapped_nil|by destruct st].
Qed.

Lemma wp_nulterminate t : forall fuel st i (Q : ptr -> sh -> Prop), (i < fuel)%nat -> tree (heap st) (Some i) t ->
  Forall (fun w : pos => w.2 < length (line st))%nat (strings t) ->
  (forall m, zapped (strings t).*2 (line st) m -> Q (Some i) (st <| line := m |>)) ->
  wp P (nulterminate fuel (Some i)) st Q.
Proof.
  assert (Htwo : forall l r : ast pos,
    (forall fuel st i (Q : ptr -> sh -> Prop), (i < fuel)%nat -> tree (heap st) (Some i) l -> Forall (fun w : pos => w.2 < length (line st))%nat (strings l) ->
      (forall m, zapped (strings l).*2 (line st) m -> Q (Some i) (st <| line := m |>)) -> wp P (nulterminate fuel (Some i)) st Q) ->
    (forall fuel st i (Q : ptr -> sh -> Prop), (i < fuel)%nat -> tree (heap st) (Some i) r -> Forall (fun w : pos => w.2 < length (line st))%nat (strings r) ->
      (forall m, zapped (strings r).*2 (line st) m -> Q (Some i) (st <| line := m |>)) -> wp P (nulterminate fuel (Some i)) st Q) ->
    forall fuel st j k (Q : unit -> sh -> Prop), (j < fuel)%nat -> (k < fuel)%nat -> tree (heap st) (Some j) l -> tree (heap st) (Some k) r ->
      Forall (fun w : pos => w.2 < length (line st))%nat (strings l ++ strings r) ->
      (forall m, zapped (strings l ++ strings r).*2 (line st) m -> Q tt (st <| line := m |>)) ->
      wp P (nulterminate fuel (Some j) ;;; nulterminate fuel (Some k) ;;; ret tt) st Q).
  { intros l r IHl IHr fuel st j k Q Hj Hk Hl Hr [H1 H2]%Forall_app HQ. apply wp_bind, IHl; [done..|]. intros m1 Hm1. apply wp_bind, IHr; [done|done| |].
    - simpl. by rewrite (proj1 Hm1).
    - intros m2 Hm2. apply wp_ret. apply (HQ m2). rewrite fmap_app. by eapply zapped_app. }
  induction t as [ws|c IH w m0 d|l IHl r IHr|l IHl r IHr|c IH]; intros fuel st i Q Hi Ht Hall HQ; (destruct fuel as [|fuel]; [lia|]); cbn [nulterminate];
    apply wp_bind, wp_gets; cbn [tree strings] in *; apply wp_bind.
  - destruct Ht as (i' & [= <-] & -> & Hl). apply wp_nul_args; [done|done|]. intros m Hm. by apply wp_ret, HQ.
  - destruct Ht as (i' & j & [= <-] & Hj & -> & Hc). apply Forall_app in Hall as [H1 H2]. apply Forall_cons in H2 as [H2 _]. apply wp_bind, IH; [lia|done|done|]. intros m1 Hm1.
    apply wp_nul; [simpl in *; rewrite (proj1 Hm1); exact H2|]. intros m2 Hm2. apply wp_ret. apply (HQ m2). rewrite fmap_app. by eapply zapped_app.
  - destruct Ht as (i' & j & k & [= <-] & Hj & Hk & -> & Hl & Hr). apply (Htwo l r); [done|done|lia|lia|done..|]. intros m Hm. by apply wp_ret, HQ.
  - destruct Ht as (i' & j & k & [= <-] & Hj & Hk & -> & Hl & Hr). apply (Htwo l r); [done|done|lia|lia|done..|]. intros m Hm. by apply wp_ret, HQ.
  - destruct Ht as (i' & j & [= <-] & Hj & -> & Hc). apply wp_bind, IH; [lia|done|done|]. intros m1 Hm1. by apply wp_ret, wp_ret, HQ.
Qed.
End nul.

Lemma cstr_word w r : 0 ∉ w -> cstr (w ++ 0 :: r) = w.
Proof.
  induction w as [|c w IH]; intros H; simpl; [done|]. apply not_elem_of_cons in H as [H1 H2]. rewrite (proj2 (Z.eqb_neq c 0)) by done. by rewrite IH.
Qed.

(** After [nulterminate] the string of a word is its text: the NULs are where
    words end, and these are not inside words. *)
Lemma string_of_word ws m w : Forall good ws -> w ∈ ws -> zapped ws.*2 (b ++ [0]) m -> cstr (drop w.1 m) = content w.
Proof.
  intros Hall Hw [Hlen Hm]. assert (Hg : good w) by (eapply Forall_forall in Hall; done). destruct Hg as (Hq & _ & Hns & _). unfold content in *.
  set (n := (w.2 - w.1)%nat) in *.
  assert (Hin : forall k, (k < n)%nat -> m !! (w.1 + k)%nat = b !! (w.1 + k)%nat).
  { intros k Hk. rewrite Hm. rewrite lookup_app_l by lia. rewrite decide_False; [done|]. intros (v & Hv1 & Hv2)%list_elem_of_fmap.
    eapply Forall_forall in Hall; [|exact Hv2]. destruct Hall as (_ & _ & _ & [He|(c & Hc & Hs)]); [lia|].
    eapply Forall_forall in Hns; [|eapply (list_elem_of_lookup_2 _ k c)]; [congruence|]. unfold slice. rewrite lookup_take, lookup_drop, Hv1, Hc. by rewrite decide_True. }
  assert (Hnul : m !! w.2 = Some 0).
  { rewrite Hm. rewrite decide_True by (apply list_elem_of_fmap; by exists w). destruct (lookup_lt_is_Some_2 (b ++ [0]) w.2) as [c ->]; [rewrite length_app; simpl; lia|done]. }
  replace (drop w.1 m) with (slice w.1 n b ++ 0 :: drop (Datatypes.S w.2) m).
  - apply cstr_word. intros Hin0. apply Hb. unfold slice in Hin0. apply elem_of_take in Hin0 as (k & Hk & _). rewrite lookup_drop in Hk. by eapply list_elem_of_lookup_2.
  - rewrite <- (drop_S _ _ _ Hnul). apply list_eq. intros k. rewrite lookup_drop. destruct (decide (k < n)%nat) as [Hk|Hk].
    + rewrite lookup_app_l by (unfold slice; rewrite length_take, length_drop; lia). unfold slice. rewrite lookup_take, lookup_drop, decide_True by done. symmetry. by apply Hin.
    + assert (Hls : length (slice w.1 n b) = n) by (unfold slice; rewrite length_take, length_drop; lia). rewrite lookup_app_r by lia. rewrite Hls, lookup_drop. f_equal. lia.
Qed.
End line.

(** ** [parsecmd] *)

(** The command at [p], its strings as C strings. *)
Definition command (st : sh) (p : ptr) (t : ast str) : Prop :=
  exists pt, tree (heap st) p pt /\ t = amap (fun w => cstr (drop w.1 (line st))) pt.

Lemma amap_ext {V W} (f g : V -> W) (F : ast V -> list V) t :
  (forall c w m d, F (Redir c w m d) = F c ++ [w]) -> (forall l r, F (Pipe l r) = F l ++ F r) -> (forall l r, F (List l r) = F l ++ F r) ->
  (forall c, F (Back c) = F c) -> (forall ws, F (Exec ws) = ws) -> (forall w, w ∈ F t -> f w = g w) -> amap f t = amap g t.
Proof.
  intros H1 H2 H3 H4 H5. induction t as [ws|c IH w m d|l IHl r IHr|l IHl r IHr|c IH]; intros H; simpl.
  - f_equal. rewrite H5 in H. apply list_fmap_ext. intros i x Hx. apply H. by eapply list_elem_of_lookup_2.
  - rewrite H1 in H. f_equal; [apply IH; set_solver|apply H; set_solver].
  - rewrite H2 in H. f_equal; [apply IHl|apply IHr]; set_solver.
  - rewrite H3 in H. f_equal; [apply IHl|apply IHr]; set_solver.
  - rewrite H4 in H. f_equal. by apply IH.
Qed.

Lemma cstr_line b : 0 ∉ b -> strlen (b ++ [0]) = Some (Z.of_nat (length b)).
Proof.
  intros Hb. rewrite strlen_ok by (unfold terminated; set_solver). by rewrite cstr_word.
Qed.

Lemma wp_parsecmd P b n (Q : ptr -> sh -> Prop) : 0 ∉ b -> (2 * length b + 1 <= n)%nat ->
  ((forall t, ~ gline (lex b) t []) -> forall m, tolerated P m) ->
  (forall p st t, gline (lex b) t [] -> command st p t -> Q p st) -> wp P parsecmd (Shell (b ++ [0]) [] n) Q.
Proof.
  intros Hb Hn HF HS. unfold parsecmd. apply wp_bind, wp_gets. simpl. rewrite cstr_line by done. rewrite Nat2Z.id.
  assert (Hat : at_ b 0 (lex b)) by (split; [lia|done]). pose proof (at_count _ _ _ Hat) as Hcnt. rewrite Nat.sub_0_r in Hcnt.
  apply wp_bind, (proj1 (parse_decides b Hb P _) _ _ (lex b)); [lia|done|done|simpl; lia| |].
  { intros Hno. apply HF. intros t. apply Hno. }
  intros st1 t p s1 rest Hg X Hat1 Ht Hgood. simpl in X. pose proof (pa_line _ _ _ _ _ X) as Hline. simpl in Hline.
  apply wp_bind, (wp_peek_end b Hb P st1 s1 rest); [done|done|done|]. intros s2 Hat2 Hend. destruct (Nat.eqb_spec s2 (length b)) as [He|He]; simpl.
  2: { apply HF. intros t2 H2. destruct (proj2 (proj2 grammar_det) _ _ _ H2 _ _ Hg) as [_ <-]. by apply He, Hend. }
  apply Hend in He as ->. apply wp_bind, wp_gets, wp_bind. destruct (tree_ptr _ _ _ Ht) as (i & -> & Hi).
  apply (wp_nulterminate P t (Datatypes.S (length (heap st1))) st1 i); [lia|done| |].
  - rewrite Hline. eapply Forall_impl; [exact Hgood|]. intros w (Hw & _). rewrite length_app. simpl. lia.
  - intros m Hm. rewrite Hline in Hm. apply wp_ret. apply (HS _ _ (amap (content b) t)); [done|]. exists t. split; [done|].
    apply (amap_ext _ _ strings); [done..|]. intros w Hw. symmetry. simpl. by eapply string_of_word.
Qed.

(** C13: [parsecmd] decides the grammar of command lines.  On every line that has a
    derivation it returns the tree of the derivation, with every string
    terminated by a NUL where its word ends in the line; on every other line it
    panics.  It terminates on all lines, and the nodes fit in memory for two
    nodes for each character. *)
Theorem parsecmd_correct b n : 0 ∉ b -> (2 * length b + 1 <= n)%nat ->
  (exists t p st, gline (lex b) t [] /\ parsecmd (Shell (b ++ [0]) [] n) = Ret p st /\ command st p t) \/
  ((forall t, ~ gline (lex b) t []) /\ exists msg st, parsecmd (Shell (b ++ [0]) [] n) = Panic msg st).
Proof.
  intros Hb Hn.
  assert (W : wp (allowing (fun _ => forall t, ~ gline (lex b) t [])) parsecmd (Shell (b ++ [0]) [] n)
    (fun p st => exists t, gline (lex b) t [] /\ command st p t)).
  { apply wp_parsecmd; [done|done|by intros ? ?|]. intros p st t H1 H2. by exists t. }
  apply wp_allowing in W as [(p & st & E & t & H1 & H2)|(msg & st & E & H)]; [left; by exists t, p, st|right]. split; [done|]. by exists msg, st.
Qed.
End ShSpec.
