(* ===== verification/ShPrint.v ===== *)
(** * Printing commands

    Every command tree that the shell can run has a text that [parsecmd] reads
    back as that tree. *)

From S2P Require Import Prelude Params Bytes Str SysFile Sh ShParse.
Import Sh ShSpec.
#[local] Arguments strchr : simpl never.

Module ShPrint.
Notation str := (list Z).

(** The tokens of a command at a level of the grammar: 0 for a line, 1 for a part
    of it, 2 for a pipeline, 3 for a simple command; parentheses where the level
    demands it. *)
Definition paren (lv k : nat) (ts : list tok) : list tok := if (lv <=? k)%nat then ts else Lp :: ts ++ [Rp].
Definition rtok (d : Z) : tok := if d =? 0 then Lt else Gt.
Fixpoint pr (lv : nat) (t : ast str) : list tok :=
  match t with
  | Exec ws => Word <$> ws
  | Redir c w _ d => pr 3 c ++ [rtok d; Word w]
  | Pipe l r => paren lv 2 (pr 3 l ++ Bar :: pr 2 r)
  | Back c => paren lv 1 (pr 1 c ++ [Amp])
  | List l r => paren lv 0 (pr 1 l ++ Semi :: pr 0 r)
  end.

(** The characters of tokens, with a space after each. *)
Definition spell (t : tok) : list Z := match t with Word w => w | App => [62; 62] | t => [code t] end.
Definition text (ts : list tok) : list Z := ts ≫= fun t => spell t ++ [32].

(** Commands that have a text. *)
Definition wf_word (w : str) : Prop := w <> [] /\ 0 ∉ w /\ Forall (fun c => sep c = false) w.
Definition wf_redir (m d : Z) : Prop := (m = O_RDONLY /\ d = 0) \/ (m = Z.lor O_WRONLY O_CREATE /\ d = 1).
Fixpoint wf (t : ast str) : Prop :=
  match t with
  | Exec ws => (length ws < MAXARGS)%nat /\ Forall wf_word ws
  | Redir c w m d => wf c /\ wf_word w /\ wf_redir m d
  | Pipe l r | List l r => wf l /\ wf r
  | Back c => wf c
  end.

(** ** Characters *)

Definition wf_tok (t : tok) : Prop := match t with Word w => wf_word w | _ => True end.

Lemma lex_spell t r : wf_tok t -> lex (spell t ++ 32 :: r) = t :: lex r.
Proof.
  intros Ht. destruct t as [w| | | | | | | |]; [|done..]. destruct Ht as (Hne & _ & Hw). simpl. unfold lex at 1. rewrite lexw_word; [done|done| |done].
  right. by exists 32, r.
Qed.
Lemma lex_text ts : Forall wf_tok ts -> lex (text ts) = ts.
Proof.
  induction 1 as [|t ts Ht Hts IH]; [done|]. unfold text. cbn [mbind list_bind]. fold (text ts). rewrite <- app_assoc. simpl. rewrite lex_spell by done. by rewrite IH.
Qed.
Lemma text_nul ts : Forall wf_tok ts -> 0 ∉ text ts.
Proof.
  induction 1 as [|t ts Ht Hts IH]; [apply not_elem_of_nil|]. unfold text. cbn [mbind list_bind]. fold (text ts). rewrite !elem_of_app, list_elem_of_singleton.
  intros [[H|H]|H]; [|done|done]. destruct t; simpl in *; [by destruct Ht as (_ & ? & _)|..];
    repeat (apply elem_of_cons in H as [H|H]; [done|]); by apply elem_of_nil in H.
Qed.

Lemma wf_paren lv k ts : Forall wf_tok ts -> Forall wf_tok (paren lv k ts).
Proof. intros H. unfold paren. destruct (_ <=? _)%nat; [done|]. constructor; [done|]. apply Forall_app_2; [done|by repeat constructor]. Qed.
Lemma pr_wf t : forall lv, wf t -> Forall wf_tok (pr lv t).
Proof.
  induction t as [ws|c IH w m d|l IHl r IHr|l IHl r IHr|c IH]; intros lv H; cbn [pr wf] in *.
  - apply Forall_fmap. by destruct H.
  - destruct H as (H1 & H2 & H3). apply Forall_app_2; [auto|]. apply Forall_cons_2; [unfold rtok; by destruct (d =? 0)|]. apply Forall_cons_2; [exact H2|constructor].
  - destruct H. apply wf_paren, Forall_app_2; [auto|]. constructor; [done|auto].
  - destruct H. apply wf_paren, Forall_app_2; [auto|]. constructor; [done|auto].
  - apply wf_paren, Forall_app_2; [auto|by repeat constructor].
Qed.

(** ** Derivations *)

(** What may follow at each level. *)
Definition follow (cs : list Z) (rest : list tok) : Prop := rest = [] \/ starts rest (isin cs) = true.

Definition rtoks (rs : list (Z * Z * str)) : list tok := rs ≫= fun '(_, d, w) => [rtok d; Word w].
Definition wf_rs (rs : list (Z * Z * str)) : Prop := Forall (fun '(m, d, _) => wf_redir m d) rs.

Lemma rtok_redir m d : wf_redir m d -> redir_of (rtok d) = Some (m, d).
Proof. by intros [[-> ->]|[-> ->]]. Qed.

Lemma follow_not cs cs' rest : follow cs rest -> (forall c, strchr cs c = true -> strchr cs' c = false) -> starts rest (isin cs') = false.
Proof. intros [->|H] Hd; [done|]. destruct rest as [|t rest]; [done|]. simpl in *. by apply Hd. Qed.
Lemma follow_sub cs cs' rest : follow cs rest -> (forall c, strchr cs c = true -> strchr cs' c = true) -> follow cs' rest.
Proof. intros [->|H] Hd; [by left|right]. destruct rest as [|t rest]; [done|]. simpl in *. by apply Hd. Qed.
Ltac chars := let H := fresh in intros ? H; apply strchr_spec in H; repeat (apply elem_of_cons in H as [->|H]; [reflexivity|]); by apply elem_of_nil in H.

Lemma gredirs_pr rs rest : wf_rs rs -> follow [124; 41; 38; 59] rest -> gredirs (rtoks rs ++ rest) rs rest.
Proof.
  intros Hw Hf. induction Hw as [|[[m d] w] rs Hm Hw IH]; simpl.
  - constructor. eapply follow_not; [exact Hf|chars].
  - econstructor; [by apply rtok_redir|done].
Qed.

Lemma gargs_pr ws : forall n rs rest, (n + length ws < MAXARGS)%nat -> ws <> [] -> wf_rs rs -> follow [124; 41; 38; 59] rest ->
  gargs n ((Word <$> ws) ++ rtoks rs ++ rest) ws rs rest.
Proof.
  induction ws as [|w ws IH]; intros n rs rest Hn Hne Hw Hf; [done|]. simpl in *. destruct ws as [|v ws].
  - assert (G : gargs n (Word w :: rtoks rs ++ rest) [w] (rs ++ []) rest); [|by rewrite app_nil_r in G].
    econstructor; [lia|by apply gredirs_pr|]. by constructor.
  - change rs with ([] ++ rs) at 2. econstructor; [lia| |apply IH; [simpl in *; lia|done..]]. by constructor.
Qed.

Definition Eok (t : ast str) : Prop := forall rs rest, wf_rs rs -> follow [124; 41; 38; 59] rest -> gexec (pr 3 t ++ rtoks rs ++ rest) (wrap rs t) rest.
Definition Pok (t : ast str) : Prop := forall rest, follow [41; 38; 59] rest -> gpipe (pr 2 t ++ rest) t rest.
Definition Bok (t : ast str) : Prop := forall k rest, follow [41; 59] rest ->
  exists t0 ts1, gpipe (pr 1 t ++ replicate k Amp ++ rest) t0 ts1 /\ gbacks t0 ts1 (Nat.iter k Back t) rest.
Definition Lok (t : ast str) : Prop := forall rest, follow [41] rest -> gline (pr 0 t ++ rest) t rest.

Lemma E_P t : pr 2 t = pr 3 t -> Eok t -> Pok t.
Proof.
  intros Hp HE rest Hf. rewrite Hp. constructor; [|eapply follow_not; [exact Hf|chars]]. apply (HE [] rest); [constructor|]. eapply follow_sub; [exact Hf|chars].
Qed.
Lemma gbacks_pr k : forall t rest, starts rest (isin [38]) = false -> gbacks t (replicate k Amp ++ rest) (Nat.iter k Back t) rest.
Proof.
  induction k as [|k IH]; intros t rest Hf; simpl; [by constructor|]. constructor. rewrite <- Nat.iter_succ, Nat.iter_succ_r. by apply IH.
Qed.
Lemma P_B t : pr 1 t = pr 2 t -> Pok t -> Bok t.
Proof.
  intros Hp HP k rest Hf. rewrite Hp. exists t, (replicate k Amp ++ rest). split.
  - apply HP. destruct k; simpl; [eapply follow_sub; [exact Hf|chars]|by right].
  - apply gbacks_pr. eapply follow_not; [exact Hf|chars].
Qed.
Lemma B_L t : pr 0 t = pr 1 t -> Bok t -> Lok t.
Proof.
  intros Hp HB rest Hf. rewrite Hp. destruct (HB 0%nat rest) as (t0 & ts1 & H1 & H2); [eapply follow_sub; [exact Hf|chars]|].
  econstructor; [exact H1|exact H2|]. eapply follow_not; [exact Hf|chars].
Qed.
Lemma L_E t : pr 3 t = Lp :: pr 0 t ++ [Rp] -> Lok t -> Eok t.
Proof.
  intros Hp HL rs rest Hw Hf. rewrite Hp. simpl. rewrite <- app_assoc. simpl. eapply ge_block; [|by apply gredirs_pr]. apply HL. by right.
Qed.

Lemma pr_ok t : wf t -> Eok t /\ Pok t /\ Bok t /\ Lok t.
Proof.
  assert (Hchain : forall t, pr 2 t = pr 3 t -> pr 1 t = pr 2 t -> pr 0 t = pr 1 t -> Eok t -> Eok t /\ Pok t /\ Bok t /\ Lok t).
  { intros u H1 H2 H3 HE. assert (HP := E_P _ H1 HE). assert (HB := P_B _ H2 HP). assert (HL := B_L _ H3 HB). done. }
  induction t as [ws|c IH w m d|l IHl r IHr|l IHl r IHr|c IH]; intros Hwf; cbn [wf] in Hwf.
  - apply Hchain; [done..|]. intros rs rest Hw Hf. destruct Hwf as [Hlen _]. cbn [pr]. destruct ws as [|v ws].
    + simpl. rewrite <- (app_nil_r rs) at 2. econstructor; [|by apply gredirs_pr|by constructor].
      destruct rs as [|[[m d] w] rs]; simpl; [eapply follow_not; [exact Hf|chars]|]. unfold rtok. by destruct (d =? 0).
    + change rs with ([] ++ rs) at 2. econstructor; [done|by constructor|]. by apply gargs_pr.
  - apply Hchain; [done..|]. intros rs rest Hw Hf. destruct Hwf as (H1 & H2 & H3). destruct (IH H1) as (HE & _). cbn [pr]. rewrite <- app_assoc.
    apply (HE ((m, d, w) :: rs) rest); [by constructor|done].
  - destruct Hwf as [H1 H2]. destruct (IHl H1) as (HEl & _). destruct (IHr H2) as (_ & HPr & _).
    assert (HP : Pok (Pipe l r)).
    { intros rest Hf. cbn [pr]. unfold paren. simpl. rewrite <- app_assoc. simpl. eapply gp_more; [|by apply HPr]. apply (HEl []); [constructor|by right]. }
    assert (HB := P_B (Pipe l r) eq_refl HP). assert (HL := B_L (Pipe l r) eq_refl HB). assert (HE := L_E (Pipe l r) eq_refl HL). done.
  - destruct Hwf as [H1 H2]. destruct (IHl H1) as (_ & _ & HBl & _). destruct (IHr H2) as (_ & _ & _ & HLr).
    assert (HL : Lok (List l r)).
    { intros rest Hf. cbn [pr]. unfold paren. simpl. rewrite <- app_assoc. simpl. destruct (HBl 0%nat (Semi :: pr 0 r ++ rest)) as (t0 & ts1 & G1 & G2); [by right|].
      eapply gl_more; [exact G1|exact G2|]. by apply HLr. }
    assert (HE := L_E (List l r) eq_refl HL). assert (HP := E_P (List l r) eq_refl HE). assert (HB := P_B (List l r) eq_refl HP). done.
  - destruct (IH Hwf) as (_ & _ & HBc & _).
    assert (HB : Bok (Back c)).
    { intros k rest Hf. cbn [pr]. unfold paren. simpl. rewrite <- app_assoc. simpl. destruct (HBc (S k) rest Hf) as (t0 & ts1 & G1 & G2). exists t0, ts1. split; [exact G1|].
      by rewrite <- Nat.iter_succ_r. }
    assert (HL := B_L (Back c) eq_refl HB). assert (HE := L_E (Back c) eq_refl HL). assert (HP := E_P (Back c) eq_refl HE). done.
Qed.

(** Every command - words, redirections, pipelines, lists and background commands,
    nested in any way, with fewer than MAXARGS words in each simple command - has
    a text from which [parsecmd] builds that command. *)
Lemma parse_print t n : wf t -> (2 * length (text (pr 0 t)) + 1 <= n)%nat ->
  exists p st, parsecmd (Shell (text (pr 0 t) ++ [0]) [] n) = Ret p st /\ command st p t.
Proof.
  intros Hwf Hn. destruct (pr_ok t Hwf) as (_ & _ & _ & HL). pose proof (pr_wf t 0 Hwf) as Htok.
  assert (Hg : gline (lex (text (pr 0 t))) t []) by (rewrite lex_text by done; rewrite <- (app_nil_r (pr 0 t)); apply HL; by left).
  assert (W : wp strict parsecmd (Shell (text (pr 0 t) ++ [0]) [] n) (fun p st => command st p t)).
  { apply wp_parsecmd; [by apply text_nul|done|intros Hno; by destruct (Hno t)|]. intros p st t' H1 H2.
    by destruct (proj2 (proj2 grammar_det) _ _ _ H1 _ _ Hg) as [-> _]. }
  apply wp_strict in W as (p & st & E & H). by exists p, st.
Qed.
End ShPrint.
