(* ===== verification/ShRun.v ===== *)
(** * Running commands

    The system calls that the shell makes for a command, as the tree of the
    processes it starts: which processes are forked, in what order, what each of
    them executes, waits for and prints, and with which descriptors. *)

From S2P Require Import Prelude Params Bytes Str SysFile Sh ShParse ShPrint.
Import Sh ShSpec ShPrint.

Module ShRun.
Notation str := (list Z).

(** ** Descriptor tables *)

(** What a descriptor refers to: something inherited, a file that was opened, the
    ends of a pipe. *)
Inductive desc := Given (n : nat) | Opened (file : str) (mode : Z) | ReadEnd (n : nat) | WriteEnd (n : nat).
Notation fds := (list (option desc)).

(** The lowest free descriptor ([fdalloc] of sysfile.c). *)
Fixpoint lowest (f : fds) : option nat :=
  match f with
  | [] => None
  | None :: _ => Some 0%nat
  | Some _ :: f => S <$> lowest f
  end.
Definition close (f : fds) (fd : Z) : fds := <[Z.to_nat fd := None]> f.

(** A process of the shell, from some point on. *)
Inductive process :=
  (** [exit()] *)
  | PExit
  (** it has become a program, with these arguments and descriptors *)
  | PExec (path : str) (argv : list str) (f : fds)
  (** it prints a message on descriptor 2 *)
  | PPrint (msg : string) (arg : str) (err : option desc) (rest : process)
  (** it starts a child *)
  | PFork (child rest : process)
  (** it waits for a child, with these descriptors open *)
  | PWait (f : fds) (rest : process)
  (** outside of the model *)
  | PStuck.

Section run.
(** Which programs can be executed and which files opened, and the pid that
    [fork] returns to the parent. *)
Context (can_exec : str -> bool) (can_open : str -> Z -> bool) (pid : Z) (Hpid : 0 < pid).

(** What a process with the descriptors [f] does; [n] is the number of pipes
    made so far, by it and the processes before it. *)
Fixpoint run (f : fds) (n : nat) (p : prog) : process * nat :=
  match p with
  | Exit => (PExit, n)
  | Stuck => (PStuck, n)
  | Sh.Exec path argv k => if can_exec path then (PExec path argv f, n) else run f n k
  | Print msg arg k => let '(x, n1) := run f n k in (PPrint msg arg (mjoin (f !! 2%nat)) x, n1)
  | Wait k => let '(x, n1) := run f n k in (PWait f x, n1)
  | Close fd k => run (close f fd) n k
  | Open file mode k =>
      match (if can_open file mode then lowest f else None) with
      | Some i => run (<[i := Some (Opened file mode)]> f) n (k (Z.of_nat i))
      | None => run f n (k (-1))
      end
  | Dup fd k =>
      match lowest f, f !! Z.to_nat fd with
      | Some i, Some (Some d) => run (<[i := Some d]> f) n (k (Z.of_nat i))
      | _, _ => run f n (k (-1))
      end
  | Sh.Pipe k =>
      match lowest f with
      | Some i =>
          let f1 := <[i := Some (ReadEnd n)]> f in
          match lowest f1 with
          | Some j => run (<[j := Some (WriteEnd n)]> f1) (S n) (k 0 (Z.of_nat i) (Z.of_nat j))
          | None => run f n (k (-1) 0 0)
          end
      | None => run f n (k (-1) 0 0)
      end
  | Fork k =>
      let '(a, n1) := run f n (k 0) in
      let '(b, n2) := run f n1 (k pid) in
      (PFork a b, n2)
  end.

(** What a command means: the process that runs it. *)
Fixpoint plan (f : fds) (n : nat) (t : ast str) : process * nat :=
  match t with
  | Exec [] => (PExit, n)
  | Exec (w :: ws) =>
      (if can_exec w then PExec w (w :: ws) f else PPrint "exec %s failed" w (mjoin (f !! 2%nat)) PExit, n)
  | Redir c w m d =>
      if can_open w m then plan (<[Z.to_nat d := Some (Opened w m)]> f) n c
      else (PPrint "open %s failed" w (mjoin (f !! 2%nat)) PExit, n)
  | Pipe l r =>
      let '(a, n1) := plan (<[1%nat := Some (WriteEnd n)]> f) (S n) l in
      let '(b, n2) := plan (<[0%nat := Some (ReadEnd n)]> f) n1 r in
      (PFork a (PFork b (PWait f (PWait f PExit))), n2)
  | List l r =>
      let '(a, n1) := plan f n l in
      let '(b, n2) := plan f n1 r in
      (PFork a (PWait f b), n2)
  | Back c => let '(a, n1) := plan f n c in (PFork a PExit, n1)
  end.

(** The standard descriptors are open and two others are free. *)
Definition ready (f : fds) : Prop := is_Some (mjoin (f !! 0%nat)) /\ is_Some (mjoin (f !! 1%nat)) /\
  exists i j, (1 < i < j)%nat /\ f !! i = Some None /\ f !! j = Some None /\ forall k, (k < j)%nat -> k <> i -> is_Some (mjoin (f !! k)).

Lemma lowest_spec (f : fds) (i : nat) : f !! i = Some None -> (forall k, (k < i)%nat -> is_Some (mjoin (f !! k))) -> lowest f = Some i.
Proof.
  revert i. induction f as [|[d|] f IH]; intros i Hi Hlt; [done| |].
  - destruct i as [|i]; [done|]. simpl. rewrite (IH i); [done|done|]. intros k Hk. by apply (Hlt (S k)); lia.
  - destruct i as [|i]; [done|]. destruct (Hlt 0%nat ltac:(lia)) as [x Hx]. done.
Qed.

Lemma open_at (f : fds) (i : nat) d : f !! i = Some None \/ is_Some (mjoin (f !! i)) -> (<[i := Some d]> f) !! i = Some (Some d).
Proof.
  intros H. apply list_lookup_insert_eq. destruct H as [H|[x H]]; [by eapply lookup_lt_Some|]. destruct (f !! i) as [y|] eqn:E; [by eapply lookup_lt_Some|done].
Qed.

(** Replacing a standard descriptor. *)
Lemma ready_std (f : fds) (i : nat) d : ready f -> (i < 2)%nat -> ready (<[i := Some d]> f).
Proof.
  intros (H0 & H1 & a & b & Hab & Ha & Hb & Hk) Hi.
  assert (Hin : forall k, is_Some (mjoin (f !! k)) -> is_Some (mjoin ((<[i := Some d]> f) !! k))).
  { intros k Hs. destruct (decide (k = i)) as [->|Hne]; [rewrite open_at by (by right); by exists d|by rewrite list_lookup_insert_ne]. }
  split_and!; [by apply Hin|by apply Hin|]. exists a, b. split_and!; [lia|lia|by rewrite list_lookup_insert_ne by lia|by rewrite list_lookup_insert_ne by lia|]. auto.
Qed.

(** [close(d)] of a standard descriptor makes it the lowest free one. *)
Lemma close_lowest f (i : nat) : ready f -> (i < 2)%nat -> lowest (close f (Z.of_nat i)) = Some i.
Proof.
  intros (H0 & H1 & _) Hi. unfold close. rewrite Nat2Z.id. apply lowest_spec.
  - apply list_lookup_insert_eq. assert (Hs : is_Some (mjoin (f !! i))) by (destruct i as [|[|i]]; [done|done|lia]).
    destruct Hs as [x Hx]. destruct (f !! i) as [y|] eqn:E; [by eapply lookup_lt_Some|done].
  - intros k Hk. rewrite list_lookup_insert_ne by lia. assert (k = 0%nat) as -> by lia. done.
Qed.

(** The table of a child of a pipeline: [d] in place of [std], and the ends of the
    pipe closed. *)
Lemma child_fds (f : fds) (std i j : nat) d e1 e2 : (std < 2)%nat -> (1 < i < j)%nat -> f !! i = Some None -> f !! j = Some None ->
  close (close (<[std := Some d]> (close (<[j := e2]> (<[i := e1]> f)) (Z.of_nat std))) (Z.of_nat i)) (Z.of_nat j) = <[std := Some d]> f.
Proof.
  intros Hs Hij Hi Hj. unfold close. rewrite !Nat2Z.id. rewrite list_insert_insert_eq. apply list_eq. intros k.
  assert (Hli : (i < length f)%nat) by (by eapply lookup_lt_Some). assert (Hlj : (j < length f)%nat) by (by eapply lookup_lt_Some).
  destruct (decide (k = j)) as [->|H1]; [rewrite list_lookup_insert_eq by (rewrite !length_insert; done); by rewrite list_lookup_insert_ne by lia|].
  rewrite (list_lookup_insert_ne _ j k) by done.
  destruct (decide (k = i)) as [->|H2]; [rewrite list_lookup_insert_eq by (rewrite !length_insert; done); by rewrite list_lookup_insert_ne by lia|].
  rewrite (list_lookup_insert_ne _ i k) by done. destruct (decide (k = std)) as [->|H3].
  - rewrite !list_lookup_insert_eq by (rewrite ?length_insert; lia). done.
  - by rewrite !list_lookup_insert_ne by done.
Qed.

(** The table of the parent of a pipeline, with the ends of the pipe closed. *)
Lemma parent_fds (f : fds) (i j : nat) e1 e2 : (1 < i < j)%nat -> f !! i = Some None -> f !! j = Some None ->
  close (close (<[j := e2]> (<[i := e1]> f)) (Z.of_nat i)) (Z.of_nat j) = f.
Proof.
  intros Hij Hi Hj. unfold close. rewrite !Nat2Z.id, (list_insert_insert_ne (<[i := e1]> f) i j), !list_insert_insert_eq by lia.
  by rewrite (list_insert_id f i), (list_insert_id f j).
Qed.

Lemma args_at_spec st ws : (length ws < MAXARGS)%nat -> args_at st (argv_of ws) = (fun w => str_at st w.1) <$> ws.
Proof.
  intros Hl. unfold argv_of. assert (H : (MAXARGS - length ws)%nat <> 0%nat) by lia. revert H. generalize (MAXARGS - length ws)%nat as k. clear Hl.
  induction ws as [|w ws IH]; intros k Hk; simpl; [by destruct k|]. by rewrite IH.
Qed.

(** The descriptors of redirections are 0 or 1. *)
Fixpoint std_redirs {W} (t : ast W) : Prop :=
  match t with
  | Exec _ => True
  | Redir c _ _ d => (d = 0 \/ d = 1) /\ std_redirs c
  | Pipe l r | List l r => std_redirs l /\ std_redirs r
  | Back c => std_redirs c
  end.

Lemma pid_tests : (pid =? -1) = false /\ (pid =? 0) = false.
Proof. split; apply Z.eqb_neq; lia. Qed.

Notation strings_of st := (amap (fun w : nat * nat => str_at st w.1)).

Lemma run_pipe st fuel j k l r f n : (forall f n, ready f -> run f n (runcmd fuel st (Some j)) = plan f n (strings_of st l)) ->
  (forall f n, ready f -> run f n (runcmd fuel st (Some k)) = plan f n (strings_of st r)) -> ready f -> 
  forall i, heap st !! i = Some (PIPE (Some j) (Some k)) -> run f n (runcmd (S fuel) st (Some i)) = plan f n (Pipe (strings_of st l) (strings_of st r)).
Proof.
  intros Hl Hr Hf i Hi. destruct pid_tests as [Hp1 Hp2]. assert (Hf' := Hf). destruct Hf' as (H0 & H1 & a & b & Hab & Ha & Hb & Hk).
  assert (Hlow : lowest f = Some a) by (apply lowest_spec; [done|]; intros c Hc; apply Hk; lia).
  set (f1 := <[a := Some (ReadEnd n)]> f). assert (Hlow1 : lowest f1 = Some b).
  { apply lowest_spec; [unfold f1; by rewrite list_lookup_insert_ne by lia|]. intros c Hc. unfold f1. destruct (decide (c = a)) as [->|Hne].
    - rewrite open_at by (by left). by eexists.
    - rewrite list_lookup_insert_ne by done. by apply Hk. }
  set (f2 := <[b := Some (WriteEnd n)]> f1).
  assert (Hlb : (b < length f)%nat) by (by eapply lookup_lt_Some). assert (Hla : (a < length f)%nat) by (by eapply lookup_lt_Some).
  assert (Hstd : forall s : nat, (s < 2)%nat -> lowest (close f2 (Z.of_nat s)) = Some s).
  { intros s Hs. unfold close. rewrite Nat2Z.id. apply lowest_spec; [apply list_lookup_insert_eq; unfold f2, f1; rewrite !length_insert; lia|].
    intros c Hc. unfold f2, f1. rewrite !list_lookup_insert_ne by lia. by replace c with 0%nat by lia. }
  assert (Hw : (close f2 1) !! Z.to_nat (Z.of_nat b) = Some (Some (WriteEnd n))).
  { rewrite Nat2Z.id. unfold close, f2, f1. rewrite list_lookup_insert_ne by (simpl; lia). apply list_lookup_insert_eq. rewrite length_insert. done. }
  assert (Hrd : (close f2 0) !! Z.to_nat (Z.of_nat a) = Some (Some (ReadEnd n))).
  { rewrite Nat2Z.id. unfold close, f2, f1. rewrite list_lookup_insert_ne by (simpl; lia). rewrite list_lookup_insert_ne by lia. by apply list_lookup_insert_eq. }
  assert (Hs1 : lowest (close f2 1) = Some 1%nat) by (apply (Hstd 1%nat); lia).
  assert (Hs0 : lowest (close f2 0) = Some 0%nat) by (apply (Hstd 0%nat); lia).
  assert (C1 : close (close (<[1%nat := Some (WriteEnd n)]> (close f2 1)) (Z.of_nat a)) (Z.of_nat b) = <[1%nat := Some (WriteEnd n)]> f)
    by (apply (child_fds f 1); (done || lia)).
  assert (C0 : close (close (<[0%nat := Some (ReadEnd n)]> (close f2 0)) (Z.of_nat a)) (Z.of_nat b) = <[0%nat := Some (ReadEnd n)]> f)
    by (apply (child_fds f 0); (done || lia)).
  assert (CP : close (close f2 (Z.of_nat a)) (Z.of_nat b) = f) by (apply parent_fds; (done || lia)).
  cbn [runcmd]. rewrite Hi. cbn [run]. rewrite Hlow. fold f1. rewrite Hlow1. fold f2. unfold fork1. cbn [run Z.ltb Z.eqb Z.compare].
  rewrite Hs1, Hw, C1. rewrite Hl by (apply ready_std; [done|lia]). cbn [plan].
  destruct (plan _ _ (strings_of st l)) as [xs n1]. rewrite Hp1, Hp2. cbn [run Z.eqb].
  rewrite Hs0, Hrd, C0. rewrite Hr by (apply ready_std; [done|lia]).
  destruct (plan _ n1 (strings_of st r)) as [ys n2]. rewrite Hp1, Hp2. cbn [run]. by rewrite CP.
Qed.

Lemma run_tree st t : forall fuel i f n, (i < fuel)%nat -> tree (heap st) (Some i) t -> std_redirs t -> ready f ->
  run f n (runcmd fuel st (Some i)) = plan f n (strings_of st t).
Proof.
  destruct pid_tests as [Hp1 Hp2].
  induction t as [ws|c IH w m d|l IHl r IHr|l IHl r IHr|c IH]; intros fuel i f n Hi Ht Hd Hf; (destruct fuel as [|fuel]; [lia|]); cbn [tree std_redirs] in *.
  - destruct Ht as (i' & [= <-] & E & Hl). cbn [runcmd]. rewrite E. destruct ws as [|w ws]; [done|]. pose proof (args_at_spec st (w :: ws) Hl) as Ha.
    simpl amap. cbn [fmap list_fmap] in *. unfold argv_of in *. cbn [fmap list_fmap app] in *. cbn [run]. rewrite Ha. cbn [plan].
    by destruct (can_exec _).
  - destruct Ht as (i' & j & [= <-] & Hj & E & Hc). destruct Hd as [Hd Hdc]. cbn [runcmd]. rewrite E. cbn [run amap plan].
    assert (exists k : nat, d = Z.of_nat k /\ (k < 2)%nat) as (k & -> & Hk) by (destruct Hd as [->| ->]; [by exists 0%nat; lia|by exists 1%nat; lia]).
    rewrite close_lowest by done. destruct (can_open _ _); [|cbn [run Z.ltb Z.compare]; unfold close; rewrite list_lookup_insert_ne by lia; done]. rewrite (proj2 (Z.ltb_ge _ _)) by lia.
    unfold close. rewrite Nat2Z.id, list_insert_insert_eq. apply IH; [lia|done|done|by apply ready_std].
  - destruct Ht as (i' & j & k & [= <-] & Hj & Hk & E & Hl & Hr). destruct Hd as [Hdl Hdr].
    apply (run_pipe st fuel j k l r); [|by intros; apply IHr; (lia || done)|done|done]. intros f' n' Hf'. apply IHl; (lia || done).
  - destruct Ht as (i' & j & k & [= <-] & Hj & Hk & E & Hl & Hr). destruct Hd as [Hdl Hdr]. cbn [runcmd]. rewrite E. unfold fork1. cbn [run Z.eqb amap plan].
    rewrite (IHl fuel j) by (lia || done). destruct (plan f n _) as [xs n1]. rewrite Hp1, Hp2. cbn [run]. rewrite (IHr fuel k) by (lia || done). by destruct (plan f n1 _).
  - destruct Ht as (i' & j & [= <-] & Hj & E & Hc). cbn [runcmd]. rewrite E. unfold fork1. cbn [run Z.eqb amap plan].
    rewrite (IH fuel j) by (lia || done). destruct (plan f n _) as [xs n1]. rewrite Hp1, Hp2. done.
Qed.

Lemma std_amap {V W} (g : V -> W) t : std_redirs (amap g t) -> std_redirs t.
Proof. induction t as [ws|c IH w m d|l IHl r IHr|l IHl r IHr|c IH]; simpl; intuition. Qed.
Lemma std_wf t : wf t -> std_redirs t.
Proof.
  induction t as [ws|c IH w m d|l IHl r IHr|l IHl r IHr|c IH]; simpl; [done| |intuition..]. intros (H1 & _ & [[_ ->]|[_ ->]]); auto.
Qed.

(** C14: from text to processes: for the text of any command, [parsecmd] returns a
    tree for which [runcmd] makes the shell start exactly the processes of the
    command, in order.  Every simple command runs with its words as arguments and
    the descriptors that redirections and pipelines prescribe (or the failure is
    reported).  The two sides of a pipeline are two children, one with the write
    end as standard output and the other with the read end as standard input; the
    parent has closed both ends when it waits for the two of them, so that no
    process keeps another end of the pipe open.  The right side of a list starts
    after the wait for the left side, and a background command is not waited
    for. *)
Theorem shell_runs t n f k : wf t -> (2 * length (text (pr 0 t)) + 1 <= n)%nat -> ready f ->
  exists p st, parsecmd (Shell (text (pr 0 t) ++ [0]) [] n) = Ret p st /\
    run f k (runcmd (S (length (heap st))) st p) = plan f k t.
Proof.
  intros Hwf Hn Hf. destruct (parse_print t n Hwf Hn) as (p & st & E & pt & Ht & Et). exists p, st. split; [done|].
  destruct (tree_ptr _ _ _ Ht) as (i & -> & Hi). rewrite Et. apply run_tree; [lia|done| |done]. eapply std_amap. rewrite <- Et. by apply std_wf.
Qed.
End run.

(** ** The theorems at work *)

(** [cat < f | wc] *)
Definition demo_cmd : ast str := Pipe (Redir (Exec [[99; 97; 116]]) [102] O_RDONLY 0) (Exec [[119; 99]]).
Lemma wf_word_check w : w <> [] -> forallb (fun c => negb (c =? 0) && negb (sep c)) w = true -> wf_word w.
Proof.
  intros Hne H. rewrite forallb_forall in H. split_and!; [done|intros H0%list_elem_of_In; by apply H in H0|]. apply Forall_forall. intros c Hc%list_elem_of_In.
  apply H in Hc. by destruct (sep c), (c =? 0).
Qed.
Definition demo_fds : fds := [Some (Given 0); Some (Given 0); Some (Given 0)] ++ replicate 13 None.

Lemma shell_runs_witness : exists p st, parsecmd (Shell (text (pr 0 demo_cmd) ++ [0]) [] 100) = Ret p st /\
  (run (fun _ => true) (fun _ _ => true) 7 demo_fds 0 (runcmd (S (length (heap st))) st p)).1 =
    PFork (PExec [99; 97; 116] [[99; 97; 116]]
             ([Some (Opened [102] O_RDONLY); Some (WriteEnd 0); Some (Given 0)] ++ replicate 13 None))
      (PFork (PExec [119; 99] [[119; 99]] ([Some (ReadEnd 0); Some (Given 0); Some (Given 0)] ++ replicate 13 None))
         (PWait demo_fds (PWait demo_fds PExit))).
Proof.
  destruct (shell_runs (fun _ => true) (fun _ _ => true) 7 ltac:(lia) demo_cmd 100 demo_fds 0) as (p & st & E & H).
  - split; [split; [split|split]|split]; [vm_compute; lia|repeat constructor; by apply wf_word_check|by apply wf_word_check|by left|vm_compute; lia|repeat constructor; by apply wf_word_check].
  - vm_compute. lia.
  - split_and!; [by eexists..|]. exists 3%nat, 4%nat. split_and!; [lia|lia|done|done|]. intros k H1 H2. assert (k = 0 \/ k = 1 \/ k = 2)%nat as [->|[->| ->]] by lia; by eexists.
  - exists p, st. split; [done|]. by rewrite H.
Defined.

(** [ls;] is a line, [(ls] is not. *)
Lemma parsecmd_witness : (exists p st, parsecmd (Shell ([108; 115; 59] ++ [0]) [] 100) = Ret p st) /\
  (forall t, ~ gline (lex [40; 108; 115]) t []).
Proof.
  split.
  - destruct (parsecmd_correct [108; 115; 59] 100) as [(t & p & st & _ & E & _)|[_ (msg & st & E)]]; [set_solver by lia|simpl; lia|by exists p, st|by vm_compute in E].
  - destruct (parsecmd_correct [40; 108; 115] 100) as [(t & p & st & _ & E & _)|[H _]]; [set_solver by lia|simpl; lia|by vm_compute in E|done].
Defined.
End ShRun.
