(* ===== verification/FsBlock.v ===== *)
(** * Disk blocks (fs.c: readsb, bzero, balloc, bfree)

    Proof rules for the operations of the store under the file system, and the
    block allocator: the free bit map describes which blocks are in use. *)

From S2P Require Import Prelude Params Bytes Str Sleeplock Block Fs.

(** ** Bit maps *)

Lemma byte_at_insert d i x : (i < length d)%nat -> byte_at (<[i := x]> d) i = x.
Proof. intros Hi. unfold byte_at. by rewrite list_lookup_insert_eq. Qed.
Lemma byte_at_insert_ne d i j x : i <> j -> byte_at (<[i := x]> d) j = byte_at d j.
Proof. intros Hi. unfold byte_at. by rewrite list_lookup_insert_ne. Qed.

Lemma bit_free_spec d bi : bit_free d bi = negb (Z.testbit (byte_at d (bi / 8)) (Z.of_nat (bi mod 8))).
Proof.
  unfold bit_free, bit_mask. set (x := byte_at d (bi / 8)). set (k := Z.of_nat (bi mod 8)).
  assert (Hk : 0 <= k) by (unfold k; lia).
  assert (Hl : Z.land x (Z.shiftl 1 k) = if Z.testbit x k then Z.shiftl 1 k else 0).
  { apply Z.bits_inj'. intros n Hn. rewrite Z.land_spec, Z.shiftl_spec by done.
    destruct (decide (n = k)) as [-> |Hne].
    - rewrite Z.sub_diag. destruct (Z.testbit x k); simpl; [by rewrite Z.shiftl_spec, Z.sub_diag|by rewrite Z.bits_0].
    - assert (H0 : Z.testbit 1 (n - k) = false).
      { destruct (decide (n < k)); [by apply Z.testbit_neg_r; lia|]. apply (Z.bits_above_log2 1); simpl; lia. }
      rewrite H0, andb_false_r. destruct (Z.testbit x k); [|by rewrite Z.bits_0]. by rewrite Z.shiftl_spec, H0. }
  rewrite Hl. destruct (Z.testbit x k); [|done]. rewrite Z.shiftl_mul_pow2 by lia. simpl.
  apply Z.eqb_neq. pose proof (Z.pow_pos_nonneg 2 k). lia.
Qed.

Lemma div_mod_eq8 a b : (a / 8 = b / 8)%nat -> (a mod 8 = b mod 8)%nat -> a = b.
Proof. intros H1 H2. pose proof (Nat.div_mod_eq a 8). pose proof (Nat.div_mod_eq b 8). lia. Qed.

Lemma testbit_mask bi k : 0 <= k -> Z.testbit (bit_mask bi) k = bool_decide (k = Z.of_nat (bi mod 8)).
Proof.
  intros Hk. unfold bit_mask. rewrite Z.shiftl_spec by done. set (m := Z.of_nat (bi mod 8)). case_bool_decide as He.
  - subst k. by rewrite Z.sub_diag.
  - destruct (decide (k < m)); [by apply Z.testbit_neg_r; lia|].
    apply (Z.bits_above_log2 1); simpl; lia.
Qed.

Lemma bit_free_set d bi bj : (bi / 8 < length d)%nat ->
  bit_free (set_bit bi d) bj = if decide (bj = bi) then false else bit_free d bj.
Proof.
  intros Hl. rewrite !bit_free_spec. unfold set_bit. destruct (decide (bj / 8 = bi / 8)%nat) as [He|He].
  - rewrite He, byte_at_insert by done. rewrite Z.lor_spec, testbit_mask by lia.
    case_decide as Hb; [subst; rewrite bool_decide_true by done; by rewrite orb_true_r|].
    rewrite bool_decide_false; [by rewrite orb_false_r|]. intros Hm. apply Hb, div_mod_eq8; [done|lia].
  - rewrite byte_at_insert_ne by done. rewrite decide_False; [done|]. by intros ->.
Qed.

Lemma bit_free_clear d bi bj : (bi / 8 < length d)%nat ->
  bit_free (clear_bit bi d) bj = if decide (bj = bi) then true else bit_free d bj.
Proof.
  intros Hl. rewrite !bit_free_spec. unfold clear_bit. destruct (decide (bj / 8 = bi / 8)%nat) as [He|He].
  - rewrite He, byte_at_insert by done. unfold u8. rewrite Z.mod_pow2_bits_low by (pose proof (Nat.mod_upper_bound bj 8); lia).
    rewrite Z.land_spec, Z.lnot_spec, testbit_mask by lia.
    case_decide as Hb; [subst; rewrite bool_decide_true by done; by rewrite andb_false_r|].
    rewrite bool_decide_false; [by rewrite andb_true_r|]. intros Hm. apply Hb, div_mod_eq8; [done|lia].
  - rewrite byte_at_insert_ne by done. rewrite decide_False; [done|]. by intros ->.
Qed.

Lemma first_free_spec d lim : forall bi,
  match first_free d bi lim with
  | Some j => (bi <= j < bi + lim)%nat /\ bit_free d j = true /\ (forall k, (bi <= k < j)%nat -> bit_free d k = false)
  | None => forall k, (bi <= k < bi + lim)%nat -> bit_free d k = false
  end.
Proof.
  induction lim as [|lim IH]; intros bi; simpl; [lia|].
  destruct (bit_free d bi) eqn:Hb; [split_and!; [lia|lia|done|lia]|].
  specialize (IH (S bi)). destruct (first_free d (S bi) lim) as [j|].
  - destruct IH as (H1 & H2 & H3). split_and!; [lia|lia|done|]. intros k Hk.
    destruct (decide (k = bi)) as [-> |]; [done|]. apply H3. lia.
  - intros k Hk. destruct (decide (k = bi)) as [-> |]; [done|]. apply IH. lia.
Qed.

(** ** Proof rules for the store *)

(** A system call may write [lim] blocks and hold two buffers besides. *)
Class TxLimit {T : Type} `{TxStoreOk T} (lim : nat) : Prop := {
  lim_room : (lim < tx_room)%nat;
  lim_cap : (lim + 2 < capacity)%nat;
}.

Section rules.
Context {T : Type} `{TxStoreOk T} {lim : nat} `{!TxLimit lim}.
Notation F := (fs T).

Definition wfs (s : F) (e : T) : F := s <| tx := e |>.
(** Blocks of the file system. *)
Definition in_disk (bn : Z) : Prop := home_block bn.

(** The blocks have the content [c], the system call has written the blocks
    [p] and holds the buffers [hs] of blocks of the file system; no change is
    unlogged. *)
Definition srep (e : T) (c : Z -> list Z) (p : gset Z) (hs : gmap Z nat) : Prop :=
  (size p <= lim)%nat /\ exists v, rep e v /\ (forall x, cont v x = c x) /\ pinned v = p /\ held v = hs /\
    (forall x, x ∉ p -> c x = dsk v x) /\ (forall x, is_Some (hs !! x) -> in_disk x).

#[export] Instance srep_proper : Proper ((=) ==> pointwise_relation Z (=) ==> (=) ==> (=) ==> iff) srep.
Proof.
  intros e ? <- c c' Hc p ? <- hs ? <-. unfold srep. split; intros (H1 & v & H2 & H3 & H4 & H5 & H6 & H7).
  - split; [done|]. exists v. split_and!; try done; [intros x; by rewrite <- Hc|intros x Hx; rewrite <- Hc; auto].
  - split; [done|]. exists v. split_and!; try done; [intros x; by rewrite Hc|intros x Hx; rewrite Hc; auto].
Qed.

Lemma srep_len e c p hs bn : srep e c p hs -> in_disk bn -> length (c bn) = BSIZE.
Proof. intros (_ & v & Hr & Hc & _) Hb. rewrite <- Hc. eapply rep_len; [done|by apply home_disk]. Qed.

Context (P : prot F) (s : F).

Lemma wp_io {A} (m : M T A) e a e' (Q : A -> F -> Prop) :
  m e = Ret a e' -> Q a (wfs s e') -> wp P (io m) (wfs s e) Q.
Proof. intros E HQ. unfold wp, io, lift. simpl. by rewrite E. Qed.

Lemma wp_bread e c p hs bn (Q : nat -> F -> Prop) :
  srep e c p hs -> in_disk bn -> hs !! bn = None -> (size hs <= 2)%nat ->
  (forall h e', srep e' c p (<[bn := h]> hs) -> Q h (wfs s e')) ->
  wp P (io (bread ROOTDEV bn)) (wfs s e) Q.
Proof.
  intros (Hsz & v & Hr & Hc & Hp & Hh & Hd & Hin) Hbn Hn Hhs HQ.
  destruct (bread_ok e v bn Hr (home_disk _ Hbn)) as (h & e' & E & R).
  { by rewrite Hh. }
  { right. unfold busy. rewrite Hp, Hh. pose proof (size_union_le (dom hs) p) as Hle. rewrite size_dom in Hle.
    pose proof lim_cap. lia. }
  eapply wp_io; [exact E|]. apply HQ. split; [done|]. eexists. split; [exact R|]. split_and!; try done; [simpl; by rewrite Hh|].
  intros x [y Hy]. apply lookup_insert_Some in Hy as [[<- _]|[_ Hy]]; [done|]. apply Hin. by exists y.
Qed.

Lemma wp_data e c p hs bn h (Q : list Z -> F -> Prop) :
  srep e c p hs -> hs !! bn = Some h -> Q (c bn) (wfs s e) -> wp P (io (b_data h)) (wfs s e) Q.
Proof.
  intros (Hsz & v & Hr & Hc & Hp & Hh & Hd & Hin) Hb HQ. eapply wp_io; [|exact HQ].
  rewrite <- Hc. apply b_data_ok; [done|by rewrite Hh].
Qed.

Lemma wp_brelse e c p hs bn h (Q : unit -> F -> Prop) :
  srep e c p hs -> hs !! bn = Some h -> (forall e', srep e' c p (delete bn hs) -> Q tt (wfs s e')) ->
  wp P (io (brelse h)) (wfs s e) Q.
Proof.
  intros (Hsz & v & Hr & Hc & Hp & Hh & Hd & Hin) Hb HQ.
  destruct (brelse_ok e v bn h Hr) as (e' & E & R).
  { by rewrite Hh. }
  { rewrite Hp. destruct (decide (bn ∈ p)); [by left|right]. rewrite Hc. by apply Hd. }
  eapply wp_io; [exact E|]. apply HQ. split; [done|]. eexists. split; [exact R|]. split_and!; try done; [simpl; by rewrite Hh|].
  intros x [y Hy]. apply lookup_delete_Some in Hy as [_ Hy]. apply Hin. by exists y.
Qed.

(** A buffer is changed and logged. *)
Lemma wp_update_log {A} e c p hs bn h f (k : M F A) (Q : A -> F -> Prop) :
  srep e c p hs -> hs !! bn = Some h -> length (f (c bn)) = BSIZE -> (size ({[bn]} ∪ p) <= lim)%nat ->
  (forall e', srep e' (fupd c bn (f (c bn))) ({[bn]} ∪ p) hs -> wp P k (wfs s e') Q) ->
  wp P (io (b_update h f) ;;; io (log_write h) ;;; k) (wfs s e) Q.
Proof.
  intros (Hsz & v & Hr & Hc & Hp & Hh & Hd & Hin) Hb Hl Hs HQ.
  destruct (b_update_ok e v bn h f Hr) as (e1 & E1 & R1); [by rewrite Hh|by rewrite Hc|].
  destruct (log_write_ok e1 _ bn h R1) as (e2 & E2 & R2); [by simpl; rewrite Hh|by apply Hin; exists h|simpl; rewrite Hp; pose proof lim_room; lia|].
  apply wp_bind. eapply wp_io; [exact E1|]. apply wp_bind. eapply wp_io; [exact E2|]. apply HQ.
  split; [done|]. eexists. split; [exact R2|]. simpl. rewrite Hc, Hp. split_and!; try done.
  - intros x. unfold fupd. case_decide; [done|apply Hc].
  - intros x Hx. rewrite fupd_ne by set_solver. apply Hd. set_solver.
Qed.

(** A block is read, and a block is changed. *)
Lemma wp_read {A} e c p hs bn (k : list Z -> M F A) (Q : A -> F -> Prop) :
  srep e c p hs -> in_disk bn -> hs !! bn = None -> (size hs <= 2)%nat ->
  (forall e', srep e' c p hs -> wp P (k (c bn)) (wfs s e') Q) ->
  wp P (bp <- io (bread ROOTDEV bn) ;; d <- io (b_data bp) ;; io (brelse bp) ;;; k d) (wfs s e) Q.
Proof.
  intros Hs Hbn Hn Hhs HQ. apply wp_bind. eapply wp_bread; [done..|]. intros h e1 H1.
  apply wp_bind. eapply wp_data; [done|apply lookup_insert_eq|]. apply wp_bind.
  eapply wp_brelse; [done|apply lookup_insert_eq|]. intros e2 H2. rewrite delete_insert_id in H2 by done. by apply HQ.
Qed.

Lemma wp_change {A} e c p hs bn f (k : M F A) (Q : A -> F -> Prop) :
  srep e c p hs -> in_disk bn -> hs !! bn = None -> (size hs <= 2)%nat ->
  length (f (c bn)) = BSIZE -> (size ({[bn]} ∪ p) <= lim)%nat ->
  (forall e', srep e' (fupd c bn (f (c bn))) ({[bn]} ∪ p) hs -> wp P k (wfs s e') Q) ->
  wp P (bp <- io (bread ROOTDEV bn) ;; io (b_update bp f) ;;; io (log_write bp) ;;; io (brelse bp) ;;; k) (wfs s e) Q.
Proof.
  intros Hs Hbn Hn Hhs Hl Hsz HQ. apply wp_bind. eapply wp_bread; [done..|]. intros h e1 H1.
  eapply wp_update_log; [done|apply lookup_insert_eq|done|done|]. intros e2 H2. apply wp_bind.
  eapply wp_brelse; [done|apply lookup_insert_eq|]. intros e3 H3. rewrite delete_insert_id in H3 by done. by apply HQ.
Qed.
End rules.
Arguments srep {T _ _} lim e c p hs.

(** ** The allocator *)

Section alloc.
Context {T : Type} `{TxStoreOk T} {lim : nat} `{!TxLimit lim}.
Notation F := (fs T).
Context (sbk : superblock).
Notation sz := (sb_size sbk).
Notation srep := (srep lim).

(** Block [b] is marked free. *)
Definition free (c : Z -> list Z) (b : Z) : Prop :=
  0 <= b < sz /\ bit_free (c (BBLOCK b sbk)) (Z.to_nat (b mod BPB)) = true.

(** The blocks of the file system and of the bit map lie on the disk. *)
Record bmap_ok : Prop := {
  bm_size : 0 <= sz <= nblocks;
  bm_disk b : 0 <= b < sz -> in_disk (BBLOCK b sbk);
}.
Context (HB : bmap_ok).

(** Blocks of the bit map are in use, and only blocks of the file system are
    free. *)
Record bmap_used (c : Z -> list Z) : Prop := {
  bu_bmap b b' : free c b -> 0 <= b' < sz -> b <> BBLOCK b' sbk;
  bu_disk b : free c b -> in_disk b;
}.

(** The content after block [b] is allocated. *)
Definition alloc (c : Z -> list Z) (b : Z) : Z -> list Z :=
  fupd (fupd c (BBLOCK b sbk) (set_bit (Z.to_nat (b mod BPB)) (c (BBLOCK b sbk)))) b (replicate BSIZE 0).

Lemma BPB_eq : BPB = 4096.
Proof. reflexivity. Qed.

Lemma bit_index b : (Z.to_nat (b mod BPB) / 8 < BSIZE)%nat.
Proof.
  pose proof (Z.mod_pos_bound b BPB). rewrite BPB_eq in *. apply Nat.Div0.div_lt_upper_bound. unfold BSIZE. lia.
Qed.

(** Allocation marks one block as used. *)
Lemma free_alloc c b b' : free c b -> bmap_used c -> length (c (BBLOCK b sbk)) = BSIZE ->
  free (alloc c b) b' <-> free c b' /\ b' <> b.
Proof.
  intros Hf Hu Hl. unfold free, alloc. split.
  - intros [Hb Hfree]. rewrite fupd_ne in Hfree by (intros He; by apply (bu_bmap c Hu b b' Hf Hb)).
    destruct (decide (BBLOCK b' sbk = BBLOCK b sbk)) as [He|He].
    + rewrite He, fupd_eq in Hfree. rewrite bit_free_set in Hfree by (rewrite Hl; apply bit_index).
      case_decide as Hd; [done|]. rewrite He. split; [done|]. by intros ->.
    + rewrite fupd_ne in Hfree by done. split; [done|]. by intros ->.
  - intros [[Hb Hfree] Hne]. split; [done|]. rewrite fupd_ne by (intros He; by apply (bu_bmap c Hu b b' Hf Hb)).
    destruct (decide (BBLOCK b' sbk = BBLOCK b sbk)) as [He|He]; [|by rewrite fupd_ne].
    rewrite He, fupd_eq, bit_free_set by (rewrite Hl; apply bit_index). rewrite decide_False; [by rewrite <- He|].
    intros Hm. apply Hne. unfold BBLOCK in He. pose proof (Z.mod_pos_bound b BPB). pose proof (Z.mod_pos_bound b' BPB).
    rewrite (Z.div_mod b BPB), (Z.div_mod b' BPB) by (rewrite BPB_eq; lia). rewrite BPB_eq in *. lia.
Qed.

(** Clearing a bit makes one block free. *)
Lemma free_clear c b b' : 0 <= b < sz -> length (c (BBLOCK b sbk)) = BSIZE ->
  free (fupd c (BBLOCK b sbk) (clear_bit (Z.to_nat (b mod BPB)) (c (BBLOCK b sbk)))) b' <-> free c b' \/ b' = b.
Proof.
  intros Hb Hl. unfold free. destruct (decide (BBLOCK b' sbk = BBLOCK b sbk)) as [He|He].
  - rewrite He, fupd_eq. rewrite bit_free_clear by (rewrite Hl; apply bit_index). case_decide as Hd.
    + split; [intros [Hr _]; right|intros [[Hr _]| ->]; done]. unfold BBLOCK in He.
      pose proof (Z.mod_pos_bound b BPB). pose proof (Z.mod_pos_bound b' BPB).
      rewrite (Z.div_mod b BPB), (Z.div_mod b' BPB) by (rewrite BPB_eq; lia). rewrite BPB_eq in *. lia.
    + split; [by left|]. intros [?| ->]; [done|]. by destruct Hd.
  - rewrite fupd_ne by done. split; [by left|]. intros [?| ->]; done.
Qed.

Context (P : prot F) (s : F) (Hsb : sb s = sbk).

Lemma chunk_block k bi : 0 <= k -> 0 <= bi < BPB ->
  BBLOCK (BPB * k + bi) sbk = BBLOCK (BPB * k) sbk /\ (BPB * k + bi) mod BPB = bi.
Proof.
  intros Hk Hbi. unfold BBLOCK. rewrite BPB_eq in *. split.
  - rewrite (Z.mul_comm 4096 k), Z.div_add_l, Z.div_mul, Z.div_small by lia. lia.
  - rewrite (Z.mul_comm 4096 k), Z.add_comm, Z.mod_add, Z.mod_small by lia. done.
Qed.

Lemma wp_bzero e c p hs bn (Q : unit -> F -> Prop) :
  srep e c p hs -> in_disk bn -> hs !! bn = None -> (size hs <= 2)%nat -> (size ({[bn]} ∪ p) <= lim)%nat ->
  (forall e', srep e' (fupd c bn (replicate BSIZE 0)) ({[bn]} ∪ p) hs -> Q tt (wfs s e')) ->
  wp P (bzero ROOTDEV bn) (wfs s e) Q.
Proof.
  intros Hs Hbn Hn Hhs Hsz HQ. unfold bzero. apply wp_bind. eapply wp_bread; [done..|]. intros h e1 H1.
  eapply wp_update_log; [done|apply lookup_insert_eq|done|done|]. intros e2 H2.
  eapply wp_brelse; [done|apply lookup_insert_eq|]. intros e3 H3. rewrite delete_insert_id in H3 by done. by apply HQ.
Qed.

(** [b] is the first free block. *)
Definition first (c : Z -> list Z) (b : Z) : Prop := free c b /\ forall b', b' < b -> ~ free c b'.

(** What a caller of [balloc] may hold: no free block and no bit map block. *)
Record may_hold (c : Z -> list Z) (hs : gmap Z nat) : Prop := {
  mh_size : (size hs <= 2)%nat;
  mh_free b : free c b -> hs !! b = None;
  mh_bmap b : 0 <= b < sz -> hs !! BBLOCK b sbk = None;
}.

Lemma wp_balloc_step e c p hs k (Q : option Z -> F -> Prop) :
  srep e c p hs -> bmap_used c -> may_hold c hs -> (size p + 2 <= lim)%nat ->
  0 <= k -> BPB * k < sz -> (forall b', b' < BPB * k -> ~ free c b') ->
  (forall b e', first c b -> srep e' (alloc c b) ({[b]} ∪ ({[BBLOCK b sbk]} ∪ p)) hs -> Q (Some b) (wfs s e')) ->
  (forall e', srep e' c p hs -> (forall b', b' < BPB * (k + 1) -> ~ free c b') -> Q None (wfs s e')) ->
  wp P (balloc_step ROOTDEV (BPB * k)) (wfs s e) Q.
Proof.
  intros Hs Hu [Mh1 Mh2 Mh3] Hsz Hk Hlt Hbefore HS HN.
  assert (HBPB := BPB_eq). assert (Hb0 : 0 <= BPB * k < sz) by lia.
  set (lim' := Z.to_nat (Z.min BPB (sz - BPB * k))).
  assert (Hch : forall bi, (bi < lim')%nat -> 0 <= BPB * k + Z.of_nat bi < sz /\
    BBLOCK (BPB * k + Z.of_nat bi) sbk = BBLOCK (BPB * k) sbk /\ Z.to_nat ((BPB * k + Z.of_nat bi) mod BPB) = bi).
  { intros bi Hbi. unfold lim' in Hbi. destruct (chunk_block k (Z.of_nat bi)) as [-> ->]; [done|lia|]. lia. }
  unfold balloc_step. apply wp_bind, wp_gets. unfold id. change (sb (wfs s e)) with (sb s). rewrite Hsb.
  apply wp_bind. eapply wp_bread; [done|by apply (bm_disk HB)|by apply Mh3|done|]. intros h e1 H1.
  apply wp_bind. eapply wp_data; [done|apply lookup_insert_eq|]. fold lim'.
  pose proof (first_free_spec (c (BBLOCK (BPB * k) sbk)) lim' 0) as Hff. destruct (first_free _ 0 lim') as [bi|].
  - destruct Hff as (Hbi & Hfree & Hmin). destruct (Hch bi) as (Hr & Hbb & Hmod); [lia|].
    set (b := BPB * k + Z.of_nat bi) in *.
    assert (Hfb : free c b) by (split; [done|]; by rewrite Hbb, Hmod).
    assert (Hp1 : (size ({[BBLOCK (BPB * k) sbk]} ∪ p) <= lim)%nat) by (pose proof (size_add_le (BBLOCK (BPB * k) sbk) p); lia).
    assert (Hp2 : (size ({[b]} ∪ ({[BBLOCK (BPB * k) sbk]} ∪ p)) <= lim)%nat).
    { pose proof (size_add_le (BBLOCK (BPB * k) sbk) p). pose proof (size_add_le b ({[BBLOCK (BPB * k) sbk]} ∪ p)). lia. }
    assert (Hlen : length (set_bit bi (c (BBLOCK (BPB * k) sbk))) = BSIZE).
    { unfold set_bit. rewrite length_insert. eapply srep_len; [done|]. by apply (bm_disk HB). }
    eapply wp_update_log; [done|apply lookup_insert_eq|done|done|]. intros e2 H2.
    apply wp_bind. eapply wp_brelse; [done|apply lookup_insert_eq|]. intros e3 H3.
    rewrite delete_insert_id in H3 by (by apply Mh3).
    apply wp_bind. eapply wp_bzero; [done| |by apply Mh2|done|done|].
    { by apply (bu_disk _ Hu). }
    intros e4 H4. apply wp_ret, HS.
    + split; [done|]. intros b' Hb' Hf'. destruct (decide (b' < BPB * k)); [by apply (Hbefore b')|].
      assert (Hb'i : (Z.to_nat (b' - BPB * k) < bi)%nat) by (unfold b in Hb'; lia).
      destruct (Hch (Z.to_nat (b' - BPB * k))) as (_ & Hbb' & Hmod'); [lia|].
      replace (BPB * k + Z.of_nat (Z.to_nat (b' - BPB * k))) with b' in Hbb', Hmod' by lia.
      destruct Hf' as [_ Hf']. rewrite Hbb', Hmod', Hmin in Hf' by lia. done.
    + unfold alloc. by rewrite Hbb, Hmod.
  - apply wp_bind. eapply wp_brelse; [done|apply lookup_insert_eq|]. intros e2 H2.
    rewrite delete_insert_id in H2 by (by apply Mh3). apply wp_ret, HN; [done|].
    intros b' Hb' [Hr' Hf']. destruct (decide (b' < BPB * k)); [by apply (Hbefore b')|].
    destruct (Hch (Z.to_nat (b' - BPB * k))) as (_ & Hbb' & Hmod'); [unfold lim'; lia|].
    replace (BPB * k + Z.of_nat (Z.to_nat (b' - BPB * k))) with b' in Hbb', Hmod' by lia.
    rewrite Hbb', Hmod', Hff in Hf'; [done|]. unfold lim'. lia.
Qed.

Lemma wp_balloc e c p hs (Q : Z -> F -> Prop) :
  srep e c p hs -> bmap_used c -> may_hold c hs -> (size p + 2 <= lim)%nat ->
  (forall b e', first c b -> srep e' (alloc c b) ({[b]} ∪ ({[BBLOCK b sbk]} ∪ p)) hs -> Q b (wfs s e')) ->
  ((forall b, ~ free c b) -> tolerated P "balloc: out of blocks") ->
  wp P (balloc ROOTDEV) (wfs s e) Q.
Proof.
  intros Hs Hu Hm Hsz HS HN. unfold balloc. apply wp_bind, wp_gets. unfold id. change (sb (wfs s e)) with (sb s). rewrite Hsb.
  apply wp_bind. unfold steps. set (m := Z.to_nat ((sz + BPB - 1) / BPB)).
  assert (Hm1 : forall i, (i < m)%nat <-> BPB * Z.of_nat i < sz).
  { intros i. unfold m. pose proof (bm_size HB). rewrite BPB_eq.
    pose proof (Z.div_mod (sz + 4096 - 1) 4096). pose proof (Z.mod_pos_bound (sz + 4096 - 1) 4096). lia. }
  assert (Hgen : forall n i e, (i + n = m)%nat -> srep e c p hs -> (forall b', b' < BPB * Z.of_nat i -> ~ free c b') ->
    wp P (mfor ((fun k => BPB * Z.of_nat k) <$> seq i n) (balloc_step ROOTDEV)) (wfs s e)
      (fun r s' => match r with Some b => wp P (ret b) s' Q | None => wp P (panic "balloc: out of blocks") s' Q end)).
  { induction n as [|n IH]; intros i e' Hi Hs' Hb; cbn [seq fmap list_fmap mfor].
    - apply wp_ret. unfold wp, panic. simpl. apply HN. intros b Hf. apply (Hb b); [|done].
      destruct Hf as [Hr _]. destruct (Hm1 i) as [_ Hge]. destruct (decide (BPB * Z.of_nat i < sz)); [|lia].
      specialize (Hge ltac:(done)). lia.
    - apply wp_bind. eapply wp_balloc_step; [done|done|done|done|lia|apply Hm1; lia|done| |].
      + intros b e2 Hf H2. apply wp_ret. by apply wp_ret, HS.
      + intros e2 H2 Hb2. apply (IH (S i)); [lia|done|]. intros b' Hb'. apply Hb2. lia. }
  eapply wp_mono; [apply (Hgen m 0%nat e)|]; [lia|done|intros b' Hb' [Hr _]; lia|]. intros [b|] s' HQ'; exact HQ'.
Qed.

Lemma wp_readsb e c p hs (Q : superblock -> F -> Prop) :
  srep e c p hs -> in_disk 1 -> hs !! 1 = None -> (size hs <= 2)%nat ->
  (forall e', srep e' c p hs -> Q (sb_of (c 1)) (wfs s e')) -> wp P (io (readsb ROOTDEV)) (wfs s e) Q.
Proof.
  intros (Hsz & v & Hr & Hc & Hp & Hh & Hd & Hin) H1 Hn Hhs HQ.
  destruct (readsb_ok e v Hr (home_disk _ H1)) as (e' & E & R).
  { by rewrite Hh. }
  { right. unfold busy. rewrite Hp, Hh. pose proof (size_union_le (dom hs) p) as Hle. rewrite size_dom in Hle.
    pose proof lim_cap. lia. }
  { rewrite Hp. destruct (decide (1 ∈ p)); [by left|right]. rewrite Hc. by apply Hd. }
  eapply wp_io; [exact E|]. rewrite Hc. apply HQ. split; [done|]. by exists v.
Qed.

Lemma wp_bfree e c p hs b (Q : unit -> F -> Prop) :
  srep e c p hs -> sb_of (c 1) = sbk -> in_disk 1 -> hs !! 1 = None -> hs !! BBLOCK b sbk = None -> (size hs <= 2)%nat ->
  0 <= b < sz -> (size ({[BBLOCK b sbk]} ∪ p) <= lim)%nat ->
  let d := c (BBLOCK b sbk) in let bi := Z.to_nat (b mod BPB) in
  (~ free c b -> forall e', srep e' (fupd c (BBLOCK b sbk) (clear_bit bi d)) ({[BBLOCK b sbk]} ∪ p) hs -> Q tt (wfs s e')) ->
  (free c b -> tolerated P "freeing free block") ->
  wp P (bfree ROOTDEV b) (wfs s e) Q.
Proof.
  intros Hs Hsb1 H1 Hh1 Hhb Hhs Hb Hsz d bi HQ HP. unfold bfree. apply wp_bind.
  eapply wp_readsb; [done..|]. intros e1 Hs1. rewrite Hsb1. apply wp_bind, wp_modify.
  assert (Hid : (wfs s e1) <| sb := sbk |> = wfs s e1) by (unfold wfs; rewrite <- Hsb; by destruct s).
  cbn beta. rewrite Hid. clear Hid.
  apply wp_bind. eapply wp_bread; [done|by apply (bm_disk HB)|done|done|]. intros h e2 H2.
  apply wp_bind. eapply wp_data; [done|apply lookup_insert_eq|]. fold d bi. destruct (bit_free d bi) eqn:Hf.
  - unfold wp, panic. simpl. apply HP. by split.
  - assert (Hlen : length (clear_bit bi d) = BSIZE).
    { unfold clear_bit. rewrite length_insert. eapply srep_len; [done|]. by apply (bm_disk HB). }
    eapply wp_update_log; [done|apply lookup_insert_eq|done|done|]. intros e3 H3.
    eapply wp_brelse; [done|apply lookup_insert_eq|]. intros e4 H4. rewrite delete_insert_id in H4 by done.
    apply HQ; [|done]. intros [_ Hf']. unfold d, bi in Hf. congruence.
Qed.
End alloc.

Section theorems.
Context {T : Type} `{TxStoreOk T} {lim : nat} `{!TxLimit lim}.
Notation F := (fs T).
Implicit Types (s : F) (c : Z -> list Z).

Lemma wfs_id s : wfs s (tx s) = s.
Proof. by destruct s. Qed.

(** C23: [balloc] returns the first block that the bit map has as free, marks
    it and nothing else as used, and zeroes it; no other block of the disk
    changes.  It panics when no block is free. *)
Theorem balloc_correct s c p hs :
  srep lim (tx s) c p hs -> bmap_ok (sb s) -> bmap_used (sb s) c -> may_hold (sb s) c hs -> (size p + 2 <= lim)%nat ->
  ((exists b, free (sb s) c b) -> exists b s' c', balloc ROOTDEV s = Ret b s' /\ inodes s' = inodes s /\
     first (sb s) c b /\ srep lim (tx s') c' ({[b]} ∪ ({[BBLOCK b (sb s)]} ∪ p)) hs /\
     c' b = replicate BSIZE 0 /\ (forall b', free (sb s) c' b' <-> free (sb s) c b' /\ b' <> b) /\
     (forall x, x <> b -> x <> BBLOCK b (sb s) -> c' x = c x)) /\
  ((forall b, ~ free (sb s) c b) -> exists s', balloc ROOTDEV s = Panic "balloc: out of blocks" s').
Proof.
  intros Hs HB Hu Hm Hsz. rewrite <- (wfs_id s). simpl (sb _). simpl (inodes _). split.
  - intros [b0 Hb0].
    destruct (wp_strict (balloc ROOTDEV) (wfs s (tx s)) (fun b s' => first (sb s) c b /\ inodes s' = inodes s /\
      srep lim (tx s') (alloc (sb s) c b) ({[b]} ∪ ({[BBLOCK b (sb s)]} ∪ p)) hs)) as (b & s' & E & Hf & Hi & Hs').
    { eapply wp_balloc; [done|reflexivity|done|done|done|done| |]; [done|]. intros Hno. by destruct (Hno b0). }
    exists b, s', (alloc (sb s) c b). split_and!; try done.
    + apply fupd_eq.
    + intros b'. apply free_alloc; [apply Hf|done|]. eapply srep_len; [done|]. apply (bm_disk _ HB), Hf.
    + intros x Hx1 Hx2. unfold alloc. by rewrite !fupd_ne.
  - intros Hno. apply wp_panics. eapply wp_balloc; [done|reflexivity|done|done|done|done| |done].
    intros b e' [Hf _]. by destruct (Hno b).
Qed.

(** [bfree] makes a block in use free and changes no other bit and no
    other block; it panics when the block is free already. *)
Theorem bfree_correct s c p hs b :
  srep lim (tx s) c p hs -> bmap_ok (sb s) -> sb_of (c 1) = sb s -> in_disk 1 ->
  hs !! 1 = None -> hs !! BBLOCK b (sb s) = None -> (size hs <= 2)%nat -> 0 <= b < sb_size (sb s) ->
  (size p + 1 <= lim)%nat ->
  (~ free (sb s) c b -> exists s' c', bfree ROOTDEV b s = Ret tt s' /\ inodes s' = inodes s /\
     srep lim (tx s') c' ({[BBLOCK b (sb s)]} ∪ p) hs /\
     (forall b', free (sb s) c' b' <-> free (sb s) c b' \/ b' = b) /\
     (forall x, x <> BBLOCK b (sb s) -> c' x = c x)) /\
  (free (sb s) c b -> exists s', bfree ROOTDEV b s = Panic "freeing free block" s').
Proof.
  intros Hs HB Hsb H1 Hh1 Hhb Hhs Hb Hsz. rewrite <- (wfs_id s). simpl (sb _). simpl (inodes _).
  assert (Hp : (size ({[BBLOCK b (sb s)]} ∪ p) <= lim)%nat) by (pose proof (size_add_le (BBLOCK b (sb s)) p); lia).
  split.
  - intros Hnf. set (d := clear_bit (Z.to_nat (b mod BPB)) (c (BBLOCK b (sb s)))).
    destruct (wp_strict (bfree ROOTDEV b) (wfs s (tx s)) (fun _ s' => inodes s' = inodes s /\
      srep lim (tx s') (fupd c (BBLOCK b (sb s)) d) ({[BBLOCK b (sb s)]} ∪ p) hs)) as ([] & s' & E & Hi & Hs').
    { by eapply wp_bfree. }
    exists s', (fupd c (BBLOCK b (sb s)) d). split_and!; try done.
    + intros b'. apply free_clear; [done|]. eapply srep_len; [done|]. by apply (bm_disk _ HB).
    + intros x Hx. by rewrite fupd_ne.
  - intros Hf. apply wp_panics. by eapply wp_bfree.
Qed.
End theorems.
