(* ===== verification/FsInode.v ===== *)
(** * Inodes (fs.c)

    The dinode on disk and its copy in the inode cache, and the operations on
    the cache: [iget], [idup], [ilock], [iunlock], [iupdate], [ialloc]. *)

From S2P Require Import Prelude Params Bytes Sleeplock Block Fs FsBlock.

(** ** The dinode as bytes *)

(** The 64 bytes that [iupdate] writes. *)
Definition dinode_bytes (ip : inode) : list Z :=
  le 2 (i_type ip) ++ le 2 (i_major ip) ++ le 2 (i_minor ip) ++ le 2 (i_nlink ip) ++
  le 4 (i_size ip) ++ (i_addrs ip ≫= le 4).

(** The fields are values of their C types. *)
Definition is_s16 (z : Z) : Prop := - 2 ^ 15 <= z < 2 ^ 15.
Record typed (ip : inode) : Prop := {
  ty_type : is_s16 (i_type ip);
  ty_major : is_s16 (i_major ip);
  ty_minor : is_s16 (i_minor ip);
  ty_nlink : is_s16 (i_nlink ip);
  ty_size : is_u32 (i_size ip);
  ty_naddrs : length (i_addrs ip) = S NDIRECT;
  ty_addrs : Forall is_u32 (i_addrs ip);
}.

(** [ip] with the fields on disk taken from [dp]. *)
Definition with_disk (dp ip : inode) : inode :=
  ip <| i_type := i_type dp |> <| i_major := i_major dp |> <| i_minor := i_minor dp |>
     <| i_nlink := i_nlink dp |> <| i_size := i_size dp |> <| i_addrs := i_addrs dp |>.

Lemma s16_is z : is_s16 (s16 z).
Proof. unfold is_s16, s16. pose proof (Z.mod_pos_bound (z + 2 ^ 15) (2 ^ 16)). lia. Qed.
Lemma s16_mod z : is_s16 z -> s16 (z mod 2 ^ 16) = z.
Proof.
  unfold is_s16, s16. intros H. rewrite Zplus_mod_idemp_l, Z.mod_small; lia.
Qed.

Lemma splice_app o a b d : (o + length a + length b <= length d)%nat ->
  splice (o + length a) b (splice o a d) = splice o (a ++ b) d.
Proof.
  intros H. apply list_eq. intros i. rewrite lookup_splice by (rewrite length_splice; lia).
  rewrite !lookup_splice by (rewrite ?length_app; lia). rewrite length_app.
  repeat case_decide; try lia; try done.
  - rewrite lookup_app_r by lia. f_equal. lia.
  - by rewrite lookup_app_l by lia.
Qed.

Lemma length_words l : length (l ≫= le 4) = (4 * length l)%nat.
Proof. induction l as [|x l IH]; [done|]. rewrite bind_cons, length_app, length_le, IH. simpl. lia. Qed.

Lemma words_slice l : forall k x, l !! k = Some x -> slice (4 * k) 4 (l ≫= le 4) = le 4 x.
Proof.
  induction l as [|y l IH]; intros k x Hk; [done|]. rewrite bind_cons. destruct k as [|k].
  - injection Hk as ->. unfold slice. rewrite drop_0. by rewrite take_app_length' by (by rewrite length_le).
  - rewrite <- (IH k x Hk). unfold slice.
    rewrite drop_app_ge by (rewrite length_le; lia). rewrite length_le. do 2 f_equal. lia.
Qed.

Lemma put_dinode_eq o ip d : length (i_addrs ip) = S NDIRECT -> (o + 64 <= length d)%nat ->
  put_dinode o ip d = splice o (dinode_bytes ip) d.
Proof.
  intros Ha Hd. unfold put_dinode, put16, put32, dinode_bytes. pose proof (length_words (i_addrs ip)) as Hw.
  assert (HN : NDIRECT = 12%nat) by done.
  assert (Hl2 : forall z, length (le 2 z) = 2%nat) by (intros; apply length_le).
  assert (Hl4 : forall z, length (le 4 z) = 4%nat) by (intros; apply length_le).
  rewrite <- !(splice_app o) by (rewrite ?length_app, ?Hl2, ?Hl4; lia).
  rewrite <- !splice_app by (repeat rewrite length_splice; rewrite ?length_app, ?Hl2, ?Hl4; lia).
  rewrite !Hl2, !Hl4. by rewrite <- !Nat.add_assoc.
Qed.

Lemma length_dinode_bytes ip : length (i_addrs ip) = S NDIRECT -> length (dinode_bytes ip) = sizeof_dinode.
Proof. intros Ha. unfold dinode_bytes. by rewrite !length_app, !length_le, length_words, Ha. Qed.

Lemma slice_in_splice o k n bs d : (o + length bs <= length d)%nat -> (k + n <= length bs)%nat ->
  slice (o + k) n (splice o bs d) = slice k n bs.
Proof.
  intros H1 H2. apply list_eq. intros i. rewrite !lookup_slice. case_decide; [|done].
  rewrite lookup_splice by done. rewrite decide_True by lia. f_equal. lia.
Qed.

Lemma dinode_slices dp : let d := dinode_bytes dp in
  slice 0 2 d = le 2 (i_type dp) /\ slice 2 2 d = le 2 (i_major dp) /\ slice 4 2 d = le 2 (i_minor dp) /\
  slice 6 2 d = le 2 (i_nlink dp) /\ slice 8 4 d = le 4 (i_size dp).
Proof.
  unfold dinode_bytes. by split_and!.
Qed.

(** The dinode that was written is read. *)
Lemma get_put_dinode o dp ip d : typed dp -> (o + 64 <= length d)%nat ->
  get_dinode o (put_dinode o dp d) ip = with_disk dp ip.
Proof.
  intros [T1 T2 T3 T4 T5 T6 T7] Hd. rewrite put_dinode_eq by done.
  pose proof (length_dinode_bytes dp T6) as Hl. unfold sizeof_dinode in Hl.
  assert (Hs : forall k n, (k + n <= 64)%nat ->
    slice (o + k) n (splice o (dinode_bytes dp) d) = slice k n (dinode_bytes dp)).
  { intros k n Hk. apply slice_in_splice; lia. }
  assert (E0 : forall bs, get16 o bs = get16 (o + 0) bs) by (intros; by rewrite Nat.add_0_r).
  unfold get_dinode. rewrite E0. unfold get16, get32. rewrite !Hs by lia.
  assert (Ha : (fun k => unle (slice (o + 12 + 4 * k) 4 (splice o (dinode_bytes dp) d))) <$> seq 0 (S NDIRECT) = i_addrs dp).
  { apply list_eq. intros k. rewrite list_lookup_fmap. destruct (decide (k < S NDIRECT)%nat) as [Hk|Hk].
    - rewrite lookup_seq_lt by done. cbn [fmap option_fmap option_map]. change (0 + k)%nat with k.
      destruct (lookup_lt_is_Some_2 (i_addrs dp) k) as [x Hx]; [by rewrite T6|]. rewrite Hx. f_equal.
      rewrite <- Nat.add_assoc, Hs by (unfold NDIRECT in Hk; lia).
      unfold dinode_bytes. rewrite !app_assoc. set (h := _ ++ le 4 (i_size dp)).
      assert (Hh : length h = 12%nat) by (unfold h; by rewrite !length_app, !length_le).
      unfold slice. rewrite drop_app_ge by lia. rewrite Hh. replace (12 + 4 * k - 12)%nat with (4 * k)%nat by lia.
      fold (slice (4 * k) 4 (i_addrs dp ≫= le 4)). rewrite (words_slice _ _ _ Hx), (unle_le 4).
      apply u32_small. rewrite Forall_lookup in T7. by eapply T7.
    - rewrite !lookup_ge_None_2; [done|lia|rewrite length_seq; lia]. }
  destruct (dinode_slices dp) as (-> & -> & -> & -> & ->). rewrite Ha.
  rewrite !(unle_le 2), (unle_le 4). rewrite !(s16_mod) by done. rewrite Z.mod_small by done. done.
Qed.

(** The other dinodes of the block do not change. *)
Lemma get_put_dinode_ne o o' dp ip d : length (i_addrs dp) = S NDIRECT ->
  (o + 64 <= length d)%nat -> (o' + 64 <= o \/ o + 64 <= o')%nat ->
  get_dinode o' (put_dinode o dp d) ip = get_dinode o' d ip.
Proof.
  intros Ha Hd Hne. rewrite put_dinode_eq by done. pose proof (length_dinode_bytes dp Ha) as Hl. unfold sizeof_dinode in Hl.
  assert (Hs : forall k n, (k + n <= 64)%nat ->
    slice (o' + k) n (splice o (dinode_bytes dp) d) = slice (o' + k) n d).
  { intros k n Hk. apply slice_splice_other; lia. }
  assert (E0 : forall bs, get16 o' bs = get16 (o' + 0) bs) by (intros; by rewrite Nat.add_0_r).
  unfold get_dinode. rewrite !E0. unfold get16, get32. rewrite !Hs by lia.
  replace ((fun k => unle (slice (o' + 12 + 4 * k) 4 (splice o (dinode_bytes dp) d))) <$> seq 0 (S NDIRECT))
    with ((fun k => unle (slice (o' + 12 + 4 * k) 4 d)) <$> seq 0 (S NDIRECT)); [done|].
  apply list_fmap_ext. intros j k [-> Hk]%lookup_seq. rewrite <- !Nat.add_assoc, Hs; [done|]. unfold NDIRECT in Hk. lia.
Qed.

Lemma length_put_dinode o dp d : length (i_addrs dp) = S NDIRECT -> (o + 64 <= length d)%nat ->
  length (put_dinode o dp d) = length d.
Proof.
  intros Ha Hd. rewrite put_dinode_eq by done. apply length_splice. by rewrite length_dinode_bytes.
Qed.

(** Whatever the disk holds, what is read is typed. *)
Lemma get_dinode_typed o d ip : bytes d -> (o + 64 <= length d)%nat -> typed (get_dinode o d ip).
Proof.
  intros Hb Hd. split; simpl; try apply s16_is.
  - apply get32_is; [done|lia].
  - done.
  - repeat constructor; (apply get32_is; [done|lia]).
Qed.

Lemma doff_bound inum : (doff inum + 64 <= BSIZE)%nat.
Proof.
  unfold doff. pose proof (Z.mod_pos_bound inum IPB). change IPB with 8 in *. unfold sizeof_dinode, BSIZE. lia.
Qed.
Lemma doff_inj sbk a b : IBLOCK a sbk = IBLOCK b sbk -> a <> b ->
  (doff a + 64 <= doff b \/ doff b + 64 <= doff a)%nat.
Proof.
  unfold IBLOCK, doff, sizeof_dinode. intros He Hne. change IPB with 8 in *.
  pose proof (Z.mod_pos_bound a 8). pose proof (Z.mod_pos_bound b 8).
  pose proof (Z.div_mod a 8). pose proof (Z.div_mod b 8). lia.
Qed.

(** ** Cache entries *)

Section entries.
Context {T : Type} `{TxStore T}.
Notation F := (fs T).

Definition wip (s : F) (i : nat) (ip : inode) : F := s <| inodes ::= <[i := ip]> |>.

Lemma wip_lookup s i ip x : inodes s !! i = Some ip -> inodes (wip s i x) !! i = Some x.
Proof. intros Hi. simpl. apply list_lookup_insert_eq. by eapply lookup_lt_Some. Qed.
Lemma wip_lookup_ne s i j x : i <> j -> inodes (wip s i x) !! j = inodes s !! j.
Proof. intros Hij. simpl. by apply list_lookup_insert_ne. Qed.
Lemma wip_id s i ip : inodes s !! i = Some ip -> wip s i ip = s.
Proof. intros Hi. unfold wip. destruct s. simpl in *. by rewrite list_insert_id. Qed.
Lemma wip_wip s i x y : wip (wip s i x) i y = wip s i y.
Proof. unfold wip. destruct s. simpl. by rewrite list_insert_insert_eq. Qed.
Lemma wfs_wfs (s : F) e e' : wfs (wfs s e) e' = wfs s e'.
Proof. done. Qed.

Context (P : prot F).

Lemma wp_get_ip s i ip (Q : inode -> F -> Prop) :
  inodes s !! i = Some ip -> Q ip s -> wp P (get_ip i) s Q.
Proof. intros Hi HQ. unfold wp, get_ip. by rewrite Hi. Qed.
Lemma wp_set_ip s i ip f (Q : unit -> F -> Prop) :
  inodes s !! i = Some ip -> Q tt (wip s i (f ip)) -> wp P (set_ip i f) s Q.
Proof. intros Hi HQ. unfold wp, set_ip. by rewrite Hi. Qed.

Lemma wp_ic_acquire s (Q : unit -> F -> Prop) :
  ic_lock s = false -> Q tt (s <| ic_lock := true |>) -> wp P acquire s Q.
Proof. intros Hl HQ. unfold wp, acquire. by rewrite Hl. Qed.
Lemma wp_ic_release s (Q : unit -> F -> Prop) :
  ic_lock s = true -> Q tt (s <| ic_lock := false |>) -> wp P release s Q.
Proof. intros Hl HQ. unfold wp, release. by rewrite Hl. Qed.

(** Change an entry under the lock of the cache. *)
Lemma wp_locked_set {A} s i ip f (a : A) (Q : A -> F -> Prop) :
  ic_lock s = false -> inodes s !! i = Some ip -> Q a (wip s i (f ip)) ->
  wp P (acquire ;;; set_ip i f ;;; release ;;; ret a) s Q.
Proof.
  intros Hl Hi HQ. apply wp_bind, wp_ic_acquire; [done|]. apply wp_bind. eapply wp_set_ip; [exact Hi|].
  apply wp_bind, wp_ic_release; [done|]. apply wp_ret.
  replace (wip (s <| ic_lock := true |>) i (f ip)) <| ic_lock := false |> with (wip s i (f ip)); [done|].
  unfold wip. destruct s. simpl in *. by subst.
Qed.

(** *** The sleep lock of an entry *)

Section sleep_at.
Context (i : nat) (mypid : Z) (fuel : nat).
Definition has_lk (s : F) (l : Sleep.sleeplock) : Prop := exists ip, inodes s !! i = Some ip /\ i_lk ip = l.
Definition put_lk (l : Sleep.sleeplock) (s : F) : F :=
  match inodes s !! i with Some ip => wip s i (ip <| i_lk := l |>) | None => s end.

Lemma ip_lk_rd s l : has_lk s l -> rd_lk i s = Ret l s.
Proof. intros (ip & Hi & <-). unfold rd_lk, bind, get_ip. by rewrite Hi. Qed.
Lemma ip_lk_wr s l l' : has_lk s l -> wr_lk i l' s = Ret tt (put_lk l' s) /\ has_lk (put_lk l' s) l'.
Proof.
  intros (ip & Hi & <-). unfold wr_lk, put_lk, set_ip. rewrite Hi. split; [done|].
  eexists. split; [by eapply wip_lookup|done].
Qed.
Lemma ip_lk_put s l l' l'' : has_lk s l -> put_lk l'' (put_lk l' s) = put_lk l'' s.
Proof.
  intros (ip & Hi & <-). unfold put_lk. rewrite Hi. erewrite wip_lookup by exact Hi. by rewrite wip_wip.
Qed.

Definition locked_by (ip : inode) : inode :=
  ip <| i_lk := (i_lk ip) <| Sleep.locked := 1 |> <| Sleep.pid := mypid |> |>.
Definition unlocked (ip : inode) : inode :=
  ip <| i_lk := (i_lk ip) <| Sleep.locked := 0 |> <| Sleep.pid := 0 |> <| Sleep.wakeups ::= S |> |>.

Context (s : F) (ip : inode) (Hi : inodes s !! i = Some ip) (Hspin : Sleep.spin (i_lk ip) = false).

Lemma has_entry : has_lk s (i_lk ip).
Proof. by exists ip. Qed.

Lemma wp_acquiresleep (Q : unit -> F -> Prop) : Sleep.locked (i_lk ip) = 0 -> (0 < fuel)%nat ->
  Q tt (wip s i (locked_by ip)) -> wp P (acquiresleep mypid fuel i) s Q.
Proof.
  intros Hl Hf HQ. eapply wp_ret_intro; [|exact HQ]. unfold acquiresleep.
  rewrite (Sleep.acquiresleep_free _ _ _ _ put_lk has_lk ip_lk_rd ip_lk_wr ip_lk_put _ _ has_entry) by done.
  unfold put_lk. by rewrite Hi.
Qed.
Lemma wp_releasesleep (Q : unit -> F -> Prop) : Q tt (wip s i (unlocked ip)) -> wp P (releasesleep i) s Q.
Proof.
  intros HQ. eapply wp_ret_intro; [|exact HQ]. unfold releasesleep.
  rewrite (Sleep.releasesleep_free _ _ put_lk has_lk ip_lk_rd ip_lk_wr ip_lk_put _ _ has_entry) by done.
  unfold put_lk. by rewrite Hi.
Qed.
Lemma wp_holdingsleep (Q : Z -> F -> Prop) : Q (Sleep.locked (i_lk ip)) s -> wp P (holdingsleep i) s Q.
Proof.
  intros HQ. eapply wp_ret_intro; [|exact HQ]. unfold holdingsleep.
  rewrite (Sleep.holdingsleep_free _ _ put_lk has_lk ip_lk_rd ip_lk_wr ip_lk_put _ _ has_entry) by done.
  unfold put_lk. rewrite Hi. f_equal. replace (ip <| i_lk := i_lk ip |>) with ip by (by destruct ip). by apply wip_id.
Qed.

Lemma wp_iunlock (Q : unit -> F -> Prop) : Sleep.locked (i_lk ip) <> 0 -> 1 <= i_ref ip ->
  Q tt (wip s i (unlocked ip)) -> wp P (iunlock i) s Q.
Proof.
  intros Hl Hr HQ. unfold iunlock. apply wp_bind, wp_holdingsleep. apply wp_bind. eapply wp_get_ip; [done|].
  rewrite (proj2 (Z.eqb_neq _ _) Hl). rewrite (proj2 (Z.ltb_ge _ _)) by done. by apply wp_releasesleep.
Qed.
End sleep_at.

Lemma wp_idup s i ip (Q : nat -> F -> Prop) : ic_lock s = false -> inodes s !! i = Some ip ->
  Q i (wip s i (ip <| i_ref ::= Z.add 1 |>)) -> wp P (idup i) s Q.
Proof. intros Hl Hi HQ. unfold idup. by eapply wp_locked_set. Qed.
End entries.

(** ** The cache

    Reference counts are not negative, no spin lock of an entry is held while
    no operation runs, and an inode has at most one entry in use. *)

Record icache_ok (l : list inode) : Prop := {
  ic_ref i ip : l !! i = Some ip -> 0 <= i_ref ip;
  ic_spin i ip : l !! i = Some ip -> Sleep.spin (i_lk ip) = false;
  ic_uniq i j ip jp : l !! i = Some ip -> l !! j = Some jp -> 0 < i_ref ip -> 0 < i_ref jp ->
    i_dev ip = i_dev jp -> i_inum ip = i_inum jp -> i = j;
}.

(** The entry in use for an inode. *)
Definition entry (l : list inode) (dev inum : Z) (i : nat) : Prop :=
  exists ip, l !! i = Some ip /\ 0 < i_ref ip /\ i_dev ip = dev /\ i_inum ip = inum.

Lemma iget_scan_spec dev inum l : forall k empty,
  match iget_scan l k dev inum empty with
  | inl i => exists j, i = (k + j)%nat /\ entry l dev inum j
  | inr e => (forall j, ~ entry l dev inum j) /\
      (empty = None -> match e with
        | Some i => exists j ip, i = (k + j)%nat /\ l !! j = Some ip /\ i_ref ip = 0
        | None => forall j ip, l !! j = Some ip -> i_ref ip <> 0 end) /\
      (forall i, empty = Some i -> e = Some i)
  end.
Proof.
  induction l as [|ip l IH]; intros k empty; simpl.
  - split_and!; [by intros j (? & ? & _)|by intros ->|by intros i ->].
  - destruct ((0 <? i_ref ip) && (i_dev ip =? dev) && (i_inum ip =? inum)) eqn:E.
    + apply andb_true_iff in E as [[E1 E2]%andb_true_iff E3]. exists 0%nat. split; [lia|]. exists ip. split_and!; [done|lia..].
    + set (e' := match empty with None => _ | _ => _ end). specialize (IH (S k) e').
      assert (Hno : forall j, (forall j', ~ entry l dev inum j') -> ~ entry (ip :: l) dev inum j).
      { intros [|j] Hl (x & Hx & Hr & Hd & Hn); simplify_eq/=; [|by eapply Hl; eexists].
        rewrite (proj2 (Z.ltb_lt _ _)), !Z.eqb_refl in E by done. done. }
      destruct (iget_scan l (S k) dev inum e') as [i|e].
      * destruct IH as (j & -> & Hj). exists (S j). split; [lia|exact Hj].
      * destruct IH as (H1 & H2 & H3). split_and!; [intros j; by apply Hno| |intros i ->; by apply H3].
        intros ->. unfold e' in *. destruct (i_ref ip =? 0) eqn:Er.
        -- rewrite (H3 k eq_refl). exists 0%nat, ip. split_and!; [lia|done|lia].
        -- specialize (H2 eq_refl). destruct e as [i|].
           ++ destruct H2 as (j & x & -> & Hx & Hr). exists (S j), x. split_and!; [lia|done|done].
           ++ intros [|j] x Hx; simplify_eq/=; [lia|by eapply H2].
Qed.

Lemma icache_set l i ip x : icache_ok l -> l !! i = Some ip -> 0 <= i_ref x -> Sleep.spin (i_lk x) = false ->
  (0 < i_ref x -> forall j jp, j <> i -> l !! j = Some jp -> 0 < i_ref jp -> i_dev jp = i_dev x -> i_inum jp <> i_inum x) ->
  icache_ok (<[i := x]> l).
Proof.
  intros [H1 H2 H3] Hi Hr Hs Hu. assert (Hlt := lookup_lt_Some _ _ _ Hi). split.
  - intros j jp [(<- & -> & _)|[_ ?]]%list_lookup_insert_Some; eauto.
  - intros j jp [(<- & -> & _)|[_ ?]]%list_lookup_insert_Some; eauto.
  - intros j k jp kp [(<- & -> & _)|[Hj Hjp]]%list_lookup_insert_Some [(<- & -> & _)|[Hk Hkp]]%list_lookup_insert_Some;
      intros; try done.
    + by destruct (Hu ltac:(done) k kp).
    + by destruct (Hu ltac:(done) j jp).
    + by eapply H3.
Qed.

(** The same inode keeps its entry. *)
Lemma icache_same l i ip x : icache_ok l -> l !! i = Some ip -> 0 <= i_ref x -> Sleep.spin (i_lk x) = false ->
  (0 < i_ref x -> 0 < i_ref ip) -> i_dev x = i_dev ip -> i_inum x = i_inum ip -> icache_ok (<[i := x]> l).
Proof.
  intros Hok Hi Hr Hs Hpos Hd Hn. eapply icache_set; [done..|]. intros Hx j jp Hne Hj Hjp Hdj Hnj. apply Hne.
  eapply (ic_uniq _ Hok); [done..| |by auto|congruence|congruence]. done.
Qed.

Section iget.
Context {T : Type} `{TxStore T}.
Notation F := (fs T).
Context (P : prot F).

(** The entry that [iget] makes for an inode that is not in the cache. *)
Definition fresh_entry (dev inum : Z) (ip : inode) : inode :=
  ip <| i_dev := dev |> <| i_inum := inum |> <| i_ref := 1 |> <| i_valid := 0 |>.
Definition more_ref (ip : inode) : inode := ip <| i_ref ::= Z.add 1 |>.

Lemma wp_iget s dev inum (Q : nat -> F -> Prop) :
  ic_lock s = false -> icache_ok (inodes s) ->
  (forall i ip, inodes s !! i = Some ip -> 0 < i_ref ip -> i_dev ip = dev -> i_inum ip = inum ->
     Q i (wip s i (more_ref ip))) ->
  ((forall i, ~ entry (inodes s) dev inum i) -> forall i ip, inodes s !! i = Some ip -> i_ref ip = 0 ->
     Q i (wip s i (fresh_entry dev inum ip))) ->
  ((forall i ip, inodes s !! i = Some ip -> 0 < i_ref ip) -> (forall i, ~ entry (inodes s) dev inum i) ->
     tolerated P "iget: no inodes") ->
  wp P (iget dev inum) s Q.
Proof.
  intros Hl Hok Hhit Hmiss Hfull.
  assert (Hback : forall i x, (wip (s <| ic_lock := true |>) i x) <| ic_lock := false |> = wip s i x).
  { intros i x. unfold wip. destruct s. simpl in *. by subst. }
  unfold iget. apply wp_bind, wp_ic_acquire; [done|]. apply wp_bind, wp_gets. unfold id.
  change (inodes (s <| ic_lock := true |>)) with (inodes s).
  pose proof (iget_scan_spec dev inum (inodes s) 0 None) as Hscan.
  destruct (iget_scan (inodes s) 0 dev inum None) as [i|[i|]].
  - destruct Hscan as (j & -> & ip & Hi & Hr & Hd & Hn). apply wp_bind. eapply wp_set_ip; [exact Hi|].
    apply wp_bind, wp_ic_release; [done|]. apply wp_ret. rewrite Hback. by apply Hhit.
  - destruct Hscan as (Hno & Hj & _). destruct (Hj eq_refl) as (j & ip & -> & Hi & Hr).
    apply wp_bind. eapply wp_set_ip; [exact Hi|]. apply wp_bind, wp_ic_release; [done|]. apply wp_ret. rewrite Hback.
    by apply (Hmiss Hno j ip).
  - destruct Hscan as (Hno & Hj & _). unfold wp, panic. simpl. apply Hfull; [|done].
    intros i ip Hi. pose proof (ic_ref _ Hok i ip Hi). pose proof (Hj eq_refl i ip Hi). lia.
Qed.

End iget.

(** The effect of [iget] on the cache [l]: entry [i] is returned. *)
Inductive got (dev inum : Z) (l l' : list inode) (i : nat) : Prop :=
| got_cached ip : l !! i = Some ip -> 0 < i_ref ip -> i_dev ip = dev -> i_inum ip = inum ->
    l' = <[i := more_ref ip]> l -> got dev inum l l' i
| got_new ip : (forall j, ~ entry l dev inum j) -> l !! i = Some ip -> i_ref ip = 0 ->
    l' = <[i := fresh_entry dev inum ip]> l -> got dev inum l l' i.

Lemma got_ok dev inum l l' i : icache_ok l -> got dev inum l l' i ->
  icache_ok l' /\ entry l' dev inum i /\ (forall j, j <> i -> l' !! j = l !! j).
Proof.
  intros Hok [ip Hi Hr Hd Hn ->|ip Hno Hi Hr ->]; (split_and!; [|eexists; split; [by apply list_lookup_insert_eq; eapply lookup_lt_Some|done || (simpl; split_and!; lia)]|intros j Hj; by rewrite list_lookup_insert_ne]).
  - eapply icache_same; [done|done|simpl; lia| |done|done|done]. simpl. by eapply ic_spin.
  - eapply icache_set; [done|done|simpl; lia|simpl; by eapply ic_spin|]. intros _ j jp Hne Hj Hjr Hd Hn.
    simpl in *. apply (Hno j). by exists jp.
Qed.

(** [iget] keeps the cache in order - one entry for an inode in use - and
    returns the entry of the inode with one more reference; an inode that is
    not cached gets a free entry, not yet valid.  It panics exactly when the
    inode is not cached and every entry is in use. *)
Theorem iget_correct {T} `{TxStore T} (s : fs T) dev inum :
  ic_lock s = false -> icache_ok (inodes s) ->
  (exists i s', iget dev inum s = Ret i s' /\ got dev inum (inodes s) (inodes s') i /\ tx s' = tx s /\ ic_lock s' = false /\
     icache_ok (inodes s') /\ (forall j, entry (inodes s') dev inum j <-> j = i)) \/
  ((exists s', iget dev inum s = Panic "iget: no inodes" s') /\ (forall i, ~ entry (inodes s) dev inum i) /\
   forall i ip, inodes s !! i = Some ip -> 0 < i_ref ip).
Proof.
  intros Hl Hok.
  destruct (wp_may_panic "iget: no inodes" ((forall i, ~ entry (inodes s) dev inum i) /\
    forall i ip, inodes s !! i = Some ip -> 0 < i_ref ip) (iget dev inum) s
    (fun i s' => got dev inum (inodes s) (inodes s') i /\ tx s' = tx s /\ ic_lock s' = false))
    as [(i & s' & E & Hg & Ht & Hl')|[E Hfull]].
  - apply wp_iget; [done|done| | |by intros].
    + intros i ip Hi Hr Hd Hn. split_and!; [by econstructor|done|done].
    + intros Hno i ip Hi Hr. split_and!; [by eapply got_new|done|done].
  - left. exists i, s'. destruct (got_ok _ _ _ _ _ Hok Hg) as (Hok' & (ip & Hi & Hr & Hd & Hn) & _). split_and!; try done.
    intros j. split; [|by intros ->; exists ip]. intros (jp & Hj & Hjr & Hjd & Hjn).
    by eapply (ic_uniq _ Hok'); [done..|congruence|congruence].
  - by right.
Qed.

(** ** Inodes on disk *)

Section disk.
Context {T : Type} `{TxStoreOk T} {lim : nat} `{!TxLimit lim}.
Notation F := (fs T).
Notation srep := (srep lim).
Context (P : prot F) (mypid : Z) (fuel : nat).

(** [ip] with the fields that [c] has for it. *)
Definition from_disk (sbk : superblock) (c : Z -> list Z) (ip : inode) : inode :=
  get_dinode (doff (i_inum ip)) (c (IBLOCK (i_inum ip) sbk)) ip.
(** The content of the disk after [iupdate]. *)
Definition to_disk (sbk : superblock) (ip : inode) (c : Z -> list Z) : Z -> list Z :=
  let b := IBLOCK (i_inum ip) sbk in fupd c b (put_dinode (doff (i_inum ip)) ip (c b)).
(** What [ilock] finds: the copy in the cache if it is valid. *)
Definition loaded (sbk : superblock) (c : Z -> list Z) (ip : inode) : inode :=
  if i_valid ip =? 0 then (from_disk sbk c ip) <| i_valid := 1 |> else ip.

Lemma wp_iupdate s e c p hs i ip (Q : unit -> F -> Prop) :
  srep e c p hs -> inodes s !! i = Some ip -> i_dev ip = ROOTDEV -> length (i_addrs ip) = S NDIRECT ->
  let b := IBLOCK (i_inum ip) (sb s) in
  in_disk b -> hs !! b = None -> (size hs <= 2)%nat -> (size ({[b]} ∪ p) <= lim)%nat ->
  (forall e', srep e' (to_disk (sb s) ip c) ({[b]} ∪ p) hs -> Q tt (wfs s e')) ->
  wp P (iupdate i) (wfs s e) Q.
Proof.
  intros Hs Hi Hd Ha b Hb Hh Hhs Hp HQ. unfold iupdate. apply wp_bind. eapply wp_get_ip; [exact Hi|].
  apply wp_bind, wp_gets. unfold id. rewrite Hd. change (IBLOCK (i_inum ip) (sb (wfs s e))) with b.
  apply wp_bind. eapply wp_bread; [done..|]. intros h e1 H1.
  eapply wp_update_log; [done|apply lookup_insert_eq| |done|].
  { pose proof (srep_len _ _ _ _ b Hs Hb) as Hl. rewrite length_put_dinode; [done|done|]. rewrite Hl. apply doff_bound. }
  intros e2 H2. eapply wp_brelse; [done|apply lookup_insert_eq|]. intros e3 H3. rewrite delete_insert_id in H3 by done.
  by apply HQ.
Qed.

Lemma wp_ilock s e c p hs i ip (Q : unit -> F -> Prop) :
  srep e c p hs -> inodes s !! i = Some ip -> i_dev ip = ROOTDEV -> 1 <= i_ref ip ->
  Sleep.spin (i_lk ip) = false -> Sleep.locked (i_lk ip) = 0 -> (0 < fuel)%nat ->
  let b := IBLOCK (i_inum ip) (sb s) in in_disk b -> hs !! b = None -> (size hs <= 2)%nat ->
  (i_valid ip = 0 -> i_type (from_disk (sb s) c ip) = 0 -> tolerated P "ilock: no type") ->
  ((i_valid ip = 0 -> i_type (from_disk (sb s) c ip) <> 0) ->
    forall e', srep e' c p hs -> Q tt (wfs (wip s i (locked_by mypid (loaded (sb s) c ip))) e')) ->
  wp P (ilock mypid fuel i) (wfs s e) Q.
Proof.
  intros Hs Hi Hd Hr Hsp Hl Hf b Hb Hh Hhs Hbad HQ. unfold ilock. apply wp_bind. eapply wp_get_ip; [exact Hi|].
  rewrite (proj2 (Z.ltb_ge _ _)) by lia. apply wp_bind. eapply wp_acquiresleep; [exact Hi|done|done|done|].
  set (lp := locked_by mypid ip). assert (Hlp : forall x, inodes (wip s i x) !! i = Some x) by (intros; by eapply wip_lookup).
  apply wp_bind. eapply wp_get_ip; [exact (Hlp lp)|]. change (i_valid lp) with (i_valid ip).
  unfold loaded in HQ. destruct (i_valid ip =? 0) eqn:Hv; unfold when.
  2: { apply wp_ret. apply HQ; [lia|done]. }
  apply Z.eqb_eq in Hv. specialize (Hbad Hv).
  apply wp_bind, wp_gets. unfold id. change (i_dev lp) with (i_dev ip). rewrite Hd.
  change (IBLOCK (i_inum lp) (sb (wip (wfs s e) i lp))) with b.
  change (wip (wfs s e) i lp) with (wfs (wip s i lp) e).
  apply wp_bind. eapply wp_bread; [done..|]. intros h e1 H1. apply wp_bind. eapply wp_data; [done|apply lookup_insert_eq|].
  apply wp_bind. eapply wp_set_ip; [exact (Hlp lp)|]. set (x := get_dinode _ _ lp).
  change (wip (wfs (wip s i lp) e1) i x) with (wfs (wip (wip s i lp) i x) e1). rewrite wip_wip.
  apply wp_bind. eapply wp_brelse; [done|apply lookup_insert_eq|]. intros e2 H2. rewrite delete_insert_id in H2 by done.
  apply wp_bind. eapply wp_set_ip; [exact (Hlp x)|]. set (y := x <| i_valid := 1 |>).
  change (wip (wfs (wip s i x) e2) i y) with (wfs (wip (wip s i x) i y) e2). rewrite wip_wip.
  apply wp_bind. eapply wp_get_ip; [exact (Hlp y)|].
  change (i_type y) with (i_type (from_disk (sb s) c ip)). destruct (i_type (from_disk (sb s) c ip) =? 0) eqn:Ht; unfold when.
  - unfold wp, panic. simpl. apply Hbad. lia.
  - apply wp_ret. apply HQ; [lia|done].
Qed.
End disk.

(** ** Allocation of inodes *)

Definition dtype (sbk : superblock) (c : Z -> list Z) (inum : Z) : Z :=
  s16 (get16 (doff inum) (c (IBLOCK inum sbk))).

(** An inode of type [type] without content. *)
Definition new_inode (type inum : Z) : inode :=
  Inode ROOTDEV inum 0 (Sleep.Sleeplock false 0 0 0) 0 type 0 0 0 0 (replicate (S NDIRECT) 0).

Lemma new_typed type inum : is_s16 type -> typed (new_inode type inum).
Proof. intros Ht. split; simpl; try done. repeat constructor; done. Qed.

Lemma new_inode_bytes type inum o d : (o + 64 <= length d)%nat ->
  put16 o type (splice o (replicate sizeof_dinode 0) d) = put_dinode o (new_inode type inum) d.
Proof.
  intros Hd. rewrite put_dinode_eq by done. unfold put16.
  assert (Hb : dinode_bytes (new_inode type inum) = le 2 type ++ replicate 62 0) by reflexivity.
  rewrite Hb. apply list_eq. intros k.
  rewrite lookup_splice by (rewrite length_splice, length_le; [lia|rewrite length_replicate; unfold sizeof_dinode; lia]).
  rewrite !lookup_splice by (rewrite ?length_app, ?length_le, ?length_replicate; unfold sizeof_dinode; lia).
  rewrite length_app, length_le, !length_replicate. unfold sizeof_dinode. repeat case_decide; try lia; try done.
  - by rewrite lookup_app_l by (rewrite length_le; lia).
  - rewrite lookup_app_r by (rewrite length_le; lia). rewrite length_le, !lookup_replicate_2 by lia. done.
Qed.

Lemma dtype_from_disk sbk c ip : dtype sbk c (i_inum ip) = i_type (from_disk sbk c ip).
Proof. done. Qed.

(** Two dinodes of the disk. *)
Lemma to_disk_same sbk ip jp c : typed ip -> i_inum jp = i_inum ip -> length (c (IBLOCK (i_inum ip) sbk)) = BSIZE ->
  from_disk sbk (to_disk sbk ip c) jp = with_disk ip jp.
Proof.
  intros Ht Hn Hl. unfold from_disk, to_disk. rewrite Hn, fupd_eq. apply get_put_dinode; [done|].
  rewrite Hl. apply doff_bound.
Qed.
Lemma to_disk_other sbk ip jp c : length (i_addrs ip) = S NDIRECT -> i_inum jp <> i_inum ip ->
  length (c (IBLOCK (i_inum ip) sbk)) = BSIZE -> from_disk sbk (to_disk sbk ip c) jp = from_disk sbk c jp.
Proof.
  intros Ha Hn Hl. unfold from_disk, to_disk. destruct (decide (IBLOCK (i_inum jp) sbk = IBLOCK (i_inum ip) sbk)) as [He|He].
  - rewrite He, fupd_eq. apply get_put_dinode_ne; [done|rewrite Hl; apply doff_bound|]. eapply doff_inj; [|done]. by rewrite He.
  - by rewrite fupd_ne.
Qed.

Section ialloc.
Context {T : Type} `{TxStoreOk T} {lim : nat} `{!TxLimit lim}.
Notation F := (fs T).
Notation srep := (srep lim).
Context (P : prot F).

(** The first free inode of the disk. *)
Definition first_inode (sbk : superblock) (c : Z -> list Z) (inum : Z) : Prop :=
  1 <= inum < sb_ninodes sbk /\ dtype sbk c inum = 0 /\ forall k, 1 <= k < inum -> dtype sbk c k <> 0.

(** Blocks of inodes lie on the disk and are not held. *)
Definition inodes_free (sbk : superblock) (hs : gmap Z nat) : Prop :=
  forall inum, 1 <= inum < sb_ninodes sbk -> in_disk (IBLOCK inum sbk) /\ hs !! IBLOCK inum sbk = None.

Lemma wp_ialloc_step s e c p hs type inum (Q : option nat -> F -> Prop) :
  srep e c p hs -> 1 <= Z.of_nat inum < sb_ninodes (sb s) -> inodes_free (sb s) hs ->
  (size hs <= 2)%nat -> (size p + 1 <= lim)%nat ->
  (dtype (sb s) c (Z.of_nat inum) <> 0 -> forall e', srep e' c p hs -> Q None (wfs s e')) ->
  (dtype (sb s) c (Z.of_nat inum) = 0 -> forall e', let np := new_inode type (Z.of_nat inum) in
     srep e' (to_disk (sb s) np c) ({[IBLOCK (Z.of_nat inum) (sb s)]} ∪ p) hs ->
     wp P (iget ROOTDEV (Z.of_nat inum)) (wfs s e') (fun i s' => Q (Some i) s')) ->
  wp P (ialloc_step ROOTDEV type inum) (wfs s e) Q.
Proof.
  intros Hs Hn Hfree Hhs Hp HN HS. destruct (Hfree _ Hn) as [Hb Hh].
  unfold ialloc_step. apply wp_bind, wp_gets. unfold id. change (sb (wfs s e)) with (sb s).
  set (b := IBLOCK (Z.of_nat inum) (sb s)) in *. apply wp_bind. eapply wp_bread; [done..|]. intros h e1 H1.
  apply wp_bind. eapply wp_data; [done|apply lookup_insert_eq|].
  change (s16 (get16 (doff (Z.of_nat inum)) (c b))) with (dtype (sb s) c (Z.of_nat inum)).
  pose proof (srep_len _ _ _ _ b Hs Hb) as Hl. pose proof (doff_bound (Z.of_nat inum)) as Ho. rewrite <- Hl in Ho.
  destruct (dtype (sb s) c (Z.of_nat inum) =? 0) eqn:Ht.
  - eapply wp_update_log; [done|apply lookup_insert_eq| | |].
    + rewrite (new_inode_bytes _ (Z.of_nat inum)), length_put_dinode by done. done.
    + pose proof (size_add_le b p). lia.
    + intros e2 H2. apply wp_bind. eapply wp_brelse; [done|apply lookup_insert_eq|]. intros e3 H3.
      rewrite delete_insert_id in H3 by done. apply wp_bind. eapply wp_mono; [apply HS|intros i s' HQ; by apply wp_ret].
      * lia.
      * unfold to_disk. simpl. fold b. by rewrite <- new_inode_bytes.
  - apply wp_bind. eapply wp_brelse; [done|apply lookup_insert_eq|]. intros e2 H2.
    rewrite delete_insert_id in H2 by done. apply wp_ret, HN; [lia|done].
Qed.

Lemma wp_ialloc s e c p hs type (Q : nat -> F -> Prop) :
  srep e c p hs -> inodes_free (sb s) hs -> (size hs <= 2)%nat -> (size p + 1 <= lim)%nat ->
  (forall inum e', first_inode (sb s) c inum ->
     srep e' (to_disk (sb s) (new_inode type inum) c) ({[IBLOCK inum (sb s)]} ∪ p) hs ->
     wp P (iget ROOTDEV inum) (wfs s e') Q) ->
  ((forall inum, 1 <= inum < sb_ninodes (sb s) -> dtype (sb s) c inum <> 0) -> tolerated P "ialloc: no inodes") ->
  wp P (ialloc ROOTDEV type) (wfs s e) Q.
Proof.
  intros Hs Hfree Hhs Hp HS HN. unfold ialloc. apply wp_bind, wp_gets. unfold id. change (sb (wfs s e)) with (sb s).
  apply wp_bind. set (m := (Z.to_nat (sb_ninodes (sb s)) - 1)%nat).
  assert (Hgen : forall n k e, (k + n = S m)%nat -> (1 <= k)%nat -> srep e c p hs ->
    (forall j, 1 <= j < Z.of_nat k -> dtype (sb s) c j <> 0) ->
    wp P (mfor (seq k n) (ialloc_step ROOTDEV type)) (wfs s e)
      (fun r s' => wp P (match r with Some i => ret i | None => panic "ialloc: no inodes" end) s' Q)).
  { induction n as [|n IH]; intros k e' Hk Hk1 Hs' Hbefore; cbn [seq mfor].
    - apply wp_ret. unfold wp, panic. simpl. apply HN. intros inum Hi. apply Hbefore. lia.
    - apply wp_bind. eapply wp_ialloc_step; [done|lia|done|done|done| |].
      + intros Ht e2 H2. apply (IH (S k)); [lia|lia|done|]. intros j Hj.
        destruct (decide (j = Z.of_nat k)) as [-> |]; [done|]. apply Hbefore. lia.
      + intros Ht e2 np H2. eapply wp_mono; [apply HS|intros i s' HQ; by apply wp_ret, wp_ret].
        * split_and!; [lia|lia|done|]. intros j Hj. apply Hbefore. lia.
        * done. }
  apply Hgen; [lia|lia|done|lia].
Qed.
End ialloc.

Section inode_theorems.
Context {T : Type} `{TxStoreOk T} {lim : nat} `{!TxLimit lim}.
Implicit Types (s : fs T) (c : Z -> list Z).

(** [ilock] reads what [iupdate] wrote.  [iupdate] changes one dinode on
    disk and nothing else; whenever the inode is locked again through an entry
    that is not valid, the entry gets type, device, links, size and addresses
    as they were. *)
Theorem iupdate_ilock mypid fuel s c p i ip :
  srep lim (tx s) c p ∅ -> (size p + 1 <= lim)%nat -> inodes s !! i = Some ip -> i_dev ip = ROOTDEV -> typed ip ->
  i_type ip <> 0 -> in_disk (IBLOCK (i_inum ip) (sb s)) -> (0 < fuel)%nat ->
  exists s1 c1, iupdate i s = Ret tt s1 /\ inodes s1 = inodes s /\
    srep lim (tx s1) c1 ({[IBLOCK (i_inum ip) (sb s)]} ∪ p) ∅ /\
    (forall b, b <> IBLOCK (i_inum ip) (sb s) -> c1 b = c b) /\
    (forall jp, i_inum jp <> i_inum ip -> from_disk (sb s) c1 jp = from_disk (sb s) c jp) /\
    forall l j jp, l !! j = Some jp -> i_inum jp = i_inum ip -> i_dev jp = ROOTDEV -> 1 <= i_ref jp -> i_valid jp = 0 ->
      Sleep.spin (i_lk jp) = false -> Sleep.locked (i_lk jp) = 0 ->
      exists s2, ilock mypid fuel j (s1 <| inodes := l |>) = Ret tt s2 /\
        inodes s2 !! j = Some (locked_by mypid ((with_disk ip jp) <| i_valid := 1 |>)).
Proof.
  intros Hs Hp Hi Hd Ht Hty Hb Hf. set (b := IBLOCK (i_inum ip) (sb s)) in *. rewrite <- (wfs_id s).
  destruct (wp_strict (iupdate i) (wfs s (tx s)) (fun _ s1 => exists e, s1 = wfs s e /\ srep lim e (to_disk (sb s) ip c) ({[b]} ∪ p) ∅))
    as ([] & s1 & E & e & -> & Hs1).
  { eapply wp_iupdate; [done|done|done|by apply Ht|done|done|rewrite map_size_empty; lia| |by eauto].
    pose proof (size_add_le b p). unfold b in *. lia. }
  assert (Hlen : length (c b) = BSIZE) by (by eapply srep_len).
  exists (wfs s e), (to_disk (sb s) ip c). split_and!; try done.
  - intros b' Hb'. by apply fupd_ne.
  - intros jp Hj. apply to_disk_other; [by apply Ht|done|done].
  - intros l j jp Hj Hn Hjd Hr Hv Hsp Hlk. set (s' := (wfs s e) <| inodes := l |>).
    assert (Hfd : from_disk (sb s) (to_disk (sb s) ip c) jp = with_disk ip jp) by (by apply to_disk_same).
    destruct (wp_strict (ilock mypid fuel j) (wfs s' e) (fun _ s2 => exists e2,
      s2 = wfs (wip s' j (locked_by mypid (loaded (sb s) (to_disk (sb s) ip c) jp))) e2)) as ([] & s2 & E2 & e2 & ->).
    { eapply wp_ilock; [done|done|done|done|done|done|done|by rewrite Hn|done|rewrite map_size_empty; lia| |by eauto].
      change (sb s') with (sb s). by rewrite Hfd. }
    eexists. split; [exact E2|]. simpl. unfold loaded. rewrite Hfd, Hv. simpl.
    apply list_lookup_insert_eq. by eapply lookup_lt_Some.
Qed.

(** [ialloc] takes the first free inode of the disk, makes it an empty
    inode of the type and returns its entry in the cache; no other inode and
    no other block changes.  It panics when the disk has no free inode, or when
    the cache has no free entry. *)
Theorem ialloc_correct s c p hs type :
  srep lim (tx s) c p hs -> inodes_free (sb s) hs -> (size hs <= 2)%nat -> (size p + 1 <= lim)%nat ->
  ic_lock s = false -> icache_ok (inodes s) -> is_s16 type ->
  (exists i inum s' c', ialloc ROOTDEV type s = Ret i s' /\ first_inode (sb s) c inum /\
     got ROOTDEV inum (inodes s) (inodes s') i /\ icache_ok (inodes s') /\
     srep lim (tx s') c' ({[IBLOCK inum (sb s)]} ∪ p) hs /\
     (forall jp, i_inum jp = inum -> from_disk (sb s) c' jp = with_disk (new_inode type inum) jp) /\
     (forall jp, i_inum jp <> inum -> from_disk (sb s) c' jp = from_disk (sb s) c jp) /\
     (forall b, b <> IBLOCK inum (sb s) -> c' b = c b)) \/
  (exists s', ialloc ROOTDEV type s = Panic "ialloc: no inodes" s' /\
     forall inum, 1 <= inum < sb_ninodes (sb s) -> dtype (sb s) c inum <> 0) \/
  (exists s', ialloc ROOTDEV type s = Panic "iget: no inodes" s' /\ forall i ip, inodes s !! i = Some ip -> 0 < i_ref ip).
Proof.
  intros Hs Hfree Hhs Hp Hl Hok Hty.
  destruct (wp_allowing (fun m => (m = "ialloc: no inodes"%string /\ forall inum, 1 <= inum < sb_ninodes (sb s) -> dtype (sb s) c inum <> 0) \/
    (m = "iget: no inodes"%string /\ forall i ip, inodes s !! i = Some ip -> 0 < i_ref ip))
    (ialloc ROOTDEV type) (wfs s (tx s)) (fun i s' => exists inum, first_inode (sb s) c inum /\
     got ROOTDEV inum (inodes s) (inodes s') i /\
     srep lim (tx s') (to_disk (sb s) (new_inode type inum) c) ({[IBLOCK inum (sb s)]} ∪ p) hs))
    as [(i & s' & E & inum & Hf & Hg & Hs')|(msg & s' & E & HT)]; try rewrite wfs_id in E.
  - eapply wp_ialloc; [done..| |by left]. intros inum e' Hf He'.
    apply wp_iget; [done|done| | |intros Hu _; right; by split].
    + intros i ip Hi Hr Hd Hn. exists inum. split_and!; [done|by econstructor|done].
    + intros Hno i ip Hi Hr. exists inum. split_and!; [done|by eapply got_new|done].
  - left. destruct (Hfree inum) as [Hb _]; [apply Hf|].
    assert (Hlen : length (c (IBLOCK inum (sb s))) = BSIZE) by (by eapply srep_len).
    exists i, inum, s', (to_disk (sb s) (new_inode type inum) c). split_and!; try done.
    + by eapply got_ok.
    + intros jp Hj. apply to_disk_same; [by apply new_typed|done|done].
    + intros jp Hj. by apply to_disk_other.
    + intros b Hb'. by apply fupd_ne.
  - right. destruct HT as [[-> ?]|[-> ?]]; [left|right]; eauto.
Qed.
End inode_theorems.
