(* ===== verification/FsFile.v ===== *)
(** * File content (fs.c)

    The blocks of a file and how [bmap] finds and allocates them. *)

From S2P Require Import Prelude Params Bytes Sleeplock Block Fs FsBlock FsInode.

(** ** Blocks of a file *)

(** Slot [k] of a file: the address of its [k]th block, and of its indirect
    block for [k] = [MAXFILE]; 0 if there is none. *)
Definition ind_of (ip : inode) : Z := default 0 (i_addrs ip !! NDIRECT).
Definition slot (c : Z -> list Z) (ip : inode) (k : nat) : Z :=
  if decide (k < NDIRECT)%nat then default 0 (i_addrs ip !! k)
  else if decide (k < MAXFILE)%nat then
    if ind_of ip =? 0 then 0 else get32 (4 * (k - NDIRECT)) (c (ind_of ip))
  else ind_of ip.

Section files.
Context {T : Type} `{TxStoreOk T} {lim : nat} `{!TxLimit lim}.
Context (sbk : superblock).
Notation F := (fs T).
Notation srep := (srep lim).
Notation sz := (sb_size sbk).
Notation free := (free sbk).
Implicit Types (c : Z -> list Z) (ip : inode).

Definition is_bmap (b : Z) : Prop := exists x, 0 <= x < sz /\ b = BBLOCK x sbk.
Definition is_iblock (b : Z) : Prop := exists n, 0 <= n < sb_ninodes sbk /\ b = IBLOCK n sbk.
(** Blocks that are not for the content of files. *)
Definition reserved (b : Z) : Prop := b = 0 \/ b = 1 \/ is_bmap b \/ is_iblock b.

(** The super block describes the disk, and what is reserved is in use. *)
Record disk_ok c : Prop := {
  dk_bmap : bmap_ok sbk;
  dk_inodes n : 0 <= n < sb_ninodes sbk -> in_disk (IBLOCK n sbk);
  dk_small : sz <= 2 ^ 32;
  dk_sep b : is_iblock b -> ~ is_bmap b;
  dk_used b : reserved b -> ~ free c b;
  dk_free b : free c b -> in_disk b;
}.

(** A block for content that is in use. *)
Definition data c (b : Z) : Prop := 0 <= b < sz /\ ~ free c b /\ ~ reserved b /\ in_disk b.

Record file_ok c ip : Prop := {
  fo_typed : typed ip;
  fo_dev : i_dev ip = ROOTDEV;
  fo_inum : 0 <= i_inum ip < sb_ninodes sbk;
  fo_size : i_size ip <= Z.of_nat (MAXFILE * BSIZE);
  fo_data k : (k <= MAXFILE)%nat -> slot c ip k <> 0 -> data c (slot c ip k);
  fo_inj k k' : (k <= MAXFILE)%nat -> (k' <= MAXFILE)%nat -> slot c ip k <> 0 -> slot c ip k = slot c ip k' -> k = k';
  fo_full k : Z.of_nat (k * BSIZE) < i_size ip -> slot c ip k <> 0;
}.

(** The file has got blocks, and its blocks have got other content; no block
    of another file has changed. *)
Record grow c ip c' ip' : Prop := {
  gr_meta : exists a z, ip' = ip <| i_addrs := a |> <| i_size := z |>;
  gr_ok : file_ok c' ip';
  gr_disk : disk_ok c';
  gr_slot k : (k <= MAXFILE)%nat -> slot c ip k <> 0 -> slot c' ip' k = slot c ip k;
  gr_new k : (k <= MAXFILE)%nat -> slot c ip k = 0 -> slot c' ip' k <> 0 -> free c (slot c' ip' k);
  gr_free x : free c' x -> free c x;
  gr_frame x : ~ free c x -> ~ is_bmap x ->
    (forall k, (k <= MAXFILE)%nat -> slot c ip k <> 0 -> slot c ip k <> x) -> c' x = c x;
}.

Lemma BSIZE_eq : BSIZE = 512%nat.
Proof. reflexivity. Qed.
Lemma MAXFILE_eq : MAXFILE = 140%nat.
Proof. reflexivity. Qed.
Lemma NDIRECT_eq : NDIRECT = 12%nat.
Proof. reflexivity. Qed.

Lemma slot_ind c ip : slot c ip MAXFILE = ind_of ip.
Proof. unfold slot. rewrite !decide_False; [done|rewrite MAXFILE_eq; lia|rewrite MAXFILE_eq, NDIRECT_eq; lia]. Qed.
Lemma slot_direct c ip k : (k < NDIRECT)%nat -> slot c ip k = default 0 (i_addrs ip !! k).
Proof. intros Hk. unfold slot. by rewrite decide_True. Qed.
Lemma slot_indirect c ip k : (NDIRECT <= k < MAXFILE)%nat ->
  slot c ip k = if ind_of ip =? 0 then 0 else get32 (4 * (k - NDIRECT)) (c (ind_of ip)).
Proof. intros Hk. unfold slot. rewrite decide_False, decide_True by lia. done. Qed.

(** Slots depend on the addresses and on the indirect block. *)
Lemma slot_ext c c' ip ip' k : i_addrs ip' = i_addrs ip -> (ind_of ip <> 0 -> c' (ind_of ip) = c (ind_of ip)) ->
  slot c' ip' k = slot c ip k.
Proof.
  intros Ha Hc. unfold slot, ind_of in *. rewrite Ha. repeat case_decide; try done.
  destruct (_ =? 0) eqn:E; [done|]. rewrite Hc; [done|lia].
Qed.

Lemma free_ext c c' b : (forall x, is_bmap x -> c' x = c x) -> free c' b <-> free c b.
Proof.
  intros Hx. unfold FsBlock.free. split; (intros [Hb Hf]; split; [done|]); [rewrite <- Hx|rewrite Hx]; try done; by exists b.
Qed.

Lemma disk_bmap_used c : disk_ok c -> bmap_used sbk c.
Proof.
  intros Hd. split; [|apply (dk_free c Hd)]. intros b b' Hf Hb' ->. apply (dk_used c Hd (BBLOCK b' sbk)); [|done].
  right; right; left. by exists b'.
Qed.
Lemma disk_ext c c' : (forall x, free c' x -> free c x) -> disk_ok c -> disk_ok c'.
Proof. intros Hf []. split; try done; [intros b Hr Hb; by apply (dk_used0 b), Hf|intros b Hb; by apply dk_free0, Hf]. Qed.

Lemma data_disk c b : disk_ok c -> data c b -> in_disk b /\ b <> 0 /\ b <> 1 /\ ~ is_bmap b /\ ~ is_iblock b.
Proof.
  intros Hd (Hb & _ & Hr & Hin). unfold reserved in *. split_and!; [done|naive_solver..].
Qed.
Lemma free_disk c b : disk_ok c -> free c b -> in_disk b /\ 0 < b < 2 ^ 32 /\ ~ reserved b.
Proof.
  intros Hd Hf. pose proof (bm_size _ (dk_bmap c Hd)). pose proof (dk_small c Hd). pose proof (dk_free c Hd b Hf).
  assert (Hr : ~ reserved b) by (intros Hr; by apply (dk_used c Hd b)). destruct Hf as [Hb _].
  assert (b <> 0) by (intros ->; apply Hr; by left). split_and!; try lia; done.
Qed.

(** Allocation. *)
Lemma alloc_free c b x : disk_ok c -> free c b -> (forall y, in_disk y -> length (c y) = BSIZE) ->
  free (alloc sbk c b) x <-> free c x /\ x <> b.
Proof.
  intros Hd Hf Hl. apply free_alloc; [done|by apply disk_bmap_used|]. apply Hl, (bm_disk _ (dk_bmap c Hd)), Hf.
Qed.
Lemma alloc_other c b x : x <> b -> ~ is_bmap x -> 0 <= b < sz -> alloc sbk c b x = c x.
Proof. intros Hx Hm Hb. unfold alloc. rewrite !fupd_ne; [done| |done]. intros ->. apply Hm. by exists b. Qed.

(** One more slot is filled, with a block that was free. *)
Lemma file_ok_add c ip c' ip' k0 b : disk_ok c -> file_ok c ip -> free c b ->
  (k0 <= MAXFILE)%nat -> slot c ip k0 = 0 ->
  (forall k, (k <= MAXFILE)%nat -> slot c' ip' k = if decide (k = k0) then b else slot c ip k) ->
  (forall x, free c' x <-> free c x /\ x <> b) ->
  (exists a, ip' = ip <| i_addrs := a |>) -> typed ip' ->
  (forall x, ~ free c x -> ~ is_bmap x -> (ind_of ip <> 0 -> x <> ind_of ip) -> c' x = c x) ->
  grow c ip c' ip'.
Proof.
  intros Hd Hok Hf Hk0 Hs0 Hslot Hfree [a Ha] Hty Hframe.
  destruct (free_disk c b Hd Hf) as (_ & Hb & Hbr). destruct Hok as [O1 O2 O3 O4 O5 O6 O7].
  assert (Hdata : forall x, data c x -> data c' x /\ x <> b).
  { intros x (X1 & X2 & X3). split; [|by intros ->]. split; [done|]. split; [by intros [? _]%Hfree|done]. }
  assert (Hok' : file_ok c' ip').
  { split; [done|by rewrite Ha..| | |].
    - intros k Hk. rewrite Hslot by done. case_decide; [|intros Hne; by apply Hdata, O5].
      intros _. split; [apply Hf|]. split; [by intros [_ ?]%Hfree|]. split; [done|by apply (dk_free c Hd)].
    - intros k k' Hk Hk'. rewrite !Hslot by done. repeat case_decide; subst k0 || subst k || idtac; try done.
      + intros _ He. exfalso. destruct (Hdata b) as [_ ?]; [|done]. rewrite He. apply O5; [done|lia].
      + intros Hne He. exfalso. destruct (Hdata b) as [_ ?]; [|done]. rewrite <- He. by apply O5.
      + by apply O6.
    - intros k Hk. assert (Hs : i_size ip' = i_size ip) by (by rewrite Ha). rewrite Hs in Hk.
      assert (Hkm : (k <= MAXFILE)%nat) by (rewrite MAXFILE_eq, BSIZE_eq in *; lia).
      rewrite Hslot by done. case_decide; [lia|]. by apply O7. }
  split; [|done|..].
  - exists a, (i_size ip). rewrite Ha. by destruct ip.
  - eapply disk_ext; [|done]. by intros x [? _]%Hfree.
  - intros k Hk Hne. rewrite Hslot by done. case_decide; [congruence|done].
  - intros k Hk He. rewrite Hslot by done. case_decide; [done|congruence].
  - by intros x [? _]%Hfree.
  - intros x X1 X2 X4. apply Hframe; [done|done|]. intros Hi0 ->. by apply (X4 MAXFILE); rewrite ?slot_ind.
Qed.

Lemma grow_refl c ip : disk_ok c -> file_ok c ip -> grow c ip c ip.
Proof. intros Hd Ho. split; try done. exists (i_addrs ip), (i_size ip). by destruct ip. Qed.

Lemma grow_trans c ip c1 ip1 c2 ip2 : grow c ip c1 ip1 -> grow c1 ip1 c2 ip2 -> grow c ip c2 ip2.
Proof.
  intros [A1 A2 A3 A4 A5 A6 A7] [B1 B2 B3 B4 B5 B6 B7]. split; try done.
  - destruct A1 as (a & z & ->), B1 as (a' & z' & ->). by exists a', z'.
  - intros k Hk Hne. rewrite <- (A4 k) by done. apply B4; [done|]. by rewrite A4.
  - intros k Hk H1 H2. destruct (decide (slot c1 ip1 k = 0)) as [E|E].
    + by apply A6, B5.
    + rewrite B4 in * by done. by apply A5.
  - intros x Hx. by apply A6, B6.
  - intros x X1 X2 X4. rewrite B7; [by apply A7|by intros ?%A6|done|].
    intros k Hk Hne. destruct (decide (slot c ip k = 0)) as [E|E]; [|rewrite A4 by done; by apply X4].
      intros <-. by apply X1, A5.
Qed.

(** The blocks logged for the indirect block that are still to come. *)
Definition pend ip (p : gset Z) : nat :=
  if ind_of ip =? 0 then 2%nat else if decide (ind_of ip ∈ p) then 0%nat else 1%nat.

Lemma pend_mono ip ip' p p' : ind_of ip' = ind_of ip -> p ⊆ p' -> (pend ip' p' <= pend ip p)%nat.
Proof. intros Hi Hp. unfold pend. rewrite Hi. destruct (_ =? 0); [done|]. repeat case_decide; try lia. set_solver. Qed.

Lemma get32_zeros o n : get32 o (replicate n 0) = 0.
Proof.
  unfold get32, slice. rewrite drop_replicate, take_replicate. generalize (4 `min` (n - o))%nat. intros m.
  induction m as [|m IH]; [done|]. simpl. by rewrite IH.
Qed.

(** At least [n] blocks are free; the blocks that [bmap] takes for the indirect
    block. *)
Definition enough c (n : nat) : Prop := exists L : gset Z, (n <= size L)%nat /\ forall b, b ∈ L -> free c b.
Definition need ip : nat := if ind_of ip =? 0 then 1%nat else 0%nat.

Lemma enough_le c n m : (m <= n)%nat -> enough c n -> enough c m.
Proof. intros Hm (L & HL & Hf). exists L. split; [lia|done]. Qed.
Lemma enough_lose c c' b n : (forall x, free c x -> x <> b -> free c' x) -> enough c (S n) -> enough c' n.
Proof.
  intros Hx (L & HL & Hf). exists (L ∖ {[b]}). split.
  - pose proof (size_add_le b (L ∖ {[b]})). assert (size L <= size ({[b]} ∪ L ∖ {[b]}))%nat; [|lia].
    apply subseteq_size. intros x Hx'. destruct (decide (x = b)); set_solver.
  - intros x [H1 H2]%elem_of_difference. apply Hx; [by apply Hf|set_solver].
Qed.
Lemma not_enough c n : (forall b, ~ free c b) -> ~ enough c (S n).
Proof.
  intros Hno (L & HL & Hf). destruct (decide (L = ∅)) as [-> |HL0]; [rewrite size_empty in HL; lia|].
  apply set_choose_L in HL0 as [b Hb]. by apply (Hno b), Hf.
Qed.

(** What [bmap] does for block [k] of the file. *)
Record mapped c p ip k c' p' ip' : Prop := {
  mp_grow : grow c ip c' ip';
  mp_size : i_size ip' = i_size ip;
  mp_slot : slot c' ip' k <> 0;
  mp_other k' : k' <> k -> (k' < MAXFILE)%nat -> slot c' ip' k' = slot c ip k';
  mp_data k' : (k' < MAXFILE)%nat -> slot c ip k' <> 0 -> c' (slot c ip k') = c (slot c ip k');
  mp_enough m : enough c (m + need ip + (if decide (slot c ip k = 0) then 1 else 0)) -> enough c' (m + need ip');
  mp_old : slot c ip k <> 0 -> c' = c /\ p' = p /\ ip' = ip;
  mp_new : slot c ip k = 0 -> slot c' ip' k ∈ p' /\ (size p' + pend ip' p' <= size p + pend ip p + 2)%nat;
}.

Lemma mapped_old c p ip k : disk_ok c -> file_ok c ip -> slot c ip k <> 0 -> mapped c p ip k c p ip.
Proof. intros Hd Ho Hk. split; try done; [by apply grow_refl|]. intros m. rewrite decide_False by done. by rewrite Nat.add_0_r. Qed.

(** A new direct block, a new indirect block, and a new block listed there. *)
Section new_block.
Context c ip b (Hd : disk_ok c) (Ho : file_ok c ip) (Hf : free c b).
Context (Hl : forall y, in_disk y -> length (c y) = BSIZE).
Notation c1 := (alloc sbk c b).

Definition set_addr (k : nat) : inode := ip <| i_addrs ::= <[k := b]> |>.

Lemma set_addr_typed k : typed (set_addr k).
Proof.
  destruct (fo_typed _ _ Ho). split; try done; simpl; [by rewrite length_insert|].
  apply Forall_insert; [done|]. destruct (free_disk c b Hd Hf) as (_ & ? & _). unfold is_u32. lia.
Qed.
Lemma own_kept k : (k <= MAXFILE)%nat -> slot c ip k <> 0 -> c1 (slot c ip k) = c (slot c ip k).
Proof.
  intros Hk Hne. pose proof (fo_data _ _ Ho k Hk Hne) as Hdk. destruct (data_disk c _ Hd Hdk) as (_ & _ & _ & Hm & _).
  apply alloc_other; [|done|apply Hf]. intros E. apply (proj1 (proj2 Hdk)). by rewrite E.
Qed.
Lemma ind_kept : ind_of ip <> 0 -> c1 (ind_of ip) = c (ind_of ip).
Proof. intros Hne. rewrite <- (slot_ind c ip) in *. by apply own_kept. Qed.
Lemma frame_alloc x : ~ free c x -> ~ is_bmap x -> c1 x = c x.
Proof. intros Hx Hm. apply alloc_other; [by intros ->|done|apply Hf]. Qed.

Lemma grow_direct k : (k < NDIRECT)%nat -> slot c ip k = 0 -> grow c ip c1 (set_addr k) /\
  slot c1 (set_addr k) k = b /\ forall k', k' <> k -> (k' <= MAXFILE)%nat -> slot c1 (set_addr k) k' = slot c ip k'.
Proof.
  intros Hk Hk0. assert (Hna := ty_naddrs _ (fo_typed _ _ Ho)).
  assert (Hkm : (k <= MAXFILE)%nat) by (rewrite MAXFILE_eq; rewrite NDIRECT_eq in Hk; lia).
  assert (Hb : slot c1 (set_addr k) k = b).
  { rewrite slot_direct by done. simpl. by rewrite list_lookup_insert_eq by lia. }
  assert (Hother : forall k', k' <> k -> slot c1 (set_addr k) k' = slot c ip k').
  { intros k' Hne. unfold slot, ind_of. simpl. rewrite !(list_lookup_insert_ne _ k) by lia. fold (ind_of ip).
    repeat case_decide; try done. destruct (ind_of ip =? 0) eqn:E; [done|]. rewrite ind_kept; [done|lia]. }
  split; [|by auto]. eapply (file_ok_add _ _ _ _ k b); try done.
  - intros k' Hk'. case_decide; [by subst|by apply Hother].
  - intros x. by apply alloc_free.
  - by exists (<[k := b]> (i_addrs ip)).
  - apply set_addr_typed.
  - intros x X1 X2 _. by apply frame_alloc.
Qed.

Lemma grow_ind : ind_of ip = 0 -> grow c ip c1 (set_addr NDIRECT) /\ ind_of (set_addr NDIRECT) = b /\
  forall k', (k' < MAXFILE)%nat -> slot c1 (set_addr NDIRECT) k' = slot c ip k'.
Proof.
  intros Hi0. assert (Hna := ty_naddrs _ (fo_typed _ _ Ho)).
  assert (Hb : ind_of (set_addr NDIRECT) = b) by (unfold ind_of; simpl; by rewrite list_lookup_insert_eq by lia).
  assert (Hother : forall k', (k' < MAXFILE)%nat -> slot c1 (set_addr NDIRECT) k' = slot c ip k').
  { intros k' Hk'. unfold slot. rewrite Hb, Hi0. repeat case_decide; try done; try lia.
    - simpl. by rewrite list_lookup_insert_ne by lia.
    - destruct (free_disk c b Hd Hf) as (_ & Hb0 & _). rewrite (proj2 (Z.eqb_neq b 0)) by lia. simpl.
      unfold alloc. rewrite fupd_eq. apply get32_zeros. }
  split; [|by auto]. eapply (file_ok_add _ _ _ _ MAXFILE b); try done.
  - intros k' Hk'. case_decide; [subst k'; by rewrite slot_ind|apply Hother; lia].
  - intros x. by apply alloc_free.
  - by exists (<[NDIRECT := b]> (i_addrs ip)).
  - apply set_addr_typed.
  - intros x X1 X2 _. by apply frame_alloc.
Qed.

Definition set_indirect (k : nat) : Z -> list Z :=
  fupd c1 (ind_of ip) (put32 (4 * (k - NDIRECT)) b (c1 (ind_of ip))).

Lemma grow_indirect k : (NDIRECT <= k < MAXFILE)%nat -> ind_of ip <> 0 -> slot c ip k = 0 ->
  grow c ip (set_indirect k) ip /\ slot (set_indirect k) ip k = b /\
  forall k', k' <> k -> (k' < MAXFILE)%nat -> slot (set_indirect k) ip k' = slot c ip k'.
Proof.
  intros Hk Hi Hk0. pose proof (fo_data _ _ Ho MAXFILE) as Hdi. rewrite slot_ind in Hdi. specialize (Hdi ltac:(lia) Hi).
  destruct (data_disk c _ Hd Hdi) as (Hdisk & _ & _ & Hm & _). assert (Hlen := Hl _ Hdisk).
  destruct (free_disk c b Hd Hf) as (_ & Hb0 & _). assert (Hi' : ind_of ip =? 0 = false) by lia.
  assert (Hin : forall k', (NDIRECT <= k' < MAXFILE)%nat -> (4 * (k' - NDIRECT) + 4 <= length (c (ind_of ip)))%nat).
  { intros k' Hk'. rewrite Hlen, BSIZE_eq. rewrite MAXFILE_eq, NDIRECT_eq in *. lia. }
  assert (Hb : slot (set_indirect k) ip k = b).
  { rewrite slot_indirect by done. rewrite Hi'. unfold set_indirect. rewrite fupd_eq, ind_kept by done.
    rewrite get_put32 by (by apply Hin). apply u32_small. unfold is_u32. lia. }
  assert (Hother : forall k', k' <> k -> (k' <= MAXFILE)%nat -> slot (set_indirect k) ip k' = slot c ip k').
  { intros k' Hne Hk'. unfold slot. rewrite Hi'. repeat case_decide; try done. unfold set_indirect. rewrite fupd_eq, ind_kept by done.
    apply get32_put32; [by apply Hin|]. rewrite NDIRECT_eq in *. lia. }
  split; [|split; [done|intros; apply Hother; lia]]. eapply (file_ok_add _ _ _ _ k b); try done; [lia| | | | |].
  - intros k' Hk'. case_decide; [by subst|by apply Hother].
  - intros x. rewrite <- (alloc_free c b x) by done. apply free_ext. intros y Hy. apply fupd_ne. by intros ->.
  - exists (i_addrs ip). by destruct ip.
  - apply Ho.
  - intros x X1 X2 X3. unfold set_indirect. rewrite fupd_ne by (by apply X3). by apply frame_alloc.
Qed.
End new_block.

(** *** [bmap] *)

Section bmap.
Context (P : prot F).

Lemma srep_lens e c p hs : srep e c p hs -> forall y, in_disk y -> length (c y) = BSIZE.
Proof. intros Hs y. by eapply srep_len. Qed.

(** [balloc] for a file that holds at most its indirect block. *)
Lemma wp_balloc_file s e c p hs (Q : Z -> F -> Prop) :
  sb s = sbk -> srep e c p hs -> disk_ok c -> (size hs <= 2)%nat -> (forall x, is_Some (hs !! x) -> data c x) -> (size p + 2 <= lim)%nat ->
  (forall b e', free c b -> srep e' (alloc sbk c b) ({[b]} ∪ ({[BBLOCK b sbk]} ∪ p)) hs -> Q b (wfs s e')) ->
  ((forall b, ~ free c b) -> tolerated P "balloc: out of blocks") ->
  wp P (balloc ROOTDEV) (wfs s e) Q.
Proof.
  intros Hsb Hs Hd Hhs Hheld Hp HS HN. eapply wp_balloc; [apply (dk_bmap c Hd)|done|done|by apply disk_bmap_used| |done| |done].
  - split; [done| |].
    + intros b Hb. apply eq_None_not_Some. intros Hin%Hheld. by apply (proj1 (proj2 Hin)).
    + intros b Hb. apply eq_None_not_Some. intros Hin%Hheld. destruct (data_disk c _ Hd Hin) as (_ & _ & _ & Hm & _).
      apply Hm. by exists b.
  - intros b e' [Hb _]. by apply HS.
Qed.

Lemma size_alloc (b b' : Z) (p : gset Z) : (size ({[b]} ∪ ({[b']} ∪ p)) <= size p + 2)%nat.
Proof. pose proof (size_add_le b ({[b']} ∪ p)). pose proof (size_add_le b' p). lia. Qed.

Lemma wp_bmap_direct s e c p i ip k (Q : Z -> F -> Prop) :
  sb s = sbk -> srep e c p ∅ -> disk_ok c -> file_ok c ip -> inodes s !! i = Some ip -> (k < NDIRECT)%nat ->
  (slot c ip k = 0 -> (size p + pend ip p + 2 <= lim)%nat) ->
  (forall e' c' p' ip', srep e' c' p' ∅ -> mapped c p ip k c' p' ip' -> Q (slot c' ip' k) (wfs (wip s i ip') e')) ->
  (slot c ip k = 0 -> ~ enough c (need ip + 1) -> tolerated P "balloc: out of blocks") ->
  wp P (bmap i (Z.of_nat k)) (wfs s e) Q.
Proof.
  intros Hsb Hs Hd Ho Hi Hk Hp HQ HT. unfold bmap. apply wp_bind. eapply wp_get_ip; [exact Hi|].
  rewrite (proj2 (Z.ltb_lt _ _)) by lia. rewrite Nat2Z.id. rewrite <- (slot_direct c ip k Hk).
  destruct (slot c ip k =? 0) eqn:E.
  - apply Z.eqb_eq in E. specialize (Hp E). specialize (HT E). rewrite (fo_dev _ _ Ho). apply wp_bind.
    eapply wp_balloc_file; [done|done|done|by rewrite map_size_empty; lia|by intros x [? ?]|lia| |].
    2: { intros Hno. apply HT. rewrite Nat.add_comm. by apply not_enough. }
    intros b e' Hf Hs'. apply wp_bind. eapply wp_set_ip; [exact Hi|]. apply wp_ret.
    destruct (grow_direct c ip b Hd Ho Hf (srep_lens _ _ _ _ Hs) k Hk E) as (Hg & Hb & Hother).
    change (wip (wfs s e') i _) with (wfs (wip s i (set_addr ip b k)) e').
    rewrite <- Hb at 1. eapply HQ; [exact Hs'|]. destruct (free_disk c b Hd Hf) as (_ & ? & _).
    assert (Hind : ind_of (set_addr ip b k) = ind_of ip).
    { rewrite <- !(slot_ind (alloc sbk c b)). rewrite Hother; [by rewrite !slot_ind| |lia].
      rewrite MAXFILE_eq. rewrite NDIRECT_eq in Hk. lia. }
    split; [done|done|lia|intros; apply Hother; [done|lia]| | |done|].
    + intros k' Hk'. apply own_kept; [done..|lia].
    + intros m. rewrite decide_True by done. unfold need. rewrite Hind, Nat.add_1_r. apply (enough_lose _ _ b).
      intros x Hx Hne. apply alloc_free; [done|done|by eapply srep_lens|done].
    + intros _. rewrite Hb. split; [set_solver|]. pose proof (size_alloc b (BBLOCK b sbk) p).
      assert (pend (set_addr ip b k) ({[b]} ∪ ({[BBLOCK b sbk]} ∪ p)) <= pend ip p)%nat; [|lia].
      apply pend_mono; [done|set_solver].
  - apply Z.eqb_neq in E. apply wp_ret. rewrite <- (wip_id s i ip Hi). eapply HQ; [done|]. by apply mapped_old.
Qed.

(** The indirect block, allocated if there is none. *)
Definition ind_part (i : nat) (ip : inode) : M F Z :=
  if ind_of ip =? 0 then
    addr <- balloc (i_dev ip) ;;
    set_ip i (fun ip => ip <| i_addrs ::= <[NDIRECT := addr]> |>) ;;;
    ret addr
  else ret (ind_of ip).
(** The block listed there. *)
Definition entry_part (i : nat) (ip : inode) (k : nat) (addr : Z) : M F Z :=
  bp <- io (bread (i_dev ip) addr) ;;
  d <- io (b_data bp) ;;
  let addr := get32 (4 * k) d in
  addr <- (if addr =? 0 then
             addr <- balloc (i_dev ip) ;;
             io (b_update bp (put32 (4 * k) addr)) ;;;
             io (log_write bp) ;;;
             ret addr
           else ret addr) ;;
  io (brelse bp) ;;;
  ret addr.

Lemma wp_ind_part s e c p i ip (Q : Z -> F -> Prop) :
  sb s = sbk -> srep e c p ∅ -> disk_ok c -> file_ok c ip -> inodes s !! i = Some ip ->
  (ind_of ip = 0 -> (size p + 2 <= lim)%nat) ->
  (forall e' c' p' ip', srep e' c' p' ∅ -> grow c ip c' ip' -> ind_of ip' <> 0 -> i_size ip' = i_size ip ->
     (forall k, (k < MAXFILE)%nat -> slot c' ip' k = slot c ip k) ->
     (forall k, (k < MAXFILE)%nat -> slot c ip k <> 0 -> c' (slot c ip k) = c (slot c ip k)) ->
     (size p' + pend ip' p' <= size p + pend ip p)%nat -> (ind_of ip <> 0 -> c' = c /\ p' = p /\ ip' = ip) ->
     (forall m, enough c (m + need ip) -> enough c' m) -> Q (ind_of ip') (wfs (wip s i ip') e')) ->
  (ind_of ip = 0 -> (forall b, ~ free c b) -> tolerated P "balloc: out of blocks") ->
  wp P (ind_part i ip) (wfs s e) Q.
Proof.
  intros Hsb Hs Hd Ho Hi Hp HQ HT. unfold ind_part. destruct (ind_of ip =? 0) eqn:E.
  - apply Z.eqb_eq in E. specialize (Hp E). specialize (HT E). rewrite (fo_dev _ _ Ho). apply wp_bind.
    eapply wp_balloc_file; [done|done|done|by rewrite map_size_empty; lia|by intros x [? ?]|lia| |done].
    intros b e' Hf Hs'. apply wp_bind. eapply wp_set_ip; [exact Hi|]. apply wp_ret.
    destruct (grow_ind c ip b Hd Ho Hf (srep_lens _ _ _ _ Hs) E) as (Hg & Hb & Hother).
    change (wip (wfs s e') i _) with (wfs (wip s i (set_addr ip b NDIRECT)) e').
    rewrite <- Hb at 1. destruct (free_disk c b Hd Hf) as (_ & Hb0 & _). eapply HQ; [exact Hs'|done|lia|done|done| | |done|].
    + intros k' Hk'. apply own_kept; [done..|lia].
    + unfold pend. rewrite Hb, E. rewrite (proj2 (Z.eqb_neq b 0)) by lia. rewrite decide_True by set_solver. simpl.
      pose proof (size_alloc b (BBLOCK b sbk) p). lia.
    + intros m. unfold need. rewrite E, Nat.add_1_r. apply (enough_lose _ _ b).
      intros x Hx Hne. apply alloc_free; [done|done|by eapply srep_lens|done].
  - apply Z.eqb_neq in E. apply wp_ret. rewrite <- (wip_id s i ip Hi).
    eapply HQ; [done|by apply grow_refl|done|done|done|done|done|done|]. intros m. apply enough_le. lia.
Qed.

Lemma wp_entry_part s e c p i ip k (Q : Z -> F -> Prop) :
  sb s = sbk -> srep e c p ∅ -> disk_ok c -> file_ok c ip -> (NDIRECT <= k < MAXFILE)%nat -> ind_of ip <> 0 ->
  (slot c ip k = 0 -> (size p + pend ip p + 2 <= lim)%nat) ->
  (slot c ip k <> 0 -> forall e', srep e' c p ∅ -> Q (slot c ip k) (wfs s e')) ->
  (slot c ip k = 0 -> forall e' c' p', srep e' c' p' ∅ -> mapped c p ip k c' p' ip -> Q (slot c' ip k) (wfs s e')) ->
  (slot c ip k = 0 -> (forall b, ~ free c b) -> tolerated P "balloc: out of blocks") ->
  wp P (entry_part i ip (k - NDIRECT) (ind_of ip)) (wfs s e) Q.
Proof.
  intros Hsb Hs Hd Ho Hk Hind Hp Hold Hnew HT. unfold entry_part. rewrite (fo_dev _ _ Ho).
  pose proof (fo_data _ _ Ho MAXFILE) as Hdi. rewrite slot_ind in Hdi. specialize (Hdi ltac:(lia) Hind).
  destruct (data_disk c _ Hd Hdi) as (Hdisk & _ & _ & Hm & _).
  apply wp_bind. eapply wp_bread; [done|done|apply lookup_empty|by rewrite map_size_empty; lia|]. intros h e1 H1.
  apply wp_bind. eapply wp_data; [done|apply lookup_insert_eq|].
  replace (get32 (4 * (k - NDIRECT)) (c (ind_of ip))) with (slot c ip k)
    by (rewrite slot_indirect by done; by rewrite (proj2 (Z.eqb_neq _ _) Hind)).
  apply wp_bind. destruct (slot c ip k =? 0) eqn:E.
  - apply Z.eqb_eq in E. specialize (Hp E). specialize (HT E). specialize (Hnew E). apply wp_bind.
    eapply wp_balloc_file; [done|done|done|rewrite insert_empty, map_size_singleton; lia| |lia| |done].
    { intros x [y Hy]. rewrite insert_empty in Hy. apply lookup_singleton_Some in Hy as [<- _]. done. }
    intros b e2 Hf H2. destruct (grow_indirect c ip b Hd Ho Hf (srep_lens _ _ _ _ Hs) k Hk Hind E) as (Hg & Hb & Hother).
    set (p2 := {[b]} ∪ ({[BBLOCK b sbk]} ∪ p)) in *.
    assert (Hsz : (size ({[ind_of ip]} ∪ p2) <= size p + pend ip p + 2)%nat).
    { pose proof (size_alloc b (BBLOCK b sbk) p). fold p2 in H3. unfold pend. rewrite (proj2 (Z.eqb_neq _ _) Hind). case_decide as Hin.
      - assert ({[ind_of ip]} ∪ p2 = p2) as -> by set_solver. lia.
      - pose proof (size_add_le (ind_of ip) p2). lia. }
    eapply wp_update_log; [done|apply lookup_insert_eq| |lia|].
    { rewrite length_put32; [by eapply srep_len|]. rewrite (srep_len _ _ _ _ _ H2 Hdisk), BSIZE_eq. rewrite MAXFILE_eq, NDIRECT_eq in *. lia. }
    intros e3 H3. apply wp_ret, wp_bind. eapply wp_brelse; [done|apply lookup_insert_eq|]. intros e4 H4.
    rewrite delete_insert_id in H4 by apply lookup_empty. apply wp_ret. rewrite <- Hb at 1. eapply Hnew; [exact H4|].
    destruct (free_disk c b Hd Hf) as (_ & Hb0 & _). change (fupd _ _ _) with (set_indirect c ip b k).
    split; [done|done|lia|done| | |done|].
    + intros k' Hk' Hne. unfold set_indirect. rewrite fupd_ne; [apply own_kept; [done..|lia|done]|].
      rewrite <- (slot_ind c ip). intros He. apply (fo_inj _ _ Ho) in He; [|lia|lia|done]. lia.
    + intros m. rewrite decide_True, Nat.add_1_r by done. apply (enough_lose _ _ b). intros x Hx Hne.
      apply (free_ext (alloc sbk c b)); [intros y Hy; apply fupd_ne; by intros -> |]. apply alloc_free; [done|done|by eapply srep_lens|done].
    + intros _. rewrite Hb. split; [set_solver|]. assert (Hp0 : pend ip ({[ind_of ip]} ∪ p2) = 0%nat); [|lia].
      unfold pend. rewrite (proj2 (Z.eqb_neq _ _) Hind). rewrite decide_True by set_solver. done.
  - apply Z.eqb_neq in E. apply wp_ret, wp_bind. eapply wp_brelse; [done|apply lookup_insert_eq|]. intros e2 H2.
    rewrite delete_insert_id in H2 by apply lookup_empty. by apply wp_ret, Hold.
Qed.

Lemma wp_bmap s e c p i ip k (Q : Z -> F -> Prop) :
  sb s = sbk -> srep e c p ∅ -> disk_ok c -> file_ok c ip -> inodes s !! i = Some ip -> (k < MAXFILE)%nat ->
  (slot c ip k = 0 -> (size p + pend ip p + 2 <= lim)%nat) ->
  (forall e' c' p' ip', srep e' c' p' ∅ -> mapped c p ip k c' p' ip' -> Q (slot c' ip' k) (wfs (wip s i ip') e')) ->
  (slot c ip k = 0 -> ~ enough c (need ip + 1) -> tolerated P "balloc: out of blocks") ->
  wp P (bmap i (Z.of_nat k)) (wfs s e) Q.
Proof.
  intros Hsb Hs Hd Ho Hi Hk Hp HQ HT. destruct (decide (k < NDIRECT)%nat) as [Hlt|Hge]; [by eapply wp_bmap_direct|].
  unfold bmap. apply wp_bind. eapply wp_get_ip; [exact Hi|]. rewrite (proj2 (Z.ltb_ge _ _)) by lia.
  rewrite (proj2 (Z.ltb_lt _ _)) by (change NINDIRECT with 128%nat; rewrite NDIRECT_eq, MAXFILE_eq in *; lia).
  replace (Z.to_nat (Z.of_nat k - Z.of_nat NDIRECT)) with (k - NDIRECT)%nat by lia.
  assert (Hind0 : ind_of ip = 0 -> slot c ip k = 0) by (intros E; rewrite slot_indirect by lia; by rewrite E).
  apply (wp_bind P (ind_part i ip) (entry_part i ip (k - NDIRECT))).
  eapply wp_ind_part; [done..| | |].
  { intros E. specialize (Hp (Hind0 E)). lia. }
  2: { intros E Hno. apply HT; [by apply Hind0|]. rewrite Nat.add_comm. by apply not_enough. }
  intros e1 c1 p1 ip1 Hs1 Hg Hind1 Hsz1 Hslots Hdata Hp1 Hsame Hen.
  destruct (gr_meta _ _ _ _ Hg) as (a & z & Hmeta).
  assert (Hdev : i_dev ip1 = i_dev ip) by (by rewrite Hmeta).
  assert (Heq : entry_part i ip (k - NDIRECT) (ind_of ip1) = entry_part i ip1 (k - NDIRECT) (ind_of ip1))
    by (unfold entry_part; by rewrite Hdev).
  rewrite Heq. eapply (wp_entry_part (wip s i ip1)); [done|done|apply Hg|apply Hg|lia|done| | | |]; rewrite Hslots by done.
  - intros E. specialize (Hp E). lia.
  - intros E e2 H2. destruct Hsame as (-> & -> & ->); [by intros ?%Hind0|]. eapply HQ; [done|]. by apply mapped_old.
  - intros E e2 c2 p2 H2 [M1 M2 M3 M4 M5 ME M6 M7]. rewrite Hslots in M7, ME by done. destruct (M7 E) as [M8 M9]. eapply HQ; [exact H2|].
    assert (Hn1 : need ip1 = 0%nat) by (unfold need; by rewrite (proj2 (Z.eqb_neq _ _) Hind1)). rewrite Hn1 in ME.
    split; [by eapply grow_trans|congruence|done| | | |done|].
    + intros k' Hne Hk'. rewrite M4, Hslots by done. done.
    + intros k' Hk' Hne. rewrite <- Hslots, M5, Hslots by (rewrite ?Hslots; done). by apply Hdata.
    + intros m Hm. rewrite Hn1. apply ME, Hen. eapply enough_le; [|exact Hm]. lia.
    + intros _. split; [done|]. lia.
  - intros E Hno. apply HT; [done|]. rewrite Nat.add_comm. intros Hm%(Hen 1%nat). by apply (not_enough c1 0).
Qed.
End bmap.
End files.
