(* ===== verification/FsRw.v ===== *)
(** * Reading and writing files (fs.c)

    [readi] and [writei] against the content of a file as a list of bytes, and
    the number of blocks that a write logs. *)

From S2P Require Import Prelude Params Bytes Sleeplock Block Fs FsBlock FsInode FsFile.

(** Byte [k] of the file, and the content of the file. *)
Definition fbyte (c : Z -> list Z) (ip : inode) (k : nat) : Z :=
  byte_at (c (slot c ip (k / BSIZE))) (k mod BSIZE).
Definition fbytes (c : Z -> list Z) (ip : inode) (off n : nat) : list Z := fbyte c ip <$> seq off n.
Definition contents (c : Z -> list Z) (ip : inode) : list Z := fbytes c ip 0 (Z.to_nat (i_size ip)).

Lemma length_fbytes c ip off n : length (fbytes c ip off n) = n.
Proof. unfold fbytes. by rewrite length_fmap, length_seq. Qed.
Lemma lookup_fbytes c ip off n k : (k < n)%nat -> fbytes c ip off n !! k = Some (fbyte c ip (off + k)).
Proof. intros Hk. unfold fbytes. by rewrite list_lookup_fmap, lookup_seq_lt by done. Qed.
Lemma fbytes_app c ip off n m : fbytes c ip off (n + m) = fbytes c ip off n ++ fbytes c ip (off + n) m.
Proof. unfold fbytes. by rewrite seq_app, fmap_app. Qed.
Lemma slice_contents c ip off n : (off + n <= Z.to_nat (i_size ip))%nat ->
  slice off n (contents c ip) = fbytes c ip off n.
Proof.
  intros Hn. apply list_eq. intros k. rewrite lookup_slice. case_decide as Hk.
  - unfold contents. by rewrite !lookup_fbytes by lia.
  - rewrite lookup_ge_None_2; [done|]. rewrite length_fbytes. lia.
Qed.

(** A part of one block. *)
Lemma block_pos off j : (off mod BSIZE + j < BSIZE)%nat ->
  ((off + j) / BSIZE = off / BSIZE /\ (off + j) mod BSIZE = off mod BSIZE + j)%nat.
Proof.
  intros Hj. pose proof (Nat.div_mod_eq off BSIZE) as Hdm. rewrite BSIZE_eq in *.
  split.
  - symmetry. apply (Nat.div_unique _ _ _ (off mod 512 + j)); lia.
  - symmetry. apply (Nat.mod_unique _ _ (off / 512)); lia.
Qed.
Lemma slice_block c ip off m : (off mod BSIZE + m <= BSIZE)%nat ->
  length (c (slot c ip (off / BSIZE))) = BSIZE ->
  slice (off mod BSIZE) m (c (slot c ip (off / BSIZE))) = fbytes c ip off m.
Proof.
  intros Hm Hl. apply list_eq. intros k. rewrite lookup_slice. case_decide as Hk.
  - rewrite lookup_fbytes by done. unfold fbyte, byte_at. destruct (block_pos off k) as [-> ->]; [lia|].
    destruct (lookup_lt_is_Some_2 (c (slot c ip (off / BSIZE))) (off mod BSIZE + k)) as [x ->]; [lia|]. done.
  - rewrite lookup_ge_None_2; [done|]. rewrite length_fbytes. lia.
Qed.

Lemma Zdiv_BSIZE k : Z.of_nat k / Z.of_nat BSIZE = Z.of_nat (k / BSIZE).
Proof. by rewrite Nat2Z.inj_div. Qed.
Lemma Zmod_BSIZE k : Z.of_nat k mod Z.of_nat BSIZE = Z.of_nat (k mod BSIZE).
Proof. by rewrite Nat2Z.inj_mod. Qed.
(** The bytes of one turn of the loops. *)
Definition part (n tot off : nat) : nat := Nat.min (n - tot) (BSIZE - off mod BSIZE).
Lemma part_eq n tot off : (tot <= n)%nat ->
  Z.min (Z.of_nat n - Z.of_nat tot) (Z.of_nat BSIZE - Z.of_nat off mod Z.of_nat BSIZE) = Z.of_nat (part n tot off).
Proof.
  intros Ht. unfold part. rewrite Zmod_BSIZE. pose proof (Nat.mod_upper_bound off BSIZE).
  rewrite Nat2Z.inj_min, !Nat2Z.inj_sub; [done| |done]. rewrite BSIZE_eq in *. lia.
Qed.
Lemma part_bounds n tot off : (tot < n)%nat ->
  (0 < part n tot off <= n - tot)%nat /\ (off mod BSIZE + part n tot off <= BSIZE)%nat.
Proof. intros Ht. unfold part. pose proof (Nat.mod_upper_bound off BSIZE). rewrite BSIZE_eq in *. lia. Qed.

Lemma u32_sum a b : is_u32 a -> is_u32 b -> u32 (a + b) = if a + b <? 2 ^ 32 then a + b else a + b - 2 ^ 32.
Proof.
  unfold is_u32. intros Ha Hb. destruct (a + b <? 2 ^ 32) eqn:E; [apply u32_small; unfold is_u32; lia|]. unfold u32.
  symmetry. apply (Z.mod_unique _ _ 1); lia.
Qed.

Section reading.
Context {T : Type} `{TxStoreOk T} {lim : nat} `{!TxLimit lim}.
Context (sbk : superblock).
Notation F := (fs T).
Notation srep := (srep lim).
Context (dev_read : Z -> option (nat -> Z -> M F (Z * list Z))).
Context (P : prot F) (s : F) (Hsb : sb s = sbk).
Context (c : Z -> list Z) (p : gset Z) (i : nat) (ip : inode).
Context (Hd : disk_ok sbk c) (Ho : file_ok sbk c ip) (Hi : inodes s !! i = Some ip).

Lemma block_in_file off : Z.of_nat off < i_size ip -> (off / BSIZE < MAXFILE)%nat /\ slot c ip (off / BSIZE) <> 0.
Proof.
  intros Hlt. pose proof (fo_size _ _ _ Ho). pose proof (Nat.div_mod_eq off BSIZE). split.
  - apply Nat.Div0.div_lt_upper_bound. rewrite Nat.mul_comm. lia.
  - apply (fo_full _ _ _ Ho). lia.
Qed.
Lemma slot_disk k : (k <= MAXFILE)%nat -> slot c ip k <> 0 -> in_disk (slot c ip k).
Proof. intros Hk Hne. eapply data_disk; [done|]. by apply (fo_data _ _ _ Ho). Qed.

Lemma wp_readi_loop off n fuel : forall tot e (Q : list Z -> F -> Prop),
  srep e c p ∅ -> Z.of_nat (off + n) <= i_size ip -> (tot <= n)%nat -> (n - tot < fuel)%nat ->
  (forall e', srep e' c p ∅ -> Q (fbytes c ip off n) (wfs s e')) ->
  wp P (mwhile fuel (readi_step i (Z.of_nat n)) (Z.of_nat tot, Z.of_nat (off + tot), fbytes c ip off tot)) (wfs s e) Q.
Proof.
  induction fuel as [|fuel IH]; intros tot e Q Hs Hn Ht Hf HQ; [lia|]. cbn [mwhile]. apply wp_bind. unfold readi_step.
  destruct (Z.of_nat tot <? Z.of_nat n) eqn:E.
  2: { apply wp_ret, wp_ret. assert (tot = n) as -> by lia. by apply HQ. }
  apply wp_bind. eapply wp_get_ip; [exact Hi|]. apply wp_bind.
  destruct (block_in_file (off + tot)) as [Hk Hne]; [lia|]. rewrite Zdiv_BSIZE.
  eapply wp_bmap; [exact Hsb|done|done|done|exact Hi|done|done| |done].
  intros e1 c1 p1 ip1 Hs1 Hm. destruct (mp_old _ _ _ _ _ _ _ _ Hm Hne) as (-> & -> & ->). rewrite wip_id by done.
  rewrite (fo_dev _ _ _ Ho), part_eq by lia. set (m := part n tot (off + tot)).
  destruct (part_bounds n tot (off + tot)) as [Hm1 Hm2]; [lia|]. fold m in Hm1, Hm2.
  eapply wp_read; [done|apply slot_disk; [lia|done]|apply lookup_empty|rewrite map_size_empty; lia|].
  intros e2 Hs2. apply wp_ret. rewrite Zmod_BSIZE, !Nat2Z.id, slice_block; [|done|].
  2: { eapply srep_len; [exact Hs2|]. apply slot_disk; [lia|done]. }
  rewrite <- fbytes_app, <- !Nat2Z.inj_add, u32_small.
  2: { pose proof (ty_size _ (fo_typed _ _ _ Ho)). unfold is_u32 in *. lia. }
  rewrite <- Nat.add_assoc. apply IH; [done|done|lia|lia|done].
Qed.

Lemma wp_readi e off n (Q : Z * list Z -> F -> Prop) :
  srep e c p ∅ -> i_type ip <> T_DEV -> is_u32 off -> is_u32 n ->
  (i_size ip < off \/ 2 ^ 32 <= off + n -> Q (-1, []) (wfs s e)) ->
  (off <= i_size ip -> off + n < 2 ^ 32 -> forall e', srep e' c p ∅ -> let m := Z.min n (i_size ip - off) in
     Q (m, fbytes c ip (Z.to_nat off) (Z.to_nat m)) (wfs s e')) ->
  wp P (readi dev_read i off n) (wfs s e) Q.
Proof.
  intros Hs Hty Hoff Hn HF HQ. unfold readi. apply wp_bind. eapply wp_get_ip; [exact Hi|].
  rewrite (proj2 (Z.eqb_neq _ _) Hty), u32_sum by done. unfold is_u32 in *. destruct (off + n <? 2 ^ 32) eqn:E.
  2: { rewrite (proj2 (Z.ltb_lt (off + n - 2 ^ 32) off)) by lia. rewrite orb_true_r. apply wp_ret, HF. lia. }
  rewrite (proj2 (Z.ltb_ge (off + n) off)) by lia. rewrite orb_false_r.
  destruct (i_size ip <? off) eqn:E2; [apply wp_ret, HF; lia|].
  replace (if i_size ip <? off + n then i_size ip - off else n) with (Z.min n (i_size ip - off))
    by (destruct (i_size ip <? off + n) eqn:?; lia).
  set (m := Z.min n (i_size ip - off)). apply wp_bind.
  pose proof (wp_readi_loop (Z.to_nat off) (Z.to_nat m) (S (Z.to_nat m)) 0 e) as Hloop.
  rewrite Nat.add_0_r, !Z2Nat.id in Hloop by lia. apply Hloop; [done|lia|lia|lia|].
  intros e' Hs'. apply wp_ret. apply HQ; [lia|lia|done].
Qed.
End reading.

(** ** Writing *)

(** The blocks of the file that bytes [off] to [off + n] lie in; how many blocks
    a write to them logs, and how many it allocates. *)
Definition touched (off n : nat) : list nat :=
  if decide (n = 0)%nat then [] else seq (off / BSIZE) (S ((off + n - 1) / BSIZE) - off / BSIZE).
Definition cost (c : Z -> list Z) (ip : inode) (ks : list nat) : nat :=
  sum_list_with (fun k => if decide (slot c ip k = 0) then 2%nat else 1%nat) ks.
Definition holes (c : Z -> list Z) (ip : inode) (ks : list nat) : nat :=
  sum_list_with (fun k => if decide (slot c ip k = 0) then 1%nat else 0%nat) ks.

Lemma touched_step off n m : (0 < n)%nat -> m = Nat.min n (BSIZE - off mod BSIZE) ->
  touched off n = (off / BSIZE)%nat :: touched (off + m) (n - m).
Proof.
  intros Hn Hm. unfold touched. rewrite decide_False by lia. rewrite BSIZE_eq in *.
  pose proof (Nat.div_mod_eq off 512). pose proof (Nat.mod_upper_bound off 512).
  pose proof (Nat.div_mod_eq (off + n - 1) 512). pose proof (Nat.mod_upper_bound (off + n - 1) 512).
  assert (off / 512 <= (off + n - 1) / 512)%nat by (apply Nat.Div0.div_le_mono; lia).
  replace (S ((off + n - 1) / 512) - off / 512)%nat with (S ((off + n - 1) / 512 - off / 512)) by lia.
  cbn [seq]. f_equal. case_decide as Hd.
  - replace ((off + n - 1) / 512 - off / 512)%nat with 0%nat by lia. done.
  - assert (E : ((off + m) / 512 = S (off / 512))%nat) by (symmetry; apply (Nat.div_unique _ _ _ 0); lia).
    rewrite E. replace (off + m + (n - m) - 1)%nat with (off + n - 1)%nat by lia. done.
Qed.
Lemma touched_lt off n k : (off + n <= MAXFILE * BSIZE)%nat -> k ∈ touched off n -> (k < MAXFILE)%nat.
Proof.
  unfold touched. intros Hn. case_decide; [by intros ?%elem_of_nil|]. intros Hk%elem_of_seq.
  assert ((off + n - 1) / BSIZE < MAXFILE)%nat by (apply Nat.Div0.div_lt_upper_bound; lia). lia.
Qed.
Lemma touched_NoDup off n : NoDup (touched off n).
Proof. unfold touched. case_decide; [constructor|apply NoDup_seq]. Qed.

Lemma cost_ext c ip c' ip' ks : (forall k, k ∈ ks -> slot c' ip' k = slot c ip k) -> cost c' ip' ks = cost c ip ks.
Proof.
  unfold cost. induction ks as [|k ks IH]; intros Hk; [done|]. simpl. rewrite Hk, IH by set_solver. done.
Qed.
Lemma holes_ext c ip c' ip' ks : (forall k, k ∈ ks -> slot c' ip' k = slot c ip k) -> holes c' ip' ks = holes c ip ks.
Proof.
  unfold holes. induction ks as [|k ks IH]; intros Hk; [done|]. simpl. rewrite Hk, IH by set_solver. done.
Qed.

Section writing.
Context {T : Type} `{TxStoreOk T} {lim : nat} `{!TxLimit lim}.
Context (sbk : superblock).
Notation F := (fs T).
Notation srep := (srep lim).
Implicit Types (c : Z -> list Z) (ip : inode).

(** The state after the first [tot] bytes of [src] are written at [off]. *)
Record wrote c0 ip0 (off : nat) (src : list Z) (tot : nat) c ip : Prop := {
  wr_grow : grow sbk c0 ip0 c ip;
  wr_size : i_size ip = i_size ip0;
  wr_new k : (off <= k < off + tot)%nat -> src !! (k - off)%nat = Some (fbyte c ip k) /\ slot c ip (k / BSIZE) <> 0;
  wr_old k : Z.of_nat k < i_size ip0 -> ~ (off <= k < off + tot)%nat -> fbyte c ip k = fbyte c0 ip0 k;
  wr_same : Z.of_nat (off + length src) <= i_size ip0 -> ip = ip0;
}.

Lemma slot_ne c ip k k' : file_ok sbk c ip -> (k < MAXFILE)%nat -> slot c ip k <> 0 ->
  (k' <= MAXFILE)%nat -> k' <> k -> slot c ip k' <> slot c ip k.
Proof. intros Ho Hk Hne Hk' Hd He. apply Hd. symmetry. by eapply (fo_inj _ _ _ Ho); [lia|lia|done|]. Qed.

(** Other content for one block of the file. *)
Lemma grow_write c ip k d : disk_ok sbk c -> file_ok sbk c ip -> (k < MAXFILE)%nat -> slot c ip k <> 0 ->
  let c' := fupd c (slot c ip k) d in grow sbk c ip c' ip /\ (forall k', slot c' ip k' = slot c ip k') /\
  forall x, FsBlock.free sbk c' x <-> FsBlock.free sbk c x.
Proof.
  intros Hd Ho Hk Hne c'. pose proof (fo_data _ _ _ Ho k ltac:(lia) Hne) as Hdk.
  destruct (data_disk _ c _ Hd Hdk) as (_ & _ & _ & Hm & _).
  assert (Hsl : forall k', slot c' ip k' = slot c ip k').
  { intros k'. apply slot_ext; [done|]. intros Hi. unfold c'. apply fupd_ne. rewrite <- (slot_ind c ip).
    apply slot_ne; [done|done|done|lia|lia]. }
  assert (Hfr : forall x, FsBlock.free sbk c' x <-> FsBlock.free sbk c x).
  { intros x. apply free_ext. intros y Hy. apply fupd_ne. by intros ->. }
  split; [|by split]. split.
  - exists (i_addrs ip), (i_size ip). by destruct ip.
  - destruct Ho as [O1 O2 O3 O4 O5 O6 O7]. split; try done.
    + intros k' Hk'. rewrite Hsl. intros Hn. destruct (O5 k' Hk' Hn) as (D1 & D2 & D3). split; [done|]. split; [|done].
      by rewrite Hfr.
    + intros k1 k2. rewrite !Hsl. apply O6.
    + intros k'. rewrite Hsl. apply O7.
  - eapply disk_ext; [|done]. intros x. by rewrite Hfr.
  - intros k' _ _. apply Hsl.
  - intros k' _ E. by rewrite Hsl.
  - intros x. by rewrite Hfr.
  - intros x _ _ Hx. unfold c'. apply fupd_ne. intros ->. by apply (Hx k); [lia| |].
Qed.

(** Bytes of blocks that the file has are not changed by [bmap]. *)
Lemma fbyte_mapped c p ip k c' p' ip' j : mapped sbk c p ip k c' p' ip' -> (j / BSIZE < MAXFILE)%nat ->
  slot c ip (j / BSIZE) <> 0 -> fbyte c' ip' j = fbyte c ip j.
Proof.
  intros Hm Hj Hne. unfold fbyte. rewrite (gr_slot _ _ _ _ _ (mp_grow _ _ _ _ _ _ _ _ Hm)) by (lia || done).
  by rewrite (mp_data _ _ _ _ _ _ _ _ Hm).
Qed.

(** Bytes after a part of a block is written. *)
Lemma fbyte_write c ip off bs j : file_ok sbk c ip -> let k := (off / BSIZE)%nat in
  (k < MAXFILE)%nat -> slot c ip k <> 0 -> length (c (slot c ip k)) = BSIZE -> (off mod BSIZE + length bs <= BSIZE)%nat ->
  (j / BSIZE < MAXFILE)%nat -> disk_ok sbk c ->
  let c' := fupd c (slot c ip k) (splice (off mod BSIZE) bs (c (slot c ip k))) in
  if decide (off <= j < off + length bs)%nat then bs !! (j - off)%nat = Some (fbyte c' ip j)
  else fbyte c' ip j = fbyte c ip j.
Proof.
  intros Ho k Hk Hne Hl Hb Hj Hd c'. destruct (grow_write c ip k (splice (off mod BSIZE) bs (c (slot c ip k))) Hd Ho Hk Hne) as (_ & Hsl & _).
  fold c' in Hsl. unfold fbyte. rewrite Hsl. case_decide as Hr.
  - destruct (block_pos off (j - off)) as [E1 E2]; [lia|]. replace (off + (j - off))%nat with j in E1, E2 by lia.
    rewrite E1, E2. fold k. unfold c'. rewrite fupd_eq. unfold byte_at. rewrite lookup_splice by lia.
    rewrite decide_True by lia. replace (off mod BSIZE + (j - off) - off mod BSIZE)%nat with (j - off)%nat by lia.
    destruct (lookup_lt_is_Some_2 bs (j - off)) as [x ->]; [lia|done].
  - destruct (decide (j / BSIZE = k)%nat) as [E|E].
    + rewrite E. unfold c'. rewrite fupd_eq. unfold byte_at. rewrite lookup_splice by lia. rewrite decide_False; [done|].
      intros Hin. apply Hr. pose proof (Nat.div_mod_eq j BSIZE). pose proof (Nat.div_mod_eq off BSIZE). unfold k in E. rewrite E in *. lia.
    + unfold c'. rewrite fupd_ne; [done|]. apply slot_ne; [done|done|done|lia|done].
Qed.
(** The blocks logged for one block of content. *)
Lemma write_pays c p ip k c1 p1 ip1 : mapped sbk c p ip k c1 p1 ip1 -> let b := slot c1 ip1 k in
  (size ({[b]} ∪ p1) + pend ip1 ({[b]} ∪ p1) <= size p + pend ip p + if decide (slot c ip k = 0%Z) then 2 else 1)%nat.
Proof.
  intros Hm b. case_decide as E.
  - destruct (mp_new _ _ _ _ _ _ _ _ Hm E) as [Hin Hle]. fold b in Hin. assert ({[b]} ∪ p1 = p1) as -> by set_solver. lia.
  - destruct (mp_old _ _ _ _ _ _ _ _ Hm E) as (-> & -> & ->). pose proof (size_add_le b p).
    pose proof (pend_mono ip ip p ({[b]} ∪ p) eq_refl ltac:(set_solver)). lia.
Qed.

Section loop.
Context (P : prot F) (s : F) (Hsb : sb s = sbk) (i : nat).
Context (c0 : Z -> list Z) (ip0 : inode) (off : nat) (src : list Z).
Context (Hi : is_Some (inodes s !! i)) (Hmax : (off + length src <= MAXFILE * BSIZE)%nat).
Notation n := (length src).

Lemma block_lt j : (j < off + n)%nat \/ Z.of_nat j < i_size ip0 -> i_size ip0 <= Z.of_nat (MAXFILE * BSIZE) -> (j / BSIZE < MAXFILE)%nat.
Proof. intros Hj Hs. apply Nat.Div0.div_lt_upper_bound. rewrite Nat.mul_comm. lia. Qed.

Lemma wrote_step tot c p ip c1 p1 ip1 (Hl : forall y, in_disk y -> length (c1 y) = BSIZE) :
  let k := ((off + tot) / BSIZE)%nat in let m := part n tot (off + tot) in
  wrote c0 ip0 off src tot c ip -> (tot < n)%nat -> mapped sbk c p ip k c1 p1 ip1 ->
  let b := slot c1 ip1 k in
  wrote c0 ip0 off src (tot + m) (fupd c1 b (splice ((off + tot) mod BSIZE) (take m (drop tot src)) (c1 b))) ip1.
Proof.
  intros k m [W1 W2 W3 W4 W5] Ht Hm b. destruct (part_bounds n tot (off + tot) Ht) as [Hm1 Hm2]. fold m in Hm1, Hm2.
  destruct (mp_grow _ _ _ _ _ _ _ _ Hm) as [_ Ho1 Hd1 _ _ _ _]. assert (Ho := gr_ok _ _ _ _ _ W1).
  pose proof (fo_size _ _ _ Ho) as Hsz. rewrite W2 in Hsz.
  assert (Hk : (k < MAXFILE)%nat) by (apply block_lt; [left; lia|done]).
  set (bs := take m (drop tot src)). assert (Hbs : length bs = m) by (unfold bs; rewrite length_take, length_drop; lia).
  assert (Hb : b <> 0) by exact (mp_slot _ _ _ _ _ _ _ _ Hm).
  assert (Hlk : length (c1 b) = BSIZE).
  { apply Hl. eapply data_disk; [done|]. by apply (fo_data _ _ _ Ho1); [lia|]. }
  set (c2 := fupd _ _ _). destruct (grow_write c1 ip1 k (splice ((off + tot) mod BSIZE) bs (c1 b)) Hd1 Ho1 Hk Hb) as (Hg2 & Hsl & _).
  fold b c2 in Hg2, Hsl.
  assert (Hfb : forall j, (j / BSIZE < MAXFILE)%nat ->
    if decide (off + tot <= j < off + tot + m)%nat then bs !! (j - (off + tot))%nat = Some (fbyte c2 ip1 j)
    else fbyte c2 ip1 j = fbyte c1 ip1 j).
  { intros j Hj. rewrite <- Hbs. apply (fbyte_write c1 ip1 (off + tot) bs j); try done. by rewrite Hbs. }
  assert (Hfull : forall j, Z.of_nat j < i_size ip0 -> slot c ip (j / BSIZE) <> 0).
  { intros j Hj. apply (fo_full _ _ _ Ho). rewrite W2. pose proof (Nat.div_mod_eq j BSIZE). lia. }
  split.
  - eapply grow_trans; [done|]. eapply grow_trans; [apply Hm|done].
  - rewrite (mp_size _ _ _ _ _ _ _ _ Hm). done.
  - intros j Hj. assert (Hjm : (j / BSIZE < MAXFILE)%nat) by (apply block_lt; [left; lia|done]).
    specialize (Hfb j Hjm). case_decide as Hr.
    + split.
      * rewrite <- Hfb. unfold bs. rewrite lookup_take_lt, lookup_drop by lia. f_equal. lia.
      * rewrite Hsl. destruct (block_pos (off + tot) (j - (off + tot))) as [E _]; [lia|].
        replace (off + tot + (j - (off + tot)))%nat with j in E by lia. by rewrite E.
    + destruct (W3 j) as [H1 H2]; [lia|]. rewrite Hfb, (fbyte_mapped _ _ _ _ _ _ _ _ Hm Hjm H2). split; [done|].
      rewrite Hsl. by rewrite (gr_slot _ _ _ _ _ (mp_grow _ _ _ _ _ _ _ _ Hm)) by (lia || done).
  - intros j Hj Hr. assert (Hjm : (j / BSIZE < MAXFILE)%nat) by (apply block_lt; [by right|done]).
    specialize (Hfb j Hjm). rewrite decide_False in Hfb by lia.
    rewrite Hfb, (fbyte_mapped _ _ _ _ _ _ _ _ Hm Hjm (Hfull j Hj)). apply W4; [done|lia].
  - intros Hs. rewrite <- (W5 Hs). eapply mp_old; [exact Hm|]. apply Hfull. lia.
Qed.

Lemma wp_writei_loop fuel : forall tot e c p ip (Q : Z -> F -> Prop),
  srep e c p ∅ -> wrote c0 ip0 off src tot c ip -> (tot <= n)%nat -> (n - tot < fuel)%nat ->
  let ks := touched (off + tot) (n - tot) in
  (size p + pend ip p + cost c ip ks + 1 <= lim)%nat ->
  (forall e' c' p' ip', srep e' c' p' ∅ -> wrote c0 ip0 off src n c' ip' ->
     (size p' + pend ip' p' <= size p + pend ip p + cost c ip ks)%nat ->
     (forall q, enough sbk c (q + holes c ip ks + need ip) -> enough sbk c' (q + need ip')) ->
     Q (Z.of_nat (off + n)) (wfs (wip s i ip') e')) ->
  (~ enough sbk c (holes c ip ks + need ip) -> tolerated P "balloc: out of blocks") ->
  wp P (mwhile fuel (writei_step i (Z.of_nat n)) (Z.of_nat tot, Z.of_nat (off + tot), drop tot src)) (wfs (wip s i ip) e) Q.
Proof.
  induction fuel as [|fuel IH]; intros tot e c p ip Q Hs Hw Ht Hf ks Hc HQ HT; [lia|]. cbn [mwhile]. apply wp_bind.
  unfold writei_step. destruct (Z.of_nat tot <? Z.of_nat n) eqn:E.
  2: { apply wp_ret, wp_ret. assert (tot = n) as -> by lia. eapply HQ; [done|done|lia|]. intros q. apply enough_le. lia. }
  assert (Hi' : inodes (wip s i ip) !! i = Some ip) by (destruct Hi; by eapply wip_lookup).
  assert (Ho := gr_ok _ _ _ _ _ (wr_grow _ _ _ _ _ _ _ Hw)). assert (Hd := gr_disk _ _ _ _ _ (wr_grow _ _ _ _ _ _ _ Hw)).
  pose proof (fo_size _ _ _ Ho) as Hsz. rewrite (wr_size _ _ _ _ _ _ _ Hw) in Hsz.
  set (m := part n tot (off + tot)). destruct (part_bounds n tot (off + tot)) as [Hm1 Hm2]; [lia|]. fold m in Hm1, Hm2.
  set (k := ((off + tot) / BSIZE)%nat). assert (Hk : (k < MAXFILE)%nat) by (apply block_lt; [left; lia|done]).
  assert (Hks : ks = k :: touched (off + (tot + m)) (n - (tot + m))).
  { unfold ks. rewrite (touched_step _ _ m) by (lia || done). rewrite Nat.add_assoc. do 2 f_equal. lia. }
  set (ks' := touched (off + (tot + m)) (n - (tot + m))) in *. rewrite Hks in *.
  assert (Hnd : k ∉ ks').
  { pose proof (touched_NoDup (off + tot) (n - tot)) as Hnd. fold ks in Hnd. rewrite Hks in Hnd. by apply NoDup_cons in Hnd as [? _]. }
  assert (Hlt : forall k', k' ∈ ks' -> (k' < MAXFILE)%nat) by (intros k' Hk'; eapply touched_lt; [|exact Hk']; lia).
  unfold cost, holes in Hc, HQ, HT. cbn [sum_list_with] in Hc, HQ, HT. fold (cost c ip ks') (holes c ip ks') in Hc, HQ, HT.
  apply wp_bind. eapply wp_get_ip; [exact Hi'|]. apply wp_bind. rewrite Zdiv_BSIZE. fold k.
  eapply wp_bmap; [exact Hsb|done|done|done|exact Hi'|done| | |].
  { intros E0. rewrite decide_True in Hc by done. lia. }
  2: { intros E0 Hno. apply HT. rewrite decide_True by done. intros Hen. apply Hno. eapply enough_le; [|exact Hen]. lia. }
  intros e1 c1 p1 ip1 Hs1 Hm. rewrite wip_wip, (fo_dev _ _ _ Ho), part_eq by lia. fold m.
  set (b := slot c1 ip1 k).
  assert (Hb : in_disk b).
  { eapply data_disk; [apply (mp_grow _ _ _ _ _ _ _ _ Hm)|]. apply (fo_data _ _ _ (gr_ok _ _ _ _ _ (mp_grow _ _ _ _ _ _ _ _ Hm))); [lia|exact (mp_slot _ _ _ _ _ _ _ _ Hm)]. }
  rewrite Zmod_BSIZE, !Nat2Z.id. set (d := splice _ _).
  pose proof (wrote_step tot c p ip c1 p1 ip1 (srep_lens _ _ _ _ Hs1) Hw ltac:(lia) Hm) as Hw2. fold b d m k in Hw2.
  assert (Hpay : (size ({[b]} ∪ p1) + pend ip1 ({[b]} ∪ p1) <= size p + pend ip p + if decide (slot c ip k = 0%Z) then 2 else 1)%nat)
    by (by eapply write_pays).
  destruct (grow_write c1 ip1 k (d (c1 b))) as (_ & Hsl & Hfr); [apply (mp_grow _ _ _ _ _ _ _ _ Hm)|apply (mp_grow _ _ _ _ _ _ _ _ Hm)|done|exact (mp_slot _ _ _ _ _ _ _ _ Hm)|].
  fold b in Hsl, Hfr.
  assert (Hslk : forall k', k' ∈ ks' -> slot (fupd c1 b (d (c1 b))) ip1 k' = slot c ip k').
  { intros k' Hk'. rewrite Hsl. apply (mp_other _ _ _ _ _ _ _ _ Hm); [by intros ->|by apply Hlt]. }
  assert (Hlen : length (d (c1 b)) = BSIZE).
  { unfold d. rewrite length_splice; [by eapply srep_len|]. rewrite (srep_len _ _ _ _ b Hs1 Hb), length_take. lia. }
  eapply wp_change; [done|done|apply lookup_empty|rewrite map_size_empty; lia|done|lia|].
  intros e2 Hs2. apply wp_ret. rewrite drop_drop, <- !Nat2Z.inj_add, u32_small, <- Nat.add_assoc.
  2: { rewrite MAXFILE_eq, BSIZE_eq in Hmax. unfold is_u32. lia. }
  assert (Hen1 : forall q, enough sbk c (q + ((if decide (slot c ip k = 0%Z) then 1 else 0) + holes c ip ks') + need ip) ->
    enough sbk (fupd c1 b (d (c1 b))) (q + holes c ip ks' + need ip1)).
  { intros q Hq. destruct (mp_enough _ _ _ _ _ _ _ _ Hm (q + holes c ip ks')) as (L & HL & HLf); [eapply enough_le; [|exact Hq]; lia|].
    exists L. split; [done|]. intros x Hx. apply Hfr. by apply HLf. }
  eapply (IH (tot + m)%nat); [exact Hs2|exact Hw2|lia|lia| | |].
  - fold ks'. rewrite (cost_ext c ip) by done. lia.
  - fold ks'. rewrite (cost_ext c ip), (holes_ext c ip) by done. intros e3 c3 p3 ip3 Hs3 Hw3 Hp3 Hen3.
    eapply HQ; [done|done|lia|]. intros q Hq. by apply Hen3, Hen1.
  - fold ks'. rewrite (holes_ext c ip) by done. intros Hno. apply HT. intros Hen. apply Hno.
    apply (Hen1 0%nat). eapply enough_le; [|exact Hen]. lia.
Qed.
End loop.

(** The state after [writei] has put [src] at [off]: the file has the new
    content; its dinode is up to date; other inodes, the blocks of other files
    and the reserved blocks are as before. *)
Record written c0 ip0 (off : nat) (src : list Z) c ip : Prop := {
  wn_ok : file_ok sbk c ip;
  wn_disk : disk_ok sbk c;
  wn_meta : exists a z, ip = ip0 <| i_addrs := a |> <| i_size := z |>;
  wn_contents : contents c ip = take off (contents c0 ip0) ++ src ++ drop (off + length src) (contents c0 ip0);
  wn_sync : from_disk sbk c0 ip0 = ip0 -> from_disk sbk c ip = ip;
  wn_others jp : 0 <= i_inum jp < sb_ninodes sbk -> i_inum jp <> i_inum ip0 -> from_disk sbk c jp = from_disk sbk c0 jp;
  wn_free x : FsBlock.free sbk c x -> FsBlock.free sbk c0 x;
  wn_slot k : (k <= MAXFILE)%nat -> slot c0 ip0 k <> 0 -> slot c ip k = slot c0 ip0 k;
  wn_new k : (k <= MAXFILE)%nat -> slot c0 ip0 k = 0 -> slot c ip k <> 0 -> FsBlock.free sbk c0 (slot c ip k);
  wn_frame x : in_disk x -> ~ FsBlock.free sbk c0 x -> ~ is_bmap sbk x -> x <> IBLOCK (i_inum ip0) sbk ->
    (forall k, (k <= MAXFILE)%nat -> slot c0 ip0 k <> 0 -> slot c0 ip0 k <> x) -> c x = c0 x;
}.

Section done.
Context (c0 : Z -> list Z) (ip0 : inode) (off : nat) (src : list Z).
Context (Hd0 : disk_ok sbk c0) (Ho0 : file_ok sbk c0 ip0).
Context (Hmax : (off + length src <= MAXFILE * BSIZE)%nat) (Hoff : Z.of_nat off <= i_size ip0).
Notation n := (length src).

Lemma iblock_kept c ip num : grow sbk c0 ip0 c ip -> 0 <= num < sb_ninodes sbk -> c (IBLOCK num sbk) = c0 (IBLOCK num sbk).
Proof.
  intros Hg Hn. assert (Hib : is_iblock sbk (IBLOCK num sbk)) by (by exists num).
  apply (gr_frame _ _ _ _ _ Hg); [apply (dk_used _ _ Hd0); by do 3 right|by apply (dk_sep _ _ Hd0)|].
  intros k Hk Hne He. apply (fo_data _ _ _ Ho0 k Hk) in Hne as (_ & _ & Hr). rewrite He in Hr. apply Hr. by do 3 right.
Qed.

Lemma contents_written c ip : i_size ip = Z.max (i_size ip0) (Z.of_nat (off + n)) ->
  (forall k, (off <= k < off + n)%nat -> src !! (k - off)%nat = Some (fbyte c ip k)) ->
  (forall k, Z.of_nat k < i_size ip0 -> ~ (off <= k < off + n)%nat -> fbyte c ip k = fbyte c0 ip0 k) ->
  contents c ip = take off (contents c0 ip0) ++ src ++ drop (off + n) (contents c0 ip0).
Proof.
  intros Hsz Hnew Hold. apply list_eq. intros k. unfold contents.
  assert (Hlen : length (take off (fbytes c0 ip0 0 (Z.to_nat (i_size ip0)))) = off) by (rewrite length_take, length_fbytes; lia).
  destruct (decide (Z.of_nat k < i_size ip)) as [Hk|Hk].
  - rewrite lookup_fbytes by lia. simpl. destruct (decide (k < off)%nat) as [H1|H1].
    + rewrite lookup_app_l, lookup_take_lt, lookup_fbytes by lia. by rewrite Hold by lia.
    + rewrite lookup_app_r, Hlen by lia. destruct (decide (k < off + n)%nat) as [H2|H2].
      * rewrite lookup_app_l by lia. by rewrite Hnew by lia.
      * rewrite lookup_app_r, lookup_drop, lookup_fbytes by lia. simpl. rewrite Hold by lia. do 2 f_equal. lia.
  - symmetry. rewrite !lookup_ge_None_2; [done|rewrite length_fbytes; lia|].
    rewrite !length_app, Hlen, length_drop, length_fbytes. lia.
Qed.

Lemma written_same c ip : wrote c0 ip0 off src n c ip -> Z.of_nat (off + n) <= i_size ip0 -> written c0 ip0 off src c ip.
Proof.
  intros [W1 W2 W3 W4 W5] Hn. specialize (W5 Hn). split; try apply W1.
  - apply contents_written; [lia|intros k Hk; by apply W3|done].
  - intros Hsy. unfold from_disk. rewrite W5, (iblock_kept c ip) by (done || apply Ho0). exact Hsy.
  - intros jp Hj _. unfold from_disk. by rewrite (iblock_kept c ip).
  - intros x _ X1 X2 _. by apply W1.
Qed.

Section grown.
Context (c : Z -> list Z) (ip : inode) (Hw : wrote c0 ip0 off src n c ip) (Hn : i_size ip0 < Z.of_nat (off + n)).
Context (Hl : forall y, in_disk y -> length (c y) = BSIZE).
Let ip' := ip <| i_size := Z.of_nat (off + n) |>.
Let c' := to_disk sbk ip' c.
Let b := IBLOCK (i_inum ip') sbk.

Lemma grown_iblock : is_iblock sbk b.
Proof. exists (i_inum ip'). split; [|done]. apply (fo_inum _ _ _ (gr_ok _ _ _ _ _ (wr_grow _ _ _ _ _ _ _ Hw))). Qed.
Lemma grown_kept x : x <> b -> c' x = c x.
Proof. apply fupd_ne. Qed.
Lemma grown_data x : data sbk c x -> x <> b.
Proof. intros (_ & _ & Hr) ->. apply Hr. do 3 right. apply grown_iblock. Qed.
Lemma grown_free x : FsBlock.free sbk c' x <-> FsBlock.free sbk c x.
Proof.
  apply free_ext. intros y Hy. apply grown_kept. intros ->.
  by apply (dk_sep _ _ (gr_disk _ _ _ _ _ (wr_grow _ _ _ _ _ _ _ Hw)) b); [apply grown_iblock|].
Qed.
Lemma grown_slot k : slot c' ip' k = slot c ip k.
Proof.
  apply slot_ext; [done|]. intros Hi. apply grown_kept, grown_data. rewrite <- (slot_ind c ip) in *.
  by apply (fo_data _ _ _ (gr_ok _ _ _ _ _ (wr_grow _ _ _ _ _ _ _ Hw))).
Qed.
Lemma grown_file_ok : file_ok sbk c' ip'.
Proof.
  destruct Hw as [[_ [O1 O2 O3 O4 O5 O6 O7] _ _ _ _ _] W2 W3 _ _]. split; try done.
  - destruct O1. split; try done. unfold is_u32. simpl. rewrite MAXFILE_eq, BSIZE_eq in Hmax. lia.
  - change (Z.of_nat (off + n) <= Z.of_nat (MAXFILE * BSIZE)). lia.
  - intros k Hk. rewrite grown_slot. intros Hne. destruct (O5 k Hk Hne) as (D1 & D2 & D3). split; [done|]. split; [|done].
    by rewrite grown_free.
  - intros k k'. rewrite !grown_slot. apply O6.
  - intros k Hk. rewrite grown_slot. simpl in Hk. destruct (decide (Z.of_nat (k * BSIZE) < i_size ip0)) as [Hlt|Hge].
    + apply O7. lia.
    + destruct (W3 (k * BSIZE)%nat) as [_ Hs]; [lia|]. by rewrite Nat.div_mul in Hs.
Qed.
Lemma grown_byte k : Z.of_nat k < i_size ip' -> fbyte c' ip' k = fbyte c ip k.
Proof.
  intros Hk. unfold fbyte. rewrite grown_slot. rewrite grown_kept; [done|]. pose proof grown_file_ok as Ho.
  apply grown_data. apply (fo_data _ _ _ (gr_ok _ _ _ _ _ (wr_grow _ _ _ _ _ _ _ Hw))).
  - pose proof (fo_size _ _ _ Ho). assert (k / BSIZE < MAXFILE)%nat; [|lia]. apply Nat.Div0.div_lt_upper_bound. lia.
  - rewrite <- grown_slot. apply (fo_full _ _ _ Ho). pose proof (Nat.div_mod_eq k BSIZE). lia.
Qed.

Lemma written_grown : written c0 ip0 off src c' ip'.
Proof.
  pose proof Hw as [W1 W2 W3 W4 _]. assert (Hmeta := gr_meta _ _ _ _ _ W1).
  assert (Hnum : i_inum ip' = i_inum ip0) by (destruct Hmeta as (a & z & Hm); unfold ip'; by rewrite Hm).
  assert (Hb : in_disk b) by (apply (dk_inodes _ _ Hd0); rewrite Hnum; apply Ho0).
  split.
  - apply grown_file_ok.
  - eapply disk_ext; [|apply W1]. intros x. by rewrite grown_free.
  - destruct Hmeta as (a & z & Hm). exists a, (Z.of_nat (off + n)). unfold ip'. by rewrite Hm.
  - apply contents_written; [simpl; lia| |].
    + intros k Hk. rewrite grown_byte by (simpl; lia). by apply W3.
    + intros k Hk Hr. rewrite grown_byte by (simpl; lia). by apply W4.
  - intros _. unfold c'. rewrite to_disk_same; [by destruct ip|apply (fo_typed _ _ _ grown_file_ok)|done|by apply Hl].
  - intros jp Hj Hne. unfold c'. rewrite to_disk_other; [|apply (fo_typed _ _ _ grown_file_ok)|congruence|by apply Hl].
    unfold from_disk. by rewrite (iblock_kept c ip).
  - intros x Hx. apply (gr_free _ _ _ _ _ W1). by rewrite <- grown_free.
  - intros k. rewrite grown_slot. apply W1.
  - intros k. rewrite grown_slot. apply W1.
  - intros x _ X1 X2 X3 X4. rewrite grown_kept; [by apply W1|]. unfold b. by rewrite Hnum.
Qed.
End grown.
End done.

(** *** [writei] *)

(** The arguments that [writei] accepts. *)
Definition fits ip (off : Z) (n : nat) : Prop := off <= i_size ip /\ off + Z.of_nat n <= Z.of_nat (MAXFILE * BSIZE).

Lemma wp_writei (P : prot F) dev_write s e c p i ip src off (Q : Z -> F -> Prop) :
  let n := length src in let ks := touched (Z.to_nat off) n in
  sb s = sbk -> srep e c p ∅ -> disk_ok sbk c -> file_ok sbk c ip -> inodes s !! i = Some ip ->
  i_type ip <> T_DEV -> is_u32 off -> is_u32 (Z.of_nat n) ->
  (~ fits ip off n -> Q (-1) (wfs s e)) ->
  (fits ip off n -> (size p + pend ip p + cost c ip ks + 1 <= lim)%nat) ->
  (fits ip off n -> forall e' c' p' ip', srep e' c' p' ∅ -> written c ip (Z.to_nat off) src c' ip' ->
     (size p' <= size p + pend ip p + cost c ip ks + 1)%nat ->
     (forall q, enough sbk c (q + holes c ip ks + need ip) -> enough sbk c' q) -> Q (Z.of_nat n) (wfs (wip s i ip') e')) ->
  (fits ip off n -> ~ enough sbk c (holes c ip ks + need ip) -> tolerated P "balloc: out of blocks") ->
  wp P (writei dev_write i src off (Z.of_nat n)) (wfs s e) Q.
Proof.
  intros n ks Hsb Hs Hd Ho Hi Hty Hoff Hn HF Hp HQ HT. unfold writei. apply wp_bind. eapply wp_get_ip; [exact Hi|].
  rewrite (proj2 (Z.eqb_neq _ _) Hty), u32_sum by done. unfold fits, is_u32 in *. set (MB := Z.of_nat (MAXFILE * BSIZE)) in *.
  assert (HMB : MB = 71680) by (unfold MB; by rewrite MAXFILE_eq, BSIZE_eq).
  destruct (off + Z.of_nat n <? 2 ^ 32) eqn:E.
  2: { rewrite (proj2 (Z.ltb_lt (off + Z.of_nat n - 2 ^ 32) off)) by lia. rewrite orb_true_r. apply wp_ret, HF. lia. }
  rewrite (proj2 (Z.ltb_ge (off + Z.of_nat n) off)) by lia. rewrite orb_false_r.
  destruct (i_size ip <? off) eqn:E2; [apply wp_ret, HF; lia|].
  destruct (MB <? off + Z.of_nat n) eqn:E3; [apply wp_ret, HF; lia|].
  assert (Hfits : off <= i_size ip /\ off + Z.of_nat n <= MB) by lia. specialize (Hp Hfits). specialize (HQ Hfits). specialize (HT Hfits).
  clear HF. assert (Hmax : (Z.to_nat off + n <= MAXFILE * BSIZE)%nat) by lia.
  assert (Hw0 : wrote c ip (Z.to_nat off) src 0 c ip) by (split; [by apply grow_refl|reflexivity|lia|reflexivity|reflexivity]).
  apply wp_bind. rewrite <- (wip_id s i ip Hi) at 1.
  pose proof (wp_writei_loop P s Hsb i c ip (Z.to_nat off) src (ex_intro _ _ Hi) Hmax (S n) 0 e c p ip) as Hloop.
  rewrite Nat.add_0_r, Z2Nat.id, Nat.sub_0_r in Hloop by lia. rewrite Nat2Z.id. apply Hloop; [done|done|lia|lia|exact Hp| |exact HT].
  intros e1 c1 p1 ip1 Hs1 Hw Hp1 Hen1. fold n ks in Hp1, Hen1. clear Hloop.
  assert (Hen : forall q, enough sbk c (q + holes c ip ks + need ip) -> enough sbk c1 q)
    by (intros q Hq; eapply enough_le; [|by apply Hen1]; lia).
  assert (Hi1 : forall x, inodes (wip s i x) !! i = Some x) by (intros; by eapply wip_lookup).
  apply wp_bind. eapply wp_get_ip; [exact (Hi1 ip1)|]. rewrite (wr_size _ _ _ _ _ _ _ Hw), Nat2Z.inj_add, Z2Nat.id by lia.
  fold n. destruct (i_size ip <? off + Z.of_nat n) eqn:E4.
  - rewrite andb_true_r, (proj2 (Z.ltb_lt _ _)) by lia. unfold when. apply wp_bind, wp_bind. eapply wp_set_ip; [exact (Hi1 ip1)|].
    set (ip2 := ip1 <| i_size := _ |>). change (wip (wfs (wip s i ip1) e1) i ip2) with (wfs (wip (wip s i ip1) i ip2) e1). rewrite wip_wip.
    assert (Hwn : written c ip (Z.to_nat off) src (to_disk sbk ip2 c1) ip2).
    { unfold ip2. replace (off + Z.of_nat n) with (Z.of_nat (Z.to_nat off + n)) by lia.
      apply written_grown; [done|done|done|lia|done|fold n; lia|by eapply srep_lens]. }
    pose proof (wn_ok _ _ _ _ _ _ Hwn) as Ho2. pose proof (size_add_le (IBLOCK (i_inum ip2) sbk) p1).
    eapply wp_iupdate; [done|exact (Hi1 ip2)|apply Ho2|apply (fo_typed _ _ _ Ho2)| | | | |];
      change (sb (wip s i ip2)) with (sb s); rewrite ?Hsb.
    + apply (dk_inodes _ _ Hd). apply (fo_inum _ _ _ Ho2).
    + apply lookup_empty.
    + rewrite map_size_empty. lia.
    + lia.
    + intros e2 Hs2. apply wp_ret. eapply HQ; [exact Hs2|exact Hwn|lia|]. intros q Hq. destruct (Hen q Hq) as (L & HL & HLf).
      exists L. split; [done|]. intros x Hx. apply HLf in Hx. unfold ip2. replace (off + Z.of_nat n) with (Z.of_nat (Z.to_nat off + n)) by lia.
      by eapply grown_free in Hx; [exact Hx|exact Hw].
  - rewrite andb_false_r. unfold when. apply wp_bind, wp_ret, wp_ret. eapply HQ; [exact Hs1| |lia|exact Hen].
    apply written_same; first [done|fold n; lia].
Qed.
End writing.

(** ** The number of blocks that a write logs *)

Lemma cost_le c ip ks : (cost c ip ks <= 2 * length ks)%nat.
Proof. unfold cost. induction ks as [|k ks IH]; simpl; [lia|]. case_decide; lia. Qed.
Lemma holes_le c ip ks : (holes c ip ks <= length ks)%nat.
Proof. unfold holes. induction ks as [|k ks IH]; simpl; [lia|]. case_decide; lia. Qed.

(** [filewrite] writes at most this many bytes in one transaction. *)
Lemma chunk_cost `{TxStoreOk T} sbk c ip p off n : file_ok sbk c ip -> Z.of_nat off <= i_size ip -> (n <= 3 * BSIZE)%nat ->
  (pend ip p + cost c ip (touched off n) + 1 <= 10)%nat.
Proof.
  intros Ho Hoff Hn. assert (Hp : (pend ip p <= 2)%nat) by (unfold pend; repeat case_match; lia).
  assert (cost c ip (touched off n) <= 7)%nat; [|lia]. unfold touched. case_decide; [simpl; lia|].
  pose proof (Nat.div_mod_eq off BSIZE). pose proof (Nat.mod_upper_bound off BSIZE).
  pose proof (Nat.div_mod_eq (off + n - 1) BSIZE). pose proof (Nat.mod_upper_bound (off + n - 1) BSIZE).
  assert (HB := BSIZE_eq). assert (off / BSIZE <= (off + n - 1) / BSIZE)%nat by (apply Nat.Div0.div_le_mono; lia).
  destruct (S ((off + n - 1) / BSIZE) - off / BSIZE)%nat as [|l] eqn:El; [simpl; lia|]. cbn [seq].
  pose proof (cost_le c ip (seq (S (off / BSIZE)) l)) as Hc. rewrite length_seq in Hc.
  unfold cost in *. cbn [sum_list_with]. case_decide as Hs.
  - assert (Hal : (off mod BSIZE = 0)%nat).
    { destruct (decide (off mod BSIZE = 0)%nat) as [|Hne]; [done|]. exfalso. apply (fo_full _ _ _ Ho (off / BSIZE)); [|done]. lia. }
    assert (l <= 2)%nat by lia. lia.
  - assert (l <= 3)%nat by lia. lia.
Qed.

Lemma chunk_holes c ip off n : (n <= 3 * BSIZE)%nat -> (holes c ip (touched off n) + need ip <= 5)%nat.
Proof.
  intros Hn. pose proof (holes_le c ip (touched off n)). assert (need ip <= 1)%nat by (unfold need; case_match; lia).
  assert (length (touched off n) <= 4)%nat; [|lia]. unfold touched. case_decide; [simpl; lia|]. rewrite length_seq.
  pose proof (Nat.div_mod_eq off BSIZE). pose proof (Nat.mod_upper_bound off BSIZE).
  pose proof (Nat.div_mod_eq (off + n - 1) BSIZE). assert (HB := BSIZE_eq). lia.
Qed.

(** ** What [readi] and [writei] do *)

Section rw_theorems.
Context {T : Type} `{TxStoreOk T} {lim : nat} `{!TxLimit lim}.
Context (dev_read : Z -> option (nat -> Z -> M (fs T) (Z * list Z))).
Context (dev_write : Z -> option (nat -> list Z -> Z -> M (fs T) Z)).
Implicit Types (s : fs T) (c : Z -> list Z).

(** An inode of the file system, in the cache at [i]. *)
Record has_file s c p i ip : Prop := {
  hf_rep : srep lim (tx s) c p ∅;
  hf_disk : disk_ok (sb s) c;
  hf_file : file_ok (sb s) c ip;
  hf_ip : inodes s !! i = Some ip;
  hf_type : i_type ip <> T_DEV;
}.

(** C21: [readi] of [n] bytes at [off] returns the bytes of the content from
    [off], up to its end, and changes nothing; it fails when [off] is beyond the
    end or [off + n] overflows. *)
Theorem readi_correct s c p i ip off n :
  has_file s c p i ip -> is_u32 off -> is_u32 n ->
  exists s', inodes s' = inodes s /\ srep lim (tx s') c p ∅ /\
    readi dev_read i off n s = Ret (if decide (off <= i_size ip /\ off + n < 2 ^ 32)
      then let m := Z.min n (i_size ip - off) in (m, slice (Z.to_nat off) (Z.to_nat m) (contents c ip))
      else (-1, [])) s'.
Proof.
  intros [Hs Hd Ho Hi Hty] Hoff Hn. rewrite <- (wfs_id s).
  destruct (wp_strict (readi dev_read i off n) (wfs s (tx s)) (fun r s' => inodes s' = inodes s /\ srep lim (tx s') c p ∅ /\
    r = (if decide (off <= i_size ip /\ off + n < 2 ^ 32)
      then let m := Z.min n (i_size ip - off) in (m, slice (Z.to_nat off) (Z.to_nat m) (contents c ip)) else (-1, []))))
    as (r & s' & E & H1 & H2 & ->); [|by exists s'].
  eapply wp_readi; try done.
  - intros Hbad. split_and!; [done|done|]. rewrite decide_False by lia. done.
  - intros H1 H2 e' Hs' m. split_and!; [done|done|]. rewrite decide_True by lia. cbv zeta. fold m.
    rewrite slice_contents; [done|]. unfold is_u32 in *. lia.
Qed.

(** C4: [writei] puts the bytes at [off], extending the file if they go beyond
    its end, and nothing else changes: not the rest of the content, no other
    inode, no block in use elsewhere.  It fails without effect for an offset
    beyond the end or an end beyond [MAXFILE] blocks, and panics only when the
    disk has fewer free blocks than the write needs. *)
Theorem writei_correct s c p i ip src off :
  let n := length src in let ks := touched (Z.to_nat off) n in
  has_file s c p i ip -> is_u32 off -> is_u32 (Z.of_nat n) ->
  (fits ip off n -> (size p + pend ip p + cost c ip ks + 1 <= lim)%nat) ->
  (~ fits ip off n -> writei dev_write i src off (Z.of_nat n) s = Ret (-1) s) /\
  (fits ip off n ->
    (exists s' c' p' ip', writei dev_write i src off (Z.of_nat n) s = Ret (Z.of_nat n) s' /\
       inodes s' = <[i := ip']> (inodes s) /\ has_file s' c' p' i ip' /\
       written (sb s) c ip (Z.to_nat off) src c' ip' /\ (size p' <= size p + pend ip p + cost c ip ks + 1)%nat) \/
    ((exists s', writei dev_write i src off (Z.of_nat n) s = Panic "balloc: out of blocks" s') /\
       ~ enough (sb s) c (holes c ip ks + need ip))).
Proof.
  intros n ks [Hs Hd Ho Hi Hty] Hoff Hn Hp.
  assert (Hgo : forall Q, (~ fits ip off n -> Q (-1) s) ->
    (fits ip off n -> forall e' c' p' ip', srep lim e' c' p' ∅ -> written (sb s) c ip (Z.to_nat off) src c' ip' ->
      (size p' <= size p + pend ip p + cost c ip ks + 1)%nat -> Q (Z.of_nat n) (wfs (wip s i ip') e')) ->
    wp (may_panic "balloc: out of blocks" (fits ip off n /\ ~ enough (sb s) c (holes c ip ks + need ip)))
      (writei dev_write i src off (Z.of_nat n)) s Q).
  { intros Q H1 H2. rewrite <- (wfs_id s) at 2. rewrite <- (wfs_id s) in H1. eapply wp_writei; try done. intros Hf e' c' p' ip' A1 A2 A3 _. by eapply H2. }
  split.
  - intros Hf. destruct (wp_may_panic _ _ _ _ _ (Hgo (fun r s' => r = -1 /\ s' = s) ltac:(done) ltac:(done)))
      as [(? & ? & E & -> & ->)|[_ [? _]]]; done.
  - intros Hf. set (Q := fun r s' => r = Z.of_nat n /\ exists e' c' p' ip', s' = wfs (wip s i ip') e' /\
      srep lim e' c' p' ∅ /\ written (sb s) c ip (Z.to_nat off) src c' ip' /\ (size p' <= size p + pend ip p + cost c ip ks + 1)%nat).
    assert (HQ : wp (may_panic "balloc: out of blocks" (fits ip off n /\ ~ enough (sb s) c (holes c ip ks + need ip)))
      (writei dev_write i src off (Z.of_nat n)) s Q).
    { apply Hgo; [done|]. intros _ e' c' p' ip' A1 A2 A3. split; [reflexivity|]. exists e', c', p', ip'. by split_and!. }
    apply wp_may_panic in HQ as [(r & s' & E & -> & e' & c' & p' & ip' & -> & Hs' & Hw & Hp')|[E [_ Hen]]]; [left|by right].
    exists (wfs (wip s i ip') e'), c', p', ip'. split_and!; try done. destruct (wn_meta _ _ _ _ _ _ _ Hw) as (a & z & Hm).
    split; [done|apply Hw|apply Hw|by eapply wip_lookup|by rewrite Hm].
Qed.

(** C20: what is written is read: after [writei] of [src] at [off] the same
    range reads as [src], whenever the disk has the blocks that are needed. *)
Theorem writei_readi s c p i ip src off :
  let n := length src in let ks := touched (Z.to_nat off) n in
  has_file s c p i ip -> is_u32 off -> fits ip off n -> (size p + pend ip p + cost c ip ks + 1 <= lim)%nat ->
  enough (sb s) c (holes c ip ks + need ip) ->
  exists s', (writei dev_write i src off (Z.of_nat n) ;;; readi dev_read i off (Z.of_nat n)) s = Ret (Z.of_nat n, src) s'.
Proof.
  intros n ks [Hs Hd Ho Hi Hty] Hoff Hf Hp Hen.
  assert (Hmax : Z.of_nat (MAXFILE * BSIZE) = 71680) by (by rewrite MAXFILE_eq, BSIZE_eq).
  assert (Hn : is_u32 (Z.of_nat n)) by (destruct Hf; unfold is_u32 in *; lia).
  destruct (wp_strict (writei dev_write i src off (Z.of_nat n) ;;; readi dev_read i off (Z.of_nat n)) (wfs s (tx s))
    (fun r _ => r = (Z.of_nat n, src))) as (r & s' & E & ->); [|by rewrite wfs_id in E; exists s'].
  apply wp_bind. eapply wp_writei; try done. intros _ e' c' p' ip' Hs' Hw _ _.
  destruct (wn_meta _ _ _ _ _ _ _ Hw) as (a & z & Hm).
  assert (Hlen : length (take (Z.to_nat off) (contents c ip)) = Z.to_nat off).
  { rewrite length_take. unfold contents. rewrite length_fbytes. destruct Hf, Hoff. lia. }
  assert (Hsz : off + Z.of_nat n <= i_size ip').
  { pose proof (f_equal length (wn_contents _ _ _ _ _ _ _ Hw)) as Hl. rewrite !length_app, Hlen in Hl. unfold contents in Hl.
    rewrite !length_fbytes in Hl. destruct Hoff. pose proof (ty_size _ (fo_typed _ _ _ (wn_ok _ _ _ _ _ _ _ Hw))).
    unfold is_u32 in *. fold n in Hl. lia. }
  eapply (wp_readi (sb s) dev_read strict (wip s i ip') eq_refl c' p' i ip');
    [apply Hw|apply Hw|by eapply wip_lookup|exact Hs'|by rewrite Hm|exact Hoff|exact Hn| |].
  - destruct Hf. lia.
  - intros _ _ e2 Hs2 m. assert (Hmn : m = Z.of_nat n) by lia. rewrite Hmn, Nat2Z.id. f_equal.
    rewrite <- slice_contents by (destruct Hoff; lia). rewrite (wn_contents _ _ _ _ _ _ _ Hw).
    unfold slice. rewrite drop_app_ge, Hlen, Nat.sub_diag by lia. simpl. apply take_app_length.
Qed.

(** C19: a write of at most three blocks' worth of bytes, aligned or not - what
    [filewrite] does in one transaction - logs at most [MAXOPBLOCKS] blocks,
    counting bit map, indirect block and inode. *)
Theorem write_chunk_bound s c i ip src off :
  has_file s c ∅ i ip -> is_u32 off -> fits ip off (length src) -> (length src <= 3 * BSIZE)%nat ->
  MAXOPBLOCKS <= Z.of_nat lim ->
  (exists s' c' p' ip', writei dev_write i src off (Z.of_nat (length src)) s = Ret (Z.of_nat (length src)) s' /\
     has_file s' c' p' i ip' /\ Z.of_nat (size p') <= MAXOPBLOCKS) \/
  (exists s', writei dev_write i src off (Z.of_nat (length src)) s = Panic "balloc: out of blocks" s' /\ ~ enough (sb s) c 5).
Proof.
  intros [Hs Hd Ho Hi Hty] Hoff Hf Hn Hlim. unfold MAXOPBLOCKS in *.
  assert (Hc := chunk_cost (sb s) c ip ∅ (Z.to_nat off) (length src) Ho ltac:(destruct Hf, Hoff; lia) Hn).
  assert (H5 : (holes c ip (touched (Z.to_nat off) (length src)) + need ip <= 5)%nat) by (by apply chunk_holes).
  set (Q := fun r s' => r = Z.of_nat (length src) /\ exists e' c' p' ip', s' = wfs (wip s i ip') e' /\
      srep lim e' c' p' ∅ /\ written (sb s) c ip (Z.to_nat off) src c' ip' /\ (size p' <= 10)%nat).
  assert (HQ : wp (may_panic "balloc: out of blocks" (~ enough (sb s) c 5)) (writei dev_write i src off (Z.of_nat (length src))) s Q).
  { rewrite <- (wfs_id s). eapply wp_writei; try done.
    - destruct Hf. assert (Z.of_nat (MAXFILE * BSIZE) = 71680) by (by rewrite MAXFILE_eq, BSIZE_eq). unfold is_u32 in *. lia.
    - intros _. rewrite size_empty. lia.
    - intros _ e' c' p' ip' Hs' Hw Hp' _. rewrite size_empty in Hp'. split; [reflexivity|]. exists e', c', p', ip'.
      split_and!; try done. lia.
    - intros _ Hno. split; [done|]. intros Hen. apply Hno. by eapply enough_le. }
  apply wp_may_panic in HQ as [(r & s' & E & -> & e' & c' & p' & ip' & -> & Hs' & Hw & Hp')|[[s' E] Hen]]; [left|right; by exists s'].
  exists (wfs (wip s i ip') e'), c', p', ip'. destruct (wn_meta _ _ _ _ _ _ _ Hw) as (a & z & Hm). split_and!; [done| |lia].
  split; [done|apply Hw|apply Hw|by eapply wip_lookup|by rewrite Hm].
Qed.
End rw_theorems.
