(* ===== verification/FsTrunc.v ===== *)
(** * Giving up inodes (fs.c)

    [iput], which drops a reference, and [itrunc], by which it frees an inode
    that has no links and no other reference. *)

From S2P Require Import Prelude Params Bytes Sleeplock Block Fs FsBlock FsInode FsFile.

(** ** Dropping a reference *)

(** The entry after [iput], when the inode is not freed. *)
Definition dropped (ip : inode) : inode := (unlocked ip) <| i_ref ::= fun r => r - 1 |>.
(** The inode is freed by [iput]. *)
Definition dying (ip : inode) : Prop := i_valid ip <> 0 /\ i_nlink ip = 0 /\ i_ref ip = 1.
(** No process holds the lock of the entry. *)
Definition idle (ip : inode) : Prop := Sleep.spin (i_lk ip) = false /\ Sleep.locked (i_lk ip) = 0.

Section iput.
Context {T : Type} `{TxStore T}.
Notation F := (fs T).
Context (P : prot F) (mypid : Z) (fuel : nat) (Hfuel : (0 < fuel)%nat).

(** The last part of [iput]. *)
Definition iput_rest (i : nat) : M F unit :=
  releasesleep i ;;; acquire ;;; set_ip i (fun ip => ip <| i_ref ::= fun r => r - 1 |>) ;;; release.

Lemma wp_iput_rest s i ip (Q : unit -> F -> Prop) :
  ic_lock s = false -> inodes s !! i = Some ip -> Sleep.spin (i_lk ip) = false ->
  Q tt (wip s i (dropped ip)) -> wp P (iput_rest i) s Q.
Proof.
  intros Hl Hi Hsp HQ. assert (Hlp : forall x, inodes (wip s i x) !! i = Some x) by (intros; by eapply wip_lookup).
  apply wp_bind. eapply wp_releasesleep; [exact Hi|done|].
  apply wp_bind, wp_ic_acquire; [done|]. apply wp_bind. eapply wp_set_ip; [exact (Hlp (unlocked ip))|].
  apply wp_ic_release; [done|]. change (Q tt (((wip (wip s i (unlocked ip)) i (dropped ip)) <| ic_lock := true |>) <| ic_lock := false |>)).
  rewrite wip_wip. replace (_ <| ic_lock := false |>) with (wip s i (dropped ip)); [done|].
  unfold wip. destruct s. simpl in *. by subst.
Qed.

(** [iput] frees the inode if it is dying, by the code in between. *)
Definition iput_free (i : nat) : M F unit :=
  itrunc i ;;;
  set_ip i (fun ip => ip <| i_type := 0 |>) ;;;
  iupdate i ;;;
  set_ip i (fun ip => ip <| i_valid := 0 |>).

Lemma wp_iput s i ip (Q : unit -> F -> Prop) :
  ic_lock s = false -> inodes s !! i = Some ip -> idle ip ->
  (~ dying ip -> Q tt (wip s i (dropped ip))) ->
  (dying ip -> wp P (iput_free i) (wip s i (locked_by mypid ip)) (fun _ s' => wp P (iput_rest i) s' Q)) ->
  wp P (iput mypid fuel i) s Q.
Proof.
  intros Hl Hi [Hsp Hlk] HN HY. unfold iput. apply wp_bind. eapply wp_acquiresleep; [done..|]. set (lp := locked_by mypid ip).
  assert (Hlp : forall x, inodes (wip s i x) !! i = Some x) by (intros; by eapply wip_lookup).
  apply wp_bind. eapply wp_get_ip; [exact (Hlp lp)|].
  apply wp_bind. change (i_valid lp) with (i_valid ip). change (i_nlink lp) with (i_nlink ip).
  assert (Hrest : ~ dying ip -> wp P (iput_rest i) (wip s i lp) Q).
  { intros Hnd. eapply wp_iput_rest; [done|exact (Hlp lp)|done|]. rewrite wip_wip. by apply HN. }
  destruct (negb (i_valid ip =? 0) && (i_nlink ip =? 0)) eqn:E; unfold when.
  2: { apply wp_ret, Hrest. unfold dying. lia. }
  apply wp_bind, wp_ic_acquire; [done|]. apply wp_bind. eapply wp_get_ip; [exact (Hlp lp)|].
  apply wp_bind, wp_ic_release; [done|]. change (i_ref lp) with (i_ref ip).
  replace (_ <| ic_lock := false |>) with (wip s i lp) by (unfold wip; destruct s; simpl in *; by subst).
  destruct (i_ref ip =? 1) eqn:Er.
  - apply HY. unfold dying. lia.
  - apply wp_ret, Hrest. unfold dying. lia.
Qed.

Lemma wp_iput_keep s i ip (Q : unit -> F -> Prop) :
  ic_lock s = false -> inodes s !! i = Some ip -> idle ip -> ~ dying ip ->
  Q tt (wip s i (dropped ip)) -> wp P (iput mypid fuel i) s Q.
Proof. intros Hl Hi Hid Hnd HQ. by eapply wp_iput. Qed.

Lemma wp_iunlockput_keep s i ip (Q : unit -> F -> Prop) :
  ic_lock s = false -> inodes s !! i = Some ip -> Sleep.spin (i_lk ip) = false -> Sleep.locked (i_lk ip) <> 0 -> 1 <= i_ref ip -> ~ dying ip ->
  Q tt (wip s i (dropped (unlocked ip))) -> wp P (iunlockput mypid fuel i) s Q.
Proof.
  intros Hl Hi Hsp Hlk Hr Hnd HQ. unfold iunlockput. apply wp_bind. eapply wp_iunlock; [done..|].
  eapply wp_iput_keep; [done|by eapply wip_lookup|done|exact Hnd|]. by rewrite wip_wip.
Qed.

(** [iget] followed by [iput] never frees the inode. *)
Lemma got_not_dying dev inum l l' i ip : icache_ok l -> got dev inum l l' i -> l' !! i = Some ip -> ~ dying ip.
Proof.
  intros Hok [x Hi Hr Hd Hn ->|x Hno Hi Hr ->] Hi'; rewrite list_lookup_insert_eq in Hi' by (by eapply lookup_lt_Some);
    injection Hi' as <-; intros (H1 & H2 & H3); simpl in *; lia.
Qed.
End iput.

(** ** Freeing the blocks of a file *)

Section trunc.
Context {T : Type} `{TxStoreOk T} {lim : nat} `{!TxLimit lim}.
Context (sbk : superblock).
Notation F := (fs T).
Notation srep := (srep lim).
Notation free := (free sbk).
Implicit Types (c : Z -> list Z) (ip : inode).

(** The super block on disk is the one in memory. *)
Record sup_ok c : Prop := {
  su_sb : sb_of (c 1) = sbk;
  su_disk : in_disk 1;
  su_bmap : ~ is_bmap sbk 1;
}.

(** The blocks [B] have become free, and nothing else has changed. *)
Record freed c (B : gset Z) c' : Prop := {
  fd_free b : free c' b <-> free c b \/ b ∈ B;
  fd_other x : ~ is_bmap sbk x -> c' x = c x;
}.

Lemma freed_refl c : freed c ∅ c.
Proof. split; [set_solver|done]. Qed.

(** The blocks of the bit map, and the blocks logged so far. *)
Context (bms : gset Z) (Hbms : forall b, is_bmap sbk b -> b ∈ bms).
Definition logged (p p' : gset Z) : Prop := p ⊆ p' /\ p' ⊆ bms ∪ p.
Lemma logged_size p p' : logged p p' -> (size p' <= size (bms ∪ p))%nat.
Proof. intros [_ Hp]. by apply subseteq_size. Qed.

Context (P : prot F).

Lemma wp_free_one s e c B c' p p' hs b (Q : unit -> F -> Prop) :
  sb s = sbk -> disk_ok sbk c -> sup_ok c -> freed c B c' -> logged p p' -> (size (bms ∪ p) <= lim)%nat ->
  srep e c' p' hs -> (size hs <= 2)%nat -> (forall x, is_Some (hs !! x) -> x <> 1 /\ ~ is_bmap sbk x) ->
  data sbk c b -> b ∉ B ->
  (forall e' c'' p'', freed c ({[b]} ∪ B) c'' -> logged p p'' -> srep e' c'' p'' hs -> Q tt (wfs s e')) ->
  wp P (bfree ROOTDEV b) (wfs s e) Q.
Proof.
  intros Hsb Hd Hsu [F1 F2] [L1 L2] Hlim Hs Hhs Hheld Hdb HB HQ. pose proof Hdb as (Hr & Hnf & _).
  assert (Hbm : is_bmap sbk (BBLOCK b sbk)) by (by exists b).
  assert (Hnone : forall x, x = 1 \/ is_bmap sbk x -> hs !! x = None).
  { intros x Hx. apply eq_None_not_Some. intros Hy. destruct (Hheld x Hy). naive_solver. }
  assert (HL : logged p ({[BBLOCK b sbk]} ∪ p')) by (split; [set_solver|]; apply Hbms in Hbm; set_solver).
  eapply wp_bfree; [apply (dk_bmap _ _ Hd)|done|exact Hs| |apply Hsu|apply Hnone; by left|apply Hnone; by right|done|done| | |].
  - rewrite F2 by apply Hsu. apply Hsu.
  - pose proof (logged_size _ _ HL). lia.
  - intros _ e' Hs'. eapply HQ; [|exact HL|exact Hs']. split.
    + intros x. rewrite free_clear; [rewrite F1; set_solver|done|]. eapply srep_len; [exact Hs|].
      by apply (bm_disk _ (dk_bmap _ _ Hd)).
    + intros x Hx. rewrite fupd_ne by (by intros ->). by apply F2.
  - rewrite F1. intros [?|?]; done.
Qed.

(** The blocks of the file among the first [k] slots. *)
Definition slots c ip (k n : nat) : gset Z := list_to_set (filter (fun b => b <> 0) (slot c ip <$> seq k n)).
Lemma elem_slots c ip k n b : b ∈ slots c ip k n <-> exists j, (k <= j < k + n)%nat /\ slot c ip j = b /\ b <> 0.
Proof.
  unfold slots. rewrite elem_of_list_to_set, list_elem_of_filter, list_elem_of_fmap. split.
  - intros (Hb & j & -> & Hj%elem_of_seq). by exists j.
  - intros (j & Hj & <- & Hb). split; [done|]. exists j. split; [done|]. by apply elem_of_seq.
Qed.
Lemma slots_S c ip k n : slots c ip k (S n) = slots c ip k n ∪ (if decide (slot c ip (k + n) = 0) then ∅ else {[slot c ip (k + n)]}).
Proof.
  apply set_eq. intros b. rewrite elem_of_union, !elem_slots. split.
  - intros (j & Hj & <- & Hb). destruct (decide (j = (k + n)%nat)) as [->|]; [right; by rewrite decide_False; [apply elem_of_singleton|]|].
    left. exists j. split; [lia|done].
  - intros [(j & Hj & Hb)|Hb]; [exists j; split; [lia|done]|]. case_decide; [set_solver|]. apply elem_of_singleton in Hb as ->.
    exists (k + n)%nat. split; [lia|done].
Qed.

Lemma slots_app c ip k n m : slots c ip k (n + m) = slots c ip k n ∪ slots c ip (k + n) m.
Proof.
  apply set_eq. intros b. rewrite elem_of_union, !elem_slots. split.
  - intros (j & Hj & Hb). destruct (decide (j < k + n)%nat); [left|right]; exists j; (split; [lia|done]).
  - intros [(j & Hj & Hb)|(j & Hj & Hb)]; exists j; (split; [lia|done]).
Qed.

(** The first [k] addresses are zero. *)
Definition cleared ip (k : nat) : inode := ip <| i_addrs := replicate k 0 ++ drop k (i_addrs ip) |>.
Lemma cleared_0 ip : cleared ip 0 = ip.
Proof. by destruct ip. Qed.
Lemma cleared_addr ip k j : (k <= j)%nat -> i_addrs (cleared ip k) !! j = i_addrs ip !! j.
Proof.
  intros Hj. simpl. rewrite lookup_app_r by (by rewrite length_replicate). rewrite length_replicate, lookup_drop. f_equal. lia.
Qed.
Lemma cleared_len ip k : (k <= length (i_addrs ip))%nat -> length (i_addrs (cleared ip k)) = length (i_addrs ip).
Proof. intros Hk. simpl. rewrite length_app, length_replicate, length_drop. lia. Qed.
Lemma clear_list (l : list Z) k : (k < length l)%nat -> <[k := 0]> (replicate k 0 ++ drop k l) = replicate (S k) 0 ++ drop (S k) l.
Proof.
  intros Hk. destruct (lookup_lt_is_Some_2 l k Hk) as [x Hx]. rewrite (drop_S l x k Hx), replicate_S_end, <- app_assoc.
  rewrite insert_app_r_alt by (by rewrite length_replicate). by rewrite length_replicate, Nat.sub_diag.
Qed.
Lemma cleared_S ip k : (k < length (i_addrs ip))%nat -> (cleared ip k) <| i_addrs ::= <[k := 0]> |> = cleared ip (S k).
Proof.
  intros Hk. unfold cleared. destruct ip. cbn in *. f_equal. by apply clear_list.
Qed.
Lemma cleared_id ip k : i_addrs ip !! k = Some 0 -> cleared ip (S k) = cleared ip k.
Proof.
  intros Hk. rewrite <- cleared_S by (by eapply lookup_lt_Some).
  assert (E : <[k := 0]> (i_addrs (cleared ip k)) = i_addrs (cleared ip k)) by (apply list_insert_id; by rewrite cleared_addr).
  unfold cleared in *. destruct ip. simpl in *. f_equal. exact E.
Qed.

Section steps.
Context (s : F) (c : Z -> list Z) (p : gset Z) (i : nat) (ip : inode).
Context (Hsb : sb s = sbk) (Hd : disk_ok sbk c) (Hsu : sup_ok c) (Ho : file_ok sbk c ip) (Hi : inodes s !! i = Some ip).
Context (Hlim : (size (bms ∪ p) <= lim)%nat).

Lemma slot_fresh k n m : (k + n <= m)%nat -> (m <= MAXFILE)%nat -> slot c ip m <> 0 -> slot c ip m ∉ slots c ip k n.
Proof.
  clear Hlim Hi Hsb. intros Hm HM Hne (j & Hj & He & _)%elem_slots. apply (fo_inj _ _ _ Ho j m) in He; [lia|lia|lia|congruence].
Qed.

Lemma wp_trunc_direct n : forall k e c' p' (Q : unit -> F -> Prop),
  (k + n = NDIRECT)%nat -> freed c (slots c ip 0 k) c' -> logged p p' -> srep e c' p' ∅ ->
  (forall e' c'' p'', freed c (slots c ip 0 NDIRECT) c'' -> logged p p'' -> srep e' c'' p'' ∅ -> Q tt (wfs (wip s i (cleared ip NDIRECT)) e')) ->
  wp P (meach (seq k n) (fun k =>
    ip <- get_ip i ;;
    let a := default 0 (i_addrs ip !! k) in
    when (negb (a =? 0)) (bfree (i_dev ip) a ;;; set_ip i (fun ip => ip <| i_addrs ::= <[k := 0]> |>))))
    (wfs (wip s i (cleared ip k)) e) Q.
Proof.
  induction n as [|n IH]; intros k e c' p' Q Hk Hf HL Hs HQ; cbn [seq meach].
  { apply wp_ret. replace k with NDIRECT in * by lia. by eapply HQ. }
  assert (Hna := ty_naddrs _ (fo_typed _ _ _ Ho)). assert (HkM : (k <= MAXFILE)%nat) by (rewrite MAXFILE_eq, NDIRECT_eq in *; lia).
  assert (Hik : forall x, inodes (wip s i x) !! i = Some x) by (intros; by eapply wip_lookup).
  apply wp_bind, wp_bind. eapply wp_get_ip; [exact (Hik (cleared ip k))|]. cbv zeta. rewrite cleared_addr by done.
  rewrite <- (slot_direct c ip k) by lia. change (i_dev (cleared ip k)) with (i_dev ip). rewrite (fo_dev _ _ _ Ho).
  assert (Hnext : slots c ip 0 (S k) = slots c ip 0 k ∪ (if decide (slot c ip k = 0) then ∅ else {[slot c ip k]})) by apply slots_S.
  destruct (slot c ip k =? 0) eqn:E; cbn [negb]; unfold when.
  - apply wp_ret. apply Z.eqb_eq in E. rewrite <- (cleared_id ip k).
    + eapply (IH (S k)); [lia| |exact HL|exact Hs|exact HQ]. rewrite Hnext, decide_True by done. by rewrite union_empty_r_L.
    + rewrite slot_direct in E by lia. destruct (lookup_lt_is_Some_2 (i_addrs ip) k) as [x Hx]; [lia|]. rewrite Hx in *. simpl in E. by subst.
  - apply Z.eqb_neq in E. apply wp_bind. eapply wp_free_one; [exact Hsb|exact Hd|exact Hsu|exact Hf|exact HL|exact Hlim|exact Hs| | | | |].
    + rewrite map_size_empty. lia.
    + by intros x [y Hy].
    + by apply (fo_data _ _ _ Ho).
    + apply slot_fresh; [lia|done|done].
    + intros e2 c2 p2 Hf2 HL2 Hs2. eapply wp_set_ip; [exact (Hik (cleared ip k))|].
      change (wip (wfs (wip s i (cleared ip k)) e2) i ?x) with (wfs (wip (wip s i (cleared ip k)) i x) e2).
      rewrite wip_wip, cleared_S by lia. eapply (IH (S k)); [lia| |exact HL2|exact Hs2|exact HQ].
      rewrite Hnext, decide_False by done. by rewrite union_comm_L.
Qed.

Lemma ind_data : ind_of ip <> 0 -> data sbk c (ind_of ip).
Proof. intros Hne. rewrite <- (slot_ind c ip) in *. by apply (fo_data _ _ _ Ho). Qed.

Lemma wp_trunc_indirect h n : forall k e c' p' (Q : unit -> F -> Prop),
  (k + n = NINDIRECT)%nat -> ind_of ip <> 0 -> freed c (slots c ip 0 (NDIRECT + k)) c' -> logged p p' -> srep e c' p' {[ind_of ip := h]} ->
  (forall e' c'' p'', freed c (slots c ip 0 MAXFILE) c'' -> logged p p'' -> srep e' c'' p'' {[ind_of ip := h]} -> Q tt (wfs s e')) ->
  wp P (meach (seq k n) (fun j =>
    d <- io (b_data h) ;;
    let a := get32 (4 * j) d in
    when (negb (a =? 0)) (bfree ROOTDEV a))) (wfs s e) Q.
Proof.
  induction n as [|n IH]; intros k e c' p' Q Hk Hne Hf HL Hs HQ; cbn [seq meach].
  { apply wp_ret. replace (NDIRECT + k)%nat with MAXFILE in Hf by (unfold MAXFILE; lia). by eapply HQ. }
  destruct (data_disk _ _ _ Hd (ind_data Hne)) as (_ & _ & Hn1 & Hnb & _).
  assert (Hkm : (NDIRECT <= NDIRECT + k < MAXFILE)%nat) by (unfold MAXFILE; lia).
  assert (Hslot : get32 (4 * k) (c' (ind_of ip)) = slot c ip (NDIRECT + k)).
  { rewrite (fd_other _ _ _ Hf) by done. rewrite slot_indirect by done. rewrite (proj2 (Z.eqb_neq _ _) Hne). do 2 f_equal. lia. }
  apply wp_bind, wp_bind. eapply wp_data; [exact Hs|by rewrite lookup_singleton_eq|]. cbv zeta. rewrite Hslot.
  assert (Hnext : slots c ip 0 (NDIRECT + S k) = slots c ip 0 (NDIRECT + k) ∪ (if decide (slot c ip (NDIRECT + k) = 0) then ∅ else {[slot c ip (NDIRECT + k)]})).
  { replace (NDIRECT + S k)%nat with (S (NDIRECT + k)) by lia. apply (slots_S c ip 0 (NDIRECT + k)). }
  destruct (slot c ip (NDIRECT + k) =? 0) eqn:E; cbn [negb]; unfold when.
  - apply wp_ret. apply Z.eqb_eq in E. eapply (IH (S k)); [lia|done| |exact HL|exact Hs|exact HQ].
    rewrite Hnext, decide_True by done. by rewrite union_empty_r_L.
  - apply Z.eqb_neq in E. eapply wp_free_one; [exact Hsb|exact Hd|exact Hsu|exact Hf|exact HL|exact Hlim|exact Hs| | | | |].
    + rewrite map_size_singleton. lia.
    + intros x [y Hy]. apply lookup_singleton_Some in Hy as [<- _]. done.
    + apply (fo_data _ _ _ Ho); [lia|done].
    + apply slot_fresh; [lia|lia|done].
    + intros e2 c2 p2 Hf2 HL2 Hs2. eapply (IH (S k)); [lia|done| |exact HL2|exact Hs2|exact HQ].
      rewrite Hnext, decide_False by done. by rewrite union_comm_L.
Qed.

(** No indirect block. *)
Lemma slots_no_ind : ind_of ip = 0 -> slots c ip 0 (S MAXFILE) = slots c ip 0 NDIRECT.
Proof.
  clear Hlim Hi Hsb. intros Hz. replace (S MAXFILE) with (NDIRECT + S NINDIRECT)%nat by (unfold MAXFILE; lia). rewrite slots_app.
  assert (E : slots c ip (0 + NDIRECT) (S NINDIRECT) = ∅); [|by rewrite E, union_empty_r_L].
  apply set_eq. intros b. rewrite elem_slots. split; [|set_solver]. intros (j & Hj & Hb & Hne). exfalso. apply Hne.
  unfold slot in Hb. rewrite decide_False in Hb by lia. rewrite Hz in Hb. simpl in Hb. by case_decide.
Qed.
End steps.

(** All blocks of the file. *)
Definition blocks c ip : gset Z := slots c ip 0 (S MAXFILE).
Definition emptied ip : inode := (cleared ip (S NDIRECT)) <| i_size := 0 |>.

Lemma wp_itrunc s e c p i ip (Q : unit -> F -> Prop) :
  sb s = sbk -> disk_ok sbk c -> sup_ok c -> file_ok sbk c ip -> inodes s !! i = Some ip ->
  (size (bms ∪ p) + 1 <= lim)%nat -> srep e c p ∅ ->
  (forall e' c' p', freed c (blocks c ip) c' -> logged p p' ->
     srep e' (to_disk sbk (emptied ip) c') ({[IBLOCK (i_inum ip) sbk]} ∪ p') ∅ -> Q tt (wfs (wip s i (emptied ip)) e')) ->
  wp P (itrunc i) (wfs s e) Q.
Proof.
  intros Hsb Hd Hsu Ho Hi Hlim Hs HQ. assert (Hl : (size (bms ∪ p) <= lim)%nat) by lia.
  assert (Hna := ty_naddrs _ (fo_typed _ _ _ Ho)). assert (Hik : forall x, inodes (wip s i x) !! i = Some x) by (intros; by eapply wip_lookup).
  assert (Hfin : forall e' c' p' x, x = cleared ip (S NDIRECT) -> freed c (blocks c ip) c' -> logged p p' -> srep e' c' p' ∅ ->
    wp P (set_ip i (fun ip => ip <| i_size := 0 |>) ;;; iupdate i) (wfs (wip s i x) e') Q).
  { intros e' c' p' x -> Hf HL Hs'. apply wp_bind. eapply wp_set_ip; [exact (Hik _)|].
    change (wip (wfs (wip s i (cleared ip (S NDIRECT))) e') i _) with (wfs (wip (wip s i (cleared ip (S NDIRECT))) i (emptied ip)) e').
    rewrite wip_wip. eapply wp_iupdate; [exact Hs'|exact (Hik _)|apply Ho| | |apply lookup_empty|rewrite map_size_empty; lia| |].
    - change (length (i_addrs (cleared ip (S NDIRECT))) = S NDIRECT). rewrite cleared_len; lia.
    - change (sb (wip s i (emptied ip))) with (sb s). rewrite Hsb. apply (dk_inodes _ _ Hd), Ho.
    - pose proof (size_add_le (IBLOCK (i_inum (emptied ip)) (sb (wip s i (emptied ip)))) p'). pose proof (logged_size _ _ HL). lia.
    - change (sb (wip s i (emptied ip))) with (sb s). rewrite Hsb. intros e2 Hs2. by eapply HQ. }
  unfold itrunc. apply wp_bind. rewrite <- (wip_id s i ip Hi), <- (cleared_0 ip) at 1.
  eapply wp_trunc_direct; [exact Hsb|exact Hd|exact Hsu|exact Ho|exact Hi|exact Hl|lia|apply freed_refl|split; set_solver|exact Hs|].
  intros e1 c1 p1 Hf1 HL1 Hs1. set (s1 := wip s i (cleared ip NDIRECT)). apply wp_bind. eapply wp_get_ip; [exact (Hik _)|]. cbv zeta.
  rewrite cleared_addr by lia. fold (ind_of ip). change (i_dev (cleared ip NDIRECT)) with (i_dev ip). rewrite (fo_dev _ _ _ Ho).
  apply wp_bind. destruct (ind_of ip =? 0) eqn:E; cbn [negb]; unfold when.
  { apply Z.eqb_eq in E. apply wp_ret. eapply Hfin; [|unfold blocks; rewrite slots_no_ind by done; exact Hf1|exact HL1|exact Hs1].
    symmetry. apply cleared_id. destruct (lookup_lt_is_Some_2 (i_addrs ip) NDIRECT) as [x Hx]; [lia|]. unfold ind_of in E. rewrite Hx in *. simpl in E. by subst. }
  apply Z.eqb_neq in E. pose proof (ind_data c ip Ho E) as Hdi. destruct (data_disk _ _ _ Hd Hdi) as (Hdisk & _ & Hn1 & Hnb & _).
  apply wp_bind. eapply wp_bread; [exact Hs1|exact Hdisk|apply lookup_empty|rewrite map_size_empty; lia|]. intros h e2 Hs2.
  rewrite insert_empty in Hs2. apply wp_bind.
  eapply (wp_trunc_indirect s1 c p ip Hsb Hd Hsu Ho Hl h NINDIRECT 0); [lia|exact E|rewrite Nat.add_0_r; exact Hf1|exact HL1|exact Hs2|].
  intros e3 c3 p3 Hf3 HL3 Hs3. apply wp_bind. eapply wp_brelse; [exact Hs3|apply lookup_singleton_eq|]. intros e4 Hs4.
  rewrite delete_singleton_eq in Hs4. apply wp_bind.
  eapply wp_free_one; [exact Hsb|exact Hd|exact Hsu|exact Hf3|exact HL3|exact Hl|exact Hs4|rewrite map_size_empty; lia|by intros x [y Hy]|exact Hdi| |].
  { rewrite <- (slot_ind c ip). rewrite <- (slot_ind c ip) in E. apply (slot_fresh c ip Ho); [lia|lia|exact E]. }
  intros e5 c5 p5 Hf5 HL5 Hs5. eapply wp_set_ip; [exact (Hik _)|].
  change (wip (wfs s1 e5) i ?x) with (wfs (wip s1 i x) e5). unfold s1. rewrite wip_wip, cleared_S by lia.
  eapply Hfin; [done| |exact HL5|exact Hs5]. unfold blocks. rewrite slots_S, Nat.add_0_l, slot_ind, decide_False by done. by rewrite union_comm_L.
Qed.
End trunc.

(** ** [iput] *)

Section iput_theorem.
Context {T : Type} `{TxStoreOk T} {lim : nat} `{!TxLimit lim}.
Context (mypid : Z) (fuel : nat) (Hfuel : (0 < fuel)%nat).
Implicit Types (s : fs T) (c : Z -> list Z) (ip : inode).

(** The blocks of the bit map. *)
Definition bmaps (sbk : superblock) : gset Z := list_to_set ((fun b => BBLOCK b sbk) <$> seqZ 0 (sb_size sbk)).
Lemma bmaps_all sbk b : is_bmap sbk b -> b ∈ bmaps sbk.
Proof.
  intros (x & Hx & ->). apply elem_of_list_to_set, list_elem_of_fmap. exists x. split; [done|]. apply elem_of_seqZ. lia.
Qed.

Lemma emptied_typed ip t : typed ip -> is_s16 t -> typed ((emptied ip) <| i_type := t |>).
Proof.
  intros [] Ht. assert (Hl : length (i_addrs (cleared ip (S NDIRECT))) = S NDIRECT) by (rewrite cleared_len; lia).
  split; [exact Ht|done|done|done|by unfold is_u32; simpl|exact Hl|]. apply Forall_app. split; [|by apply Forall_drop].
  apply Forall_replicate. by unfold is_u32.
Qed.

Lemma file_ok_lk sbk c ip lk : file_ok sbk c ip -> file_ok sbk c (ip <| i_lk := lk |>).
Proof. intros [[] O2 O3 O4 O5 O6 O7]. split; try assumption. by split. Qed.

(** The inode that [iput] leaves in the cache when it frees it. *)
Definition buried ip : inode := dropped ((emptied (locked_by mypid ip)) <| i_type := 0 |> <| i_valid := 0 |>).

Lemma wp_iput_free (P : prot (fs T)) s e c p i ip (Q : unit -> fs T -> Prop) :
  disk_ok (sb s) c -> sup_ok (sb s) c -> file_ok (sb s) c ip -> ic_lock s = false -> inodes s !! i = Some ip -> Sleep.spin (i_lk ip) = false ->
  (size (bmaps (sb s) ∪ p) + 1 <= lim)%nat -> srep lim e c p ∅ ->
  (forall e' c1 c' p', freed (sb s) c (blocks c ip) c1 -> c' = to_disk (sb s) ((emptied ip) <| i_type := 0 |>) (to_disk (sb s) (emptied ip) c1) ->
     srep lim e' c' p' ∅ -> Q tt (wfs (wip s i (buried ip)) e')) ->
  wp P (iput_free i) (wfs (wip s i (locked_by mypid ip)) e) (fun _ s' => wp P (iput_rest i) s' Q).
Proof.
  intros Hd Hsu Ho Hl Hi Hsp Hlim Hs HQ. set (lp := locked_by mypid ip). assert (Hik : forall x, inodes (wip s i x) !! i = Some x) by (intros; by eapply wip_lookup).
  unfold iput_free. apply wp_bind.
  eapply (wp_itrunc (sb s) (bmaps (sb s)) (bmaps_all (sb s)) P (wip s i lp) e c p i lp);
    [reflexivity|exact Hd|exact Hsu|by apply file_ok_lk|exact (Hik lp)|exact Hlim|exact Hs|].
  intros e1 c1 p1 Hf HL Hs1. rewrite wip_wip. apply wp_bind. eapply wp_set_ip; [exact (Hik _)|].
  change (wip (wfs (wip s i (emptied lp)) e1) i ?x) with (wfs (wip (wip s i (emptied lp)) i x) e1). rewrite wip_wip.
  set (zp := (emptied lp) <| i_type := 0 |>). apply wp_bind. pose proof (fo_typed _ _ _ Ho) as Hty.
  eapply wp_iupdate; [exact Hs1|exact (Hik zp)|apply Ho| | |apply lookup_empty|rewrite map_size_empty; lia| |].
  - change (length (i_addrs (cleared ip (S NDIRECT))) = S NDIRECT). destruct Hty. rewrite cleared_len; lia.
  - apply (dk_inodes _ _ Hd), Ho.
  - change (IBLOCK (i_inum zp) (sb (wip s i zp))) with (IBLOCK (i_inum lp) (sb s)). rewrite union_assoc_L, union_idemp_L.
    pose proof (size_add_le (IBLOCK (i_inum lp) (sb s)) p1). pose proof (logged_size _ _ _ HL). lia.
  - intros e2 Hs2. eapply wp_set_ip; [exact (Hik zp)|].
    change (wip (wfs (wip s i zp) e2) i ?x) with (wfs (wip (wip s i zp) i x) e2). rewrite wip_wip.
    eapply wp_iput_rest; [exact Hl|exact (Hik _)|exact Hsp|].
    change (wip (wfs (wip s i ?x) e2) i ?y) with (wfs (wip (wip s i x) i y) e2). rewrite wip_wip. eapply HQ; [exact Hf|reflexivity|exact Hs2].
Qed.

End iput_theorem.
