(* ===== verification/FsDir.v ===== *)
(** * Directories (fs.c)

    [dirlookup] and [dirlink] against the entries that a directory has on disk. *)

From S2P Require Import Prelude Params Bytes Str Sleeplock Block Fs FsBlock FsInode FsFile FsRw FsTrunc.

(** ** Entries *)

(** The name in an array: up to a 0 byte, at most [DIRSIZ] bytes. *)
Definition nm (t : list Z) : list Z := take DIRSIZ (cstr t).

(** The entries of a directory. *)
Definition nents (ip : inode) : nat := Z.to_nat (i_size ip) / 16.
Definition dent (c : Z -> list Z) (ip : inode) (k : nat) : list Z := fbytes c ip (16 * k) 16.
Definition hit (c : Z -> list Z) (ip : inode) (name : list Z) (k : nat) : Prop :=
  de_inum (dent c ip k) <> 0 /\ nm (de_name (dent c ip k)) = nm name.
Definition first_hit (c : Z -> list Z) (ip : inode) (name : list Z) (k : nat) : Prop :=
  (k < nents ip)%nat /\ hit c ip name k /\ forall k', (k' < k)%nat -> ~ hit c ip name k'.

Lemma first_hit_unique c ip name k k' : first_hit c ip name k -> first_hit c ip name k' -> k = k'.
Proof.
  intros (_ & H1 & H2) (_ & H3 & H4). destruct (decide (k < k')%nat); [by destruct (H4 k)|].
  destruct (decide (k' < k)%nat); [by destruct (H2 k')|lia].
Qed.

#[export] Instance hit_dec c ip name k : Decision (hit c ip name k).
Proof. apply _. Defined.

Record dir_ok (c : Z -> list Z) (ip : inode) : Prop := {
  di_type : i_type ip = T_DIR;
  di_size : i_size ip = 16 * Z.of_nat (nents ip);
  di_bytes : Forall is_byte (contents c ip);
}.

(** A name that may be looked up. *)
Definition name_ok (name : list Z) : Prop := readable name DIRSIZ /\ Forall is_byte name.

Lemma dent_bytes c ip k : dir_ok c ip -> (k < nents ip)%nat -> Forall is_byte (dent c ip k).
Proof.
  intros [_ Hs Hb] Hk. unfold dent. rewrite <- slice_contents by lia. unfold slice. by apply Forall_take, Forall_drop.
Qed.
Lemma de_name_ok d : length d = 16%nat -> Forall is_byte d -> name_ok (de_name d).
Proof.
  intros Hl Hb. split; [right; unfold de_name; rewrite length_slice; [done|unfold DIRSIZ; lia]|].
  unfold de_name, slice. by apply Forall_take, Forall_drop.
Qed.
Lemma namecmp_ok s t : name_ok s -> name_ok t -> exists r, namecmp s t = Some r /\ (r = 0 <-> nm s = nm t).
Proof. intros [H1 H2] [H3 H4]. by apply strncmp_ok. Qed.

(** The offsets of the entries. *)
Lemma steps_entries ip c : dir_ok c ip -> steps sizeof_dirent (i_size ip) = (fun k => 16 * Z.of_nat k) <$> seq 0 (nents ip).
Proof.
  intros [_ Hs _]. unfold steps, sizeof_dirent. rewrite Hs at 1. f_equal. f_equal.
  replace (16 * Z.of_nat (nents ip) + 16 - 1) with (15 + Z.of_nat (nents ip) * 16) by lia. rewrite Z.div_add by lia.
  change (15 / 16) with 0. lia.
Qed.

Section dirs.
Context {T : Type} `{TxStoreOk T} {lim : nat} `{!TxLimit lim}.
Context (sbk : superblock).
Notation F := (fs T).
Notation srep := (srep lim).
Context (dev_read : Z -> option (nat -> Z -> M F (Z * list Z))).
Context (P : prot F).

(** [readi] of an entry. *)
Lemma wp_read_dent s e c p i ip k (Q : Z * list Z -> F -> Prop) :
  sb s = sbk -> srep e c p ∅ -> disk_ok sbk c -> file_ok sbk c ip -> inodes s !! i = Some ip -> dir_ok c ip -> (k < nents ip)%nat ->
  (forall e', srep e' c p ∅ -> Q (16, dent c ip k) (wfs s e')) ->
  wp P (readi dev_read i (16 * Z.of_nat k) sizeof_dirent) (wfs s e) Q.
Proof.
  intros Hsb Hs Hd Ho Hi [Hty Hsz Hb] Hk HQ. pose proof (fo_size _ _ _ Ho) as Hmax.
  assert (HM : Z.of_nat (MAXFILE * BSIZE) = 71680) by (by rewrite MAXFILE_eq, BSIZE_eq).
  eapply (wp_readi sbk dev_read P s Hsb c p i ip Hd Ho Hi); [exact Hs|rewrite Hty; discriminate|unfold is_u32; lia|vm_compute; split; [discriminate|reflexivity]|..].
  - intros Hbad. exfalso. unfold sizeof_dirent in Hbad. lia.
  - intros _ _ e' Hs' m. assert (Hm : m = 16) by (unfold m, sizeof_dirent; lia). rewrite Hm.
    replace (Z.to_nat (16 * Z.of_nat k)) with (16 * k)%nat by lia. by apply HQ.
Qed.

Lemma wp_lookup_step s e c p i ip name k (Q : option (nat * Z) -> F -> Prop) :
  sb s = sbk -> srep e c p ∅ -> disk_ok sbk c -> file_ok sbk c ip -> inodes s !! i = Some ip -> dir_ok c ip -> (k < nents ip)%nat -> name_ok name ->
  (~ hit c ip name k -> forall e', srep e' c p ∅ -> Q None (wfs s e')) ->
  (hit c ip name k -> forall e', srep e' c p ∅ ->
     wp P (iget ROOTDEV (de_inum (dent c ip k))) (wfs s e') (fun j s' => Q (Some (j, 16 * Z.of_nat k)) s')) ->
  wp P (lookup_step dev_read i name (16 * Z.of_nat k)) (wfs s e) Q.
Proof.
  intros Hsb Hs Hd Ho Hi Hdir Hk Hnm HN HS. unfold lookup_step. apply wp_bind. eapply wp_read_dent; [done..|]. intros e1 Hs1.
  cbn [fst snd]. change (negb (16 =? sizeof_dirent)) with false. destruct (de_inum (dent c ip k) =? 0) eqn:E.
  - apply wp_ret, HN; [|done]. intros [? _]. lia.
  - destruct (namecmp_ok name (de_name (dent c ip k))) as (r & -> & Hr); [done|apply de_name_ok; [apply length_fbytes|by apply dent_bytes]|].
    destruct (r =? 0) eqn:Er.
    + apply wp_bind. eapply wp_get_ip; [exact Hi|]. rewrite (fo_dev _ _ _ Ho). apply wp_bind. eapply wp_mono; [apply HS|].
      * split; [lia|]. symmetry. apply Hr. lia.
      * done.
      * intros j s' HQ. by apply wp_ret.
    + apply wp_ret, HN; [|done]. intros [_ He]. apply Z.eqb_neq in Er. apply Er, Hr. by symmetry.
Qed.

Lemma wp_dirlookup s e c p i ip name (Q : option (nat * Z) -> F -> Prop) :
  sb s = sbk -> srep e c p ∅ -> disk_ok sbk c -> file_ok sbk c ip -> inodes s !! i = Some ip -> dir_ok c ip -> name_ok name ->
  ((forall k, (k < nents ip)%nat -> ~ hit c ip name k) -> forall e', srep e' c p ∅ -> Q None (wfs s e')) ->
  (forall k, first_hit c ip name k -> forall e', srep e' c p ∅ ->
     wp P (iget ROOTDEV (de_inum (dent c ip k))) (wfs s e') (fun j s' => Q (Some (j, 16 * Z.of_nat k)) s')) ->
  wp P (dirlookup dev_read i name) (wfs s e) Q.
Proof.
  intros Hsb Hs Hd Ho Hi Hdir Hnm HN HS. unfold dirlookup. apply wp_bind. eapply wp_get_ip; [exact Hi|].
  rewrite (di_type _ _ Hdir). change (negb (T_DIR =? T_DIR)) with false. rewrite (steps_entries ip c Hdir).
  assert (Hgen : forall n k e, (k + n = nents ip)%nat -> srep e c p ∅ -> (forall k', (k' < k)%nat -> ~ hit c ip name k') ->
    wp P (mfor ((fun k => 16 * Z.of_nat k) <$> seq k n) (lookup_step dev_read i name)) (wfs s e) Q).
  { induction n as [|n IH]; intros k e' Hk Hs' Hbefore; cbn [seq fmap list_fmap mfor].
    - apply wp_ret, HN; [|done]. intros k' Hk'. apply Hbefore. lia.
    - apply wp_bind. eapply wp_lookup_step; [done..|lia|done| |].
      + intros Hno e2 H2. apply (IH (S k)); [lia|done|]. intros k' Hk'. destruct (decide (k' = k)) as [-> |]; [done|]. apply Hbefore. lia.
      + intros Hh e2 H2. eapply wp_mono; [apply HS; [|done]|intros j s' HQ; by apply wp_ret]. split; [lia|done]. }
  apply Hgen; [lia|done|lia].
Qed.
End dirs.

(** ** Adding an entry *)

Definition new_dent (inum : Z) (name : list Z) : list Z :=
  le 2 inum ++ nm name ++ replicate (DIRSIZ - length (nm name)) 0.
(** The entry that [dirlink] fills: the first free one, or a new one. *)
Definition free_slot (c : Z -> list Z) (ip : inode) (k : nat) : Prop :=
  (k <= nents ip)%nat /\ ((k < nents ip)%nat -> de_inum (dent c ip k) = 0) /\
  forall k', (k' < k)%nat -> de_inum (dent c ip k') <> 0.

Lemma length_new_dent inum name : length (new_dent inum name) = 16%nat.
Proof.
  unfold new_dent. rewrite !length_app, length_le, length_replicate.
  assert (length (nm name) <= DIRSIZ)%nat by (unfold nm; rewrite length_take; lia). unfold DIRSIZ in *. lia.
Qed.
Lemma cstr_nonzero t : 0 ∉ cstr t.
Proof. induction t as [|x t IH]; simpl; [apply not_elem_of_nil|]. case_match; [apply not_elem_of_nil|]. apply not_elem_of_cons. split; [lia|done]. Qed.
Lemma cstr_app_zeros t n : 0 ∉ t -> cstr (t ++ replicate n 0) = t.
Proof.
  induction t as [|x t IH]; simpl; [by destruct n|]. intros [H1 H2]%not_elem_of_cons.
  rewrite (proj2 (Z.eqb_neq x 0)) by lia. by rewrite IH.
Qed.
Lemma nm_nm t n : nm (nm t ++ replicate n 0) = nm t.
Proof.
  unfold nm at 1. rewrite cstr_app_zeros.
  - unfold nm. rewrite take_take. done.
  - unfold nm. intros (i & Hi & _)%elem_of_take. by apply (cstr_nonzero t), (list_elem_of_lookup_2 _ i).
Qed.
Lemma new_dent_spec inum name : 0 <= inum < 2 ^ 16 ->
  de_inum (new_dent inum name) = inum /\ nm (de_name (new_dent inum name)) = nm name.
Proof.
  intros Hn. split.
  - change (unle (le 2 inum) = inum). rewrite (unle_le 2). by apply Z.mod_small.
  - unfold de_name, slice, new_dent. rewrite drop_app_ge by (by rewrite length_le).
    rewrite length_le, Nat.sub_diag, drop_0, take_ge; [apply nm_nm|]. rewrite length_app, length_replicate. unfold nm. rewrite length_take. lia.
Qed.
Lemma new_dent_bytes inum name : Forall is_byte name -> Forall is_byte (new_dent inum name).
Proof.
  intros Hb. unfold new_dent. apply Forall_app. split; [apply bytes_le|]. apply Forall_app. split.
  - unfold nm. apply Forall_take. induction Hb as [|x t Hx Ht IH]; simpl; [constructor|]. case_match; by constructor.
  - apply Forall_replicate. unfold is_byte. lia.
Qed.

Lemma slice_splice_at a d bs : (a <= length bs)%nat -> slice a (length d) (splice a d bs) = d.
Proof.
  intros Ha. unfold slice, splice. rewrite drop_app_ge by (rewrite length_take; lia). rewrite length_take.
  replace (a - a `min` length bs)%nat with 0%nat by lia. rewrite drop_0. apply take_app_length.
Qed.
Lemma slice_splice_before a d bs o n : (a <= length bs)%nat -> (o + n <= a)%nat -> slice o n (splice a d bs) = slice o n bs.
Proof.
  intros Ha Ho. apply list_eq. intros j. rewrite !lookup_slice. case_decide; [|done].
  unfold splice. rewrite lookup_app_l by (rewrite length_take; lia). by rewrite lookup_take_lt by lia.
Qed.

Section dirlink.
Context {T : Type} `{TxStoreOk T} {lim : nat} `{!TxLimit lim}.
Context (sbk : superblock).
Notation F := (fs T).
Notation srep := (srep lim).
Context (mypid : Z) (fuel : nat).
Context (dev_read : Z -> option (nat -> Z -> M F (Z * list Z))).
Context (dev_write : Z -> option (nat -> list Z -> Z -> M F Z)).
Context (P : prot F).

Lemma wp_free_search s e c p i ip (Q : option Z -> F -> Prop) :
  sb s = sbk -> srep e c p ∅ -> disk_ok sbk c -> file_ok sbk c ip -> inodes s !! i = Some ip -> dir_ok c ip ->
  (forall k e', free_slot c ip k -> srep e' c p ∅ ->
     Q (if decide (k < nents ip)%nat then Some (16 * Z.of_nat k) else None) (wfs s e')) ->
  wp P (mfor (steps sizeof_dirent (i_size ip)) (free_step dev_read i)) (wfs s e) Q.
Proof.
  intros Hsb Hs Hd Ho Hi Hdir HQ. rewrite (steps_entries ip c Hdir).
  assert (Hgen : forall n k e, (k + n = nents ip)%nat -> srep e c p ∅ -> (forall k', (k' < k)%nat -> de_inum (dent c ip k') <> 0) ->
    wp P (mfor ((fun k => 16 * Z.of_nat k) <$> seq k n) (free_step dev_read i)) (wfs s e) Q).
  { induction n as [|n IH]; intros k e' Hk Hs' Hbefore; cbn [seq fmap list_fmap mfor].
    - apply wp_ret. assert (HQ' : Q (if decide (nents ip < nents ip)%nat then Some (16 * Z.of_nat (nents ip)) else None) (wfs s e')).
      { apply HQ; [|done]. split_and!; [lia|lia|]. intros k' Hk'. apply Hbefore. lia. }
      rewrite decide_False in HQ' by lia. exact HQ'.
    - apply wp_bind. unfold free_step at 1. apply wp_bind. eapply wp_read_dent; [done..|lia|]. intros e2 H2.
      cbn [fst snd]. change (negb (16 =? sizeof_dirent)) with false. destruct (de_inum (dent c ip k) =? 0) eqn:E.
      + apply wp_ret, wp_ret. assert (HQ' : Q (if decide (k < nents ip)%nat then Some (16 * Z.of_nat k) else None) (wfs s e2)).
        { apply HQ; [|done]. split_and!; [lia|lia|done]. }
        rewrite decide_True in HQ' by lia. exact HQ'.
      + apply wp_ret. apply (IH (S k)); [lia|done|]. intros k' Hk'. destruct (decide (k' = k)) as [-> |]; [lia|]. apply Hbefore. lia. }
  apply Hgen; [lia|done|lia].
Qed.

(** The blocks that a write of an entry needs. *)
Lemma entry_cost c ip p k : (pend ip p + cost c ip (touched (16 * k) 16) + 1 <= 5)%nat /\
  (holes c ip (touched (16 * k) 16) + need ip <= 2)%nat.
Proof.
  assert (Hp : (pend ip p <= 2)%nat) by (unfold pend; repeat case_match; lia).
  assert (Hn : (need ip <= 1)%nat) by (unfold need; case_match; lia).
  assert (Hl : (length (touched (16 * k) 16) <= 1)%nat).
  { unfold touched. rewrite decide_False by lia. rewrite length_seq, BSIZE_eq.
    pose proof (Nat.div_mod_eq (16 * k) 512). pose proof (Nat.div_mod_eq (16 * k + 16 - 1) 512).
    pose proof (Nat.mod_upper_bound (16 * k) 512). pose proof (Nat.mod_upper_bound (16 * k + 16 - 1) 512). lia. }
  pose proof (cost_le c ip (touched (16 * k) 16)). pose proof (holes_le c ip (touched (16 * k) 16)). lia.
Qed.

Lemma wp_dirlink s e c p i ip name inum (Q : Z -> F -> Prop) :
  sb s = sbk -> srep e c p ∅ -> disk_ok sbk c -> file_ok sbk c ip -> inodes s !! i = Some ip -> dir_ok c ip -> name_ok name ->
  (size p + 5 <= lim)%nat ->
  (forall k e', first_hit c ip name k -> srep e' c p ∅ -> wp P (iget ROOTDEV (de_inum (dent c ip k))) (wfs s e')
     (fun j s' => wp P (iput mypid fuel j) s' (fun _ s'' => Q (-1) s''))) ->
  ((forall k, (k < nents ip)%nat -> ~ hit c ip name k) -> forall k e' c' p' ip', free_slot c ip k ->
     srep e' c' p' ∅ -> written sbk c ip (16 * k) (new_dent inum name) c' ip' -> (size p' <= size p + 5)%nat ->
     Q 0 (wfs (wip s i ip') e')) ->
  (~ enough sbk c 2 -> tolerated P "balloc: out of blocks") ->
  (i_size ip = Z.of_nat (MAXFILE * BSIZE) -> tolerated P "dirlink") ->
  wp P (dirlink mypid fuel dev_read dev_write i name inum) (wfs s e) Q.
Proof.
  intros Hsb Hs Hd Ho Hi Hdir Hnm Hp HS HN HT1 HT2. unfold dirlink. apply wp_bind. eapply wp_dirlookup; [done..| |].
  2: { intros k Hk e1 Hs1. eapply wp_mono; [by apply HS|]. intros j s' Hj. apply wp_bind. eapply wp_mono; [exact Hj|].
       intros [] s'' HQ. by apply wp_ret. }
  intros Hno e1 Hs1. apply wp_bind. eapply wp_get_ip; [exact Hi|]. apply wp_bind. eapply wp_free_search; [done..|].
  intros k e2 Hk Hs2. pose proof Hk as (Hk1 & _ & _). pose proof (di_size _ _ Hdir) as Hsz. pose proof (fo_size _ _ _ Ho) as Hmax.
  assert (HM : Z.of_nat (MAXFILE * BSIZE) = 71680) by (by rewrite MAXFILE_eq, BSIZE_eq).
  set (off := match _ with Some o => o | None => _ end).
  assert (Hoff : off = 16 * Z.of_nat k).
  { unfold off. case_decide; [done|]. rewrite (steps_entries ip c Hdir), length_fmap, length_seq. unfold sizeof_dirent. lia. }
  clearbody off. subst off. assert (Hstr : strncpy (replicate DIRSIZ 0) name DIRSIZ = Some (nm name ++ replicate (DIRSIZ - length (nm name)) 0)).
  { rewrite strncpy_ok; [|done|apply Hnm]. by rewrite (drop_ge (replicate _ _)), app_nil_r by (by rewrite length_replicate). }
  rewrite Hstr. fold (new_dent inum name). apply wp_bind. change sizeof_dirent with (Z.of_nat 16).
  rewrite <- (length_new_dent inum name) at 1. destruct (entry_cost c ip p k) as [Hc Hh].
  eapply wp_writei; [exact Hsb|exact Hs2|exact Hd|exact Ho|exact Hi|rewrite (di_type _ _ Hdir); discriminate| | | | | |]; unfold fits;
    rewrite ?length_new_dent, ?(Z2Nat.id (16 * Z.of_nat k)) by lia; replace (Z.to_nat (16 * Z.of_nat k)) with (16 * k)%nat by lia.
  - unfold is_u32. lia.
  - unfold is_u32. lia.
  - intros Hbad. unfold wp, panic. simpl. apply HT2. lia.
  - intros _. lia.
  - intros _ e3 c3 p3 ip3 Hs3 Hw Hp3 _. apply wp_ret. eapply HN; [done|done|exact Hs3|exact Hw|lia].
  - intros _ Hen. apply HT1. intros He. apply Hen. by eapply enough_le.
Qed.
End dirlink.

(** The directory after [dirlink] has written entry [k]. *)
Record linked (c : Z -> list Z) (ip : inode) (k : nat) (inum : Z) (name : list Z) (c' : Z -> list Z) (ip' : inode) : Prop := {
  lk_dir : dir_ok c' ip';
  lk_nents : nents ip' = Nat.max (nents ip) (S k);
  lk_new : de_inum (dent c' ip' k) = inum /\ nm (de_name (dent c' ip' k)) = nm name;
  lk_old k' : (k' < nents ip)%nat -> k' <> k -> dent c' ip' k' = dent c ip k';
}.

Lemma written_linked {T} `{TxStoreOk T} sbk c ip k inum name c' ip' : dir_ok c ip -> (k <= nents ip)%nat -> 0 <= inum < 2 ^ 16 -> name_ok name ->
  written sbk c ip (16 * k) (new_dent inum name) c' ip' -> linked c ip k inum name c' ip'.
Proof.
  intros [Ht Hs Hb] Hk Hn [_ Hnb] Hw. pose proof (wn_contents _ _ _ _ _ _ _ Hw) as Hc. fold (splice (16 * k) (new_dent inum name) (contents c ip)) in Hc.
  assert (Hl : length (contents c ip) = (16 * nents ip)%nat) by (unfold contents; rewrite length_fbytes; lia).
  assert (Hl' : length (contents c' ip') = (16 * Nat.max (nents ip) (S k))%nat).
  { rewrite Hc. unfold splice. rewrite !length_app, length_take, length_drop, length_new_dent, Hl. lia. }
  assert (Hsz : i_size ip' = 16 * Z.of_nat (Nat.max (nents ip) (S k))).
  { pose proof (ty_size _ (fo_typed _ _ _ (wn_ok _ _ _ _ _ _ _ Hw))) as Hu. unfold contents in Hl'. rewrite length_fbytes in Hl'. unfold is_u32 in Hu. lia. }
  assert (Hne : nents ip' = Nat.max (nents ip) (S k)).
  { unfold nents at 1. rewrite Hsz. replace (Z.to_nat (16 * Z.of_nat (nents ip `max` S k))) with ((nents ip `max` S k) * 16)%nat by lia. by rewrite Nat.div_mul. }
  split; [|done|..].
  - destruct (wn_meta _ _ _ _ _ _ _ Hw) as (a & z & Hm). split; [by rewrite Hm|by rewrite Hne|].
    rewrite Hc. unfold splice. apply Forall_app. split; [by apply Forall_take|]. apply Forall_app. split; [by apply new_dent_bytes|by apply Forall_drop].
  - replace (dent c' ip' k) with (new_dent inum name); [by apply new_dent_spec|]. unfold dent. rewrite <- slice_contents by lia.
    rewrite Hc. pose proof (slice_splice_at (16 * k) (new_dent inum name) (contents c ip) ltac:(lia)) as E.
    rewrite length_new_dent in E. by rewrite E.
  - intros k' Hk' Hkk. unfold dent. rewrite <- !slice_contents by lia. rewrite Hc. destruct (decide (k' < k)%nat).
    + apply slice_splice_before; lia.
    + apply slice_splice_other; rewrite length_new_dent; lia.
Qed.

(** A name that was not there is found where it was put. *)
Lemma linked_first_hit c ip k inum name c' ip' : linked c ip k inum name c' ip' -> inum <> 0 -> (k <= nents ip)%nat ->
  (forall k, (k < nents ip)%nat -> ~ hit c ip name k) -> first_hit c' ip' name k.
Proof.
  intros [L1 L2 [L3 L3'] L4] Hn Hk Hno. split; [lia|]. split; [by split; [rewrite L3|]|]. intros k' Hk' [H1 H2].
  rewrite L4 in H1, H2 by lia. by apply (Hno k'); [lia|].
Qed.

Section dir_theorems.
Context {T : Type} `{TxStoreOk T} {lim : nat} `{!TxLimit lim}.
Context (mypid : Z) (fuel : nat) (Hfuel : (0 < fuel)%nat).
Context (dev_read : Z -> option (nat -> Z -> M (fs T) (Z * list Z))).
Context (dev_write : Z -> option (nat -> list Z -> Z -> M (fs T) Z)).
Implicit Types (s : fs T) (c : Z -> list Z).

(** [dirlookup] returns the inode of the first entry with the name, with a
    new reference and the offset of the entry, and nothing when no entry has
    the name.  It panics only when the inode is not cached and the cache is
    full. *)
Theorem dirlookup_correct s c p i ip name :
  has_file (lim := lim) s c p i ip -> dir_ok c ip -> name_ok name -> ic_lock s = false -> icache_ok (inodes s) ->
  (exists s', dirlookup dev_read i name s = Ret None s' /\ inodes s' = inodes s /\ srep lim (tx s') c p ∅ /\
     forall k, (k < nents ip)%nat -> ~ hit c ip name k) \/
  (exists k j s', dirlookup dev_read i name s = Ret (Some (j, 16 * Z.of_nat k)) s' /\ first_hit c ip name k /\
     got ROOTDEV (de_inum (dent c ip k)) (inodes s) (inodes s') j /\ srep lim (tx s') c p ∅) \/
  (exists k s', dirlookup dev_read i name s = Panic "iget: no inodes" s' /\ first_hit c ip name k /\
     forall j jp, inodes s !! j = Some jp -> 0 < i_ref jp).
Proof.
  intros [Hs Hd Ho Hi Hty] Hdir Hnm Hl Hok.
  set (Q := fun (r : option (nat * Z)) s' => srep lim (tx s') c p ∅ /\ match r with
    | None => inodes s' = inodes s /\ forall k, (k < nents ip)%nat -> ~ hit c ip name k
    | Some (j, o) => exists k, o = 16 * Z.of_nat k /\ first_hit c ip name k /\ got ROOTDEV (de_inum (dent c ip k)) (inodes s) (inodes s') j
    end).
  assert (HQ : wp (may_panic "iget: no inodes" (exists k, first_hit c ip name k /\ forall j jp, inodes s !! j = Some jp -> 0 < i_ref jp))
    (dirlookup dev_read i name) s Q).
  { rewrite <- (wfs_id s). eapply wp_dirlookup; [reflexivity|exact Hs|exact Hd|exact Ho|exact Hi|exact Hdir|exact Hnm| |].
    - intros Hno e' Hs'. split; [exact Hs'|]. split; [reflexivity|exact Hno].
    - intros k Hk e' Hs'. apply wp_iget; [exact Hl|exact Hok| | |].
      + intros j jp Hj Hr Hdv Hn. split; [exact Hs'|]. exists k. split_and!; [done|exact Hk|by econstructor].
      + intros Hno j jp Hj Hr. split; [exact Hs'|]. exists k. split_and!; [done|exact Hk|by eapply got_new].
      + intros Hfull _. split; [reflexivity|]. by exists k. }
  apply wp_may_panic in HQ as [([[j o]|] & s' & E & Hs' & HQ)|[[s' E] (k & Hk & Hfull)]].
  - right; left. destruct HQ as (k & -> & Hk & Hg). by exists k, j, s'.
  - left. destruct HQ as [Hi' Hno]. by exists s'.
  - right; right. by exists k, s'.
Qed.

(** C18: [dirlink] then [dirlookup]: for a name that the directory does not have
    and room on the disk and in the cache, [dirlink] returns 0 and the name is
    found afterwards, in the first free entry or at the end, as the inode that
    was linked; no other entry changes. *)
Theorem dirlink_dirlookup s c p i ip name inum j0 jp0 :
  has_file (lim := lim) s c p i ip -> dir_ok c ip -> name_ok name -> ic_lock s = false -> icache_ok (inodes s) ->
  0 < inum < 2 ^ 16 -> (size p + 5 <= lim)%nat -> enough (sb s) c 2 -> i_size ip < Z.of_nat (MAXFILE * BSIZE) ->
  (forall k, (k < nents ip)%nat -> ~ hit c ip name k) -> inodes s !! j0 = Some jp0 -> i_ref jp0 = 0 -> j0 <> i ->
  exists s1 k c' p' ip' j s2,
    dirlink mypid fuel dev_read dev_write i name inum s = Ret 0 s1 /\ free_slot c ip k /\
    has_file (lim := lim) s1 c' p' i ip' /\ linked c ip k inum name c' ip' /\ written (sb s) c ip (16 * k) (new_dent inum name) c' ip' /\
    dirlookup dev_read i name s1 = Ret (Some (j, 16 * Z.of_nat k)) s2 /\ got ROOTDEV inum (inodes s1) (inodes s2) j.
Proof.
  intros [Hs Hd Ho Hi Hty] Hdir Hnm Hl Hok Hn Hp Hen Hsz Hno Hj0 Hr0 Hne.
  destruct (wp_strict (dirlink mypid fuel dev_read dev_write i name inum) (wfs s (tx s)) (fun r s1 => r = 0 /\
    exists k e' c' p' ip', s1 = wfs (wip s i ip') e' /\ free_slot c ip k /\ srep lim e' c' p' ∅ /\
      written (sb s) c ip (16 * k) (new_dent inum name) c' ip')) as (r & s1 & E1 & -> & k & e1 & c1 & p1 & ip1 & -> & Hk & Hs1 & Hw).
  { eapply wp_dirlink; [reflexivity|exact Hs|exact Hd|exact Ho|exact Hi|exact Hdir|exact Hnm|exact Hp| | | |].
    - intros k e' (H1 & H2 & _). by destruct (Hno k H1).
    - intros _ k e' c' p' ip' Hk Hs' Hw _. split; [reflexivity|]. by exists k, e', c', p', ip'.
    - intros Hno'. by apply Hno'.
    - lia. }
  rewrite wfs_id in E1. assert (Hlk := written_linked (sb s) c ip k inum name c1 ip1 Hdir (proj1 Hk) ltac:(lia) Hnm Hw).
  assert (Hh := linked_first_hit _ _ _ _ _ _ _ Hlk ltac:(lia) (proj1 Hk) Hno).
  destruct (wn_meta _ _ _ _ _ _ _ Hw) as (a & z & Hm). set (s1 := wip s i ip1) in *.
  assert (Hi1 : inodes s1 !! i = Some ip1) by (by eapply wip_lookup).
  assert (Hok1 : icache_ok (inodes s1)).
  { eapply icache_same; [exact Hok|exact Hi|..]; rewrite Hm; simpl; try done; [by eapply ic_ref|by eapply ic_spin]. }
  destruct (wp_strict (dirlookup dev_read i name) (wfs s1 e1) (fun r s2 => exists j, r = Some (j, 16 * Z.of_nat k) /\
    got ROOTDEV inum (inodes s1) (inodes s2) j)) as (r & s2 & E2 & j & -> & Hg).
  { eapply wp_dirlookup; [reflexivity|exact Hs1|apply Hw|apply Hw|exact Hi1|apply Hlk|exact Hnm| |].
    - intros Hno'. by destruct (Hno' k); [apply Hh|apply Hh].
    - intros k' Hk' e' Hs'. assert (k' = k) as -> by (by eapply first_hit_unique).
      rewrite (proj1 (lk_new _ _ _ _ _ _ _ Hlk)). apply wp_iget; [exact Hl|exact Hok1| | |].
      + intros j jp Hj Hr Hdv Hnum. exists j. split; [done|by econstructor].
      + intros Hno' j jp Hj Hr. exists j. split; [done|by eapply got_new].
      + intros Hfull _. assert (Hj1 : inodes s1 !! j0 = Some jp0) by (unfold s1; by rewrite wip_lookup_ne).
        specialize (Hfull j0 jp0 Hj1). lia. }
  exists (wfs s1 e1), k, c1, p1, ip1, j, s2. split_and!; try done.
  split; [exact Hs1|apply Hw|apply Hw|exact Hi1|by rewrite Hm].
Qed.

(** C22: [dirlink] of a name that designates the directory itself - linking a
    file as "." - never returns: [dirlink] drops the reference that [dirlookup]
    took with [iput], which waits for the lock of the directory, and the caller
    of [dirlink] is the one who holds it.  However often the process is woken
    with the lock held, it sleeps again. *)
Theorem dirlink_self_deadlock n s c p i ip name inum k :
  has_file (lim := lim) s c p i ip -> dir_ok c ip -> name_ok name -> ic_lock s = false -> icache_ok (inodes s) ->
  0 < i_ref ip -> Sleep.locked (i_lk ip) <> 0 -> first_hit c ip name k -> de_inum (dent c ip k) = i_inum ip -> (n <= fuel)%nat ->
  Sleep.waits (has_lk i) n (dirlink mypid fuel dev_read dev_write i name inum s).
Proof.
  intros [Hs Hd Ho Hi Hty] Hdir Hnm Hl Hok Hr Hlk Hk Hself Hn.
  destruct (wp_strict (dirlookup dev_read i name) (wfs s (tx s)) (fun r s1 => exists o e, r = Some (i, o) /\ s1 = wfs (wip s i (more_ref ip)) e))
    as (r & s1 & E & o & e1 & -> & ->).
  { eapply wp_dirlookup; [reflexivity|exact Hs|exact Hd|exact Ho|exact Hi|exact Hdir|exact Hnm| |].
    - intros Hno. by destruct (Hno k); [apply Hk|apply Hk].
    - intros k' Hk' e' Hs'. assert (k' = k) as -> by (by eapply first_hit_unique). rewrite Hself.
      assert (Hent : entry (inodes s) ROOTDEV (i_inum ip) i) by (exists ip; split_and!; [done|done|apply Ho|done]).
      apply wp_iget; [exact Hl|exact Hok| | |].
      + intros j jp Hj Hjr Hjd Hjn. assert (j = i) as -> by (eapply (ic_uniq _ Hok); [exact Hj|exact Hi|done|done|rewrite (fo_dev _ _ _ Ho); done|done]).
        exists (16 * Z.of_nat k), e'. split; [done|]. change (inodes (wfs s e') !! i) with (inodes s !! i) in Hj. by simplify_eq.
      + intros Hno. by destruct (Hno i).
      + intros _ Hno. by destruct (Hno i). }
  rewrite wfs_id in E. unfold dirlink. run E. unfold bind at 1. apply Sleep.waits_obind.
  apply (Sleep.acquiresleep_waits _ _ _ _ (put_lk i) (has_lk i) (ip_lk_rd i) (ip_lk_wr i)); [exact Hn|].
  exists (i_lk ip). split; [|split; [by eapply ic_spin|done]]. exists (more_ref ip). split; [by eapply wip_lookup|done].
Qed.
End dir_theorems.
