(* ===== verification/FsPath.v ===== *)
(** * Path names (fs.c)

    [skipelem] against the elements of a path, and [namex] against a walk along
    the directories on disk. *)

From S2P Require Import Prelude Params Bytes Str Sleeplock Block Fs FsBlock FsInode FsFile FsRw FsTrunc FsDir.

(** ** Elements of a path *)

(** The names between the slashes; [cur] is the one being read. *)
Fixpoint elems_from (path cur : list Z) : list (list Z) :=
  match path with
  | [] => if decide (cur = []) then [] else [cur]
  | c :: p =>
      if c =? SLASH then if decide (cur = []) then elems_from p [] else cur :: elems_from p []
      else elems_from p (cur ++ [c])
  end.
Definition elems (path : list Z) : list (list Z) := elems_from path [].

Lemma elems_slash path : elems (SLASH :: path) = elems path.
Proof. done. Qed.
Lemma skip_slashes_elems path : elems (skip_slashes path) = elems path.
Proof.
  induction path as [|c p IH]; [done|]. simpl. destruct (c =? SLASH) eqn:E; [|done]. apply Z.eqb_eq in E as ->. exact IH.
Qed.
Lemma skip_slashes_head path c p : skip_slashes path = c :: p -> c <> SLASH.
Proof.
  induction path as [|c' p' IH]; [done|]. simpl. destruct (c' =? SLASH) eqn:E; [done|]. intros [= -> ->]. lia.
Qed.
Lemma skip_slashes_length path : (length (skip_slashes path) <= length path)%nat.
Proof. induction path as [|c p IH]; simpl; [lia|]. case_match; simpl; lia. Qed.
Lemma skip_slashes_sub path x : x ∈ skip_slashes path -> x ∈ path.
Proof. induction path as [|c p IH]; simpl; [done|]. case_match; [|done]. intros Hx. right. auto. Qed.

Lemma path_elem_spec p : forall s r, path_elem p = (s, r) ->
  p = s ++ r /\ SLASH ∉ s /\ (r = [] \/ exists r', r = SLASH :: r') /\
  forall cur, cur ++ s <> [] -> elems_from p cur = (cur ++ s) :: elems r.
Proof.
  induction p as [|c p IH]; intros s r; simpl.
  - intros [= <- <-]. split_and!; [done|apply not_elem_of_nil|by left|]. intros cur. rewrite app_nil_r. intros Hc. by rewrite decide_False.
  - destruct (c =? SLASH) eqn:E.
    + intros [= <- <-]. apply Z.eqb_eq in E as ->. split_and!; [done|apply not_elem_of_nil|right; by eexists|].
      intros cur. rewrite app_nil_r. intros Hc. by rewrite decide_False.
    + destruct (path_elem p) as [s' r']. intros [= <- <-]. destruct (IH s' r' eq_refl) as (-> & H2 & H3 & H4). apply Z.eqb_neq in E.
      split_and!; [done|apply not_elem_of_cons; split; [by intros <-|done]|done|].
      intros cur _. rewrite (cons_middle c cur s') at 1. rewrite H4, <- app_assoc; [done|]. by destruct cur.
Qed.

(** The name array after [skipelem]. *)
Lemma nm_elem s rest : 0 ∉ s -> nm (if (DIRSIZ <=? length s)%nat then take DIRSIZ s else s ++ [0] ++ rest) = nm s.
Proof.
  intros Hz. assert (Hs : nm s = take DIRSIZ s).
  { unfold nm. pose proof (cstr_app_zeros s 0 Hz) as Hc. rewrite app_nil_r in Hc. by rewrite Hc. }
  rewrite Hs. destruct (DIRSIZ <=? length s)%nat eqn:E.
  - unfold nm. rewrite <- (app_nil_r (take DIRSIZ s)) at 1. change [] with (replicate 0 0). rewrite cstr_app_zeros.
    + rewrite take_take. done.
    + intros (i & Hi & _)%elem_of_take. by apply Hz, (list_elem_of_lookup_2 _ i).
  - unfold nm. assert (Hc : cstr (s ++ 0 :: rest) = s).
    { clear E Hs. induction s as [|x s IH]; [done|]. simpl. apply not_elem_of_cons in Hz as [H1 H2].
      rewrite (proj2 (Z.eqb_neq x 0)) by lia. by rewrite IH. }
    change ([0] ++ rest) with (0 :: rest). by rewrite Hc.
Qed.

(** A path and a name array. *)
Definition path_ok (path : list Z) : Prop := 0 ∉ path /\ Forall is_byte path.

Lemma skipelem_spec path name : path_ok path -> Forall is_byte name ->
  match skipelem path name with
  | None => elems path = []
  | Some (path', name') => exists e, elems path = e :: elems path' /\ nm name' = nm e /\ name_ok name' /\
      path_ok path' /\ (length path' < length path)%nat /\ (path' = [] <-> elems path' = [])
  end.
Proof.
  intros [Hz Hb] Hn. unfold skipelem. rewrite <- (skip_slashes_elems path). destruct (skip_slashes path) as [|c p] eqn:Esk; [done|].
  assert (Hlen := skip_slashes_length path). assert (Hsub := skip_slashes_sub path). rewrite Esk in Hlen, Hsub.
  assert (Hne := skip_slashes_head _ _ _ Esk). destruct (path_elem (c :: p)) as [s r] eqn:Epe.
  destruct (path_elem_spec _ _ _ Epe) as (Hp & Hs & Hr & He).
  assert (Hs0 : s <> []).
  { intros ->. destruct Hr as [->|[r' ->]]; [done|]. simpl in Hp. congruence. }
  assert (Hin : forall x, x ∈ s -> x ∈ path) by (intros x Hx; apply Hsub; rewrite Hp; set_solver).
  assert (Hinr : forall x, x ∈ r -> x ∈ path) by (intros x Hx; apply Hsub; rewrite Hp; set_solver).
  assert (Hsz : 0 ∉ s) by (intros Hx; by apply Hz, Hin).
  assert (Hsb : Forall is_byte s) by (apply Forall_forall; intros x Hx; rewrite Forall_forall in Hb; by apply Hb, Hin).
  exists s. split; [unfold elems at 1; rewrite (He [] Hs0), skip_slashes_elems; done|]. split; [by apply nm_elem|].
  split; [|split; [|split]].
  - destruct (DIRSIZ <=? length s)%nat eqn:E.
    + apply Nat.leb_le in E. split; [right; rewrite length_take; apply Nat.min_glb; [lia|exact E]|by apply Forall_take].
    + split; [left; unfold terminated; set_solver|]. apply Forall_app. split; [done|]. apply Forall_app. split; [|by apply Forall_drop].
      apply Forall_singleton. unfold is_byte. lia.
  - split; [intros Hx%skip_slashes_sub; by apply Hz, Hinr|]. apply Forall_forall. intros x Hx%skip_slashes_sub.
    rewrite Forall_forall in Hb. by apply Hb, Hinr.
  - pose proof (skip_slashes_length r). rewrite Hp, length_app in Hlen. destruct s; [done|]. simpl in *. lia.
  - split; [by intros ->|]. destruct (skip_slashes r) as [|c' p'] eqn:Er; [done|]. intros He'. exfalso.
    apply skip_slashes_head in Er. destruct (path_elem (c' :: p')) as [s' r'] eqn:Ep'. destruct (path_elem_spec _ _ _ Ep') as (Hp' & _ & Hr' & He2).
    unfold elems in He'. rewrite (He2 []) in He'; [done|]. intros Hs'. simpl in Hs'. subst s'. destruct Hr' as [->|[? ->]]; [done|]. simpl in Hp'. congruence.
Qed.

(** ** The walk along the directories *)

Section walk.
Context {T : Type} `{TxStoreOk T}.
Context (sbk : superblock).
Implicit Types (c : Z -> list Z) (l : list inode).

(** Inode [n] as the disk has it. *)
Definition dino c (n : Z) : inode := from_disk sbk c (new_inode 0 n).
Definition lookup_dir c (dp : inode) (name : list Z) : option Z :=
  (fun x => de_inum (dent c dp x.2)) <$> list_find (hit c dp name) (seq 0 (nents dp)).

(** The inode that a path designates from [n]; with [parent], the one before
    the last element. *)
Fixpoint walk c (parent : bool) (n : Z) (es : list (list Z)) : option Z :=
  match es with
  | [] => if parent then None else Some n
  | e :: es =>
      if i_type (dino c n) =? T_DIR then
        if parent && match es with [] => true | _ => false end then Some n
        else m ← lookup_dir c (dino c n) e; walk c parent m es
      else None
  end.

Lemma lookup_dir_hit c dp name k : first_hit c dp name k -> lookup_dir c dp name = Some (de_inum (dent c dp k)).
Proof.
  intros (Hk & Hh & Hmin). unfold lookup_dir. rewrite (proj2 (list_find_Some _ _ k k)); [done|].
  split_and!; [rewrite lookup_seq_lt by done; f_equal; lia|done|].
  intros j y Hj Hlt. apply lookup_seq in Hj as [-> _]. by apply Hmin.
Qed.
Lemma lookup_dir_none c dp name : (forall k, (k < nents dp)%nat -> ~ hit c dp name k) -> lookup_dir c dp name = None.
Proof.
  intros Hno. unfold lookup_dir. rewrite (proj2 (list_find_None _ _)); [done|]. apply Forall_forall. intros k Hk%elem_of_seq. apply Hno. lia.
Qed.

(** What depends on the fields on disk only. *)
Record same_content (ip jp : inode) : Prop := {
  sc_type : i_type ip = i_type jp;
  sc_size : i_size ip = i_size jp;
  sc_addrs : i_addrs ip = i_addrs jp;
}.
Lemma sc_slot c ip jp k : same_content ip jp -> slot c ip k = slot c jp k.
Proof. intros [_ _ Ha]. by apply slot_ext. Qed.
Lemma sc_fbytes c ip jp o n : same_content ip jp -> fbytes c ip o n = fbytes c jp o n.
Proof. intros Hs. unfold fbytes. apply list_fmap_ext. intros i x _. unfold fbyte. by rewrite (sc_slot c ip jp _ Hs). Qed.
Lemma sc_nents ip jp : same_content ip jp -> nents ip = nents jp.
Proof. intros [_ Hs _]. unfold nents. by rewrite Hs. Qed.
Lemma sc_hit c ip jp name name' k : same_content ip jp -> nm name = nm name' -> hit c ip name k <-> hit c jp name' k.
Proof. intros Hs Hn. unfold hit, dent. by rewrite (sc_fbytes c ip jp _ _ Hs), Hn. Qed.
Lemma sc_first_hit c ip jp name name' k : same_content ip jp -> nm name = nm name' -> first_hit c ip name k -> first_hit c jp name' k.
Proof.
  intros Hs Hn (H1 & H2 & H3). rewrite (sc_nents ip jp Hs) in H1. split; [done|]. split; [by apply (sc_hit c ip jp name name' k Hs Hn)|].
  intros k' Hk' Hh. apply (H3 k' Hk'). by apply (sc_hit c ip jp name name' k' Hs Hn).
Qed.
Lemma sc_dir_ok c ip jp : same_content ip jp -> dir_ok c jp -> dir_ok c ip.
Proof.
  intros Hs [H1 H2 H3]. split; [by rewrite (sc_type _ _ Hs)|by rewrite (sc_size _ _ Hs), (sc_nents _ _ Hs)|].
  unfold contents. by rewrite (sc_fbytes c ip jp _ _ Hs), (sc_size _ _ Hs).
Qed.

(** The directories on disk are in order: entries name inodes in use that have
    links. *)
Record tree_ok c : Prop := {
  tr_file n : 0 < n < sb_ninodes sbk -> dtype sbk c n <> 0 -> file_ok sbk c (dino c n);
  tr_dir n : 0 < n < sb_ninodes sbk -> i_type (dino c n) = T_DIR -> dir_ok c (dino c n);
  tr_entry n k : 0 < n < sb_ninodes sbk -> i_type (dino c n) = T_DIR -> (k < nents (dino c n))%nat ->
    let m := de_inum (dent c (dino c n) k) in
    m <> 0 -> 0 < m < sb_ninodes sbk /\ dtype sbk c m <> 0 /\ i_nlink (dino c m) <> 0;
}.

(** Entries with the same fields on disk. *)
Definition same_disk (ip jp : inode) : Prop := with_disk ip jp = jp /\ i_inum ip = i_inum jp.
Lemma from_disk_with c ip jp : i_inum ip = i_inum jp -> from_disk sbk c jp = with_disk (from_disk sbk c ip) jp.
Proof. intros Hn. unfold from_disk. by rewrite Hn. Qed.
Lemma synced_ext c ip jp : same_disk ip jp -> from_disk sbk c ip = ip -> from_disk sbk c jp = jp.
Proof. intros [Hw Hn] Hs. by rewrite (from_disk_with c ip jp Hn), Hs. Qed.

(** An entry of the cache: it is not locked; in use, it is for an inode of the
    disk, and has its fields if it is valid. *)
Definition entry_ok c (ip : inode) : Prop := idle ip /\ (0 < i_ref ip ->
  i_dev ip = ROOTDEV /\ 0 < i_inum ip < sb_ninodes sbk /\ dtype sbk c (i_inum ip) <> 0 /\
  (i_valid ip <> 0 -> from_disk sbk c ip = ip)).
Record cache_good c l : Prop := {
  cg_ok : icache_ok l;
  cg_entry i ip : l !! i = Some ip -> entry_ok c ip;
}.

(** References are as in [l0], plus one for entry [j]. *)
Definition refs_plus l0 l (j : option nat) : Prop :=
  length l = length l0 /\ forall i ip0 ip, l0 !! i = Some ip0 -> l !! i = Some ip ->
    i_ref ip = i_ref ip0 + (if decide (j = Some i) then 1 else 0) /\ (0 < i_ref ip0 -> i_inum ip = i_inum ip0).

(** The walk stands at inode [n], entry [j]. *)
Record stands c l0 l (j : nat) (n : Z) : Prop := {
  sd_good : cache_good c l;
  sd_entry : entry l ROOTDEV n j;
  sd_refs : refs_plus l0 l (Some j);
  sd_live ip : l !! j = Some ip -> i_nlink (dino c n) <> 0 \/ 2 <= i_ref ip;
}.

Lemma refs_plus_set l0 l j i ip x : refs_plus l0 l j -> l !! i = Some ip -> i_ref x = i_ref ip -> i_inum x = i_inum ip ->
  refs_plus l0 (<[i := x]> l) j.
Proof.
  intros [Hl Hr] Hi H1 H2. split; [by rewrite length_insert|]. intros k kp0 kp Hk0 [(<- & -> & _)|[_ Hk]]%list_lookup_insert_Some; [|eauto].
  rewrite H1, H2. eauto.
Qed.
(** A reference of [i] is dropped, or taken. *)
Lemma refs_plus_drop l0 l i ip x : refs_plus l0 l (Some i) -> l !! i = Some ip -> i_ref x = i_ref ip - 1 -> i_inum x = i_inum ip ->
  refs_plus l0 (<[i := x]> l) None.
Proof.
  intros [Hl Hr] Hi H1 H2. split; [by rewrite length_insert|]. intros k kp0 kp Hk0 Hk. rewrite (decide_False (P := None = Some k)) by done.
  apply list_lookup_insert_Some in Hk as [(<- & -> & _)|[Hne Hk]].
  - destruct (Hr i kp0 ip Hk0 Hi) as [H3 H4]. rewrite decide_True in H3 by done. rewrite H1, H2. split; [lia|done].
  - destruct (Hr k kp0 kp Hk0 Hk) as [H3 H4]. by rewrite decide_False in H3 by congruence.
Qed.
Lemma refs_plus_take l0 l i ip x : refs_plus l0 l None -> l !! i = Some ip -> i_ref x = i_ref ip + 1 ->
  (0 < i_ref ip -> i_inum x = i_inum ip) -> refs_plus l0 (<[i := x]> l) (Some i).
Proof.
  intros [Hl Hr] Hi H1 H2. split; [by rewrite length_insert|]. intros k kp0 kp Hk0 Hk.
  apply list_lookup_insert_Some in Hk as [(<- & -> & _)|[Hne Hk]].
  - destruct (Hr i kp0 ip Hk0 Hi) as [H3 H4]. rewrite (decide_False (P := None = Some i)) in H3 by done. rewrite decide_True by done.
    split; [lia|]. intros Hpos. rewrite H2 by lia. auto.
  - destruct (Hr k kp0 kp Hk0 Hk) as [H3 H4]. rewrite (decide_False (P := None = Some k)) in H3 by done. rewrite decide_False by congruence. done.
Qed.

Lemma cache_good_set c l i ip x : cache_good c l -> l !! i = Some ip -> entry_ok c x -> 0 <= i_ref x ->
  (0 < i_ref x -> 0 < i_ref ip) -> i_dev x = i_dev ip -> i_inum x = i_inum ip -> cache_good c (<[i := x]> l).
Proof.
  intros [H1 H2] Hi Hx Hr Hpos Hd Hn. split; [eapply icache_same; [done|done|done|apply Hx|done|done|done]|].
  intros k kp [(<- & -> & _)|[_ Hk]]%list_lookup_insert_Some; eauto.
Qed.

Lemma cache_good_got c l l' m j : cache_good c l -> got ROOTDEV m l l' j -> 0 < m < sb_ninodes sbk -> dtype sbk c m <> 0 ->
  cache_good c l' /\ entry l' ROOTDEV m j /\ forall l0, refs_plus l0 l None -> refs_plus l0 l' (Some j).
Proof.
  intros Hg Hgot Hm Ht. destruct (got_ok _ _ _ _ _ (cg_ok _ _ Hg) Hgot) as (Hok & He & _). split_and!; [|done|].
  - split; [done|]. intros k kp Hk. destruct Hgot as [ip Hi Hr Hd Hn ->|ip Hno Hi Hr ->];
      apply list_lookup_insert_Some in Hk as [(<- & <- & _)|[_ Hk]]; try by eapply cg_entry.
    + destruct (cg_entry _ _ Hg _ _ Hi) as [H1 H2]. split; [done|]. intros _. destruct (H2 Hr) as (A & B & C & D). split; [exact A|]. split; [exact B|]. split; [exact C|].
      intros Hv. simpl in Hv. by apply (synced_ext c ip), D.
    + destruct (cg_entry _ _ Hg _ _ Hi) as [H1 _]. split; [done|]. intros _. simpl. split_and!; try done; try lia.
  - intros l0 Hr0. destruct Hgot as [ip Hi Hr Hd Hn ->|ip Hno Hi Hr ->]; eapply refs_plus_take; [done|done|simpl; lia|done|done|done|simpl; lia|lia].
Qed.

(** The entry after [ilock]. *)
Definition at_lock (mypid : Z) c (ip : inode) : inode := locked_by mypid (loaded sbk c ip).

Lemma from_disk_dino c y : from_disk sbk c y = with_disk (dino c (i_inum y)) y.
Proof. by apply (from_disk_with c (new_inode 0 (i_inum y))). Qed.

Lemma lock_with mypid d ip : (i_valid ip <> 0 -> with_disk d ip = ip) ->
  let x := locked_by mypid (if i_valid ip =? 0 then (with_disk d ip) <| i_valid := 1 |> else ip) in
  with_disk d x = x /\ i_ref x = i_ref ip /\ i_inum x = i_inum ip /\ i_dev x = i_dev ip.
Proof.
  intros Hsy. destruct (i_valid ip =? 0) eqn:E; [by repeat split|]. apply Z.eqb_neq in E. simpl.
  split; [rewrite <- (Hsy E) at 2; reflexivity|by repeat split].
Qed.

Lemma with_disk_same d x : with_disk d x = x -> same_content x d /\ i_nlink x = i_nlink d.
Proof. intros Hw. rewrite <- Hw. by repeat split. Qed.
Lemma with_disk_typed d x : with_disk d x = x -> typed d -> typed x.
Proof. intros Hw []. rewrite <- Hw. by split. Qed.
Lemma with_disk_file c d x : with_disk d x = x -> i_inum x = i_inum d -> i_dev x = ROOTDEV -> file_ok sbk c d -> file_ok sbk c x.
Proof.
  intros Hw Hn Hd [O1 O2 O3 O4 O5 O6 O7]. destruct (with_disk_same d x Hw) as [Hsc _]. split.
  - by eapply with_disk_typed.
  - done.
  - by rewrite Hn.
  - by rewrite (sc_size _ _ Hsc).
  - intros k. rewrite (sc_slot c _ _ k Hsc). apply O5.
  - intros k k'. rewrite !(sc_slot c _ _ _ Hsc). apply O6.
  - intros k. rewrite (sc_slot c _ _ k Hsc), (sc_size _ _ Hsc). apply O7.
Qed.

Lemma at_lock_spec mypid c ip : tree_ok c -> entry_ok c ip -> 0 < i_ref ip -> let x := at_lock mypid c ip in
  let n := i_inum ip in
  same_content x (dino c n) /\ i_nlink x = i_nlink (dino c n) /\ file_ok sbk c x /\ i_ref x = i_ref ip /\
  i_inum x = n /\ i_dev x = ROOTDEV /\ from_disk sbk c x = x.
Proof.
  intros Htr [Hidle Huse] Hr x n. destruct (Huse Hr) as (Hd & Hn & Ht & Hsy). pose proof (tr_file _ Htr n Hn Ht) as Ho.
  rewrite from_disk_dino in Hsy. destruct (lock_with mypid (dino c n) ip Hsy) as (Hw & Hrx & Hnx & Hdx).
  assert (Ex : locked_by mypid (if i_valid ip =? 0 then (with_disk (dino c n) ip) <| i_valid := 1 |> else ip) = x)
    by (unfold x, at_lock, loaded, n; by rewrite from_disk_dino).
  rewrite Ex in Hw, Hrx, Hnx, Hdx. clearbody x. destruct (with_disk_same _ _ Hw) as [Hsc Hlk].
  split; [exact Hsc|]. split; [exact Hlk|]. split; [|split; [exact Hrx|]; split; [exact Hnx|]; split; [congruence|]].
  - eapply with_disk_file; [exact Hw|exact Hnx|congruence|exact Ho].
  - rewrite from_disk_dino, Hnx. exact Hw.
Qed.

(** The entry after [iunlockput]. *)
Lemma dropped_ok c x : i_dev x = ROOTDEV -> 0 < i_inum x < sb_ninodes sbk -> dtype sbk c (i_inum x) <> 0 -> from_disk sbk c x = x ->
  Sleep.spin (i_lk x) = false -> entry_ok c (dropped (unlocked x)).
Proof.
  intros Hd Hn Ht Hs Hsp. split; [done|]. intros _. split; [exact Hd|]. split; [exact Hn|]. split; [exact Ht|].
  intros _. by apply (synced_ext c x).
Qed.
End walk.

(** ** [namex] *)

Section namex.
Context {T : Type} `{TxStoreOk T} {lim : nat} `{!TxLimit lim}.
Context (sbk : superblock).
Notation F := (fs T).
Notation srep := (srep lim).
Context (mypid : Z) (fuel : nat) (Hfuel : (0 < fuel)%nat).
Context (dev_read : Z -> option (nat -> Z -> M F (Z * list Z))).
Context (P : prot F) (c : Z -> list Z) (p : gset Z) (l0 : list inode).
Context (Hd : disk_ok sbk c) (Htr : tree_ok sbk c).
(** Two entries of the cache are free. *)
Context (a b : nat) (Hab : a <> b) (Ha : exists ip, l0 !! a = Some ip /\ i_ref ip = 0) (Hb : exists ip, l0 !! b = Some ip /\ i_ref ip = 0).
Implicit Types s : F.

Lemma spare l j : refs_plus l0 l (Some j) -> exists k kp, k <> j /\ l !! k = Some kp /\ i_ref kp = 0.
Proof.
  intros [Hl Hr].
  assert (Hfind : forall k, k <> j -> (exists ip, l0 !! k = Some ip /\ i_ref ip = 0) -> exists kp, l !! k = Some kp /\ i_ref kp = 0).
  { intros k Hk (ip & Hi & Hri). destruct (lookup_lt_is_Some_2 l k) as [kp Hkp]; [rewrite Hl; by eapply lookup_lt_Some|].
    exists kp. split; [done|]. destruct (Hr k ip kp Hi Hkp) as [E _]. rewrite decide_False in E by congruence. lia. }
  destruct (decide (a = j)) as [->|Hne].
  - destruct (Hfind b) as (kp & ? & ?); [done|done|]. by exists b, kp.
  - destruct (Hfind a) as (kp & ? & ?); [done|done|]. by exists a, kp.
Qed.

(** The current inode, locked. *)
Record locked_at (l : list inode) (j : nat) (n : Z) (ip x : inode) : Prop := {
  la_stands : stands sbk c l0 l j n;
  la_ip : l !! j = Some ip;
  la_x : x = at_lock sbk mypid c ip;
  la_content : same_content x (dino sbk c n);
  la_nlink : i_nlink x = i_nlink (dino sbk c n);
  la_file : file_ok sbk c x;
  la_ref : i_ref x = i_ref ip;
  la_pos : 0 < i_ref ip;
  la_inum : i_inum x = n;
  la_inum' : i_inum ip = n;
  la_dev : i_dev x = ROOTDEV;
  la_dev' : i_dev ip = ROOTDEV;
  la_sync : from_disk sbk c x = x;
  la_range : 0 < n < sb_ninodes sbk;
  la_type : dtype sbk c n <> 0;
  la_spin : Sleep.spin (i_lk x) = false;
  la_locked : Sleep.locked (i_lk x) = 1;
}.

Lemma at_lock_lk ip : i_lk (at_lock sbk mypid c ip) = (i_lk ip) <| Sleep.locked := 1 |> <| Sleep.pid := mypid |>.
Proof. unfold at_lock, loaded. by destruct (i_valid ip =? 0). Qed.

Lemma wp_lock_current s e j n (Q : unit -> F -> Prop) :
  sb s = sbk -> srep e c p ∅ -> stands sbk c l0 (inodes s) j n ->
  (forall e' ip x, srep e' c p ∅ -> locked_at (inodes s) j n ip x -> Q tt (wfs (wip s j x) e')) ->
  wp P (ilock mypid fuel j) (wfs s e) Q.
Proof.
  intros Hsb Hs Hst HQ. destruct (sd_entry _ _ _ _ _ _ Hst) as (ip & Hi & Hr & Hdev & Hn).
  pose proof (cg_entry _ _ _ (sd_good _ _ _ _ _ _ Hst) _ _ Hi) as Hent. destruct Hent as [Hidle Huse].
  destruct (Huse Hr) as (_ & Hrange & Hty & _). rewrite Hn in Hrange, Hty.
  eapply wp_ilock; [exact Hs|exact Hi|exact Hdev|lia|apply Hidle|apply Hidle|exact Hfuel| |apply lookup_empty|rewrite map_size_empty; lia| |].
  - rewrite Hsb, Hn. apply (dk_inodes _ _ Hd). lia.
  - intros _ Ht0. exfalso. apply Hty. rewrite <- Hn, dtype_from_disk, <- Hsb. exact Ht0.
  - intros _ e' Hs'. rewrite Hsb. apply (HQ e' ip (at_lock sbk mypid c ip)); [exact Hs'|].
    destruct (at_lock_spec sbk mypid c ip Htr (conj Hidle Huse) Hr) as (A1 & A2 & A3 & A4 & A5 & A6 & A7). rewrite Hn in A1, A2, A5.
    split; try assumption; [reflexivity| |]; rewrite at_lock_lk; [apply Hidle|reflexivity].
Qed.

(** The current inode is given up. *)
Lemma drop_current l j n ip x : locked_at l j n ip x ->
  cache_good sbk c (<[j := dropped (unlocked x)]> l) /\ refs_plus l0 (<[j := dropped (unlocked x)]> l) None.
Proof using Type.
  clear Hfuel Hab Ha Hb.
  intros L. split.
  - eapply cache_good_set; [apply (sd_good _ _ _ _ _ _ (la_stands _ _ _ _ _ L))|apply (la_ip _ _ _ _ _ L)| | | | |].
    + apply dropped_ok; [apply (la_dev _ _ _ _ _ L)| | |apply (la_sync _ _ _ _ _ L)|apply (la_spin _ _ _ _ _ L)]; rewrite (la_inum _ _ _ _ _ L);
        [apply (la_range _ _ _ _ _ L)|apply (la_type _ _ _ _ _ L)].
    + simpl. pose proof (la_ref _ _ _ _ _ L). pose proof (la_pos _ _ _ _ _ L). lia.
    + intros _. apply (la_pos _ _ _ _ _ L).
    + simpl. rewrite (la_dev _ _ _ _ _ L). symmetry. apply (la_dev' _ _ _ _ _ L).
    + simpl. rewrite (la_inum _ _ _ _ _ L). symmetry. apply (la_inum' _ _ _ _ _ L).
  - eapply refs_plus_drop; [apply (sd_refs _ _ _ _ _ _ (la_stands _ _ _ _ _ L))|apply (la_ip _ _ _ _ _ L)| |]; simpl.
    + by rewrite (la_ref _ _ _ _ _ L).
    + rewrite (la_inum _ _ _ _ _ L). symmetry. apply (la_inum' _ _ _ _ _ L).
Qed.

Lemma not_dying l j n ip x : locked_at l j n ip x -> ~ dying x.
Proof using Type.
  clear Hfuel Hab Ha Hb.
  intros L (_ & H1 & H2). rewrite (la_nlink _ _ _ _ _ L) in H1. rewrite (la_ref _ _ _ _ _ L) in H2.
  destruct (sd_live _ _ _ _ _ _ (la_stands _ _ _ _ _ L) ip (la_ip _ _ _ _ _ L)); [done|lia].
Qed.

Lemma wp_unlockput_current s e j n ip x (Q : unit -> F -> Prop) :
  ic_lock s = false -> locked_at (inodes s) j n ip x ->
  Q tt (wfs (wip s j (dropped (unlocked x))) e) -> wp P (iunlockput mypid fuel j) (wfs (wip s j x) e) Q.
Proof using Hfuel.
  clear Hab Ha Hb.
  intros Hl L HQ. eapply wp_iunlockput_keep; [exact Hfuel|exact Hl| |apply (la_spin _ _ _ _ _ L)| | |by eapply not_dying|].
  - eapply wip_lookup. apply (la_ip _ _ _ _ _ L).
  - rewrite (la_locked _ _ _ _ _ L). lia.
  - rewrite (la_ref _ _ _ _ _ L). pose proof (la_pos _ _ _ _ _ L). lia.
  - change (Q tt (wfs (wip (wip s j x) j (dropped (unlocked x))) e)). by rewrite wip_wip.
Qed.

(** [dirlookup] took entry [j2] for inode [m] and the current inode was given
    up: the walk stands at [m]. *)
Lemma step_to_other l j n ip x m l2 j2 : locked_at l j n ip x -> got ROOTDEV m (<[j := x]> l) l2 j2 -> j2 <> j ->
  0 < m < sb_ninodes sbk -> dtype sbk c m <> 0 -> i_nlink (dino sbk c m) <> 0 ->
  l2 !! j = Some x /\ stands sbk c l0 (<[j := dropped (unlocked x)]> l2) j2 m.
Proof.
  intros L Hgot Hne Hm Ht Hlk. pose proof (la_ip _ _ _ _ _ L) as Hi. assert (Hlt := lookup_lt_Some _ _ _ Hi).
  destruct (drop_current _ _ _ _ _ L) as [Hg Hr]. set (y := dropped (unlocked x)) in *.
  assert (Hgot' : l2 !! j = Some x /\ got ROOTDEV m (<[j := y]> l) (<[j := y]> l2) j2).
  { destruct Hgot as [z Hz Hzr Hzd Hzn ->|z Hno Hz Hzr ->]; (split; [by rewrite list_lookup_insert_ne, list_lookup_insert_eq|]);
      rewrite list_lookup_insert_ne in Hz by congruence; rewrite list_insert_insert_ne by congruence; rewrite list_insert_insert_eq.
    - eapply got_cached; [rewrite list_lookup_insert_ne by congruence; exact Hz|exact Hzr|exact Hzd|exact Hzn|reflexivity].
    - eapply got_new; [|rewrite list_lookup_insert_ne by congruence; exact Hz|exact Hzr|reflexivity].
      intros k (kp & Hk & Hkr & Hkd & Hkn). apply (Hno k). apply list_lookup_insert_Some in Hk as [(<- & <- & _)|[Hk1 Hk2]].
      + exists x. rewrite list_lookup_insert_eq by done. unfold y in *. simpl in *. split_and!; [done|lia|done|done].
      + exists kp. by rewrite list_lookup_insert_ne. }
  destruct Hgot' as [Hx Hgot']. split; [exact Hx|]. destruct (cache_good_got _ _ _ _ _ _ Hg Hgot' Hm Ht) as (G1 & G2 & G3).
  split; [exact G1|exact G2|by apply G3|]. intros kp _. by left.
Qed.

Lemma step_to_same l j n ip x m l2 : locked_at l j n ip x -> got ROOTDEV m (<[j := x]> l) l2 j ->
  i_nlink (dino sbk c m) <> 0 ->
  l2 !! j = Some (more_ref x) /\ stands sbk c l0 (<[j := dropped (unlocked (more_ref x))]> l2) j m.
Proof.
  intros L Hgot Hlk. pose proof (la_ip _ _ _ _ _ L) as Hi. assert (Hlt := lookup_lt_Some _ _ _ Hi).
  pose proof (la_ref _ _ _ _ _ L) as Hr. pose proof (la_pos _ _ _ _ _ L) as Hpos.
  assert (E : m = n /\ l2 = <[j := more_ref x]> l).
  { destruct Hgot as [z Hz Hzr Hzd Hzn ->|z Hno Hz Hzr ->]; rewrite list_lookup_insert_eq in Hz by done; injection Hz as <-.
    - split; [rewrite <- Hzn; apply (la_inum _ _ _ _ _ L)|by rewrite list_insert_insert_eq].
    - lia. }
  destruct E as [-> ->]. split; [by apply list_lookup_insert_eq|]. rewrite list_insert_insert_eq.
  set (y := dropped (unlocked (more_ref x))).
  assert (Hy : i_ref y = i_ref ip /\ i_inum y = n /\ i_dev y = ROOTDEV).
  { unfold y. simpl. split; [lia|]. split; [apply (la_inum _ _ _ _ _ L)|apply (la_dev _ _ _ _ _ L)]. }
  assert (Hok : entry_ok sbk c y).
  { apply dropped_ok; simpl; rewrite ?(la_inum _ _ _ _ _ L);
      [apply (la_dev _ _ _ _ _ L)|apply (la_range _ _ _ _ _ L)|apply (la_type _ _ _ _ _ L)| |apply (la_spin _ _ _ _ _ L)].
    by eapply (synced_ext sbk c x), (la_sync _ _ _ _ _ L). }
  clearbody y. destruct Hy as (Hy1 & Hy2 & Hy3). pose proof (la_stands _ _ _ _ _ L) as Hst. split.
  - eapply cache_good_set; [apply (sd_good _ _ _ _ _ _ Hst)|exact Hi|exact Hok|lia|lia|rewrite Hy3; symmetry; apply (la_dev' _ _ _ _ _ L)|].
    rewrite Hy2. symmetry. apply (la_inum' _ _ _ _ _ L).
  - exists y. rewrite list_lookup_insert_eq by done. split_and!; [done|lia|done|done].
  - eapply refs_plus_set; [apply (sd_refs _ _ _ _ _ _ Hst)|exact Hi|exact Hy1|]. rewrite Hy2. symmetry. apply (la_inum' _ _ _ _ _ L).
  - intros kp _. by left.
Qed.

(** ** The loop *)

(** What [namex] leaves: the disk and the directories as they were, and the
    reference to the inode of the walk if there is one; with [parent], the name
    array has the last element of the path. *)
Record reached (parent : bool) (n : Z) (es : list (list Z)) (r : option nat * list Z) s' : Prop := {
  re_sb : sb s' = sbk;
  re_lock : ic_lock s' = false;
  re_disk : srep (tx s') c p ∅;
  re_cache : cache_good sbk c (inodes s');
  re_refs : refs_plus l0 (inodes s') r.1;
  re_walk : match r.1 with
            | Some j => exists m, walk sbk c parent n es = Some m /\ entry (inodes s') ROOTDEV m j
            | None => walk sbk c parent n es = None
            end;
  re_name : parent = true -> is_Some r.1 -> exists e, last es = Some e /\ nm r.2 = nm e;
  re_live : parent = false -> forall j m, r.1 = Some j -> walk sbk c parent n es = Some m -> stands sbk c l0 (inodes s') j m;
}.

(** The dirlookup of the current inode and the release of it. *)
Lemma wp_move s e j n ip x name el (Q : option (nat * Z) -> F -> Prop) :
  sb s = sbk -> ic_lock s = false -> srep e c p ∅ -> locked_at (inodes s) j n ip x -> i_type (dino sbk c n) = T_DIR ->
  name_ok name -> nm name = nm el ->
  (lookup_dir c (dino sbk c n) el = None -> forall e', srep e' c p ∅ -> Q None (wfs (wip s j x) e')) ->
  (forall m j2 o s2 y, lookup_dir c (dino sbk c n) el = Some m -> sb s2 = sbk -> ic_lock s2 = false -> srep (tx s2) c p ∅ ->
     inodes s2 !! j = Some y -> Sleep.spin (i_lk y) = false -> Sleep.locked (i_lk y) = 1 -> 1 <= i_ref y -> ~ dying y ->
     stands sbk c l0 (<[j := dropped (unlocked y)]> (inodes s2)) j2 m -> Q (Some (j2, o)) s2) ->
  wp P (dirlookup dev_read j name) (wfs (wip s j x) e) Q.
Proof.
  intros Hsb Hl Hs L Hty Hnm Hel HN HS. pose proof (la_ip _ _ _ _ _ L) as Hi. pose proof (la_content _ _ _ _ _ L) as Hsc.
  pose proof (la_ref _ _ _ _ _ L) as Hr. pose proof (la_pos _ _ _ _ _ L) as Hpos.
  eapply wp_dirlookup; [exact Hsb|exact Hs|exact Hd|apply (la_file _ _ _ _ _ L)|by eapply wip_lookup| |exact Hnm| |].
  { eapply sc_dir_ok; [exact Hsc|]. by apply (tr_dir _ _ Htr); [apply (la_range _ _ _ _ _ L)|]. }
  { intros Hno e' Hs'. apply HN; [|exact Hs']. apply lookup_dir_none. intros k Hk Hh.
    apply (Hno k); [by rewrite (sc_nents _ _ Hsc)|]. by apply (sc_hit c x (dino sbk c n) name el k Hsc Hel). }
  intros k Hk e' Hs'. pose proof (sc_first_hit c _ _ _ _ _ Hsc Hel Hk) as Hk'. set (m := de_inum (dent c x k)).
  assert (Em : lookup_dir c (dino sbk c n) el = Some m).
  { rewrite (lookup_dir_hit _ _ _ _ Hk'). unfold m, dent. by rewrite (sc_fbytes c x _ _ _ Hsc). }
  assert (Hm : 0 < m < sb_ninodes sbk /\ dtype sbk c m <> 0 /\ i_nlink (dino sbk c m) <> 0).
  { unfold m, dent. rewrite (sc_fbytes c x _ _ _ Hsc). destruct Hk' as (Hk1 & [Hk2 _] & _).
    apply (tr_entry _ _ Htr n k); [apply (la_range _ _ _ _ _ L)|exact Hty|exact Hk1|exact Hk2]. }
  clearbody m. destruct Hm as (Hm1 & Hm2 & Hm3). clear Hk Hk'.
  assert (Hgot : forall j2 l2, got ROOTDEV m (<[j := x]> (inodes s)) l2 j2 ->
    Q (Some (j2, 16 * Z.of_nat k)) (wfs (s <| inodes := l2 |>) e')).
  { intros j2 l2 Hg. destruct (decide (j2 = j)) as [->|Hne].
    - destruct (step_to_same _ _ _ _ _ _ _ L Hg Hm3) as [Hy Hst].
      apply (HS m j _ (wfs (s <| inodes := l2 |>) e') (more_ref x)); [exact Em|exact Hsb|exact Hl|exact Hs'|exact Hy|apply (la_spin _ _ _ _ _ L)|apply (la_locked _ _ _ _ _ L)|simpl; lia| |exact Hst].
      intros (_ & _ & H3). simpl in H3. lia.
    - destruct (step_to_other _ _ _ _ _ _ _ _ L Hg Hne Hm1 Hm2 Hm3) as [Hy Hst].
      apply (HS m j2 _ (wfs (s <| inodes := l2 |>) e') x); [exact Em|exact Hsb|exact Hl|exact Hs'|exact Hy|apply (la_spin _ _ _ _ _ L)|apply (la_locked _ _ _ _ _ L)|lia| |exact Hst].
      by eapply not_dying. }
  apply wp_iget; [exact Hl| | | |].
  - change (icache_ok (<[j := x]> (inodes s))). eapply icache_same; [apply (cg_ok _ _ _ (sd_good _ _ _ _ _ _ (la_stands _ _ _ _ _ L)))|exact Hi|lia|apply (la_spin _ _ _ _ _ L)|lia| |].
    + rewrite (la_dev _ _ _ _ _ L). symmetry. apply (la_dev' _ _ _ _ _ L).
    + rewrite (la_inum _ _ _ _ _ L). symmetry. apply (la_inum' _ _ _ _ _ L).
  - intros j2 jp Hj Hjr Hjd Hjn. apply (Hgot j2 (<[j2 := more_ref jp]> (<[j := x]> (inodes s)))). by eapply got_cached.
  - intros Hno j2 jp Hj Hjr. apply (Hgot j2 (<[j2 := fresh_entry ROOTDEV m jp]> (<[j := x]> (inodes s)))). by eapply got_new.
  - intros Hfull _. exfalso. destruct (spare (inodes s) j (sd_refs _ _ _ _ _ _ (la_stands _ _ _ _ _ L))) as (k' & kp & Hne & Hk & Hkr).
    specialize (Hfull k' kp). change (inodes (wfs (wip s j x) e')) with (<[j := x]> (inodes s)) in Hfull.
    rewrite list_lookup_insert_ne in Hfull by congruence. specialize (Hfull Hk). lia.
Qed.

Lemma wp_iput_current s j n (Q : unit -> F -> Prop) :
  ic_lock s = false -> stands sbk c l0 (inodes s) j n ->
  (forall y, cache_good sbk c (<[j := y]> (inodes s)) -> refs_plus l0 (<[j := y]> (inodes s)) None -> Q tt (wip s j y)) ->
  wp P (iput mypid fuel j) s Q.
Proof.
  intros Hl Hst HQ. destruct (sd_entry _ _ _ _ _ _ Hst) as (ip & Hi & Hr & Hdev & Hn).
  destruct (cg_entry _ _ _ (sd_good _ _ _ _ _ _ Hst) _ _ Hi) as [Hidle Huse]. destruct (Huse Hr) as (_ & Hrange & Hty & Hsy).
  eapply wp_iput_keep; [exact Hfuel|exact Hl|exact Hi|exact Hidle| |].
  - intros (Hv & Hlk & H1). specialize (Hsy Hv). rewrite from_disk_dino in Hsy. destruct (with_disk_same _ _ Hsy) as [_ E].
    rewrite Hn in E. destruct (sd_live _ _ _ _ _ _ Hst ip Hi); [congruence|lia].
  - apply HQ.
    + eapply cache_good_set; [apply (sd_good _ _ _ _ _ _ Hst)|exact Hi| |simpl; lia|lia|reflexivity|reflexivity].
      split; [split; [apply Hidle|reflexivity]|]. intros _. split; [exact Hdev|]. split; [exact Hrange|]. split; [exact Hty|].
      intros Hv. by apply (synced_ext sbk c ip), Hsy.
    + by eapply refs_plus_drop; [apply (sd_refs _ _ _ _ _ _ Hst)|exact Hi| |].
Qed.

(** [iunlock] of the current inode: the walk stops there. *)
Lemma unlock_current l j n ip x : locked_at l j n ip x -> let l' := <[j := unlocked x]> l in
  cache_good sbk c l' /\ refs_plus l0 l' (Some j) /\ entry l' ROOTDEV n j.
Proof.
  intros L l'. pose proof (la_ip _ _ _ _ _ L) as Hi. pose proof (la_stands _ _ _ _ _ L) as Hst.
  pose proof (la_ref _ _ _ _ _ L) as Hr. pose proof (la_pos _ _ _ _ _ L) as Hpos.
  assert (Hdv : i_dev (unlocked x) = i_dev ip) by (simpl; rewrite (la_dev _ _ _ _ _ L); symmetry; apply (la_dev' _ _ _ _ _ L)).
  assert (Hn : i_inum (unlocked x) = i_inum ip) by (simpl; rewrite (la_inum _ _ _ _ _ L); symmetry; apply (la_inum' _ _ _ _ _ L)).
  split; [|split].
  - eapply cache_good_set; [apply (sd_good _ _ _ _ _ _ Hst)|exact Hi| |simpl; lia|lia|exact Hdv|exact Hn].
    split; [split; [apply (la_spin _ _ _ _ _ L)|reflexivity]|]. intros _. rewrite Hdv, Hn, (la_inum' _ _ _ _ _ L).
    split; [apply (la_dev' _ _ _ _ _ L)|]. split; [apply (la_range _ _ _ _ _ L)|]. split; [apply (la_type _ _ _ _ _ L)|].
    intros _. by eapply (synced_ext sbk c x), (la_sync _ _ _ _ _ L).
  - by eapply refs_plus_set; [apply (sd_refs _ _ _ _ _ _ Hst)|exact Hi| |].
  - exists (unlocked x). unfold l'. rewrite list_lookup_insert_eq by (by eapply lookup_lt_Some). split; [done|]. split; [simpl; lia|].
    rewrite Hdv, Hn. split; [apply (la_dev' _ _ _ _ _ L)|apply (la_inum' _ _ _ _ _ L)].
Qed.

Lemma wp_namex_loop parent k : forall s j n path name,
  sb s = sbk -> ic_lock s = false -> srep (tx s) c p ∅ -> stands sbk c l0 (inodes s) j n ->
  path_ok path -> Forall is_byte name -> (length path < k)%nat ->
  wp P (mwhile k (namex_step mypid fuel dev_read parent) (j, path, name)) s (reached parent n (elems path)).
Proof.
  induction k as [|k IH]; intros s j n path name Hsb Hl Hs Hst Hp Hnm Hk; [lia|]. cbn [mwhile]. apply wp_bind.
  pose proof (skipelem_spec path name Hp Hnm) as Hsk. unfold namex_step. destruct (skipelem path name) as [[path' name']|].
  2: { rewrite Hsk. destruct parent.
       - apply wp_bind. eapply wp_iput_current; [exact Hl|exact Hst|]. intros y Hg Hr. apply wp_ret, wp_ret. by split; try (intros ? [? [=]]); try (intros [=]).
       - apply wp_ret, wp_ret. split; try done; [apply (sd_good _ _ _ _ _ _ Hst)|apply (sd_refs _ _ _ _ _ _ Hst)|..].
         + exists n. split; [done|]. apply (sd_entry _ _ _ _ _ _ Hst).
         + intros _ j' m [= <-] [= <-]. exact Hst. }
  destruct Hsk as (el & Eel & Hel & Hnm' & Hp' & Hlen & Hlast). rewrite Eel. apply wp_bind. rewrite <- (wfs_id s).
  eapply wp_lock_current; [exact Hsb|exact Hs|exact Hst|]. intros e1 ip x Hs1 L.
  assert (HiL : inodes (wfs (wip s j x) e1) !! j = Some x) by (eapply wip_lookup; apply (la_ip _ _ _ _ _ L)).
  apply wp_bind. eapply wp_get_ip; [exact HiL|]. rewrite (sc_type _ _ (la_content _ _ _ _ _ L)).
  assert (Hnone : forall e2, walk sbk c parent n (el :: elems path') = None -> srep e2 c p ∅ ->
    wp P (iunlockput mypid fuel j ;;; ret (inr (None, name'))) (wfs (wip s j x) e2)
      (fun r s' => wp P match r with inl a' => mwhile k (namex_step mypid fuel dev_read parent) a' | inr b => ret b end s' (reached parent n (el :: elems path')))).
  { intros e2 Hw Hs2. apply wp_bind. eapply wp_unlockput_current; [exact Hl|exact L|]. apply wp_ret, wp_ret.
    destruct (drop_current _ _ _ _ _ L) as [G1 G2]. split; try assumption; [by intros _ [? [=]]|by intros _ j' m [=]]. }
  destruct (i_type (dino sbk c n) =? T_DIR) eqn:Ety; cbn [negb].
  2: { apply Hnone; [|exact Hs1]. cbn [walk]. by rewrite Ety. }
  assert (Epar : (match path' with [] => true | _ => false end) = match elems path' with [] => true | _ => false end).
  { destruct Hlast as [L1 L2], (elems path') as [|e0 es] eqn:E, path'; try reflexivity; exfalso; [by specialize (L2 eq_refl)|by specialize (L1 eq_refl)]. }
  rewrite Epar. destruct (parent && _) eqn:Elast.
  - apply wp_bind. eapply wp_iunlock; [exact HiL|apply (la_spin _ _ _ _ _ L)|rewrite (la_locked _ _ _ _ _ L); lia| |].
    { rewrite (la_ref _ _ _ _ _ L). pose proof (la_pos _ _ _ _ _ L). lia. }
    apply wp_ret, wp_ret. change (wip (wfs (wip s j x) e1) j (unlocked x)) with (wfs (wip (wip s j x) j (unlocked x)) e1). rewrite wip_wip.
    destruct (unlock_current _ _ _ _ _ L) as (G1 & G2 & G3). split; try assumption.
    + exists n. split; [|exact G3]. cbn [walk]. by rewrite Ety, Elast.
    + intros _ _. exists el. split; [|exact Hel]. apply andb_prop in Elast as [_ El]. by destruct (elems path').
    + intros ->. done.
  - apply Z.eqb_eq in Ety as Ety'. apply wp_bind. eapply wp_move; [exact Hsb|exact Hl|exact Hs1|exact L|exact Ety'|exact Hnm'|exact Hel| |].
    + intros Hno e2 Hs2. apply Hnone; [|exact Hs2]. cbn [walk]. by rewrite Ety, Elast, Hno.
    + intros m j2 o s2 y Hm Hsb2 Hl2 Hs2 Hy Hy1 Hy2 Hy3 Hy4 Hst2. apply wp_bind.
      eapply wp_iunlockput_keep; [exact Hfuel|exact Hl2|exact Hy|exact Hy1|rewrite Hy2; lia|exact Hy3|exact Hy4|].
      apply wp_ret. eapply wp_mono; [apply (IH (wip s2 j (dropped (unlocked y))) j2 m path' name'); try assumption; [apply Hnm'|lia]|].
      intros r s' [R1 R2 R3 R4 R5 R6 R7 R8].
      assert (Ew : walk sbk c parent n (el :: elems path') = walk sbk c parent m (elems path')).
      { cbn [walk]. by rewrite Ety, Elast, Hm. }
      split; try assumption; [by rewrite Ew| |by rewrite Ew]. intros Hpar Hr. destruct (R7 Hpar Hr) as (e3 & He3 & Hn3). exists e3. split; [|exact Hn3].
      destruct (elems path'); [done|exact He3].
Qed.
End namex.

(** Where [namex] starts: the root for an absolute path, the current directory
    for another. *)
Inductive starts {T} (sbk : superblock) (c : Z -> list Z) (s : fs T) (cwd : nat) : list Z -> Z -> Prop :=
| starts_root path : ROOTINO < sb_ninodes sbk -> dtype sbk c ROOTINO <> 0 -> i_nlink (dino sbk c ROOTINO) <> 0 ->
    starts sbk c s cwd (SLASH :: path) ROOTINO
| starts_cwd path n : head path <> Some SLASH -> entry (inodes s) ROOTDEV n cwd -> starts sbk c s cwd path n.

Section theorems.
Context {T : Type} `{TxStoreOk T} {lim : nat} `{!TxLimit lim}.
Notation F := (fs T).
Notation srep := (srep lim).
Context (mypid : Z) (fuel : nat) (Hfuel : (0 < fuel)%nat).
Context (dev_read : Z -> option (nat -> Z -> M F (Z * list Z))).

Lemma wp_namex (s : F) c p (a b : nat) cwd path parent name n :
  srep (tx s) c p ∅ -> disk_ok (sb s) c -> tree_ok (sb s) c -> cache_good (sb s) c (inodes s) -> ic_lock s = false ->
  a <> b -> (exists ip, inodes s !! a = Some ip /\ i_ref ip = 0) -> (exists ip, inodes s !! b = Some ip /\ i_ref ip = 0) ->
  path_ok path -> Forall is_byte name -> starts (sb s) c s cwd path n ->
  wp strict (namex mypid fuel dev_read cwd path parent name) s (reached (lim := lim) (sb s) c p (inodes s) parent n (elems path)).
Proof.
  intros Hs Hd Htr Hg Hl Hab Ha Hb Hp Hn Hst. unfold namex. apply wp_bind.
  assert (Hgo : forall m l2 j, got ROOTDEV m (inodes s) l2 j -> 0 < m < sb_ninodes (sb s) -> dtype (sb s) c m <> 0 ->
    (forall ip, l2 !! j = Some ip -> i_nlink (dino (sb s) c m) <> 0 \/ 2 <= i_ref ip) ->
    wp strict (mwhile (S (length path)) (namex_step mypid fuel dev_read parent) (j, path, name)) (s <| inodes := l2 |>)
      (reached (lim := lim) (sb s) c p (inodes s) parent m (elems path))).
  { intros m l2 j Hgot Hm Hty Hlive. destruct (cache_good_got _ _ _ _ _ _ Hg Hgot Hm Hty) as (G1 & G2 & G3).
    eapply (wp_namex_loop (sb s) mypid fuel Hfuel dev_read strict c p (inodes s) Hd Htr a b Hab Ha Hb);
      [reflexivity|exact Hl|exact Hs| |exact Hp|exact Hn|lia].
    split; [exact G1|exact G2|apply G3|exact Hlive]. split; [done|]. intros i ip0 ip Hi0 Hi.
    rewrite Hi0 in Hi. injection Hi as <-. rewrite decide_False by done. split; [lia|done]. }
  assert (Hpos : forall k ip, inodes s !! k = Some ip -> 0 <= i_ref ip) by (apply (ic_ref _ (cg_ok _ _ _ Hg))).
  destruct Hst as [path Hr1 Hr2 Hr3|path n Hh He].
  - change (SLASH =? SLASH) with true. cbv iota. apply wp_iget; [exact Hl|apply (cg_ok _ _ _ Hg)| | |].
    + intros i ip Hi Hr Hdv Hin. apply (Hgo ROOTINO (<[i := more_ref ip]> (inodes s)));
        [by eapply got_cached|unfold ROOTINO in *; lia|exact Hr2|intros ? _; by left].
    + intros Hno i ip Hi Hr. apply (Hgo ROOTINO (<[i := fresh_entry ROOTDEV ROOTINO ip]> (inodes s)));
        [by eapply got_new|unfold ROOTINO in *; lia|exact Hr2|intros ? _; by left].
    + intros Hfull. exfalso. destruct Ha as (ip & Hi & Hr). specialize (Hfull _ _ Hi). lia.
  - destruct He as (ip & Hi & Hr & Hdv & Hin). destruct (cg_entry _ _ _ Hg _ _ Hi) as [_ Huse]. destruct (Huse Hr) as (_ & U1 & U2 & _).
    rewrite Hin in U1, U2. assert (E : (match path with c0 :: _ => if c0 =? SLASH then iget ROOTDEV ROOTINO else idup cwd | [] => idup cwd end) = idup (T := T) cwd).
    { destruct path as [|c0 path]; [done|]. rewrite (proj2 (Z.eqb_neq c0 SLASH)); [done|]. intros ->. by apply Hh. }
    rewrite E. eapply wp_idup; [exact Hl|exact Hi|]. apply (Hgo n (<[cwd := more_ref ip]> (inodes s))); [by eapply got_cached|exact U1|exact U2|].
    intros ip' Hi'. right. rewrite list_lookup_insert_eq in Hi' by (by eapply lookup_lt_Some). injection Hi' as <-. simpl. lia.
Qed.

(** C5: [namex] (and so [namei] and [nameiparent]) follows the path: from the root
    or from the current directory it returns the cache entry of the inode that
    the elements of the path designate in the directories on disk ([walk]), or 0
    if they designate none; with [nameiparent], the one of the directory before
    the last element, which it copies to the name array. It terminates, locks
    nothing behind it and leaves the disk and every reference count as it was,
    but for one reference to the inode it returns. *)
Theorem namex_correct (s : F) c p (a b : nat) cwd path parent name n :
  srep (tx s) c p ∅ -> disk_ok (sb s) c -> tree_ok (sb s) c -> cache_good (sb s) c (inodes s) -> ic_lock s = false ->
  a <> b -> (exists ip, inodes s !! a = Some ip /\ i_ref ip = 0) -> (exists ip, inodes s !! b = Some ip /\ i_ref ip = 0) ->
  path_ok path -> Forall is_byte name -> starts (sb s) c s cwd path n ->
  exists r s', namex mypid fuel dev_read cwd path parent name s = Ret r s' /\
    reached (lim := lim) (sb s) c p (inodes s) parent n (elems path) r s'.
Proof. intros. by apply wp_strict, (wp_namex s c p a b). Qed.
End theorems.
