(* ===== verification/FileRw.v ===== *)
(** * Reading and writing open files (file.c over fs.c and log.c)

    [filewrite] splits a write into transactions, each of at most [write_max]
    bytes.  Its effect is composed from that of [writei], of [ilock] and
    [iunlock], and of [begin_op] and [end_op]. *)

From S2P Require Import Prelude Params Bytes Str Sleeplock Block Fs FsBlock FsInode FsFile FsRw FsTrunc File.

(** ** Contents that agree on the blocks of the file system *)

Section home.
Context {T : Type} `{TxStoreOk T}.
Context (sbk : superblock) (c c' : Z -> list Z) (Hc : forall x, in_disk x -> c' x = c x).
Notation free := (FsBlock.free sbk).

Lemma free_home b : bmap_ok sbk -> free c' b <-> free c b.
Proof.
  intros HB. unfold FsBlock.free. split; intros [Hb Hf]; split; try done.
  - by rewrite <- Hc by (by apply HB).
  - by rewrite Hc by (by apply HB).
Qed.
Lemma enough_home q : bmap_ok sbk -> enough sbk c q -> enough sbk c' q.
Proof. intros HB (L & HL & Hf). exists L. split; [done|]. intros b Hb. by apply free_home, Hf. Qed.
Lemma disk_home : disk_ok sbk c -> disk_ok sbk c'.
Proof. intros Hd. eapply disk_ext; [|done]. intros x. apply free_home, Hd. Qed.
Lemma data_home b : disk_ok sbk c -> data sbk c b -> data sbk c' b.
Proof. intros Hd (H1 & H2 & H3 & H4). split_and!; try done; try lia. by intros ?%free_home; [|apply Hd]. Qed.

Section file.
Context (ip : inode) (Hd : disk_ok sbk c) (Ho : file_ok sbk c ip).

Lemma slot_home k : slot c' ip k = slot c ip k.
Proof.
  apply slot_ext; [done|]. intros Hne. apply Hc. rewrite <- (slot_ind c ip) in *.
  by apply (fo_data _ _ _ Ho MAXFILE).
Qed.
Lemma file_home : file_ok sbk c' ip.
Proof.
  destruct Ho. split; try done.
  - intros k Hk. rewrite slot_home. intros Hne. apply data_home; [done|]. by apply fo_data.
  - intros k k'. rewrite !slot_home. by apply fo_inj.
  - intros k. rewrite slot_home. by apply fo_full.
Qed.
Lemma contents_home : contents c' ip = contents c ip.
Proof.
  unfold contents, fbytes. apply list_fmap_ext. intros i k [-> Hi]%lookup_seq. unfold fbyte. rewrite slot_home. f_equal.
  destruct (ty_size _ (fo_typed _ _ _ Ho)). apply Hc.
  destruct (block_in_file sbk c ip Ho (0 + i)) as [Hk Hs]; [lia|].
  by apply (fo_data _ _ _ Ho); [lia|].
Qed.
End file.

Lemma from_home ip : disk_ok sbk c -> 0 <= i_inum ip < sb_ninodes sbk -> from_disk sbk c' ip = from_disk sbk c ip.
Proof. intros Hd Hi. unfold from_disk. rewrite Hc; [done|]. by apply (dk_inodes _ _ Hd). Qed.

Lemma written_home c0 ip0 off src ip : 0 <= i_inum ip0 < sb_ninodes sbk ->
  written sbk c0 ip0 off src c ip -> written sbk c0 ip0 off src c' ip.
Proof.
  intros Hi W. pose proof (wn_disk _ _ _ _ _ _ _ W) as Hd. pose proof (wn_ok _ _ _ _ _ _ _ W) as Ho.
  assert (Hn : i_inum ip = i_inum ip0) by (by destruct (wn_meta _ _ _ _ _ _ _ W) as (a & z & ->)).
  destruct W. split; try done.
  - by apply file_home.
  - by apply disk_home.
  - by rewrite contents_home.
  - rewrite from_home by (by rewrite ?Hn). done.
  - intros jp Hj Hne. rewrite from_home by done. by apply wn_others.
  - intros x Hx. apply wn_free. apply free_home; [apply Hd|done].
  - intros k Hk. rewrite slot_home by done. by apply wn_slot.
  - intros k Hk. rewrite slot_home by done. by apply wn_new.
  - intros x Hx ????. rewrite Hc by done. by apply wn_frame.
Qed.
End home.

(** ** One write after another *)

Section writes.
Context {T : Type} `{TxStoreOk T}.
Context (sbk : superblock).
Implicit Types (c : Z -> list Z) (ip : inode).

Lemma written_nil c ip off : disk_ok sbk c -> file_ok sbk c ip -> written sbk c ip off [] c ip.
Proof.
  intros Hd Ho. split; try done.
  - exists (i_addrs ip), (i_size ip). by destruct ip.
  - simpl. by rewrite Nat.add_0_r, take_drop.
Qed.

Lemma splice_splice {A} (X a b : list A) off : a = [] \/ (off <= length X)%nat ->
  let Y := take off X ++ a ++ drop (off + length a) X in
  take (off + length a) Y ++ b ++ drop (off + length a + length b) Y =
  take off X ++ (a ++ b) ++ drop (off + length (a ++ b)) X.
Proof.
  intros [->|Hl] Y; [unfold Y; simpl; by rewrite Nat.add_0_r, take_drop|]. assert (Ht : length (take off X) = off) by (rewrite length_take; lia).
  unfold Y. rewrite (app_assoc (take off X) a), take_app_ge by (rewrite length_app; lia).
  rewrite drop_app_ge by (rewrite length_app; lia). rewrite !length_app, Ht, Nat.sub_diag, take_0, app_nil_r.
  rewrite drop_drop. rewrite <- !app_assoc. do 4 f_equal. lia.
Qed.

Lemma written_trans c0 ip0 off a c1 ip1 b c2 ip2 : a = [] \/ (off <= Z.to_nat (i_size ip0))%nat ->
  written sbk c0 ip0 off a c1 ip1 -> written sbk c1 ip1 (off + length a) b c2 ip2 ->
  written sbk c0 ip0 off (a ++ b) c2 ip2.
Proof.
  intros Hoff A B. destruct (wn_meta _ _ _ _ _ _ _ A) as (a1 & z1 & E1). destruct (wn_meta _ _ _ _ _ _ _ B) as (a2 & z2 & E2).
  assert (Hn : i_inum ip1 = i_inum ip0) by (by rewrite E1).
  split; [apply B|apply B|..].
  - exists a2, z2. by rewrite E2, E1.
  - rewrite (wn_contents _ _ _ _ _ _ _ B), (wn_contents _ _ _ _ _ _ _ A). apply splice_splice.
    unfold contents. by rewrite length_fbytes.
  - intros Hs. by apply B, A.
  - intros jp H1 H2. rewrite (wn_others _ _ _ _ _ _ _ B), (wn_others _ _ _ _ _ _ _ A) by (by rewrite ?Hn). done.
  - intros x Hx. by apply A, B.
  - intros k Hk Hne. rewrite (wn_slot _ _ _ _ _ _ _ B); [by apply A|done|]. by rewrite (wn_slot _ _ _ _ _ _ _ A).
  - intros k Hk Hz Hne. destruct (decide (slot c1 ip1 k = 0)) as [Hz1|Hz1].
    + by eapply wn_free, wn_new.
    + rewrite (wn_slot _ _ _ _ _ _ _ B) by done. by apply (wn_new _ _ _ _ _ _ _ A).
  - intros x X1 X2 X3 X4 X5. rewrite (wn_frame _ _ _ _ _ _ _ B); [by apply A|done|by intros ?%(wn_free _ _ _ _ _ _ _ A)|done|by rewrite Hn|].
    intros k Hk Hne. destruct (decide (slot c0 ip0 k = 0)) as [Hz|Hz].
    + intros <-. by apply X2, (wn_new _ _ _ _ _ _ _ A).
    + rewrite (wn_slot _ _ _ _ _ _ _ A) by done. by apply X5.
Qed.

(** The lock of the entry in the cache is no part of the file. *)
Lemma file_lk c ip l : file_ok sbk c ip -> file_ok sbk c (ip <| i_lk := l |>).
Proof. intros [[] ??????]. by split. Qed.
Lemma from_lk c ip l : from_disk sbk c (ip <| i_lk := l |>) = (from_disk sbk c ip) <| i_lk := l |>.
Proof. done. Qed.
Lemma written_lk l c0 ip0 off src c ip :
  written sbk c0 ip0 off src c ip -> written sbk c0 (ip0 <| i_lk := l |>) off src c (ip <| i_lk := l |>).
Proof.
  intros W. destruct (wn_meta _ _ _ _ _ _ _ W) as (a & z & E). destruct W. split; try done.
  - by apply file_lk.
  - exists a, z. by rewrite E.
  - rewrite !from_lk. intros Hs. assert (Hs0 : from_disk sbk c0 ip0 = ip0).
    { apply (f_equal (fun x => x <| i_lk := i_lk ip0 |>)) in Hs. revert Hs. unfold from_disk. destruct ip0. done. }
    by rewrite wn_sync.
Qed.
End writes.

(** ** The rules for the operations of file.c *)

Section transactions.
Context {T : Type} `{TxOpsOk T} {lim : nat} `{!TxLimit lim} (P : prot (fs T)).
Notation srep := (srep lim).

Lemma wp_fs_begin_op F c (Q : unit -> fs T -> Prop) : quiet (tx F) c -> (forall e, srep e c ∅ ∅ -> Q tt (wfs F e)) -> wp P (io Block.begin_op) F Q.
Proof.
  intros Hq HQ. destruct (begin_op_ok _ _ Hq) as (e & v & E & Hr & Hc & Hd & Hh & Hp).
  rewrite <- (wfs_id F) at 1. eapply wp_io; [exact E|]. apply HQ.
  split; [rewrite size_empty; lia|]. exists v. split_and!; try done.
  by intros x [? ?].
Qed.

Lemma wp_fs_end_op F c p (Q : unit -> fs T -> Prop) : srep (tx F) c p ∅ ->
  (forall e c', quiet e c' -> (forall x, in_disk x -> c' x = c x) -> Q tt (wfs F e)) -> wp P (io Block.end_op) F Q.
Proof.
  intros (Hp & v & Hr & Hc & Hpin & Hh & Hd & _) HQ. pose proof lim_room. pose proof lim_cap.
  destruct (end_op_ok _ _ Hr Hh) as (e & c' & E & Hq & Hc'); [rewrite Hpin; lia|rewrite Hpin; lia| |].
  { intros x Hx. rewrite Hc. apply Hd. by rewrite <- Hpin. }
  rewrite <- (wfs_id F) at 1. eapply wp_io; [exact E|]. apply (HQ _ c'); [done|]. intros x Hx. by rewrite Hc'.
Qed.
End transactions.

Section rules.
Context {T : Type} `{TxOpsOk T} {lim : nat} `{!TxLimit lim}.
Notation K := (ker T).
Notation srep := (srep lim).
Context (X : string -> Prop).
Notation P := (allowing X).
Implicit Types (s : K) (c : Z -> list Z) (ip : inode) (f : file).

Lemma wp_on_fs {A} (m : M (fs T) A) s (Q : A -> K -> Prop) :
  wp P m (fsys s) (fun a e => Q a (s <| fsys := e |>)) -> wp P (on_fs m) s Q.
Proof. unfold wp, on_fs, lift. destruct (m (fsys s)); simpl; try done. by intros [[] _]. Qed.

Lemma wp_begin_op s c (Q : unit -> K -> Prop) : quiet (tx (fsys s)) c ->
  (forall e, srep e c ∅ ∅ -> Q tt (s <| fsys := wfs (fsys s) e |>)) -> wp P begin_op s Q.
Proof. intros Hq HQ. apply wp_on_fs. by eapply wp_fs_begin_op. Qed.

Lemma wp_end_op s c p (Q : unit -> K -> Prop) : srep (tx (fsys s)) c p ∅ ->
  (forall e c', quiet e c' -> (forall x, in_disk x -> c' x = c x) -> Q tt (s <| fsys := wfs (fsys s) e |>)) ->
  wp P end_op s Q.
Proof. intros Hs HQ. apply wp_on_fs. by eapply wp_fs_end_op. Qed.

Lemma wp_get_file s k f (Q : file -> K -> Prop) : files s !! k = Some f -> Q f s -> wp P (get_file k) s Q.
Proof. intros E HQ. eapply wp_ret_intro; [|exact HQ]. unfold get_file. by rewrite E. Qed.
Lemma wp_set_file s k f g (Q : unit -> K -> Prop) : files s !! k = Some f ->
  Q tt (s <| files ::= <[k := g f]> |>) -> wp P (set_file k g) s Q.
Proof. intros E HQ. eapply wp_ret_intro; [|exact HQ]. unfold set_file. by rewrite E. Qed.

(** *** An open file of the file system, between system calls *)

Record ready s c k f i ip : Prop := {
  rd_file : files s !! k = Some f;
  rd_type : f_type f = FD_INODE;
  rd_ip : f_ip f = Some i;
  rd_off : is_u32 (f_off f);
  rd_inode : inodes (fsys s) !! i = Some ip;
  rd_idle : idle ip;
  rd_ref : 1 <= i_ref ip;
  rd_valid : i_valid ip <> 0;
  rd_reg : i_type ip <> T_DEV;
  rd_disk : disk_ok (sb (fsys s)) c;
  rd_ok : file_ok (sb (fsys s)) c ip;
  rd_quiet : quiet (tx (fsys s)) c;
}.

Definition advance f (n : nat) : file := f <| f_off ::= fun o => o + Z.of_nat n |>.

(** [bs] has been written to the open file at its offset, and the offset has
    been advanced; nothing else has changed. *)
Record wrote_file s c k f i ip (bs : list Z) s' c' ip' : Prop := {
  wf_ready : ready s' c' k (advance f (length bs)) i ip';
  wf_written : written (sb (fsys s)) c ip (Z.to_nat (f_off f)) bs c' (ip' <| i_lk := i_lk ip |>);
  wf_frame : exists e, s' = s <| files ::= <[k := advance f (length bs)]> |> <| fsys := wfs (wip (fsys s) i ip') e |>;
}.

Lemma advance_0 f : advance f 0 = f.
Proof. destruct f. unfold advance. simpl. by rewrite Z.add_0_r. Qed.
Lemma advance_advance f n m : advance (advance f n) m = advance f (n + m).
Proof. destruct f. unfold advance. simpl. f_equal. lia. Qed.

Lemma lk_id ip : ip <| i_lk := i_lk ip |> = ip.
Proof. by destruct ip. Qed.

Lemma wrote_nil s c k f i ip : ready s c k f i ip -> wrote_file s c k f i ip [] s c ip.
Proof.
  intros Hr. split; cbn [length]; rewrite ?advance_0; [done| |].
  - rewrite lk_id. apply written_nil; apply Hr.
  - exists (tx (fsys s)). rewrite wip_id, wfs_id by apply Hr.
    pose proof (list_insert_id _ _ _ (rd_file _ _ _ _ _ _ Hr)) as E. destruct s. simpl in *. by rewrite E.
Qed.

Lemma wrote_trans s c k f i ip a s1 c1 ip1 b s2 c2 ip2 : a = [] \/ f_off f <= i_size ip -> 0 <= f_off f ->
  wrote_file s c k f i ip a s1 c1 ip1 -> wrote_file s1 c1 k (advance f (length a)) i ip1 b s2 c2 ip2 ->
  wrote_file s c k f i ip (a ++ b) s2 c2 ip2.
Proof.
  intros Hoff H0f A B. destruct (wf_frame _ _ _ _ _ _ _ _ _ _ A) as [e1 E1]. destruct (wf_frame _ _ _ _ _ _ _ _ _ _ B) as [e2 E2].
  split.
  - rewrite length_app, <- advance_advance. apply B.
  - destruct (wf_written _ _ _ _ _ _ _ _ _ _ A). pose proof (wf_written _ _ _ _ _ _ _ _ _ _ B) as WB.
    apply (written_lk _ (i_lk ip)) in WB. rewrite E1 in WB at 1. simpl in WB.
    eapply written_trans; [|apply A|]; [destruct Hoff; [by left|right; lia]|].
    replace (Z.to_nat (f_off f) + length a)%nat with (Z.to_nat (f_off (advance f (length a)))); [exact WB|].
    simpl. lia.
  - exists e2. rewrite E2, E1, length_app, <- advance_advance. destruct s as [? fl [] ???].
    unfold wfs, wip. simpl. by rewrite !list_insert_insert_eq.
Qed.

Context (mypid : Z) (fuel pfuel : nat) (Hfuel : (0 < fuel)%nat).
Context (dev_read : Z -> option (nat -> Z -> M (fs T) (Z * list Z))).
Context (dev_write : Z -> option (nat -> list Z -> Z -> M (fs T) Z)).
Context (Hlim : MAXOPBLOCKS <= Z.of_nat lim).

Lemma wp_ilock_ready s c k f i ip e (Q : unit -> K -> Prop) : ready s c k f i ip -> srep e c ∅ ∅ ->
  (forall e', srep e' c ∅ ∅ -> Q tt (s <| fsys := wfs (wip (fsys s) i (locked_by mypid ip)) e' |>)) ->
  wp P (on_fs (ilock mypid fuel i)) (s <| fsys := wfs (fsys s) e |>) Q.
Proof.
  intros R Hs HQ. apply wp_on_fs. assert (Hv := rd_valid _ _ _ _ _ _ R). assert (Ho := rd_ok _ _ _ _ _ _ R).
  assert (Hl : loaded (sb (fsys s)) c ip = ip) by (unfold loaded; by rewrite (proj2 (Z.eqb_neq _ _) Hv)).
  eapply wp_ilock; [exact Hs|apply R|apply Ho|apply R|apply R|apply R|exact Hfuel| |done|rewrite map_size_empty; lia|done|].
  - apply (dk_inodes _ _ (rd_disk _ _ _ _ _ _ R)), Ho.
  - intros _ e' Hs'. rewrite Hl. by apply HQ.
Qed.

Lemma wp_iunlock_held s i ip (Q : unit -> K -> Prop) : inodes (fsys s) !! i = Some ip ->
  Sleep.spin (i_lk ip) = false -> Sleep.locked (i_lk ip) <> 0 -> 1 <= i_ref ip ->
  Q tt (s <| fsys := wip (fsys s) i (unlocked ip) |>) -> wp P (on_fs (iunlock i)) s Q.
Proof. intros Hi Hsp Hl Hr HQ. apply wp_on_fs. eapply wp_iunlock; [exact Hi|exact Hsp|exact Hl|exact Hr|exact HQ]. Qed.

(** The end of a transaction in which [bs] has been written. *)
Lemma wrote_end s c k f i ip bs e c1 ip1 c' : ready s c k f i ip -> f_off f + Z.of_nat (length bs) < 2 ^ 32 ->
  written (sb (fsys s)) c (locked_by mypid ip) (Z.to_nat (f_off f)) bs c1 ip1 ->
  quiet e c' -> (forall x, in_disk x -> c' x = c1 x) ->
  wrote_file s c k f i ip bs (s <| files ::= <[k := advance f (length bs)]> |>
    <| fsys := wfs (wip (fsys s) i (unlocked ip1)) e |>) c' (unlocked ip1).
Proof.
  intros R Hu W Hq Hc. destruct (wn_meta _ _ _ _ _ _ _ W) as (a & z & Em).
  assert (Hn : 0 <= i_inum ip < sb_ninodes (sb (fsys s))) by apply (rd_ok _ _ _ _ _ _ R).
  eapply written_home in W; [|exact Hc|exact Hn]. apply (written_lk _ (i_lk ip)) in W.
  replace ((locked_by mypid ip) <| i_lk := i_lk ip |>) with ip in W by (by destruct ip).
  split; [|exact W|by exists e]. destruct R as [R1 R2 R3 R4 R5 [R6 R6'] R7 R8 R9 R10 R11 R12]. destruct W as [W1 W2].
  split; try done.
  - simpl. by apply list_lookup_insert_eq, lookup_lt_is_Some; eexists.
  - unfold advance, is_u32 in *. simpl. lia.
  - simpl. by apply list_lookup_insert_eq, lookup_lt_is_Some; eexists.
  - by rewrite Em.
  - by rewrite Em.
  - by rewrite Em.
  - by rewrite Em.
  - by apply (file_lk _ _ _ (i_lk (unlocked ip1))) in W1.
Qed.

Lemma write_max_eq : write_max = Z.of_nat (3 * BSIZE).
Proof. reflexivity. Qed.
Lemma take_length_take {A} (l : list A) n : take (length (take n l)) l = take n l.
Proof. by rewrite length_take, <- take_take, firstn_all. Qed.

Lemma entry_twice (e : fs T) i x y e1 e2 : wfs (wip (wfs (wip e i x) e1) i y) e2 = wfs (wip e i y) e2.
Proof. destruct e. unfold wfs, wip. simpl. by rewrite list_insert_insert_eq. Qed.
Lemma same_file s k f e : files s !! k = Some f -> s <| files ::= <[k := advance f 0]> |> <| fsys := e |> = s <| fsys := e |>.
Proof. intros Hk. rewrite advance_0. apply list_insert_id in Hk. destruct s. simpl in *. by rewrite Hk. Qed.

(** The part of a turn that follows [writei]. *)
Definition write_rest (k i : nat) (n1 j r : Z) : M K (Z + Z) :=
  when (0 <? r) (set_file k (fun f => f <| f_off ::= fun o => u32 (o + r) |>)) ;;;
  on_fs (iunlock i) ;;;
  end_op ;;;
  if r <? 0 then ret (inr j)
  else if negb (r =? n1) then panic "short filewrite"
  else ret (inl (j + r)).

Section rest.
Context s c k f i ip (R : ready s c k f i ip).
Notation lp := (locked_by mypid ip).

Lemma wp_write_failed e n1 j (Q : Z + Z -> K -> Prop) : srep e c ∅ ∅ ->
  (forall s' c' ip', wrote_file s c k f i ip [] s' c' ip' -> Q (inr j) s') ->
  wp P (write_rest k i n1 j (-1)) (s <| fsys := wfs (wip (fsys s) i lp) e |>) Q.
Proof.
  intros Hs HF. unfold write_rest, when. rewrite (proj2 (Z.ltb_ge 0 _)) by lia. apply wp_bind, wp_ret.
  assert (Hlp : inodes (wip (fsys s) i lp) !! i = Some lp) by (eapply wip_lookup; apply R).
  apply wp_bind. eapply wp_iunlock_held; [exact Hlp|apply R|done|apply R|].
  apply wp_bind. eapply (wp_end_op _ c); [exact Hs|]. intros e2 c2 Hq2 Hc2. rewrite (proj2 (Z.ltb_lt (-1) 0)) by lia. apply wp_ret.
  eapply HF. eapply (wrote_end s c k f i ip [] e2 c lp) in R as W.
  - rewrite same_file in W by apply R. rewrite <- (entry_twice _ _ lp _ e) in W. exact W.
  - pose proof (rd_off _ _ _ _ _ _ R) as Ho. unfold is_u32 in Ho. simpl. lia.
  - apply written_nil; [apply R|apply file_lk, R].
  - exact Hq2.
  - exact Hc2.
Qed.

Lemma wp_write_done e bs c2 p2 ip2 j (Q : Z + Z -> K -> Prop) : srep e c2 p2 ∅ ->
  written (sb (fsys s)) c lp (Z.to_nat (f_off f)) bs c2 ip2 -> (0 < length bs)%nat -> f_off f + Z.of_nat (length bs) < 2 ^ 32 ->
  (forall s' c' ip', wrote_file s c k f i ip bs s' c' ip' -> (forall x, in_disk x -> c' x = c2 x) ->
     Q (inl (j + Z.of_nat (length bs))) s') ->
  wp P (write_rest k i (Z.of_nat (length bs)) j (Z.of_nat (length bs)))
    (s <| fsys := wfs (wip (wip (fsys s) i lp) i ip2) e |>) Q.
Proof.
  intros Hs Hw Hn Hbig HS. unfold write_rest, when. rewrite (proj2 (Z.ltb_lt 0 _)) by lia.
  assert (Hm : i_lk ip2 = i_lk lp /\ i_ref ip2 = i_ref ip) by (by destruct (wn_meta _ _ _ _ _ _ _ Hw) as (a & z & ->)). destruct Hm as [Hm1 Hm2].
  assert (Ho := rd_off _ _ _ _ _ _ R). apply wp_bind. eapply wp_set_file; [apply R|]. set (n1 := length bs) in *.
  replace (f <| f_off ::= fun o => u32 (o + Z.of_nat n1) |>) with (advance f n1)
    by (unfold advance; destruct f; simpl in *; rewrite u32_small by (unfold is_u32 in *; simpl in *; lia); done).
  assert (Hlp2 : inodes (wip (wip (fsys s) i lp) i ip2) !! i = Some ip2) by (eapply wip_lookup, wip_lookup; apply R).
  apply wp_bind. eapply wp_iunlock_held; [exact Hlp2|rewrite Hm1; apply R|by rewrite Hm1|rewrite Hm2; apply R|].
  apply wp_bind. eapply (wp_end_op _ c2); [exact Hs|]. intros e3 c3 Hq3 Hc3. rewrite (proj2 (Z.ltb_ge _ 0)) by lia.
  rewrite Z.eqb_refl. cbv [negb]. apply wp_ret.
  eapply (wrote_end s c k f i ip bs e3 c2 ip2 c3) in R as W; [|done..].
  rewrite <- (wip_wip (fsys s) i lp (unlocked ip2)), <- (entry_twice _ _ ip2 _ e) in W. eapply HS; [exact W|exact Hc3].
Qed.
End rest.

Lemma wp_write_step s c k f i ip src (j : nat) (Q : Z + Z -> K -> Prop) :
  let bs := slice j (3 * BSIZE) src in
  ready s c k f i ip -> (j < length src)%nat ->
  (~ enough (sb (fsys s)) c 5 -> X "balloc: out of blocks") ->
  (~ fits ip (f_off f) (length bs) -> forall s' c' ip', wrote_file s c k f i ip [] s' c' ip' -> Q (inr (Z.of_nat j)) s') ->
  (fits ip (f_off f) (length bs) -> forall s' c' ip', wrote_file s c k f i ip bs s' c' ip' ->
     (forall q, enough (sb (fsys s)) c (q + 5) -> enough (sb (fsys s)) c' q) -> Q (inl (Z.of_nat (j + length bs))) s') ->
  wp P (write_step mypid fuel dev_write k i src (Z.of_nat (length src)) (Z.of_nat j)) s Q.
Proof.
  intros bs R Hj Hno HF HS. assert (Hlen : length bs = Nat.min (length src - j) (3 * BSIZE)) by (unfold bs, slice; rewrite length_take, length_drop; lia).
  unfold write_step. rewrite (proj2 (Z.ltb_lt _ _)) by lia. cbv zeta. rewrite write_max_eq.
  replace (Z.min _ _) with (Z.of_nat (length bs)) by lia. rewrite !Nat2Z.id.
  replace (take (length bs) (drop j src)) with bs by (symmetry; apply take_length_take).
  assert (Hn1 : (0 < length bs <= 3 * BSIZE)%nat) by (rewrite BSIZE_eq in *; lia). clearbody bs. clear Hlen.
  assert (Hu1 : is_u32 (Z.of_nat (length bs))) by (rewrite BSIZE_eq in *; unfold is_u32; lia).
  apply wp_bind. eapply wp_begin_op; [apply R|]. intros e Hs. apply wp_bind. eapply wp_ilock_ready; [exact R|exact Hs|]. intros e1 Hs1.
  apply wp_bind. eapply wp_get_file; [apply R|]. apply wp_bind, wp_on_fs. set (lp := locked_by mypid ip).
  assert (Hlo : file_ok (sb (fsys s)) c lp) by (apply file_lk, R). assert (Hoff := rd_off _ _ _ _ _ _ R).
  assert (Hch := fun Ht => chunk_cost (sb (fsys s)) c lp ∅ (Z.to_nat (f_off f)) (length bs) Hlo Ht (proj2 Hn1)).
  assert (Hen := chunk_holes c lp (Z.to_nat (f_off f)) (length bs) (proj2 Hn1)).
  eapply (wp_writei (sb (fsys s))); [reflexivity|exact Hs1|apply R|exact Hlo|eapply wip_lookup; apply R|apply R|exact Hoff|exact Hu1|..].
  - intros Hf. apply (wp_write_failed s c k f i ip R e1 _ _ _ Hs1). by apply HF.
  - intros [Hf1 Hf2]. rewrite size_empty. unfold is_u32, MAXOPBLOCKS in *. pose proof (Hch ltac:(lia)). lia.
  - intros Hf e2 c2 p2 ip2 Hs2 Hw _ Hq. apply (wp_write_done s c k f i ip R e2 bs c2 p2 ip2 _ _ Hs2 Hw); [lia| |].
    { destruct Hf as [_ Hf]. assert (Z.of_nat (MAXFILE * BSIZE) = 71680) by (by rewrite MAXFILE_eq, BSIZE_eq). lia. }
    intros s' c' ip' W Hc'. rewrite <- Nat2Z.inj_add. eapply HS; [exact Hf|exact W|]. intros q Hq5.
    eapply enough_home; [exact Hc'|apply R|]. apply Hq. eapply enough_le; [|exact Hq5]. lia.
  - intros _ Hne. apply Hno. intros H5. apply Hne. by eapply enough_le.
Qed.

(** The transactions that a write of [n] bytes takes. *)
Definition chunks (n : nat) : nat := (n + 3 * BSIZE - 1) / (3 * BSIZE).

Lemma chunks_step n : (0 < n)%nat -> chunks n = S (chunks (n - Nat.min n (3 * BSIZE))).
Proof.
  intros Hn. unfold chunks. assert (Hm : (0 < 3 * BSIZE)%nat) by (rewrite BSIZE_eq; lia).
  generalize dependent (3 * BSIZE)%nat. intros m Hm. destruct (decide (n <= m)%nat).
  - rewrite (Nat.min_l n m), Nat.sub_diag, Nat.add_0_l, (Nat.div_small (m - 1) m) by lia.
    symmetry. apply (Nat.div_unique _ _ 1 (n - 1)); lia.
  - replace (n + m - 1)%nat with (n - n `min` m + m - 1 + 1 * m)%nat by lia. rewrite Nat.div_add by lia. lia.
Qed.

Lemma wrote_size s c k f i ip bs s' c' ip' : 0 <= f_off f <= i_size ip -> wrote_file s c k f i ip bs s' c' ip' ->
  f_off f + Z.of_nat (length bs) <= i_size ip'.
Proof.
  intros Hoff W. pose proof (f_equal length (wn_contents _ _ _ _ _ _ _ (wf_written _ _ _ _ _ _ _ _ _ _ W))) as Hl.
  destruct (ty_size _ (fo_typed _ _ _ (rd_ok _ _ _ _ _ _ (wf_ready _ _ _ _ _ _ _ _ _ _ W)))).
  rewrite !length_app, length_take in Hl. unfold contents in Hl. rewrite !length_fbytes in Hl. simpl in Hl. lia.
Qed.

Section loop.
Context s c k f i ip (src : list Z) (R : ready s c k f i ip).
Notation n := (length src).
Context (Hno : ~ enough (sb (fsys s)) c (5 * chunks n) -> X "balloc: out of blocks").

(** The loop after [j] bytes. *)
Record so_far (j : nat) s1 c1 ip1 : Prop := {
  sf_wrote : wrote_file s c k f i ip (take j src) s1 c1 ip1;
  sf_le : (j <= n)%nat;
  sf_fits : j = 0%nat /\ ip1 = ip \/ fits ip (f_off f) j;
  sf_enough : enough (sb (fsys s)) c (5 * chunks n) -> enough (sb (fsys s)) c1 (5 * chunks (n - j));
}.

Lemma so_far_sb j s1 c1 ip1 : so_far j s1 c1 ip1 -> sb (fsys s1) = sb (fsys s).
Proof. intros [[_ _ [e ->]]]. done. Qed.

Lemma so_far_step j s1 c1 ip1 s2 c2 ip2 : let bs := slice j (3 * BSIZE) src in let f1 := advance f j in
  so_far j s1 c1 ip1 -> (j < n)%nat -> fits ip1 (f_off f1) (length bs) -> wrote_file s1 c1 k f1 i ip1 bs s2 c2 ip2 ->
  (forall q, enough (sb (fsys s)) c1 (q + 5) -> enough (sb (fsys s)) c2 q) -> so_far (j + length bs) s2 c2 ip2.
Proof.
  intros bs f1 [S1 S2 S3 S4] Hj Hf W Hq. assert (Ho := rd_off _ _ _ _ _ _ R). destruct Hf as [Hf1 Hf2].
  change (f_off f1) with (f_off f + Z.of_nat j) in *.
  assert (Hlen : length bs = Nat.min (n - j) (3 * BSIZE)) by (unfold bs, slice; rewrite length_take, length_drop; lia).
  assert (Ht : take (j + length bs) src = take j src ++ bs).
  { rewrite <- (take_drop j src) at 1. rewrite take_app_add' by (rewrite length_take; lia). f_equal. apply take_length_take. }
  assert (Hoff : f_off f <= i_size ip) by (destruct S3 as [[-> ->]|[? _]]; lia).
  unfold is_u32 in Ho. split.
  - rewrite Ht. eapply wrote_trans; [by right|lia|exact S1|]. rewrite length_take, Nat.min_l by lia. exact W.
  - lia.
  - right. split; lia.
  - intros He. apply Hq. specialize (S4 He). rewrite (chunks_step (n - j)) in S4 by lia.
    replace (n - (j + length bs))%nat with (n - j - (n - j) `min` (3 * BSIZE))%nat by lia. eapply enough_le; [|exact S4]. lia.
Qed.

Lemma wp_filewrite_loop fl : forall s1 c1 ip1 (j : nat) (Q : Z -> K -> Prop), (n - j < fl)%nat -> so_far j s1 c1 ip1 ->
  (forall s' c' ip', so_far n s' c' ip' -> Q (Z.of_nat n) s') ->
  (forall j' s' c' ip', (j' < n)%nat -> wrote_file s c k f i ip (take j' src) s' c' ip' -> ~ fits ip (f_off f) n ->
     Q (Z.of_nat j') s') ->
  wp P (mwhile fl (write_step mypid fuel dev_write k i src (Z.of_nat n)) (Z.of_nat j)) s1 Q.
Proof.
  induction fl as [|fl IH]; intros s1 c1 ip1 j Q Hfl SF HD HF; [lia|]. cbn [mwhile]. apply wp_bind.
  destruct (decide (j = n)) as [->|Hne].
  { unfold write_step at 1. rewrite Z.ltb_irrefl. apply wp_ret, wp_ret. by eapply HD. }
  assert (Hj : (j < n)%nat) by (destruct SF; lia). assert (Ho := rd_off _ _ _ _ _ _ R). unfold is_u32 in Ho.
  assert (R1 : ready s1 c1 k (advance f j) i ip1).
  { pose proof (wf_ready _ _ _ _ _ _ _ _ _ _ (sf_wrote _ _ _ _ SF)) as R1. rewrite length_take, Nat.min_l in R1 by lia. exact R1. }
  eapply wp_write_step; [exact R1|exact Hj|..].
  - intros Hen. apply Hno. intros He. apply Hen. rewrite (so_far_sb _ _ _ _ SF).
    pose proof (sf_enough _ _ _ _ SF He) as H5. rewrite chunks_step in H5 by lia. eapply enough_le; [|exact H5]. lia.
  - intros Hf s' c' ip' W. apply wp_ret. assert (Hj1 : length (take j src) = j) by (rewrite length_take; lia).
    assert (Hnf : ~ fits ip (f_off f) n).
    { intros [F1 F2]. apply Hf. pose proof (wrote_size _ _ _ _ _ _ _ _ _ _ (conj (proj1 Ho) F1) (sf_wrote _ _ _ _ SF)) as Hs.
      rewrite Hj1 in Hs. unfold slice. rewrite length_take, length_drop. change (f_off (advance f j)) with (f_off f + Z.of_nat j). split; lia. }
    eapply HF; [exact Hj| |exact Hnf]. rewrite <- (app_nil_r (take j src)). eapply wrote_trans; [|lia|apply SF|by rewrite Hj1].
    destruct (sf_fits _ _ _ _ SF) as [[-> _]|[F _]]; [by left|by right].
  - intros Hf s' c' ip' W Hq. rewrite (so_far_sb _ _ _ _ SF) in Hq. pose proof (so_far_step _ _ _ _ _ _ _ SF Hj Hf W Hq) as SF'.
    eapply IH; [|exact SF'|exact HD|exact HF]. unfold slice in *. rewrite length_take, length_drop in *. rewrite BSIZE_eq in *. lia.
Qed.
End loop.
End rules.

(** ** What [filewrite] does *)

Section file_theorems.
Context {T : Type} `{TxOpsOk T} {lim : nat} `{!TxLimit lim}.
Context (mypid : Z) (fuel pfuel : nat) (Hfuel : (0 < fuel)%nat) (Hlim : MAXOPBLOCKS <= Z.of_nat lim).
Context (dev_write : Z -> option (nat -> list Z -> Z -> M (fs T) Z)).

(** C2: [filewrite] to a file of the file system, one transaction after another,
    while no other system call is in progress.  If the bytes fit they are put at
    the file's offset, the offset is advanced and the count is returned; if they
    do not, -1 is returned and what was written is a proper prefix of them.
    Either way the content is on the disk, outside the log, and no other file,
    inode or block in use has changed.  It panics only when the disk may have
    fewer free blocks than five for each transaction. *)
Theorem filewrite_correct s c k f i ip src :
  let n := length src in
  ready s c k f i ip -> f_writable f <> 0 ->
  (exists j s' c' ip', filewrite mypid fuel pfuel dev_write k src (Z.of_nat n) s = Ret (if decide (j = n) then Z.of_nat n else -1) s' /\
     wrote_file s c k f i ip (take j src) s' c' ip' /\ (j <= n)%nat /\ (j = n <-> n = 0%nat \/ fits ip (f_off f) n)) \/
  ((exists s', filewrite mypid fuel pfuel dev_write k src (Z.of_nat n) s = Panic "balloc: out of blocks" s') /\
     ~ enough (sb (fsys s)) c (5 * chunks n)).
Proof.
  intros n R Hw. set (Q := fun r s' => exists j c' ip', r = (if decide (j = n) then Z.of_nat n else -1) /\
     wrote_file s c k f i ip (take j src) s' c' ip' /\ (j <= n)%nat /\ (j = n <-> n = 0%nat \/ fits ip (f_off f) n)).
  assert (HQ : wp (may_panic "balloc: out of blocks" (~ enough (sb (fsys s)) c (5 * chunks n)))
    (filewrite mypid fuel pfuel dev_write k src (Z.of_nat n)) s Q).
  2: { apply wp_may_panic in HQ as [(r & s' & E & j & c' & ip' & -> & W)|[E He]]; [left; by exists j, s', c', ip'|by right]. }
  unfold filewrite. apply wp_bind. eapply wp_get_file; [apply R|]. rewrite (proj2 (Z.eqb_neq _ _) Hw), (rd_type _ _ _ _ _ _ R).
  unfold file_ip. rewrite (rd_ip _ _ _ _ _ _ R). apply wp_bind, wp_ret. apply wp_bind. change 0 with (Z.of_nat 0).
  eapply (wp_filewrite_loop _ mypid fuel Hfuel dev_write Hlim s c k f i ip src R); [done|lia| | |].
  - split; [by apply wrote_nil|lia|by left|by rewrite Nat.sub_0_r].
  - intros s' c' ip' [S1 _ S3 _]. fold n in S1, S3. rewrite Z.eqb_refl. apply wp_ret. exists n, c', ip'. rewrite decide_True by done.
    split_and!; [done|exact S1|lia|]. split; [intros _|done]. destruct S3 as [[S3 _]|S3]; [by left|by right].
  - intros j s' c' ip' Hj W Hf. fold n in Hj, Hf |- *. rewrite (proj2 (Z.eqb_neq _ _)) by lia. apply wp_ret. exists j, c', ip'.
    rewrite decide_False by lia. split_and!; [done|exact W|lia|]. split; [lia|]. intros [?|?]; [lia|done].
Qed.
End file_theorems.
