(* ===== verification/Exec.v ===== *)
(** * Loading programs (exec.c, loaduvm and the registers of vm.c)

    [exec] over the file system and the pages of the allocator: it reads the
    program from its file into a new page table, puts the arguments on a new
    stack, and replaces the image of the process. *)

From S2P Require Import Prelude Params Bytes Str Sleeplock Block Fs Kalloc Vm.
Import Kalloc.

(** ** Formats (elf.h) *)

Definition ELF_MAGIC : Z := 0x464C457F.
Definition ELF_PROG_LOAD : Z := 1.
(** [struct elfhdr] and [struct proghdr] as bytes. *)
Definition sizeof_elfhdr : Z := 52.
Definition elf_magic (h : list Z) : Z := get32 0 h.
Definition elf_entry (h : list Z) : Z := get32 24 h.
Definition elf_phoff (h : list Z) : Z := get32 28 h.
Definition elf_phnum (h : list Z) : Z := get16 44 h.
Definition sizeof_proghdr : Z := 32.
Definition ph_type (h : list Z) : Z := get32 0 h.
Definition ph_off (h : list Z) : Z := get32 4 h.
Definition ph_vaddr (h : list Z) : Z := get32 8 h.
Definition ph_filesz (h : list Z) : Z := get32 16 h.
Definition ph_memsz (h : list Z) : Z := get32 20 h.

(** ** State *)

(** What [exec] uses and sets of [struct proc]; [p_eip] and [p_esp] are in the
    trap frame. *)
Record image := Image {
  p_name : list Z;
  p_pgdir : Z;
  p_sz : Z;
  p_kstack : Z;
  p_eip : Z;
  p_esp : Z;
  p_cwd : nat;
}.
#[export] Instance image_eta : Eta image := fun r =>
  Image (p_name r) (p_pgdir r) (p_sz r) (p_kstack r) (p_eip r) (p_esp r) (p_cwd r).

(** The registers of the CPU: the page table in use, and the stack of the task
    state segment for traps from user mode. *)
Record regs := Regs { cr3 : Z; ts_ss0 : Z; ts_esp0 : Z; ts_iomb : Z }.
#[export] Instance regs_eta : Eta regs := fun r => Regs (cr3 r) (ts_ss0 r) (ts_esp0 r) (ts_iomb r).

Record xk (T : Type) := XK {
  x_fs : fs T;
  x_mem : kmem;
  x_cpu : regs;
  x_proc : image;
}.
Arguments XK {T}. Arguments x_fs {T}. Arguments x_mem {T}. Arguments x_cpu {T}. Arguments x_proc {T}.
#[export] Instance xk_eta T : Eta (xk T) := fun r => XK (x_fs r) (x_mem r) (x_cpu r) (x_proc r).

Definition SEG_KDATA : Z := 2.

Section ops.
Context {T : Type} `{TxOps T}.
Notation X := (xk T).
Context (mypid : Z) (fuel : nat).
Context (dev_read : Z -> option (nat -> Z -> M (fs T) (Z * list Z))).
(** The end of the kernel's image and the start of its data; the bytes of the
    array [name] of [namei]. *)
Context (end_ data : Z) (name0 : list Z).

Definition on_fs {A} (m : M (fs T) A) : M X A := lift x_fs (fun e s => s <| x_fs := e |>) m.
Definition on_mem {A} (m : M kmem A) : M X A := lift x_mem (fun e s => s <| x_mem := e |>) m.
Definition begin_op : M X unit := on_fs (io begin_op).
Definition end_op : M X unit := on_fs (io end_op).
Notation ilock i := (on_fs (ilock mypid fuel i)).
Notation iunlockput i := (on_fs (iunlockput mypid fuel i)).
Notation readi i off n := (on_fs (readi dev_read i off n)).
Notation allocuvm d o n := (on_mem (allocuvm end_ d o n)).
Notation copyout d va bs := (on_mem (copyout d va bs)).
Notation freevm d := (on_mem (freevm end_ d)).

(** ** [switchuvm] (vm.c) *)

(** For the process that runs.  The segment descriptor of the task state is always
    the same; interrupts are off in between. *)
Definition switchuvm : M X unit :=
  p <- gets x_proc ;;
  if p_kstack p =? 0 then panic "switchuvm: no kstack"
  else if p_pgdir p =? 0 then panic "switchuvm: no pgdir"
  else modify (fun s => s <| x_cpu := Regs (V2P (p_pgdir p)) (Z.shiftl SEG_KDATA 3) (u32 (p_kstack p + KSTACKSIZE)) 0xFFFF |>).

(** ** [loaduvm] (vm.c) *)

(** One turn of the loop at [i]; [readi] writes to the page of the address. *)
Definition load_step (pgdir addr : Z) (ip : nat) (offset sz i : Z) : M X (Z + Z) :=
  if i <? sz then
    o <- on_mem (walkpgdir pgdir (u32 (addr + i)) false) ;;
    match o with
    | None => panic "loaduvm: address should exist"
    | Some pte =>
        e <- on_mem (get_pte pte) ;;
        let n := if sz - i <? PGSIZE then sz - i else PGSIZE in
        r <- readi ip (u32 (offset + i)) n ;;
        on_mem (store (P2V (PTE_ADDR e)) 0 r.2) ;;;
        ret (if negb (r.1 =? n) then inr (-1) else inl (u32 (i + PGSIZE)))
    end
  else ret (inr 0).
Definition loaduvm (pgdir addr : Z) (ip : nat) (offset sz : Z) : M X Z :=
  if negb (addr mod PGSIZE =? 0) then panic "loaduvm: addr must be page aligned"
  else mwhile (S (S (Z.to_nat (sz / PGSIZE)))) (load_step pgdir addr ip offset sz) 0.

(** ** [exec] *)

(** The exit [bad]: [ip] as long as the inode is held. *)
Definition bad (pgdir : Z) (ip : option nat) : M X Z :=
  when (negb (pgdir =? 0)) (freevm pgdir) ;;;
  match ip with
  | Some i => iunlockput i ;;; end_op ;;; ret (-1)
  | None => ret (-1)
  end.

(** One turn of the loop over the program headers, at [i], [off], with the size
    so far: the next ones, or the size at the end, or nothing for [goto bad]. *)
Definition segment_step (pgdir : Z) (ip : nat) (phnum : Z) (x : Z * Z * Z) : M X (Z * Z * Z + option Z) :=
  let '(i, off, sz) := x in
  if i <? phnum then
    r <- readi ip off sizeof_proghdr ;;
    let ph := r.2 in
    if negb (r.1 =? sizeof_proghdr) then ret (inr None)
    else if negb (ph_type ph =? ELF_PROG_LOAD) then ret (inl (i + 1, u32 (off + sizeof_proghdr), sz))
    else if ph_memsz ph <? ph_filesz ph then ret (inr None)
    else if u32 (ph_vaddr ph + ph_memsz ph) <? ph_vaddr ph then ret (inr None)
    else
      sz <- allocuvm pgdir sz (u32 (ph_vaddr ph + ph_memsz ph)) ;;
      if sz =? 0 then ret (inr None)
      else if negb (ph_vaddr ph mod PGSIZE =? 0) then ret (inr None)
      else
        z <- loaduvm pgdir (ph_vaddr ph) ip (ph_off ph) (ph_filesz ph) ;;
        if z <? 0 then ret (inr None) else ret (inl (i + 1, u32 (off + sizeof_proghdr), sz))
  else ret (inr (Some sz)).

(** One turn of the loop over the arguments: [argc], [sp] and the words of
    [ustack] from 3 on. *)
Definition push_step (pgdir : Z) (argv : list (list Z)) (x : nat * Z * list Z) : M X (nat * Z * list Z + option (nat * Z * list Z)) :=
  let '(argc, sp, us) := x in
  match argv !! argc with
  | None => ret (inr (Some (argc, sp, us)))
  | Some a =>
      if (MAXARG <=? argc)%nat then ret (inr None)
      else
        let sp := Z.land (u32 (sp - (Z.of_nat (length a) + 1))) (u32 (Z.lnot 3)) in
        r <- copyout pgdir sp (a ++ [0]) ;;
        ret (if r <? 0 then inr None else inl (S argc, sp, us ++ [sp]))
  end.

(** [last]: the path after its last slash. *)
Definition after_slash (path : list Z) : list Z := foldl (fun last c => if c =? SLASH then [] else last ++ [c]) [] path.

(** From the pushed arguments on. *)
Definition commit_image (path : list Z) (elf : list Z) (pgdir sz : Z) (argc : nat) (sp : Z) (us : list Z) : M X Z :=
  let ac := Z.of_nat argc in
  let ustack := [0xffffffff; ac; u32 (sp - (ac + 1) * 4)] ++ us ++ [0] in
  let sp := u32 (sp - (3 + ac + 1) * 4) in
  r <- copyout pgdir sp (mjoin (le 4 <$> ustack)) ;;
  if r <? 0 then bad pgdir None
  else
    c <- gets x_proc ;;
    match safestrcpy (p_name c) (after_slash path ++ [0]) 16 with
    | None => fault
    | Some name =>
        modify (fun s => s <| x_proc ::= fun p => p <| p_name := name |> <| p_pgdir := pgdir |> <| p_sz := sz |>
          <| p_eip := elf_entry elf |> <| p_esp := sp |> |>) ;;;
        switchuvm ;;;
        freevm (p_pgdir c) ;;;
        ret 0
    end.

(** From the end of the transaction on: the stack. *)
Definition exec_stack (path : list Z) (argv : list (list Z)) (elf : list Z) (pgdir sz : Z) : M X Z :=
  let sz := PGROUNDUP sz in
  sz <- allocuvm pgdir sz (u32 (sz + 2 * PGSIZE)) ;;
  if sz =? 0 then bad pgdir None
  else
    on_mem (clearpteu pgdir (u32 (sz - 2 * PGSIZE))) ;;;
    o <- mwhile (S (S MAXARG)) (push_step pgdir argv) (0%nat, sz, []) ;;
    match o with
    | None => bad pgdir None
    | Some (argc, sp, us) => commit_image path elf pgdir sz argc sp us
    end.

(** The arguments are the strings of [argv] without their NUL. *)
Definition exec (path : list Z) (argv : list (list Z)) : M X Z :=
  begin_op ;;;
  c <- gets x_proc ;;
  oi <- on_fs (namei mypid fuel dev_read (p_cwd c) path name0) ;;
  match oi with
  | None => end_op ;;; ret (-1)
  | Some ip =>
      ilock ip ;;;
      r <- readi ip 0 sizeof_elfhdr ;;
      let elf := r.2 in
      if negb (r.1 =? sizeof_elfhdr) then bad 0 (Some ip)
      else if negb (elf_magic elf =? ELF_MAGIC) then bad 0 (Some ip)
      else
        pgdir <- on_mem (setupkvm end_ data) ;;
        if pgdir =? 0 then bad 0 (Some ip)
        else
          o <- mwhile (S (Z.to_nat (elf_phnum elf))) (segment_step pgdir ip (elf_phnum elf)) (0, elf_phoff elf, 0) ;;
          match o with
          | None => bad pgdir (Some ip)
          | Some sz =>
              iunlockput ip ;;;
              end_op ;;;
              exec_stack path argv elf pgdir sz
          end
  end.
End ops.
