(* ===== verification/ExecMem.v ===== *)
(** * The memory of a new program

    What [exec] makes of the bytes of a program file and of its arguments, as a
    function ([program], [push_args], [new_image]); and the page table under
    construction beside the old one. *)

From S2P Require Import Prelude Params Bytes Str Sleeplock Block Fs Kalloc Vm VmTable VmSpace VmGrow VmUser Exec.
Import Kalloc.

(** ** The image as a function of the file *)

(** The bytes [bs] at [va]. *)
Definition upd (mem : Z -> Z) (va : Z) (bs : list Z) (x : Z) : Z :=
  if decide (va <= x < va + Z.of_nat (length bs)) then default 0 (bs !! Z.to_nat (x - va)) else mem x.

(** A program header at [off]: the size and the memory after it, if it is good. *)
Definition segment (f : list Z) (off : Z) (img : Z * (Z -> Z)) : option (Z * (Z -> Z)) :=
  let len := Z.of_nat (length f) in
  let ph := slice (Z.to_nat off) 32 f in
  let top := ph_vaddr ph + ph_memsz ph in
  if len <? off + 32 then None
  else if negb (ph_type ph =? ELF_PROG_LOAD) then Some img
  else if ph_memsz ph <? ph_filesz ph then None
  else if (KERNBASE <=? top) || (Z.max img.1 top =? 0) || negb (ph_vaddr ph mod PGSIZE =? 0) then None
  else if (0 <? ph_filesz ph) && (len <? ph_off ph + ph_filesz ph) then None
  else Some (Z.max img.1 top, upd img.2 (ph_vaddr ph) (slice (Z.to_nat (ph_off ph)) (Z.to_nat (ph_filesz ph)) f)).
Fixpoint segments (n : nat) (f : list Z) (off : Z) (img : Z * (Z -> Z)) : option (Z * (Z -> Z)) :=
  match n with
  | O => Some img
  | S n => img' ← segment f off img; segments n f (u32 (off + 32)) img'
  end.
Definition program (f : list Z) : option (Z * (Z -> Z)) :=
  if Z.of_nat (length f) <? 52 then None
  else if negb (elf_magic f =? ELF_MAGIC) then None
  else segments (Z.to_nat (elf_phnum f)) f (elf_phoff f) (0, fun _ => 0).

(** The strings on the stack, not below [lo]: the stack pointer, the addresses
    of the strings and the memory. *)
Fixpoint push_args (lo sp : Z) (mem : Z -> Z) (argv : list (list Z)) : option (Z * list Z * (Z -> Z)) :=
  match argv with
  | [] => Some (sp, [], mem)
  | a :: argv =>
      let sp' := (sp - (Z.of_nat (length a) + 1)) / 4 * 4 in
      if sp' <? lo then None
      else '(sp2, us, mem2) ← push_args lo sp' (upd mem sp' (a ++ [0])) argv; Some (sp2, sp' :: us, mem2)
  end.

Record new_prog := NewProg { np_sz : Z; np_eip : Z; np_esp : Z; np_mem : Z -> Z }.

(** The size of the image with the guard page and the stack, which is its last
    page. *)
Definition stack_top (sz : Z) : Z := npages sz * PGSIZE + 2 * PGSIZE.
Definition new_image (f : list Z) (argv : list (list Z)) : option new_prog :=
  '(sz, mem) ← program f;
  let top := stack_top sz in
  let argc := Z.of_nat (length argv) in
  if (KERNBASE <=? top) || (32 <? argc) then None
  else
    '(sp, us, mem) ← push_args (top - PGSIZE) top mem argv;
    let esp := sp - (3 + argc + 1) * 4 in
    if esp <? top - PGSIZE then None
    else Some (NewProg top (elf_entry f) esp (upd mem esp (mjoin (le 4 <$> [0xffffffff; argc; sp - (argc + 1) * 4] ++ us ++ [0])))).

Lemma segment_mono f off img img' : segment f off img = Some img' -> img.1 <= img'.1.
Proof.
  unfold segment. cbv zeta. intros E. repeat (case_match; try done; simplify_eq/=; try lia).
Qed.
Lemma segments_mono f n : forall off img img', segments n f off img = Some img' -> img.1 <= img'.1.
Proof.
  induction n as [|n IH]; intros off img img' E; simpl in E; [by simplify_eq|]. destruct (segment f off img) as [i1|] eqn:E1; [|done].
  simpl in E. apply segment_mono in E1. apply IH in E. lia.
Qed.

(** ** The new page table beside the old one *)

Section building.
Context (end_ : Z) (Hend : KERNBASE < end_).
Context (data : Z) (Hdata : aligned data /\ KERNLINK < data < KERNBASE + PHYSTOP).
Notation page := (page end_).
Notation kinv := (kinv end_).
Notation space := (space end_).
(** The old address space [A], the free pages [l0], and the pages [R] of others. *)
Context (s0 : kmem) (l0 : list Z) (A : aspace) (R : list Z) (Hs0 : space s0 l0 A R).
Implicit Types (s : kmem) (l : list Z) (B : aspace) (mem : Z -> Z).

Record building s l B : Prop := {
  bd_space : space s l B (owned A ++ R);
  bd_own : owned B ++ l ≡ₚ l0;
  bd_kern : kern s B (kpte data);
  bd_frame a : a ∈ owned A ++ R -> pages s !! a = pages s0 !! a;
}.

(** The first pages of [B] have the memory [mem] of [sz] bytes. *)
Record filled s l B sz mem : Prop := {
  fl_bd : building s l B;
  fl_sz : 0 <= sz < KERNBASE;
  fl_in n : 0 <= n < npages sz -> exists a, as_user B !! n = Some (a, 7);
  fl_out n : ~ 0 <= n < npages sz -> as_user B !! n = None;
  fl_mem x : 0 <= x < npages sz * PGSIZE -> ubyte s B x = Some (mem x);
  fl_zero x : npages sz * PGSIZE <= x -> mem x = 0;
  fl_cost : Z.of_nat (length l0) <= Z.of_nat (length l) + 65 + 2 * npages sz;
}.

(** The new page table is gone. *)
Record restored s l : Prop := {
  rs_space : space s l A R;
  rs_free : l ≡ₚ l0;
  rs_frame a : a ∈ owned A ++ R -> pages s !! a = pages s0 !! a;
}.

Lemma restore s l : kinv s l -> l ≡ₚ l0 -> (forall a, a ∈ owned A ++ R -> pages s !! a = pages s0 !! a) -> restored s l.
Proof.
  intros Hk Hl Hf. split; [|done|done]. eapply space_ext; [exact Hs0|done|by rewrite Hl|]. intros a Ha. apply Hf, elem_of_app. by left.
Qed.

Lemma npages_nonneg sz : 0 <= sz -> 0 <= npages sz.
Proof. intros. unfold npages, PGSIZE. zlia. Qed.
Lemma npages_mono a b : a <= b -> npages a <= npages b.
Proof. intros. unfold npages, PGSIZE. zlia. Qed.
Lemma npages_user sz : sz < KERNBASE -> npages sz <= NUSER.
Proof. unfold npages, NUSER, KERNBASE, PGSIZE. zlia. Qed.

Lemma owned_pages B n a f : as_user B !! n = Some (a, f) -> a ∈ owned B.
Proof. intros E. right. apply elem_of_app. right. by eapply user_in. Qed.

Section rules.
Context (P : prot kmem).

Lemma wp_exec_setup (Q : Z -> kmem -> Prop) : (forall s l B, filled s l B 0 (fun _ => 0) -> Q (as_dir B) s) ->
  (forall s l, restored s l -> (length l0 <= 64)%nat -> Q 0 s) -> wp P (setupkvm end_ data) s0 Q.
Proof.
  intros HS HF. assert (Hnd : NoDup ((owned A ++ R) ++ l0)).
  { eapply nodup_perm; [|exact (sp_nodup _ _ _ _ _ Hs0)]. unfold owned. simpl. by rewrite <- !app_assoc. }
  eapply wp_setupkvm; [exact Hend|exact Hdata|apply Hs0|exact Hnd| |].
  - intros s l B Hs Hu Hk Ht Ho _ Hf. apply (HS s l B). split; [by split|unfold KERNBASE; lia|..].
    + intros n Hn. unfold npages, PGSIZE in Hn. change ((0 + 4096 - 1) / 4096) with 0 in Hn. lia.
    + intros n _. by rewrite Hu, lookup_empty.
    + intros x Hx. unfold npages, PGSIZE in Hx. change ((0 + 4096 - 1) / 4096) with 0 in Hx. lia.
    + done.
    + pose proof (Permutation_length Ho) as E. rewrite length_app, length_owned, Hu, map_size_empty in E. pose proof (ktab_le B Ht). change (npages 0) with 0. lia.
  - intros s l Hk Hl Hf Hc. apply (HF s l); [by apply restore|done].
Qed.

Lemma wp_exec_free s l B (Q : unit -> kmem -> Prop) : building s l B ->
  (forall s' l', restored s' l' -> Q tt s') -> wp P (freevm end_ (as_dir B)) s Q.
Proof.
  intros Hb HQ. eapply wp_freevm; [exact Hend|apply Hb|]. intros s' l' Hk Hl Hf. apply (HQ s' l'), restore; [done| |].
  - rewrite Hl. apply Hb.
  - intros a Ha. rewrite Hf by done. by apply Hb.
Qed.

Lemma wp_exec_alloc s l B sz mem newsz (Q : Z -> kmem -> Prop) : filled s l B sz mem -> 0 <= newsz ->
  (KERNBASE <= newsz -> Q 0 s) ->
  (newsz < KERNBASE -> forall s' l' B', filled s' l' B' (Z.max sz newsz) mem -> as_dir B' = as_dir B -> Q (Z.max sz newsz) s') ->
  (newsz < KERNBASE -> forall s' l' B', building s' l' B' -> as_dir B' = as_dir B -> Z.of_nat (length l0) < 65 + 2 * npages newsz -> Q 0 s') ->
  wp P (allocuvm end_ (as_dir B) sz newsz) s Q.
Proof.
  intros F Hn HK HS HF. pose proof (fl_bd _ _ _ _ _ F) as Hb. pose proof (fl_sz _ _ _ _ _ F) as Hsz.
  eapply wp_allocuvm; [exact Hend|apply Hb|done|done| |exact HK| | |].
  - intros m Hm. apply (fl_out _ _ _ _ _ F). lia.
  - intros Hlt. rewrite <- (Z.max_l sz newsz) by lia. apply (HS ltac:(lia) s l B); [|done]. by rewrite Z.max_l by lia.
  - intros Hle s' l' B' E. rewrite <- (Z.max_r sz newsz) by lia. pose proof (npages_mono sz newsz ltac:(lia)) as Hm. pose proof (npages_nonneg sz ltac:(lia)) as Hm0.
    assert (Hub : forall x, 0 <= x < npages sz * PGSIZE -> ubyte s' B' x = ubyte s B x).
    { intros x Hx. assert (Hp : 0 <= x / PGSIZE < npages sz) by (unfold PGSIZE in *; zlia). destruct (fl_in _ _ _ _ _ F _ Hp) as [a Ea].
      unfold ubyte. rewrite (en_same _ _ _ _ _ _ _ _ _ _ E) by lia. rewrite Ea. unfold pg. rewrite (en_frame _ _ _ _ _ _ _ _ _ _ E); [done|]. left. by eapply user_in. }
    apply (HS ltac:(lia) s' l' B'); [|apply E]. rewrite Z.max_r by lia. split; [split|lia|..].
    + apply E.
    + rewrite (en_own _ _ _ _ _ _ _ _ _ _ E). apply Hb.
    + intros n Hn'. rewrite (en_kern _ _ _ _ _ _ _ _ _ _ E) by lia. by apply Hb.
    + intros a Ha. rewrite (en_frame _ _ _ _ _ _ _ _ _ _ E) by auto. by apply Hb.
    + intros n Hn'. destruct (decide (n < npages sz)); [rewrite (en_same _ _ _ _ _ _ _ _ _ _ E) by lia; apply F; lia|].
      destruct (en_new _ _ _ _ _ _ _ _ _ _ E n ltac:(lia)) as (a & Ea & _). by exists a.
    + intros n Hn'. rewrite (en_same _ _ _ _ _ _ _ _ _ _ E) by lia. apply F. lia.
    + intros x Hx. destruct (decide (x < npages sz * PGSIZE)); [rewrite Hub by lia; apply F; lia|]. rewrite (fl_zero _ _ _ _ _ F) by lia.
      unfold ubyte. destruct (en_new _ _ _ _ _ _ _ _ _ _ E (x / PGSIZE)) as (a & Ea & Ez); [unfold PGSIZE in *; zlia|]. rewrite Ea. unfold pg. rewrite Ez. simpl.
      apply lookup_replicate_2. unfold PGSIZE. zlia.
    + intros x Hx. apply F. unfold PGSIZE in *. lia.
    + pose proof (en_cost _ _ _ _ _ _ _ _ _ _ E). pose proof (fl_cost _ _ _ _ _ F). lia.
  - intros Hle s' l' B' Kp Hc. pose proof (fl_cost _ _ _ _ _ F). apply (HF ltac:(lia) s' l' B'); [|apply Kp|lia]. split.
    + apply Kp.
    + rewrite (kp_own _ _ _ _ _ _ _ _ Kp). apply Hb.
    + intros n Hn'. rewrite (kp_kern _ _ _ _ _ _ _ _ Kp) by lia. by apply Hb.
    + intros a Ha. rewrite (kp_frame _ _ _ _ _ _ _ _ Kp) by auto. by apply Hb.
Qed.

(** *** Stores *)

Lemma bd_user s l B s' : building s l B -> user_only end_ s l B (owned A ++ R) s' -> building s' l B.
Proof.
  intros Hb U. destruct (space_facts _ _ _ _ _ (bd_space _ _ _ Hb)) as [_ Hd]. destruct (owned_facts _ _ _ _ (sp_nodup _ _ _ _ _ (bd_space _ _ _ Hb))) as (_ & _ & _ & Ht & _).
  split; [apply U|apply Hb| |].
  - intros n Hn. rewrite (ent_ext s); [by apply Hb|]. intros t Htin. unfold pg. rewrite (uo_frame _ _ _ _ _ _ U); [done|]. intros Hu.
    destruct (Ht t Htin) as [_ Hr]. apply Hr, elem_of_app. by left.
  - intros a Ha. rewrite (uo_frame _ _ _ _ _ _ U); [by apply Hb|]. intros (n & f & E)%in_user. destruct (Hd n a f E) as (_ & _ & _ & Hr). done.
Qed.
Lemma put_user_only s l B R' va bs s' : put_user end_ s l B R' va bs s' -> user_only end_ s l B R' s'.
Proof. intros X. split; apply X. Qed.

Lemma put_upd s l B R' va bs s' mem x : put_user end_ s l B R' va bs s' -> ubyte s B x = Some (mem x) -> ubyte s' B x = Some (upd mem va bs x).
Proof.
  intros X E. rewrite (pu_bytes _ _ _ _ _ _ _ _ X). unfold upd. case_decide as H; [|done]. destruct (bs !! Z.to_nat (x - va)) eqn:Eb; [done|].
  apply lookup_ge_None in Eb. lia.
Qed.

Lemma filled_put s l B sz mem va bs s' : filled s l B sz mem -> va + Z.of_nat (length bs) <= npages sz * PGSIZE ->
  put_user end_ s l B (owned A ++ R) va bs s' -> filled s' l B sz (upd mem va bs).
Proof.
  intros F Hva X. split; [|apply F|apply F|apply F| | |apply F].
  - eapply bd_user; [apply F|by eapply put_user_only].
  - intros x Hx. eapply put_upd; [exact X|by apply F].
  - intros x Hx. unfold upd. rewrite decide_False by lia. by apply F.
Qed.

(** The page of an address: what [loaduvm] looks up. *)
Lemma wp_walk_user s l B R' n a f (Q : option pte_ptr -> kmem -> Prop) : space s l B R' -> as_user B !! n = Some (a, f) ->
  (forall pte, get_pte pte s = Ret (Z.lor (V2P a) f) s -> P2V (PTE_ADDR (Z.lor (V2P a) f)) = a -> page a -> Q (Some pte) s) ->
  wp P (walkpgdir (as_dir B) (n * PGSIZE) false) s Q.
Proof.
  intros Hs E HQ. destruct (sp_user _ _ _ _ _ Hs n a f E) as (Hn & Hp & Hf & Hh). destruct (user_entry_facts _ a f Hp Hf Hh) as (_ & H1 & H2 & _).
  assert (Hent := sp_ent _ _ _ _ _ Hs n Hn). rewrite E in Hent. simpl in Hent. unfold ent in Hent.
  eapply wp_walkpgdir; [apply Hs|apply Hs|exact (sp_nodup _ _ _ _ _ Hs)|unfold is_u32, NUSER, PGSIZE in *; lia|..].
  all: replace (n * PGSIZE / PGSIZE) with n by (unfold PGSIZE; zlia).
  - intros t Ht Hpt. rewrite Ht in Hent. apply HQ; [|done|done]. destruct (kinv_pg _ _ _ _ (sp_inv _ _ _ _ _ Hs) Hpt) as [Ept _].
    unfold get_pte. simpl. rewrite Ept. f_equal. exact Hent.
  - intros Hnone. rewrite Hnone in Hent. rewrite <- Hent in H1. done.
  - done.
  - done.
Qed.

(** *** The stack *)

(** The last page of [N] is the stack, the one before it the guard. *)
Record stacked s l B N mem : Prop := {
  st_bd : building s l B;
  st_N : 2 <= N /\ N * PGSIZE < KERNBASE;
  st_in n : 0 <= n < N -> n <> N - 2 -> exists a, as_user B !! n = Some (a, 7);
  st_guard : exists a f, as_user B !! (N - 2) = Some (a, f) /\ has f PTE_U = false;
  st_out n : ~ 0 <= n < N -> as_user B !! n = None;
  st_mem x : 0 <= x < N * PGSIZE -> ubyte s B x = Some (mem x);
}.

Lemma wp_exec_guard s l B N mem (Q : unit -> kmem -> Prop) : filled s l B (N * PGSIZE) mem -> 2 <= N ->
  (forall s' B', stacked s' l B' N mem -> as_dir B' = as_dir B -> Q tt s') ->
  wp P (clearpteu (as_dir B) ((N - 2) * PGSIZE)) s Q.
Proof.
  intros F HN HQ. assert (En : npages (N * PGSIZE) = N) by (unfold npages, PGSIZE; zlia). pose proof (fl_sz _ _ _ _ _ F) as Hsz.
  pose proof (fl_bd _ _ _ _ _ F) as Hb. destruct (fl_in _ _ _ _ _ F (N - 2)) as [a Ea]; [lia|].
  destruct (space_facts _ _ _ _ _ (bd_space _ _ _ Hb)) as [_ Hd]. destruct (owned_facts _ _ _ _ (sp_nodup _ _ _ _ _ (bd_space _ _ _ Hb))) as (_ & _ & _ & Ht & _).
  eapply wp_clearpteu; [apply Hb|exact Ea|]. intros s' Hs' Hf He. apply (HQ s' (guarded B (N - 2) a 7)); [|done].
  assert (Hpg : forall n b g, as_user B !! n = Some (b, g) -> pg s' b = pg s b).
  { intros n b g Hn. unfold pg. rewrite Hf; [done|]. by destruct (Hd n b g Hn) as (_ & _ & ? & _). }
  split; [split|split; [done|lia]|..].
  - exact Hs'.
  - rewrite <- (bd_own _ _ _ Hb). unfold owned. simpl. apply Permutation_skip. rewrite <- !app_assoc. apply Permutation_app_head, Permutation_app_tail.
    exact (guarded_pages B (N - 2) a 7 Ea).
  - intros n Hn. simpl. rewrite He by (unfold NUSER, KERNBASE, PGSIZE in *; lia). by apply Hb.
  - intros b Hin. rewrite Hf; [by apply Hb|]. intros Hti. destruct (Ht b Hti) as [_ Hr]. apply Hr, elem_of_app. by right.
  - intros n Hn Hne. simpl. rewrite lookup_insert_ne by done. apply F. lia.
  - exists a, (Z.ldiff 7 PTE_U). simpl. by rewrite lookup_insert_eq.
  - intros n Hn. simpl. rewrite lookup_insert_ne by lia. apply F. lia.
  - intros x Hx. rewrite <- (fl_mem _ _ _ _ _ F x) by (rewrite En; lia). unfold ubyte. simpl. destruct (decide (N - 2 = x / PGSIZE)) as [<-|Hne].
    + rewrite lookup_insert_eq, Ea. by rewrite (Hpg _ _ _ Ea).
    + rewrite lookup_insert_ne by done. destruct (as_user B !! (x / PGSIZE)) as [[b g]|] eqn:Eb; [|done]. by rewrite (Hpg _ _ _ Eb).
Qed.

(** [copyout] to the stack page. *)
Lemma wp_exec_push s l B N mem va bs (Q : Z -> kmem -> Prop) : stacked s l B N mem ->
  (N - 1) * PGSIZE <= va -> va + Z.of_nat (length bs) <= N * PGSIZE ->
  (forall s', stacked s' l B N (upd mem va bs) -> Q 0 s') -> wp P (copyout (as_dir B) va bs) s Q.
Proof.
  intros S Hlo Hhi HQ. destruct (st_N _ _ _ _ _ S) as [HN HK]. unfold copyout. eapply wp_copyout_loop; [apply (st_bd _ _ _ _ _ S)|unfold PGSIZE in *; lia|lia|lia| |].
  - intros x Hx. destruct (st_in _ _ _ _ _ S (x / PGSIZE)) as [a Ea]; [unfold PGSIZE in *; zlia..|]. by exists a, 7.
  - intros s' X. apply HQ. split; [|apply S..|].
    + eapply bd_user; [apply S|by eapply put_user_only].
    + intros x Hx. eapply put_upd; [exact X|by apply S].
Qed.

(** [copyout] that would go into the guard page. *)
Lemma wp_exec_overflow s l B N mem va bs (Q : Z -> kmem -> Prop) : stacked s l B N mem ->
  0 <= va < (N - 1) * PGSIZE -> (N - 2) * PGSIZE < va + Z.of_nat (length bs) <= N * PGSIZE -> bs <> [] ->
  (forall s', building s' l B -> Q (-1) s') -> wp P (copyout (as_dir B) va bs) s Q.
Proof.
  intros S Hva Hhi Hbs HQ. destruct (st_N _ _ _ _ _ S) as [HN HK]. destruct (st_guard _ _ _ _ _ S) as (g & f & Eg & Hf).
  assert (Hlen : (0 < length bs)%nat) by (destruct bs; [done|simpl; lia]).
  unfold copyout. eapply wp_copyout_some; [apply (st_bd _ _ _ _ _ S)|lia|lia|lia| | |].
  - intros x Hx. unfold mapped. destruct (decide (x / PGSIZE = N - 2)) as [->|Hne]; [by rewrite Eg|].
    destruct (st_in _ _ _ _ _ S (x / PGSIZE)) as [a Ea]; [unfold PGSIZE in *; zlia|done|]. by rewrite Ea.
  - exists (Z.max va ((N - 2) * PGSIZE)). split; [lia|]. intros (a & f' & Ea & Hf').
    replace (Z.max va ((N - 2) * PGSIZE) / PGSIZE) with (N - 2) in Ea by (unfold PGSIZE in *; zlia). rewrite Eg in Ea. injection Ea as <- <-. congruence.
  - intros s' U. apply HQ. eapply bd_user; [apply S|exact U].
Qed.

(** [copyout] to the addresses of devices, below 0. *)
Lemma wp_exec_wrapped s l B va bs (Q : Z -> kmem -> Prop) : building s l B -> DEVSPACE <= va < 2 ^ 32 -> bs <> [] ->
  Q (-1) s -> wp P (copyout (as_dir B) va bs) s Q.
Proof.
  intros Hb Hva Hbs HQ. unfold copyout. destruct bs as [|b bs]; [done|]. cbn [length mwhile]. apply wp_bind. unfold copyout_step. cbn [length].
  rewrite (proj2 (Z.ltb_lt 0 _)) by lia. rewrite PGROUNDDOWN_eq by (unfold is_u32, DEVSPACE in *; lia). set (n := va / PGSIZE).
  assert (Hn : 1040384 <= n < 2 ^ 20) by (unfold n, DEVSPACE, PGSIZE in *; zlia).
  apply wp_bind. unfold uva2ka. apply wp_bind. pose proof (bd_kern _ _ _ Hb n ltac:(unfold NUSER; lia)) as Hent.
  unfold kpte in Hent. rewrite !decide_False in Hent by (unfold KERNLINK, KERNBASE, EXTMEM, PHYSTOP, DEVSPACE, PGSIZE in *; lia). unfold ent in Hent.
  assert (Ha : aligned (n * PGSIZE)) by (unfold aligned, PGSIZE; zlia).
  assert (Hp : has (page_entry (n * PGSIZE) PTE_W) PTE_P = true) by (by rewrite page_entry_eq, pte_has).
  assert (Hu : has (page_entry (n * PGSIZE) PTE_W) PTE_U = false) by (by rewrite page_entry_eq, pte_has).
  pose proof (bd_space _ _ _ Hb) as Hs. eapply wp_walkpgdir; [apply Hs|apply Hs|exact (sp_nodup _ _ _ _ _ Hs)|unfold is_u32, PGSIZE in *; lia|..].
  all: replace (n * PGSIZE / PGSIZE) with n by (unfold PGSIZE; zlia).
  - intros t Ht Hpt. rewrite Ht in Hent. apply wp_bind. eapply wp_get_pte; [apply Hs|done|]. rewrite Hent, Hp, Hu. simpl.
    apply wp_ret, wp_ret, wp_ret. exact HQ.
  - intros Hnone. rewrite Hnone in Hent. by rewrite <- Hent in Hp.
  - done.
  - done.
Qed.

(** The old page table is given up for the new one. *)
Record replaced s l B N mem : Prop := {
  rp_space : space s l B R;
  rp_own : owned B ++ l ≡ₚ owned A ++ l0;
  rp_in n : 0 <= n < N -> n <> N - 2 -> exists a, as_user B !! n = Some (a, 7);
  rp_guard : exists a f, as_user B !! (N - 2) = Some (a, f) /\ has f PTE_U = false;
  rp_out n : ~ 0 <= n < N -> as_user B !! n = None;
  rp_mem x : 0 <= x < N * PGSIZE -> ubyte s B x = Some (mem x);
  rp_frame a : a ∈ R -> pages s !! a = pages s0 !! a;
}.

Lemma wp_exec_replace s l B N mem (Q : unit -> kmem -> Prop) : stacked s l B N mem ->
  (forall s' l', replaced s' l' B N mem -> Q tt s') -> wp P (freevm end_ (as_dir A)) s Q.
Proof.
  intros S HQ. pose proof (st_bd _ _ _ _ _ S) as Hb. assert (HA : space s l A (owned B ++ R)).
  { eapply space_ext; [exact Hs0|apply Hb| |].
    - rewrite <- (bd_own _ _ _ Hb). rewrite <- !app_assoc. rewrite (Permutation_app_comm R l). rewrite app_assoc. apply Permutation_app_comm.
    - intros a Ha. apply Hb, elem_of_app. by left. }
  eapply wp_freevm; [exact Hend|exact HA|]. intros s' l' Hk Hl Hf.
  assert (Hpg : forall a, a ∈ owned B -> pages s' !! a = pages s !! a) by (intros a Ha; apply Hf, elem_of_app; by left).
  apply (HQ s' l'). split; [| |apply S..| |].
  - eapply space_ext; [apply Hb|exact Hk| |exact Hpg]. rewrite Hl, app_assoc. apply Permutation_app_tail, Permutation_app_comm.
  - rewrite Hl, <- (bd_own _ _ _ Hb), !app_assoc. apply Permutation_app_tail, Permutation_app_comm.
  - intros x Hx. rewrite <- (st_mem _ _ _ _ _ S x Hx). unfold ubyte. destruct (as_user B !! (x / PGSIZE)) as [[b g]|] eqn:E; [|done].
    unfold pg. rewrite Hpg; [done|]. by eapply owned_pages.
  - intros a Ha. rewrite Hf by (apply elem_of_app; by right). apply Hb, elem_of_app. by right.
Qed.
End rules.
End building.
