(* ===== verification/ExecLoad.v ===== *)
(** * [exec] (exec.c)

    [exec] implements [new_image]: it replaces the image of the process by the
    one that the program file and the arguments make, or changes nothing. *)

From S2P Require Import Prelude Params Bytes Str Sleeplock Block Fs Kalloc Vm VmTable VmSpace VmGrow VmUser.
From S2P Require Import FsBlock FsInode FsFile FsRw FsTrunc FsDir FsPath FileRw Exec ExecMem.
Import Kalloc.

(** ** Slices and updates *)

Lemma slice_join o n m (f : list Z) : slice o n f ++ slice (o + n) m f = slice o (n + m) f.
Proof. unfold slice. rewrite <- drop_drop. apply take_take_drop. Qed.

Lemma upd_upd mem va a b x : upd (upd mem va a) (va + Z.of_nat (length a)) b x = upd mem va (a ++ b) x.
Proof.
  unfold upd. rewrite length_app. repeat case_decide; try lia; try done.
  - rewrite lookup_app_r by lia. do 2 f_equal. lia.
  - by rewrite lookup_app_l by lia.
Qed.
Lemma upd_nil mem va x : upd mem va [] x = mem x.
Proof. unfold upd. rewrite decide_False; [done|]. simpl. lia. Qed.

Lemma word_down z : is_u32 z -> Z.land z (u32 (Z.lnot 3)) = z / 4 * 4.
Proof.
  intros Hz. rewrite land_u32_r by done. change 3 with (Z.ones 2). rewrite <- Z.ldiff_land, Z.ldiff_ones_r by lia.
  by rewrite Z.shiftl_mul_pow2, Z.shiftr_div_pow2 by lia.
Qed.
Lemma length_ustack ws : length (mjoin (le 4 <$> ws)) = (4 * length ws)%nat.
Proof. induction ws as [|w ws IH]; [done|]. rewrite fmap_cons. change (mjoin (le 4 w :: ?l)) with (le 4 w ++ mjoin l). rewrite length_app, IH, length_le. simpl. lia. Qed.
Lemma cstr_text t : 0 ∉ t -> cstr (t ++ [0]) = t.
Proof. induction t as [|y t IH]; intros Ht; [done|]. simpl. apply not_elem_of_cons in Ht as [Hy Ht]. rewrite (proj2 (Z.eqb_neq y 0)) by done. by rewrite IH. Qed.
Lemma after_slash_in path y : y ∈ after_slash path -> y ∈ path.
Proof.
  unfold after_slash. induction path as [|z path IH] using rev_ind; [done|]. rewrite foldl_app. simpl. destruct (z =? SLASH); [set_solver|]. set_solver.
Qed.
Lemma push_args_length lo : forall argv sp mem sp' us mem', push_args lo sp mem argv = Some (sp', us, mem') ->
  length us = length argv /\ (lo <= sp -> lo <= sp' <= sp).
Proof.
  induction argv as [|y argv IH]; intros sp mem sp' us mem' E; simpl in E; [by simplify_eq|]. destruct (Z.ltb_spec ((sp - (Z.of_nat (length y) + 1)) / 4 * 4) lo) as [Hlt|Hge]; [done|].
  destruct (push_args lo _ _ argv) as [[[sp2 us2] mem2]|] eqn:E2; [|done]. simpl in E. simplify_eq. destruct (IH _ _ _ _ _ E2) as [L1 L2]. split; [simpl; lia|]. intros _. specialize (L2 Hge). zlia.
Qed.

Lemma npages_round n : npages (n * PGSIZE) = n.
Proof. unfold npages, PGSIZE. zlia. Qed.

Section exec.
Context {T : Type} `{TxOpsOk T} {lim : nat} `{!TxLimit lim}.
Notation X := (xk T).
Notation srep := (srep lim).
Context (mypid : Z) (fuel : nat) (Hfuel : (0 < fuel)%nat).
Context (dev_read : Z -> option (nat -> Z -> M (fs T) (Z * list Z))).
Context (end_ : Z) (Hend : KERNBASE < end_).
Context (data : Z) (Hdata : aligned data /\ KERNLINK < data < KERNBASE + PHYSTOP).
Implicit Types (km : kmem) (l : list Z) (B : aspace) (mem : Z -> Z) (c : Z -> list Z) (e : T).

Lemma wp_exec_fs {A} (m : M (fs T) A) (s : X) (Q : A -> X -> Prop) :
  wp strict m (x_fs s) (fun a y => Q a (s <| x_fs := y |>)) -> wp strict (on_fs m) s Q.
Proof. unfold wp, on_fs, lift. destruct (m (x_fs s)); simpl; try done. by intros [[] _]. Qed.
Lemma wp_on_mem {A} (m : M kmem A) (s : X) (Q : A -> X -> Prop) :
  wp strict m (x_mem s) (fun a y => Q a (s <| x_mem := y |>)) -> wp strict (on_mem m) s Q.
Proof. unfold wp, on_mem, lift. destruct (m (x_mem s)); simpl; try done. by intros [[] _]. Qed.

(** ** The open program file *)

Section loading.
(** The old address space. *)
Context (km0 : kmem) (l0 : list Z) (A : aspace) (R : list Z) (Hs0 : space end_ km0 l0 A R).
Notation building := (building end_ data km0 l0 A R).
Notation filled := (filled end_ data km0 l0 A R).
(** The file system when the inode is locked, and the rest of the state. *)
Context (F1 : fs T) (c : Z -> list Z) (j : nat) (x : inode) (cpu : regs) (pr : image).
Context (Hd : disk_ok (sb F1) c) (Ho : file_ok (sb F1) c x) (Hi : inodes F1 !! j = Some x) (Hty : i_type x <> T_DEV).
Notation f := (contents c x).
Context (Hby : bytes f).
Notation st e km := (XK (wfs F1 e) km cpu pr).

Lemma file_len : Z.of_nat (length f) = i_size x.
Proof. unfold contents. rewrite length_fbytes. pose proof (ty_size _ (fo_typed _ _ _ Ho)). unfold is_u32 in *. lia. Qed.
Lemma file_small : i_size x < 2 ^ 20.
Proof. pose proof (fo_size _ _ _ Ho). rewrite MAXFILE_eq, BSIZE_eq in *. lia. Qed.

Lemma wp_exec_readi e km off n (Q : Z * list Z -> X -> Prop) : srep e c ∅ ∅ -> is_u32 off -> is_u32 n ->
  (forall e' r, srep e' c ∅ ∅ -> (off + n <= Z.of_nat (length f) -> r = (n, slice (Z.to_nat off) (Z.to_nat n) f)) ->
     (Z.of_nat (length f) < off + n -> r.1 <> n) -> Z.of_nat (length r.2) <= n -> Q r (st e' km)) ->
  wp strict (on_fs (readi dev_read j off n)) (st e km) Q.
Proof.
  intros Hs Hoff Hn HQ. pose proof file_len. pose proof file_small. unfold is_u32 in *. apply wp_exec_fs. cbn [x_fs].
  eapply wp_readi; [reflexivity|exact Hd|exact Ho|exact Hi|exact Hs|exact Hty|done|done| |].
  - intros Hbad. apply (HQ e (-1, [])); [done|lia|simpl; lia|simpl; lia].
  - intros Hr1 Hr2 e' Hs' m. apply (HQ e' (m, fbytes c x (Z.to_nat off) (Z.to_nat m))); [done| | |].
    + intros Hle. replace m with n by (unfold m; lia). f_equal. symmetry. apply slice_contents. lia.
    + simpl. unfold m. lia.
    + simpl. rewrite length_fbytes. unfold m. lia.
Qed.

Lemma filled_ext km l B sz mem mem' : (forall y, mem y = mem' y) -> filled km l B sz mem -> filled km l B sz mem'.
Proof. intros E []. split; try done; [intros y Hy; by rewrite <- E; auto|intros y Hy; rewrite <- E; auto]. Qed.

(** *** [loaduvm] *)

Lemma wp_load_loop l B sz mem va off filesz k : forall i e km (Q : Z -> X -> Prop),
  va mod PGSIZE = 0 -> 0 <= va -> va + filesz <= sz -> is_u32 off -> 0 <= i -> i mod PGSIZE = 0 -> i <= filesz + PGSIZE - 1 -> (1 <= k)%nat -> filesz - i <= (Z.of_nat k - 1) * PGSIZE ->
  srep e c ∅ ∅ -> (i = 0 \/ off + Z.min i filesz <= Z.of_nat (length f)) ->
  filled km l B sz (upd mem va (slice (Z.to_nat off) (Z.to_nat (Z.min i filesz)) f)) ->
  (filesz <= 0 \/ off + filesz <= Z.of_nat (length f) -> forall e' km', srep e' c ∅ ∅ ->
     filled km' l B sz (upd mem va (slice (Z.to_nat off) (Z.to_nat filesz) f)) -> Q 0 (st e' km')) ->
  (0 < filesz -> Z.of_nat (length f) < off + filesz -> forall e' km', srep e' c ∅ ∅ -> building km' l B -> Q (-1) (st e' km')) ->
  wp strict (mwhile k (load_step dev_read (as_dir B) va j off filesz) i) (st e km) Q.
Proof.
  induction k as [|k IH]; intros i e km Q Hva Hva0 Hsz Hoff Hi0 Him Hif Hk1 Hk Hs Hlen F HS HF; [lia|].
  cbn [mwhile]. apply wp_bind. unfold load_step at 1. pose proof (fl_sz _ _ _ _ _ _ _ _ _ _ _ F) as Hsz'. unfold is_u32 in Hoff.
  pose proof file_len as Hfl. pose proof file_small as Hfs.
  destruct (i <? filesz) eqn:E.
  2: { apply Z.ltb_ge in E. rewrite Z.min_r in F, Hlen by lia. apply wp_ret, wp_ret. apply HS; [destruct Hlen; [left|right]; lia|done|done]. }
  apply Z.ltb_lt in E. rewrite Z.min_l in F, Hlen by lia. set (n := if filesz - i <? PGSIZE then filesz - i else PGSIZE).
  assert (Hn : 0 < n <= PGSIZE /\ i + n <= filesz /\ (n = PGSIZE \/ i + n = filesz)) by (unfold n, PGSIZE; destruct (Z.ltb_spec (filesz - i) 4096); lia).
  set (pn := (va + i) / PGSIZE). assert (Epn : va + i = pn * PGSIZE) by (unfold pn, PGSIZE in *; zlia).
  destruct (fl_in _ _ _ _ _ _ _ _ _ _ _ F pn) as [a Ea]; [unfold pn, npages, PGSIZE in *; zlia|].
  pose proof (bd_space _ _ _ _ _ _ _ _ _ (fl_bd _ _ _ _ _ _ _ _ _ _ _ F)) as Hsp.
  rewrite u32_small by (unfold is_u32, KERNBASE in *; lia). rewrite Epn. apply wp_bind, wp_on_mem. cbn [x_mem].
  eapply wp_walk_user; [exact Hsp|exact Ea|]. intros pte Epte Eaddr Hpa. apply wp_bind, wp_on_mem. cbn [x_mem]. eapply wp_ret_intro; [exact Epte|].
  rewrite Eaddr. fold n. apply wp_bind.
  assert (Hoi : u32 (off + i) = off + i) by (apply u32_small; unfold is_u32; destruct Hlen; lia).
  rewrite Hoi. eapply wp_exec_readi; [exact Hs|unfold is_u32; destruct Hlen; lia|unfold is_u32, PGSIZE, KERNBASE in *; lia|].
  intros e' [r bs] Hs' Hgood Hbad Hbs. cbn [fst snd] in *. apply wp_bind, wp_on_mem. cbn [x_mem].
  assert (Hfit : (0 + length bs <= 4096)%nat) by (unfold PGSIZE in *; lia).
  eapply wp_store; [apply Hsp|exact Hpa|exact Hfit|]. pose proof (put_user_store _ _ _ _ _ _ _ _ 0 bs Hsp Ea Hfit) as PU. rewrite Z.add_0_r, <- Epn in PU.
  set (km' := put km a (splice 0 bs (pg km a))) in *. apply wp_ret. destruct (decide (off + i + n <= Z.of_nat (length f))) as [Hin|Hin].
  - injection (Hgood Hin) as -> ->. rewrite Z.eqb_refl. cbn [negb]. rewrite u32_small by (unfold is_u32, PGSIZE, KERNBASE in *; lia).
    apply IH; try done; try (unfold PGSIZE in *; zlia).
    eapply filled_ext; [|eapply filled_put; [exact F| |exact PU]].
    + intros y. replace (Z.to_nat (Z.min (i + PGSIZE) filesz)) with (Z.to_nat i + Z.to_nat n)%nat by lia. rewrite <- slice_join, <- upd_upd.
      rewrite length_slice by lia. replace (Z.of_nat (Z.to_nat i)) with i by lia. by rewrite Z2Nat.inj_add by lia.
    + unfold npages, PGSIZE in *. zlia.
  - rewrite (proj2 (Z.eqb_neq _ _)) by (apply Hbad; lia). cbn [negb]. apply wp_ret. apply HF; [lia|lia|done|].
    eapply bd_user; [apply (fl_bd _ _ _ _ _ _ _ _ _ _ _ F)|by eapply put_user_only].
Qed.

Lemma wp_loaduvm e km l B sz mem va off filesz (Q : Z -> X -> Prop) :
  va mod PGSIZE = 0 -> 0 <= va -> 0 <= filesz -> va + filesz <= sz -> is_u32 off -> srep e c ∅ ∅ -> filled km l B sz mem ->
  (filesz <= 0 \/ off + filesz <= Z.of_nat (length f) -> forall e' km', srep e' c ∅ ∅ ->
     filled km' l B sz (upd mem va (slice (Z.to_nat off) (Z.to_nat filesz) f)) -> Q 0 (st e' km')) ->
  (0 < filesz -> Z.of_nat (length f) < off + filesz -> forall e' km', srep e' c ∅ ∅ -> building km' l B -> Q (-1) (st e' km')) ->
  wp strict (loaduvm dev_read (as_dir B) va j off filesz) (st e km) Q.
Proof.
  intros Hva Hva0 Hf0 Hsz Hoff Hs F HS HF. unfold loaduvm. rewrite Hva. cbn [Z.eqb negb].
  apply (wp_load_loop l B sz mem); try done; try (unfold PGSIZE; zlia).
  eapply filled_ext; [|exact F]. intros y. rewrite Z.min_l by lia. change (Z.to_nat 0) with 0%nat. by rewrite upd_nil.
Qed.

(** *** The program headers *)

Lemma ph_fields off n : (Z.to_nat off + 32 <= length f)%nat -> (n + 4 <= 32)%nat -> is_u32 (get32 n (slice (Z.to_nat off) 32 f)).
Proof.
  intros Hf Hn. apply get32_is; [|by rewrite length_slice]. unfold bytes, slice in *. apply Forall_take, Forall_drop. exact Hby.
Qed.

(** What a turn of the loop leaves for the result [o] of [segment]: the next
    size and memory, or the page table as it is when there is no memory. *)
Definition short (o : option (Z * (Z -> Z))) : Prop := forall img, o = Some img -> Z.of_nat (length l0) < 65 + 2 * npages img.1.

Lemma wp_segment_step e km l B sz mem phnum i off (Q : Z * Z * Z + option Z -> X -> Prop) :
  i < phnum -> is_u32 off -> srep e c ∅ ∅ -> filled km l B sz mem ->
  (forall sz' mem' e' km' l' B', segment f off (sz, mem) = Some (sz', mem') -> srep e' c ∅ ∅ -> filled km' l' B' sz' mem' ->
     as_dir B' = as_dir B -> Q (inl (i + 1, u32 (off + 32), sz')) (st e' km')) ->
  (forall e' km' l' B', short (segment f off (sz, mem)) -> srep e' c ∅ ∅ -> building km' l' B' -> as_dir B' = as_dir B ->
     Q (inr None) (st e' km')) ->
  wp strict (segment_step dev_read end_ (as_dir B) j phnum (i, off, sz)) (st e km) Q.
Proof.
  intros Hi' Hoff Hs F HS HF. unfold segment_step. rewrite (proj2 (Z.ltb_lt _ _) Hi'). apply wp_bind.
  pose proof (fl_bd _ _ _ _ _ _ _ _ _ _ _ F) as Hb. pose proof (fl_sz _ _ _ _ _ _ _ _ _ _ _ F) as Hsz. unfold sizeof_proghdr.
  eapply wp_exec_readi; [exact Hs|exact Hoff|unfold is_u32; lia|]. intros e1 [r bs] Hs1 Hgood Hbad _. cbn [fst snd] in *.
  unfold segment in HS, HF. cbv zeta in HS, HF. cbn [fst snd] in HS, HF. unfold is_u32 in Hoff.
  destruct (Z.of_nat (length f) <? off + 32) eqn:El.
  { rewrite (proj2 (Z.eqb_neq _ _)) by (apply Hbad; lia). apply wp_ret. apply (HF e1 km l B); [by intros ? [=]|done|done|done]. }
  apply Z.ltb_ge in El. injection (Hgood El) as -> ->. change (Z.to_nat 32) with 32%nat. set (ph := slice (Z.to_nat off) 32 f) in *.
  assert (U : forall n, (n + 4 <= 32)%nat -> is_u32 (get32 n ph)) by (intros n Hn; apply ph_fields; lia).
  assert (Uva := U 8%nat ltac:(lia)). assert (Uoff := U 4%nat ltac:(lia)). assert (Ufs := U 16%nat ltac:(lia)). assert (Ums := U 20%nat ltac:(lia)).
  change (get32 8 ph) with (ph_vaddr ph) in Uva. change (get32 4 ph) with (ph_off ph) in Uoff. change (get32 16 ph) with (ph_filesz ph) in Ufs. change (get32 20 ph) with (ph_memsz ph) in Ums.
  clear U. clearbody ph. cbn [Z.eqb negb Pos.eqb]. destruct (ph_type ph =? ELF_PROG_LOAD); cbn [negb] in *.
  2: { apply wp_ret. by apply (HS sz mem e1 km l B). }
  destruct (ph_memsz ph <? ph_filesz ph) eqn:Em; [apply wp_ret; apply (HF e1 km l B); [by intros ? [=]|done|done|done]|]. apply Z.ltb_ge in Em.
  rewrite u32_sum by done. unfold is_u32 in *. destruct (ph_vaddr ph + ph_memsz ph <? 2 ^ 32) eqn:Ew.
  2: { rewrite (proj2 (Z.ltb_lt _ _)) by lia. apply wp_ret. apply (HF e1 km l B); [|done|done|done].
       rewrite (proj2 (Z.leb_le _ _)) by (unfold KERNBASE; lia). by intros ? [=]. }
  rewrite (proj2 (Z.ltb_ge (ph_vaddr ph + ph_memsz ph) _)) by lia. set (top := ph_vaddr ph + ph_memsz ph) in *.
  apply wp_bind, wp_on_mem. cbn [x_mem]. eapply wp_exec_alloc; [exact Hend|exact F|lia|..].
  - intros HK. cbn [Z.eqb]. apply wp_ret. apply (HF e1 km l B); [|done|done|done]. rewrite (proj2 (Z.leb_le _ _)) by lia. by intros ? [=].
  - intros HK km2 l2 B2 F2 Ed2. rewrite (proj2 (Z.leb_gt KERNBASE top)) in HS, HF by lia. cbn [orb] in HS, HF.
    pose proof (fl_bd _ _ _ _ _ _ _ _ _ _ _ F2) as Hb2. rewrite <- Ed2.
    destruct (Z.max sz top =? 0) eqn:E0; cbn [orb] in HS, HF.
    { apply wp_ret. apply (HF e1 km2 l2 B2); [by intros ? [=]|done|done|done]. }
    destruct (ph_vaddr ph mod PGSIZE =? 0) eqn:Ea; cbn [negb] in *.
    2: { apply wp_ret. apply (HF e1 km2 l2 B2); [by intros ? [=]|done|done|done]. }
    apply Z.eqb_eq in Ea. apply wp_bind. eapply (wp_loaduvm e1 km2 l2 B2 (Z.max sz top) mem); [exact Ea|lia|lia|lia|unfold is_u32; lia|exact Hs1|exact F2|..].
    + intros Hok e3 km3 Hs3 F3. cbn [Z.ltb Z.compare]. apply wp_ret. eapply HS; [|exact Hs3|exact F3|exact Ed2].
      destruct (0 <? ph_filesz ph) eqn:E1; [|done]. by rewrite (proj2 (Z.ltb_ge _ _)) by lia.
    + intros Hp Hlen e3 km3 Hs3 Hb3. cbn [Z.ltb Z.compare]. apply wp_ret. apply (HF e3 km3 l2 B2); [|done|done|exact Ed2].
      rewrite (proj2 (Z.ltb_lt 0 _)), (proj2 (Z.ltb_lt (Z.of_nat (length f)) _)) by lia. by intros ? [=].
  - intros HK km2 l2 B2 Hb2 Ed2 Hc. cbn [Z.eqb]. apply wp_ret. apply (HF e1 km2 l2 B2); [|done|done|done].
    intros img Eimg. repeat (case_match; try done). injection Eimg as <-. simpl. pose proof (npages_mono top (Z.max sz top) ltac:(lia)). lia.
Qed.

Lemma wp_segments phnum k : forall i off e km l B sz mem (Q : option Z -> X -> Prop),
  phnum = i + Z.of_nat k -> is_u32 off -> srep e c ∅ ∅ -> filled km l B sz mem ->
  (forall sz' mem' e' km' l' B', segments k f off (sz, mem) = Some (sz', mem') -> srep e' c ∅ ∅ -> filled km' l' B' sz' mem' ->
     as_dir B' = as_dir B -> Q (Some sz') (st e' km')) ->
  (forall e' km' l' B', short (segments k f off (sz, mem)) -> srep e' c ∅ ∅ -> building km' l' B' -> as_dir B' = as_dir B ->
     Q None (st e' km')) ->
  wp strict (mwhile (S k) (segment_step dev_read end_ (as_dir B) j phnum) (i, off, sz)) (st e km) Q.
Proof.
  induction k as [|k IH]; intros i off e km l B sz mem Q Hp Hoff Hs F HS HF.
  - cbn [mwhile]. apply wp_bind. unfold segment_step. rewrite (proj2 (Z.ltb_ge _ _)) by lia. apply wp_ret, wp_ret. by apply (HS sz mem e km l B).
  - remember (S k) as k' eqn:Ek. cbn [mwhile]. apply wp_bind. eapply wp_segment_step; [lia|exact Hoff|exact Hs|exact F| |].
    + intros sz1 mem1 e1 km1 l1 B1 E1 Hs1 F1' Ed1. rewrite <- Ed1. rewrite Ek in *. simpl segments in HS, HF. rewrite E1 in HS, HF. simpl in HS, HF.
      apply (IH (i + 1) (u32 (off + 32)) e1 km1 l1 B1 sz1 mem1); [lia|unfold is_u32, u32; apply Z.mod_pos_bound; lia|exact Hs1|exact F1'| |].
      * intros sz2 mem2 e2 km2 l2 B2 E2 Hs2 F2 Ed2. apply (HS sz2 mem2 e2 km2 l2 B2); [done..|congruence].
      * intros e2 km2 l2 B2 E2 Hs2 F2 Ed2. apply (HF e2 km2 l2 B2); [done..|congruence].
    + intros e1 km1 l1 B1 Hsh Hs1 Hb1 Ed1. apply wp_ret. apply (HF e1 km1 l1 B1); [|done..]. rewrite Ek. intros img E. simpl in E.
      destruct (segment f off (sz, mem)) as [i1|] eqn:E1; [|done]. simpl in E. specialize (Hsh i1 eq_refl). apply segments_mono in E.
      pose proof (npages_mono i1.1 img.1 E). lia.
Qed.
End loading.

(** ** The stack *)

Section stack.
Context (km0 : kmem) (l0 : list Z) (A : aspace) (R : list Z) (Hs0 : space end_ km0 l0 A R).
Notation building := (building end_ data km0 l0 A R).
Notation filled := (filled end_ data km0 l0 A R).
Notation stacked := (stacked end_ data km0 l0 A R).
Notation replaced := (replaced end_ km0 l0 A R).
Notation restored := (restored end_ km0 l0 A R).
Context (F2 : fs T) (cpu : regs) (pr : image).
Notation st km := (XK F2 km cpu pr).
Context (argv : list (list Z)) (Hargv : Forall (fun t => Z.of_nat (length t) < 2 ^ 24) argv).

Definition args_spec (N sp : Z) mem (rest : list (list Z)) : option (Z * list Z * (Z -> Z)) :=
  if (32 <? length argv)%nat then None else push_args ((N - 1) * PGSIZE) sp mem rest.

Lemma wp_push N k : forall rest argc sp us km l B mem (Q : option (nat * Z * list Z) -> X -> Prop),
  drop argc argv = rest -> (argc <= 32)%nat -> (argc <= length argv)%nat -> (33 - argc < k)%nat -> stacked km l B N mem -> (N - 1) * PGSIZE <= sp <= N * PGSIZE ->
  (forall sp' us' mem' km', args_spec N sp mem rest = Some (sp', us', mem') -> stacked km' l B N mem' -> Q (Some (length argv, sp', us ++ us')) (st km')) ->
  (forall km', args_spec N sp mem rest = None -> building km' l B -> Q None (st km')) ->
  wp strict (mwhile k (push_step (as_dir B) argv) (argc, sp, us)) (st km) Q.
Proof.
  induction k as [|k IH]; intros rest argc sp us km l B mem Q Hrest Hc Hle Hk S Hsp HS HF; [lia|]. cbn [mwhile]. apply wp_bind. unfold push_step at 1.
  pose proof (st_bd _ _ _ _ _ _ _ _ _ _ _ S) as Hb. destruct (st_N _ _ _ _ _ _ _ _ _ _ _ S) as [HN HK].
  destruct (argv !! argc) as [t|] eqn:Et.
  2: { apply lookup_ge_None in Et. assert (argc = length argv) as -> by lia. rewrite drop_ge in Hrest by lia. subst rest. apply wp_ret, wp_ret.
       unfold args_spec in HS. rewrite (proj2 (Nat.ltb_ge _ _)) in HS by lia. specialize (HS sp [] mem km eq_refl S). by rewrite app_nil_r in HS. }
  pose proof (lookup_lt_Some _ _ _ Et) as Hlt. rewrite (drop_S _ _ _ Et) in Hrest. subst rest.
  change ((MAXARG <=? argc)%nat) with ((32 <=? argc)%nat). destruct (32 <=? argc)%nat eqn:E32.
  { apply Nat.leb_le in E32. apply wp_ret, wp_ret, HF; [|exact Hb]. unfold args_spec. by rewrite (proj2 (Nat.ltb_lt _ _)) by lia. }
  apply Nat.leb_gt in E32. assert (Ht : Z.of_nat (length t) < 2 ^ 24) by (rewrite Forall_lookup in Hargv; by eapply Hargv).
  set (z := sp - (Z.of_nat (length t) + 1)). assert (Hne : t ++ [0] <> []) by (by destruct t). assert (Hlen : Z.of_nat (length (t ++ [0])) = Z.of_nat (length t) + 1) by (rewrite length_app; simpl; lia).
  assert (HFnone : z / 4 * 4 < (N - 1) * PGSIZE -> args_spec N sp mem (t :: drop (Datatypes.S argc) argv) = None).
  { intros Hz. unfold args_spec. destruct (_ <? _)%nat; [done|]. simpl. fold z. by rewrite (proj2 (Z.ltb_lt _ _)) by lia. }
  apply wp_bind, wp_on_mem. cbn [x_mem]. unfold PGSIZE, KERNBASE in *. destruct (decide (0 <= z)) as [Hz|Hz].
  - rewrite u32_small, word_down by (unfold is_u32; lia). destruct (decide (z / 4 * 4 < (N - 1) * 4096)) as [Hov|Hfit].
    + eapply wp_exec_overflow; [exact S|unfold PGSIZE; zlia|rewrite Hlen; unfold PGSIZE; zlia|exact Hne|]. intros km' Hb'. cbn [Z.ltb Z.compare].
      apply wp_ret, wp_ret. apply HF; [by apply HFnone|exact Hb'].
    + eapply wp_exec_push; [exact S|unfold PGSIZE; lia|rewrite Hlen; unfold PGSIZE; zlia|]. intros km' S'. cbn [Z.ltb Z.compare]. apply wp_ret.
      assert (Espec : forall o, args_spec N (z / 4 * 4) (upd mem (z / 4 * 4) (t ++ [0])) (drop (Datatypes.S argc) argv) = o ->
        args_spec N sp mem (t :: drop (Datatypes.S argc) argv) = '(sp2, us2, mem2) ← o; Some (sp2, z / 4 * 4 :: us2, mem2)).
      { intros o <-. unfold args_spec. destruct (_ <? _)%nat; [done|]. simpl. fold z. by rewrite (proj2 (Z.ltb_ge _ _)) by (unfold PGSIZE; lia). }
      apply (IH (drop (Datatypes.S argc) argv)) with (l := l) (mem := upd mem (z / 4 * 4) (t ++ [0])); [done|lia|lia|lia|exact S'|unfold PGSIZE; zlia| |].
      * intros sp' us' mem' km2 E2 S2. rewrite <- app_assoc. apply (HS sp' (z / 4 * 4 :: us') mem'); [|exact S2]. by rewrite (Espec _ E2).
      * intros km2 E2 Hb2. apply HF; [|exact Hb2]. by rewrite (Espec _ E2).
  - assert (Ez : u32 z = z + 2 ^ 32) by (unfold u32; symmetry; apply (Z.mod_unique _ _ (-1)); lia). rewrite Ez, word_down by (unfold is_u32; lia).
    eapply wp_exec_wrapped; [exact Hdata|exact Hb|unfold DEVSPACE; zlia|exact Hne|]. cbn [Z.ltb Z.compare]. apply wp_ret, wp_ret. apply HF; [apply HFnone; zlia|exact Hb].
Qed.

(** *** The new image *)

(** The process and the CPU after [exec]. *)
Definition new_proc (name : list Z) (d : Z) (im : new_prog) : image :=
  pr <| p_name := name |> <| p_pgdir := d |> <| p_sz := np_sz im |> <| p_eip := np_eip im |> <| p_esp := np_esp im |>.
Definition new_cpu (d : Z) : regs := Regs (V2P d) 16 (u32 (p_kstack pr + KSTACKSIZE)) 0xFFFF.

Context (Hpd : as_dir A = p_pgdir pr) (Hname : length (p_name pr) = 16%nat) (Hks : p_kstack pr <> 0).
Context (path : list Z) (Hpath : 0 ∉ path) (f h : list Z) (Hh : elf_entry h = elf_entry f).
Notation want := (new_image f argv).
Context (Q : Z -> X -> Prop).
Context (HS : forall im km l B name, want = Some im -> replaced km l B (np_sz im / PGSIZE) (np_mem im) -> cstr name = take 15 (after_slash path) ->
  Q 0 (XK F2 km (new_cpu (as_dir B)) (new_proc name (as_dir B) im))).
Context (HF : forall km l, restored km l -> (forall im, want = Some im -> Z.of_nat (length l0) < 65 + 2 * npages (np_sz im)) -> Q (-1) (st km)).

Lemma wp_bad_late km l B : building km l B -> (forall im, want = Some im -> Z.of_nat (length l0) < 65 + 2 * npages (np_sz im)) ->
  wp strict (bad mypid fuel end_ (as_dir B) None) (st km) Q.
Proof.
  intros Hb Hw. destruct (page_bounds _ _ (pt_dir _ _ _ _ (sp_pgt _ _ _ _ _ (bd_space _ _ _ _ _ _ _ _ _ Hb)))) as [Hd0 _].
  unfold bad, when. rewrite (proj2 (Z.eqb_neq (as_dir B) 0)) by lia. cbn [negb]. apply wp_bind, wp_on_mem. cbn [x_mem].
  eapply wp_exec_free; [exact Hend|exact Hs0|exact Hb|]. intros km' l' Hr. apply wp_ret. by eapply HF.
Qed.

Lemma wp_commit km l B sz mem0 sp us mem : program f = Some (sz, mem0) -> stack_top sz < KERNBASE -> 0 <= sz ->
  args_spec (npages sz + 2) (stack_top sz) mem0 argv = Some (sp, us, mem) -> stacked km l B (npages sz + 2) mem ->
  wp strict (commit_image mypid fuel end_ path h (as_dir B) (stack_top sz) (length argv) sp us) (st km) Q.
Proof.
  intros Hprog Htop Hsz Hargs S. unfold commit_image. pose proof (st_bd _ _ _ _ _ _ _ _ _ _ _ S) as Hb. set (N := npages sz + 2) in *.
  assert (HN : 2 <= N) by (pose proof (npages_nonneg sz Hsz); lia). assert (Et : stack_top sz = N * PGSIZE) by (unfold stack_top; lia).
  unfold args_spec in Hargs. destruct (32 <? length argv)%nat eqn:E32; [done|]. apply Nat.ltb_ge in E32.
  destruct (push_args_length _ _ _ _ _ _ _ Hargs) as [Lus Lsp]. specialize (Lsp ltac:(unfold PGSIZE in *; lia)). set (ac := Z.of_nat (length argv)).
  assert (Hac : 0 <= ac <= 32) by lia. unfold KERNBASE, PGSIZE in *.
  rewrite !u32_small by (unfold is_u32; lia). set (esp := sp - (3 + ac + 1) * 4). set (ws := [0xffffffff; ac; sp - (ac + 1) * 4] ++ us ++ [0]).
  assert (Lws : Z.of_nat (length (mjoin (le 4 <$> ws))) = 4 * (ac + 4)) by (rewrite length_ustack; unfold ws; rewrite !length_app, Lus; simpl; lia).
  assert (Hne : mjoin (le 4 <$> ws) <> []) by (intros E0; rewrite E0 in Lws; simpl in Lws; lia).
  assert (Ew : want = if esp <? (N - 1) * 4096 then None else Some (NewProg (stack_top sz) (elf_entry f) esp (upd mem esp (mjoin (le 4 <$> ws))))).
  { unfold new_image. rewrite Hprog. simpl. unfold KERNBASE, PGSIZE. rewrite (proj2 (Z.leb_gt _ _)) by lia. fold ac. rewrite (proj2 (Z.ltb_ge 32 ac)) by lia. simpl.
    replace (stack_top sz - 4096) with ((N - 1) * 4096) by lia. rewrite Hargs. done. }
  apply wp_bind, wp_on_mem. cbn [x_mem]. destruct (Z.ltb_spec esp ((N - 1) * 4096)) as [Hov|Hfit].
  - eapply wp_exec_overflow; [exact S|unfold PGSIZE, esp in *; lia|rewrite Lws; unfold PGSIZE, esp in *; lia|exact Hne|]. intros km' Hb'. cbn [Z.ltb Z.compare].
    eapply wp_bad_late; [exact Hb'|]. by rewrite Ew.
  - eapply wp_exec_push; [exact S|unfold PGSIZE; lia|rewrite Lws; unfold PGSIZE, esp in *; lia|]. intros km' S'. cbn [Z.ltb Z.compare].
    change ((st km) <| x_mem := km' |>) with (st km'). apply wp_bind, wp_gets. cbn [x_proc]. set (t := after_slash path ++ [0]).
    assert (Ht : cstr t = after_slash path) by (apply cstr_text; intros Hz%after_slash_in; done).
    destruct (safestrcpy_loop_ok 15 (p_name pr) t) as (name & En & _ & Ecs & _); [lia|left; unfold terminated, t; set_solver|].
    change (safestrcpy (p_name pr) t 16) with (safestrcpy_loop (p_name pr) t 15). rewrite En.
    apply wp_bind, wp_modify, wp_bind. unfold switchuvm. apply wp_bind, wp_gets. cbn [x_proc].
    match goal with |- context [p_kstack ?r] => change (p_kstack r) with (p_kstack pr) end. rewrite (proj2 (Z.eqb_neq _ _) Hks).
    destruct (page_bounds _ _ (pt_dir _ _ _ _ (sp_pgt _ _ _ _ _ (bd_space _ _ _ _ _ _ _ _ _ Hb)))) as [Hd0 _].
    match goal with |- context [p_pgdir ?r =? 0] => change (p_pgdir r) with (as_dir B) end. rewrite (proj2 (Z.eqb_neq (as_dir B) 0)) by lia.
    apply wp_modify, wp_bind, wp_on_mem. cbn [x_mem]. rewrite <- Hpd. eapply wp_exec_replace; [exact Hend|exact Hs0|exact S'|]. intros km2 l2 Hr. apply wp_ret.
    rewrite Hh. refine (HS (NewProg (stack_top sz) (elf_entry f) esp (upd mem esp (mjoin (le 4 <$> ws)))) km2 l2 B name Ew _ _); [|by rewrite Ecs, Ht].
    cbn [np_sz np_mem]. rewrite Et, Z.div_mul by lia. exact Hr.
Qed.

Lemma wp_exec_stack km l B sz mem : program f = Some (sz, mem) -> filled km l B sz mem ->
  wp strict (exec_stack mypid fuel end_ path argv h (as_dir B) sz) (st km) Q.
Proof.
  intros Hprog F. pose proof (fl_sz _ _ _ _ _ _ _ _ _ _ _ F) as Hsz. pose proof (fl_bd _ _ _ _ _ _ _ _ _ _ _ F) as Hb. unfold exec_stack.
  rewrite PGROUNDUP_eq by (unfold KERNBASE, PGSIZE in *; lia). fold (npages sz). pose proof (npages_user sz ltac:(lia)) as Hnu. pose proof (npages_nonneg sz ltac:(lia)) as Hn0.
  rewrite u32_small by (unfold is_u32, NUSER, PGSIZE in *; lia). fold (stack_top sz).
  assert (Et : stack_top sz = (npages sz + 2) * PGSIZE) by (unfold stack_top; lia). apply wp_bind, wp_on_mem. cbn [x_mem].
  destruct (decide (KERNBASE <= stack_top sz)) as [HK|HK].
  { unfold allocuvm. rewrite (proj2 (Z.leb_le _ _) HK). apply wp_ret. cbn [Z.eqb]. eapply wp_bad_late; [exact Hb|]. unfold new_image. rewrite Hprog. simpl.
    by rewrite (proj2 (Z.leb_le _ _) HK). }
  assert (F' : filled km l B (npages sz * PGSIZE) mem).
  { destruct F. split; rewrite ?npages_round; try done. unfold stack_top, PGSIZE in *. lia. }
  eapply wp_exec_alloc; [exact Hend|exact F'|unfold stack_top, PGSIZE in *; lia|lia| |].
  - intros _ km1 l1 B1 F1 Ed1. assert (Em : Z.max (npages sz * PGSIZE) (stack_top sz) = stack_top sz) by (unfold stack_top, PGSIZE; lia). rewrite Em in F1 |- *.
    rewrite (proj2 (Z.eqb_neq (stack_top sz) 0)) by (unfold PGSIZE in *; lia). rewrite <- Ed1. apply wp_bind, wp_on_mem. cbn [x_mem].
    rewrite Et in F1. replace (u32 (stack_top sz - 2 * PGSIZE)) with ((npages sz + 2 - 2) * PGSIZE) by (rewrite u32_small; unfold is_u32, KERNBASE, PGSIZE in *; lia).
    eapply wp_exec_guard; [exact F1|lia|]. intros km2 B2 S2 Ed2. rewrite <- Ed2. apply wp_bind.
    eapply (wp_push (npages sz + 2) _ argv 0 (stack_top sz) [] km2 l1 B2 mem); [done|lia|lia|vm_compute; lia|exact S2|unfold PGSIZE in *; lia| |].
    + intros sp us mem' km3 Ea S3. by eapply wp_commit; [exact Hprog|lia|lia|exact Ea|exact S3].
    + intros km3 Ea Hb3. eapply wp_bad_late; [exact Hb3|]. unfold new_image. rewrite Hprog. simpl. rewrite (proj2 (Z.leb_gt _ _)) by lia. simpl.
      unfold args_spec in Ea. destruct (32 <? length argv)%nat eqn:E32; [apply Nat.ltb_lt in E32; by rewrite (proj2 (Z.ltb_lt _ _)) by lia|].
      apply Nat.ltb_ge in E32. rewrite (proj2 (Z.ltb_ge _ _)) by lia. replace (stack_top sz - PGSIZE) with ((npages sz + 2 - 1) * PGSIZE) by lia. by rewrite Ea.
  - intros _ km1 l1 B1 Hb1 Ed1 Hc. cbn [Z.eqb]. rewrite <- Ed1. eapply wp_bad_late; [exact Hb1|]. intros im Eim. unfold new_image in Eim. rewrite Hprog in Eim. simpl in Eim.
    destruct (_ || _); [done|]. destruct (push_args _ _ _ _) as [[[? ?] ?]|]; simpl in Eim; [|done]. destruct (_ <? _); [done|]. by injection Eim as <-.
Qed.
End stack.

(** ** The whole *)

(** The file system after [exec]: the disk, the cache and the references as
    before. *)
Record fs_kept (F0 : fs T) c (F' : fs T) : Prop := {
  fk_sb : sb F' = sb F0;
  fk_lock : ic_lock F' = false;
  fk_disk : exists c', quiet (tx F') c' /\ forall b, in_disk b -> c' b = c b;
  fk_cache : cache_good (sb F0) c (inodes F');
  fk_refs : refs_plus (inodes F0) (inodes F') None;
}.

Section whole.
Context (F0 : fs T) (c : Z -> list Z) (cpu : regs) (pr : image).
Context (Hd : disk_ok (sb F0) c) (Htr : tree_ok (sb F0) c).
Context (km0 : kmem) (l0 : list Z) (A : aspace) (R : list Z) (Hs0 : space end_ km0 l0 A R).
Notation building := (building end_ data km0 l0 A R).
Notation restored := (restored end_ km0 l0 A R).
(** The locked inode [j] of the program file, [m] on the disk. *)
Context (F1 : fs T) (Hsb : sb F1 = sb F0) (Hlk : ic_lock F1 = false) (j : nat) (m : Z) (ip x : inode).
Context (L : locked_at (sb F0) mypid c (inodes F0) (inodes F1) j m ip x).
Notation st e km := (XK (wfs (wip F1 j x) e) km cpu pr).

Lemma wp_exec_close {D} e km (k : M (xk T) D) (Q : D -> xk T -> Prop) : srep e c ∅ ∅ ->
  (forall F', fs_kept F0 c F' -> wp strict k (XK F' km cpu pr) Q) -> wp strict (on_fs (iunlockput mypid fuel j) ;;; end_op ;;; k) (st e km) Q.
Proof.
  intros Hs HQ. apply wp_bind, wp_exec_fs. cbn [x_fs]. eapply wp_unlockput_current; [exact Hfuel|exact Hlk|exact L|]. apply wp_bind, wp_exec_fs. cbn [x_fs].
  destruct (drop_current _ _ _ _ _ _ _ _ _ L) as [G1 G2].
  eapply (wp_fs_end_op (lim := lim)); [exact Hs|]. intros e' c' Hq Hc. apply HQ. split; [exact Hsb|exact Hlk|by exists c'|exact G1|exact G2].
Qed.

Lemma wp_bad_early e km d (Q : Z -> xk T -> Prop) : srep e c ∅ ∅ ->
  (d = 0 /\ (exists l, restored km l) \/ exists l B, building km l B /\ d = as_dir B) ->
  (forall F' km' l', fs_kept F0 c F' -> restored km' l' -> Q (-1) (XK F' km' cpu pr)) ->
  wp strict (bad mypid fuel end_ d (Some j)) (st e km) Q.
Proof.
  intros Hs Hcase HQ. unfold bad, when. destruct Hcase as [[-> [l Hr]]|(l & B & Hb & ->)].
  - cbn [Z.eqb negb]. apply wp_bind, wp_ret. apply wp_exec_close; [exact Hs|]. intros F' Hk. apply wp_ret. by eapply HQ.
  - destruct (page_bounds _ _ (pt_dir _ _ _ _ (sp_pgt _ _ _ _ _ (bd_space _ _ _ _ _ _ _ _ _ Hb)))) as [Hd0 _].
    rewrite (proj2 (Z.eqb_neq (as_dir B) 0)) by lia. cbn [negb]. apply wp_bind, wp_on_mem. cbn [x_mem].
    eapply wp_exec_free; [exact Hend|exact Hs0|exact Hb|]. intros km' l' Hr. apply wp_exec_close; [exact Hs|].
    intros F' Hk. apply wp_ret. by eapply HQ.
Qed.

(** From the locked inode on. *)
Context (name0 : list Z) (argv : list (list Z)) (Hargv : Forall (fun t => Z.of_nat (length t) < 2 ^ 24) argv).
Context (Hpd : as_dir A = p_pgdir pr) (Hname : length (p_name pr) = 16%nat) (Hks : p_kstack pr <> 0).
Context (path : list Z) (Hpath : 0 ∉ path) (Hty : i_type (dino (sb F0) c m) <> T_DEV) (Hby : bytes (contents c (dino (sb F0) c m))).
Notation f := (contents c (dino (sb F0) c m)).
Notation want := (new_image f argv).

Lemma contents_same : contents c x = f.
Proof using L. pose proof (la_content _ _ _ _ _ _ _ _ _ L) as Hsc. unfold contents. by rewrite (sc_fbytes c _ _ _ _ Hsc), (sc_size _ _ Hsc). Qed.

Definition exec_locked : M (xk T) Z :=
  r <- on_fs (readi dev_read j 0 sizeof_elfhdr) ;;
  let elf := r.2 in
  if negb (r.1 =? sizeof_elfhdr) then bad mypid fuel end_ 0 (Some j)
  else if negb (elf_magic elf =? ELF_MAGIC) then bad mypid fuel end_ 0 (Some j)
  else
    pgdir <- on_mem (setupkvm end_ data) ;;
    if pgdir =? 0 then bad mypid fuel end_ 0 (Some j)
    else
      o <- mwhile (S (Z.to_nat (elf_phnum elf))) (segment_step dev_read end_ pgdir j (elf_phnum elf)) (0, elf_phoff elf, 0) ;;
      match o with
      | None => bad mypid fuel end_ pgdir (Some j)
      | Some sz =>
          on_fs (iunlockput mypid fuel j) ;;;
          end_op ;;;
          exec_stack mypid fuel end_ path argv elf pgdir sz
      end.

Context (Q : Z -> xk T -> Prop).
Context (HS : forall F' im km l B name, fs_kept F0 c F' -> want = Some im -> replaced end_ km0 l0 A R km l B (np_sz im / PGSIZE) (np_mem im) ->
  cstr name = take 15 (after_slash path) -> Q 0 (XK F' km (new_cpu pr (as_dir B)) (new_proc pr name (as_dir B) im))).
Context (HF : forall F' km l, fs_kept F0 c F' -> restored km l -> (forall im, want = Some im -> Z.of_nat (length l0) < 65 + 2 * npages (np_sz im)) ->
  Q (-1) (XK F' km cpu pr)).

Lemma header_field o n : (o + n <= 52)%nat -> (52 <= length f)%nat -> slice o n (slice 0 52 f) = slice o n f.
Proof. intros Ho Hl. by rewrite slice_slice by lia. Qed.

Lemma wp_exec_locked e : srep e c ∅ ∅ -> wp strict exec_locked (st e km0) Q.
Proof.
  intros Hs. unfold exec_locked. apply wp_bind. pose proof (la_file _ _ _ _ _ _ _ _ _ L) as Ho. pose proof (la_content _ _ _ _ _ _ _ _ _ L) as Hsc.
  assert (Hxi : inodes (wip F1 j x) !! j = Some x) by (eapply wip_lookup; apply (la_ip _ _ _ _ _ _ _ _ _ L)).
  assert (Hd1 : disk_ok (sb (wip F1 j x)) c) by (simpl; by rewrite Hsb). assert (Ho1 : file_ok (sb (wip F1 j x)) c x) by (simpl; by rewrite Hsb).
  assert (Htx : i_type x <> T_DEV) by (by rewrite (sc_type _ _ Hsc)). assert (Hbx : bytes (contents c x)) by (by rewrite contents_same).
  assert (Hr0 : restored km0 l0) by (split; [exact Hs0|done|done]).
  eapply (wp_exec_readi (wip F1 j x) c j x cpu pr Hd1 Ho1 Hxi Htx); [exact Hs|unfold is_u32; lia|unfold is_u32, sizeof_elfhdr; lia|].
  rewrite contents_same. unfold sizeof_elfhdr. intros e1 [r h] Hs1 Hgood Hbad _. cbn [fst snd] in *.
  assert (Hnone : want = None -> wp strict (bad mypid fuel end_ 0 (Some j)) (st e1 km0) Q).
  { intros Ew. eapply wp_bad_early; [exact Hs1|left; split; [done|by exists l0]|]. intros F' km' l' Hk Hr. eapply HF; [exact Hk|exact Hr|]. by rewrite Ew. }
  destruct (decide (0 + 52 <= Z.of_nat (length f))) as [Hl|Hl].
  2: { rewrite (proj2 (Z.eqb_neq _ _)) by (apply Hbad; lia). apply Hnone. unfold new_image, program. by rewrite (proj2 (Z.ltb_lt (Z.of_nat (length f)) 52)) by lia. }
  injection (Hgood Hl) as -> ->. change (Z.to_nat 0) with 0%nat. change (Z.to_nat 52) with 52%nat. cbn [Z.eqb negb Pos.eqb].
  assert (Efld : forall o n, (o + n <= 52)%nat -> slice o n (slice 0 52 f) = slice o n f) by (intros; apply header_field; lia).
  set (h := slice 0 52 f) in *. unfold new_image, program in Hnone. rewrite (proj2 (Z.ltb_ge (Z.of_nat (length f)) 52)) in Hnone by lia.
  replace (elf_magic h) with (elf_magic f) by (unfold elf_magic, get32; by rewrite Efld by lia).
  destruct (elf_magic f =? ELF_MAGIC) eqn:Em; cbn [negb] in *; [|by apply Hnone]. clear Hnone.
  assert (Ew : program f = segments (Z.to_nat (elf_phnum f)) f (elf_phoff f) (0, fun _ => 0)) by (unfold program; rewrite (proj2 (Z.ltb_ge (Z.of_nat (length f)) 52)) by lia; by rewrite Em).
  assert (Hshort : short l0 (program f) -> forall im, want = Some im -> Z.of_nat (length l0) < 65 + 2 * npages (np_sz im)).
  { intros Hsh im Eim. unfold new_image in Eim. destruct (program f) as [[sz mem]|] eqn:Ep; [|done]. specialize (Hsh _ eq_refl). simpl in Eim, Hsh.
    destruct (_ || _); [done|]. destruct (push_args _ _ _ _) as [[[? ?] ?]|]; simpl in Eim; [|done]. destruct (_ <? _); [done|]. injection Eim as <-. cbn [np_sz].
    unfold stack_top. replace (npages sz * PGSIZE + 2 * PGSIZE) with ((npages sz + 2) * PGSIZE) by lia. rewrite npages_round. lia. }
  apply wp_bind, wp_on_mem. cbn [x_mem]. eapply wp_exec_setup; [exact Hend|exact Hdata|exact Hs0| |].
  - intros km1 l1 B1 F. pose proof (fl_bd _ _ _ _ _ _ _ _ _ _ _ F) as Hb1. destruct (page_bounds _ _ (pt_dir _ _ _ _ (sp_pgt _ _ _ _ _ (bd_space _ _ _ _ _ _ _ _ _ Hb1)))) as [Hd0 _].
    rewrite (proj2 (Z.eqb_neq (as_dir B1) 0)) by lia. apply wp_bind.
    replace (elf_phnum h) with (elf_phnum f) by (unfold elf_phnum, get16; by rewrite Efld by lia).
    replace (elf_phoff h) with (elf_phoff f) by (unfold elf_phoff, get32; by rewrite Efld by lia).
    assert (Hph : 0 <= elf_phnum f) by (apply unle_bound, bytes_slice, Hby).
    eapply (wp_segments km0 l0 A R (wip F1 j x) c j x cpu pr Hd1 Ho1 Hxi Htx Hbx (elf_phnum f) (Z.to_nat (elf_phnum f)) 0 (elf_phoff f));
      [lia|apply get32_is; [exact Hby|lia]|exact Hs1|exact F| |]; rewrite contents_same, <- Ew.
    + intros sz mem e2 km2 l2 B2 Ep Hs2 F2 Ed. rewrite <- Ed. apply wp_exec_close; [exact Hs2|]. intros F' Hk.
      eapply (wp_exec_stack km0 l0 A R Hs0 F' cpu pr argv Hargv Hpd Hname Hks path Hpath f h); [|by intros; eapply HS|by intros; eapply HF|exact Ep|exact F2].
      unfold elf_entry, get32. by rewrite Efld by lia.
    + intros e2 km2 l2 B2 Hsh Hs2 Hb2 Ed. rewrite <- Ed. eapply wp_bad_early; [exact Hs2|right; by exists l2, B2|]. intros F' km' l' Hk Hr. eapply HF; [exact Hk|exact Hr|by apply Hshort].
  - intros km1 l1 Hr Hc. cbn [Z.eqb]. eapply wp_bad_early; [exact Hs1|left; split; [done|by exists l1]|]. intros F' km' l' Hk Hr'. eapply HF; [exact Hk|exact Hr'|].
    apply Hshort. intros img Eimg. rewrite Ew in Eimg. apply segments_mono in Eimg. pose proof (npages_nonneg img.1 Eimg). simpl in *. lia.
Qed.
End whole.

(** C3: [exec] implements [new_image].  It always returns.  If it returns 0, the
    path designates a program whose file makes, with the arguments, the image
    [im]: the process has a new page table with exactly the pages of [im], whose
    memory is that of [im] - the segments of the program, zeros, and the stack with
    the argument strings, [argc] and [argv] below a page that the user may not
    touch - it starts at the entry point with the stack pointer of [im], the page
    table register designates the new table, and the pages of the old image are
    free.  If it returns -1, the process, its page table and its memory are as
    before and no page is lost; this happens only when the path or the program is
    bad, the arguments do not fit on the stack page, or there are fewer free pages
    than two for each page of the image and 65 for the tables of the kernel.
    Either way the file system is as before: nothing is locked, no reference is
    left, no block has changed. *)
Theorem exec_correct name0 (s : X) c n (a b : nat) path argv l A R :
  let F := x_fs s in let p := x_proc s in
  let want := m ← walk (sb F) c false n (elems path); new_image (contents c (dino (sb F) c m)) argv in
  quiet (tx F) c -> disk_ok (sb F) c -> tree_ok (sb F) c -> cache_good (sb F) c (inodes F) -> ic_lock F = false ->
  a <> b -> (exists ip, inodes F !! a = Some ip /\ i_ref ip = 0) -> (exists ip, inodes F !! b = Some ip /\ i_ref ip = 0) ->
  path_ok path -> Forall is_byte name0 -> starts (sb F) c F (p_cwd p) path n ->
  (forall m, walk (sb F) c false n (elems path) = Some m -> i_type (dino (sb F) c m) <> T_DEV /\ bytes (contents c (dino (sb F) c m))) ->
  Forall (fun t => Z.of_nat (length t) < 2 ^ 24) argv ->
  space end_ (x_mem s) l A R -> as_dir A = p_pgdir p -> length (p_name p) = 16%nat -> p_kstack p <> 0 ->
  exists r s', exec mypid fuel dev_read end_ data name0 path argv s = Ret r s' /\ fs_kept F c (x_fs s') /\
    ((r = 0 /\ exists im B l' name, want = Some im /\ replaced end_ (x_mem s) l A R (x_mem s') l' B (np_sz im / PGSIZE) (np_mem im) /\
        cstr name = take 15 (after_slash path) /\ x_proc s' = new_proc p name (as_dir B) im /\ x_cpu s' = new_cpu p (as_dir B)) \/
     (r = -1 /\ x_proc s' = p /\ x_cpu s' = x_cpu s /\ (exists l', restored end_ (x_mem s) l A R (x_mem s') l') /\
        forall im, want = Some im -> Z.of_nat (length l) < 65 + 2 * npages (np_sz im))).
Proof.
  intros F p want Hq Hd Htr Hg Hlk Hab Ha Hb Hp Hn0 Hst Hfile Hargv Hs Hpd Hnm Hks.
  set (Q := fun (r : Z) (s' : X) => fs_kept F c (x_fs s') /\
    ((r = 0 /\ exists im B l' name, want = Some im /\ replaced end_ (x_mem s) l A R (x_mem s') l' B (np_sz im / PGSIZE) (np_mem im) /\
        cstr name = take 15 (after_slash path) /\ x_proc s' = new_proc p name (as_dir B) im /\ x_cpu s' = new_cpu p (as_dir B)) \/
     (r = -1 /\ x_proc s' = p /\ x_cpu s' = x_cpu s /\ (exists l', restored end_ (x_mem s) l A R (x_mem s') l') /\
        forall im, want = Some im -> Z.of_nat (length l) < 65 + 2 * npages (np_sz im)))).
  apply (wp_strict _ _ Q). unfold exec. apply wp_bind, wp_exec_fs. eapply (wp_fs_begin_op (lim := lim)); [exact Hq|]. intros e Hse.
  apply wp_bind, wp_gets, wp_bind, wp_exec_fs. unfold namei. apply wp_bind.
  assert (Hst' : starts (sb F) c (wfs F e) (p_cwd p) path n) by (destruct Hst; [by apply starts_root|by apply starts_cwd]).
  eapply wp_mono; [exact (wp_namex (lim := lim) mypid fuel Hfuel dev_read (wfs F e) c ∅ a b (p_cwd p) path false name0 n Hse Hd Htr Hg Hlk Hab Ha Hb Hp Hn0 Hst')|].
  intros [o nm0] F1 [R1 R2 R3 R4 R5 R6 _ R8]. change (sb (wfs F e)) with (sb F) in *. apply wp_ret. cbn [fst] in *. destruct o as [j|].
  - destruct R6 as (m & Hw & _). pose proof (R8 eq_refl j m eq_refl Hw) as Hstd. destruct (Hfile m Hw) as [Hty Hby].
    apply wp_bind, wp_exec_fs. cbn [x_fs]. rewrite <- (wfs_id F1).
    eapply (wp_lock_current (lim := lim)); [exact Hfuel|exact Hd|exact Htr|exact Hab|exact R1|exact R3|exact Hstd|]. intros e' ip x Hse' L.
    apply (wp_exec_locked F c (x_cpu s) p Hd (x_mem s) l A R Hs F1 R1 R2 j m ip x L argv Hargv Hpd Hnm Hks path (proj1 Hp) Hty Hby Q); [| |exact Hse'].
    + intros F' im km l' B name Hk Him Hr Hc. split; [exact Hk|]. left. split; [done|]. exists im, B, l', name. split_and!; try done. unfold want. by rewrite Hw.
    + intros F' km l' Hk Hr Hsm. split; [exact Hk|]. right. split_and!; try done; [by exists l'|]. unfold want. by rewrite Hw.
  - apply wp_bind, wp_exec_fs. cbn [x_fs]. eapply (wp_fs_end_op (lim := lim)); [exact R3|]. intros e' c' Hq' Hc'. apply wp_ret. split.
    + split; [exact R1|exact R2|by exists c'|exact R4|exact R5].
    + right. split_and!; try done; [exists l; by split|]. unfold want. by rewrite R6.
Qed.
End exec.
