(* ===== verification/FsDemo.v ===== *)
(** * A small file system

    A disk of 40 blocks with a root directory and one file, in a transaction of
    the log over the buffer cache: the theorems about fs.c at a concrete state. *)

From S2P Require Import Prelude Params Bytes Str Sleeplock Block Bio Log Tx Fs FsBlock FsInode FsFile FsRw FsTrunc FsDir FsPath File FileRw.
From S2P Require Kalloc Pipe.

Section demo.
Local Instance demo_store : BlockStore Bio.bcache := Bio.bio_store 3 1.
Local Instance demo_store_ok : BlockStoreOk Bio.bcache := Bio.bio_ok 40 3 1 Nat.lt_0_1.
Local Instance demo_tx_ok : TxStoreOk (Log.log Bio.bcache) := log_tx_ok 2 12.
Local Instance demo_limit : TxLimit 10.
Proof. split; vm_compute; lia. Qed.

(** ** The disk *)

Definition zeros : list Z := replicate BSIZE 0.
Definition demo_sb : superblock := Superblock 40 24 8 12 2 14 15.
Definition sb_block : list Z :=
  (([40; 24; 8; 12; 2; 14; 15] : list Z) ≫= le 4) ++ replicate 484 0.
Definition root_dinode : inode :=
  Inode ROOTDEV 1 0 (Sleep.Sleeplock false 0 0 0) 0 T_DIR 0 0 1 48 (16 :: replicate 12 0).
Definition file_dinode : inode :=
  Inode ROOTDEV 2 0 (Sleep.Sleeplock false 0 0 0) 0 T_FILE 0 0 1 600 (17 :: 18 :: replicate 11 0).
Definition inode_block : list Z := put_dinode (doff 1) root_dinode (put_dinode (doff 2) file_dinode zeros).
(** Blocks 0 to 18 are in use. *)
Definition bitmap_block : list Z := 255 :: 255 :: 7 :: replicate 509 0.
Definition dirent (inum : Z) (name : list Z) : list Z := le 2 inum ++ name ++ replicate (14 - length name) 0.
Definition dir_block : list Z :=
  dirent 1 [46] ++ dirent 1 [46; 46] ++ dirent 2 [102] ++ replicate 464 0.
(** The file is a program: an ELF header, a header for one segment of 5000 bytes
    with 516 in the file from 84 on, and these. *)
Definition elf_block : list Z :=
  [127; 69; 76; 70] ++ replicate 20 0 ++ le 4 0x10 ++ le 4 52 ++ replicate 12 0 ++ le 2 1 ++ replicate 6 0 ++
  (([1; 84; 0; 0; 516; 5000; 0; 0] : list Z) ≫= le 4) ++ replicate 428 5.
Definition fs_disk : list (list Z) :=
  [zeros; sb_block] ++ replicate 12 zeros ++
  [inode_block; bitmap_block; dir_block; elf_block; replicate BSIZE 6] ++ replicate 21 zeros.

Definition fs_boot : Bio.bcache := Bio.Bcache false (replicate (S NBUF) Bio.zero_buf) fs_disk [].
Definition fs_view : bview := Bio.boot_view fs_disk.
Notation c0 := (cont fs_view).

Lemma fs_rep : exists e, @rep Bio.bcache _ _ e fs_view.
Proof.
  destruct (Bio.binit_rep 40 fs_boot) as (e & _ & _ & R).
  - reflexivity.
  - apply Forall_replicate. done.
  - reflexivity.
  - reflexivity.
  - vm_compute. repeat (apply Forall_cons_2; [reflexivity|]). apply Forall_nil_2.
  - exists e. exact R.
Qed.

(** ** The cached inodes: the root directory, the file and free entries *)

Definition free_entry : inode :=
  Inode 0 0 0 (Sleep.Sleeplock false 0 0 0) 0 0 0 0 0 0 (replicate 13 0).
Definition file_entry : inode :=
  file_dinode <| i_ref := 1 |> <| i_valid := 1 |> <| i_lk := Sleep.Sleeplock false 1 3 0 |>.
Definition root_entry : inode := root_dinode <| i_ref := 1 |>.
Definition fs_inodes : list inode := file_entry :: root_entry :: replicate 48 free_entry.

Definition fs_log (e : Bio.bcache) : Log.log Bio.bcache :=
  Log.MkLog false 2 12 1 0 ROOTDEV 0 (replicate 30 0) 0 0 e.
Definition fs_state (e : Bio.bcache) : fs (Log.log Bio.bcache) := MkFs false fs_inodes demo_sb (fs_log e).

Lemma fs_srep e : @rep Bio.bcache _ _ e fs_view -> srep 10 (fs_log e) c0 ∅ ∅.
Proof.
  intros R. split; [vm_compute; lia|]. exists fs_view. split_and!; try done; [|by intros x [y Hy]]. split; try done.
  exists []. split_and!; [done|by intros j b|constructor|constructor|done].
Qed.

Lemma demo_home b : 0 <= b < 2 \/ 14 <= b < 40 -> in_disk b.
Proof. intros Hb. change (0 <= b < 40 /\ ~ 2 <= b < 2 + 12). lia. Qed.

Ltac in_range := split; vm_compute; [discriminate|reflexivity].

Lemma bblock b : 0 <= b < 40 -> BBLOCK b demo_sb = 15.
Proof. intros Hb. unfold BBLOCK. rewrite Z.div_small; [done|]. unfold BPB, BSIZE. lia. Qed.
Lemma iblock n : 0 <= n < 8 -> IBLOCK n demo_sb = 14.
Proof. intros Hn. unfold IBLOCK. rewrite Z.div_small; [done|]. unfold IPB, BSIZE, sizeof_dinode. simpl. lia. Qed.

(** The free blocks are those from 19. *)
Lemma demo_free b : FsBlock.free demo_sb c0 b <-> 19 <= b < 40.
Proof.
  unfold FsBlock.free. change (sb_size demo_sb) with 40. split.
  - intros [Hb Hf]. rewrite bblock in Hf by done. rewrite Z.mod_small in Hf by (unfold BPB, BSIZE; lia).
    assert (Hn : (Z.to_nat b < 40)%nat) by lia. revert Hf. replace b with (Z.of_nat (Z.to_nat b)) by lia. rewrite Nat2Z.id.
    generalize dependent (Z.to_nat b). intros n Hn. do 19 (destruct n as [|n]; [by vm_compute|]). lia.
  - intros Hb. split; [lia|]. rewrite bblock by lia. rewrite Z.mod_small by (unfold BPB, BSIZE; lia).
    assert (Hn : (19 <= Z.to_nat b < 40)%nat) by lia. generalize dependent (Z.to_nat b). intros n Hn.
    do 19 (destruct n as [|n]; [lia|]). do 21 (destruct n as [|n]; [by vm_compute|]). lia.
Qed.

Lemma demo_reserved b : reserved demo_sb b -> b = 0 \/ b = 1 \/ b = 15 \/ b = 14.
Proof.
  intros [?|[?|[(x & Hx & ->)|(n & Hn & ->)]]]; [by left|by right; left| |].
  - rewrite bblock by done. lia.
  - rewrite iblock by done. lia.
Qed.

Lemma demo_disk_ok : disk_ok demo_sb c0.
Proof.
  split.
  - split; [vm_compute; split; discriminate|]. intros b Hb. rewrite bblock by done. apply demo_home. lia.
  - intros n Hn. rewrite iblock by done. apply demo_home. lia.
  - vm_compute. discriminate.
  - intros b (n & Hn & ->) (x & Hx & He). rewrite iblock in He by done. rewrite bblock in He by done. lia.
  - intros b Hr%demo_reserved Hf%demo_free. lia.
  - intros b Hf%demo_free. apply demo_home. lia.
Qed.

(** A file whose content is in direct blocks. *)
Lemma direct_slot ip k : ind_of ip = 0 -> slot c0 ip k = if decide (k < NDIRECT)%nat then default 0 (i_addrs ip !! k) else 0.
Proof. intros Hi. unfold slot. rewrite Hi. repeat case_decide; done. Qed.

Lemma file_slot k : slot c0 file_entry k = 0 \/ (k = 0%nat /\ slot c0 file_entry k = 17) \/ (k = 1%nat /\ slot c0 file_entry k = 18).
Proof.
  rewrite direct_slot by done. case_decide as Hk; [|by left]. unfold NDIRECT in Hk.
  do 12 (destruct k as [|k]; [vm_compute; auto|]). lia.
Qed.

Lemma demo_data b : 16 <= b < 19 -> data demo_sb c0 b.
Proof.
  intros Hb. split; [change (sb_size demo_sb) with 40; lia|]. split; [by intros Hf%demo_free; lia|].
  split; [intros Hr%demo_reserved; lia|]. apply demo_home. lia.
Qed.

Lemma demo_file_ok : file_ok demo_sb c0 file_entry.
Proof.
  split.
  - split; [in_range|in_range|in_range|in_range|in_range|reflexivity|].
    apply Forall_forall. intros x Hx. repeat (apply elem_of_cons in Hx as [-> |Hx]; [in_range|]). by apply elem_of_nil in Hx.
  - reflexivity.
  - vm_compute. split; [discriminate|reflexivity].
  - vm_compute. discriminate.
  - intros k _ Hne. apply demo_data. destruct (file_slot k) as [?|[[_ ->]|[_ ->]]]; [done|lia|lia].
  - intros k k' _ _ Hne He. destruct (file_slot k) as [?|[[-> E]|[-> E]]], (file_slot k') as [?|[[-> E']|[-> E']]]; congruence.
  - intros k Hk. destruct k as [|[|k]]; [vm_compute; discriminate|vm_compute; discriminate|].
    change (i_size file_entry) with 600 in Hk. rewrite BSIZE_eq in Hk. lia.
Qed.

Lemma demo_icache : icache_ok fs_inodes.
Proof.
  assert (Hin : forall i ip, fs_inodes !! i = Some ip -> (i = 0%nat /\ ip = file_entry) \/ (i = 1%nat /\ ip = root_entry) \/ ip = free_entry).
  { intros [|[|i]] ip Hi; [left; split; [done|by injection Hi]|right; left; split; [done|by injection Hi]|].
    right; right. change (replicate 48 free_entry !! i = Some ip) in Hi. by apply lookup_replicate in Hi as [-> _]. }
  split.
  - intros i ip [[_ ->]|[[_ ->]| ->]]%Hin; vm_compute; discriminate.
  - intros i ip [[_ ->]|[[_ ->]| ->]]%Hin; reflexivity.
  - intros i j ip jp [[-> ->]|[[-> ->]| ->]]%Hin [[-> ->]|[[-> ->]| ->]]%Hin; try done; vm_compute; intros; congruence.
Qed.

Lemma demo_has_file e : @rep Bio.bcache _ _ e fs_view -> has_file (lim := 10) (fs_state e) c0 ∅ 0 file_entry.
Proof. intros R. split; [by apply fs_srep|apply demo_disk_ok|apply demo_file_ok|reflexivity|discriminate]. Qed.

Lemma demo_may_hold : may_hold demo_sb c0 ∅.
Proof. split; [vm_compute; lia|by intros; apply lookup_empty|by intros; apply lookup_empty]. Qed.

(** ** Witnesses *)

Lemma balloc_witness : exists e b s', balloc ROOTDEV (fs_state e) = Ret b s' /\ b = 19.
Proof.
  destruct fs_rep as (e & R).
  assert (Hu : bmap_used demo_sb c0) by (apply disk_bmap_used, demo_disk_ok).
  destruct (balloc_correct (lim := 10) (fs_state e) c0 ∅ ∅ (fs_srep e R) (dk_bmap _ _ demo_disk_ok) Hu demo_may_hold ltac:(vm_compute; lia))
    as [H _].
  assert (H19 : FsBlock.free demo_sb c0 19) by (apply demo_free; lia).
  destruct (H (ex_intro _ 19 H19)) as (b & s' & _ & E & _ & Hf & _).
  exists e, b, s'. split; [exact E|]. destruct Hf as [Hf Hmin]. apply demo_free in Hf.
  destruct (decide (b = 19)) as [|Hne]; [done|]. destruct (Hmin 19 ltac:(lia) H19).
Defined.

Lemma bfree_witness : exists e s', bfree ROOTDEV 17 (fs_state e) = Ret tt s'.
Proof.
  destruct fs_rep as (e & R).
  destruct (bfree_correct (lim := 10) (fs_state e) c0 ∅ ∅ 17 (fs_srep e R) (dk_bmap _ _ demo_disk_ok) eq_refl
    (demo_home 1 ltac:(lia)) (lookup_empty _) (lookup_empty _) ltac:(vm_compute; lia)
    ltac:(vm_compute; split; [discriminate|reflexivity]) ltac:(vm_compute; lia)) as [H _].
  assert (Hnf : ~ FsBlock.free demo_sb c0 17) by (intros Hf%demo_free; lia).
  destruct (H Hnf) as (s' & _ & E & _). exists e, s'. exact E.
Defined.

Lemma iget_witness : exists e i s', iget ROOTDEV 5 (fs_state e) = Ret i s' /\ icache_ok (inodes s').
Proof.
  exists fs_boot. destruct (iget_correct (fs_state fs_boot) ROOTDEV 5 eq_refl demo_icache) as [(i & s' & E & _ & _ & _ & Hok & _)|[_ [_ Hf]]].
  - exists i, s'. split; [exact E|exact Hok].
  - specialize (Hf 2%nat free_entry eq_refl). vm_compute in Hf. discriminate.
Defined.

Lemma demo_inodes_free : inodes_free demo_sb ∅.
Proof. intros n Hn. split; [|apply lookup_empty]. rewrite iblock by (change (sb_ninodes demo_sb) with 8 in Hn; lia). apply demo_home. lia. Qed.

Lemma iupdate_ilock_witness : exists e s1, iupdate 0 (fs_state e) = Ret tt s1.
Proof.
  destruct fs_rep as (e & R).
  destruct (iupdate_ilock (lim := 10) 3 1 (fs_state e) c0 ∅ 0 file_entry (fs_srep e R) ltac:(vm_compute; lia) eq_refl eq_refl
    (fo_typed _ _ _ demo_file_ok) ltac:(discriminate) (demo_home 14 ltac:(lia)) Nat.lt_0_1) as (s1 & _ & E & _).
  exists e, s1. exact E.
Defined.

(** The first free inode is number 3. *)
Lemma ialloc_witness : exists e i s', ialloc ROOTDEV T_FILE (fs_state e) = Ret i s' /\ icache_ok (inodes s').
Proof.
  destruct fs_rep as (e & R).
  destruct (ialloc_correct (lim := 10) (fs_state e) c0 ∅ ∅ T_FILE (fs_srep e R) demo_inodes_free ltac:(vm_compute; lia)
    ltac:(vm_compute; lia) eq_refl demo_icache ltac:(in_range)) as [(i & inum & s' & c' & E & _ & _ & Hok & _)|[(s' & _ & Hno)|(s' & _ & Hno)]].
  - exists e, i, s'. split; [exact E|exact Hok].
  - destruct (Hno 3); [in_range|reflexivity].
  - specialize (Hno 2%nat free_entry eq_refl). vm_compute in Hno. discriminate.
Defined.

Definition no_read : Z -> option (nat -> Z -> M (fs (Log.log Bio.bcache)) (Z * list Z)) := fun _ => None.
Definition no_write : Z -> option (nat -> list Z -> Z -> M (fs (Log.log Bio.bcache)) Z) := fun _ => None.

(** Reads across the two blocks, cut off at the end. *)
Lemma readi_witness : exists e s', readi no_read 0 510 1000 (fs_state e) = Ret (90, [5; 5] ++ replicate 88 6) s'.
Proof.
  destruct fs_rep as (e & R).
  destruct (readi_correct (lim := 10) no_read (fs_state e) c0 ∅ 0 file_entry 510 1000 (demo_has_file e R) ltac:(in_range) ltac:(in_range))
    as (s' & _ & _ & E).
  exists e, s'. rewrite decide_True in E by (vm_compute; split; [discriminate|reflexivity]).
  change (Ret (90, [5; 5] ++ replicate 88 6) s') with (Ret (Z.min 1000 (600 - 510), [5; 5] ++ replicate 88 6) s').
  etrans; [exact E|]. vm_compute. reflexivity.
Defined.

Lemma demo_fits n : (n <= 1000)%nat -> fits file_entry 600 n.
Proof. intros Hn. split; [vm_compute; discriminate|]. rewrite MAXFILE_eq, BSIZE_eq. lia. Qed.
Lemma demo_enough : enough demo_sb c0 20.
Proof.
  exists (list_to_set (seqZ 19 20)). split; [vm_compute; lia|]. intros b Hb%elem_of_list_to_set%elem_of_seqZ.
  apply demo_free. lia.
Qed.

Lemma writei_witness : exists e s' c' ip', writei no_write 0 (replicate 1000 1) 600 1000 (fs_state e) = Ret 1000 s' /\
  contents c' ip' = contents c0 file_entry ++ replicate 1000 1.
Proof.
  destruct fs_rep as (e & R). set (src := replicate 1000 1).
  destruct (writei_correct (lim := 10) no_write (fs_state e) c0 ∅ 0 file_entry src 600 (demo_has_file e R) ltac:(in_range) ltac:(in_range)
    ltac:(vm_compute; lia)) as [_ H].
  destruct (H (demo_fits 1000 ltac:(lia))) as [(s' & c' & p' & ip' & E & _ & _ & Hw & _)|[_ Hno]].
  - exists e, s', c', ip'. split; [exact E|]. rewrite (wn_contents _ _ _ _ _ _ _ Hw).
    assert (Hl : length (contents c0 file_entry) = 600%nat) by apply length_fbytes.
    rewrite take_ge, drop_ge by (rewrite Hl; vm_compute; lia). by rewrite app_nil_r.
  - destruct Hno. eapply enough_le; [|exact demo_enough]. vm_compute. lia.
Defined.

Lemma writei_readi_witness : exists e s',
  (writei no_write 0 (replicate 1000 1) 600 1000 ;;; readi no_read 0 600 1000) (fs_state e) = Ret (1000, replicate 1000 1) s'.
Proof.
  destruct fs_rep as (e & R). set (src := replicate 1000 1).
  assert (Hen : enough demo_sb c0 (holes c0 file_entry (touched (Z.to_nat 600) (length src)) + need file_entry))
    by (eapply enough_le; [|exact demo_enough]; vm_compute; lia).
  destruct (writei_readi (lim := 10) no_read no_write (fs_state e) c0 ∅ 0 file_entry src 600 (demo_has_file e R) ltac:(in_range)
    (demo_fits 1000 ltac:(lia)) ltac:(vm_compute; lia) Hen) as (s' & E).
  exists e, s'. exact E.
Defined.

Lemma write_chunk_witness : exists e s', writei no_write 0 (replicate 1000 1) 600 1000 (fs_state e) = Ret 1000 s'.
Proof.
  destruct fs_rep as (e & R). set (src := replicate 1000 1).
  destruct (write_chunk_bound (lim := 10) no_write (fs_state e) c0 0 file_entry src 600 (demo_has_file e R) ltac:(in_range)
    (demo_fits 1000 ltac:(lia)) ltac:(vm_compute; lia) ltac:(vm_compute; discriminate)) as [(s' & _ & _ & _ & E & _)|(s' & _ & Hno)].
  - exists e, s'. exact E.
  - destruct Hno. eapply enough_le; [|exact demo_enough]. lia.
Defined.

(** ** The root directory *)

Definition dir_entry : inode := root_dinode <| i_ref := 1 |> <| i_valid := 1 |> <| i_lk := Sleep.Sleeplock false 1 3 0 |>.
Definition dir_state (e : Bio.bcache) : fs (Log.log Bio.bcache) := MkFs false (dir_entry :: replicate 49 free_entry) demo_sb (fs_log e).

Lemma root_slot k : slot c0 dir_entry k = 0 \/ (k = 0%nat /\ slot c0 dir_entry k = 16).
Proof.
  rewrite direct_slot by done. case_decide as Hk; [|by left]. unfold NDIRECT in Hk.
  do 12 (destruct k as [|k]; [vm_compute; auto|]). lia.
Qed.

Lemma demo_root_ok : file_ok demo_sb c0 dir_entry.
Proof.
  split.
  - split; [in_range|in_range|in_range|in_range|in_range|reflexivity|].
    apply Forall_forall. intros x Hx. repeat (apply elem_of_cons in Hx as [-> |Hx]; [in_range|]). by apply elem_of_nil in Hx.
  - reflexivity.
  - vm_compute. split; [discriminate|reflexivity].
  - vm_compute. discriminate.
  - intros k _ Hne. apply demo_data. destruct (root_slot k) as [?|[_ ->]]; [done|lia].
  - intros k k' _ _ Hne He. destruct (root_slot k) as [?|[-> E]], (root_slot k') as [?|[-> E']]; congruence.
  - intros k Hk. destruct k as [|k]; [vm_compute; discriminate|].
    change (i_size dir_entry) with 48 in Hk. rewrite BSIZE_eq in Hk. lia.
Qed.

Lemma bytes_ok l : forallb (fun b => (0 <=? b) && (b <? 256)) l = true -> Forall is_byte l.
Proof.
  induction l as [|b l IH]; [constructor|]. simpl. intros [[H1 H2]%andb_prop H3]%andb_prop. constructor; [unfold is_byte; lia|auto].
Qed.
Lemma demo_dir_ok : dir_ok c0 dir_entry.
Proof. split; [reflexivity|reflexivity|]. apply bytes_ok. vm_compute. reflexivity. Qed.

Lemma demo_has_dir e : @rep Bio.bcache _ _ e fs_view -> has_file (lim := 10) (dir_state e) c0 ∅ 0 dir_entry.
Proof. intros R. split; [by apply fs_srep|apply demo_disk_ok|apply demo_root_ok|reflexivity|discriminate]. Qed.

Lemma dir_cache ip i : (dir_entry :: replicate 49 free_entry) !! i = Some ip -> (i = 0%nat /\ ip = dir_entry) \/ ip = free_entry.
Proof.
  destruct i as [|i]; intros Hi; [left; split; [done|by injection Hi]|].
  right. change (replicate 49 free_entry !! i = Some ip) in Hi. by apply lookup_replicate in Hi as [-> _].
Qed.
Lemma dir_icache : icache_ok (dir_entry :: replicate 49 free_entry).
Proof.
  split.
  - intros i ip [[_ ->]| ->]%dir_cache; vm_compute; discriminate.
  - intros i ip [[_ ->]| ->]%dir_cache; reflexivity.
  - intros i j ip jp [[-> ->]| ->]%dir_cache [[-> ->]| ->]%dir_cache; try done; vm_compute; intros; congruence.
Qed.

(** The name f, and one that the directory does not have. *)
Definition name_f : list Z := [102; 0].
Definition name_g : list Z := [103; 0].
Definition name_dot : list Z := [46; 0].
Lemma demo_name x : is_byte x -> name_ok [x; 0].
Proof. intros Hx. split; [left; unfold terminated; set_solver|]. repeat (constructor; [try done; unfold is_byte; lia|]). constructor. Qed.

Lemma dirlookup_witness : exists e j s', dirlookup no_read 0 name_f (dir_state e) = Ret (Some (j, 32)) s'.
Proof.
  destruct fs_rep as (e & R). assert (Hh : first_hit c0 dir_entry name_f 2).
  { split; [vm_compute; lia|]. split; [vm_compute; split; [discriminate|reflexivity]|].
    intros [|[|k]] Hk; [intros [_ H]; vm_compute in H; discriminate..|lia]. }
  destruct (dirlookup_correct (lim := 10) no_read (dir_state e) c0 ∅ 0 dir_entry name_f (demo_has_dir e R) demo_dir_ok
    (demo_name 102 ltac:(in_range)) eq_refl dir_icache) as [(s' & _ & _ & _ & Hno)|[(k & j & s' & E & Hk & _)|(k & s' & _ & _ & Hfull)]].
  - destruct (Hno 2%nat); apply Hh.
  - assert (k = 2%nat) as -> by (by eapply first_hit_unique). exists e, j, s'. exact E.
  - specialize (Hfull 1%nat free_entry eq_refl). vm_compute in Hfull. discriminate.
Defined.

Lemma dirlink_witness : exists e s1, dirlink 3 1 no_read no_write 0 name_g 2 (dir_state e) = Ret 0 s1.
Proof.
  destruct fs_rep as (e & R).
  assert (Hno : forall k, (k < nents dir_entry)%nat -> ~ hit c0 dir_entry name_g k).
  { change (nents dir_entry) with 3%nat. intros [|[|[|k]]] Hk; [intros [_ H]; vm_compute in H; discriminate..|lia]. }
  assert (Hen : enough demo_sb c0 2) by (eapply enough_le; [|exact demo_enough]; lia).
  destruct (dirlink_dirlookup (lim := 10) 3 1 Nat.lt_0_1 no_read no_write (dir_state e) c0 ∅ 0 dir_entry name_g 2 1 free_entry (demo_has_dir e R) demo_dir_ok
    (demo_name 103 ltac:(in_range)) eq_refl dir_icache ltac:(lia) ltac:(vm_compute; lia) Hen ltac:(vm_compute; reflexivity) Hno eq_refl eq_refl
    ltac:(discriminate)) as (s1 & _ & _ & _ & _ & _ & _ & E & _).
  exists e, s1. exact E.
Defined.

(** [link("f", ".")] waits for ever. *)
Lemma dirlink_self_witness : exists e, Sleep.waits (has_lk 0) 9 (dirlink 3 9 no_read no_write 0 name_dot 2 (dir_state e)).
Proof.
  destruct fs_rep as (e & R). exists e.
  assert (Hh : first_hit c0 dir_entry name_dot 0) by (split; [vm_compute; lia|]; split; [vm_compute; split; [discriminate|reflexivity]|lia]).
  apply (dirlink_self_deadlock (lim := 10) 3 9 no_read no_write 9 (dir_state e) c0 ∅ 0 dir_entry name_dot 2 0 (demo_has_dir e R) demo_dir_ok
    (demo_name 46 ltac:(in_range)) eq_refl dir_icache ltac:(reflexivity) ltac:(discriminate) Hh eq_refl (le_n 9)).
Defined.

(** ** The path /f *)

Lemma demo_dino n : 0 < n < 8 -> dtype demo_sb c0 n <> 0 ->
  (n = 1 /\ dino demo_sb c0 n = root_dinode) \/ (n = 2 /\ dino demo_sb c0 n = file_dinode).
Proof.
  intros Hn Ht. destruct (decide (n = 1)) as [->|]; [left; split; [done|by vm_compute]|].
  destruct (decide (n = 2)) as [->|]; [right; split; [done|by vm_compute]|]. exfalso. apply Ht.
  assert (Hz : n = 3 \/ n = 4 \/ n = 5 \/ n = 6 \/ n = 7) by lia.
  by destruct Hz as [->|[->|[->|[->| ->]]]]; vm_compute.
Qed.
Lemma dino_type n : dtype demo_sb c0 n = i_type (dino demo_sb c0 n).
Proof. done. Qed.

Lemma demo_dir n : 0 < n < 8 -> i_type (dino demo_sb c0 n) = T_DIR -> n = 1 /\ dino demo_sb c0 n = root_dinode.
Proof.
  intros Hn Ht. destruct (demo_dino n Hn) as [H1|[_ E]]; [rewrite dino_type, Ht; discriminate|exact H1|].
  rewrite E in Ht. discriminate.
Qed.

Lemma demo_tree_ok : tree_ok demo_sb c0.
Proof.
  split; change (sb_ninodes demo_sb) with 8.
  - intros n Hn [[-> ->]|[-> ->]]%demo_dino; [apply (with_disk_file demo_sb c0 dir_entry)|apply (with_disk_file demo_sb c0 file_entry)|];
      try done; [apply demo_root_ok|apply demo_file_ok].
  - intros n Hn [-> ->]%demo_dir; [|exact Hn].
    split; [reflexivity|reflexivity|]. apply bytes_ok. vm_compute. reflexivity.
  - intros n k Hn [-> E]%demo_dir Hk m Hm; [|exact Hn].
    unfold m in *. rewrite E in *. destruct k as [|[|[|k]]]; [| | |vm_compute in Hk; lia]; vm_compute; (split; [done|split; discriminate]).
Qed.

Definition path_state (e : Bio.bcache) : fs (Log.log Bio.bcache) := MkFs false (replicate 50 free_entry) demo_sb (fs_log e).
Lemma free_cache i ip : replicate 50 free_entry !! i = Some ip -> ip = free_entry.
Proof. by intros [-> _]%lookup_replicate. Qed.
Lemma demo_cache_good : cache_good demo_sb c0 (replicate 50 free_entry).
Proof.
  split; [split|].
  - intros i ip ->%free_cache. done.
  - intros i ip ->%free_cache. done.
  - intros i j ip jp ->%free_cache _ Hr. vm_compute in Hr. discriminate.
  - intros i ip ->%free_cache. split; [done|]. intros Hr. vm_compute in Hr. discriminate.
Qed.

Lemma namex_witness : exists e j name s', namex 3 1 no_read 0 [SLASH; 102] false (replicate 14 0) (path_state e) = Ret (Some j, name) s' /\
  entry (inodes s') ROOTDEV 2 j.
Proof.
  destruct fs_rep as (e & R).
  assert (Hfree : forall k, (k < 50)%nat -> exists ip, inodes (path_state e) !! k = Some ip /\ i_ref ip = 0).
  { intros k Hk. exists free_entry. split; [by apply lookup_replicate_2|reflexivity]. }
  assert (Hst : starts demo_sb c0 (path_state e) 0 [SLASH; 102] 1) by (apply starts_root; vm_compute; [reflexivity|discriminate|discriminate]).
  destruct (namex_correct (lim := 10) 3 1 Nat.lt_0_1 no_read (path_state e) c0 ∅ 0 1 0 [SLASH; 102] false (replicate 14 0) 1 (fs_srep e R)
    demo_disk_ok demo_tree_ok demo_cache_good eq_refl ltac:(discriminate) (Hfree 0%nat ltac:(lia)) (Hfree 1%nat ltac:(lia))
    ltac:(split; [vm_compute; set_solver|by apply bytes_ok]) ltac:(by apply bytes_ok) Hst) as ([r name] & s' & E & Hre).
  assert (Hw : walk demo_sb c0 false 1 (elems [SLASH; 102]) = Some 2) by (vm_compute; reflexivity).
  pose proof (re_walk _ _ _ _ _ _ _ _ _ Hre) as Hj. change (sb (path_state e)) with demo_sb in Hj. rewrite Hw in Hj.
  destruct r as [j|]; cbn [fst] in Hj; [|discriminate Hj]. destruct Hj as (m & Em & Hj). injection Em as <-. exists e, j, name, s'. split; [exact E|exact Hj].
Defined.

(** ** The last reference to a file without links *)

Definition dead_entry : inode := file_dinode <| i_ref := 1 |> <| i_valid := 1 |> <| i_nlink := 0 |>.
Definition dead_state (e : Bio.bcache) : fs (Log.log Bio.bcache) := MkFs false (dead_entry :: replicate 49 free_entry) demo_sb (fs_log e).

Lemma demo_sup_ok : sup_ok demo_sb c0.
Proof.
  split; [vm_compute; reflexivity|apply demo_home; lia|]. intros (x & Hx & He). rewrite bblock in He by done. lia.
Qed.
Lemma dead_file_ok : file_ok demo_sb c0 dead_entry.
Proof.
  destruct demo_file_ok as [[] O2 O3 O4 O5 O6 O7]. split; try assumption. split; try assumption.
Qed.


(** ** An open file, with the log at rest *)

Local Instance demo_ops : TxOps (Log.log Bio.bcache) := log_ops 1.
Local Instance demo_ops_ok : TxOpsOk (Log.log Bio.bcache) := log_ops_ok 2 12 1 Nat.lt_0_1.

Definition idle_entry : inode := file_dinode <| i_ref := 1 |> <| i_valid := 1 |>.
Definition open_entry : file := MkFile FD_INODE 1 1 1 0 (Some 0%nat) 600.
Definition rest_log (e : Bio.bcache) : Log.log Bio.bcache :=
  Log.MkLog false 2 12 0 0 ROOTDEV 0 (replicate 30 0) 0 0 e.
Definition open_state (e : Bio.bcache) : ker (Log.log Bio.bcache) :=
  MkKer false [open_entry] (MkFs false (idle_entry :: replicate 49 free_entry) demo_sb (rest_log e))
    (Kalloc.Kalloc.Kmem false 0 0 ∅) ∅ (Caller [Some 0%nat] 0 (fun _ => 0) 0 0 false).

Lemma demo_rest e : @rep Bio.bcache _ _ e fs_view -> quiet (rest_log e) c0.
Proof.
  intros R. split; [reflexivity|reflexivity|reflexivity| |reflexivity|reflexivity|reflexivity|].
  - split; try done; vm_compute; lia.
  - exists fs_view. split_and!; done.
Qed.

Lemma demo_ready e : @rep Bio.bcache _ _ e fs_view -> ready (open_state e) c0 0 open_entry 0 idle_entry.
Proof.
  intros R. split; try reflexivity; try discriminate.
  - in_range.
  - split; reflexivity.
  - apply demo_disk_ok.
  - exact (file_lk _ _ _ (Sleep.Sleeplock false 0 0 0) demo_file_ok).
  - by apply demo_rest.
Qed.

(** 2000 bytes are appended in two transactions. *)
Lemma filewrite_witness : exists e s' c' ip', filewrite 3 1 0 no_write 0 (replicate 2000 1) 2000 (open_state e) = Ret 2000 s' /\
  wrote_file (open_state e) c0 0 open_entry 0 idle_entry (replicate 2000 1) s' c' ip'.
Proof.
  destruct fs_rep as (e & R). set (src := replicate 2000 1). assert (Hn : length src = 2000%nat) by apply length_replicate.
  destruct (filewrite_correct (lim := 10) 3 1 0 Nat.lt_0_1 ltac:(vm_compute; discriminate) no_write (open_state e) c0 0 open_entry 0 idle_entry src
    (demo_ready e R) ltac:(discriminate)) as [(j & s' & c' & ip' & E & W & _ & Hj)|[_ Hno]]; rewrite Hn in *.
  - assert (j = 2000%nat) as -> by (apply Hj; right; split; vm_compute; discriminate).
    rewrite decide_True in E by done. exists e, s', c', ip'. split; [exact E|]. rewrite <- Hn, firstn_all in W. exact W.
  - destruct Hno. eapply enough_le; [|exact demo_enough]. vm_compute. lia.
Defined.
End demo.
