(* ===== verification/ExecDemo.v ===== *)
(** * A program is executed

    The file of FsDemo is a program; a process with one page of memory executes it
    with two arguments. *)

From S2P Require Import Prelude Params Bytes Str Sleeplock Block Bio Log Tx Fs FsBlock FsInode FsFile FsRw FsTrunc FsDir FsPath FileRw FsDemo.
From S2P Require Import Kalloc Vm VmTable VmSpace VmGrow VmUser VmDemo Exec ExecMem ExecLoad.
Import Kalloc.

Section demo.
Local Existing Instances demo_store demo_store_ok demo_tx_ok demo_limit demo_ops demo_ops_ok.
Notation c0 := (cont fs_view).

(** The arguments "f" and "ab". *)
Definition demo_args : list (list Z) := [[102]; [97; 98]].
Definition exec_fs (e : Bio.bcache) : fs (Log.log Bio.bcache) := MkFs false (replicate 50 free_entry) demo_sb (rest_log e).
Definition exec_state (e : Bio.bcache) (km : kmem) (d : Z) : xk (Log.log Bio.bcache) :=
  XK (exec_fs e) km (Regs 0 0 0 0) (Image (replicate 16 0) d 4096 0x80200000 0 0 0).

(** Two pages for the segment, the guard page and the stack. *)
Definition demo_check (im : new_prog) : bool :=
  (np_sz im =? 16384) && (np_eip im =? 16) && (np_esp im =? 16352) && (np_mem im 515 =? 6) && (np_mem im 516 =? 0) &&
  bool_decide (map (np_mem im) (seqZ 16376 8) = [97; 98; 0; 0; 102; 0; 0; 0]).
Notation demo_want := (m ← walk demo_sb c0 false 1 (elems [SLASH; 102]); new_image (contents c0 (dino demo_sb c0 m)) demo_args).
Lemma demo_image : exists im, demo_want = Some im /\ demo_check im = true.
Proof.
  assert (H : from_option demo_check false demo_want = true) by (vm_compute; reflexivity). revert H. generalize demo_want. intros [im|] H; [|discriminate H]. by exists im.
Qed.

Lemma demo_path : path_ok [SLASH; 102].
Proof. split; [vm_compute; set_solver|by apply bytes_ok]. Qed.
Lemma demo_name0 : Forall is_byte (replicate 14 0).
Proof. by apply bytes_ok. Qed.

Lemma demo_walk : walk demo_sb c0 false 1 (elems [SLASH; 102]) = Some 2.
Proof. vm_compute. reflexivity. Qed.
Lemma demo_program m : walk demo_sb c0 false 1 (elems [SLASH; 102]) = Some m ->
  i_type (dino demo_sb c0 m) <> T_DEV /\ bytes (contents c0 (dino demo_sb c0 m)).
Proof. rewrite demo_walk. intros [= <-]. split; [vm_compute; discriminate|]. apply bytes_ok. vm_compute. reflexivity. Qed.
Lemma demo_starts (F : fs (Log.log Bio.bcache)) : starts demo_sb c0 F 0 [SLASH; 102] 1.
Proof. apply starts_root; vm_compute; [reflexivity|discriminate|discriminate]. Qed.
Lemma demo_args_short : Forall (fun t : list Z => Z.of_nat (length t) < 2 ^ 24) demo_args.
Proof. repeat constructor. Qed.
Lemma demo_slot e km d k : (k < 50)%nat -> exists ip, inodes (x_fs (exec_state e km d)) !! k = Some ip /\ i_ref ip = 0.
Proof. intros Hk. exists free_entry. split; [by apply lookup_replicate_2|reflexivity]. Qed.

(** What the program finds in memory. *)
Lemma demo_memory km0 l A km l' B im : demo_want = Some im -> replaced (tail_end 83) km0 l A [] km l' B (np_sz im / PGSIZE) (np_mem im) ->
  np_sz im = 16384 /\ np_eip im = 16 /\ np_esp im = 16352 /\ ubyte km B 515 = Some 6 /\ ubyte km B 516 = Some 0.
Proof.
  intros E Hr. destruct demo_image as (im' & E' & Him). rewrite E in E'. injection E' as <-. clear E.
  apply andb_true_iff in Him as [Him _]. apply andb_true_iff in Him as [Him M2%Z.eqb_eq]. apply andb_true_iff in Him as [Him M1%Z.eqb_eq].
  apply andb_true_iff in Him as [Him M3%Z.eqb_eq]. apply andb_true_iff in Him as [M5%Z.eqb_eq M4%Z.eqb_eq].
  split_and!; [exact M5|exact M4|exact M3|rewrite <- M1|rewrite <- M2];
    apply (rp_mem _ _ _ _ _ _ _ _ _ _ Hr); rewrite M5; vm_compute; split; [discriminate|reflexivity|discriminate|reflexivity].
Qed.
Lemma exec_fits (l : list Z) : length l = 80%nat -> ~ forall im, demo_want = Some im -> Z.of_nat (length l) < 65 + 2 * npages (np_sz im).
Proof.
  intros Hl Hf. destruct demo_image as (im & E & Him). specialize (Hf im E). clear E. unfold demo_check in Him.
  assert (M : np_sz im = 16384) by (apply Z.eqb_eq; by destruct (np_sz im =? 16384)). rewrite Hl, M in Hf. vm_compute in Hf. discriminate Hf.
Qed.

(** exec("/f", {"f", "ab"}): the stack has the strings, and byte 515 of memory is
    the last one of the file. *)
Lemma exec_witness : exists e km l A s' B, space (tail_end 83) km l A [] /\
  exec 3 1 no_read (tail_end 83) 0x80108000 (replicate 14 0) [SLASH; 102] demo_args (exec_state e km (as_dir A)) = Ret 0 s' /\
  p_pgdir (x_proc s') = as_dir B /\ p_sz (x_proc s') = 16384 /\ p_eip (x_proc s') = 16 /\ p_esp (x_proc s') = 16352 /\
  ubyte (x_mem s') B 515 = Some 6 /\ ubyte (x_mem s') B 516 = Some 0.
Proof.
  destruct fs_rep as (e & R). destruct (one_page 80 ltac:(lia)) as (km & l & A & a & Hs & Hu & Hl).
  destruct (exec_correct (lim := 10) 3 1 Nat.lt_0_1 no_read (tail_end 83) (end_ok 83 ltac:(lia)) 0x80108000 data_ok (replicate 14 0)
    (exec_state e km (as_dir A)) c0 1 0 1 [SLASH; 102] demo_args l A [] (demo_rest e R) demo_disk_ok demo_tree_ok demo_cache_good eq_refl ltac:(discriminate)
    (demo_slot _ _ _ 0%nat ltac:(lia)) (demo_slot _ _ _ 1%nat ltac:(lia)) demo_path demo_name0 (demo_starts _) demo_program demo_args_short Hs eq_refl eq_refl
    ltac:(discriminate)) as (r & s' & E & _ & [(-> & im & B & l' & name & Him & Hr & _ & Hp & _)|(_ & _ & _ & _ & Hf)]).
  - destruct (demo_memory _ _ _ _ _ _ _ Him Hr) as (M1 & M2 & M3 & M4 & M5). exists e, km, l, A, s', B. rewrite Hp. split_and!; done.
  - destruct (exec_fits l Hl Hf).
Defined.
End demo.
