(* ===== verification/ProcDefs.v ===== *)
(** * Data of the process table (proc.h, head of proc.c)

    [struct proc], the process table with its state lists and ready queues, the
    kernel state that proc.c works on, and [ProcServices], the interface to the
    other kernel parts that proc.c calls (page allocator, virtual memory,
    files, log). *)

From S2P Require Import Prelude Params Spinlock.

(** ** Processes *)

Inductive procstate := UNUSED | EMBRYO | SLEEPING | RUNNABLE | RUNNING | ZOMBIE.
#[export] Instance procstate_eq_dec : EqDecision procstate.
Proof. solve_decision. Defined.

(** The value of the enumerator: an index of [states] and [ptable.list]. *)
Definition state_num (st : procstate) : nat :=
  match st with
  | UNUSED => 0 | EMBRYO => 1 | SLEEPING => 2 | RUNNABLE => 3 | RUNNING => 4 | ZOMBIE => 5
  end.
(** [statecount], the number of states. *)
Definition statecount : nat := 6.

(** x86.h [struct trapframe], without its paddings. *)
Record trapframe := Trapframe {
  tf_edi : Z; tf_esi : Z; tf_ebp : Z; tf_oesp : Z; tf_ebx : Z; tf_edx : Z; tf_ecx : Z;
  tf_eax : Z; tf_gs : Z; tf_fs : Z; tf_es : Z; tf_ds : Z; tf_trapno : Z; tf_err : Z;
  tf_eip : Z; tf_cs : Z; tf_eflags : Z; tf_esp : Z; tf_ss : Z;
}.
#[export] Instance trapframe_eta : Eta trapframe := fun r =>
  Trapframe (tf_edi r) (tf_esi r) (tf_ebp r) (tf_oesp r) (tf_ebx r) (tf_edx r) (tf_ecx r)
    (tf_eax r) (tf_gs r) (tf_fs r) (tf_es r) (tf_ds r) (tf_trapno r) (tf_err r)
    (tf_eip r) (tf_cs r) (tf_eflags r) (tf_esp r) (tf_ss r).
(** [sizeof(struct trapframe)], paddings included. *)
Definition sizeof_trapframe : Z := 76.
Definition zero_tf : trapframe := Trapframe 0 0 0 0 0 0 0 0 0 0 0 0 0 0 0 0 0 0 0.

(** proc.h [struct context] *)
Record context := Context_ { c_edi : Z; c_esi : Z; c_ebx : Z; c_ebp : Z; c_eip : Z }.
#[export] Instance context_eta : Eta context := fun r =>
  Context_ (c_edi r) (c_esi r) (c_ebx r) (c_ebp r) (c_eip r).
Definition sizeof_context : Z := 20.
Definition zero_context : context := Context_ 0 0 0 0 0.

(** A sleep channel is an address: null, a process ([wait] sleeps on
    [curproc]), or some other kernel object. *)
Inductive chan := ChNull | ChProc (p : nat) | ChAddr (a : Z).
#[export] Instance chan_eq_dec : EqDecision chan.
Proof. solve_decision. Defined.
(** A process pointer used as a channel. *)
Definition chan_of (p : option nat) : chan :=
  match p with Some i => ChProc i | None => ChNull end.

(** proc.h [struct proc].  A [struct proc *] is an index of [ptable.proc] or
    null; the trap frame and the saved context, which live on the kernel stack,
    are kept with the addresses the pointers have; [retslot] is the word
    between them. *)
Record proc := Proc {
  sz : Z;
  pgdir : option Z;
  kstack : option Z;
  state : procstate;
  pid : Z;
  parent : option nat;
  tf_at : Z; tf : trapframe;
  context_at : Z; context_of : context;
  retslot : Z;
  chan_of_proc : chan;
  killed : Z;
  ofile : list (option Z);
  cwd : option Z;
  name : list Z;
  start_ticks : Z;
  uid : Z;
  gid : Z;
  cpu_ticks_total : Z;
  cpu_ticks_in : Z;
  next : option nat;
  priority : Z;
  budget : Z;
}.
#[export] Instance proc_eta : Eta proc := fun r =>
  Proc (sz r) (pgdir r) (kstack r) (state r) (pid r) (parent r) (tf_at r) (tf r)
    (context_at r) (context_of r) (retslot r) (chan_of_proc r) (killed r) (ofile r)
    (cwd r) (name r) (start_ticks r) (uid r) (gid r) (cpu_ticks_total r)
    (cpu_ticks_in r) (next r) (priority r) (budget r).

(** The table is static: all fields are zero at boot. *)
Definition zero_proc : proc :=
  Proc 0 None None UNUSED 0 None 0 zero_tf 0 zero_context 0 ChNull 0
    (replicate NOFILE None) None (replicate 16 0) 0 0 0 0 0 None 0 0.

(** [struct ptrs] *)
Record ptrs := Ptrs { head : option nat; tail : option nat }.
#[export] Instance ptrs_eta : Eta ptrs := fun r => Ptrs (head r) (tail r).

(** ** The kernel state of proc.c

    [L] is the CPU and lock state, [E] the state of the other kernel parts. *)
Record kst (L E : Type) := KSt {
  procs : list proc;       (* ptable.proc *)
  lists : list ptrs;       (* ptable.list *)
  ready : list ptrs;       (* ptable.ready *)
  PromoteAtTime : Z;       (* ptable.PromoteAtTime *)
  nextpid : Z;
  initproc : option nat;
  ticks : Z;
  cpu : L;
  env : E;
}.
Arguments KSt {L E} _ _ _ _ _ _ _ _ _.
Arguments procs {L E} _.
Arguments lists {L E} _.
Arguments ready {L E} _.
Arguments PromoteAtTime {L E} _.
Arguments nextpid {L E} _.
Arguments initproc {L E} _.
Arguments ticks {L E} _.
Arguments cpu {L E} _.
Arguments env {L E} _.
#[export] Instance kst_eta {L E} : Eta (kst L E) := fun r =>
  KSt (procs r) (lists r) (ready r) (PromoteAtTime r) (nextpid r) (initproc r)
    (ticks r) (cpu r) (env r).

(** ** What proc.c needs from the rest of the kernel

    Each service runs on [E].  The laws: a service either returns or panics
    with a message of [sv_panics], never one of proc.c's own; the services of
    the first group do not give up the processor (proc.c calls some of them
    with [ptable.lock] held), those of the second may sleep; [filedup] and
    [idup] count one more reference and return their argument. *)

(** The panics of proc.c itself and of the locks. *)
Definition proc_panics : list string := [
  "Empty list or process not in list"; "Empty List or process not in list";
  "Empty List or process is not in list";
  "process state not same as asserted state.";
  "The Runnable list should be empty"; "Runnable list should be empty";
  "p->priority not same as in ready list";
  "sched ptable.lock"; "sched locks"; "sched running"; "sched interruptible";
  "sleep"; "zombie exit"; "acquire"; "release"; "init exiting"
]%string.

Class ProcServices (E : Type) := {
  sv_kalloc : M E (option Z);
  sv_kfree : Z -> M E unit;
  sv_setupkvm : M E (option Z);
  sv_inituvm : Z -> M E unit;                   (* with the linked-in initcode *)
  sv_copyuvm : option Z -> Z -> M E (option Z);
  sv_freevm : option Z -> M E unit;
  sv_allocuvm : option Z -> Z -> Z -> M E Z;
  sv_deallocuvm : option Z -> Z -> Z -> M E Z;
  sv_switchuvm : option Z -> option Z -> M E unit;  (* kstack, pgdir *)
  sv_switchkvm : M E unit;
  sv_filedup : Z -> M E Z;
  sv_idup : Z -> M E Z;

  sv_fileclose : Z -> M E unit;
  sv_begin_op : M E unit;
  sv_end_op : M E unit;
  sv_iput : option Z -> M E unit;
  sv_namei : list Z -> M E (option Z);

  forkret_addr : Z;                             (* link-time addresses *)
  trapret_addr : Z;

  sv_panics : string -> Prop;
  sv_panics_own m : sv_panics m -> m ∉ proc_panics;

  sv_ret {A} (m : M E A) (e : E) (Q : A -> Prop) : Prop :=
    wp (Prot sv_panics (fun _ => False) (fun _ _ => False)) m e (fun a _ => Q a);
  sv_nb {A} (m : M E A) (e : E) : Prop := sv_ret m e (fun _ => True);
  sv_bl {A} (m : M E A) (e : E) : Prop :=
    wp (Prot sv_panics (fun _ => True) (fun _ _ => True)) m e (fun _ _ => True);

  sv_kalloc_nb e : sv_nb sv_kalloc e;
  sv_kfree_nb a e : sv_nb (sv_kfree a) e;
  sv_setupkvm_nb e : sv_nb sv_setupkvm e;
  sv_inituvm_nb a e : sv_nb (sv_inituvm a) e;
  sv_copyuvm_nb a n e : sv_nb (sv_copyuvm a n) e;
  sv_freevm_nb a e : sv_nb (sv_freevm a) e;
  sv_allocuvm_nb a x y e : sv_nb (sv_allocuvm a x y) e;
  sv_deallocuvm_nb a x y e : sv_nb (sv_deallocuvm a x y) e;
  sv_switchuvm_nb a b e : sv_nb (sv_switchuvm a b) e;
  sv_switchkvm_nb e : sv_nb sv_switchkvm e;
  sv_filedup_ret f e : sv_ret (sv_filedup f) e (fun f' => f' = f);
  sv_idup_ret i e : sv_ret (sv_idup i) e (fun i' => i' = i);
  sv_fileclose_bl f e : sv_bl (sv_fileclose f) e;
  sv_begin_op_bl e : sv_bl sv_begin_op e;
  sv_end_op_bl e : sv_bl sv_end_op e;
  sv_iput_bl i e : sv_bl (sv_iput i) e;
  sv_namei_bl p e : sv_bl (sv_namei p) e;
}.

(** ** Accessors *)

Section access.
Context {L E : Type}.
Abbreviation K := (kst L E).

(** Run a computation on the CPU state, or on the rest of the kernel. *)
Definition on_cpu {A} (m : M L A) : M K A := lift cpu (fun l s => s <| cpu := l |>) m.
Definition on_env {A} (m : M E A) : M K A := lift env (fun e s => s <| env := e |>) m.

(** [*p]: a wild pointer faults. *)
Definition get_proc (p : nat) : M K proc := fun s =>
  match procs s !! p with Some pr => Ret pr s | None => Fault s end.
(** [p->field = ..] *)
Definition put_proc (p : nat) (f : proc -> proc) : M K unit := fun s =>
  match procs s !! p with
  | Some pr => Ret tt (s <| procs ::= <[p := f pr]> |>)
  | None => Fault s
  end.
(** Dereference of a pointer that may be null. *)
Definition nonnull (p : option nat) : M K nat :=
  match p with Some i => ret i | None => fault end.

(** [&ptable.list[i]] and [&ptable.ready[j]] *)
Inductive qref := QList (i : nat) | QReady (j : nat).
#[export] Instance qref_eq_dec : EqDecision qref.
Proof. solve_decision. Defined.

Definition lookup_q (s : K) (q : qref) : option ptrs :=
  match q with QList i => lists s !! i | QReady j => ready s !! j end.
Definition insert_q (q : qref) (v : ptrs) (s : K) : K :=
  match q with
  | QList i => s <| lists ::= <[i := v]> |>
  | QReady j => s <| ready ::= <[j := v]> |>
  end.

Definition get_q (q : qref) : M K ptrs := fun s =>
  match lookup_q s q with Some v => Ret v s | None => Fault s end.
Definition put_q (q : qref) (f : ptrs -> ptrs) : M K unit := fun s =>
  match lookup_q s q with
  | Some v => Ret tt (insert_q q (f v) s)
  | None => Fault s
  end.

End access.
