(* ===== verification/StateList.v ===== *)
(** * The state lists of the process table (proc.c, "list management helper functions")

    A process is linked through its own [next] field into exactly one of
    [ptable.list[..]] and [ptable.ready[..]].  The operations below are the
    source's pointer manipulations on that heap of processes; the abstraction
    of a list is the Rocq list of the process indices it links, and the
    refinement lemmas say that adding appends and removing deletes. *)

From S2P Require Import Prelude Params Spinlock ProcDefs.

Section ops.
Context {L E : Type}.
Abbreviation K := (kst L E).

(** ** Operations *)

Definition stateListAdd (list : qref) (p : nat) : M K unit :=
  l <- get_q list ;;
  match head l with
  | None =>
      put_q list (fun l => Ptrs (Some p) (tail l)) ;;;
      put_q list (fun l => Ptrs (head l) (Some p)) ;;;
      put_proc p (fun r => r <| next := None |>)
  | Some _ =>
      (* list->tail->next = p *)
      t <- nonnull (tail l) ;;
      put_proc t (fun r => r <| next := Some p |>) ;;;
      (* list->tail = list->tail->next *)
      r <- get_proc t ;;
      put_q list (fun l => Ptrs (head l) (next r)) ;;;
      (* list->tail->next = NULL *)
      l <- get_q list ;;
      t <- nonnull (tail l) ;;
      put_proc t (fun r => r <| next := None |>)
  end.

(** The search loop: [current] and [previous]. *)
Definition find_step (p : nat) (cp : option nat * option nat)
  : M K ((option nat * option nat) + (option nat * option nat)) :=
  match cp with
  | (None, previous) => ret (inr (None, previous))
  | (Some c, previous) =>
      if decide (c = p) then ret (inr (Some c, previous))
      else r <- get_proc c ;; ret (inl (next r, Some c))
  end.

(** Enough iterations for any list of distinct processes. *)
Definition list_fuel : nat := S (S NPROC).

Definition stateListRemove (list : qref) (p : option nat) : M K Z :=
  l <- get_q list ;;
  match head l, tail l, p with
  | Some h, Some t, Some p =>
      if decide (h = p) then
        r <- get_proc h ;;
        put_q list (fun l => Ptrs (next r) (tail l)) ;;;
        when (bool_decide (t = p)) (put_q list (fun l => Ptrs (head l) None)) ;;;
        ret 0
      else
        cp <- mwhile list_fuel (find_step p) (Some h, None) ;;
        match cp with
        | (None, _) => ret (-1)
        | (Some current, previous) =>
            (if decide (current = t) then
               put_q list (fun l => Ptrs (head l) previous) ;;;
               t' <- nonnull previous ;;
               put_proc t' (fun r => r <| next := None |>)
             else
               q <- nonnull previous ;;
               r <- get_proc current ;;
               put_proc q (fun r' => r' <| next := next r |>)) ;;;
            put_proc p (fun r => r <| next := None |>) ;;;
            ret 0
        end
  | _, _, _ => ret (-1)
  end.

Definition assertState (p : nat) (st : procstate) : M K unit :=
  r <- get_proc p ;;
  if decide (state r = st) then ret tt
  else panic "process state not same as asserted state.".

(** ** Representation *)

(** [seg ps a l b]: following [next] from [a] visits the processes [l] and
    arrives at [b]. *)
Fixpoint seg (ps : list proc) (a : option nat) (l : list nat) (b : option nat) : Prop :=
  match l with
  | [] => a = b
  | i :: l => a = Some i /\ exists r, ps !! i = Some r /\ seg ps (next r) l b
  end.

Definition is_queue (ps : list proc) (q : ptrs) (l : list nat) : Prop :=
  seg ps (head q) l None /\ tail q = last l.

Definition valid_q (q : qref) : Prop :=
  match q with QList i => (i < statecount)%nat | QReady j => (j < S MAXPRIO)%nat end.
#[export] Instance valid_q_dec q : Decision (valid_q q).
Proof. destruct q; apply _. Defined.

(** All lists of the table are well formed, represent [Q], and share nothing. *)
Record lists_ok (s : K) (Q : qref -> list nat) : Prop := {
  lo_procs : length (procs s) = NPROC;
  lo_lists : length (lists s) = statecount;
  lo_ready : length (ready s) = S MAXPRIO;
  lo_rep q v : lookup_q s q = Some v -> is_queue (procs s) v (Q q);
  lo_nodup q : NoDup (Q q);
  lo_disj q1 q2 i : i ∈ Q q1 -> i ∈ Q q2 -> q1 = q2;
  lo_valid q i : i ∈ Q q -> valid_q q;
}.

(** Everything about a process but its link. *)
Definition unlinked (r : proc) : proc := r <| next := None |>.

(** [s'] differs from [s] in links and list heads only. *)
Definition links_only (s s' : K) : Prop :=
  unlinked <$> procs s' = unlinked <$> procs s /\
  s' = s <| procs := procs s' |> <| lists := lists s' |> <| ready := ready s' |>.

Definition upd_q (Q : qref -> list nat) (q : qref) (l : list nat) : qref -> list nat :=
  fun q' => if decide (q' = q) then l else Q q'.

Lemma upd_q_eq Q q l : upd_q Q q l q = l.
Proof. unfold upd_q. by rewrite decide_True. Qed.
Lemma upd_q_ne Q q q' l : q' <> q -> upd_q Q q l q' = Q q'.
Proof. intros. unfold upd_q. by rewrite decide_False. Qed.

Lemma links_only_refl s : links_only s s.
Proof. split; [done|]. by destruct s. Qed.
Lemma links_only_trans s1 s2 s3 :
  links_only s1 s2 -> links_only s2 s3 -> links_only s1 s3.
Proof.
  intros [H1 E1] [H2 E2]. split; [by rewrite H2|]. rewrite E2, E1. done.
Qed.

(** *** Segments *)

Lemma seg_app ps a l1 l2 b :
  seg ps a (l1 ++ l2) b <-> exists c, seg ps a l1 c /\ seg ps c l2 b.
Proof.
  revert a. induction l1 as [|i l1 IH]; intros a; simpl.
  - split; [eauto|]. by intros (c & -> & H).
  - split.
    + intros (-> & r & Hr & H). apply IH in H as (c & H1 & H2). eauto 6.
    + intros (c & (-> & r & Hr & H1) & H2). split; [done|]. exists r. split; [done|].
      apply IH. eauto.
Qed.

Lemma seg_lt ps a l b i : seg ps a l b -> i ∈ l -> (i < length ps)%nat.
Proof.
  revert a. induction l as [|j l IH]; intros a H Hi; [set_solver|].
  destruct H as (-> & r & Hr & H). apply elem_of_cons in Hi as [->|Hi]; [|by eapply IH].
  by eapply lookup_lt_Some.
Qed.

(** Changing a process outside of the segment, or not its link, is invisible. *)
Lemma seg_insert_notin ps a l b i r :
  i ∉ l -> seg ps a l b -> seg (<[i := r]> ps) a l b.
Proof.
  revert a. induction l as [|j l IH]; intros a Hi H; [done|].
  apply not_elem_of_cons in Hi as [Hne Hi]. destruct H as (-> & rj & Hj & H).
  split; [done|]. exists rj. rewrite list_lookup_insert_ne by done. eauto.
Qed.

Lemma seg_agree ps ps' a l b :
  (forall i, i ∈ l -> ps' !! i = ps !! i) -> seg ps a l b -> seg ps' a l b.
Proof.
  revert a. induction l as [|j l IH]; intros a Hag H; [done|].
  destruct H as (-> & r & Hr & H). split; [done|]. exists r. split.
  - rewrite Hag by set_solver. done.
  - apply IH; [|done]. intros i Hi. apply Hag. set_solver.
Qed.

(** The link of the last process decides where a segment leads. *)
Lemma seg_redirect ps a l i b c r :
  NoDup (l ++ [i]) -> ps !! i = Some r -> seg ps a (l ++ [i]) b ->
  seg (<[i := r <| next := c |>]> ps) a (l ++ [i]) c.
Proof.
  intros Hnd Hr H. apply NoDup_app in Hnd as (_ & Hd & _).
  apply seg_app in H as (d & H1 & H2). destruct H2 as (-> & r2 & Hr2 & _).
  apply seg_app. exists (Some i). split.
  - apply seg_insert_notin; [|done]. intros Hi. apply (Hd i Hi). set_solver.
  - split; [done|]. exists (r <| next := c |>). split; [|done].
    apply list_lookup_insert_eq. by eapply lookup_lt_Some.
Qed.

(** *** One list and the processes, the rest of the state fixed *)

Definition mk (s : K) (q : qref) (v : ptrs) (ps : list proc) : K :=
  insert_q q v (s <| procs := ps |>).

Lemma mk_self s q v : lookup_q s q = Some v -> mk s q v (procs s) = s.
Proof.
  intros H. destruct s, q; unfold mk, insert_q; simpl in *; f_equal; by apply list_insert_id.
Qed.

Lemma procs_mk s q v ps : procs (mk s q v ps) = ps.
Proof. by destruct q. Qed.

Lemma lookup_q_mk s q v ps : is_Some (lookup_q s q) -> lookup_q (mk s q v ps) q = Some v.
Proof.
  intros [x Hx]. destruct q; simpl in *; apply list_lookup_insert_eq; by eapply lookup_lt_Some.
Qed.

Lemma lookup_q_mk_ne s q q' v ps : q' <> q -> lookup_q (mk s q v ps) q' = lookup_q s q'.
Proof.
  intros Hne. destruct q, q'; simpl; try done; apply list_lookup_insert_ne; congruence.
Qed.

Lemma get_q_mk s q v ps : is_Some (lookup_q s q) -> get_q q (mk s q v ps) = Ret v (mk s q v ps).
Proof. intros H. unfold get_q. by rewrite lookup_q_mk. Qed.

Lemma put_q_mk s q v ps f :
  is_Some (lookup_q s q) -> put_q q f (mk s q v ps) = Ret tt (mk s q (f v) ps).
Proof.
  intros H. unfold put_q. rewrite lookup_q_mk by done. f_equal.
  destruct s, q; unfold mk, insert_q; simpl; f_equal; apply list_insert_insert_eq.
Qed.

Lemma get_proc_mk s q v ps p r : ps !! p = Some r -> get_proc p (mk s q v ps) = Ret r (mk s q v ps).
Proof. intros H. unfold get_proc. by rewrite procs_mk, H. Qed.

Lemma put_proc_mk s q v ps p r f :
  ps !! p = Some r -> put_proc p f (mk s q v ps) = Ret tt (mk s q v (<[p := f r]> ps)).
Proof. intros H. unfold put_proc. rewrite procs_mk, H. by destruct q. Qed.

Lemma unlinked_insert (ps : list proc) p r x :
  ps !! p = Some r -> unlinked <$> <[p := r <| next := x |>]> ps = unlinked <$> ps.
Proof.
  intros H. rewrite list_fmap_insert. apply list_insert_id.
  by rewrite list_lookup_fmap, H.
Qed.

Lemma links_only_mk s q v ps :
  unlinked <$> ps = unlinked <$> procs s -> links_only s (mk s q v ps).
Proof. intros H. split; [by rewrite procs_mk|]. by destruct s, q. Qed.

(** Establishing the representation after one list and the processes of that
    list (and processes in no list) were changed. *)
Lemma lists_ok_mk s Q q v ps l :
  lists_ok s Q -> valid_q q -> length ps = NPROC ->
  is_queue ps v l -> NoDup l ->
  (forall i q', q' <> q -> i ∈ Q q' -> ps !! i = procs s !! i /\ i ∉ l) ->
  lists_ok (mk s q v ps) (upd_q Q q l).
Proof.
  intros [H1 H2 H3 H4 H5 H6 H7] Hv Hlen Hq Hnd Hoth.
  assert (Hsome : is_Some (lookup_q s q)).
  { destruct q; simpl in *; apply lookup_lt_is_Some_2; lia. }
  split.
  - by rewrite procs_mk.
  - destruct q; simpl; by rewrite ?length_insert.
  - destruct q; simpl; by rewrite ?length_insert.
  - intros q' v'. rewrite procs_mk. destruct (decide (q' = q)) as [->|Hne].
    + rewrite lookup_q_mk by done. intros [= <-]. by rewrite upd_q_eq.
    + rewrite lookup_q_mk_ne, upd_q_ne by done. intros Hv'.
      destruct (H4 q' v' Hv') as [Hs Ht]. split; [|done].
      eapply seg_agree; [|done]. intros i Hi. by apply (Hoth i q').
  - intros q'. destruct (decide (q' = q)) as [->|Hne];
      [by rewrite upd_q_eq|by rewrite upd_q_ne].
  - intros q1 q2 i. destruct (decide (q1 = q)) as [->|N1], (decide (q2 = q)) as [->|N2];
      rewrite ?upd_q_eq, ?upd_q_ne by done; intros Hi1 Hi2; [done| | |by eapply H6].
    + by destruct (Hoth i q2 N2 Hi2).
    + by destruct (Hoth i q1 N1 Hi1).
  - intros q' i. destruct (decide (q' = q)) as [->|Hne]; [done|].
    rewrite upd_q_ne by done. apply H7.
Qed.

Lemma lists_ok_lookup s Q q :
  lists_ok s Q -> valid_q q -> exists v, lookup_q s q = Some v /\ is_queue (procs s) v (Q q).
Proof.
  intros H Hv. assert (Hsome : is_Some (lookup_q s q)).
  { destruct H. destruct q; simpl in *; apply lookup_lt_is_Some_2; lia. }
  destruct Hsome as [v Hs]. exists v. split; [done|]. by apply (lo_rep s Q H).
Qed.

Lemma lists_ok_lt s Q q i : lists_ok s Q -> i ∈ Q q -> (i < NPROC)%nat.
Proof.
  intros H Hi. destruct (lists_ok_lookup s Q q H (lo_valid s Q H q i Hi)) as (v & _ & Hs & _).
  rewrite <- (lo_procs s Q H). by eapply seg_lt.
Qed.

Lemma is_queue_nil ps v : is_queue ps v [] <-> v = Ptrs None None.
Proof. unfold is_queue. simpl. destruct v; simpl. naive_solver. Qed.

Lemma is_queue_head ps v i l : is_queue ps v (i :: l) -> head v = Some i.
Proof. by intros [[? _] _]. Qed.

(** ** Adding *)

Ltac sl_step := unfold bind; cbn [obind ret];
  repeat first
    [ rewrite get_q_mk by done | rewrite put_q_mk by done
    | erewrite get_proc_mk by eassumption | erewrite put_proc_mk by eassumption
    | progress cbn [obind head tail nonnull ret when] ].

Lemma stateListAdd_ok s Q q p :
  lists_ok s Q -> valid_q q -> (p < NPROC)%nat -> (forall q', p ∉ Q q') ->
  exists s', stateListAdd q p s = Ret tt s' /\
    lists_ok s' (upd_q Q q (Q q ++ [p])) /\ links_only s s'.
Proof.
  intros H Hv Hp Hni. destruct (lists_ok_lookup s Q q H Hv) as (v & Hl & Hq).
  assert (Hsome : is_Some (lookup_q s q)) by eauto.
  pose proof (lo_procs s Q H) as Hlen. pose proof (lo_nodup s Q H q) as Hnd.
  destruct (lookup_lt_is_Some_2 (procs s) p) as [rp Hrp]; [lia|].
  replace (stateListAdd q p s) with (stateListAdd q p (mk s q v (procs s)))
    by (by rewrite mk_self).
  unfold stateListAdd.
  destruct (Q q) as [|j l _] eqn:EQ using rev_ind.
  - apply is_queue_nil in Hq as ->. sl_step.
    eexists. split; [reflexivity|]. split; [|apply links_only_mk, unlinked_insert, Hrp].
    apply lists_ok_mk; [done|done|by rewrite length_insert| |by apply NoDup_singleton|].
    + split; [|done]. split; [done|]. exists (rp <| next := None |>).
      rewrite list_lookup_insert_eq by lia. done.
    + intros i q' Hne Hi. assert (i <> p) by (intros ->; by apply (Hni q')).
      rewrite list_lookup_insert_ne by done. split; [done|set_solver].
  - destruct Hq as [Hseg Htail]. rewrite last_snoc in Htail.
    assert (Hj : j ∈ Q q) by (rewrite EQ; set_solver).
    assert (Hjp : j <> p) by (intros ->; by apply (Hni q)).
    destruct (lookup_lt_is_Some_2 (procs s) j) as [rj Hrj].
    { rewrite Hlen. by eapply lists_ok_lt. }
    assert (Hh : exists h, head v = Some h).
    { destruct l; destruct Hseg as [-> _]; eauto. }
    destruct Hh as [h Hh], v as [vh vt]; simpl in Hh, Htail; subst vh vt.
    set (ps1 := <[j := rj <| next := Some p |>]> (procs s)).
    assert (Hj1 : ps1 !! j = Some (rj <| next := Some p |>))
      by (apply list_lookup_insert_eq; rewrite Hlen; by eapply lists_ok_lt).
    assert (Hp1 : ps1 !! p = Some rp) by (unfold ps1; by rewrite list_lookup_insert_ne).
    sl_step. fold ps1. sl_step.
    change (next (rj <| next := Some p |>)) with (Some p). sl_step.
    eexists. split; [reflexivity|]. split.
    + apply lists_ok_mk; [done|done| | | |].
      * unfold ps1. by rewrite !length_insert.
      * split; [|by rewrite last_snoc].
        apply seg_app. exists (Some p). split.
        -- apply seg_insert_notin; [intros Hin; apply (Hni q); by rewrite EQ|].
           by apply seg_redirect with (b := None).
        -- split; [done|]. exists (rp <| next := None |>). split; [|done].
           apply list_lookup_insert_eq. unfold ps1. rewrite length_insert. lia.
      * apply NoDup_app. split_and!; [done| |by apply NoDup_singleton].
        intros x Hx ->%list_elem_of_singleton. apply (Hni q). by rewrite EQ.
      * intros i q' Hne Hi. assert (i <> p) by (intros ->; by apply (Hni q')).
        assert (i <> j) by (intros ->; by apply Hne, (lo_disj s Q H q' q j)).
        unfold ps1. rewrite !list_lookup_insert_ne by done. split; [done|].
        intros Hin. apply Hne, (lo_disj s Q H q' q i); [done|]. rewrite EQ. set_solver.
    + apply links_only_mk. rewrite unlinked_insert by done. by apply unlinked_insert.
Qed.

(** ** Removing *)

Lemma find_loop_found p l1 l2 : forall fuel s a prev,
  seg (procs s) a (l1 ++ p :: l2) None -> p ∉ l1 -> (length l1 < fuel)%nat ->
  mwhile fuel (find_step p) (a, prev) s =
    Ret (Some p, match last l1 with Some x => Some x | None => prev end) s.
Proof.
  induction l1 as [|i l1 IH]; intros fuel s a prev Hseg Hni Hf;
    (destruct fuel as [|fuel]; [simpl in Hf; lia|]); destruct Hseg as (-> & r & Hr & Hseg).
  - simpl. unfold bind. simpl. by rewrite decide_True.
  - apply not_elem_of_cons in Hni as [Hne Hni]. simpl. unfold bind. simpl.
    rewrite decide_False by done. unfold get_proc. rewrite Hr. simpl.
    rewrite IH; [|done|done|simpl in Hf; lia]. destruct l1 as [|i' l1]; [done|].
    rewrite last_cons_cons. destruct (last (i' :: l1)) eqn:El; [done|].
    by apply last_None in El.
Qed.

Lemma find_loop_absent p l : forall fuel s a prev,
  seg (procs s) a l None -> p ∉ l -> (length l < fuel)%nat ->
  exists prev', mwhile fuel (find_step p) (a, prev) s = Ret (None, prev') s.
Proof.
  induction l as [|i l IH]; intros fuel s a prev Hseg Hni Hf;
    (destruct fuel as [|fuel]; [simpl in Hf; lia|]).
  - simpl in Hseg. subst a. simpl. eauto.
  - destruct Hseg as (-> & r & Hr & Hseg).
    apply not_elem_of_cons in Hni as [Hne Hni]. simpl. unfold bind. simpl.
    rewrite decide_False by done. unfold get_proc. rewrite Hr. simpl.
    apply IH; [done|done|simpl in Hf; lia].
Qed.

(** A duplicate-free list of processes is not longer than the table. *)
Lemma lists_ok_length s Q q : lists_ok s Q -> (length (Q q) <= NPROC)%nat.
Proof.
  intros H. rewrite <- (length_seq NPROC 0). apply submseteq_length, NoDup_submseteq.
  - apply (lo_nodup s Q H).
  - intros i Hi. apply elem_of_seq. pose proof (lists_ok_lt s Q q i H Hi). lia.
Qed.

Lemma stateListRemove_absent s Q q p :
  lists_ok s Q -> valid_q q -> p ∉ Q q -> stateListRemove q (Some p) s = Ret (-1) s.
Proof.
  intros H Hv Hni. destruct (lists_ok_lookup s Q q H Hv) as (v & Hl & Hseg & Htail).
  unfold stateListRemove, bind, get_q. rewrite Hl. cbn [obind].
  destruct (Q q) as [|h l] eqn:EQ; [by rewrite Hseg|].
  rewrite Htail. destruct (last (h :: l)) as [t|] eqn:Et; [|by apply last_None in Et].
  pose proof Hseg as [Hh _]. rewrite Hh.
  rewrite decide_False by set_solver.
  destruct (find_loop_absent p (h :: l) list_fuel s (Some h) None) as [prev' Hloop].
  - by rewrite <- Hh.
  - done.
  - pose proof (lists_ok_length s Q q H) as Hlen. rewrite EQ in Hlen. unfold list_fuel. lia.
  - by rewrite Hloop.
Qed.

(** Unlinking in the middle: the predecessor is redirected. *)
Lemma seg_unlink ps a l1 i p l2 b ri rp :
  NoDup (l1 ++ i :: p :: l2) -> ps !! i = Some ri -> ps !! p = Some rp ->
  seg ps a (l1 ++ i :: p :: l2) b ->
  seg (<[p := rp <| next := None |>]> (<[i := ri <| next := next rp |>]> ps)) a (l1 ++ i :: l2) b.
Proof.
  intros Hnd Hi Hp H.
  assert (Hlt : (i < length ps)%nat) by (by eapply lookup_lt_Some).
  change (i :: p :: l2) with ([i] ++ p :: l2) in H, Hnd. change (i :: l2) with ([i] ++ l2).
  rewrite app_assoc in H, Hnd. rewrite app_assoc.
  apply seg_app in H as (c & H1 & H2). destruct H2 as (-> & rp' & Hp' & H2). simplify_eq.
  apply NoDup_app in Hnd as (Hnd1 & Hdis & Hnd2). apply NoDup_cons in Hnd2 as [Hpl2 Hnd2].
  apply seg_app. exists (next rp). split.
  - apply seg_insert_notin; [intros Hin; apply (Hdis p Hin); set_solver|].
    by apply seg_redirect with (b := Some p).
  - apply seg_insert_notin; [done|]. apply seg_insert_notin; [|done].
    intros Hin. apply (Hdis i); set_solver.
Qed.

Lemma last_elem {A} (x : A) l : last l = Some x -> x ∈ l.
Proof. intros [l' ->]%last_Some. set_solver. Qed.

Lemma mk_remove s q v p :
  lookup_q s q = Some v ->
  stateListRemove q (Some p) s = stateListRemove q (Some p) (mk s q v (procs s)).
Proof. intros H. by rewrite mk_self. Qed.

Lemma stateListRemove_head s Q q p l :
  lists_ok s Q -> Q q = p :: l ->
  exists s', stateListRemove q (Some p) s = Ret 0 s' /\
    lists_ok s' (upd_q Q q l) /\ links_only s s'.
Proof.
  intros H EQ. assert (Hv : valid_q q) by (apply (lo_valid s Q H q p); rewrite EQ; set_solver).
  destruct (lists_ok_lookup s Q q H Hv) as ([vh vt] & Hl & Hseg & Htail).
  assert (Hsome : is_Some (lookup_q s q)) by eauto.
  pose proof (lo_nodup s Q H q) as Hnd. rewrite EQ in *. simpl in Htail.
  apply NoDup_cons in Hnd as [Hp Hnd]. destruct Hseg as (Hvh & rp & Hrp & Hseg).
  simpl in Hvh. subst vh vt. rewrite (mk_remove _ _ _ _ Hl). unfold stateListRemove. sl_step.
  destruct (last (p :: l)) as [t|] eqn:Et; [|by apply last_None in Et].
  rewrite decide_True by done. sl_step.
  assert (Hoth : forall i q', q' <> q -> i ∈ Q q' -> procs s !! i = procs s !! i /\ i ∉ l).
  { intros i q' Hne Hi. split; [done|]. intros Hx.
    apply Hne, (lo_disj s Q H q' q i); [done|]. rewrite EQ. set_solver. }
  destruct l as [|i l].
  - simpl in Et. injection Et as <-. rewrite bool_decide_eq_true_2 by done. sl_step.
    eexists. split; [reflexivity|]. split; [|by apply links_only_mk].
    apply lists_ok_mk; [done|done|apply H| |constructor|done]. by split.
  - rewrite last_cons_cons in Et.
    assert (t <> p) by (intros ->; by apply Hp, last_elem).
    rewrite bool_decide_eq_false_2 by done. sl_step.
    eexists. split; [reflexivity|]. split; [|by apply links_only_mk].
    apply lists_ok_mk; [done|done|apply H| |done|done]. by split.
Qed.

(** The two pointer updates of the branches for a process that is not first. *)
Lemma stateListRemove_mid s Q q l1 i p l2 :
  lists_ok s Q -> Q q = l1 ++ i :: p :: l2 ->
  exists s', stateListRemove q (Some p) s = Ret 0 s' /\
    lists_ok s' (upd_q Q q (l1 ++ i :: l2)) /\ links_only s s'.
Proof.
  intros H EQ. assert (Hv : valid_q q) by (apply (lo_valid s Q H q p); rewrite EQ; set_solver).
  destruct (lists_ok_lookup s Q q H Hv) as ([vh vt] & Hl & Hseg & Htail).
  assert (Hsome : is_Some (lookup_q s q)) by eauto.
  pose proof (lists_ok_length s Q q H) as Hfuel. pose proof (lo_nodup s Q H q) as Hnd.
  assert (Hlk : forall x, x ∈ Q q -> is_Some (procs s !! x)).
  { intros x Hx. apply lookup_lt_is_Some_2. rewrite (lo_procs s Q H). by eapply lists_ok_lt. }
  destruct (Hlk i) as [ri Hri]; [rewrite EQ; set_solver|].
  destruct (Hlk p) as [rp Hrp]; [rewrite EQ; set_solver|].
  assert (Hoth : forall j q', q' <> q -> j ∈ Q q' -> j ∉ l1 ++ i :: p :: l2).
  { intros j q' Hne Hj Hx. apply Hne, (lo_disj s Q H q' q j); [done|]. by rewrite EQ. }
  rewrite EQ in *. simpl in Htail. subst vt. cbn [head] in Hseg.
  pose proof Hnd as Hnd'. change (i :: p :: l2) with ([i] ++ p :: l2) in Hnd'.
  rewrite app_assoc in Hnd'. apply NoDup_app in Hnd' as (Hnd1 & Hdis & Hnd2).
  apply NoDup_cons in Hnd2 as [Hp2 Hnd2].
  assert (Hp1 : p ∉ l1 ++ [i]) by (intros Hx; apply (Hdis p Hx); set_solver).
  assert (Hnd3 : NoDup (l1 ++ i :: l2)).
  { change (i :: l2) with ([i] ++ l2). rewrite app_assoc. apply NoDup_app.
    split_and!; [done| |done]. intros x Hx Hx2. apply (Hdis x Hx). set_solver. }
  assert (Hip : i <> p) by set_solver.
  assert (Hh : exists h, vh = Some h /\ h <> p).
  { destruct l1 as [|h0 l0]; destruct Hseg as [-> _]; eexists; (split; [done|set_solver]). }
  destruct Hh as (h & -> & Hh). rewrite (mk_remove _ _ _ _ Hl). unfold stateListRemove. sl_step.
  rewrite last_app_cons, last_cons_cons.
  destruct (last (p :: l2)) as [t|] eqn:Et; [|by apply last_None in Et].
  rewrite decide_False by done.
  rewrite (find_loop_found p (l1 ++ [i]) l2); [|by rewrite procs_mk, <- app_assoc|done|].
  2: { rewrite !length_app in *. cbn [length] in *. unfold list_fuel. lia. }
  rewrite last_snoc. cbn [obind].
  set (ps := <[p := rp <| next := None |>]> (<[i := ri <| next := next rp |>]> (procs s))).
  assert (Hpi : forall x, <[i := ri <| next := x |>]> (procs s) !! p = Some rp)
    by (intros x; by rewrite list_lookup_insert_ne).
  assert (Hend : exists v, is_queue ps v (l1 ++ i :: l2) /\
    (if decide (p = t) then next rp = None /\ v = Ptrs (Some h) (Some i)
     else v = Ptrs (Some h) (Some t))).
  { assert (Hsg := seg_unlink _ _ _ _ _ _ _ _ _ Hnd Hri Hrp Hseg). fold ps in Hsg. simpl in Hsg.
    case_decide as Hpt.
    - subst t. assert (l2 = []) as ->.
      { destruct l2 as [|j l2]; [done|]. rewrite last_cons_cons in Et. by apply last_elem in Et. }
      exists (Ptrs (Some h) (Some i)). split_and!; [| |done].
      + split; [done|]. by rewrite last_snoc.
      + apply seg_app in Hseg as (c & _ & (-> & r1 & _ & (_ & r2 & Hr2 & Hn))). by simplify_eq.
    - eexists. split; [|reflexivity]. split; [done|]. simpl. rewrite last_app_cons.
      destruct l2 as [|j l2]; [simpl in Et; congruence|]. by rewrite last_cons_cons in *. }
  destruct Hend as (v & Hq & Hv').
  exists (mk s q v ps). split; [|split].
  - case_decide as Hpt.
    + destruct Hv' as [Hnx ->]. sl_step. erewrite put_proc_mk by apply Hpi. sl_step.
      unfold ps. by rewrite Hnx.
    + subst v. sl_step. erewrite put_proc_mk by apply Hpi. sl_step. done.
  - apply lists_ok_mk; [done|done| |done|done|].
    + unfold ps. rewrite !length_insert. apply H.
    + intros j q' Hne Hj. assert (Hjq := Hoth j q' Hne Hj). unfold ps.
      rewrite !list_lookup_insert_ne by set_solver. split; [done|set_solver].
  - apply links_only_mk. unfold ps. rewrite unlinked_insert by apply Hpi. by apply unlinked_insert.
Qed.

Lemma stateListRemove_ok s Q q p :
  lists_ok s Q -> p ∈ Q q ->
  exists s', stateListRemove q (Some p) s = Ret 0 s' /\
    lists_ok s' (upd_q Q q (list_remove_all p (Q q))) /\ links_only s s'.
Proof.
  intros H Hin. pose proof (lo_nodup s Q H q) as Hnd.
  pose proof Hin as Hs. apply list_elem_of_split in Hs as (l1 & l2 & EQ).
  rewrite EQ in Hnd |- *. apply NoDup_app in Hnd as (_ & Hdis & Hnd2).
  apply NoDup_cons in Hnd2 as [Hp2 _].
  assert (Hp1 : p ∉ l1) by (intros Hx; apply (Hdis p Hx); set_solver).
  rewrite list_remove_all_middle by done.
  destruct l1 as [|i l1 _] using rev_ind; [by apply stateListRemove_head|].
  rewrite <- app_assoc in *. by apply stateListRemove_mid.
Qed.

End ops.
