(* ===== verification/Proc.v ===== *)
(** * Processes and the MLFQ scheduler (proc.c, configuration CS333_P4)

    The routines of proc.c as state-passing computations, every call that
    changes state included.  [ptable.lock] is taken and released through the
    [CpuLock] interface, the other kernel parts are called through
    [ProcServices].  A call of [swtch] is the outcome [Swtch]: the routine up
    to the call, and the rest of it as a function of the state at resumption. *)

From S2P Require Import Prelude Params Spinlock Str ProcDefs StateList.

Section proc.
Context {L E : Type} `{CL : CpuLock L} `{SV : ProcServices E}.
Abbreviation K := (kst L E).

Definition acquire_ptable : M K unit := on_cpu lk_acquire_pt.
Definition release_ptable : M K unit := on_cpu lk_release_pt.
Definition myproc : M K (option nat) := on_cpu lk_myproc.

(** [&ptable.list[p->state]] and [&ptable.ready[p->priority]] *)
Definition list_of_state (p : nat) : M K qref :=
  r <- get_proc p ;; ret (QList (state_num (state r))).
Definition ready_of_prio (p : nat) : M K qref :=
  r <- get_proc p ;; ret (QReady (Z.to_nat (priority r))).

(** [if(stateListRemove(q, p) == -1) panic(msg)] *)
Definition remove_or_panic (msg : string) (q : qref) (p : nat) : M K unit :=
  r <- stateListRemove q (Some p) ;;
  if r =? -1 then panic msg else ret tt.

(** The idiom with which a process leaves the list of its state:
    [if(stateListRemove(&ptable.list[p->state], p) == -1) panic(msg);
     assertState(p, st);] *)
Definition leave_state (msg : string) (p : nat) (st : procstate) : M K unit :=
  q <- list_of_state p ;;
  remove_or_panic msg q p ;;;
  assertState p st.

(** [p->state = st; stateListAdd(&ptable.list[p->state], p);] *)
Definition enter_state (p : nat) (st : procstate) : M K unit :=
  put_proc p (fun r => r <| state := st |>) ;;;
  q <- list_of_state p ;;
  stateListAdd q p.

(** [p->state = RUNNABLE; stateListAdd(&ptable.ready[p->priority], p);] *)
Definition enter_ready (p : nat) : M K unit :=
  put_proc p (fun r => r <| state := RUNNABLE |>) ;;;
  q <- ready_of_prio p ;;
  stateListAdd q p.

(** ** Allocation *)

(** [p = ptable.list[UNUSED].head], read without the lock. *)
Definition allocproc_pick : M K (option nat) :=
  l <- get_q (QList (state_num UNUSED)) ;; ret (head l).

(** The first critical section of [allocproc]. *)
Definition allocproc_claim (p : nat) : M K unit :=
  acquire_ptable ;;;
  leave_state "Empty list or process not in list" p UNUSED ;;;
  put_proc p (fun r => r <| state := EMBRYO |>) ;;;
  n <- gets nextpid ;;
  put_proc p (fun r => r <| pid := n |>) ;;;
  modify (fun s => s <| nextpid := u32 (n + 1) |>) ;;;
  q <- list_of_state p ;;
  stateListAdd q p ;;;
  release_ptable.

(** The critical section that gives an embryo back. *)
Definition embryo_to_unused (msg : string) (p : nat) : M K unit :=
  acquire_ptable ;;;
  leave_state msg p EMBRYO ;;;
  enter_state p UNUSED ;;;
  release_ptable.

(** The kernel stack and the scheduling fields.  [start_ticks] is not set: the
    assignment is under [#ifdef CS333_p1], a macro nothing defines. *)
Definition allocproc_init (p : nat) (ks : Z) : M K unit :=
  let sp := u32 (ks + KSTACKSIZE) in
  let sp := u32 (sp - sizeof_trapframe) in
  put_proc p (fun r => r <| tf_at := sp |>) ;;;
  let sp := u32 (sp - 4) in
  put_proc p (fun r => r <| retslot := trapret_addr |>) ;;;
  let sp := u32 (sp - sizeof_context) in
  put_proc p (fun r => r <| context_at := sp |>
                         <| context_of := zero_context <| c_eip := forkret_addr |> |>) ;;;
  put_proc p (fun r => r <| cpu_ticks_total := 0 |> <| cpu_ticks_in := 0 |>) ;;;
  put_proc p (fun r => r <| budget := BUDGET |> <| priority := Z.of_nat MAXPRIO |>).

Definition allocproc : M K (option nat) :=
  op <- allocproc_pick ;;
  match op with
  | None => ret None
  | Some p =>
      allocproc_claim p ;;;
      k <- on_env sv_kalloc ;;
      put_proc p (fun r => r <| kstack := k |>) ;;;
      match k with
      | None =>
          embryo_to_unused "Empty list or process not in list" p ;;;
          ret None
      | Some ks => allocproc_init p ks ;;; ret (Some p)
      end
  end.

(** ** The first process *)

Definition null_list : ptrs := Ptrs None None.

Definition initProcessLists : M K unit :=
  meach (seq 0 statecount) (fun i => put_q (QList i) (fun _ => null_list)) ;;;
  meach (seq 0 (S MAXPRIO)) (fun j => put_q (QReady j) (fun _ => null_list)).

Definition initFreeList : M K unit :=
  meach (seq 0 NPROC) (fun p =>
    put_proc p (fun r => r <| state := UNUSED |>) ;;;
    stateListAdd (QList (state_num UNUSED)) p).

(** Copy a string into [p->name]. *)
Definition set_name (p : nat) (src : list Z) : M K unit :=
  r <- get_proc p ;;
  match safestrcpy (name r) src 16 with
  | Some nm => put_proc p (fun r => r <| name := nm |>)
  | None => fault
  end.

Definition initcode_name : list Z := [105; 110; 105; 116; 99; 111; 100; 101; 0]. (* "initcode" *)
Definition root_path : list Z := [47; 0]. (* "/" *)

(** [p->tf] of the first process. *)
Definition user_tf : trapframe :=
  let cs := Z.lor (Z.shiftl SEG_UCODE 3) DPL_USER in
  let ds := Z.lor (Z.shiftl SEG_UDATA 3) DPL_USER in
  zero_tf <| tf_cs := cs |> <| tf_ds := ds |> <| tf_es := ds |> <| tf_ss := ds |>
    <| tf_eflags := FL_IF |> <| tf_esp := PGSIZE |> <| tf_eip := 0 |>.

Definition userinit : M K unit :=
  acquire_ptable ;;;
  initProcessLists ;;;
  initFreeList ;;;
  release_ptable ;;;
  op <- allocproc ;;
  modify (fun s => s <| initproc := op |>) ;;;
  d <- on_env sv_setupkvm ;;
  p <- nonnull op ;;
  put_proc p (fun r => r <| pgdir := d |>) ;;;
  match d with
  | None => panic "userinit: out of memory?"
  | Some pd =>
      on_env (sv_inituvm pd) ;;;
      put_proc p (fun r => r <| sz := PGSIZE |> <| tf := user_tf |>) ;;;
      set_name p initcode_name ;;;
      w <- on_env (sv_namei root_path) ;;
      put_proc p (fun r => r <| cwd := w |>) ;;;
      acquire_ptable ;;;
      leave_state "Empty list or process not in list" p EMBRYO ;;;
      put_proc p (fun r => r <| state := RUNNABLE |> <| uid := DEFAULT_UID |> <| gid := DEFAULT_GID |>) ;;;
      modify (fun s => s <| PromoteAtTime := u32 (ticks s + TICKS_TO_PROMOTE) |>) ;;;
      q <- ready_of_prio p ;;
      stateListAdd q p ;;;
      release_ptable
  end.

Definition growproc (n : Z) : M K Z :=
  cur <- myproc ;;
  c <- nonnull cur ;;
  r <- get_proc c ;;
  let sz0 := sz r in
  o <- (if 0 <? n then
          z <- on_env (sv_allocuvm (pgdir r) sz0 (u32 (sz0 + n))) ;;
          ret (if z =? 0 then None else Some z)
        else if n <? 0 then
          z <- on_env (sv_deallocuvm (pgdir r) sz0 (u32 (sz0 + n))) ;;
          ret (if z =? 0 then None else Some z)
        else ret (Some sz0)) ;;
  match o with
  | None => ret (-1)
  | Some z =>
      put_proc c (fun r => r <| sz := z |>) ;;;
      r <- get_proc c ;;
      on_env (sv_switchuvm (kstack r) (pgdir r)) ;;;
      ret 0
  end.

(** ** fork *)

(** [if(curproc->ofile[i]) np->ofile[i] = filedup(curproc->ofile[i])] *)
Definition fork_dup_files (c np : nat) : M K unit :=
  meach (seq 0 NOFILE) (fun i =>
    rc <- get_proc c ;;
    match ofile rc !! i with
    | Some (Some f) =>
        f' <- on_env (sv_filedup f) ;;
        put_proc np (fun r => r <| ofile ::= <[i := Some f']> |>)
    | Some None => ret tt
    | None => fault
    end).

(** The last critical section of [fork]. *)
Definition fork_ready (np : nat) : M K unit :=
  acquire_ptable ;;;
  leave_state "Empty list or process not in list" np EMBRYO ;;;
  put_proc np (fun r => r <| state := RUNNABLE |>) ;;;
  stateListAdd (QReady MAXPRIO) np ;;;
  release_ptable.

Definition fork : M K Z :=
  cur <- myproc ;;
  c <- nonnull cur ;;
  onp <- allocproc ;;
  match onp with
  | None => ret (-1)
  | Some np =>
      rc <- get_proc c ;;
      d <- on_env (sv_copyuvm (pgdir rc) (sz rc)) ;;
      put_proc np (fun r => r <| pgdir := d |>) ;;;
      match d with
      | None =>
          rn <- get_proc np ;;
          on_env (sv_kfree (default 0 (kstack rn))) ;;;
          put_proc np (fun r => r <| kstack := None |>) ;;;
          embryo_to_unused "Empty List or process not in list" np ;;;
          ret (-1)
      | Some _ =>
          put_proc np (fun r => r <| uid := uid rc |> <| gid := gid rc |>) ;;;
          put_proc np (fun r => r <| sz := sz rc |> <| parent := Some c |>
                                  <| tf := (tf rc) <| tf_eax := 0 |> |>) ;;;
          fork_dup_files c np ;;;
          rc <- get_proc c ;;
          match cwd rc with
          | None => fault
          | Some w =>
              w' <- on_env (sv_idup w) ;;
              put_proc np (fun r => r <| cwd := Some w' |>) ;;;
              set_name np (name rc) ;;;
              rn <- get_proc np ;;
              fork_ready np ;;;
              ret (s32 (pid rn))
          end
      end
  end.

(** ** Sleeping and waking *)

(** [while(p) { temp = p->next; body(p); p = temp; }] *)
Definition walk_step (body : nat -> M K unit) (p : option nat) : M K (option nat + unit) :=
  match p with
  | None => ret (inr tt)
  | Some i =>
      r <- get_proc i ;;
      body i ;;;
      ret (inl (next r))
  end.
Definition walk (body : nat -> M K unit) (p : option nat) : M K unit :=
  mwhile list_fuel (walk_step body) p.

(** [while(p) { body(p); p = p->next; }] *)
Definition walk_post_step (body : nat -> M K unit) (p : option nat) : M K (option nat + unit) :=
  match p with
  | None => ret (inr tt)
  | Some i =>
      body i ;;;
      r <- get_proc i ;;
      ret (inl (next r))
  end.
Definition walk_post (body : nat -> M K unit) (p : option nat) : M K unit :=
  mwhile list_fuel (walk_post_step body) p.

Definition wakeup1 (ch : chan) : M K unit :=
  l <- get_q (QList (state_num SLEEPING)) ;;
  walk (fun p =>
    r <- get_proc p ;;
    when (bool_decide (chan_of_proc r = ch))
      (leave_state "Empty list or process not in list" p SLEEPING ;;;
       enter_ready p)) (head l).

Definition wakeup (ch : chan) : M K unit :=
  acquire_ptable ;;;
  wakeup1 ch ;;;
  release_ptable.

(** The checks of [sched], then the switch to the scheduler's context. *)
Definition sched : M K unit :=
  cur <- myproc ;;
  h <- on_cpu lk_holding_pt ;;
  if negb h then panic "sched ptable.lock" else
  n <- on_cpu lk_ncli ;;
  if negb (n =? 1) then panic "sched locks" else
  p <- nonnull cur ;;
  r <- get_proc p ;;
  if decide (state r = RUNNING) then panic "sched running" else
  e <- on_cpu lk_eflags ;;
  if negb (Z.land e FL_IF =? 0) then panic "sched interruptible" else
  ie <- on_cpu lk_intena ;;
  t <- gets ticks ;;
  put_proc p (fun r => r <| cpu_ticks_total := u32 (cpu_ticks_total r + u32 (t - cpu_ticks_in r)) |>) ;;;
  swtch ;;;
  on_cpu (lk_set_intena ie).

(** [budget -= ticks - cpu_ticks_in], demotion when it is spent.  The unsigned
    difference is subtracted from the signed budget. *)
Definition charge (t : Z) (r : proc) : proc :=
  let b := s32 (budget r - u32 (t - cpu_ticks_in r)) in
  if b <=? 0 then
    (if 0 <? priority r then r <| priority ::= fun x => x - 1 |> else r) <| budget := BUDGET |>
  else r <| budget := b |>.

Definition yield : M K unit :=
  cur <- myproc ;;
  acquire_ptable ;;;
  p <- nonnull cur ;;
  t <- gets ticks ;;
  put_proc p (charge t) ;;;
  leave_state "Empty List or process not in list" p RUNNING ;;;
  enter_ready p ;;;
  sched ;;;
  release_ptable.

(** The lock argument of [sleep]: null, [&ptable.lock], or another lock. *)
Inductive lkref := LkNull | LkPtable | LkOwn.

Definition sleep (ch : chan) (lk : lkref) : M K unit :=
  cur <- myproc ;;
  match cur with
  | None => panic "sleep"
  | Some p =>
      match lk with
      | LkPtable => ret tt
      | LkNull => acquire_ptable
      | LkOwn => acquire_ptable ;;; on_cpu lk_release_own
      end ;;;
      leave_state "Empty list or process not in list" p RUNNING ;;;
      put_proc p (fun r => r <| chan_of_proc := ch |>) ;;;
      enter_state p SLEEPING ;;;
      t <- gets ticks ;;
      put_proc p (charge t) ;;;
      sched ;;;
      put_proc p (fun r => r <| chan_of_proc := ChNull |>) ;;;
      match lk with
      | LkPtable => ret tt
      | LkNull => release_ptable
      | LkOwn => release_ptable ;;; on_cpu lk_acquire_own
      end
  end.

(** ** exit and wait *)

(** [for(i = 1; i < statecount; ++i)], and [for(j = MAXPRIO; j >= 0; --j)] *)
Definition live_states : list nat := seq 1 (statecount - 1).
Definition prios_down : list nat := rev (seq 0 (S MAXPRIO)).

(** [if(ptable.list[RUNNABLE].head) panic(msg)] *)
Definition check_runnable_empty (msg : string) : M K unit :=
  l <- get_q (QList (state_num RUNNABLE)) ;;
  match head l with Some _ => panic msg | None => ret tt end.

(** Pass abandoned children to init. *)
Definition exit_reparent (c : nat) : M K unit :=
  meach live_states (fun i =>
    if decide (i = state_num RUNNABLE) then
      check_runnable_empty "The Runnable list should be empty" ;;;
      meach prios_down (fun j =>
        l <- get_q (QReady j) ;;
        walk_post (fun p =>
          r <- get_proc p ;;
          init <- gets initproc ;;
          when (bool_decide (parent r = Some c))
            (put_proc p (fun r => r <| parent := init |>))) (head l))
    else
      l <- get_q (QList i) ;;
      walk_post (fun p =>
        r <- get_proc p ;;
        init <- gets initproc ;;
        when (bool_decide (parent r = Some c))
          (put_proc p (fun r => r <| parent := init |>) ;;;
           r <- get_proc p ;;
           when (bool_decide (state r = ZOMBIE)) (wakeup1 (chan_of init)))) (head l)).

(** The files and the current directory, closed before the lock is taken. *)
Definition exit_files (c : nat) : M K unit :=
  meach (seq 0 NOFILE) (fun fd =>
    r <- get_proc c ;;
    match ofile r !! fd with
    | Some (Some f) =>
        on_env (sv_fileclose f) ;;;
        put_proc c (fun r => r <| ofile ::= <[fd := None]> |>)
    | Some None => ret tt
    | None => fault
    end) ;;;
  on_env sv_begin_op ;;;
  r <- get_proc c ;;
  on_env (sv_iput (cwd r)) ;;;
  on_env sv_end_op ;;;
  put_proc c (fun r => r <| cwd := None |>).

(** From [acquire] on; [sched] does not return. *)
Definition exit_zombie (c : nat) : M K unit :=
  acquire_ptable ;;;
  r <- get_proc c ;;
  wakeup1 (chan_of (parent r)) ;;;
  exit_reparent c ;;;
  leave_state "Empty list or process not in list" c RUNNING ;;;
  enter_state c ZOMBIE ;;;
  sched ;;;
  panic "zombie exit".

Definition exit : M K unit :=
  cur <- myproc ;;
  init <- gets initproc ;;
  if decide (cur = init) then panic "init exiting"
  else
    c <- nonnull cur ;;
    exit_files c ;;;
    exit_zombie c.

(** [while(p && !P(p)) p = p->next] *)
Definition find_in_step (P : proc -> bool) (p : option nat)
  : M K (option nat + option nat) :=
  match p with
  | None => ret (inr None)
  | Some i =>
      r <- get_proc i ;;
      if P r then ret (inr (Some i)) else ret (inl (next r))
  end.
Definition find_in (P : proc -> bool) (p : option nat) : M K (option nat) :=
  mwhile list_fuel (find_in_step P) p.

Definition child_of (c : nat) (r : proc) : bool := bool_decide (parent r = Some c).

(** Found one: free the zombie and return its pid. *)
Definition wait_reap (p : nat) : M K Z :=
  r <- get_proc p ;;
  on_env (sv_kfree (default 0 (kstack r))) ;;;
  put_proc p (fun r => r <| kstack := None |>) ;;;
  r' <- get_proc p ;;
  on_env (sv_freevm (pgdir r')) ;;;
  put_proc p (fun r => r <| pid := 0 |> <| parent := None |>
                         <| name ::= <[0%nat := 0]> |> <| killed := 0 |>) ;;;
  leave_state "Empty List or process not in list" p ZOMBIE ;;;
  enter_state p UNUSED ;;;
  release_ptable ;;;
  ret (s32 (pid r)).

(** One pass over the lists: the pid of a reaped child, or [havekids]. *)
Definition wait_scan (c : nat) : M K (bool + Z) :=
  mfold live_states (fun havekids i =>
    if decide (i = state_num RUNNABLE) then
      check_runnable_empty "The Runnable list should be empty" ;;;
      mfold prios_down (fun havekids j =>
        l <- get_q (QReady j) ;;
        o <- find_in (child_of c) (head l) ;;
        ret (inl (if o is Some _ then true else havekids))) havekids
    else
      l <- get_q (QList i) ;;
      o <- find_in (child_of c) (head l) ;;
      match o with
      | None => ret (inl havekids)
      | Some p =>
          r <- get_proc p ;;
          if decide (state r = ZOMBIE) then z <- wait_reap p ;; ret (inr z)
          else ret (inl true)
      end) false.

(** One round of the loop of [wait]: a result, or a round of sleep. *)
Definition wait_round (c : nat) (_ : unit) : M K (unit + Z) :=
  x <- wait_scan c ;;
  match x with
  | inr z => ret (inr z)
  | inl havekids =>
      r <- get_proc c ;;
      if negb havekids || negb (killed r =? 0) then
        release_ptable ;;; ret (inr (-1))
      else
        sleep (ChProc c) LkPtable ;;; ret (inl tt)
  end.

(** [fuel] bounds the number of rounds. *)
Definition wait (fuel : nat) : M K Z :=
  cur <- myproc ;;
  c <- nonnull cur ;;
  acquire_ptable ;;;
  mwhile fuel (wait_round c) tt.

(** ** The scheduler *)

(** PromotionAll: budgets are refilled and priorities raised by one. *)
Definition promote_ready (j : nat) : M K unit :=
  l <- get_q (QReady j) ;;
  walk (fun p =>
    put_proc p (fun r => r <| budget := BUDGET |>) ;;;
    r <- get_proc p ;;
    when (priority r <? Z.of_nat MAXPRIO)
      (remove_or_panic "Empty List or process is not in list" (QReady (Z.to_nat (priority r))) p ;;;
       assertState p RUNNABLE ;;;
       r <- get_proc p ;;
       (if negb (priority r =? Z.of_nat j) then panic "p->priority not same as in ready list"
        else ret tt) ;;;
       stateListAdd (QReady (Z.to_nat (priority r + 1))) p ;;;
       put_proc p (fun r => r <| priority ::= Z.add 1 |>))) (head l).

Definition promote_list (i : nat) : M K unit :=
  l <- get_q (QList i) ;;
  walk_post (fun p =>
    put_proc p (fun r => r <| budget := BUDGET |>) ;;;
    r <- get_proc p ;;
    when (priority r <? Z.of_nat MAXPRIO)
      (put_proc p (fun r => r <| priority ::= Z.add 1 |>))) (head l).

Definition promote_all : M K unit :=
  meach [state_num SLEEPING; state_num RUNNABLE; state_num RUNNING] (fun i =>
    if decide (i = state_num RUNNABLE) then
      check_runnable_empty "Runnable list should be empty" ;;;
      meach (rev (seq 0 MAXPRIO)) promote_ready
    else promote_list i) ;;;
  modify (fun s => s <| PromoteAtTime := u32 (ticks s + TICKS_TO_PROMOTE) |>).

(** Run process [p], taken from ready queue [i], until it switches back. *)
Definition run_proc (i p : nat) : M K unit :=
  on_cpu (lk_setproc (Some p)) ;;;
  r <- get_proc p ;;
  on_env (sv_switchuvm (kstack r) (pgdir r)) ;;;
  remove_or_panic "Empty List or process is not in list" (QReady i) p ;;;
  assertState p RUNNABLE ;;;
  enter_state p RUNNING ;;;
  t <- gets ticks ;;
  put_proc p (fun r => r <| cpu_ticks_in := t |>) ;;;
  swtch ;;;
  on_env sv_switchkvm ;;;
  on_cpu (lk_setproc None).

(** One iteration of the loop of [scheduler]; the result is [idle]. *)
Definition scheduler_round : M K bool :=
  acquire_ptable ;;;
  t <- gets ticks ;;
  pt <- gets PromoteAtTime ;;
  when (pt <=? t) promote_all ;;;
  x <- mfor prios_down (fun i =>
    l <- get_q (QReady i) ;;
    match head l with
    | Some p => run_proc i p ;;; ret (Some tt)
    | None => ret None
    end) ;;
  release_ptable ;;;
  ret (if x is Some _ then false else true).

(** ** kill, setpriority, getpriority *)

Definition has_pid (n : Z) (r : proc) : bool := pid r =? u32 n.

Definition kill (n : Z) : M K Z :=
  acquire_ptable ;;;
  x <- mfor live_states (fun i =>
    if decide (i = state_num RUNNABLE) then
      check_runnable_empty "Runnable list should be empty" ;;;
      mfor prios_down (fun j =>
        l <- get_q (QReady j) ;;
        o <- find_in (has_pid n) (head l) ;;
        match o with
        | None => ret None
        | Some p =>
            put_proc p (fun r => r <| killed := 1 |>) ;;;
            release_ptable ;;;
            ret (Some 0)
        end)
    else
      l <- get_q (QList i) ;;
      o <- find_in (has_pid n) (head l) ;;
      match o with
      | None => ret None
      | Some p =>
          put_proc p (fun r => r <| killed := 1 |>) ;;;
          r <- get_proc p ;;
          when (bool_decide (state r = SLEEPING))
            (leave_state "Empty list or process not in list" p SLEEPING ;;;
             enter_ready p) ;;;
          release_ptable ;;;
          ret (Some 0)
      end) ;;
  match x with
  | Some z => ret z
  | None => release_ptable ;;; ret (-1)
  end.

Definition setpriority (n prio : Z) : M K Z :=
  acquire_ptable ;;;
  if (n <? 0) || (32767 <? n) then release_ptable ;;; ret RETURN_FAILURE else
  if (prio <? 0) || (Z.of_nat MAXPRIO <? prio) then release_ptable ;;; ret RETURN_FAILURE else
  x <- mfor [state_num SLEEPING; state_num RUNNABLE; state_num RUNNING] (fun i =>
    if decide (i = state_num RUNNABLE) then
      check_runnable_empty "Runnable list should be empty" ;;;
      mfor prios_down (fun j =>
        l <- get_q (QReady j) ;;
        o <- find_in (has_pid n) (head l) ;;
        match o with
        | None => ret None
        | Some p =>
            r <- get_proc p ;;
            when (negb (priority r =? prio))
              (q <- ready_of_prio p ;;
               remove_or_panic "Empty list or process not in list" q p ;;;
               assertState p RUNNABLE ;;;
               r <- get_proc p ;;
               (if negb (priority r =? Z.of_nat j) then panic "p->priority not same as in ready list"
                else ret tt) ;;;
               put_proc p (fun r => r <| priority := prio |> <| budget := BUDGET |>) ;;;
               q <- ready_of_prio p ;;
               stateListAdd q p) ;;;
            release_ptable ;;;
            ret (Some RETURN_SUCCESS)
        end)
    else
      l <- get_q (QList i) ;;
      o <- find_in (has_pid n) (head l) ;;
      match o with
      | None => ret None
      | Some p =>
          r <- get_proc p ;;
          when (negb (priority r =? prio))
            (put_proc p (fun r => r <| priority := prio |> <| budget := BUDGET |>)) ;;;
          release_ptable ;;;
          ret (Some RETURN_SUCCESS)
      end) ;;
  match x with
  | Some z => ret z
  | None => release_ptable ;;; ret RETURN_FAILURE
  end.

Definition getpriority (n : Z) : M K Z :=
  acquire_ptable ;;;
  if (n <? 0) || (32767 <? n) then release_ptable ;;; ret RETURN_FAILURE else
  x <- mfor (seq (state_num SLEEPING) 4) (fun i =>
    if decide (i = state_num RUNNABLE) then
      check_runnable_empty "Runnable list should be empty" ;;;
      mfor prios_down (fun j =>
        l <- get_q (QReady j) ;;
        o <- find_in (has_pid n) (head l) ;;
        match o with
        | None => ret None
        | Some p => release_ptable ;;; r <- get_proc p ;; ret (Some (s32 (priority r)))
        end)
    else
      l <- get_q (QList i) ;;
      o <- find_in (has_pid n) (head l) ;;
      match o with
      | None => ret None
      | Some p => release_ptable ;;; r <- get_proc p ;; ret (Some (s32 (priority r)))
      end) ;;
  match x with
  | Some z => ret z
  | None => release_ptable ;;; ret RETURN_FAILURE
  end.

(** ** getprocs *)

(** uproc.h; [budget] is in the struct but [getprocs] does not write it.  The
    name is the C string that [safestrcpy] copies. *)
Record uproc := UProc {
  u_pid : Z; u_uid : Z; u_gid : Z; u_ppid : Z; u_elapsed_ticks : Z;
  u_CPU_total_ticks : Z; u_state : string; u_size : Z; u_name : list Z; u_priority : Z;
}.

(** [states[]] *)
Definition states (st : procstate) : string :=
  match st with
  | UNUSED => "unused" | EMBRYO => "embryo" | SLEEPING => "sleep "
  | RUNNABLE => "runble" | RUNNING => "run   " | ZOMBIE => "zombie"
  end.

(** [p->parent ? p->parent->pid : p->pid] *)
Definition ppid_of (r : proc) : M K Z :=
  match parent r with
  | None => ret (pid r)
  | Some q => rq <- get_proc q ;; ret (pid rq)
  end.

(** One process of the table; [inr] is the [break]. *)
Definition getprocs_step (max : Z) (rows : list uproc) (p : nat) : M K (list uproc + list uproc) :=
  r <- get_proc p ;;
  if bool_decide (state r = UNUSED) || bool_decide (state r = EMBRYO) then ret (inl rows)
  else if Z.of_nat (length rows) <? max then
    pp <- ppid_of r ;;
    t <- gets ticks ;;
    ret (inl (rows ++ [UProc (pid r) (uid r) (gid r) pp (u32 (t - start_ticks r))
                         (cpu_ticks_total r) (states (state r)) (sz r) (cstr (name r)) (priority r)]))
  else ret (inr rows).

(** The rows written to the user's table; their number is the result. *)
Definition getprocs (max : Z) : M K (list uproc) :=
  acquire_ptable ;;;
  x <- mfold (seq 0 NPROC) (getprocs_step max) [] ;;
  release_ptable ;;;
  ret (match x with inl rows => rows | inr rows => rows end).

(** ** Console listings (^S, ^F, ^Z, ^R) *)

(** What a [cprintf] puts out: literal text and numbers. *)
Inductive pitem := PText (t : string) | PNum (n : Z).

(** [while(p) { print(p); p = p->next; }] *)
Definition show_step (show : proc -> M K (list pitem)) (x : option nat * list pitem)
  : M K ((option nat * list pitem) + list pitem) :=
  match x with
  | (None, acc) => ret (inr acc)
  | (Some i, acc) =>
      r <- get_proc i ;;
      out <- show r ;;
      ret (inl (next r, acc ++ out))
  end.
Definition show_list (show : proc -> M K (list pitem)) (p : option nat) (acc : list pitem)
  : M K (list pitem) :=
  mwhile list_fuel (show_step show) (p, acc).

Definition arrow (r : proc) : pitem :=
  match next r with None => PText "\n" | Some _ => PText " -> " end.

Definition getSleepList : M K (list pitem) :=
  acquire_ptable ;;;
  l <- get_q (QList (state_num SLEEPING)) ;;
  match head l with
  | None => release_ptable ;;; ret [PText "No Processes Sleepin\n"]
  | Some p =>
      out <- show_list (fun r => ret [PNum (pid r); arrow r]) (Some p)
               [PText "Sleep List Processes: \n"] ;;
      release_ptable ;;;
      ret out
  end.

Definition getFreeList : M K (list pitem) :=
  acquire_ptable ;;;
  l <- get_q (QList (state_num UNUSED)) ;;
  count <- mwhile list_fuel (fun x : option nat * Z =>
    match x with
    | (None, n) => ret (inr n)
    | (Some i, n) => r <- get_proc i ;; ret (inl (next r, n + 1))
    end) (head l, 0) ;;
  release_ptable ;;;
  ret [PText "Free List Size: "; PNum count; PText " processes\n"].

Definition getZombieList : M K (list pitem) :=
  acquire_ptable ;;;
  l <- get_q (QList (state_num ZOMBIE)) ;;
  match head l with
  | None => release_ptable ;;; ret [PText "No Processes in ZOMBIE\n"]
  | Some p =>
      out <- show_list (fun r =>
                 q <- nonnull (parent r) ;; rq <- get_proc q ;;
                 ret [PText "("; PNum (pid r); PText ", "; PNum (pid rq); PText ")"; arrow r])
               (Some p) [PText "Zombie List Processes: \n"] ;;
      release_ptable ;;;
      ret out
  end.

Definition getReadyList : M K (list pitem) :=
  acquire_ptable ;;;
  x <- mfold (zip (seq 0 (S MAXPRIO)) prios_down) (fun acc ci =>
    let '(counter, i) := ci in
    l <- get_q (QReady i) ;;
    let hdr := if decide (i = MAXPRIO) then [PText "MAXPRIO: "]
               else if decide (0 < i)%nat then [PText "MAXPRIO-"; PNum (Z.of_nat counter); PText ": "]
               else [PText "0: "] in
    match head l with
    | None => ret (inl (acc ++ hdr ++ [PText "none. \n\n"]))
    | Some p =>
        out <- show_list (fun r =>
                   ret [PText "("; PNum (pid r); PText ", "; PNum (budget r); PText ")";
                        match next r with None => PText "\n\n" | Some _ => PText " -> " end])
                 (Some p) (acc ++ hdr) ;;
        ret (inl out)
    end) [] ;;
  release_ptable ;;;
  ret (match (x : list pitem + list pitem) with inl out => out | inr out => out end).

End proc.
