(* ===== verification/ProcInv.v ===== *)
(** * The abstract process table and its invariant

    [view] is what the process table means: the table of processes without
    their links, every list as a Rocq list of process indices, the scalar
    variables of proc.c, and which locks this CPU holds.  [rep v s] relates it
    to the linked structure of the kernel state; [vinv] is the invariant of the
    table.  The rules of this file execute the primitives of proc.c
    symbolically on views; the operations are verified in the files that
    follow. *)

From S2P Require Import Prelude Params Spinlock ProcDefs StateList Proc.

(** ** Views *)

Record view := View {
  v_tbl : list proc;
  v_q : qref -> list nat;
  v_prom : Z;
  v_nextpid : Z;
  v_init : option nat;
  v_ticks : Z;
  v_own : bool;
  v_pt : bool;
  v_cur : option nat;
}.
#[export] Instance view_eta : Eta view := fun r =>
  View (v_tbl r) (v_q r) (v_prom r) (v_nextpid r) (v_init r) (v_ticks r)
    (v_own r) (v_pt r) (v_cur r).

(** Projections of updated records, without unfolding the updates. *)
Ltac rec_simpl :=
  repeat match goal with
  | |- context [?f (upd ?g ?h ?r)] =>
      first [ progress change (f (upd g h r)) with (f r)
            | progress (change (f (upd g h r)) with (h (f r)); cbn beta) ]
  end.
Ltac rec_simpl_in H :=
  repeat match type of H with
  | context [?f (upd ?g ?h ?r)] =>
      first [ progress change (f (upd g h r)) with (f r) in H
            | progress (change (f (upd g h r)) with (h (f r)) in H; cbn beta in H) ]
  end.

(** The list a process belongs to. *)
Definition home (r : proc) : qref :=
  if decide (state r = RUNNABLE) then QReady (Z.to_nat (priority r))
  else QList (state_num (state r)).

(** The process may run or be made to run again. *)
Definition alive (r : proc) : Prop :=
  state r = SLEEPING \/ state r = RUNNABLE \/ state r = RUNNING.
#[export] Instance alive_dec r : Decision (alive r).
Proof. apply _. Defined.

Record wf_proc (r : proc) : Prop := {
  wf_prio : 0 <= priority r <= Z.of_nat MAXPRIO;
  wf_ofile : length (ofile r) = NOFILE;
  wf_name : length (name r) = 16%nat;
  wf_orphan : state r = UNUSED -> parent r = None;
  wf_closed : state r = UNUSED \/ state r = ZOMBIE ->
    ofile r = replicate NOFILE None /\ cwd r = None;
}.

(** The invariant: every process is linked once, into the list of its state
    (and, if it is RUNNABLE, of its priority); parents are alive. *)
Record vinv (v : view) : Prop := {
  vi_len : length (v_tbl v) = NPROC;
  vi_nodup q : NoDup (v_q v q);
  vi_placed i q : i ∈ v_q v q <-> exists r, v_tbl v !! i = Some r /\ home r = q;
  vi_wf i r : v_tbl v !! i = Some r -> wf_proc r;
  vi_parent i r j : v_tbl v !! i = Some r -> parent r = Some j ->
    exists rj, v_tbl v !! j = Some rj /\ alive rj;
  vi_init i : v_init v = Some i -> exists ri, v_tbl v !! i = Some ri /\ alive ri;
}.

(** ** Abstract updates *)

(** Take [p] off every list; append it to list [q]; change its record. *)
Definition a_unlink (p : nat) (v : view) : view :=
  v <| v_q := fun q => list_remove_all p (v_q v q) |>.
Definition a_append (q : qref) (p : nat) (v : view) : view :=
  v <| v_q := fun q' => if decide (q' = q) then v_q v q' ++ [p] else v_q v q' |>.
Definition a_upd (p : nat) (r : proc) (v : view) : view :=
  v <| v_tbl ::= <[p := r]> |>.
(** Change the record and move the process to the end of its new list. *)
Definition a_place (p : nat) (r : proc) (v : view) : view :=
  a_append (home r) p (a_unlink p (a_upd p r v)).

(** [p] taken off its list, with record [r]. *)
Definition detached (p : nat) (r : proc) (v : view) : view := a_unlink p (a_upd p r v).

(** What [sched] charges to a process that gives up the CPU at time [t]. *)
Definition account (t : Z) (r : proc) : proc :=
  r <| cpu_ticks_total := u32 (cpu_ticks_total r + u32 (t - cpu_ticks_in r)) |>.

(** A function on processes that neither reads nor writes the link. *)
Definition link_free (f : proc -> proc) : Prop :=
  forall r n, f (r <| next := n |>) = (f r) <| next := n |>.

(** Views are compared list by list. *)
Definition veq (v v' : view) : Prop :=
  (forall q, v_q v q = v_q v' q) /\ v <| v_q := v_q v' |> = v'.

Lemma veq_refl v : veq v v.
Proof. split; [done|]. by destruct v. Qed.
Lemma veq_intro v v' :
  (forall q, v_q v q = v_q v' q) -> v <| v_q := v_q v' |> = v' -> veq v v'.
Proof. by split. Qed.

Lemma veq_tbl v v' : veq v v' -> v_tbl v = v_tbl v'.
Proof. by intros [_ <-]. Qed.
Lemma veq_init v v' : veq v v' -> v_init v = v_init v'.
Proof. by intros [_ <-]. Qed.

Lemma veq_ticks v v' : veq v v' -> v_ticks v = v_ticks v'.
Proof. by intros [_ <-]. Qed.
Lemma veq_upd v v' Q T : veq v v' -> v <| v_q := Q |> <| v_tbl := T |> = v' <| v_q := Q |> <| v_tbl := T |>.
Proof. by intros [_ <-]. Qed.

#[export] Instance veq_equiv : Equivalence veq.
Proof.
  split; [exact veq_refl| |].
  - intros v v' [H <-]. split; [done|]. by destruct v.
  - intros v1 v2 v3 [H1 E1] [H2 E2]. split.
    + intros q. by rewrite H1.
    + rewrite <- E2, <- E1. done.
Qed.

Lemma a_upd_id p r v : v_tbl v !! p = Some r -> a_upd p r v = v.
Proof. intros H. destruct v. unfold a_upd. simpl in *. unfold upd; simpl. f_equal. by apply list_insert_id. Qed.
Lemma a_upd_upd p r r' v : a_upd p r' (a_upd p r v) = a_upd p r' v.
Proof. destruct v. unfold a_upd, upd. simpl. f_equal. apply list_insert_insert_eq. Qed.
Lemma a_upd_detached p r r' v : a_upd p r' (detached p r v) = detached p r' v.
Proof.
  transitivity (a_unlink p (a_upd p r' (a_upd p r v))); [done|]. unfold detached.
  by rewrite a_upd_upd.
Qed.
Lemma a_upd_place p r r' v : home r' = home r -> a_upd p r' (a_place p r v) = a_place p r' v.
Proof.
  intros Hh. unfold a_place. rewrite Hh.
  transitivity (a_append (home r) p (a_unlink p (a_upd p r' (a_upd p r v)))); [done|].
  by rewrite a_upd_upd.
Qed.

Lemma a_place_upd p r r' v : a_place p r' (a_upd p r v) = a_place p r' v.
Proof. unfold a_place. by rewrite a_upd_upd. Qed.

(** Two moves are one, up to the representation of the lists. *)
Lemma a_place_place p r r' v : veq (a_place p r' (a_place p r v)) (a_place p r' v).
Proof.
  apply veq_intro.
  - intros q. unfold a_place, a_append, a_unlink, a_upd. rec_simpl.
    assert (Hl : list_remove_all p (if decide (q = home r) then list_remove_all p (v_q v q) ++ [p]
      else list_remove_all p (v_q v q)) = list_remove_all p (v_q v q)); [|by case_decide; rewrite ?Hl].
    unfold list_remove_all. case_decide.
    + rewrite filter_app, list_filter_filter, filter_cons_False, filter_nil, app_nil_r by naive_solver.
      apply filter_ext_in. naive_solver.
    + rewrite list_filter_filter. apply filter_ext_in. naive_solver.
  - transitivity ((a_append (home r') p (a_unlink p (a_upd p r' (a_upd p r v)))) <| v_q := v_q (a_place p r' v) |>);
      [done|]. by rewrite a_upd_upd.
Qed.

(** The first process of a list with property [f]. *)
Fixpoint first_in (T : list proc) (f : proc -> bool) (l : list nat) : option nat :=
  match l with
  | [] => None
  | i :: l =>
      match T !! i with
      | Some r => if f r then Some i else first_in T f l
      | None => None
      end
  end.

Lemma first_in_Some T f l i :
  first_in T f l = Some i -> i ∈ l /\ exists r, T !! i = Some r /\ f r = true.
Proof.
  induction l as [|j l IH]; simpl; [done|].
  destruct (T !! j) as [r|] eqn:Hj; [|done]. destruct (f r) eqn:Hf.
  - intros [= <-]. split; [set_solver|]. eauto.
  - intros H. destruct (IH H) as (Hi & Hr). split; [set_solver|done].
Qed.

Lemma first_in_None T f l :
  (forall i, i ∈ l -> is_Some (T !! i)) -> first_in T f l = None ->
  forall i r, i ∈ l -> T !! i = Some r -> f r = false.
Proof.
  induction l as [|j l IH]; simpl; intros Hall H i r Hi Hr; [set_solver|].
  destruct (Hall j) as [rj Hj]; [set_solver|]. rewrite Hj in H.
  destruct (f rj) eqn:Hf; [done|]. apply elem_of_cons in Hi as [->|Hi]; [by simplify_eq|].
  eapply IH; try done. intros k Hk. apply Hall. set_solver.
Qed.

Lemma first_in_app T f l1 l2 :
  (forall i, i ∈ l1 -> is_Some (T !! i)) ->
  first_in T f (l1 ++ l2) = match first_in T f l1 with Some p => Some p | None => first_in T f l2 end.
Proof.
  induction l1 as [|j l1 IH]; intros Hall; [done|]. simpl.
  destruct (Hall j) as [r ->]; [set_solver|]. destruct (f r); [done|].
  apply IH. set_solver.
Qed.

(** The processes visited for index [i] of a loop over the states. *)
Definition visited_at (v : view) (i : nat) : list nat :=
  if decide (i = state_num RUNNABLE) then prios_down ≫= fun j => v_q v (QReady j)
  else v_q v (QList i).
(** The processes in the order in which such a loop visits them. *)
Definition visited (v : view) (sts : list nat) : list nat := sts ≫= visited_at v.

(** ** The invariant under abstract updates *)

(** Nobody names [p] as its parent, and [p] is not init. *)
Definition unref (p : nat) (v : view) : Prop :=
  (forall i r, v_tbl v !! i = Some r -> parent r <> Some p) /\ v_init v <> Some p.

(** Record [r] may replace the one of [p]. *)
Record ok_change (v : view) (p : nat) (r : proc) : Prop := {
  oc_wf : wf_proc r;
  oc_ref : alive r \/ unref p v;
  oc_parent j : parent r = Some j -> exists rj, <[p := r]> (v_tbl v) !! j = Some rj /\ alive rj;
}.

Lemma vinv_unref v p r : vinv v -> v_tbl v !! p = Some r -> ~ alive r -> unref p v.
Proof.
  intros H Hr Hd. split.
  - intros i ri Hi Hp. destruct (vi_parent v H i ri p Hi Hp) as (rp & Hrp & ?). by simplify_eq.
  - intros Hi. destruct (vi_init v H p Hi) as (rp & Hrp & ?). by simplify_eq.
Qed.

(** The common case: the parent stays. *)
Lemma ok_change_keep v p r r' :
  vinv v -> v_tbl v !! p = Some r -> wf_proc r' -> parent r' = parent r ->
  (alive r' \/ unref p v) -> ok_change v p r'.
Proof.
  intros H Hr Hwf Hp Hal. split; [done|done|]. intros j Hj. rewrite Hp in Hj.
  destruct (vi_parent v H p r j Hr Hj) as (rj & Hrj & Hlive).
  destruct (decide (j = p)) as [->|Hne].
  - exists r'. split; [apply list_lookup_insert_eq; by eapply lookup_lt_Some|].
    destruct Hal as [|[Hun _]]; [done|]. by destruct (Hun p r Hr).
  - exists rj. by rewrite list_lookup_insert_ne.
Qed.

Lemma elem_of_a_place v p r i q :
  i ∈ v_q (a_place p r v) q <-> (i ∈ v_q v q /\ i <> p) \/ (i = p /\ q = home r).
Proof.
  unfold a_place, a_append, a_unlink. rec_simpl. unfold a_upd. rec_simpl.
  rewrite <- elem_of_list_remove_all. case_decide as Hq; [|naive_solver].
  rewrite elem_of_app, list_elem_of_singleton. naive_solver.
Qed.

Lemma NoDup_a_place v p r q : NoDup (v_q v q) -> NoDup (v_q (a_place p r v) q).
Proof.
  intros H. unfold a_place, a_append, a_unlink. rec_simpl. unfold a_upd. rec_simpl.
  apply (NoDup_list_remove_all p) in H. case_decide; [|done].
  apply NoDup_app. split_and!; [done| |by apply NoDup_singleton].
  intros x [_ Hx]%elem_of_list_remove_all. by rewrite list_elem_of_singleton.
Qed.

(** What a change of a record keeps of the invariant, lists apart. *)
Lemma ok_change_tbl v p r r' :
  vinv v -> v_tbl v !! p = Some r -> ok_change v p r' ->
  (forall i ri, <[p := r']> (v_tbl v) !! i = Some ri -> wf_proc ri) /\
  (forall i ri j, <[p := r']> (v_tbl v) !! i = Some ri -> parent ri = Some j ->
     exists rj, <[p := r']> (v_tbl v) !! j = Some rj /\ alive rj) /\
  (forall i, v_init v = Some i -> exists ri, <[p := r']> (v_tbl v) !! i = Some ri /\ alive ri).
Proof.
  intros H Hr [Hwf Href Hpar]. assert (Hlt := lookup_lt_Some _ _ _ Hr).
  assert (Hal : forall j rj, v_tbl v !! j = Some rj -> alive rj -> (j = p -> alive r') ->
    exists rj', <[p := r']> (v_tbl v) !! j = Some rj' /\ alive rj').
  { intros j rj Hj Hlive Hp. destruct (decide (j = p)) as [->|Hne].
    - exists r'. rewrite list_lookup_insert_eq by done. auto.
    - exists rj. by rewrite list_lookup_insert_ne. }
  split_and!.
  - intros i ri [(<- & <- & _)|[_ Hi]]%list_lookup_insert_Some; [done|]. by eapply vi_wf.
  - intros i ri j [(<- & <- & _)|[Hne Hi]]%list_lookup_insert_Some Hj; [by apply Hpar|].
    destruct (vi_parent v H i ri j Hi Hj) as (rj & Hrj & Hlive).
    apply (Hal j rj Hrj Hlive). intros ->. destruct Href as [|[Hun _]]; [done|].
    by destruct (Hun i ri Hi).
  - intros i Hi. destruct (vi_init v H i Hi) as (ri & Hri & Hlive).
    apply (Hal i ri Hri Hlive). intros ->. destruct Href as [|[_ Hun]]; done.
Qed.

Lemma vinv_place v p r r' :
  vinv v -> v_tbl v !! p = Some r -> ok_change v p r' -> vinv (a_place p r' v).
Proof.
  intros H Hr Hok. destruct (ok_change_tbl v p r r' H Hr Hok) as (Hwf & Hpar & Hin).
  assert (Hlt := lookup_lt_Some _ _ _ Hr).
  split; try done.
  - change (length (<[p := r']> (v_tbl v)) = NPROC). rewrite length_insert. apply H.
  - intros q. apply NoDup_a_place, H.
  - intros i q. rewrite elem_of_a_place, (vi_placed v H).
    change (v_tbl (a_place p r' v)) with (<[p := r']> (v_tbl v)).
    destruct (decide (i = p)) as [->|Hne].
    + rewrite list_lookup_insert_eq by done. naive_solver.
    + rewrite list_lookup_insert_ne by done. naive_solver.
Qed.

Lemma vinv_upd v p r r' :
  vinv v -> v_tbl v !! p = Some r -> ok_change v p r' -> home r' = home r ->
  vinv (a_upd p r' v).
Proof.
  intros H Hr Hok Hh. destruct (ok_change_tbl v p r r' H Hr Hok) as (Hwf & Hpar & Hin).
  assert (Hlt := lookup_lt_Some _ _ _ Hr).
  split; try done.
  - change (length (<[p := r']> (v_tbl v)) = NPROC). rewrite length_insert. apply H.
  - apply H.
  - intros i q. change (v_q (a_upd p r' v)) with (v_q v). rewrite (vi_placed v H).
    change (v_tbl (a_upd p r' v)) with (<[p := r']> (v_tbl v)).
    destruct (decide (i = p)) as [->|Hne].
    + rewrite list_lookup_insert_eq by done. naive_solver.
    + by rewrite list_lookup_insert_ne by done.
Qed.

(** A change of other fields than the invariant speaks of. *)
Lemma vinv_touch v p r r' :
  vinv v -> v_tbl v !! p = Some r -> state r' = state r -> priority r' = priority r ->
  parent r' = parent r -> length (ofile r') = length (ofile r) ->
  length (name r') = length (name r) ->
  (state r = UNUSED \/ state r = ZOMBIE -> ofile r' = ofile r /\ cwd r' = cwd r) ->
  vinv (a_upd p r' v).
Proof.
  intros H Hr H1 H2 H3 H4 H5 H6. destruct (vi_wf v H p r Hr) as [W1 W2 W3 W4 W5].
  eapply vinv_upd; [done|done| |unfold home; by rewrite H1, H2].
  eapply ok_change_keep; [done|done| |done|].
  - split; [by rewrite H2|congruence|congruence|by rewrite H1, H3|].
    rewrite H1. intros Hst. destruct (H6 Hst) as [-> ->]. by apply W5.
  - unfold alive. rewrite H1. fold (alive r). destruct (decide (alive r)) as [Ha|Ha]; [by left|].
    right. by apply (vinv_unref v p r).
Qed.

(** A live process moves to another list. *)
Lemma vinv_move v p r r' :
  vinv v -> v_tbl v !! p = Some r -> alive r' -> 0 <= priority r' <= Z.of_nat MAXPRIO ->
  parent r' = parent r -> length (ofile r') = length (ofile r) ->
  length (name r') = length (name r) -> vinv (a_place p r' v).
Proof.
  intros H Hr H1 H2 H3 H4 H5. destruct (vi_wf v H p r Hr) as [W1 W2 W3 W4 W5].
  eapply vinv_place; [done|done|]. eapply ok_change_keep; [done|done| |done|by left].
  split; [done|congruence|congruence|..]; destruct H1 as [->|[->| ->]]; naive_solver.
Qed.

(** A process that nobody waits for or refers to moves. *)
Lemma vinv_move_dead v p r r' :
  vinv v -> v_tbl v !! p = Some r -> ~ alive r -> wf_proc r' -> parent r' = parent r ->
  vinv (a_place p r' v).
Proof.
  intros H Hr Hd Hwf Hpa. eapply vinv_place; [done|done|].
  eapply ok_change_keep; [done|done|done|done|]. right. by apply (vinv_unref v p r).
Qed.

(** *** Changing a set of processes *)

(** [g] applied to the processes [d]. *)
Definition a_map (g : proc -> proc) (d : list nat) (v : view) : view :=
  v <| v_tbl ::= imap (fun i r => if bool_decide (i ∈ d) then g r else r) |>.

Lemma a_map_lookup g d v i :
  v_tbl (a_map g d v) !! i = (fun r => if bool_decide (i ∈ d) then g r else r) <$> v_tbl v !! i.
Proof. unfold a_map. rec_simpl. apply list_lookup_imap. Qed.

Lemma a_map_tbl_eq v v' :
  (forall i, v_tbl v !! i = v_tbl v' !! i) -> v <| v_tbl := v_tbl v' |> = v' -> v = v'.
Proof. intros H <-. destruct v. unfold upd. simpl in *. f_equal. by apply list_eq. Qed.

Lemma a_map_nil g v : a_map g [] v = v.
Proof.
  apply a_map_tbl_eq; [|by destruct v]. intros i. rewrite a_map_lookup. by destruct (v_tbl v !! i).
Qed.

Lemma a_map_snoc g d v i r :
  i ∉ d -> v_tbl v !! i = Some r -> a_map g (d ++ [i]) v = a_upd i (g r) (a_map g d v).
Proof.
  intros Hi Hr. apply a_map_tbl_eq; [|done]. intros k. unfold a_upd. rec_simpl.
  rewrite a_map_lookup. destruct (decide (k = i)) as [->|Hne].
  - rewrite list_lookup_insert_eq.
    + rewrite Hr. simpl. by rewrite bool_decide_eq_true_2 by set_solver.
    + unfold a_map. rec_simpl. rewrite length_imap. by eapply lookup_lt_Some.
  - rewrite list_lookup_insert_ne, a_map_lookup by done.
    destruct (v_tbl v !! k); [|done]. simpl. do 2 f_equal.
    by rewrite (bool_decide_ext (k ∈ d ++ [i]) (k ∈ d)) by set_solver.
Qed.

Lemma a_map_single g v i r : v_tbl v !! i = Some r -> a_map g [i] v = a_upd i (g r) v.
Proof.
  intros Hr. change [i] with ([] ++ [i]).
  rewrite (a_map_snoc g [] v i r), a_map_nil; [done|set_solver|done].
Qed.

Lemma a_map_app g d1 d2 v :
  (forall i, i ∈ d1 -> i ∉ d2) -> a_map g d2 (a_map g d1 v) = a_map g (d1 ++ d2) v.
Proof.
  intros Hd. apply a_map_tbl_eq; [|done]. intros k. rewrite !a_map_lookup.
  destruct (v_tbl v !! k) as [r|]; [|done]. simpl. f_equal. specialize (Hd k).
  repeat case_bool_decide; set_solver.
Qed.

Lemma a_map_app_idem g d1 d2 v :
  (forall r, g (g r) = g r) -> a_map g d2 (a_map g d1 v) = a_map g (d1 ++ d2) v.
Proof.
  intros Hg. apply a_map_tbl_eq; [|done]. intros k. rewrite !a_map_lookup.
  destruct (v_tbl v !! k) as [r|]; [|done]. simpl. f_equal.
  rewrite (bool_decide_ext (k ∈ d1 ++ d2) (k ∈ d1 \/ k ∈ d2)) by set_solver.
  repeat case_bool_decide; naive_solver.
Qed.

(** The set does not matter where [g] is the identity. *)
Lemma a_map_ext g g' d d' v :
  (forall i r, v_tbl v !! i = Some r ->
     (if bool_decide (i ∈ d) then g r else r) = (if bool_decide (i ∈ d') then g' r else r)) ->
  a_map g d v = a_map g' d' v.
Proof.
  intros H. apply a_map_tbl_eq; [|done]. intros k. rewrite !a_map_lookup.
  destruct (v_tbl v !! k) as [r|] eqn:Hk; [|done]. simpl. f_equal. by apply H.
Qed.
Lemma a_map_all g d v :
  (forall i r, v_tbl v !! i = Some r -> i ∈ d \/ g r = r) ->
  a_map g d v = v <| v_tbl ::= fmap g |>.
Proof.
  intros H. apply a_map_tbl_eq; [|done]. intros k. rewrite a_map_lookup. rec_simpl.
  rewrite list_lookup_fmap. destruct (v_tbl v !! k) as [r|] eqn:Hk; [|done]. simpl. f_equal.
  destruct (H k r Hk) as [Hi|Hg]; case_bool_decide; naive_solver.
Qed.

Lemma vinv_map g d v :
  vinv v ->
  (forall i r, i ∈ d -> v_tbl v !! i = Some r ->
     wf_proc (g r) /\ home (g r) = home r /\ (alive r -> alive (g r)) /\
     forall j, parent (g r) = Some j -> exists rj, v_tbl v !! j = Some rj /\ alive rj) ->
  vinv (a_map g d v).
Proof.
  intros H Hg.
  assert (Hal : forall j rj, v_tbl v !! j = Some rj -> alive rj ->
    exists rj', v_tbl (a_map g d v) !! j = Some rj' /\ alive rj').
  { intros j rj Hj Hlive. rewrite a_map_lookup, Hj. eexists. split; [done|].
    cbn beta. case_bool_decide as Hi; [|done]. by apply (Hg j rj Hi Hj). }
  assert (Hlk : forall i r, v_tbl (a_map g d v) !! i = Some r -> exists r0, v_tbl v !! i = Some r0 /\
    r = if bool_decide (i ∈ d) then g r0 else r0).
  { intros i r. rewrite a_map_lookup. destruct (v_tbl v !! i); naive_solver. }
  split.
  - unfold a_map. rec_simpl. rewrite length_imap. apply H.
  - intros q. apply (vi_nodup v H q).
  - intros i q. change (v_q (a_map g d v)) with (v_q v). rewrite (vi_placed v H).
    rewrite a_map_lookup. destruct (v_tbl v !! i) as [r|] eqn:Hr; simpl; [|naive_solver].
    case_bool_decide as Hi; [|done]. destruct (Hg i r Hi Hr) as (_ & Hh & _). naive_solver.
  - intros i r (r0 & Hr0 & ->)%Hlk. case_bool_decide as Hi; [by apply (Hg i r0)|by eapply vi_wf].
  - intros i r j (r0 & Hr0 & ->)%Hlk Hj.
    assert (Hp : exists rj, v_tbl v !! j = Some rj /\ alive rj).
    { case_bool_decide as Hi; [by apply (Hg i r0)|by eapply vi_parent]. }
    destruct Hp as (rj & Hrj & Hlive). by eapply Hal.
  - intros i Hi. destruct (vi_init v H i Hi) as (ri & Hri & Hlive). by eapply Hal.
Qed.

(** Locks and times are not part of the invariant. *)
Lemma vinv_frame v v' :
  v_tbl v' = v_tbl v -> v_q v' = v_q v -> v_init v' = v_init v -> vinv v -> vinv v'.
Proof.
  destruct v as [T Q p n i t o pt c], v' as [T' Q' p' n' i' t' o' pt' c']. simpl.
  intros -> -> ->. by intros [H1 H2 H3 H4 H5 H6].
Qed.

Lemma vinv_set_init v i r :
  vinv v -> v_tbl v !! i = Some r -> alive r -> vinv (v <| v_init := Some i |>).
Proof.
  intros [H1 H2 H3 H4 H5 H6] Hr Ha. split; try done. intros j [= <-]. eauto.
Qed.

(** Facts read off the invariant. *)
Lemma vinv_home v p r : vinv v -> v_tbl v !! p = Some r -> p ∈ v_q v (home r).
Proof. intros H Hr. apply (vi_placed v H). eauto. Qed.

Lemma home_valid r : wf_proc r -> valid_q (home r).
Proof.
  intros [[? ?] _ _ _ _]. unfold home. destruct (state r); simpl; unfold statecount, MAXPRIO in *; lia.
Qed.

(** A list never holds more processes than the table. *)
Lemma vinv_q_lt v q i : vinv v -> i ∈ v_q v q -> (i < NPROC)%nat.
Proof.
  intros H (r & Hr & _)%(vi_placed v H). rewrite <- (vi_len v H). by eapply lookup_lt_Some.
Qed.
Lemma vinv_q_length v q : vinv v -> (length (v_q v q) <= NPROC)%nat.
Proof.
  intros H. rewrite <- (length_seq NPROC 0). apply submseteq_length, NoDup_submseteq; [apply H|].
  intros i Hi. apply elem_of_seq. pose proof (vinv_q_lt v q i H Hi). lia.
Qed.
Lemma vinv_q_state v st i :
  vinv v -> i ∈ v_q v (QList (state_num st)) -> exists r, v_tbl v !! i = Some r /\ state r = st /\ st <> RUNNABLE.
Proof.
  intros H (r & Hr & Hh)%(vi_placed v H). exists r. split; [done|].
  unfold home in Hh. case_decide; [done|]. injection Hh as Hh.
  destruct (state r), st; naive_solver.
Qed.
Lemma vinv_q_ready v j i :
  vinv v -> i ∈ v_q v (QReady j) ->
  exists r, v_tbl v !! i = Some r /\ state r = RUNNABLE /\ priority r = Z.of_nat j.
Proof.
  intros H (r & Hr & Hh)%(vi_placed v H). exists r. pose proof (wf_prio r (vi_wf v H i r Hr)).
  unfold home in Hh. case_decide; [|done]. injection Hh as Hh. split_and!; [done|done|lia].
Qed.
(** The RUNNABLE list is never used. *)
Lemma vinv_runnable_empty v : vinv v -> v_q v (QList (state_num RUNNABLE)) = [].
Proof.
  intros H. apply elem_of_nil_inv. intros i (r & _ & _ & Hne)%(vinv_q_state v RUNNABLE i H). done.
Qed.

Section rep.
Context {L E : Type} `{CL : CpuLock L} `{SV : ProcServices E}.
Abbreviation K := (kst L E).

Record rep (v : view) (s : K) : Prop := {
  rep_lists : lists_ok s (v_q v);
  rep_tbl : unlinked <$> procs s = v_tbl v;
  rep_prom : PromoteAtTime s = v_prom v;
  rep_nextpid : nextpid s = v_nextpid v;
  rep_init : initproc s = v_init v;
  rep_ticks : ticks s = v_ticks v;
  rep_holds : holds (cpu s) (v_own v) (v_pt v);
  rep_cur : curp (cpu s) = v_cur v;
}.

Lemma lists_ok_ext (s : K) Q Q' : (forall q, Q q = Q' q) -> lists_ok s Q -> lists_ok s Q'.
Proof.
  intros H [H1 H2 H3 H4 H5 H6 H7]. split; [done|done|done|..].
  - intros q v. rewrite <- H. apply H4.
  - intros q. rewrite <- H. apply H5.
  - intros q1 q2 i. rewrite <- !H. apply H6.
  - intros q i. rewrite <- H. apply H7.
Qed.

#[export] Instance rep_proper : Proper (veq ==> eq ==> iff) rep.
Proof.
  assert (Himp : forall v v' s, veq v v' -> rep v s -> rep v' s).
  { intros v v' s [Hq <-] [H1 H2 H3 H4 H5 H6 H7 H8]. split; try done.
    by eapply lists_ok_ext. }
  intros v v' Hv s _ <-. split; [by apply Himp|]. by apply Himp; symmetry.
Qed.

#[export] Instance vinv_proper : Proper (veq ==> iff) vinv.
Proof.
  assert (Himp : forall v v', veq v v' -> vinv v -> vinv v').
  { intros v v' [Hq <-] [H1 H2 H3 H4 H5 H6]. split; try done.
    - intros q. change (NoDup (v_q v' q)). by rewrite <- Hq.
    - intros i q. change (i ∈ v_q v' q <-> exists r, v_tbl v !! i = Some r /\ home r = q).
      rewrite <- Hq. apply H3. }
  intros v v' Hv. split; [by apply Himp|]. by apply Himp; symmetry.
Qed.

(** ** Symbolic execution of the primitives *)

Section rules.
Context (P : prot K).

Lemma rep_lookup v s p r :
  rep v s -> v_tbl v !! p = Some r -> exists n, procs s !! p = Some (r <| next := n |>).
Proof.
  intros H Hr. rewrite <- (rep_tbl v s H), list_lookup_fmap in Hr.
  destruct (procs s !! p) as [r'|]; [|done]. injection Hr as <-. exists (next r').
  by destruct r'.
Qed.

Lemma rep_length v s : rep v s -> length (v_tbl v) = NPROC.
Proof. intros H. rewrite <- (rep_tbl v s H), length_fmap. apply (rep_lists v s H). Qed.

Lemma rep_lt v s p r : rep v s -> v_tbl v !! p = Some r -> (p < NPROC)%nat.
Proof. intros H Hr. rewrite <- (rep_length v s H). by eapply lookup_lt_Some. Qed.

Lemma wp_get_proc v s p r (Q : proc -> K -> Prop) :
  rep v s -> v_tbl v !! p = Some r -> (forall n, Q (r <| next := n |>) s) ->
  wp P (get_proc p) s Q.
Proof.
  intros H Hr HQ. destruct (rep_lookup v s p r H Hr) as [n Hn].
  unfold wp, get_proc. rewrite Hn. apply HQ.
Qed.

(** A change of a process record, links apart, does not disturb the lists. *)
Lemma seg_insert_record ps a l b p r f :
  ps !! p = Some r -> next (f r) = next r ->
  seg ps a l b -> seg (<[p := f r]> ps) a l b.
Proof.
  intros Hp Hn. revert a. induction l as [|j l IH]; intros a H; [done|].
  destruct H as (-> & rj & Hj & H). split; [done|].
  destruct (decide (j = p)) as [->|Hne].
  - simplify_eq. exists (f r). rewrite Hn.
    split; [|by apply IH]. apply list_lookup_insert_eq. by eapply lookup_lt_Some.
  - exists rj. rewrite list_lookup_insert_ne by done. split; [done|]. by apply IH.
Qed.

Lemma lists_ok_record (s : K) Q p r f :
  procs s !! p = Some r -> next (f r) = next r ->
  lists_ok s Q -> lists_ok (s <| procs ::= <[p := f r]> |>) Q.
Proof.
  intros Hp Hn [H1 H2 H3 H4 H5 H6 H7]. split; try done.
  - change (length (<[p := f r]> (procs s)) = NPROC). by rewrite length_insert.
  - intros q v Hv. destruct (H4 q v) as [Hs Ht]; [by destruct q|]. split; [|done].
    by apply seg_insert_record.
Qed.

Lemma link_free_next f r : link_free f -> next (f r) = next r.
Proof.
  intros Hf. replace (f r) with (f (r <| next := next r |>)) by (by destruct r).
  by rewrite Hf.
Qed.

Lemma wp_put_proc v s p r f (Q : unit -> K -> Prop) :
  rep v s -> v_tbl v !! p = Some r -> link_free f ->
  (forall s', rep (a_upd p (f r) v) s' -> Q tt s') ->
  wp P (put_proc p f) s Q.
Proof.
  intros H Hr Hf HQ. destruct (rep_lookup v s p r H Hr) as [n Hn].
  unfold wp, put_proc. rewrite Hn. apply HQ. destruct H as [H1 H2 H3 H4 H5 H6 H7 H8].
  split; try done.
  - apply lists_ok_record; [done|by apply link_free_next|done].
  - unfold a_upd. rec_simpl. rewrite list_fmap_insert, H2. f_equal. rewrite Hf.
    assert (next r = None) as Hnr.
    { rewrite <- H2, list_lookup_fmap, Hn in Hr. injection Hr as <-. done. }
    pose proof (link_free_next f r Hf) as Hfr. rewrite Hnr in Hfr.
    unfold unlinked. destruct (f r). simpl in Hfr. by subst.
Qed.

Lemma wp_get_q v s q (Q : ptrs -> K -> Prop) :
  rep v s -> valid_q q -> (forall x, head x = hd_error (v_q v q) -> Q x s) ->
  wp P (get_q q) s Q.
Proof.
  intros H Hv HQ. destruct (lists_ok_lookup s (v_q v) q (rep_lists v s H) Hv) as (x & Hx & Hq & _).
  unfold wp, get_q. rewrite Hx. apply HQ. destruct (v_q v q); [done|]. by destruct Hq as [-> _].
Qed.

(** The rest of the state may change as long as the view does not see it. *)
Lemma rep_links v Q' s s' :
  rep v s -> links_only s s' -> lists_ok s' Q' -> rep (v <| v_q := Q' |>) s'.
Proof.
  intros [H1 H2 H3 H4 H5 H6 H7 H8] [Ht Hs] Hl.
  split; [done|by change (unlinked <$> procs s' = v_tbl v); rewrite Ht|by rewrite Hs..].
Qed.

Lemma wp_stateListAdd v s q p (Q : unit -> K -> Prop) :
  rep v s -> valid_q q -> (p < NPROC)%nat -> (forall q', p ∉ v_q v q') ->
  (forall s', rep (a_append q p v) s' -> Q tt s') ->
  wp P (stateListAdd q p) s Q.
Proof.
  intros H Hv Hp Hn HQ.
  destruct (stateListAdd_ok s (v_q v) q p (rep_lists v s H) Hv Hp Hn) as (s' & Hs & Hl & Hlk).
  eapply wp_ret_intro; [done|]. apply HQ. apply (rep_links _ _ _ _ H Hlk).
  eapply lists_ok_ext; [|done]. intros q'. unfold upd_q. by destruct (decide (q' = q)) as [->|].
Qed.

Lemma wp_remove_or_panic v s msg q p (Q : unit -> K -> Prop) :
  rep v s -> p ∈ v_q v q ->
  (forall s', rep (a_unlink p v) s' -> Q tt s') ->
  wp P (remove_or_panic msg q p) s Q.
Proof.
  intros H Hp HQ.
  destruct (stateListRemove_ok s (v_q v) q p (rep_lists v s H) Hp) as (s' & Hs & Hl & Hlk).
  apply wp_bind. eapply wp_ret_intro; [done|]. apply wp_ret, HQ.
  apply (rep_links _ _ _ _ H Hlk). eapply lists_ok_ext; [|done].
  intros q'. unfold upd_q. destruct (decide (q' = q)) as [->|Hne]; [done|].
  rewrite list_remove_all_notin; [done|]. intros Hx.
  by apply Hne, (lo_disj _ _ (rep_lists v s H) q' q p).
Qed.

Lemma wp_assertState v s p r st (Q : unit -> K -> Prop) :
  rep v s -> v_tbl v !! p = Some r -> state r = st -> Q tt s ->
  wp P (assertState p st) s Q.
Proof.
  intros H Hr Hst HQ. apply wp_bind. eapply wp_get_proc; [done..|]. intros n.
  rewrite decide_True by done. by apply wp_ret.
Qed.

(** Locks *)

Lemma rep_cpu v s l o p c :
  rep v s -> holds l o p -> curp l = c ->
  rep (v <| v_own := o |> <| v_pt := p |> <| v_cur := c |>) (s <| cpu := l |>).
Proof.
  intros [[? ? ? H4 ? ? ?] H2 H3 H5 H6 H7 H8 H9] Hh Hc. split; try done.
Qed.

Lemma wp_on_cpu v s (m : M L unit) o p c (Q : unit -> K -> Prop) :
  rep v s -> (exists l', m (cpu s) = Ret tt l' /\ holds l' o p /\ curp l' = c) ->
  (forall s', rep (v <| v_own := o |> <| v_pt := p |> <| v_cur := c |>) s' -> Q tt s') ->
  wp P (on_cpu m) s Q.
Proof.
  intros H (l & Hm & Hh & Hc) HQ. unfold wp, on_cpu, lift. rewrite Hm. simpl.
  by apply HQ, rep_cpu.
Qed.

Lemma wp_acquire v s (Q : unit -> K -> Prop) :
  rep v s -> v_pt v = false ->
  (forall s', rep (v <| v_pt := true |>) s' -> Q tt s') ->
  wp P acquire_ptable s Q.
Proof.
  intros H Hp HQ. eapply wp_on_cpu; [done| |].
  - eapply lk_acquire_pt_ok. rewrite <- Hp. apply (rep_holds v s H).
  - intros s' Hs'. apply HQ. rewrite (rep_cur v s H) in Hs'. by destruct v.
Qed.

Lemma wp_release v s (Q : unit -> K -> Prop) :
  rep v s -> v_pt v = true ->
  (forall s', rep (v <| v_pt := false |>) s' -> Q tt s') ->
  wp P release_ptable s Q.
Proof.
  intros H Hp HQ. eapply wp_on_cpu; [done| |].
  - eapply lk_release_pt_ok. rewrite <- Hp. apply (rep_holds v s H).
  - intros s' Hs'. apply HQ. rewrite (rep_cur v s H) in Hs'. by destruct v.
Qed.

Lemma rep_cpu_same v s l :
  rep v s -> holds l (v_own v) (v_pt v) -> curp l = v_cur v -> rep v (s <| cpu := l |>).
Proof.
  intros H Hh Hc. pose proof (rep_cpu v s l _ _ _ H Hh Hc) as Hr. by destruct v.
Qed.

Lemma wp_myproc v s (Q : option nat -> K -> Prop) :
  rep v s -> (forall s', rep v s' -> Q (v_cur v) s') -> wp P myproc s Q.
Proof.
  intros H HQ. destruct (lk_myproc_ok _ _ _ (rep_holds v s H)) as (l & Hm & Hh & Hc).
  unfold wp, myproc, on_cpu, lift. rewrite Hm. simpl. rewrite (rep_cur v s H).
  apply HQ, rep_cpu_same; [done|done|]. rewrite Hc. apply (rep_cur v s H).
Qed.

Lemma wp_acquire_own v s (Q : unit -> K -> Prop) :
  rep v s -> v_own v = false ->
  (forall s', rep (v <| v_own := true |>) s' -> Q tt s') ->
  wp P (on_cpu lk_acquire_own) s Q.
Proof.
  intros H Hp HQ. eapply wp_on_cpu; [done| |].
  - eapply lk_acquire_own_ok. rewrite <- Hp. apply (rep_holds v s H).
  - intros s' Hs'. apply HQ. rewrite (rep_cur v s H) in Hs'. by destruct v.
Qed.

Lemma wp_release_own v s (Q : unit -> K -> Prop) :
  rep v s -> v_own v = true -> v_pt v = true ->
  (forall s', rep (v <| v_own := false |>) s' -> Q tt s') ->
  wp P (on_cpu lk_release_own) s Q.
Proof.
  intros H Ho Hp HQ. eapply wp_on_cpu; [done| |].
  - pose proof (rep_holds v s H) as Hh. rewrite Ho, Hp in Hh. by apply lk_release_own_ok.
  - intros s' Hs'. apply HQ. rewrite (rep_cur v s H) in Hs'. by destruct v; simpl in *; subst.
Qed.

Lemma wp_setproc v s x (Q : unit -> K -> Prop) :
  rep v s -> v_pt v = true ->
  (forall s', rep (v <| v_cur := x |>) s' -> Q tt s') ->
  wp P (on_cpu (lk_setproc x)) s Q.
Proof.
  intros H Hp HQ. eapply wp_on_cpu; [done| |].
  - eapply lk_setproc_ok. rewrite <- Hp. apply (rep_holds v s H).
  - intros s' Hs'. apply HQ. by destruct v; simpl in Hp; subst.
Qed.

(** Scalars *)

Lemma wp_ticks v s (Q : Z -> K -> Prop) :
  rep v s -> Q (v_ticks v) s -> wp P (gets ticks) s Q.
Proof. intros H HQ. apply wp_gets. by rewrite (rep_ticks v s H). Qed.

Lemma wp_nextpid v s (Q : Z -> K -> Prop) :
  rep v s -> Q (v_nextpid v) s -> wp P (gets nextpid) s Q.
Proof. intros H HQ. apply wp_gets. by rewrite (rep_nextpid v s H). Qed.

Lemma wp_set_nextpid v s n (Q : unit -> K -> Prop) :
  rep v s -> (forall s', rep (v <| v_nextpid := n |>) s' -> Q tt s') ->
  wp P (modify (fun s => s <| nextpid := n |>)) s Q.
Proof.
  intros [[? ? ? H4 ? ? ?] H2 H3 H5 H6 H7 H8 H9] HQ. apply wp_modify, HQ. split; try done.
Qed.

Lemma wp_set_init v s i (Q : unit -> K -> Prop) :
  rep v s -> (forall s', rep (v <| v_init := i |>) s' -> Q tt s') ->
  wp P (modify (fun s => s <| initproc := i |>)) s Q.
Proof.
  intros [[? ? ? H4 ? ? ?] H2 H3 H5 H6 H7 H8 H9] HQ. apply wp_modify, HQ. split; try done.
Qed.

Lemma wp_set_prom v s z (Q : unit -> K -> Prop) :
  rep v s -> (forall s', rep (v <| v_prom := z |>) s' -> Q tt s') ->
  wp P (modify (fun s => s <| PromoteAtTime := z |>)) s Q.
Proof.
  intros [[? ? ? H4 ? ? ?] H2 H3 H5 H6 H7 H8 H9] HQ. apply wp_modify, HQ. split; try done.
Qed.

Lemma wp_prom v s (Q : Z -> K -> Prop) :
  rep v s -> Q (v_prom v) s -> wp P (gets PromoteAtTime) s Q.
Proof. intros H HQ. apply wp_gets. by rewrite (rep_prom v s H). Qed.

Lemma wp_initproc v s (Q : option nat -> K -> Prop) :
  rep v s -> Q (v_init v) s -> wp P (gets initproc) s Q.
Proof. intros H HQ. apply wp_gets. by rewrite (rep_init v s H). Qed.

(** The other kernel parts: they change only their own state. *)

Lemma rep_env v s e : rep v s -> rep v (s <| env := e |>).
Proof.
  intros [[? ? ? H4 ? ? ?] H2 H3 H5 H6 H7 H8 H9]. split; try done.
Qed.

Lemma wp_on_env_ret v s {A} (m : M E A) (R : A -> Prop) (Q : A -> K -> Prop) :
  rep v s -> sv_ret m (env s) R -> (forall x, sv_panics x -> tolerated P x) ->
  (forall a s', R a -> rep v s' -> Q a s') ->
  wp P (on_env m) s Q.
Proof.
  intros H Hm HP HQ. unfold wp, on_env, lift. unfold sv_ret, wp in Hm.
  destruct (m (env s)); simpl in *; auto; [|naive_solver].
  apply HQ; [done|]. by apply rep_env.
Qed.

Lemma wp_on_env v s {A} (m : M E A) (Q : A -> K -> Prop) :
  rep v s -> sv_nb m (env s) -> (forall x, sv_panics x -> tolerated P x) ->
  (forall a s', rep v s' -> Q a s') ->
  wp P (on_env m) s Q.
Proof. intros H Hm HP HQ. eapply wp_on_env_ret; [done|done|done|auto]. Qed.

(** A service that may sleep: whatever happens meanwhile keeps [I]. *)
Lemma wp_on_env_blocking {A} (m : M E A) (I : K -> Prop) s (Q : A -> K -> Prop) :
  (forall x, sv_panics x -> tolerated P x) ->
  (forall e s, I s -> I (s <| env := e |>)) ->
  (forall s, I s -> guar P s) -> (forall s1 s2, I s1 -> rely P s1 s2 -> I s2) ->
  I s -> sv_bl m (env s) -> (forall a s', I s' -> Q a s') -> wp P (on_env m) s Q.
Proof.
  intros HP Henv Hg Hr HI Hm HQ. unfold wp, on_env, lift.
  eapply (wpo_olift _ _ _ (Prot sv_panics (fun _ => True) (fun _ _ => True)) I);
    [exact HP|exact Henv|exact Hg| | |exact HI|exact Hm].
  - intros s1 s2 H1 H2. split; [by eapply Hr|done].
  - intros a e s0 H0 _. by apply HQ, Henv.
Qed.

(** ** Idioms of proc.c *)

Lemma wp_leave_state_in v s msg p r (Q : unit -> K -> Prop) :
  rep v s -> v_tbl v !! p = Some r -> p ∈ v_q v (QList (state_num (state r))) ->
  (forall s', rep (detached p r v) s' -> Q tt s') ->
  wp P (leave_state msg p (state r)) s Q.
Proof.
  intros H Hr Hin HQ. apply wp_bind, wp_bind. eapply wp_get_proc; [done..|]. intros n.
  apply wp_ret, wp_bind. rec_simpl. eapply wp_remove_or_panic; [done|done|].
  intros s' Hs'. eapply wp_assertState; [done|done|done|]. apply HQ.
  unfold detached. by rewrite a_upd_id.
Qed.

Lemma wp_leave_state v s msg p r (Q : unit -> K -> Prop) :
  rep v s -> vinv v -> v_tbl v !! p = Some r -> state r <> RUNNABLE ->
  (forall s', rep (detached p r v) s' -> Q tt s') ->
  wp P (leave_state msg p (state r)) s Q.
Proof.
  intros H Hv Hr Hst HQ. eapply wp_leave_state_in; [done|done| |done].
  pose proof (vinv_home v p r Hv Hr) as Hh. unfold home in Hh. by rewrite decide_False in Hh.
Qed.

Lemma detached_lookup v s p r :
  rep (detached p r v) s -> (p < NPROC)%nat -> v_tbl (detached p r v) !! p = Some r.
Proof.
  intros H Hp. apply rep_length in H.
  change (length (<[p := r]> (v_tbl v)) = NPROC) in H. rewrite length_insert in H.
  apply list_lookup_insert_eq. lia.
Qed.

Lemma wp_put_detached v s p r f (Q : unit -> K -> Prop) :
  rep (detached p r v) s -> (p < NPROC)%nat -> link_free f ->
  (forall s', rep (detached p (f r) v) s' -> Q tt s') ->
  wp P (put_proc p f) s Q.
Proof.
  intros H Hp Hf HQ. eapply wp_put_proc; [done|by eapply detached_lookup|done|].
  intros s' Hs'. apply HQ. by rewrite a_upd_detached in Hs'.
Qed.

Lemma wp_add_detached v s p r q (Q : unit -> K -> Prop) :
  rep (detached p r v) s -> (p < NPROC)%nat -> valid_q (home r) -> q = home r ->
  (forall s', rep (a_place p r v) s' -> Q tt s') ->
  wp P (stateListAdd q p) s Q.
Proof.
  intros H Hp Hv -> HQ. eapply wp_stateListAdd; [done|done|done| |done].
  intros q' [_ Hne]%elem_of_list_remove_all. done.
Qed.

Lemma wp_enter_state v s p r st (Q : unit -> K -> Prop) :
  rep (detached p r v) s -> (p < NPROC)%nat -> st <> RUNNABLE ->
  (forall s', rep (a_place p (r <| state := st |>) v) s' -> Q tt s') ->
  wp P (enter_state p st) s Q.
Proof.
  intros H Hp Hst HQ. apply wp_bind. eapply wp_put_detached; [done|done|done|].
  intros s1 H1. apply wp_bind, wp_bind.
  eapply wp_get_proc; [done|by eapply detached_lookup|]. intros n. apply wp_ret. rec_simpl.
  eapply wp_add_detached; [done|done| | |done]; unfold home; rec_simpl;
    rewrite decide_False by done; [|done].
  destruct st; simpl; unfold statecount; lia.
Qed.

Lemma wp_enter_ready v s p r (Q : unit -> K -> Prop) :
  rep (detached p r v) s -> (p < NPROC)%nat -> 0 <= priority r <= Z.of_nat MAXPRIO ->
  (forall s', rep (a_place p (r <| state := RUNNABLE |>) v) s' -> Q tt s') ->
  wp P (enter_ready p) s Q.
Proof.
  intros H Hp Hpr HQ. apply wp_bind. eapply wp_put_detached; [done|done|done|].
  intros s1 H1. apply wp_bind, wp_bind.
  eapply wp_get_proc; [done|by eapply detached_lookup|]. intros n. apply wp_ret. rec_simpl.
  eapply wp_add_detached; [done|done| | |done]; unfold home; rec_simpl;
    rewrite decide_True by done; [|done]. simpl. lia.
Qed.

Lemma wp_holding v s (Q : bool -> K -> Prop) :
  rep v s -> (forall s', rep v s' -> Q (v_pt v) s') -> wp P (on_cpu lk_holding_pt) s Q.
Proof.
  intros H HQ. destruct (lk_holding_pt_ok _ _ _ (rep_holds v s H)) as (l & Hm & Hh & Hc).
  unfold wp, on_cpu, lift. rewrite Hm. simpl.
  apply HQ, rep_cpu_same; [done|done|]. rewrite Hc. apply (rep_cur v s H).
Qed.

Lemma wp_on_cpu_read {A} (m : M L A) s a (Q : A -> K -> Prop) :
  m (cpu s) = Ret a (cpu s) -> Q a s -> wp P (on_cpu m) s Q.
Proof. intros H HQ. unfold wp, on_cpu, lift. rewrite H. simpl. by destruct s. Qed.

(** The checks of [sched] pass; the process is charged and the CPU given up. *)
Lemma wp_sched v s p r (Q : unit -> K -> Prop) :
  rep v s -> v_pt v = true -> v_own v = false -> v_cur v = Some p ->
  v_tbl v !! p = Some r -> state r <> RUNNING ->
  (forall s1, rep (a_upd p (account (v_ticks v) r) v) s1 ->
     guar P s1 /\
     forall s2, rely P s1 s2 -> exists v2, rep v2 s2 /\ v_pt v2 = true /\
       forall s3, rep v2 s3 -> Q tt s3) ->
  wp P sched s Q.
Proof.
  intros H Hpt Hown Hcur Hr Hst HQ.
  apply wp_bind. eapply wp_myproc; [done|]. intros s1 H1. rewrite Hcur.
  apply wp_bind. eapply wp_holding; [done|]. intros s2 H2. rewrite Hpt. cbn [negb].
  pose proof (rep_holds v s2 H2) as Hh. rewrite Hpt, Hown in Hh.
  apply wp_bind. eapply wp_on_cpu_read; [by apply (lk_ncli_ok _ false)|].
  apply wp_bind, wp_ret, wp_bind. eapply wp_get_proc; [done|done|]. intros n.
  rec_simpl. rewrite decide_False by done.
  destruct (lk_eflags_ok _ _ Hh) as (e & He & Hif). destruct (lk_intena_ok _ _ Hh) as (z & Hz).
  apply wp_bind. eapply wp_on_cpu_read; [done|]. rewrite Hif.
  apply wp_bind. eapply wp_on_cpu_read; [done|]. apply wp_bind. eapply wp_ticks; [done|].
  apply wp_bind. eapply wp_put_proc; [done|done|done|].
  intros s3 H3. apply wp_bind. destruct (HQ s3 H3) as [HG HR].
  apply wp_swtch; [done|]. intros s4 H4. destruct (HR s4 H4) as (v4 & Hr4 & Hpt4 & HQ4).
  pose proof (rep_holds v4 s4 Hr4) as Hh4. rewrite Hpt4 in Hh4.
  destruct (lk_set_intena_ok _ _ z Hh4) as (l5 & Hl5 & Hh5 & Hc5).
  unfold wp, on_cpu, lift. rewrite Hl5. simpl. apply HQ4.
  apply rep_cpu_same; [done|by rewrite Hpt4|]. rewrite Hc5. apply (rep_cur v4 s4 Hr4).
Qed.

(** ** Traversals *)

(** The link of [i] leads to the head of [l]. *)
Definition linked (s : K) (i : nat) (l : list nat) : Prop :=
  exists r, procs s !! i = Some r /\ next r = hd_error l.

Lemma rep_linked v s q k i l : rep v s -> valid_q q -> v_q v q = k ++ i :: l -> linked s i l.
Proof.
  intros H Hv Hq. destruct (lists_ok_lookup s (v_q v) q (rep_lists v s H) Hv) as (x & _ & Hs & _).
  rewrite Hq in Hs. apply seg_app in Hs as (c & _ & _ & r & Hr & Hs). exists r. split; [done|].
  destruct l as [|j l]; [done|]. by destruct Hs as [-> _].
Qed.

(** [I l] is the invariant with the processes [l] still to visit. *)
Lemma wp_walk (body : nat -> M K unit) (I : list nat -> K -> Prop) l s (Q : unit -> K -> Prop) :
  (forall i l s, I (i :: l) s ->
     linked s i l /\ wp P (body i) s (fun _ s' => I l s')) ->
  I l s -> (length l <= NPROC)%nat -> (forall s', I [] s' -> Q tt s') ->
  wp P (walk body (hd_error l)) s Q.
Proof.
  intros Hstep HI Hlen HQ. unfold walk.
  assert (Hf : (length l < list_fuel)%nat) by (unfold list_fuel; lia). clear Hlen.
  revert Hf. generalize list_fuel as fuel. intros fuel Hf. revert l s HI Hf.
  induction fuel as [|fuel IH]; intros l s HI Hf; [lia|]. cbn [mwhile]. apply wp_bind.
  destruct l as [|i l]; cbn [hd_error walk_step].
  - by apply wp_ret, wp_ret, HQ.
  - destruct (Hstep i l s HI) as [(r & Hr & Hn) Hb]. apply wp_bind.
    eapply wp_ret_intro; [unfold get_proc; by rewrite Hr|]. apply wp_bind.
    eapply wp_mono; [exact Hb|]. intros [] s' HI'. apply wp_ret. rewrite Hn.
    apply IH; [done|]. simpl in Hf. lia.
Qed.

Lemma wp_walk_post (body : nat -> M K unit) (I : list nat -> K -> Prop) l s (Q : unit -> K -> Prop) :
  (forall i l s, I (i :: l) s -> wp P (body i) s (fun _ s' => linked s' i l /\ I l s')) ->
  I l s -> (length l <= NPROC)%nat -> (forall s', I [] s' -> Q tt s') ->
  wp P (walk_post body (hd_error l)) s Q.
Proof.
  intros Hstep HI Hlen HQ. unfold walk_post.
  assert (Hf : (length l < list_fuel)%nat) by (unfold list_fuel; lia). clear Hlen.
  revert Hf. generalize list_fuel as fuel. intros fuel Hf. revert l s HI Hf.
  induction fuel as [|fuel IH]; intros l s HI Hf; [lia|]. cbn [mwhile]. apply wp_bind.
  destruct l as [|i l]; cbn [hd_error walk_post_step].
  - by apply wp_ret, wp_ret, HQ.
  - apply wp_bind. eapply wp_mono; [by apply Hstep|]. intros [] s' [(r & Hr & Hn) HI'].
    apply wp_bind. eapply wp_ret_intro; [unfold get_proc; by rewrite Hr|].
    apply wp_ret. rewrite Hn. apply IH; [done|]. simpl in Hf. lia.
Qed.

(** Searching a list leaves the state alone and finds the first match. *)
Lemma find_in_suffix v s q k l f :
  rep v s -> valid_q q -> v_q v q = k ++ l -> (forall r n, f (r <| next := n |>) = f r) ->
  forall fuel, (length l < fuel)%nat ->
  mwhile fuel (find_in_step f) (hd_error l) s = Ret (first_in (v_tbl v) f l) s.
Proof.
  intros H Hv Hq Hf fuel. revert k l Hq.
  induction fuel as [|fuel IH]; intros k l Hq Hlen; [lia|].
  destruct l as [|i l]; [done|]. cbn [mwhile hd_error find_in_step first_in].
  destruct (rep_linked v s q k i l H Hv Hq) as (r & Hr & Hn).
  assert (Ht : v_tbl v !! i = Some (unlinked r)).
  { rewrite <- (rep_tbl v s H), list_lookup_fmap, Hr. done. }
  unfold bind, get_proc. rewrite Hr, Ht. cbn [obind]. unfold unlinked. rewrite Hf.
  destruct (f r); [done|]. cbn [obind ret]. rewrite Hn.
  apply (IH (k ++ [i])); [by rewrite <- app_assoc|]. simpl in Hlen. lia.
Qed.

Lemma wp_find_in v s q f (Q : option nat -> K -> Prop) x :
  rep v s -> valid_q q -> head x = hd_error (v_q v q) ->
  (forall r n, f (r <| next := n |>) = f r) ->
  Q (first_in (v_tbl v) f (v_q v q)) s ->
  wp P (find_in f (head x)) s Q.
Proof.
  intros H Hv Hx Hf HQ. eapply wp_ret_intro; [|exact HQ]. rewrite Hx.
  eapply (find_in_suffix v s q []); [done|done|done|done|].
  pose proof (lists_ok_length s (v_q v) q (rep_lists v s H)). unfold list_fuel. lia.
Qed.

Lemma wp_check_runnable_empty v s msg (Q : unit -> K -> Prop) :
  rep v s -> vinv v -> Q tt s -> wp P (check_runnable_empty msg) s Q.
Proof.
  intros H Hv HQ. apply wp_bind. eapply wp_get_q; [done|simpl; unfold statecount; lia|].
  intros x Hx. rewrite vinv_runnable_empty in Hx by done. rewrite Hx. by apply wp_ret.
Qed.

(** *** Searches

    A loop whose body looks for a process in the lists [qs a] and leaves the
    loop on the first one. *)
Lemma wp_mfor_first {A B} (l : list A) (body : A -> M K (option B)) (qs : A -> list nat) T f s
    (Q : option B -> K -> Prop) :
  (forall a i, a ∈ l -> i ∈ qs a -> is_Some (T !! i)) ->
  (forall a, a ∈ l ->
     match first_in T f (qs a) with
     | None => wp P (body a) s (fun o s' => o = None /\ s' = s)
     | Some p => first_in T f (l ≫= qs) = Some p ->
         wp P (body a) s (fun o s' => exists b, o = Some b /\ Q o s')
     end) ->
  (first_in T f (l ≫= qs) = None -> Q None s) ->
  wp P (mfor l body) s Q.
Proof.
  induction l as [|a l IH]; intros Hdom Hb HN; [by apply wp_ret, HN|].
  assert (Ha := Hb a ltac:(set_solver)).
  assert (Hfst : first_in T f ((a :: l) ≫= qs) =
    match first_in T f (qs a) with Some p => Some p | None => first_in T f (l ≫= qs) end).
  { cbn [mbind list_bind]. rewrite first_in_app; [done|]. intros i Hi. eapply Hdom; [|done]. set_solver. }
  cbn [mfor]. apply wp_bind. rewrite Hfst in HN, Ha.
  destruct (first_in T f (qs a)) as [p|] eqn:Hp.
  - eapply wp_mono; [by apply Ha|]. intros o s' (b & -> & HQ). by apply wp_ret.
  - eapply wp_mono; [apply Ha|]. intros o s' [-> ->]. apply IH; [set_solver| |done].
    intros a' Ha'. specialize (Hb a' ltac:(set_solver)). destruct (first_in T f (qs a')); [|done].
    intros Hp'. apply Hb. by rewrite Hfst.
Qed.

Lemma state_q_valid i : (i < statecount)%nat -> valid_q (QList i).
Proof. done. Qed.
Lemma prio_q_valid j : j ∈ prios_down -> valid_q (QReady j).
Proof.
  unfold prios_down. rewrite list_elem_of_In, <- in_rev, in_seq. simpl. lia.
Qed.

Lemma wp_search_one {B} v s q f (hit : nat -> M K (option B)) (Q : option B -> K -> Prop) :
  rep v s -> valid_q q -> (forall r n, f (r <| next := n |>) = f r) ->
  match first_in (v_tbl v) f (v_q v q) with
  | None => Q None s
  | Some p => wp P (hit p) s Q
  end ->
  wp P (l <- get_q q ;; o <- find_in f (head l) ;;
        match o with None => ret None | Some p => hit p end) s Q.
Proof.
  intros H Hv Hf HQ. apply wp_bind. eapply wp_get_q; [done|done|]. intros x Hx.
  apply wp_bind. eapply wp_find_in; [done|done|done|done|].
  by destruct (first_in (v_tbl v) f (v_q v q)).
Qed.

(** The search for a process over the lists of the states [sts], as [kill],
    [setpriority] and [getpriority] do it. *)
Lemma wp_search {B} sts msg f (hitR hitL : nat -> nat -> M K (option B)) v s
    (Q : option B -> K -> Prop) :
  rep v s -> vinv v -> Forall (fun i => (i < statecount)%nat) sts ->
  (forall r n, f (r <| next := n |>) = f r) ->
  (forall p r j, first_in (v_tbl v) f (visited v sts) = Some p -> v_tbl v !! p = Some r ->
     f r = true -> state r = RUNNABLE -> priority r = Z.of_nat j ->
     wp P (hitR j p) s (fun o s' => exists b, o = Some b /\ Q o s')) ->
  (forall p r, first_in (v_tbl v) f (visited v sts) = Some p -> v_tbl v !! p = Some r ->
     f r = true -> state r <> RUNNABLE ->
     wp P (hitL (state_num (state r)) p) s (fun o s' => exists b, o = Some b /\ Q o s')) ->
  (first_in (v_tbl v) f (visited v sts) = None -> Q None s) ->
  wp P (mfor sts (fun i =>
    if decide (i = state_num RUNNABLE) then
      check_runnable_empty msg ;;;
      mfor prios_down (fun j =>
        l <- get_q (QReady j) ;;
        o <- find_in f (head l) ;;
        match o with None => ret None | Some p => hitR j p end)
    else
      l <- get_q (QList i) ;;
      o <- find_in f (head l) ;;
      match o with None => ret None | Some p => hitL i p end)) s Q.
Proof.
  intros H Hv Hsts Hf HR HL HN.
  assert (Hdom : forall q i, i ∈ v_q v q -> is_Some (v_tbl v !! i)).
  { intros q i (r & Hr & _)%(vi_placed v Hv). eauto. }
  eapply (wp_mfor_first sts _ (visited_at v) (v_tbl v) f); [| |done].
  { intros a i _. unfold visited_at. case_decide; [|apply Hdom].
    intros (j & Hi & _)%list_elem_of_bind. by eapply Hdom. }
  intros i Hi. rewrite Forall_forall in Hsts. specialize (Hsts i Hi). fold (visited v sts).
  unfold visited_at. case_decide as Hrun.
  - destruct (first_in (v_tbl v) f (prios_down ≫= _)) as [p|] eqn:Hp; [intros Hvis|];
      apply wp_bind; (eapply wp_check_runnable_empty; [done|done|]);
      (eapply (wp_mfor_first prios_down _ (fun j => v_q v (QReady j)) (v_tbl v) f);
        [intros j k _; apply Hdom| |]).
    + intros j Hj. destruct (first_in (v_tbl v) f (v_q v (QReady j))) as [p'|] eqn:Hp'.
      * intros Hp2. eapply wp_search_one; [done|by apply prio_q_valid|done|]. rewrite Hp'.
        apply first_in_Some in Hp' as (Hq & r & Hr & Hfr).
        destruct (vinv_q_ready v j p' Hv Hq) as (r' & Hr' & Hst & Hpr). simplify_eq.
        eapply wp_mono; [by eapply HR|]. intros o s' (b & -> & HQ). eauto.
      * eapply wp_search_one; [done|by apply prio_q_valid|done|]. by rewrite Hp'.
    + intros Hn. congruence.
    + intros j Hj. destruct (first_in (v_tbl v) f (v_q v (QReady j))) as [p'|] eqn:Hp'.
      * intros Hp2. congruence.
      * eapply wp_search_one; [done|by apply prio_q_valid|done|]. by rewrite Hp'.
    + done.
  - destruct (first_in (v_tbl v) f (v_q v (QList i))) as [p|] eqn:Hp; [intros Hvis|];
      (eapply wp_search_one; [done|done|done|]); rewrite Hp; [|done].
    apply first_in_Some in Hp as ((r' & Hr' & Hh)%(vi_placed v Hv) & r & Hr & Hfr). simplify_eq.
    unfold home in Hh. case_decide as Hst; [done|]. injection Hh as <-. by apply HL.
Qed.

(** A traversal that changes the processes of one list in place. *)
Lemma wp_walk_map v s q g (body : nat -> M K unit) x (Q : unit -> K -> Prop) :
  rep v s -> vinv v -> valid_q q -> head x = hd_error (v_q v q) ->
  (forall i r s1 v1 (R : unit -> K -> Prop), i ∈ v_q v q -> v_tbl v !! i = Some r ->
     rep v1 s1 -> v_tbl v1 !! i = Some r -> v_init v1 = v_init v ->
     (forall s2, rep (a_upd i (g r) v1) s2 -> R tt s2) -> wp P (body i) s1 R) ->
  (forall s', rep (a_map g (v_q v q) v) s' -> Q tt s') ->
  wp P (walk_post body (head x)) s Q.
Proof.
  intros H Hv Hq Hx Hb HQ. rewrite Hx.
  apply wp_walk_post with (I := fun l s => exists d, v_q v q = d ++ l /\ rep (a_map g d v) s).
  - intros i l s1 (d & Hd & H1). assert (Hi : i ∈ v_q v q) by (rewrite Hd; set_solver).
    pose proof (vi_nodup v Hv q) as Hnd. rewrite Hd in Hnd. apply NoDup_middle in Hnd as [Hid _].
    pose proof Hi as (r & Hr & _)%(vi_placed v Hv).
    assert (Hr1 : v_tbl (a_map g d v) !! i = Some r).
    { rewrite a_map_lookup, Hr. simpl. by rewrite bool_decide_eq_false_2. }
    eapply Hb; [done|done|done|done|done|]. intros s2 H2. rewrite <- a_map_snoc in H2 by done.
    split; [by eapply (rep_linked _ _ q d)|].
    exists (d ++ [i]). split; [by rewrite <- app_assoc|done].
  - exists []. split; [done|]. by rewrite a_map_nil.
  - by apply vinv_q_length.
  - intros s' (d & Hd & H1). rewrite app_nil_r in Hd. subst d. by apply HQ.
Qed.

End rules.

End rep.
