(* ===== verification/ProcWake.v ===== *)
(** * Waking up

    [wakeup1] implements [a_wakeup]: every process that sleeps on the channel
    becomes RUNNABLE, and is queued, in the order of the sleep list, at the end
    of the ready queue of its priority. *)

From S2P Require Import Prelude Params Spinlock ProcDefs StateList Proc ProcInv.

(** ** Specification *)

Definition wakeable (ch : chan) (r : proc) : bool :=
  bool_decide (state r = SLEEPING) && bool_decide (chan_of_proc r = ch).
Definition wake (ch : chan) (r : proc) : proc :=
  if wakeable ch r then r <| state := RUNNABLE |> else r.

(** The processes to wake, and where they go. *)
Definition woken (T : list proc) (ch : chan) (i : nat) : bool :=
  match T !! i with Some r => wakeable ch r | None => false end.
Definition goes_to (T : list proc) (i : nat) : qref :=
  match T !! i with
  | Some r => home (r <| state := RUNNABLE |>)
  | None => QList 0
  end.

Definition sleepers (v : view) : list nat := v_q v (QList (state_num SLEEPING)).

(** Wake the processes among [d]. *)
Definition a_wake_of (ch : chan) (d : list nat) (v : view) : view :=
  let T := v_tbl v in
  v <| v_tbl := imap (fun i r => if bool_decide (i ∈ d) then wake ch r else r) T |>
    <| v_q := fun q =>
         filter (fun i => ~ (i ∈ d /\ woken T ch i = true)) (v_q v q) ++
         filter (fun i => woken T ch i = true /\ goes_to T i = q) d |>.

Definition a_wakeup (ch : chan) (v : view) : view :=
  let T := v_tbl v in
  v <| v_tbl := wake ch <$> T |>
    <| v_q := fun q =>
         filter (fun i => woken T ch i = false) (v_q v q) ++
         filter (fun i => woken T ch i = true /\ goes_to T i = q) (sleepers v) |>.

(** ** Stepwise *)

Lemma a_wake_of_nil ch v : veq (a_wake_of ch [] v) v.
Proof.
  apply veq_intro.
  - intros q. unfold a_wake_of. rec_simpl. rewrite filter_nil, app_nil_r.
    apply filter_id. set_solver.
  - unfold a_wake_of. destruct v as [T Q p n i t o pt c]. unfold upd. simpl. f_equal.
    apply list_eq. intros k. rewrite list_lookup_imap. by destruct (T !! k).
Qed.

Lemma a_wake_of_lookup ch d v i r :
  i ∉ d -> v_tbl v !! i = Some r -> v_tbl (a_wake_of ch d v) !! i = Some r.
Proof.
  intros Hi Hr. unfold a_wake_of. rec_simpl. rewrite list_lookup_imap, Hr. simpl.
  by rewrite bool_decide_eq_false_2.
Qed.

(** The table after one more process was looked at. *)
Lemma imap_wake_snoc ch d (T : list proc) i r :
  i ∉ d -> T !! i = Some r ->
  imap (fun k rk => if bool_decide (k ∈ d ++ [i]) then wake ch rk else rk) T =
  <[i := wake ch r]> (imap (fun k rk => if bool_decide (k ∈ d) then wake ch rk else rk) T).
Proof.
  intros Hi Hr. apply list_eq. intros k. destruct (decide (k = i)) as [->|Hne].
  - rewrite list_lookup_insert_eq.
    + rewrite list_lookup_imap, Hr. simpl. by rewrite bool_decide_eq_true_2 by set_solver.
    + rewrite length_imap. by eapply lookup_lt_Some.
  - rewrite list_lookup_insert_ne, !list_lookup_imap by done.
    destruct (T !! k) as [rk|]; [|done]. simpl. do 2 f_equal.
    by rewrite (bool_decide_ext (k ∈ d ++ [i]) (k ∈ d)) by set_solver.
Qed.

(** One more process looked at: it is woken, or stays. *)
Lemma a_wake_of_stay ch d v i r :
  i ∉ d -> v_tbl v !! i = Some r -> wakeable ch r = false ->
  veq (a_wake_of ch (d ++ [i]) v) (a_wake_of ch d v).
Proof.
  intros Hi Hr Hw. assert (Hwi : woken (v_tbl v) ch i = false) by (unfold woken; by rewrite Hr).
  apply veq_intro.
  - intros q. unfold a_wake_of. rec_simpl. rewrite filter_app, (filter_cons_False _ i []) by (intros [Hx _]; congruence).
    rewrite filter_nil, app_nil_r. f_equal. apply filter_ext_in. intros j _.
    rewrite elem_of_app, list_elem_of_singleton.
    destruct (decide (j = i)) as [->|]; [rewrite Hwi|]; intuition congruence.
  - unfold a_wake_of. rewrite (imap_wake_snoc ch d (v_tbl v) i r) by done.
    destruct v as [T Q p n i0 t o pt c]. unfold upd. simpl in *. f_equal.
    assert (wake ch r = r) as -> by (unfold wake; by rewrite Hw). apply list_insert_id.
    rewrite list_lookup_imap, Hr. simpl. by rewrite bool_decide_eq_false_2.
Qed.

Lemma a_wake_of_wake ch d v i r :
  i ∉ d -> v_tbl v !! i = Some r -> wakeable ch r = true ->
  veq (a_wake_of ch (d ++ [i]) v) (a_place i (r <| state := RUNNABLE |>) (a_wake_of ch d v)).
Proof.
  intros Hi Hr Hw. assert (Hwi : woken (v_tbl v) ch i = true) by (unfold woken; by rewrite Hr).
  assert (Hg : goes_to (v_tbl v) i = home (r <| state := RUNNABLE |>)) by (unfold goes_to; by rewrite Hr).
  apply veq_intro.
  - intros q. unfold a_place, a_append, a_unlink, a_upd. rec_simpl. rewrite <- Hg.
    unfold a_wake_of. rec_simpl. unfold list_remove_all. rewrite !filter_app, !list_filter_filter.
    set (A := filter _ (v_q v q)). set (B := filter _ d). set (C := filter _ [i]).
    set (A' := filter _ (v_q v q)). set (B' := filter _ d).
    assert (A = A') as ->.
    { apply filter_ext_in. intros j _. rewrite elem_of_app, list_elem_of_singleton.
      destruct (decide (j = i)) as [->|]; intuition congruence. }
    assert (B = B') as -> by (apply filter_ext_in; intros j Hj; set_solver).
    unfold C. rewrite app_assoc. case_decide as Hq.
    + rewrite filter_cons_True, filter_nil by done. done.
    + rewrite filter_cons_False, filter_nil by (intros [_ Hx]; congruence). by rewrite app_nil_r.
  - unfold a_wake_of. rewrite (imap_wake_snoc ch d (v_tbl v) i r) by done.
    by assert (wake ch r = r <| state := RUNNABLE |>) as -> by (unfold wake; by rewrite Hw).
Qed.

Lemma sleeper v i :
  vinv v -> i ∈ sleepers v <-> exists r, v_tbl v !! i = Some r /\ state r = SLEEPING.
Proof.
  intros H. split.
  - intros (r & Hr & Hs & _)%(vinv_q_state v SLEEPING i H). eauto.
  - intros (r & Hr & Hs). apply (vi_placed v H). exists r. split; [done|].
    unfold home. by rewrite Hs.
Qed.

(** All sleepers looked at. *)
Lemma a_wake_of_all ch v : vinv v -> veq (a_wake_of ch (sleepers v) v) (a_wakeup ch v).
Proof.
  intros H. assert (Hw : forall i, woken (v_tbl v) ch i = true -> i ∈ sleepers v).
  { intros i. rewrite (sleeper v i H). unfold woken, wakeable.
    destruct (v_tbl v !! i) as [r|]; [|done]. intros [Hs _]%andb_true_iff.
    apply bool_decide_eq_true_1 in Hs. eauto. }
  apply veq_intro.
  - intros q. unfold a_wake_of, a_wakeup. rec_simpl. f_equal. apply filter_ext_in. intros j _.
    specialize (Hw j). destruct (woken (v_tbl v) ch j); intuition congruence.
  - unfold a_wake_of, a_wakeup, sleepers in *. destruct v as [T Q p n i0 t o pt c]. unfold upd. simpl in *.
    f_equal. apply list_eq. intros k. rewrite list_lookup_imap, list_lookup_fmap.
    destruct (T !! k) as [rk|] eqn:Hk; [|done]. simpl. f_equal. case_bool_decide as Hin; [done|].
    unfold wake. destruct (wakeable ch rk) eqn:Hwk; [|done]. destruct Hin. apply Hw.
    unfold woken. by rewrite Hk.
Qed.

(** Waking one process keeps the invariant. *)
Lemma vinv_ready v i r :
  vinv v -> v_tbl v !! i = Some r -> vinv (a_place i (r <| state := RUNNABLE |>) v).
Proof.
  intros H Hr. eapply vinv_move; [done|done| |by apply (vi_wf v H i r)|done..].
  right. by left.
Qed.

#[export] Instance a_place_proper p r : Proper (veq ==> veq) (a_place p r).
Proof.
  intros v v' [Hq <-]. apply veq_intro; [|done]. intros q.
  unfold a_place, a_append, a_unlink, a_upd. rec_simpl. by rewrite Hq.
Qed.

(** What is left of the sleep list ends with the processes still to visit. *)
Lemma wake_suffix ch d l v v1 :
  vinv v -> sleepers v = d ++ l -> veq (a_wake_of ch d v) v1 ->
  exists k, sleepers v1 = k ++ l.
Proof.
  intros Hv Hd [Hq _]. unfold sleepers in *. rewrite <- Hq. unfold a_wake_of. rec_simpl.
  pose proof (vi_nodup v Hv (QList (state_num SLEEPING))) as Hnd. rewrite Hd in Hnd |- *.
  apply NoDup_app in Hnd as (_ & Hdis & _).
  set (A := filter _ (d ++ l)). set (B := filter _ d). assert (B = []) as ->.
  { apply filter_none. intros j _ [_ Hg]. unfold goes_to in Hg. destruct (v_tbl v !! j); [|done].
    unfold home in Hg. rec_simpl_in Hg. by rewrite decide_True in Hg. }
  unfold A. rewrite app_nil_r, filter_app, (filter_id _ l); [eauto|].
  intros j Hj [Hjd _]. by apply (Hdis j).
Qed.

(** ** The loop *)

Section wakeup.
Context {L E : Type} `{CL : CpuLock L} `{SV : ProcServices E}.
Abbreviation K := (kst L E).
Context (P : prot K).

Lemma wp_wakeup1 v s ch (Q : unit -> K -> Prop) :
  rep v s -> vinv v ->
  (forall s', rep (a_wakeup ch v) s' -> vinv (a_wakeup ch v) -> Q tt s') ->
  wp P (wakeup1 ch) s Q.
Proof.
  intros H Hv HQ. apply wp_bind. eapply wp_get_q; [done|simpl; unfold statecount; lia|].
  intros x Hx. rewrite Hx. fold (sleepers v).
  apply wp_walk with (I := fun l s => exists d v1, sleepers v = d ++ l /\
    veq (a_wake_of ch d v) v1 /\ vinv v1 /\ rep v1 s).
  - intros i l s1 (d & v1 & Hd & Heq & Hv1 & H1).
    pose proof (vi_nodup v Hv (QList (state_num SLEEPING))) as Hnd. fold (sleepers v) in Hnd.
    assert (Hi : i ∈ sleepers v) by (rewrite Hd; set_solver).
    rewrite Hd in Hnd. apply NoDup_middle in Hnd as [Hid _].
    apply (sleeper v i Hv) in Hi as (r & Hr & Hst).
    assert (Hr1 : v_tbl v1 !! i = Some r).
    { destruct Heq as [_ <-]. by apply (a_wake_of_lookup ch d v). }
    split.
    + destruct (wake_suffix ch d (i :: l) v v1 Hv Hd Heq) as [k Hk].
      eapply rep_linked; [done| |exact Hk]. simpl; unfold statecount; lia.
    + apply wp_bind. eapply wp_get_proc; [done|done|]. intros n. rec_simpl.
      destruct (wakeable ch r) eqn:Hw; pose proof Hw as Hw'; unfold wakeable in Hw';
        rewrite Hst, bool_decide_eq_true_2 in Hw' by done; cbn [andb] in Hw'; rewrite Hw'.
      * apply wp_bind. rewrite <- Hst. eapply wp_leave_state; [done|done|done|by rewrite Hst|].
        intros s2 H2. eapply wp_enter_ready; [done|by eapply (rep_lt v1 s1)|by apply (vi_wf v1 Hv1 i r)|].
        intros s3 H3. exists (d ++ [i]), (a_place i (r <| state := RUNNABLE |>) v1).
        split_and!; [by rewrite <- app_assoc| |by apply vinv_ready|done].
        rewrite a_wake_of_wake by done. by apply a_place_proper.
      * apply wp_ret. exists (d ++ [i]), v1. split_and!; [by rewrite <- app_assoc| |done|done].
        by rewrite a_wake_of_stay.
  - exists [], v. split_and!; [done|apply a_wake_of_nil|done|done].
  - by apply vinv_q_length.
  - intros s' (d & v1 & Hd & Heq & Hv1 & H1). rewrite app_nil_r in Hd. subst d.
    rewrite a_wake_of_all in Heq by done. rewrite <- Heq in Hv1, H1. by apply HQ.
Qed.
End wakeup.
