(* ===== verification/ProcOps.v ===== *)
(** * kill, setpriority, getpriority, yield, sleep

    Each operation refines a function on views. *)

From S2P Require Import Prelude Params Spinlock ProcDefs StateList Proc ProcInv ProcWake.

(** ** Specifications *)

Definition search (sts : list nat) (n : Z) (v : view) : option nat :=
  first_in (v_tbl v) (has_pid n) (visited v sts).

(** [kill]: the process is marked; if it sleeps, it becomes RUNNABLE. *)
Definition kill_rec (r : proc) : proc :=
  if decide (state r = SLEEPING) then r <| killed := 1 |> <| state := RUNNABLE |>
  else r <| killed := 1 |>.
Definition a_kill (n : Z) (v : view) : Z * view :=
  match search live_states n v with
  | None => (-1, v)
  | Some p =>
      match v_tbl v !! p with
      | None => (-1, v)
      | Some r => (0, if decide (state r = SLEEPING) then a_place p (kill_rec r) v
                      else a_upd p (kill_rec r) v)
      end
  end.

(** [setpriority]: sleeping, runnable and running processes; a change of
    priority refills the budget and requeues a runnable process. *)
Definition prio_states : list nat := [state_num SLEEPING; state_num RUNNABLE; state_num RUNNING].
Definition prio_rec (prio : Z) (r : proc) : proc :=
  r <| priority := prio |> <| budget := BUDGET |>.
Definition a_setprio (p : nat) (r : proc) (prio : Z) (v : view) : view :=
  if priority r =? prio then v
  else if decide (state r = RUNNABLE) then a_place p (prio_rec prio r) v
  else a_upd p (prio_rec prio r) v.
Definition bad_pid (n : Z) : bool := (n <? 0) || (32767 <? n).
Definition bad_prio (prio : Z) : bool := (prio <? 0) || (Z.of_nat MAXPRIO <? prio).
Definition a_setpriority (n prio : Z) (v : view) : Z * view :=
  if bad_pid n || bad_prio prio then (RETURN_FAILURE, v)
  else match search prio_states n v with
       | None => (RETURN_FAILURE, v)
       | Some p => match v_tbl v !! p with
                   | None => (RETURN_FAILURE, v)
                   | Some r => (RETURN_SUCCESS, a_setprio p r prio v)
                   end
       end.

(** [getpriority] also knows zombies. *)
Definition a_getpriority (n : Z) (v : view) : Z :=
  if bad_pid n then RETURN_FAILURE
  else match search (seq (state_num SLEEPING) 4) n v ≫= (fun p => v_tbl v !! p) with
       | None => RETURN_FAILURE
       | Some r => s32 (priority r)
       end.

(** [yield] and [sleep] up to the switch. *)
Definition yield_rec (t : Z) (r : proc) : proc :=
  account t ((charge t r) <| state := RUNNABLE |>).
Definition a_yield (p : nat) (r : proc) (v : view) : view :=
  a_place p (yield_rec (v_ticks v) r) v.
Definition sleep_rec (ch : chan) (t : Z) (r : proc) : proc :=
  account t (charge t (r <| chan_of_proc := ch |> <| state := SLEEPING |>)).
Definition a_sleep (ch : chan) (p : nat) (r : proc) (v : view) : view :=
  a_place p (sleep_rec ch (v_ticks v) r) v.

(** The locks around [sleep]. *)
Definition lk_pre (lk : lkref) (v : view) : Prop :=
  v_pt v = (if lk is LkPtable then true else false) /\
  v_own v = (if lk is LkOwn then true else false).
Definition lk_post (lk : lkref) (v : view) : view :=
  v <| v_pt := if lk is LkPtable then true else false |>
    <| v_own := if lk is LkOwn then true else false |>.

(** Demotion: one level, and the budget is refilled. *)
Lemma charge_spec t r :
  let spent := s32 (budget r - u32 (t - cpu_ticks_in r)) in
  state (charge t r) = state r /\ parent (charge t r) = parent r /\
  ofile (charge t r) = ofile r /\ name (charge t r) = name r /\
  (0 < spent -> priority (charge t r) = priority r /\ budget (charge t r) = spent) /\
  (spent <= 0 -> priority (charge t r) = (if 0 <? priority r then priority r - 1 else priority r) /\
     budget (charge t r) = BUDGET).
Proof.
  intros spent. unfold charge. fold spent. destruct (Z.leb_spec spent 0); [|split_and!; try done; lia].
  destruct (0 <? priority r); split_and!; try done; lia.
Qed.

Lemma charge_link_free t : link_free (charge t).
Proof.
  intros r n. unfold charge. rec_simpl. case_match; [|done]. by case_match.
Qed.

Lemma charge_prio t r :
  0 <= priority r <= Z.of_nat MAXPRIO -> 0 <= priority (charge t r) <= Z.of_nat MAXPRIO.
Proof.
  intros Hr. destruct (charge_spec t r) as (_ & _ & _ & _ & H1 & H2).
  destruct (Z.le_gt_cases (s32 (budget r - u32 (t - cpu_ticks_in r))) 0) as [H|H].
  - destruct (H2 H) as [-> _]. destruct (Z.ltb_spec 0 (priority r)); lia.
  - by destruct (H1 H) as [-> _].
Qed.

Lemma kill_rec_state r :
  state (kill_rec r) = if decide (state r = SLEEPING) then RUNNABLE else state r.
Proof. unfold kill_rec. by case_decide. Qed.

Lemma vinv_kill v p r :
  vinv v -> v_tbl v !! p = Some r ->
  vinv (if decide (state r = SLEEPING) then a_place p (kill_rec r) v else a_upd p (kill_rec r) v).
Proof.
  intros H Hr. unfold kill_rec. case_decide as Hst.
  - eapply vinv_move; [done|done| |by apply (vi_wf v H p r)|done..]. right. by left.
  - by eapply vinv_touch.
Qed.

Lemma a_kill_hit n v p r :
  search live_states n v = Some p -> v_tbl v !! p = Some r ->
  a_kill n v = (0, if decide (state r = SLEEPING) then a_place p (kill_rec r) v
                   else a_upd p (kill_rec r) v).
Proof. intros Hs Hr. unfold a_kill. by rewrite Hs, Hr. Qed.

Lemma vinv_setprio v p r prio :
  vinv v -> v_tbl v !! p = Some r -> bad_prio prio = false -> vinv (a_setprio p r prio v).
Proof.
  intros H Hr Hb. unfold bad_prio in Hb. apply orb_false_iff in Hb as [Hb1 Hb2].
  unfold a_setprio. destruct (priority r =? prio); [done|].
  destruct (vi_wf v H p r Hr) as [W1 W2 W3 W4 W5]. assert (Hp : 0 <= prio <= Z.of_nat MAXPRIO) by lia.
  case_decide as Hst.
  - eapply vinv_move; [done|done| |done..]. right. by left.
  - eapply vinv_upd; [done|done| |unfold home, prio_rec; rec_simpl; by rewrite !decide_False].
    eapply ok_change_keep; [done|done|by split|done|].
    destruct (decide (alive r)); [by left|]. right. by apply (vinv_unref v p r).
Qed.

Lemma a_setpriority_hit n prio v p r :
  bad_pid n = false -> bad_prio prio = false -> search prio_states n v = Some p ->
  v_tbl v !! p = Some r -> a_setpriority n prio v = (RETURN_SUCCESS, a_setprio p r prio v).
Proof. intros H1 H2 Hs Hr. unfold a_setpriority. by rewrite H1, H2, Hs, Hr. Qed.

Section ops.
Context {L E : Type} `{CL : CpuLock L} `{SV : ProcServices E}.
Abbreviation K := (kst L E).
Context (P : prot K).

Lemma live_states_lt : Forall (fun i => (i < statecount)%nat) live_states.
Proof. by apply (bool_decide_unpack _). Qed.

Lemma wp_kill v s n (Q : Z -> K -> Prop) :
  rep v s -> vinv v -> v_pt v = false ->
  (forall s', rep (a_kill n v).2 s' -> vinv (a_kill n v).2 -> Q (a_kill n v).1 s') ->
  wp P (kill n) s Q.
Proof.
  intros H Hv Hpt HQ. apply wp_bind. eapply wp_acquire; [done|done|]. intros s1 H1.
  set (v1 := v <| v_pt := true |>) in *. assert (Hv1 : vinv v1) by (by apply (vinv_frame v)).
  apply wp_bind. eapply wp_search; [done|done|apply live_states_lt|done| | |].
  - intros p r j Hp Hr _ Hst _. rewrite (a_kill_hit n v p r Hp Hr) in HQ.
    pose proof (vinv_kill v p r Hv Hr) as Hk. unfold kill_rec in *. rewrite !decide_False in HQ, Hk by congruence.
    apply wp_bind. eapply wp_put_proc; [done|done|done|].
    intros s2 H2. apply wp_bind. eapply wp_release; [done|done|]. intros s3 H3.
    apply wp_ret. eexists. split; [done|]. apply wp_ret. apply HQ; [|done].
    by destruct v; simpl in Hpt; subst.
  - intros p r Hp Hr _ Hst. rewrite (a_kill_hit n v p r Hp Hr) in HQ.
    pose proof (vinv_kill v p r Hv Hr) as Hk. unfold kill_rec in *.
    apply wp_bind. eapply wp_put_proc; [done|done|done|]. intros s2 H2.
    assert (Hr2 : v_tbl (a_upd p (r <| killed := 1 |>) v1) !! p = Some (r <| killed := 1 |>)).
    { apply list_lookup_insert_eq. by eapply lookup_lt_Some. }
    assert (Hv2 : vinv (a_upd p (r <| killed := 1 |>) v1)) by (by eapply vinv_touch).
    apply wp_bind. eapply wp_get_proc; [done|done|]. intros m. rec_simpl. apply wp_bind.
    case_decide as Hsl.
    + rewrite bool_decide_eq_true_2 by done. apply wp_bind.
      assert (state (r <| killed := 1 |>) = SLEEPING) as <- by done.
      eapply wp_leave_state; [done|done|done|done|]. intros s3 H3.
      eapply wp_enter_ready; [done|by eapply (rep_lt v1 s1)|by apply (vi_wf v Hv p r)|]. intros s4 H4.
      apply wp_bind. eapply wp_release; [done|done|]. intros s5 H5. apply wp_ret.
      eexists. split; [done|]. apply wp_ret, HQ; [|done].
      rewrite a_place_upd in H5. by destruct v; simpl in Hpt; subst.
    + rewrite bool_decide_eq_false_2 by done. apply wp_ret, wp_bind.
      eapply wp_release; [done|done|]. intros s5 H5. apply wp_ret.
      eexists. split; [done|]. apply wp_ret, HQ; [|done]. by destruct v; simpl in Hpt; subst.
  - intros Hn. apply wp_bind. eapply wp_release; [done|done|]. intros s2 H2. apply wp_ret.
    unfold a_kill in HQ. rewrite (Hn : search live_states n v = None) in HQ.
    apply HQ; [|done]. by destruct v; simpl in Hpt; subst.
Qed.

(** Requeueing a runnable process at another priority. *)
Lemma wp_requeue v s p r j prio (Q : unit -> K -> Prop) :
  rep v s -> vinv v -> v_tbl v !! p = Some r -> state r = RUNNABLE ->
  priority r = Z.of_nat j -> bad_prio prio = false ->
  (forall s', rep (a_place p (prio_rec prio r) v) s' -> Q tt s') ->
  wp P (q <- ready_of_prio p ;;
        remove_or_panic "Empty list or process not in list" q p ;;;
        assertState p RUNNABLE ;;;
        r <- get_proc p ;;
        (if negb (priority r =? Z.of_nat j) then panic "p->priority not same as in ready list"
         else ret tt) ;;;
        put_proc p (fun r => r <| priority := prio |> <| budget := BUDGET |>) ;;;
        q <- ready_of_prio p ;;
        stateListAdd q p) s Q.
Proof.
  intros H Hv Hr Hst Hj Hb HQ. unfold bad_prio in Hb. apply orb_false_iff in Hb as [Hb1 Hb2].
  assert (Hlt := rep_lt v s p r H Hr).
  apply wp_bind, wp_bind. eapply wp_get_proc; [done|done|]. intros n. apply wp_ret. rec_simpl.
  apply wp_bind. eapply wp_remove_or_panic; [done| |].
  { pose proof (vinv_home v p r Hv Hr) as Hh. unfold home in Hh. by rewrite decide_True in Hh. }
  intros s1 H1. assert (H1' : rep (detached p r v) s1) by (unfold detached; by rewrite a_upd_id).
  pose proof (detached_lookup v s1 p r H1' Hlt) as Hr1.
  apply wp_bind. eapply wp_assertState; [done|done|done|].
  apply wp_bind. eapply wp_get_proc; [done|done|]. intros n2. rec_simpl.
  rewrite Hj, Z.eqb_refl. apply wp_bind, wp_ret, wp_bind.
  eapply wp_put_detached; [done|done|done|]. intros s2 H2. apply wp_bind, wp_bind.
  eapply wp_get_proc; [done|by eapply detached_lookup|]. intros n3. apply wp_ret. rec_simpl.
  eapply wp_add_detached; [done|done| | |done]; unfold home; rec_simpl;
    rewrite decide_True by done; [|done]. simpl. lia.
Qed.

Lemma wp_setpriority v s n prio (Q : Z -> K -> Prop) :
  rep v s -> vinv v -> v_pt v = false ->
  (forall s', rep (a_setpriority n prio v).2 s' -> vinv (a_setpriority n prio v).2 ->
     Q (a_setpriority n prio v).1 s') ->
  wp P (setpriority n prio) s Q.
Proof.
  intros H Hv Hpt HQ. apply wp_bind. eapply wp_acquire; [done|done|]. intros s1 H1.
  set (v1 := v <| v_pt := true |>) in *. assert (Hv1 : vinv v1) by (by apply (vinv_frame v)).
  assert (Hfail : a_setpriority n prio v = (RETURN_FAILURE, v) -> forall s2, rep v1 s2 ->
    wp P (release_ptable ;;; ret RETURN_FAILURE) s2 Q).
  { intros Ha s2 H2. rewrite Ha in HQ. apply wp_bind. eapply wp_release; [done|done|].
    intros s3 H3. apply wp_ret, HQ; [|done]. by destruct v; simpl in Hpt; subst. }
  fold (bad_pid n) (bad_prio prio).
  destruct (bad_pid n) eqn:Hn; [apply Hfail; [unfold a_setpriority; by rewrite Hn|done]|].
  destruct (bad_prio prio) eqn:Hp; [apply Hfail; [unfold a_setpriority; by rewrite Hn, Hp|done]|].
  apply wp_bind. eapply wp_search; [done|done|by apply (bool_decide_unpack _)|done| | |].
  - intros p r j Hs Hr _ Hst Hj. rewrite (a_setpriority_hit n prio v p r Hn Hp Hs Hr) in HQ.
    pose proof (vinv_setprio v p r prio Hv Hr Hp) as Hv'. unfold a_setprio in *.
    apply wp_bind. eapply wp_get_proc; [done|done|]. intros m. rec_simpl. apply wp_bind.
    destruct (priority r =? prio); cbn [negb when].
    + apply wp_ret, wp_bind. eapply wp_release; [done|done|]. intros s2 H2. apply wp_ret.
      eexists. split; [done|]. apply wp_ret, HQ; [|done]. by destruct v; simpl in Hpt; subst.
    + rewrite decide_True in HQ, Hv' by done. eapply wp_requeue; try done. intros s2 H2.
      apply wp_bind. eapply wp_release; [done|done|]. intros s3 H3. apply wp_ret.
      eexists. split; [done|]. apply wp_ret, HQ; [|done]. by destruct v; simpl in Hpt; subst.
  - intros p r Hs Hr _ Hst. rewrite (a_setpriority_hit n prio v p r Hn Hp Hs Hr) in HQ.
    pose proof (vinv_setprio v p r prio Hv Hr Hp) as Hv'. unfold a_setprio in *.
    apply wp_bind. eapply wp_get_proc; [done|done|]. intros m. rec_simpl. apply wp_bind.
    destruct (priority r =? prio); cbn [negb when].
    + apply wp_ret, wp_bind. eapply wp_release; [done|done|]. intros s2 H2. apply wp_ret.
      eexists. split; [done|]. apply wp_ret, HQ; [|done]. by destruct v; simpl in Hpt; subst.
    + rewrite decide_False in HQ, Hv' by done. eapply wp_put_proc; [done|done|done|]. intros s2 H2.
      apply wp_bind. eapply wp_release; [done|done|]. intros s3 H3. apply wp_ret.
      eexists. split; [done|]. apply wp_ret, HQ; [|done]. by destruct v; simpl in Hpt; subst.
  - intros Hs. apply Hfail; [|done]. unfold a_setpriority. rewrite Hn, Hp. simpl.
    by rewrite (Hs : search prio_states n v = None).
Qed.

Lemma wp_getpriority v s n (Q : Z -> K -> Prop) :
  rep v s -> vinv v -> v_pt v = false ->
  (forall s', rep v s' -> Q (a_getpriority n v) s') ->
  wp P (getpriority n) s Q.
Proof.
  intros H Hv Hpt HQ. apply wp_bind. eapply wp_acquire; [done|done|]. intros s1 H1.
  set (v1 := v <| v_pt := true |>) in *. assert (Hv1 : vinv v1) by (by apply (vinv_frame v)).
  assert (Hun : forall s' : K, rep (v1 <| v_pt := false |>) s' -> rep v s').
  { intros s'. by destruct v; simpl in Hpt; subst. }
  assert (Hfail : a_getpriority n v = RETURN_FAILURE -> forall s2, rep v1 s2 ->
    wp P (release_ptable ;;; ret RETURN_FAILURE) s2 Q).
  { intros Ha s2 H2. rewrite Ha in HQ. apply wp_bind. eapply wp_release; [done|done|].
    intros s3 H3. by apply wp_ret, HQ, Hun. }
  fold (bad_pid n). unfold a_getpriority in *.
  destruct (bad_pid n) eqn:Hn; [by apply Hfail|].
  assert (Hhit : forall p r, search (seq (state_num SLEEPING) 4) n v = Some p -> v_tbl v !! p = Some r ->
    wp P (release_ptable ;;; r <- get_proc p ;; ret (Some (s32 (priority r)))) s1
      (fun o s' => exists b, o = Some b /\ wp P (match o with Some z => ret z | None => release_ptable ;;; ret RETURN_FAILURE end) s' Q)).
  { intros p r Hs Hr. rewrite Hs in HQ. cbn [mbind option_bind] in HQ. rewrite Hr in HQ.
    apply wp_bind. eapply wp_release; [done|done|]. intros s2 H2%Hun.
    apply wp_bind. eapply wp_get_proc; [done|done|]. intros m. apply wp_ret.
    eexists. split; [done|]. by apply wp_ret, HQ. }
  apply wp_bind. eapply wp_search; [done|done|by apply (bool_decide_unpack _)|done| | |].
  - intros p r j Hs Hr _ _ _. by eapply Hhit.
  - intros p r Hs Hr _ _. by eapply Hhit.
  - intros Hs. apply Hfail; [|done]. by rewrite (Hs : search (seq (state_num SLEEPING) 4) n v = None).
Qed.

Lemma vinv_yield v p r :
  vinv v -> v_tbl v !! p = Some r -> vinv (a_yield p r v).
Proof.
  intros H Hr. destruct (charge_spec (v_ticks v) r) as (Hst & Hpa & Hof & Hna & _).
  unfold a_yield, yield_rec, account. eapply vinv_move; [done|done|..]; rec_simpl.
  - right. by left.
  - apply charge_prio, (vi_wf v H p r Hr).
  - done.
  - by rewrite Hof.
  - by rewrite Hna.
Qed.

Lemma vinv_sleep v ch p r :
  vinv v -> v_tbl v !! p = Some r -> vinv (a_sleep ch p r v).
Proof.
  intros H Hr. set (r1 := r <| chan_of_proc := ch |> <| state := SLEEPING |>).
  destruct (charge_spec (v_ticks v) r1) as (Hst & Hpa & Hof & Hna & _).
  unfold a_sleep, sleep_rec, account. fold r1. eapply vinv_move; [done|done|..]; rec_simpl.
  - by left.
  - apply charge_prio, (vi_wf v H p r Hr).
  - done.
  - by rewrite Hof.
  - by rewrite Hna.
Qed.

(** [yield]: what the switch exposes, and the return. *)
Lemma wp_yield v s p r (Q : unit -> K -> Prop) :
  rep v s -> vinv v -> v_pt v = false -> v_own v = false -> v_cur v = Some p ->
  v_tbl v !! p = Some r -> state r = RUNNING ->
  (forall s1, rep ((a_yield p r v) <| v_pt := true |>) s1 ->
     guar P s1 /\ forall s2, rely P s1 s2 -> exists v2, rep v2 s2 /\ v_pt v2 = true /\
       forall s3, rep (v2 <| v_pt := false |>) s3 -> Q tt s3) ->
  wp P yield s Q.
Proof.
  intros H Hv Hpt Hown Hcur Hr Hst HQ. assert (Hlt := rep_lt v s p r H Hr).
  apply wp_bind. eapply wp_myproc; [done|]. intros s0 H0. rewrite Hcur.
  apply wp_bind. eapply wp_acquire; [done|done|]. intros s1 H1.
  apply wp_bind, wp_ret, wp_bind. eapply wp_ticks; [done|].
  set (v1 := v <| v_pt := true |>) in *. assert (Hv1 : vinv v1) by (by apply (vinv_frame v)).
  set (rc := charge (v_ticks v) r).
  destruct (charge_spec (v_ticks v) r) as (Hst' & Hpa & Hof & Hna & _).
  pose proof (charge_prio (v_ticks v) r (wf_prio r (vi_wf v Hv p r Hr))) as Hpr.
  fold rc in Hst', Hpa, Hof, Hna, Hpr.
  apply wp_bind. eapply wp_put_proc; [done|done|apply charge_link_free|]. intros s2 H2.
  change (v_ticks v1) with (v_ticks v) in H2. fold rc in H2.
  assert (Hrun : home rc = home r) by (unfold home; by rewrite Hst', Hst).
  assert (Hv2 : vinv (a_upd p rc v1)).
  { eapply vinv_upd; [done|done| |done]. eapply ok_change_keep; [done|done| |done|].
    - destruct (vi_wf v Hv p r Hr) as [_ W2 W3 _ _].
      split; [done|by rewrite Hof|by rewrite Hna|..]; rewrite Hst', Hst; naive_solver.
    - left. right. right. by rewrite Hst'. }
  assert (Hr2 : v_tbl (a_upd p rc v1) !! p = Some rc).
  { apply list_lookup_insert_eq. by eapply lookup_lt_Some. }
  apply wp_bind. rewrite <- Hst, <- Hst'.
  eapply wp_leave_state; [done|done|done|by rewrite Hst', Hst|]. intros s3 H3.
  apply wp_bind. eapply wp_enter_ready; [done|done|done|]. intros s4 H4. rewrite a_place_upd in H4.
  apply wp_bind. eapply wp_sched with (r := rc <| state := RUNNABLE |>); [done|done|done|done| |done|].
  { change (v_tbl (a_place p (rc <| state := RUNNABLE |>) v1)) with
      (<[p := rc <| state := RUNNABLE |>]> (v_tbl v)).
    apply list_lookup_insert_eq. by eapply lookup_lt_Some. }
  intros s5 H5. rewrite a_upd_place in H5 by done.
  destruct (HQ s5 H5) as [HG HR]. split; [done|]. intros s6 H6.
  destruct (HR s6 H6) as (v6 & Hr6 & Hpt6 & HQ6). exists v6. split_and!; [done|done|].
  intros s7 H7. eapply wp_release; [done|done|]. done.
Qed.

(** [sleep]: the process is on the sleep list when the switch happens. *)
Lemma wp_sleep v s p r ch lk (Q : unit -> K -> Prop) :
  rep v s -> vinv v -> lk_pre lk v -> v_cur v = Some p ->
  v_tbl v !! p = Some r -> state r = RUNNING ->
  (forall s1, rep ((a_sleep ch p r v) <| v_pt := true |> <| v_own := false |>) s1 ->
     guar P s1 /\ forall s2, rely P s1 s2 -> exists v2 r2, rep v2 s2 /\
       v_pt v2 = true /\ v_own v2 = false /\ v_tbl v2 !! p = Some r2 /\
       forall s3, rep (lk_post lk (a_upd p (r2 <| chan_of_proc := ChNull |>) v2)) s3 -> Q tt s3) ->
  wp P (sleep ch lk) s Q.
Proof.
  intros H Hv [Hpt Hown] Hcur Hr Hst HQ. assert (Hlt := rep_lt v s p r H Hr).
  apply wp_bind. eapply wp_myproc; [done|]. intros s0 H0. rewrite Hcur.
  set (v1 := v <| v_pt := true |> <| v_own := false |>).
  assert (Hv1 : vinv v1) by (by apply (vinv_frame v)).
  apply wp_bind. eapply (wp_mono _ _ _ (fun _ s1 => rep v1 s1)).
  { destruct lk.
    - eapply wp_acquire; [done|done|]. intros s1 H1. by destruct v; simpl in Hown; subst.
    - apply wp_ret. by destruct v; simpl in Hown, Hpt; subst.
    - apply wp_bind. eapply wp_acquire; [done|done|]. intros s1 H1.
      eapply wp_release_own; [done|done|done|]. done. }
  intros [] s1 H1. apply wp_bind. rewrite <- Hst.
  eapply wp_leave_state; [done|done|done|by rewrite Hst|]. intros s2 H2.
  apply wp_bind. eapply wp_put_detached; [done|done|done|]. intros s3 H3.
  apply wp_bind. eapply wp_enter_state; [done|done|done|]. intros s4 H4.
  set (r4 := r <| chan_of_proc := ch |> <| state := SLEEPING |>) in *.
  assert (Hr4 : v_tbl (a_place p r4 v1) !! p = Some r4).
  { change (v_tbl (a_place p r4 v1)) with (<[p := r4]> (v_tbl v)).
    apply list_lookup_insert_eq. by eapply lookup_lt_Some. }
  apply wp_bind. eapply wp_ticks; [done|]. apply wp_bind.
  eapply wp_put_proc; [done|done|apply charge_link_free|]. intros s5 H5.
  change (v_ticks (a_place p r4 v1)) with (v_ticks v) in H5.
  destruct (charge_spec (v_ticks v) r4) as (Hst4 & _).
  set (r5 := charge (v_ticks v) r4) in *.
  rewrite a_upd_place in H5 by (unfold home; by rewrite Hst4).
  apply wp_bind. eapply wp_sched with (r := r5); [done|done|done|done| |by rewrite Hst4|].
  { change (v_tbl (a_place p r5 v1)) with (<[p := r5]> (v_tbl v)).
    apply list_lookup_insert_eq. by eapply lookup_lt_Some. }
  intros s6 H6. rewrite a_upd_place in H6 by done.
  destruct (HQ s6 H6) as [HG HR]. split; [done|]. intros s7 H7.
  destruct (HR s7 H7) as (v7 & r7 & Hr7 & Hpt7 & Hown7 & Hp7 & HQ7). exists v7. split_and!; [done|done|].
  intros s8 H8. apply wp_bind. eapply wp_put_proc; [done|done|done|]. intros s9 H9.
  destruct lk.
  - eapply wp_release; [done|done|]. intros s10 H10. apply HQ7. by destruct v7; simpl in *; subst.
  - apply wp_ret, HQ7. by destruct v7; simpl in *; subst.
  - apply wp_bind. eapply wp_release; [done|done|]. intros s10 H10.
    eapply wp_acquire_own; [done|done|]. intros s11 H11. apply HQ7. by destruct v7; simpl in *; subst.
Qed.

End ops.
