(* ===== verification/ProcFork.v ===== *)
(** * Creating processes: allocproc and fork

    [allocproc] takes the head of the free list and fills it in, or fails and
    gives it back; [fork] makes a RUNNABLE child that is a copy of its parent,
    or fails and leaves no trace but a used-up process id. *)

From S2P Require Import Prelude Params Spinlock Str ProcDefs StateList Proc ProcInv ProcWake.

(** ** Specifications *)

Definition unused (v : view) : list nat := v_q v (QList (state_num UNUSED)).

Definition claim_rec (n : Z) (r : proc) : proc := r <| state := EMBRYO |> <| pid := n |>.
Definition a_bump (v : view) : view := v <| v_nextpid := u32 (v_nextpid v + 1) |>.
Definition a_claim (p : nat) (r : proc) (v : view) : view :=
  a_place p (claim_rec (v_nextpid v) r) (a_bump v).

Section fork.
Context {L E : Type} `{CL : CpuLock L} `{SV : ProcServices E}.
Abbreviation K := (kst L E).

(** The stack layout of a new process: the trap frame on top, below it the
    return address [trapret], below that the context that starts at
    [forkret]. *)
Definition init_rec (ks : Z) (r : proc) : proc :=
  let sp1 := u32 (u32 (ks + KSTACKSIZE) - sizeof_trapframe) in
  let sp2 := u32 (sp1 - 4) in
  let sp3 := u32 (sp2 - sizeof_context) in
  r <| tf_at := sp1 |> <| retslot := trapret_addr |>
    <| context_at := sp3 |> <| context_of := zero_context <| c_eip := forkret_addr |> |>
    <| cpu_ticks_total := 0 |> <| cpu_ticks_in := 0 |>
    <| budget := BUDGET |> <| priority := Z.of_nat MAXPRIO |>.

(** The record of process [p] after a successful and a failed [allocproc]. *)
Definition embryo_rec (n ks : Z) (r : proc) : proc :=
  init_rec ks ((claim_rec n r) <| kstack := Some ks |>).
Definition given_back (n : Z) (r : proc) : proc :=
  r <| pid := n |> <| kstack := None |>.

(** The child's record. *)
Definition fork_rec (c : nat) (rc : proc) (d : Z) (nm : list Z) (r : proc) : proc :=
  r <| pgdir := Some d |> <| uid := uid rc |> <| gid := gid rc |> <| sz := sz rc |>
    <| parent := Some c |> <| tf := (tf rc) <| tf_eax := 0 |> |>
    <| ofile := ofile rc |> <| cwd := cwd rc |> <| name := nm |>.

Context (P : prot K) (HP : forall x, sv_panics x -> tolerated P x).

Lemma wp_claim v s p r (Q : unit -> K -> Prop) :
  rep v s -> vinv v -> v_pt v = false -> v_tbl v !! p = Some r -> state r = UNUSED ->
  (forall s', rep (a_claim p r v) s' -> vinv (a_claim p r v) -> Q tt s') ->
  wp P (allocproc_claim p) s Q.
Proof.
  intros H Hv Hpt Hr Hst HQ. assert (Hlt := rep_lt v s p r H Hr).
  apply wp_bind. eapply wp_acquire; [done|done|]. intros s1 H1.
  set (v1 := v <| v_pt := true |>) in *. assert (Hv1 : vinv v1) by (by apply (vinv_frame v)).
  apply wp_bind. rewrite <- Hst. eapply wp_leave_state; [done|done|done|by rewrite Hst|].
  intros s2 H2. apply wp_bind. eapply wp_put_detached; [done|done|done|]. intros s3 H3.
  apply wp_bind. eapply wp_nextpid; [done|]. apply wp_bind.
  change (v_nextpid (detached p (r <| state := EMBRYO |>) v1)) with (v_nextpid v).
  eapply wp_put_detached; [done|done|done|]. intros s4 H4.
  apply wp_bind. eapply wp_set_nextpid; [done|]. intros s5 H5.
  assert (H5' : rep (detached p (claim_rec (v_nextpid v) r) (a_bump v1)) s5) by done.
  apply wp_bind, wp_bind. eapply wp_get_proc; [done|by eapply detached_lookup|].
  intros n. apply wp_ret. apply wp_bind.
  eapply wp_add_detached; [done|done|simpl; unfold statecount; lia|done|]. intros s6 H6.
  eapply wp_release; [done|done|]. intros s7 H7. apply HQ.
  - by destruct v; simpl in Hpt; subst.
  - unfold a_claim. destruct (vi_wf v Hv p r Hr) as [W1 W2 W3 W4 W5].
    eapply (vinv_move_dead (a_bump v)); [by apply (vinv_frame v)|done| |split; try done; naive_solver|done].
    unfold alive. rewrite Hst. naive_solver.
Qed.

Lemma wp_embryo_to_unused v s msg p r (Q : unit -> K -> Prop) :
  rep v s -> vinv v -> v_pt v = false -> v_tbl v !! p = Some r -> state r = EMBRYO ->
  wf_proc (r <| state := UNUSED |>) ->
  (forall s', rep (a_place p (r <| state := UNUSED |>) v) s' ->
     vinv (a_place p (r <| state := UNUSED |>) v) -> Q tt s') ->
  wp P (embryo_to_unused msg p) s Q.
Proof.
  intros H Hv Hpt Hr Hst Hwf HQ. assert (Hlt := rep_lt v s p r H Hr).
  apply wp_bind. eapply wp_acquire; [done|done|]. intros s1 H1.
  set (v1 := v <| v_pt := true |>) in *. assert (Hv1 : vinv v1) by (by apply (vinv_frame v)).
  apply wp_bind. rewrite <- Hst. eapply wp_leave_state; [done|done|done|by rewrite Hst|].
  intros s2 H2. apply wp_bind. eapply wp_enter_state; [done|done|done|]. intros s3 H3.
  eapply wp_release; [done|done|]. intros s4 H4. apply HQ.
  - by destruct v; simpl in Hpt; subst.
  - eapply vinv_move_dead; [done|done| |done|done]. unfold alive. rewrite Hst. naive_solver.
Qed.

Lemma wp_allocproc_init v s p r ks (Q : unit -> K -> Prop) :
  rep v s -> v_tbl v !! p = Some r ->
  (forall s', rep (a_upd p (init_rec ks r) v) s' -> Q tt s') ->
  wp P (allocproc_init p ks) s Q.
Proof.
  intros H Hr HQ. unfold allocproc_init.
  assert (Hlt := lookup_lt_Some _ _ _ Hr).
  assert (Hup : forall x, v_tbl (a_upd p x v) !! p = Some x)
    by (intros x; by apply list_lookup_insert_eq).
  repeat (first [apply wp_bind|idtac]; eapply wp_put_proc; [done|first [exact Hr|apply Hup]|done|];
    clear H; let s' := fresh "s" in intros s' H; rewrite ?a_upd_upd in H).
  by apply HQ.
Qed.

Lemma wp_allocproc_ret v s (R : option Z -> Prop) (Q : option nat -> K -> Prop) :
  (forall e, sv_ret sv_kalloc e R) -> rep v s -> vinv v -> v_pt v = false ->
  (unused v = [] -> Q None s) ->
  (forall p l r, unused v = p :: l -> v_tbl v !! p = Some r -> state r = UNUSED ->
     let fail := a_place p (given_back (v_nextpid v) r) (a_bump v) in
     let ok ks := a_place p (embryo_rec (v_nextpid v) ks r) (a_bump v) in
     (forall s', R None -> rep fail s' -> vinv fail -> Q None s') /\
     (forall ks s', rep (ok ks) s' -> vinv (ok ks) -> Q (Some p) s')) ->
  wp P allocproc s Q.
Proof.
  intros HR H Hv Hpt HN HS. apply wp_bind, wp_bind.
  eapply wp_get_q; [done|simpl; unfold statecount; lia|]. intros x Hx.
  fold (unused v) in Hx. apply wp_ret. rewrite Hx.
  destruct (unused v) as [|p l] eqn:Hu; cbn [hd_error]; [by apply wp_ret, HN|].
  assert (Hp : p ∈ unused v) by (rewrite Hu; set_solver).
  destruct (vinv_q_state v UNUSED p Hv Hp) as (r & Hr & Hst & _).
  destruct (HS p l r eq_refl Hr Hst) as [Hfail Hok]. clear HN HS.
  destruct (vi_wf v Hv p r Hr) as [W1 W2 W3 W4 W5]. assert (Hlt := lookup_lt_Some _ _ _ Hr).
  apply wp_bind. eapply wp_claim; [done..|]. intros s1 H1 Hv1.
  apply wp_bind. eapply wp_on_env_ret; [done|apply HR|done|]. intros k s2 HRk H2.
  set (rc := claim_rec (v_nextpid v) r) in *.
  assert (Hr1 : forall y, v_tbl (a_place p y (a_bump v)) !! p = Some y)
    by (intros y; by apply list_lookup_insert_eq).
  apply wp_bind. eapply wp_put_proc; [done|apply Hr1|done|]. intros s3 H3.
  unfold a_claim in H3, Hv1. fold rc in H3, Hv1. rewrite a_upd_place in H3 by done.
  assert (Hv3 : vinv (a_place p (rc <| kstack := k |>) (a_bump v))).
  { rewrite <- (a_upd_place p rc) by done. eapply vinv_touch; [done|apply Hr1|done..]. }
  destruct k as [ks|].
  - apply wp_bind. eapply wp_allocproc_init; [done|apply Hr1|]. intros s4 H4.
    rewrite a_upd_place in H4 by done. apply wp_ret, (Hok ks); [done|].
    rewrite <- (a_upd_place p (rc <| kstack := Some ks |>)) by done.
    eapply vinv_upd; [done|apply Hr1| |done].
    eapply ok_change_keep; [done|apply Hr1| |done|].
    + split; try done. naive_solver.
    + right. eapply vinv_unref; [done|apply Hr1|]. unfold alive. simpl. naive_solver.
  - apply wp_bind. eapply wp_embryo_to_unused; [done|done|done|apply Hr1|done| |].
    + split; try done; intros; [by apply W4|apply W5; auto].
    + intros s4 H4 Hv4. apply wp_ret. rewrite a_place_place in H4, Hv4.
      assert (Heq : rc <| kstack := None |> <| state := UNUSED |> = given_back (v_nextpid v) r).
      { unfold rc, claim_rec, given_back. destruct r. simpl in Hst. by subst. }
      rewrite Heq in H4, Hv4. by apply Hfail.
Qed.

(** The loop over the descriptors copies the table. *)
Lemma wp_fork_dup_files v s c np rc r (Q : unit -> K -> Prop) :
  rep v s -> c <> np -> v_tbl v !! c = Some rc -> v_tbl v !! np = Some r ->
  length (ofile rc) = NOFILE -> ofile r = replicate NOFILE None ->
  (forall s', rep (a_upd np (r <| ofile := ofile rc |>) v) s' -> Q tt s') ->
  wp P (fork_dup_files c np) s Q.
Proof.
  intros H Hne Hc Hr Hlen Hnone HQ. assert (Hlt := lookup_lt_Some _ _ _ Hr).
  set (part k := r <| ofile := take k (ofile rc) ++ replicate (NOFILE - k) None |>).
  apply wp_meach with (I := fun l s => exists k, l = seq k (NOFILE - k) /\ (k <= NOFILE)%nat /\
    rep (a_upd np (part k) v) s).
  - intros i l s1 (k & Hl & Hk & H1).
    destruct (NOFILE - k)%nat as [|m] eqn:Hm; [done|]. simpl in Hl. injection Hl as -> ->.
    assert (Hc1 : v_tbl (a_upd np (part k) v) !! c = Some rc)
      by (unfold a_upd; rec_simpl; by rewrite list_lookup_insert_ne).
    apply wp_bind. eapply wp_get_proc; [done|done|]. intros n. rec_simpl.
    destruct (lookup_lt_is_Some_2 (ofile rc) k) as [x Hx]; [lia|]. rewrite Hx.
    assert (Hnext : part (S k) = (part k) <| ofile ::= <[k := x]> |>).
    { unfold part. replace (NOFILE - S k)%nat with m by lia. rewrite Hm.
      rewrite <- (insert_take_replicate _ _ x) by done. done. }
    destruct x as [f|].
    + apply wp_bind. eapply wp_on_env_ret; [done|apply sv_filedup_ret|done|]. intros f' s2 -> H2.
      eapply wp_put_proc; [done|by apply list_lookup_insert_eq|done|]. intros s3 H3.
      rewrite a_upd_upd, <- Hnext in H3. exists (S k). split_and!; [f_equal; lia|lia|done].
    + apply wp_ret. exists (S k). split_and!; [f_equal; lia|lia|]. rewrite Hnext.
      replace ((part k) <| ofile ::= <[k := None]> |>) with (part k); [done|].
      unfold part. rewrite Hm. unfold upd. simpl. f_equal. symmetry. apply list_insert_id.
      rewrite lookup_app_r by (rewrite length_take; lia). rewrite length_take.
      by replace (k - k `min` length (ofile rc))%nat with 0%nat by lia.
  - exists 0%nat. split_and!; [done|lia|].
    replace (part 0%nat) with r; [by rewrite a_upd_id|]. unfold part. clear -Hnone. destruct r.
    simpl in Hnone. by subst.
  - intros s' (k & Hl & Hk & H1). apply HQ.
    assert (k = NOFILE) as -> by (destruct (NOFILE - k)%nat eqn:Hm; [lia|done]).
    unfold part in H1. rewrite <- Hlen, firstn_all, Nat.sub_diag, app_nil_r in H1. done.
Qed.

Definition fork_failed (n ks : Z) (r : proc) : proc :=
  (embryo_rec n ks r) <| pgdir := None |> <| kstack := None |> <| state := UNUSED |>.

Lemma wp_set_name v s p r src (Q : unit -> K -> Prop) :
  rep v s -> v_tbl v !! p = Some r -> length (name r) = 16%nat -> readable src 15 ->
  (forall nm s', cstr nm = take 15 (cstr src) -> length nm = 16%nat ->
     rep (a_upd p (r <| name := nm |>) v) s' -> Q tt s') ->
  wp P (set_name p src) s Q.
Proof.
  intros H Hr Hlen Hsrc HQ. apply wp_bind. eapply wp_get_proc; [done|done|]. intros n. rec_simpl.
  destruct (safestrcpy_loop_ok 15 (name r) src) as (nm & Hs & Hl & Hc & _); [lia|done|].
  unfold safestrcpy. rewrite Hs. eapply wp_put_proc; [done|done|done|]. intros s' H'.
  eapply HQ; [exact Hc|by rewrite Hl|exact H'].
Qed.

Lemma wp_fork_ready v s p r (Q : unit -> K -> Prop) :
  rep v s -> vinv v -> v_pt v = false -> v_tbl v !! p = Some r -> state r = EMBRYO ->
  priority r = Z.of_nat MAXPRIO ->
  (forall s', rep (a_place p (r <| state := RUNNABLE |>) v) s' ->
     vinv (a_place p (r <| state := RUNNABLE |>) v) -> Q tt s') ->
  wp P (fork_ready p) s Q.
Proof.
  intros H Hv Hpt Hr Hst Hpr HQ. assert (Hlt := rep_lt v s p r H Hr).
  apply wp_bind. eapply wp_acquire; [done|done|]. intros s1 H1.
  set (v1 := v <| v_pt := true |>) in *. assert (Hv1 : vinv v1) by (by apply (vinv_frame v)).
  apply wp_bind. rewrite <- Hst. eapply wp_leave_state; [done|done|done|by rewrite Hst|].
  intros s2 H2. apply wp_bind. eapply wp_put_detached; [done|done|done|]. intros s3 H3.
  assert (Hh : home (r <| state := RUNNABLE |>) = QReady MAXPRIO).
  { unfold home. rec_simpl. rewrite decide_True by done. f_equal. rewrite Hpr. lia. }
  apply wp_bind. eapply wp_add_detached; [done|done|rewrite Hh; simpl; lia|by rewrite Hh|]. intros s4 H4.
  eapply wp_release; [done|done|]. intros s5 H5. apply HQ.
  - by destruct v; simpl in Hpt; subst.
  - by apply vinv_ready.
Qed.

(** The copying half of [fork], on an embryo. *)
Lemma wp_fork_copy v s c np rc r d w (Q : Z -> K -> Prop) :
  rep v s -> vinv v -> v_pt v = false -> c <> np ->
  v_tbl v !! c = Some rc -> alive rc -> cwd rc = Some w ->
  v_tbl v !! np = Some (r <| pgdir := Some d |>) ->
  state r = EMBRYO -> priority r = Z.of_nat MAXPRIO -> ofile r = replicate NOFILE None ->
  (forall nm s', let v' := a_place np ((fork_rec c rc d nm r) <| state := RUNNABLE |>) v in
     cstr nm = take 15 (cstr (name rc)) -> rep v' s' -> vinv v' -> Q (s32 (pid r)) s') ->
  wp P (put_proc np (fun r => r <| uid := uid rc |> <| gid := gid rc |>) ;;;
        put_proc np (fun r => r <| sz := sz rc |> <| parent := Some c |>
                                <| tf := (tf rc) <| tf_eax := 0 |> |>) ;;;
        fork_dup_files c np ;;;
        rc <- get_proc c ;;
        match cwd rc with
        | None => fault
        | Some w =>
            w' <- on_env (sv_idup w) ;;
            put_proc np (fun r => r <| cwd := Some w' |>) ;;;
            set_name np (name rc) ;;;
            rn <- get_proc np ;;
            fork_ready np ;;;
            ret (s32 (pid rn))
        end) s Q.
Proof.
  intros H Hv Hpt Hne Hc Hal Hw Hr Hst Hpr Hof HQ.
  assert (Hlt := lookup_lt_Some _ _ _ Hr).
  destruct (vi_wf v Hv c rc Hc) as [_ C2 C3 _ _]. destruct (vi_wf v Hv np _ Hr) as [W1 W2 W3 W4 W5].
  assert (Hup : forall x, v_tbl (a_upd np x v) !! np = Some x)
    by (intros x; by apply list_lookup_insert_eq).
  assert (Hcu : forall x, v_tbl (a_upd np x v) !! c = Some rc)
    by (intros x; unfold a_upd; rec_simpl; by rewrite list_lookup_insert_ne).
  apply wp_bind. eapply wp_put_proc; [done|done|done|]. intros s1 H1.
  apply wp_bind. eapply wp_put_proc; [done|apply Hup|done|]. intros s2 H2. rewrite a_upd_upd in H2.
  apply wp_bind. eapply wp_fork_dup_files; [done|done|apply Hcu|apply Hup|done|done|].
  intros s3 H3. rewrite a_upd_upd in H3.
  apply wp_bind. eapply wp_get_proc; [done|apply Hcu|]. intros n. rec_simpl. rewrite Hw.
  apply wp_bind. eapply wp_on_env_ret; [done|apply sv_idup_ret|done|]. intros w' s4 -> H4.
  apply wp_bind. eapply wp_put_proc; [done|apply Hup|done|]. intros s5 H5. rewrite a_upd_upd in H5.
  apply wp_bind. eapply wp_set_name; [done|apply Hup|done|right; lia|].
  intros nm s6 Hnm Hnml H6. rewrite a_upd_upd, <- Hw in H6.
  change (rep (a_upd np (fork_rec c rc d nm r) v) s6) in H6.
  apply wp_bind. eapply wp_get_proc; [done|apply Hup|]. intros n2.
  apply wp_bind. eapply wp_fork_ready; [done| |done|apply Hup|done|done|].
  - eapply vinv_upd; [done|done| |done].
    split; [split; try done; unfold fork_rec; rec_simpl; rewrite Hst; naive_solver| |].
    + right. eapply vinv_unref; [done|done|]. unfold alive. rec_simpl. rewrite Hst. naive_solver.
    + intros j [= <-]. exists rc. by rewrite list_lookup_insert_ne.
  - intros s7 H7 Hv7. rewrite a_place_upd in H7, Hv7. apply wp_ret. by apply (HQ nm).
Qed.

Lemma embryo_fields n ks r :
  let e := embryo_rec n ks r in
  state e = EMBRYO /\ priority e = Z.of_nat MAXPRIO /\ parent e = parent r /\
  ofile e = ofile r /\ name e = name r /\ cwd e = cwd r /\ pid e = n.
Proof. done. Qed.

(** [fork] after a successful [allocproc]. *)
Lemma wp_fork_tail v s c p rc re w (R : option Z -> Prop) (Q : Z -> K -> Prop) :
  (forall e, sv_ret (sv_copyuvm (pgdir rc) (sz rc)) e R) ->
  rep v s -> vinv v -> v_pt v = false -> c <> p ->
  v_tbl v !! c = Some rc -> alive rc -> cwd rc = Some w -> v_tbl v !! p = Some re ->
  state re = EMBRYO -> priority re = Z.of_nat MAXPRIO -> parent re = None ->
  ofile re = replicate NOFILE None -> cwd re = None ->
  (forall s', let v' := a_place p (re <| pgdir := None |> <| kstack := None |> <| state := UNUSED |>) v in
     R None -> rep v' s' -> vinv v' -> Q (-1) s') ->
  (forall d nm s', let v' := a_place p ((fork_rec c rc d nm re) <| state := RUNNABLE |>) v in
     R (Some d) -> cstr nm = take 15 (cstr (name rc)) -> rep v' s' -> vinv v' -> Q (s32 (pid re)) s') ->
  wp P (rc <- get_proc c ;;
      d <- on_env (sv_copyuvm (pgdir rc) (sz rc)) ;;
      put_proc p (fun r => r <| pgdir := d |>) ;;;
      match d with
      | None =>
          rn <- get_proc p ;;
          on_env (sv_kfree (default 0 (kstack rn))) ;;;
          put_proc p (fun r => r <| kstack := None |>) ;;;
          embryo_to_unused "Empty List or process not in list" p ;;;
          ret (-1)
      | Some _ =>
          put_proc p (fun r => r <| uid := uid rc |> <| gid := gid rc |>) ;;;
          put_proc p (fun r => r <| sz := sz rc |> <| parent := Some c |>
                                  <| tf := (tf rc) <| tf_eax := 0 |> |>) ;;;
          fork_dup_files c p ;;;
          rc <- get_proc c ;;
          match cwd rc with
          | None => fault
          | Some w =>
              w' <- on_env (sv_idup w) ;;
              put_proc p (fun r => r <| cwd := Some w' |>) ;;;
              set_name p (name rc) ;;;
              rn <- get_proc p ;;
              fork_ready p ;;;
              ret (s32 (pid rn))
          end
      end) s Q.
Proof.
  intros HR H Hv Hpt Hne Hc Hal Hw Hr F1 F2 F3 F4 F5 Hf Hok.
  destruct (vi_wf v Hv p re Hr) as [_ _ W3 _ _]. assert (Hlt := lookup_lt_Some _ _ _ Hr).
  assert (Hcu : forall x, v_tbl (a_upd p x v) !! c = Some rc).
  { intros x. unfold a_upd. rec_simpl. by rewrite list_lookup_insert_ne. }
  assert (Hup : forall x, v_tbl (a_upd p x v) !! p = Some x)
    by (intros x; by apply list_lookup_insert_eq).
  assert (Htouch : forall x, vinv (a_upd p (re <| pgdir := x |>) v))
    by (intros x; by eapply vinv_touch).
  apply wp_bind. eapply wp_get_proc; [done|done|]. intros n0. rec_simpl.
  apply wp_bind. eapply wp_on_env_ret; [done|apply HR|done|]. intros od s2 HRd H2.
  apply wp_bind. eapply wp_put_proc; [done|done|done|]. intros s3 H3. destruct od as [d|].
  - eapply wp_fork_copy with (rc := rc) (r := re);
      [done|apply Htouch|done|done|apply Hcu|done|done|apply Hup|done|done|done|].
    intros nm s4 v' Hnm H4 Hv4. subst v'. rewrite a_place_upd in H4, Hv4. by apply (Hok d nm s4 HRd).
  - apply wp_bind. eapply wp_get_proc; [done|apply Hup|]. intros n1.
    apply wp_bind. eapply wp_on_env; [done|apply sv_kfree_nb|done|]. intros [] s4 H4.
    apply wp_bind. eapply wp_put_proc; [done|apply Hup|done|]. intros s5 H5. rewrite a_upd_upd in H5.
    apply wp_bind. eapply wp_embryo_to_unused; [done| |done|apply Hup|done| |].
    + by eapply vinv_touch.
    + split; rec_simpl; [rewrite F2; lia|by rewrite F4|done|done|done].
    + intros s6 H6 Hv6. rewrite a_place_upd in H6, Hv6. by apply wp_ret, Hf.
Qed.

(** [fork], all branches: no free slot, no kernel stack, no memory for the
    copy, success.  [R1] and [R2] are what [kalloc] and [copyuvm] promise. *)
Lemma wp_fork v s c rc w (R1 R2 : option Z -> Prop) (Q : Z -> K -> Prop) :
  (forall e, sv_ret sv_kalloc e R1) ->
  (forall e, sv_ret (sv_copyuvm (pgdir rc) (sz rc)) e R2) ->
  rep v s -> vinv v -> v_pt v = false -> v_cur v = Some c ->
  v_tbl v !! c = Some rc -> alive rc -> cwd rc = Some w ->
  (unused v = [] -> forall s', rep v s' -> Q (-1) s') ->
  (forall p l r, unused v = p :: l -> v_tbl v !! p = Some r -> state r = UNUSED ->
     let n := v_nextpid v in
     (forall s', let v' := a_place p (given_back n r) (a_bump v) in
        R1 None -> rep v' s' -> vinv v' -> Q (-1) s') /\
     (forall ks s', let v' := a_place p (fork_failed n ks r) (a_bump v) in
        R2 None -> rep v' s' -> vinv v' -> Q (-1) s') /\
     (forall ks d nm s',
        let v' := a_place p ((fork_rec c rc d nm (embryo_rec n ks r)) <| state := RUNNABLE |>) (a_bump v) in
        R2 (Some d) -> cstr nm = take 15 (cstr (name rc)) -> rep v' s' -> vinv v' -> Q (s32 n) s')) ->
  wp P fork s Q.
Proof.
  intros HR1 HR2 H Hv Hpt Hcur Hc Hal Hw HN HS.
  apply wp_bind. eapply wp_myproc; [done|]. intros s0 H0. rewrite Hcur. apply wp_bind, wp_ret, wp_bind.
  eapply wp_allocproc_ret; [exact HR1|done|done|done|intros Hu; apply wp_ret; by apply HN|].
  intros p l r Hu Hr Hst. destruct (HS p l r Hu Hr Hst) as (Hf1 & Hf2 & Hok). clear HN HS.
  split; [intros s1 HR H1 Hv1; by apply wp_ret, Hf1|]. intros ks s1 H1 Hv1.
  destruct (vi_wf v Hv p r Hr) as [_ _ _ W4 W5]. destruct W5 as [W5 W6]; [by left|].
  assert (Hne : c <> p) by (intros ->; congruence).
  specialize (Hf2 ks). specialize (Hok ks). unfold fork_failed in Hf2.
  destruct (embryo_fields (v_nextpid v) ks r) as (F1 & F2 & F3 & F4 & F5 & F6 & F7).
  revert H1 Hv1 Hf2 Hok F1 F2 F3 F4 F5 F6 F7. generalize (embryo_rec (v_nextpid v) ks r) as re.
  intros re H1 Hv1 Hf2 Hok F1 F2 F3 F4 F5 F6 F7.
  eapply (wp_fork_tail _ s1 c p rc re w R2); [exact HR2|exact H1|exact Hv1|done|done| |done|done| |done|done| | | | |].
  - change (<[p := re]> (v_tbl v) !! c = Some rc). by rewrite list_lookup_insert_ne.
  - apply list_lookup_insert_eq. by eapply lookup_lt_Some.
  - rewrite F3. by apply W4.
  - by rewrite F4.
  - by rewrite F6.
  - intros s' v' HR H' Hv'. subst v'. rewrite a_place_place in H', Hv'. by apply Hf2.
  - intros d nm s' v' HR Hnm H' Hv'. subst v'. rewrite a_place_place in H', Hv'. rewrite F7.
    by apply (Hok d nm s' HR).
Qed.

End fork.
