(* ===== verification/ProcExit.v ===== *)
(** * exit and wait

    [exit] wakes the parent, passes the children to init and leaves a zombie;
    [wait] reaps the first zombie child, and sleeps only while the caller has
    children, none of them a zombie. *)

From S2P Require Import Prelude Params Spinlock Str ProcDefs StateList Proc ProcInv ProcWake ProcOps.

(** ** Specifications *)

Definition reparent (c : nat) (init : option nat) (r : proc) : proc :=
  if decide (parent r = Some c) then r <| parent := init |> else r.

Definition zombie_child (c : nat) (r : proc) : bool :=
  child_of c r && bool_decide (state r = ZOMBIE).

(** Children go to init, which is woken if one of them is a zombie. *)
Definition a_wake_init (c : nat) (v : view) : view :=
  if existsb (zombie_child c) (v_tbl v) then a_wakeup (chan_of (v_init v)) v else v.
Definition a_orphans (c : nat) (v : view) : view :=
  (a_wake_init c v) <| v_tbl ::= fmap (reparent c (v_init v)) |>.

(** The state that [exit] leaves at the switch. *)
Definition zombie_rec (c : nat) (init : option nat) (t : Z) (r : proc) : proc :=
  account t ((reparent c init r) <| state := ZOMBIE |>).
Definition a_exit (c : nat) (r : proc) (v : view) : view :=
  a_place c (zombie_rec c (v_init v) (v_ticks v) r)
    (a_orphans c (a_wakeup (chan_of (parent r)) v)).

(** A reaped process. *)
Definition reaped (r : proc) : proc :=
  r <| kstack := None |> <| pid := 0 |> <| parent := None |> <| name ::= <[0%nat := 0]> |>
    <| killed := 0 |> <| state := UNUSED |>.

(** ** Laws of the wakeup *)

Lemma a_wakeup_none ch v :
  (forall i r, v_tbl v !! i = Some r -> wakeable ch r = false) -> veq (a_wakeup ch v) v.
Proof.
  intros Hn. assert (Hw : forall i, woken (v_tbl v) ch i = false).
  { intros i. unfold woken. destruct (v_tbl v !! i) eqn:Hi; [by eapply Hn|done]. }
  apply veq_intro.
  - intros q. unfold a_wakeup. rec_simpl. rewrite filter_id by auto.
    rewrite filter_none, app_nil_r; [done|]. intros i _ [Hi _]. by rewrite Hw in Hi.
  - destruct v as [T Q p n i t o pt c]. unfold a_wakeup, upd. simpl in *. f_equal.
    apply list_eq. intros k. rewrite list_lookup_fmap. destruct (T !! k) eqn:Hk; [|done].
    simpl. f_equal. unfold wake. by rewrite (Hn k) by done.
Qed.

(** Waking commutes with changes that it does not look at. *)
Lemma a_wakeup_map ch g d v :
  (forall r, wakeable ch (g r) = wakeable ch r) ->
  (forall r, home ((g r) <| state := RUNNABLE |>) = home (r <| state := RUNNABLE |>)) ->
  (forall r, wake ch (g r) = g (wake ch r)) ->
  veq (a_wakeup ch (a_map g d v)) (a_map g d (a_wakeup ch v)).
Proof.
  intros H1 H2 H3.
  assert (Hw : forall i, woken (v_tbl (a_map g d v)) ch i = woken (v_tbl v) ch i).
  { intros i. unfold woken. rewrite a_map_lookup. destruct (v_tbl v !! i); [|done].
    cbn [fmap option_fmap option_map]. case_bool_decide; by rewrite ?H1. }
  assert (Hg : forall i, goes_to (v_tbl (a_map g d v)) i = goes_to (v_tbl v) i).
  { intros i. unfold goes_to. rewrite a_map_lookup. destruct (v_tbl v !! i); [|done].
    cbn [fmap option_fmap option_map]. case_bool_decide; by rewrite ?H2. }
  apply veq_intro.
  - intros q. change (v_q (a_map g d (a_wakeup ch v)) q) with (v_q (a_wakeup ch v) q).
    unfold a_wakeup. rec_simpl.
    change (v_q (a_map g d v) q) with (v_q v q). change (sleepers (a_map g d v)) with (sleepers v).
    f_equal; apply filter_ext_in; intros i _; by rewrite Hw, ?Hg.
  - apply a_map_tbl_eq; [|done]. intros i. rec_simpl. rewrite a_map_lookup.
    unfold a_wakeup. rec_simpl. rewrite !list_lookup_fmap, a_map_lookup.
    destruct (v_tbl v !! i); [|done]. cbn [fmap option_fmap option_map]. f_equal. case_bool_decide; by rewrite ?H3.
Qed.

Lemma a_wakeup_idem ch v : veq (a_wakeup ch (a_wakeup ch v)) (a_wakeup ch v).
Proof.
  apply a_wakeup_none. intros i r. unfold a_wakeup. rec_simpl. rewrite list_lookup_fmap.
  destruct (v_tbl v !! i) as [r0|]; [|done]. intros [= <-].
  unfold wake. destruct (wakeable ch r0) eqn:Hw; [|done].
  unfold wakeable. rec_simpl. by rewrite bool_decide_eq_false_2.
Qed.

#[export] Instance a_wakeup_proper ch : Proper (veq ==> veq) (a_wakeup ch).
Proof.
  intros v v' [Hq <-]. apply veq_intro; [|done]. intros q.
  unfold a_wakeup, sleepers. rec_simpl. by rewrite !Hq.
Qed.
#[export] Instance a_map_proper g d : Proper (veq ==> veq) (a_map g d).
Proof. intros v v' [Hq <-]. by apply veq_intro. Qed.
#[export] Instance a_upd_proper p r : Proper (veq ==> veq) (a_upd p r).
Proof. intros v v' [Hq <-]. by apply veq_intro. Qed.

(** Lists of other states do not change. *)
Lemma a_wakeup_q ch v i :
  vinv v -> i <> state_num SLEEPING -> v_q (a_wakeup ch v) (QList i) = v_q v (QList i).
Proof.
  intros H Hi. unfold a_wakeup. rec_simpl. rewrite filter_id, filter_none, app_nil_r; [done| |].
  - intros j _ [Hw Hg]. unfold goes_to in Hg. unfold woken in Hw.
    destruct (v_tbl v !! j) as [r|] eqn:Hj; [|done].
    unfold home in Hg. rec_simpl_in Hg. by rewrite decide_True in Hg.
  - intros j (r & Hr & Hh)%(vi_placed v H). unfold woken. rewrite Hr. unfold wakeable.
    destruct (decide (state r = SLEEPING)) as [Hs|]; [|by rewrite bool_decide_eq_false_2].
    unfold home in Hh. rewrite Hs in Hh. simpl in Hh. by injection Hh as <-.
Qed.

Lemma reparent_wakeable c init ch r : wakeable ch (reparent c init r) = wakeable ch r.
Proof. unfold reparent. by case_decide. Qed.
Lemma reparent_home c init r st :
  home ((reparent c init r) <| state := st |>) = home (r <| state := st |>).
Proof. unfold reparent. by case_decide. Qed.
Lemma reparent_wake c init ch r : wake ch (reparent c init r) = reparent c init (wake ch r).
Proof.
  unfold wake. rewrite reparent_wakeable. destruct (wakeable ch r); [|done].
  unfold reparent. rec_simpl. by case_decide.
Qed.

Lemma reparent_idem c init r :
  init <> Some c -> reparent c init (reparent c init r) = reparent c init r.
Proof.
  intros Hi. unfold reparent. destruct (decide (parent r = Some c)) as [Hp|Hp].
  - rewrite decide_False; [done|]. rec_simpl. done.
  - by rewrite decide_False.
Qed.

(** ** exit: the children *)

Section exit.
Context {L E : Type} `{CL : CpuLock L} `{SV : ProcServices E}.
Abbreviation K := (kst L E).
Context (P : prot K).

(** [reparent] on the processes [d] keeps the invariant. *)
Lemma vinv_reparent c d v : vinv v -> vinv (a_map (reparent c (v_init v)) d v).
Proof.
  intros H. apply vinv_map; [done|]. intros i r _ Hr. destruct (vi_wf v H i r Hr) as [W1 W2 W3 W4 W5].
  unfold reparent. case_decide as Hp; split_and!; try done.
  - split; try done. intros Hst. by rewrite W4 in Hp.
  - intros j. apply (vi_init v H).
  - intros j Hj. by eapply vi_parent.
Qed.

(** The loop body on a process that is not a zombie: in the ready queues, and
    in the lists of the states. *)
Lemma wp_reparent_ready v s c i r (Q : unit -> K -> Prop) :
  rep v s -> v_tbl v !! i = Some r ->
  (forall s', rep (a_upd i (reparent c (v_init v) r) v) s' -> Q tt s') ->
  wp P (r <- get_proc i ;; init <- gets initproc ;;
        when (bool_decide (parent r = Some c)) (put_proc i (fun r => r <| parent := init |>))) s Q.
Proof.
  intros H Hr HQ. apply wp_bind. eapply wp_get_proc; [done|done|]. intros n. rec_simpl.
  apply wp_bind. eapply wp_initproc; [done|]. unfold reparent in HQ. case_bool_decide as Hp.
  - rewrite decide_True in HQ by done. by eapply wp_put_proc.
  - rewrite decide_False in HQ by done. apply wp_ret, HQ. by rewrite a_upd_id.
Qed.

Lemma wp_reparent_list v s c i r (Q : unit -> K -> Prop) :
  rep v s -> v_tbl v !! i = Some r -> state r <> ZOMBIE ->
  (forall s', rep (a_upd i (reparent c (v_init v) r) v) s' -> Q tt s') ->
  wp P (r <- get_proc i ;; init <- gets initproc ;;
        when (bool_decide (parent r = Some c))
          (put_proc i (fun r => r <| parent := init |>) ;;;
           r <- get_proc i ;;
           when (bool_decide (state r = ZOMBIE)) (wakeup1 (chan_of init)))) s Q.
Proof.
  intros H Hr Hz HQ. apply wp_bind. eapply wp_get_proc; [done|done|]. intros n. rec_simpl.
  apply wp_bind. eapply wp_initproc; [done|]. unfold reparent in HQ. case_bool_decide as Hp.
  - rewrite decide_True in HQ by done. apply wp_bind. eapply wp_put_proc; [done|done|done|].
    intros s1 H1. apply wp_bind. eapply wp_get_proc; [done| |].
    { apply list_lookup_insert_eq. by eapply lookup_lt_Some. }
    intros n1. rec_simpl. rewrite bool_decide_eq_false_2 by done. by apply wp_ret, HQ.
  - rewrite decide_False in HQ by done. apply wp_ret, HQ. by rewrite a_upd_id.
Qed.

Lemma zombies_placed v i :
  vinv v -> i ∈ v_q v (QList (state_num ZOMBIE)) <->
  exists r, v_tbl v !! i = Some r /\ state r = ZOMBIE.
Proof.
  intros H. split.
  - intros (r & Hr & Hs & _)%(vinv_q_state v ZOMBIE i H). eauto.
  - intros (r & Hr & Hs). apply (vi_placed v H). exists r. split; [done|].
    unfold home. by rewrite Hs.
Qed.

(** Some zombie of the table is a child of [c] iff some process of the list is. *)
Lemma zombie_child_in_list v c :
  vinv v ->
  existsb (zombie_child c) (v_tbl v) =
  existsb (fun i => match v_tbl v !! i with Some r => child_of c r | None => false end)
    (v_q v (QList (state_num ZOMBIE))).
Proof.
  intros Hv. apply eq_true_iff_eq. rewrite !existsb_exists. split.
  - intros (r & Hin & Hz). apply list_elem_of_In, list_elem_of_lookup in Hin as [i Hi].
    unfold zombie_child in Hz. apply andb_true_iff in Hz as [Hc Hz]. apply bool_decide_eq_true_1 in Hz.
    exists i. rewrite Hi. split; [|done]. apply list_elem_of_In, zombies_placed; eauto.
  - intros (i & Hin & Hc). apply list_elem_of_In, zombies_placed in Hin as (r & Hr & Hz); [|done].
    exists r. rewrite Hr in Hc. split; [apply list_elem_of_In; by eapply list_elem_of_lookup_2|].
    unfold zombie_child. by rewrite Hc, bool_decide_eq_true_2.
Qed.

(** The body on a zombie. *)
Lemma wp_reparent_zombie v s c i r (Q : unit -> K -> Prop) :
  rep v s -> vinv v -> v_tbl v !! i = Some r -> state r = ZOMBIE ->
  (forall s', let v' := if child_of c r
      then a_wakeup (chan_of (v_init v)) (a_upd i (reparent c (v_init v) r) v) else v in
     rep v' s' -> vinv v' -> Q tt s') ->
  wp P (r <- get_proc i ;; init <- gets initproc ;;
        when (bool_decide (parent r = Some c))
          (put_proc i (fun r => r <| parent := init |>) ;;;
           r <- get_proc i ;;
           when (bool_decide (state r = ZOMBIE)) (wakeup1 (chan_of init)))) s Q.
Proof.
  intros H Hv Hr Hz HQ. apply wp_bind. eapply wp_get_proc; [done|done|]. intros n. rec_simpl.
  apply wp_bind. eapply wp_initproc; [done|].
  assert (Hz1 : vinv (a_upd i (reparent c (v_init v) r) v)).
  { rewrite <- (a_map_single (reparent c (v_init v)) v i r) by done. by apply vinv_reparent. }
  unfold child_of, reparent in *. case_bool_decide as Hp; [|by apply wp_ret, HQ].
  rewrite decide_True in HQ, Hz1 by done.
  apply wp_bind. eapply wp_put_proc; [done|done|done|]. intros s1 H1.
  apply wp_bind. eapply wp_get_proc; [done| |].
  { apply list_lookup_insert_eq. by eapply lookup_lt_Some. }
  intros n1. rec_simpl. rewrite bool_decide_eq_true_2 by done. by eapply wp_wakeup1.
Qed.

(** The zombies come last; the first child among them wakes init. *)
Lemma wp_reparent_zombies v s c x (Q : unit -> K -> Prop) :
  let z := v_q v (QList (state_num ZOMBIE)) in
  rep v s -> vinv v -> head x = hd_error z ->
  (forall v' s', veq v' (a_map (reparent c (v_init v)) z (a_wake_init c v)) ->
     rep v' s' -> vinv v' -> Q tt s') ->
  wp P (walk_post (fun p =>
          r <- get_proc p ;;
          init <- gets initproc ;;
          when (bool_decide (parent r = Some c))
            (put_proc p (fun r => r <| parent := init |>) ;;;
             r <- get_proc p ;;
             when (bool_decide (state r = ZOMBIE)) (wakeup1 (chan_of init)))) (head x)) s Q.
Proof.
  intros z H Hv Hx HQ. rewrite Hx. set (ch := chan_of (v_init v)). set (g := reparent c (v_init v)).
  set (hit d := existsb (fun i => match v_tbl v !! i with Some r => child_of c r | None => false end) d).
  set (V d := if hit d then a_wakeup ch v else v).
  assert (HV : forall d, veq (a_wakeup ch (V d)) (a_wakeup ch v)).
  { intros d. unfold V. destruct (hit d); [apply a_wakeup_idem|done]. }
  apply wp_walk_post with (I := fun l s => exists d v1, z = d ++ l /\ rep v1 s /\ vinv v1 /\
    veq v1 (a_map g d (V d))).
  - intros i l s1 (d & v1 & Hd & H1 & Hv1 & Heq).
    assert (Hi : i ∈ z) by (rewrite Hd; set_solver).
    pose proof (vi_nodup v Hv (QList (state_num ZOMBIE))) as Hnd. fold z in Hnd.
    rewrite Hd in Hnd. apply NoDup_middle in Hnd as [Hid _].
    apply (zombies_placed v i Hv) in Hi as (r & Hr & Hz).
    assert (HrV : v_tbl (V d) !! i = Some r).
    { unfold V. destruct (hit d); [|done]. unfold a_wakeup. rec_simpl. rewrite list_lookup_fmap, Hr.
      simpl. f_equal. unfold wake, wakeable. by rewrite Hz. }
    assert (Hr1 : v_tbl v1 !! i = Some r).
    { rewrite (veq_tbl _ _ Heq), a_map_lookup, HrV. simpl. by rewrite bool_decide_eq_false_2. }
    assert (Hin : v_init v1 = v_init v).
    { rewrite (veq_init _ _ Heq). unfold V. by destruct (hit d). }
    assert (Hhit : hit (d ++ [i]) = hit d || child_of c r).
    { unfold hit. rewrite existsb_app. simpl. by rewrite Hr, orb_false_r. }
    assert (Hlink : forall v2 (s2 : K), rep v2 s2 ->
      v_q v2 (QList (state_num ZOMBIE)) = z -> linked s2 i l).
    { intros v2 s2 H2 Hz2. eapply (rep_linked v2 s2 _ d); [done| |by rewrite Hz2].
      simpl. unfold statecount. lia. }
    assert (Hzq : v_q v1 (QList (state_num ZOMBIE)) = z).
    { destruct Heq as [Hq _]. rewrite Hq. unfold V, a_map. rec_simpl.
      destruct (hit d); [by apply a_wakeup_q|done]. }
    eapply wp_reparent_zombie; [done|done|done|done|]. intros s2. rewrite Hin. fold ch g.
    rewrite (app_assoc d [i] l : d ++ i :: l = (d ++ [i]) ++ l) in Hd.
    destruct (child_of c r) eqn:Hch; intros v2 H2 Hv2; subst v2.
    + assert (Hz1 : vinv (a_upd i (g r) v1)).
      { rewrite <- (a_map_single g v1 i r) by done. unfold g. rewrite <- Hin. by apply vinv_reparent. }
      split; [eapply Hlink; [done|]; by rewrite a_wakeup_q|].
      exists (d ++ [i]), (a_wakeup ch (a_upd i (g r) v1)). split_and!; [done..|].
      rewrite Heq, <- a_map_snoc by done.
      rewrite a_wakeup_map; [|apply reparent_wakeable|intros; apply reparent_home|apply reparent_wake].
      rewrite HV. unfold V. by rewrite Hhit, orb_true_r.
    + apply bool_decide_eq_false_1 in Hch.
      assert (Hg : g r = r) by (unfold g, reparent; by rewrite decide_False).
      split; [by eapply Hlink|]. exists (d ++ [i]), v1. split_and!; [done..|].
      unfold V. rewrite Hhit, orb_false_r. fold (V d).
      rewrite (a_map_snoc _ _ _ _ r), Hg by done. rewrite a_upd_id; [done|].
      rewrite a_map_lookup, HrV. simpl. by rewrite bool_decide_eq_false_2.
  - exists [], v. split_and!; [done|done|done|]. cbn [V hit existsb]. by rewrite a_map_nil.
  - by apply vinv_q_length.
  - intros s' (d & v1 & Hd & H1 & Hv1 & Heq). rewrite app_nil_r in Hd. subst d.
    apply (HQ v1); [|done|done]. rewrite Heq. unfold V, a_wake_init.
    replace (hit z) with (existsb (zombie_child c) (v_tbl v)); [done|].
    by apply zombie_child_in_list.
Qed.
(** The processes of the lists before the zombies. *)
Definition before_zombies (v : view) : list nat :=
  visited v [state_num EMBRYO; state_num SLEEPING; state_num RUNNABLE; state_num RUNNING].

Lemma before_zombies_state v i r :
  vinv v -> i ∈ before_zombies v -> v_tbl v !! i = Some r -> state r <> ZOMBIE.
Proof.
  intros Hv. unfold before_zombies, visited. rewrite list_elem_of_bind. intros (k & Hi & Hk) Hr.
  unfold visited_at in Hi. case_decide as Hrun.
  - apply list_elem_of_bind in Hi as (j & Hi & _).
    destruct (vinv_q_ready v j i Hv Hi) as (r' & Hr' & Hst & _). simplify_eq. by rewrite Hst.
  - apply (vi_placed v Hv) in Hi as (r' & Hr' & Hh). simplify_eq. unfold home in Hh.
    case_decide; [done|]. intros Hz. rewrite Hz in Hh. injection Hh as <-. set_solver.
Qed.

(** Every process is in some list: those of the loop, the zombies, or the free
    list, where nobody has a parent. *)
Lemma before_zombies_cover v i r :
  vinv v -> v_tbl v !! i = Some r ->
  i ∈ before_zombies v ++ v_q v (QList (state_num ZOMBIE)) \/ state r = UNUSED.
Proof.
  intros Hv Hr. rewrite elem_of_app. pose proof (vinv_home v i r Hv Hr) as Hh.
  pose proof (wf_prio r (vi_wf v Hv i r Hr)) as Hp. unfold home in Hh.
  unfold before_zombies, visited. rewrite list_elem_of_bind.
  destruct (state r) eqn:Hst; simpl in Hh; [by right|left..].
  - left. exists (state_num EMBRYO). split; [done|set_solver].
  - left. exists (state_num SLEEPING). split; [done|set_solver].
  - left. exists (state_num RUNNABLE). split; [|set_solver]. unfold visited_at.
    rewrite decide_True by done. apply list_elem_of_bind. exists (Z.to_nat (priority r)).
    split; [done|]. unfold prios_down. rewrite list_elem_of_In, <- in_rev, in_seq. lia.
  - left. exists (state_num RUNNING). split; [done|set_solver].
  - by right.
Qed.

Lemma a_wake_init_map c d v :
  vinv v -> (forall i r, i ∈ d -> v_tbl v !! i = Some r -> state r <> ZOMBIE) ->
  veq (a_wake_init c (a_map (reparent c (v_init v)) d v))
    (a_map (reparent c (v_init v)) d (a_wake_init c v)).
Proof.
  intros Hv Hd. set (g := reparent c (v_init v)).
  assert (Hex : existsb (zombie_child c) (v_tbl (a_map g d v)) = existsb (zombie_child c) (v_tbl v)).
  { assert (Hv' : vinv (a_map g d v)) by (by apply vinv_reparent).
    rewrite (zombie_child_in_list v), (zombie_child_in_list (a_map g d v)) by done.
    change (v_q (a_map g d v)) with (v_q v). apply existsb_ext_in. intros i Hi.
    apply (zombies_placed v i Hv) in Hi as (r & Hr & Hz). rewrite a_map_lookup, Hr. simpl.
    rewrite bool_decide_eq_false_2; [done|]. intros Hid. by apply (Hd i r). }
  unfold a_wake_init. rewrite Hex. destruct (existsb _ (v_tbl v)); [|reflexivity].
  change (v_init (a_map g d v)) with (v_init v).
  apply a_wakeup_map; [apply reparent_wakeable|intros; apply reparent_home|apply reparent_wake].
Qed.

Lemma a_orphans_eq c v :
  vinv v -> v_init v <> Some c ->
  veq (a_map (reparent c (v_init v)) (v_q v (QList (state_num ZOMBIE)))
         (a_wake_init c (a_map (reparent c (v_init v)) (before_zombies v) v)))
    (a_orphans c v).
Proof.
  intros Hv Hi.
  rewrite a_wake_init_map by (try done; intros i r Hin Hr; by eapply before_zombies_state).
  rewrite a_map_app_idem by (intros; by apply reparent_idem).
  unfold a_orphans. rewrite a_map_all; [done|]. intros i r Hr.
  assert (Hr0 : exists r0, v_tbl v !! i = Some r0 /\ parent r = parent r0).
  { unfold a_wake_init, a_wakeup in Hr. destruct (existsb _ _); [|by eauto].
    rec_simpl_in Hr. rewrite list_lookup_fmap in Hr. destruct (v_tbl v !! i) as [r0|]; [|done].
    injection Hr as <-. exists r0. split; [done|]. unfold wake. by destruct (wakeable _ r0). }
  destruct Hr0 as (r0 & Hr0 & Hp).
  destruct (before_zombies_cover v i r0 Hv Hr0) as [|Hst]; [by left|right].
  unfold reparent. rewrite Hp, (wf_orphan r0 (vi_wf v Hv i r0 Hr0) Hst). by rewrite decide_False.
Qed.

(** One list of the loop, zombies apart. *)
Lemma wp_reparent_state v s c st d (Q : unit -> K -> Prop) :
  let g := reparent c (v_init v) in
  vinv v -> v_init v <> Some c -> st <> RUNNABLE -> st <> ZOMBIE -> rep (a_map g d v) s ->
  (forall s', rep (a_map g (d ++ v_q v (QList (state_num st))) v) s' -> Q tt s') ->
  wp P (l <- get_q (QList (state_num st)) ;; walk_post (fun p =>
        r <- get_proc p ;; init <- gets initproc ;;
        when (bool_decide (parent r = Some c))
          (put_proc p (fun r => r <| parent := init |>) ;;;
           r <- get_proc p ;;
           when (bool_decide (state r = ZOMBIE)) (wakeup1 (chan_of init)))) (head l)) s Q.
Proof.
  intros g Hv Hic Hr Hz H HQ. assert (Hq : valid_q (QList (state_num st)))
    by (destruct st; simpl; unfold statecount; lia).
  assert (Hvd : vinv (a_map g d v)) by (by apply vinv_reparent).
  apply wp_bind. eapply wp_get_q; [done|done|]. intros x Hx.
  eapply wp_walk_map with (g := g); [done|done|done|done| |].
  - intros i r s2 v2 R2 Hi Hri H2 Hr2 Hin HR2.
    destruct (vinv_q_state _ st i Hvd Hi) as (r' & Hr' & Hst & _). simplify_eq.
    eapply wp_reparent_list; [done|done|done|]. by rewrite Hin.
  - intros s2 H2. rewrite a_map_app_idem in H2 by (intros; by apply reparent_idem). by apply HQ.
Qed.

(** The ready queues. *)
Lemma wp_reparent_readies v s c d (Q : unit -> K -> Prop) :
  let g := reparent c (v_init v) in
  vinv v -> v_init v <> Some c -> rep (a_map g d v) s ->
  (forall s', rep (a_map g (d ++ visited_at v (state_num RUNNABLE)) v) s' -> Q tt s') ->
  wp P (meach prios_down (fun j =>
        l <- get_q (QReady j) ;;
        walk_post (fun p =>
          r <- get_proc p ;;
          init <- gets initproc ;;
          when (bool_decide (parent r = Some c))
            (put_proc p (fun r => r <| parent := init |>))) (head l))) s Q.
Proof.
  intros g Hv Hic H HQ.
  apply wp_meach with (I := fun l s => exists k, prios_down = k ++ l /\
    rep (a_map g (d ++ (k ≫= fun j => v_q v (QReady j))) v) s).
  - intros j l s1 (k & Hk & H1). apply wp_bind.
    assert (Hq : valid_q (QReady j)) by (apply prio_q_valid; rewrite Hk; set_solver).
    assert (Hvd : forall d, vinv (a_map g d v)) by (intros; by apply vinv_reparent).
    eapply wp_get_q; [done|done|]. intros x Hx.
    eapply wp_walk_map with (g := g); [done|apply Hvd|done|done| |].
    + intros i r s2 v2 R2 Hi Hri H2 Hr2 Hin HR2. eapply wp_reparent_ready; [done|done|].
      by rewrite Hin.
    + intros s2 H2. rewrite a_map_app_idem in H2 by (intros; by apply reparent_idem).
      exists (k ++ [j]). rewrite bind_app, <- app_assoc. split; [done|].
      cbn [mbind list_bind]. rewrite app_nil_r, app_assoc. done.
  - exists []. split; [done|]. cbn [mbind list_bind]. by rewrite app_nil_r.
  - intros s' (k & Hk & H1). rewrite app_nil_r in Hk. subst k. by apply HQ.
Qed.

Lemma wp_exit_reparent v s c (Q : unit -> K -> Prop) :
  rep v s -> vinv v -> v_init v <> Some c ->
  (forall s', rep (a_orphans c v) s' -> vinv (a_orphans c v) -> Q tt s') ->
  wp P (exit_reparent c) s Q.
Proof.
  intros H Hv Hic HQ. rewrite <- (a_map_nil (reparent c (v_init v)) v) in H.
  unfold exit_reparent, live_states. cbn [seq statecount Nat.sub meach].
  apply wp_bind. rewrite decide_False by done.
  eapply (wp_reparent_state v _ c EMBRYO); [done|done|done|done|done|]. intros s1 H1.
  apply wp_bind. rewrite decide_False by done.
  eapply (wp_reparent_state v _ c SLEEPING); [done|done|done|done|done|]. intros s2 H2.
  apply wp_bind. rewrite decide_True by done. apply wp_bind.
  eapply wp_check_runnable_empty; [done|by apply vinv_reparent|].
  eapply wp_reparent_readies; [done|done|done|]. intros s3 H3.
  apply wp_bind. rewrite decide_False by done.
  eapply (wp_reparent_state v _ c RUNNING); [done|done|done|done|done|]. intros s4 H4.
  apply wp_bind. rewrite decide_False by done. apply wp_bind.
  eapply wp_get_q; [done|simpl; unfold statecount; lia|]. intros x Hx.
  eapply wp_reparent_zombies; [done|by apply vinv_reparent|done|]. intros v5 s5 Heq H5 Hv5.
  assert (Hb : ((([] ++ v_q v (QList (state_num EMBRYO))) ++ v_q v (QList (state_num SLEEPING))) ++
      visited_at v (state_num RUNNABLE)) ++ v_q v (QList (state_num RUNNING)) = before_zombies v).
  { unfold before_zombies, visited. cbn [mbind list_bind]. rewrite app_nil_r, <- !app_assoc. done. }
  rewrite Hb in Heq. rewrite (a_orphans_eq c v Hv Hic) in Heq. rewrite Heq in H5, Hv5.
  by apply wp_ret, HQ.
Qed.

(** ** exit: the zombie *)

Lemma a_orphans_lookup c v i :
  v_tbl (a_orphans c v) !! i =
  (fun r => reparent c (v_init v) (if existsb (zombie_child c) (v_tbl v)
     then wake (chan_of (v_init v)) r else r)) <$> v_tbl v !! i.
Proof.
  unfold a_orphans, a_wake_init. rec_simpl. rewrite list_lookup_fmap.
  destruct (existsb _ (v_tbl v)); [|by destruct (v_tbl v !! i)].
  unfold a_wakeup. rec_simpl. rewrite list_lookup_fmap. by destruct (v_tbl v !! i).
Qed.

Lemma a_orphans_running c v i r :
  v_tbl v !! i = Some r -> state r <> SLEEPING ->
  v_tbl (a_orphans c v) !! i = Some (reparent c (v_init v) r).
Proof.
  intros Hr Hst. rewrite a_orphans_lookup, Hr. cbn [fmap option_fmap option_map]. do 2 f_equal.
  destruct (existsb _ _); [|done]. unfold wake, wakeable. by rewrite bool_decide_eq_false_2.
Qed.

Lemma a_orphans_unref c v : v_init v <> Some c -> unref c (a_orphans c v).
Proof.
  intros Hi. split.
  - intros i r. rewrite a_orphans_lookup. destruct (v_tbl v !! i) as [r0|]; [|done].
    cbn [fmap option_fmap option_map]. intros [= <-]. unfold reparent.
    destruct (decide _); [done|]. done.
  - unfold a_orphans, a_wake_init. by destruct (existsb _ _).
Qed.

(** The lock is not looked at. *)
Lemma a_orphans_pt c b v : a_orphans c (v <| v_pt := b |>) = (a_orphans c v) <| v_pt := b |>.
Proof.
  unfold a_orphans, a_wake_init. rec_simpl. by destruct (existsb _ _).
Qed.
Lemma a_exit_pt c r b v : a_exit c r (v <| v_pt := b |>) = (a_exit c r v) <| v_pt := b |>.
Proof.
  unfold a_exit.
  change (a_wakeup (chan_of (parent r)) (v <| v_pt := b |>)) with
    ((a_wakeup (chan_of (parent r)) v) <| v_pt := b |>).
  by rewrite a_orphans_pt.
Qed.

Lemma vinv_exit c r v :
  vinv (a_orphans c (a_wakeup (chan_of (parent r)) v)) -> v_init v <> Some c ->
  v_tbl v !! c = Some r -> state r = RUNNING -> ofile r = replicate NOFILE None -> cwd r = None ->
  vinv (a_exit c r v).
Proof.
  intros Hv Hi Hr Hst Hof Hcwd.
  set (v2 := a_wakeup (chan_of (parent r)) v) in *.
  assert (Hr3 : v_tbl (a_orphans c v2) !! c = Some (reparent c (v_init v) r)).
  { apply (a_orphans_running c v2); [|by rewrite Hst]. unfold v2, a_wakeup. rec_simpl.
    rewrite list_lookup_fmap, Hr. simpl. unfold wake, wakeable. by rewrite Hst. }
  destruct (vi_wf _ Hv c _ Hr3) as [W1 W2 W3 W4 W5].
  eapply vinv_place; [done|done|]. eapply ok_change_keep; [done|done| |done|].
  - unfold zombie_rec, account. split; rec_simpl; [done|done|done|done|].
    intros _. unfold reparent. by destruct (decide _).
  - right. by apply a_orphans_unref.
Qed.

Lemma wp_exit_zombie v s c r :
  rep v s -> vinv v -> v_pt v = false -> v_own v = false -> v_cur v = Some c ->
  v_init v <> Some c -> v_tbl v !! c = Some r -> state r = RUNNING ->
  ofile r = replicate NOFILE None -> cwd r = None ->
  (forall s1, rep ((a_exit c r v) <| v_pt := true |>) s1 -> vinv (a_exit c r v) ->
     guar P s1 /\ forall s2, ~ rely P s1 s2) ->
  forall Q : unit -> K -> Prop, wp P (exit_zombie c) s Q.
Proof.
  intros H Hv Hpt Hown Hcur Hi Hr Hst Hof Hcwd HG Q.
  apply wp_bind. eapply wp_acquire; [done|done|]. intros s1 H1.
  set (v1 := v <| v_pt := true |>) in *. assert (Hv1 : vinv v1) by (by apply (vinv_frame v)).
  apply wp_bind. eapply wp_get_proc; [done|done|]. intros n. rec_simpl.
  apply wp_bind. eapply wp_wakeup1; [done|done|]. intros s2 H2 Hv2.
  apply wp_bind. eapply wp_exit_reparent; [done|done|done|]. intros s3 H3 Hv3.
  set (v2 := a_wakeup (chan_of (parent r)) v1) in *.
  assert (Hr3 : v_tbl (a_orphans c v2) !! c = Some (reparent c (v_init v) r)).
  { apply (a_orphans_running c v2); [|by rewrite Hst]. unfold v2, a_wakeup. rec_simpl.
    rewrite list_lookup_fmap, (Hr : v_tbl v1 !! c = _). simpl. unfold wake, wakeable. by rewrite Hst. }
  assert (Hst3 : state (reparent c (v_init v) r) = RUNNING) by (unfold reparent; by case_decide).
  apply wp_bind. rewrite <- Hst3. eapply wp_leave_state; [done|done|done|by rewrite Hst3|].
  intros s4 H4. assert (Hlt := rep_lt v s c r H Hr).
  apply wp_bind. eapply wp_enter_state; [done|done|done|]. intros s5 H5.
  apply wp_bind. eapply wp_sched with (r := (reparent c (v_init v) r) <| state := ZOMBIE |>).
  { done. } { unfold a_orphans, a_wake_init. by destruct (existsb _ _). }
  { unfold a_orphans, a_wake_init. by destruct (existsb _ _). }
  { unfold a_orphans, a_wake_init. by destruct (existsb _ _). }
  { apply list_lookup_insert_eq. by eapply lookup_lt_Some. } { done. }
  intros s6 H6. rewrite a_upd_place in H6 by done.
  assert (Ht : v_ticks (a_place c ((reparent c (v_init v) r) <| state := ZOMBIE |>) (a_orphans c v2)) = v_ticks v).
  { unfold a_orphans, a_wake_init. by destruct (existsb _ _). }
  rewrite Ht in H6.
  destruct (HG s6) as [Hg Hrel]; [| |split; [done|]; intros s7 H7; by destruct (Hrel s7)].
  - rewrite <- a_exit_pt. done.
  - apply (vinv_frame (a_exit c r v1)); [by unfold v1; rewrite a_exit_pt..|].
    by apply vinv_exit.
Qed.

(** ** exit as a whole

    Closing files and the directory may give up the CPU; [P] says what the
    others may do meanwhile: they leave the process running, and do not touch
    its files. *)

Definition exiting (c : nat) (fs : list (option Z)) (w : option Z) (v : view) : Prop :=
  vinv v /\ v_pt v = false /\ v_own v = false /\ v_cur v = Some c /\ v_init v <> Some c /\
  exists r, v_tbl v !! c = Some r /\ state r = RUNNING /\ ofile r = fs /\ cwd r = w.
Definition exiting_st (c : nat) fs w (s : K) : Prop := exists v, exiting c fs w v /\ rep v s.

Section blocking.
Context (c : nat) (HP : forall x, sv_panics x -> tolerated P x).
Context (Hguar : forall fs w s, exiting_st c fs w s -> guar P s).
Context (Hrely : forall fs w s1 s2, exiting_st c fs w s1 -> rely P s1 s2 -> exiting_st c fs w s2).

Lemma wp_on_env_bl {A} (m : M E A) fs w s (Q : A -> K -> Prop) :
  exiting_st c fs w s -> sv_bl m (env s) ->
  (forall a s', exiting_st c fs w s' -> Q a s') -> wp P (on_env m) s Q.
Proof.
  intros HI Hm HQ. eapply (wp_on_env_blocking P m (exiting_st c fs w)); [done| |by eauto|by eauto|done|done|done].
  intros e s0 (v & Hv & H). exists v. split; [done|]. by apply rep_env.
Qed.

Lemma wp_put_exiting fs w s f (Q : unit -> K -> Prop) :
  exiting_st c fs w s -> link_free f ->
  (forall r, state (f r) = state r /\ priority (f r) = priority r /\ parent (f r) = parent r /\
     name (f r) = name r /\ length (ofile (f r)) = length (ofile r)) ->
  (forall r s', ofile r = fs -> cwd r = w -> exiting_st c (ofile (f r)) (cwd (f r)) s' -> Q tt s') ->
  wp P (put_proc c f) s Q.
Proof.
  intros (v & (Hv & H1 & H2 & H3 & H4 & r & Hr & Hst & Hof & Hw) & H) Hf Hk HQ.
  eapply wp_put_proc; [done|done|done|]. intros s' H'. apply (HQ r); [done|done|].
  destruct (Hk r) as (K1 & K2 & K3 & K4 & K5).
  exists (a_upd c (f r) v). split; [|done]. split_and!; [|done..|].
  - eapply vinv_touch; [done|done|done|done|done|done|by rewrite K4|]. rewrite Hst. naive_solver.
  - exists (f r). rewrite K1. split_and!; [|done..].
    apply list_lookup_insert_eq. by eapply lookup_lt_Some.
Qed.

Lemma wp_exit_files fs w s (Q : unit -> K -> Prop) :
  exiting_st c fs w s -> length fs = NOFILE ->
  (forall s', exiting_st c (replicate NOFILE None) None s' -> Q tt s') ->
  wp P (exit_files c) s Q.
Proof.
  intros H Hlen HQ. apply wp_bind.
  apply wp_meach with (I := fun l s => exists k, l = seq k (NOFILE - k) /\ (k <= NOFILE)%nat /\
    exiting_st c (replicate k None ++ drop k fs) w s).
  - intros i l s1 (k & Hl & Hk & H1).
    destruct (NOFILE - k)%nat as [|m] eqn:Hm; [done|]. simpl in Hl. injection Hl as -> ->.
    destruct (lookup_lt_is_Some_2 fs k) as [x Hx]; [lia|].
    destruct H1 as (v1 & He1 & H1). pose proof He1 as (_ & _ & _ & _ & _ & r & Hr & _ & Hof & Hw).
    apply wp_bind. eapply wp_get_proc; [done|done|]. intros n. rec_simpl.
    rewrite Hof, lookup_replicate_drop, Hx.
    pose proof (insert_replicate_drop fs x None k Hx) as Hins.
    destruct x as [f|].
    + apply wp_bind. eapply wp_on_env_bl; [by exists v1|apply sv_fileclose_bl|]. intros _ s2 H2.
      eapply wp_put_exiting; [done|done| |].
      { intros r0. rec_simpl. by rewrite length_insert. }
      intros r3 s3 Hof3 Hw3 H3. exists (S k). split_and!; [f_equal; lia|lia|].
      rec_simpl_in H3. by rewrite Hof3, Hins, Hw3 in H3.
    + apply wp_ret. exists (S k). split_and!; [f_equal; lia|lia|]. rewrite <- Hins.
      rewrite list_insert_id by (by rewrite lookup_replicate_drop). by exists v1.
  - exists 0%nat. split_and!; [done|lia|]. by rewrite drop_0.
  - intros s1 (k & Hl & Hk & H1).
    assert (k = NOFILE) as -> by (destruct (NOFILE - k)%nat eqn:Hm; [lia|done]).
    rewrite drop_ge, app_nil_r in H1 by lia.
    apply wp_bind. eapply wp_on_env_bl; [done|apply sv_begin_op_bl|]. intros _ s2 H2.
    destruct H2 as (v2 & He2 & H2). pose proof He2 as (_ & _ & _ & _ & _ & r & Hr & _ & Hof & Hw).
    apply wp_bind. eapply wp_get_proc; [done|done|]. intros n. rec_simpl.
    apply wp_bind. eapply wp_on_env_bl; [by exists v2|apply sv_iput_bl|]. intros _ s3 H3.
    apply wp_bind. eapply wp_on_env_bl; [done|apply sv_end_op_bl|]. intros _ s4 H4.
    eapply wp_put_exiting; [done|done|done|]. intros r5 s5 Hof5 Hw5 H5. apply HQ.
    rec_simpl_in H5. by rewrite Hof5 in H5.
Qed.

End blocking.

End exit.
