(* ===== verification/ProcWait.v ===== *)
(** * wait

    One pass over the lists finds a zombie child if there is one, and whether
    there are children at all; [wait] reaps, fails, or sleeps. *)

From S2P Require Import Prelude Params Spinlock Str ProcDefs StateList Proc ProcInv ProcWake ProcOps ProcExit.

Definition zombies (v : view) : list nat := v_q v (QList (state_num ZOMBIE)).

(** The zombie child that [wait] takes. *)
Definition dead_child (c : nat) (v : view) : option nat :=
  first_in (v_tbl v) (child_of c) (zombies v).
Definition has_child (c : nat) (v : view) : bool := existsb (child_of c) (v_tbl v).

Section wait.
Context {L E : Type} `{CL : CpuLock L} `{SV : ProcServices E}.
Abbreviation K := (kst L E).
Context (P : prot K) (HP : forall x, sv_panics x -> tolerated P x).

(** Before it leaves the zombie list the record is cleared. *)
Definition cleared (r : proc) : proc :=
  r <| kstack := None |> <| pid := 0 |> <| parent := None |> <| name ::= <[0%nat := 0]> |>
    <| killed := 0 |>.

Lemma ok_change_clear v p r st :
  vinv v -> v_tbl v !! p = Some r -> state r = ZOMBIE -> st = ZOMBIE \/ st = UNUSED ->
  ok_change v p ((cleared r) <| state := st |>).
Proof.
  intros H Hr Hst Hz. destruct (vi_wf v H p r Hr) as [W1 W2 W3 W4 W5].
  destruct W5 as [W5 W6]; [by right|]. split.
  - split; unfold cleared; rec_simpl; try done. by rewrite length_insert.
  - right. eapply vinv_unref; [done|done|]. unfold alive. rewrite Hst. naive_solver.
  - done.
Qed.

Lemma wp_wait_reap v s p r (Q : Z -> K -> Prop) :
  rep v s -> vinv v -> v_pt v = true -> v_tbl v !! p = Some r -> state r = ZOMBIE ->
  (forall s', let v' := (a_place p (reaped r) v) <| v_pt := false |> in
     rep v' s' -> vinv v' -> Q (s32 (pid r)) s') ->
  wp P (wait_reap p) s Q.
Proof.
  intros H Hv Hpt Hr Hst HQ. assert (Hlt := lookup_lt_Some _ _ _ Hr).
  assert (Hlt' := rep_lt v s p r H Hr).
  assert (Hup : forall x, v_tbl (a_upd p x v) !! p = Some x)
    by (intros x; by apply list_lookup_insert_eq).
  apply wp_bind. eapply wp_get_proc; [done|done|]. intros n.
  apply wp_bind. eapply wp_on_env; [done|apply sv_kfree_nb|done|]. intros _ s1 H1.
  apply wp_bind. eapply wp_put_proc; [done|done|done|]. intros s2 H2.
  apply wp_bind. eapply wp_get_proc; [done|apply Hup|]. intros n2.
  apply wp_bind. eapply wp_on_env; [done|apply sv_freevm_nb|done|]. intros _ s3 H3.
  apply wp_bind. eapply wp_put_proc; [done|apply Hup|done|]. intros s4 H4. rewrite a_upd_upd in H4.
  change (rep (a_upd p (cleared r) v) s4) in H4.
  assert (Hz : (cleared r) <| state := ZOMBIE |> = cleared r).
  { unfold cleared. destruct r. simpl in Hst. by subst. }
  assert (Hc : vinv (a_upd p (cleared r) v)).
  { rewrite <- Hz. eapply vinv_upd; [done|done|apply ok_change_clear; auto|].
    unfold home. rec_simpl. by rewrite Hst. }
  apply wp_bind. rewrite <- (Hst : state (cleared r) = ZOMBIE).
  eapply wp_leave_state; [done|done|apply Hup|by rewrite (Hst : state (cleared r) = ZOMBIE)|].
  intros s5 H5. apply wp_bind. eapply wp_enter_state; [done|done|done|]. intros s6 H6.
  rewrite a_place_upd in H6. change (rep (a_place p (reaped r) v) s6) in H6.
  apply wp_bind. eapply wp_release; [done|done|]. intros s7 H7. apply wp_ret, HQ; [done|].
  apply (vinv_frame (a_place p (reaped r) v)); [done..|]. eapply vinv_place; [done|done|].
  apply (ok_change_clear v p r UNUSED); auto.
Qed.

(** ** The scan *)

Definition some_child (c : nat) (v : view) (d : list nat) : bool :=
  match first_in (v_tbl v) (child_of c) d with Some _ => true | None => false end.

Lemma some_child_app c v d1 d2 :
  (forall i, i ∈ d1 -> is_Some (v_tbl v !! i)) ->
  some_child c v (d1 ++ d2) = some_child c v d1 || some_child c v d2.
Proof.
  intros Hd. unfold some_child. rewrite first_in_app by done.
  by destruct (first_in _ _ d1), (first_in _ _ d2).
Qed.

Lemma placed_some v q i : vinv v -> i ∈ v_q v q -> is_Some (v_tbl v !! i).
Proof. intros H (r & Hr & _)%(vi_placed v H). eauto. Qed.

Lemma visited_some v sts i : vinv v -> i ∈ visited v sts -> is_Some (v_tbl v !! i).
Proof.
  intros H. unfold visited. rewrite list_elem_of_bind. intros (k & Hi & _).
  unfold visited_at in Hi. case_decide; [|by eapply placed_some].
  apply list_elem_of_bind in Hi as (j & Hi & _). by eapply placed_some.
Qed.

(** Children found so far, one list more. *)
Lemma wp_scan_state v s c st d (Q : bool + Z -> K -> Prop) :
  rep v s -> vinv v -> st <> RUNNABLE -> st <> ZOMBIE ->
  (forall i, i ∈ d -> is_Some (v_tbl v !! i)) ->
  Q (inl (some_child c v (d ++ v_q v (QList (state_num st))))) s ->
  wp P (l <- get_q (QList (state_num st)) ;;
        o <- find_in (child_of c) (head l) ;;
        match o with
        | None => ret (inl (some_child c v d))
        | Some p =>
            r <- get_proc p ;;
            if decide (state r = ZOMBIE) then z <- wait_reap p ;; ret (inr z)
            else ret (inl true)
        end) s Q.
Proof.
  intros H Hv Hr Hz Hd HQ. assert (Hq : valid_q (QList (state_num st)))
    by (destruct st; simpl; unfold statecount; lia).
  apply wp_bind. eapply wp_get_q; [done|done|]. intros x Hx.
  apply wp_bind. eapply wp_find_in; [done|done|done|done|].
  rewrite some_child_app in HQ by done. unfold some_child at 2 in HQ.
  destruct (first_in (v_tbl v) (child_of c) (v_q v (QList (state_num st)))) as [p|] eqn:Hp.
  - apply first_in_Some in Hp as (Hin & _).
    destruct (vinv_q_state v st p Hv Hin) as (r & Hrp & Hst & _).
    apply wp_bind. eapply wp_get_proc; [done|done|]. intros n. rec_simpl.
    rewrite decide_False by congruence. rewrite orb_true_r in HQ. by apply wp_ret.
  - rewrite orb_false_r in HQ. by apply wp_ret.
Qed.

Lemma wp_scan_readies v s c l0 d (Q : bool + Z -> K -> Prop) :
  rep v s -> vinv v -> (forall j, j ∈ l0 -> valid_q (QReady j)) ->
  (forall i, i ∈ d -> is_Some (v_tbl v !! i)) ->
  Q (inl (some_child c v (d ++ (l0 ≫= fun j => v_q v (QReady j))))) s ->
  wp P (mfold l0 (fun havekids j =>
        l <- get_q (QReady j) ;;
        o <- find_in (child_of c) (head l) ;;
        ret (inl (if o is Some _ then true else havekids))) (some_child c v d)) s Q.
Proof.
  intros H Hv. revert d. induction l0 as [|j l0 IH]; intros d Hval Hd HQ.
  { cbn [mbind list_bind] in HQ. rewrite app_nil_r in HQ. by apply wp_ret. }
  assert (Hq : valid_q (QReady j)) by (apply Hval; set_solver).
  cbn [mfold]. apply wp_bind, wp_bind. eapply wp_get_q; [done|exact Hq|]. intros x Hx.
  apply wp_bind. eapply wp_find_in; [done|exact Hq|done|done|]. apply wp_ret.
  replace (if first_in (v_tbl v) (child_of c) (v_q v (QReady j)) is Some _ then true
           else some_child c v d) with (some_child c v (d ++ v_q v (QReady j))).
  2: { rewrite some_child_app by done. unfold some_child at 2.
       destruct (first_in _ _ (v_q v (QReady j))); [apply orb_true_r|apply orb_false_r]. }
  apply IH.
  - set_solver.
  - intros i [Hi|Hi]%elem_of_app; [by apply Hd|by eapply placed_some].
  - cbn [mbind list_bind] in HQ. by rewrite <- app_assoc.
Qed.

Lemma has_child_visited c v :
  vinv v -> has_child c v = some_child c v (before_zombies v ++ zombies v).
Proof.
  intros Hv. apply eq_true_iff_eq. unfold has_child. rewrite existsb_exists.
  assert (Hd : forall i, i ∈ before_zombies v ++ zombies v -> is_Some (v_tbl v !! i)).
  { intros i [Hi|Hi]%elem_of_app; [by eapply visited_some|by eapply placed_some]. }
  unfold some_child. split.
  - intros (r & Hin & Hc). apply list_elem_of_In, list_elem_of_lookup in Hin as [i Hi].
    destruct (first_in _ _ _) eqn:Hf; [done|].
    destruct (before_zombies_cover v i r Hv Hi) as [Hcov|Hu].
    + by rewrite (first_in_None _ _ _ Hd Hf i r Hcov Hi) in Hc.
    + apply bool_decide_eq_true_1 in Hc. by rewrite (wf_orphan r (vi_wf v Hv i r Hi) Hu) in Hc.
  - destruct (first_in _ _ _) as [i|] eqn:Hf; [|done]. intros _.
    apply first_in_Some in Hf as (_ & r & Hr & Hc). exists r. split; [|done].
    apply list_elem_of_In. by eapply list_elem_of_lookup_2.
Qed.

(** The scan reaps the first zombie child, or says whether there are children. *)
Lemma wp_wait_scan v s c (Q : bool + Z -> K -> Prop) :
  rep v s -> vinv v -> v_pt v = true ->
  (forall p r s', dead_child c v = Some p -> v_tbl v !! p = Some r -> state r = ZOMBIE ->
     let v' := (a_place p (reaped r) v) <| v_pt := false |> in
     rep v' s' -> vinv v' -> Q (inr (s32 (pid r))) s') ->
  (dead_child c v = None -> Q (inl (has_child c v)) s) ->
  wp P (wait_scan c) s Q.
Proof.
  intros H Hv Hpt HS HN. unfold wait_scan, live_states. cbn [seq statecount Nat.sub mfold].
  assert (Hvis : forall sts i, i ∈ visited v sts -> is_Some (v_tbl v !! i))
    by (intros; by eapply visited_some).
  apply wp_bind. rewrite decide_False by done.
  eapply (wp_scan_state v s c EMBRYO []); [done|done|done|done|set_solver|]. cbn [app].
  apply wp_bind. rewrite decide_False by done.
  eapply (wp_scan_state v s c SLEEPING); [done|done|done|done|intros i; by apply placed_some|].
  apply wp_bind. rewrite decide_True by done. apply wp_bind.
  eapply wp_check_runnable_empty; [done|done|].
  eapply wp_scan_readies; [done|done|intros j; apply prio_q_valid| |].
  { intros i [Hi|Hi]%elem_of_app; by eapply placed_some. }
  apply wp_bind. rewrite decide_False by done.
  eapply (wp_scan_state v s c RUNNING); [done|done|done|done| |].
  { intros i [[Hi|Hi]%elem_of_app|(j & Hi & _)%list_elem_of_bind]%elem_of_app; by eapply placed_some. }
  apply wp_bind. rewrite decide_False by done. apply wp_bind.
  eapply wp_get_q; [done|simpl; unfold statecount; lia|]. intros x Hx.
  apply wp_bind. eapply (wp_find_in _ v s (QList (state_num ZOMBIE))); [done|simpl; unfold statecount; lia|done|done|].
  fold (zombies v). fold (dead_child c v). destruct (dead_child c v) as [p|] eqn:Hp.
  - pose proof Hp as (Hin & _)%first_in_Some.
    apply (zombies_placed v p Hv) in Hin as (r & Hr & Hst).
    apply wp_bind. eapply wp_get_proc; [done|done|]. intros n. rec_simpl. rewrite decide_True by done.
    apply wp_bind. eapply wp_wait_reap; [done..|]. intros s' v' H' Hv'.
    by apply wp_ret, wp_ret, (HS p r).
  - apply wp_ret, wp_ret. specialize (HN eq_refl). rewrite has_child_visited in HN by done.
    replace (some_child c v (before_zombies v ++ zombies v)) with (some_child c v (before_zombies v)) in HN.
    + unfold before_zombies, visited in HN. cbn [mbind list_bind] in HN.
      rewrite app_nil_r, !app_assoc in HN. exact HN.
    + rewrite some_child_app by apply Hvis. unfold some_child at 3. unfold dead_child in Hp.
      by rewrite Hp, orb_false_r.
Qed.

(** ** One round *)

(** Reap, fail, or sleep until a child exits. *)
Lemma wp_wait_round v s c rc (Q : unit + Z -> K -> Prop) :
  rep v s -> vinv v -> v_pt v = true -> v_own v = false -> v_cur v = Some c ->
  v_tbl v !! c = Some rc -> state rc = RUNNING ->
  (forall p r s', dead_child c v = Some p -> v_tbl v !! p = Some r -> state r = ZOMBIE ->
     let v' := (a_place p (reaped r) v) <| v_pt := false |> in
     rep v' s' -> vinv v' -> Q (inr (s32 (pid r))) s') ->
  (dead_child c v = None -> has_child c v = false \/ killed rc <> 0 ->
     forall s', rep (v <| v_pt := false |>) s' -> Q (inr (-1)) s') ->
  (dead_child c v = None -> has_child c v = true -> killed rc = 0 ->
     forall s1, rep (a_sleep (ChProc c) c rc v) s1 ->
     guar P s1 /\ forall s2, rely P s1 s2 -> exists v2 r2, rep v2 s2 /\
       v_pt v2 = true /\ v_own v2 = false /\ v_tbl v2 !! c = Some r2 /\
       forall s3, rep (a_upd c (r2 <| chan_of_proc := ChNull |>) v2) s3 -> Q (inl tt) s3) ->
  wp P (wait_round c tt) s Q.
Proof.
  intros H Hv Hpt Hown Hcur Hc Hst HZ HF HS. apply wp_bind.
  eapply wp_wait_scan; [done|done|done| |].
  { intros p r s' Hp Hr Hz v' H' Hv'. by apply wp_ret, (HZ p r). }
  intros Hn. apply wp_bind. eapply wp_get_proc; [done|done|]. intros n. rec_simpl.
  assert (Hret : forall s', rep v s' -> has_child c v = false \/ killed rc <> 0 ->
    wp P (release_ptable ;;; ret (inr (-1))) s' Q).
  { intros s' H' Hor. apply wp_bind. eapply wp_release; [done|done|]. intros s2 H2.
    apply wp_ret. by apply HF. }
  destruct (has_child c v) eqn:Hk; cbn [negb orb]; [|by apply Hret; [|left]].
  destruct (Z.eqb_spec (killed rc) 0) as [Hk0|Hk0]; cbn [negb]; [|by apply Hret; [|right]].
  apply wp_bind. eapply (wp_sleep P v s c rc); [done|done|by split|done|done|done|].
  intros s1 H1. assert (H1' : rep (a_sleep (ChProc c) c rc v) s1) by (by destruct v; simpl in *; subst).
  destruct (HS Hn eq_refl Hk0 s1 H1') as [HG HR]. split; [done|]. intros s2 H2.
  destruct (HR s2 H2) as (v2 & r2 & Hr2 & Hpt2 & Hown2 & Hc2 & HQ2).
  exists v2, r2. split_and!; [done..|]. intros s3 H3. apply wp_ret, HQ2.
  by destruct v2; simpl in *; subst.
Qed.

Lemma wp_wait v s c rc fuel (Q : Z -> K -> Prop) :
  rep v s -> vinv v -> v_pt v = false -> v_own v = false -> v_cur v = Some c ->
  v_tbl v !! c = Some rc -> state rc = RUNNING ->
  (forall p r s', dead_child c v = Some p -> v_tbl v !! p = Some r -> state r = ZOMBIE ->
     rep (a_place p (reaped r) v) s' -> vinv (a_place p (reaped r) v) -> Q (s32 (pid r)) s') ->
  (dead_child c v = None -> has_child c v = false \/ killed rc <> 0 ->
     forall s', rep v s' -> Q (-1) s') ->
  (dead_child c v = None -> has_child c v = true -> killed rc = 0 ->
     forall s1, rep ((a_sleep (ChProc c) c rc v) <| v_pt := true |>) s1 ->
     guar P s1 /\ forall s2, rely P s1 s2 -> exists v2 r2, rep v2 s2 /\
       v_pt v2 = true /\ v_own v2 = false /\ v_tbl v2 !! c = Some r2 /\
       forall s3, rep (a_upd c (r2 <| chan_of_proc := ChNull |>) v2) s3 ->
         wp P (mwhile fuel (wait_round c) tt) s3 Q) ->
  wp P (wait (S fuel)) s Q.
Proof.
  intros H Hv Hpt Hown Hcur Hc Hst HZ HF HS.
  apply wp_bind. eapply wp_myproc; [done|]. intros s0 H0. rewrite Hcur.
  apply wp_bind, wp_ret, wp_bind. eapply wp_acquire; [done|done|]. intros s1 H1.
  set (v1 := v <| v_pt := true |>) in *. assert (Hv1 : vinv v1) by (by apply (vinv_frame v)).
  cbn [mwhile]. apply wp_bind.
  eapply (wp_wait_round v1); [done|done|done|done|done|exact Hc|done|..].
  - intros p r s' Hp Hr Hz v' H' Hv'. apply wp_ret, (HZ p r); [done|done|done|..].
    + by destruct v; simpl in Hpt; subst.
    + by apply (vinv_frame v').
  - intros Hn Hor s' H'. apply wp_ret, HF; [done|done|]. by destruct v; simpl in Hpt; subst.
  - intros Hn Hk Hk0. by apply HS.
Qed.

End wait.
