(* ===== verification/ProcSched.v ===== *)
(** * The MLFQ scheduler

    [promote_all] raises every process by one level; [scheduler_round] runs the
    head of the highest non-empty ready queue. *)

From S2P Require Import Prelude Params Spinlock Str ProcDefs StateList Proc ProcInv ProcWake ProcOps ProcExit.

(** ** Promotion: specification *)

Definition promote (r : proc) : proc :=
  if priority r <? Z.of_nat MAXPRIO then r <| budget := BUDGET |> <| priority ::= Z.add 1 |>
  else r <| budget := BUDGET |>.

(** Which processes a promotion touches: a RUNNABLE process that is already at
    the top is not visited. *)
Definition promoted (r : proc) : bool :=
  match state r with
  | SLEEPING | RUNNING => true
  | RUNNABLE => priority r <? Z.of_nat MAXPRIO
  | _ => false
  end.
Definition promote_rec (r : proc) : proc := if promoted r then promote r else r.

(** The ready queues move up by one; the top queue is continued by the one
    below it. *)
Definition raised_q (Q : qref -> list nat) (j : nat) : list nat :=
  if decide (j = MAXPRIO) then Q (QReady MAXPRIO) ++ Q (QReady (MAXPRIO - 1))
  else if decide (j = 0)%nat then [] else Q (QReady (j - 1)).
Definition a_promote (v : view) : view :=
  v <| v_tbl ::= fmap promote_rec |>
    <| v_q := fun q => match q with
                       | QReady j => if decide (j <= MAXPRIO)%nat then raised_q (v_q v) j else v_q v q
                       | _ => v_q v q
                       end |>
    <| v_prom := u32 (v_ticks v + TICKS_TO_PROMOTE) |>.

(** ** One ready queue *)

(** Queue [j] with [d] moved up and [l] left. *)
Definition raise_of (j : nat) (d l : list nat) (v : view) : view :=
  (a_map promote d v) <| v_q := fun q =>
     if decide (q = QReady (S j)) then v_q v q ++ d
     else if decide (q = QReady j) then l else v_q v q |>.

Lemma promote_home r j :
  state r = RUNNABLE -> priority r = Z.of_nat j -> (j < MAXPRIO)%nat ->
  home (promote r) = QReady (S j).
Proof.
  intros Hst Hp Hj. unfold promote. rewrite Hp. destruct (Z.ltb_spec (Z.of_nat j) (Z.of_nat MAXPRIO)); [|lia].
  unfold home. rec_simpl. rewrite decide_True by done. f_equal. lia.
Qed.

Lemma raise_of_step j d i l v r :
  vinv v -> v_q v (QReady j) = d ++ i :: l -> (j < MAXPRIO)%nat -> v_tbl v !! i = Some r ->
  veq (a_place i (promote r) (raise_of j d (i :: l) v)) (raise_of j (d ++ [i]) l v).
Proof.
  intros Hv Hq Hj Hr.
  assert (Hi : i ∈ v_q v (QReady j)) by (rewrite Hq; set_solver).
  destruct (vinv_q_ready v j i Hv Hi) as (r' & Hr' & Hst & Hp). simplify_eq.
  pose proof (vi_nodup v Hv (QReady j)) as Hnd. rewrite Hq in Hnd.
  apply NoDup_middle in Hnd as [Hid Hil].
  assert (Hother : forall q, q <> QReady j -> i ∉ v_q v q).
  { intros q Hne (r'' & Hr'' & Hh)%(vi_placed v Hv). simplify_eq.
    apply Hne. unfold home. rewrite decide_True by done. f_equal. lia. }
  assert (Hh := promote_home r j Hst Hp Hj).
  apply veq_intro.
  - intros q. unfold a_place, a_append, a_unlink, a_upd. rec_simpl. rewrite Hh.
    unfold raise_of. rec_simpl. destruct (decide (q = QReady (S j))) as [->|Hq1].
    + rewrite list_remove_all_notin, <- app_assoc; [done|]. rewrite elem_of_app.
      intros [Hx|Hx]; [|done]. apply (Hother (QReady (S j))); [|done]. intros [= Hx']. lia.
    + destruct (decide (q = QReady j)) as [->|Hq2]; [|by rewrite list_remove_all_notin; auto].
      unfold list_remove_all. rewrite filter_cons_False by auto.
      fold (list_remove_all i l). by apply list_remove_all_notin.
  - unfold raise_of. rewrite (a_map_snoc promote d v i r) by done. done.
Qed.

(** ** All ready queues, from the top *)

(** The queues [k] and above have been handled. *)
Definition rq (k : nat) (Q : qref -> list nat) (j : nat) : list nat :=
  if decide (j < k)%nat then Q (QReady j)
  else if decide (j = k) then (if decide (k = MAXPRIO) then Q (QReady j) else [])
  else if decide (j = MAXPRIO) then Q (QReady MAXPRIO) ++ Q (QReady (MAXPRIO - 1))
  else Q (QReady (j - 1)).
Definition above (k : nat) (v : view) : list nat :=
  rev (seq k (MAXPRIO - k)) ≫= fun j => v_q v (QReady j).
Definition raise_to (k : nat) (v : view) : view :=
  (a_map promote (above k v) v) <| v_q := fun q =>
     match q with
     | QReady j => if decide (j <= MAXPRIO)%nat then rq k (v_q v) j else v_q v q
     | _ => v_q v q
     end |>.

Lemma raise_to_top v : veq (raise_to MAXPRIO v) v.
Proof.
  apply veq_intro.
  - intros [i|j]; unfold raise_to; rec_simpl; [done|]. cbv beta iota. case_decide; [|done]. unfold rq.
    repeat case_decide; try done; lia.
  - unfold raise_to, above. rewrite Nat.sub_diag. cbn [seq rev mbind list_bind]. rewrite a_map_nil. by destruct v.
Qed.

Lemma elem_of_above k v i :
  i ∈ above k v <-> exists j, (k <= j < MAXPRIO)%nat /\ i ∈ v_q v (QReady j).
Proof.
  unfold above. rewrite list_elem_of_bind. split.
  - intros (j & Hi & Hj). exists j. split; [|done].
    rewrite list_elem_of_In, <- in_rev, in_seq in Hj. lia.
  - intros (j & Hj & Hi). exists j. split; [done|].
    rewrite list_elem_of_In, <- in_rev, in_seq. lia.
Qed.

Lemma raise_to_step k v :
  vinv v -> (k < MAXPRIO)%nat ->
  veq (raise_of k (v_q (raise_to (S k) v) (QReady k)) [] (raise_to (S k) v)) (raise_to k v).
Proof.
  intros Hv Hk.
  assert (Hqk : v_q (raise_to (S k) v) (QReady k) = v_q v (QReady k)).
  { unfold raise_to. rec_simpl. cbv beta iota. rewrite decide_True by lia. unfold rq. by rewrite decide_True by lia. }
  rewrite Hqk. apply veq_intro.
  - intros q. unfold raise_of. rec_simpl. unfold raise_to. rec_simpl. cbv beta iota.
    destruct (decide (q = QReady (S k))) as [->|Hq1].
    + assert (Hm : (MAXPRIO - 1)%nat = k \/ S k <> MAXPRIO) by lia. unfold rq.
      replace (S k - 1)%nat with k by lia.
      repeat case_decide; try lia; destruct Hm as [Hm|Hm]; try done; try lia; rewrite ?Hm; congruence.
    + destruct (decide (q = QReady k)) as [->|Hq2].
      { rewrite decide_True by lia. unfold rq. rewrite decide_False by lia.
        rewrite decide_True by done. by rewrite decide_False by lia. }
      destruct q as [i|j]; [done|]. case_decide; [|done].
      assert (j <> S k) by congruence. assert (j <> k) by congruence. unfold rq.
      repeat case_decide; try done; lia.
  - transitivity ((a_map promote (v_q v (QReady k)) (a_map promote (above (S k) v) v)) <| v_q := v_q (raise_to k v) |>);
      [done|]. rewrite a_map_app.
    + unfold raise_to. f_equal. f_equal. unfold above.
      replace (MAXPRIO - k)%nat with (S (MAXPRIO - S k)) by lia.
      cbn [seq rev]. rewrite bind_app. cbn [mbind list_bind]. by rewrite app_nil_r.
    + intros i (j & Hj & (r & Hr & Hh)%(vi_placed v Hv))%elem_of_above.
      intros (r' & Hr' & Hh')%(vi_placed v Hv). simplify_eq. rewrite Hh in Hh'. injection Hh' as ->. lia.
Qed.

(** The three loops together. *)
Lemma a_promote_eq v v2 :
  let v1 := a_map promote (v_q v (QList (state_num SLEEPING))) v in
  vinv v -> veq v2 (raise_to 0 v1) ->
  veq ((a_map promote (v_q v2 (QList (state_num RUNNING))) v2)
         <| v_prom := u32 (v_ticks v2 + TICKS_TO_PROMOTE) |>) (a_promote v).
Proof.
  intros v1 Hv Heq. pose proof Heq as [Hq Htl]. apply veq_intro.
  - intros q. unfold a_promote. rec_simpl. unfold a_map. rec_simpl. rewrite Hq.
    unfold raise_to. rec_simpl. destruct q as [i|j]; [done|]. cbv beta iota. unfold rq, raised_q.
    change (v_q v1) with (v_q v). repeat case_decide; try done; lia.
  - rewrite Hq. change (v_q (raise_to 0 v1) (QList (state_num RUNNING))) with (v_q v (QList (state_num RUNNING))).
    apply a_map_tbl_eq.
    2: { transitivity ((v2 <| v_q := v_q (a_promote v) |> <| v_tbl := v_tbl (a_promote v) |>)
           <| v_prom := u32 (v_ticks v2 + TICKS_TO_PROMOTE) |>); [done|].
         by rewrite (veq_upd _ _ _ _ Heq), (veq_ticks _ _ Heq). }
    intros i. rec_simpl. rewrite a_map_lookup, (veq_tbl _ _ Heq).
    change (v_tbl (raise_to 0 v1)) with (v_tbl (a_map promote (above 0 v1) v1)).
    rewrite a_map_lookup.
    change (v_tbl v1) with (v_tbl (a_map promote (v_q v (QList (state_num SLEEPING))) v)).
    rewrite a_map_lookup. unfold a_promote. rec_simpl.
    rewrite list_lookup_fmap. destruct (v_tbl v !! i) as [r|] eqn:Hr; [|done].
    cbn [fmap option_fmap option_map]. f_equal.
    assert (Hin : forall st, st <> RUNNABLE -> i ∈ v_q v (QList (state_num st)) <-> state r = st).
    { intros st Hne. rewrite (vi_placed v Hv). unfold home. split.
      - intros (r' & Hr' & Hh). assert (r' = r) as -> by congruence.
        case_decide; [done|]. injection Hh. destruct (state r), st; done.
      - intros <-. exists r. split; [done|]. by rewrite decide_False. }
    assert (Hab : i ∈ above 0 v1 <-> state r = RUNNABLE /\ (priority r <? Z.of_nat MAXPRIO) = true).
    { rewrite elem_of_above. change (v_q v1) with (v_q v).
      pose proof (wf_prio r (vi_wf v Hv i r Hr)) as Hp. rewrite Z.ltb_lt. split.
      - intros (j & Hj & Hi). destruct (vinv_q_ready v j i Hv Hi) as (r' & Hr' & Hst & Hpr).
        simplify_eq. split; [done|lia].
      - intros [Hst Hlt]. exists (Z.to_nat (priority r)). split; [lia|]. apply (vi_placed v Hv).
        exists r. split; [done|]. unfold home. by rewrite Hst. }
    pose proof (Hin SLEEPING ltac:(discriminate)) as HS.
    pose proof (Hin RUNNING ltac:(discriminate)) as HR.
    rewrite (bool_decide_ext _ _ HS), (bool_decide_ext _ _ HR), (bool_decide_ext _ _ Hab). unfold promote_rec, promoted.
    destruct (state r); try done. by destruct (priority r <? Z.of_nat MAXPRIO).
Qed.

Section sched.
Context {L E : Type} `{CL : CpuLock L} `{SV : ProcServices E}.
Abbreviation K := (kst L E).
Context (P : prot K).

(** The body of the loop on one process of queue [j]. *)
Lemma wp_promote_one v s j i r (Q : unit -> K -> Prop) :
  rep v s -> vinv v -> (j < MAXPRIO)%nat -> v_tbl v !! i = Some r -> i ∈ v_q v (QReady j) ->
  (forall s', rep (a_place i (promote r) v) s' -> vinv (a_place i (promote r) v) -> Q tt s') ->
  wp P (put_proc i (fun r => r <| budget := BUDGET |>) ;;;
        r <- get_proc i ;;
        when (priority r <? Z.of_nat MAXPRIO)
          (remove_or_panic "Empty List or process is not in list" (QReady (Z.to_nat (priority r))) i ;;;
           assertState i RUNNABLE ;;;
           r <- get_proc i ;;
           (if negb (priority r =? Z.of_nat j) then panic "p->priority not same as in ready list"
            else ret tt) ;;;
           stateListAdd (QReady (Z.to_nat (priority r + 1))) i ;;;
           put_proc i (fun r => r <| priority ::= Z.add 1 |>))) s Q.
Proof.
  intros H Hv Hj Hr Hi HQ. destruct (vinv_q_ready v j i Hv Hi) as (r' & Hr' & Hst & Hp). simplify_eq.
  assert (Hlt := rep_lt v s i r H Hr). assert (Hlt' := lookup_lt_Some _ _ _ Hr).
  assert (Hpr : promote r = r <| budget := BUDGET |> <| priority ::= Z.add 1 |>).
  { unfold promote. by destruct (Z.ltb_spec (priority r) (Z.of_nat MAXPRIO)); [|lia]. }
  set (r1 := r <| budget := BUDGET |>) in *.
  assert (Hup : v_tbl (a_upd i r1 v) !! i = Some r1) by (by apply list_lookup_insert_eq).
  apply wp_bind. eapply wp_put_proc; [done|done|done|]. intros s1 H1. fold r1 in H1.
  apply wp_bind. eapply wp_get_proc; [done|done|]. intros n. unfold r1 at 1 2. rec_simpl.
  destruct (Z.ltb_spec (priority r) (Z.of_nat MAXPRIO)); [|lia]. cbn [when].
  apply wp_bind. eapply wp_remove_or_panic; [done| |].
  { replace (Z.to_nat (priority r)) with j by lia. done. }
  intros s2 H2. apply wp_bind.
  eapply wp_assertState; [done|exact Hup|done|].
  apply wp_bind. eapply wp_get_proc; [done|exact Hup|]. intros n2. unfold r1 at 1 2. rec_simpl.
  rewrite Hp, Z.eqb_refl. apply wp_bind, wp_ret, wp_bind.
  replace (Z.to_nat (Z.of_nat j + 1)) with (S j) by lia.
  eapply wp_stateListAdd; [done|simpl; lia|done| |].
  { intros q [_ Hne]%elem_of_list_remove_all. done. }
  intros s3 H3. eapply wp_put_proc; [done|exact Hup|done|]. intros s4 H4.
  assert (Hpl : a_place i (promote r) v =
    a_upd i (r1 <| priority ::= Z.add 1 |>) (a_append (QReady (S j)) i (a_unlink i (a_upd i r1 v)))).
  { unfold a_place. rewrite (promote_home r j) by done. rewrite Hpr.
    rewrite <- (a_upd_upd i r1 (r1 <| priority ::= Z.add 1 |>) v). done. }
  apply HQ; [by rewrite Hpl|]. eapply vinv_move; [done|done|..]; rewrite Hpr; unfold r1; rec_simpl.
  - right. by left.
  - lia.
  - done.
  - done.
  - done.
Qed.

Lemma wp_promote_ready v s j (Q : unit -> K -> Prop) :
  rep v s -> vinv v -> (j < MAXPRIO)%nat ->
  (forall v' s', veq v' (raise_of j (v_q v (QReady j)) [] v) -> rep v' s' -> vinv v' -> Q tt s') ->
  wp P (promote_ready j) s Q.
Proof.
  intros H Hv Hj HQ. apply wp_bind. eapply wp_get_q; [done|simpl; lia|]. intros x Hx. rewrite Hx.
  apply wp_walk with (I := fun l s => exists d v1, v_q v (QReady j) = d ++ l /\
    veq v1 (raise_of j d l v) /\ vinv v1 /\ rep v1 s).
  - intros i l s1 (d & v1 & Hd & Heq & Hv1 & H1).
    assert (Hq1 : v_q v1 (QReady j) = i :: l).
    { destruct Heq as [Hq _]. rewrite Hq. unfold raise_of. rec_simpl.
      rewrite decide_False by (intros [= Hx']; lia). by rewrite decide_True. }
    assert (Hi : i ∈ v_q v1 (QReady j)) by (rewrite Hq1; set_solver).
    assert (Hi0 : i ∈ v_q v (QReady j)) by (rewrite Hd; set_solver).
    apply (vi_placed v Hv) in Hi0 as (r & Hr & _).
    pose proof (vi_nodup v Hv (QReady j)) as Hnd. rewrite Hd in Hnd.
    apply NoDup_middle in Hnd as [Hid _].
    assert (Hr1 : v_tbl v1 !! i = Some r).
    { rewrite (veq_tbl _ _ Heq). change (v_tbl (a_map promote d v) !! i = Some r).
      rewrite a_map_lookup, Hr. simpl. by rewrite bool_decide_eq_false_2. }
    split; [eapply (rep_linked v1 s1 (QReady j) []); [done|simpl; lia|done]|].
    eapply wp_promote_one; [done|done|done|done|done|]. intros s2 H2 Hv2.
    exists (d ++ [i]), (a_place i (promote r) v1). split_and!; [by rewrite <- app_assoc| |done|done].
    rewrite Heq. by apply raise_of_step.
  - exists [], v. split_and!; [done| |done|done]. apply veq_intro.
    + intros q. unfold raise_of. rec_simpl. rewrite app_nil_r.
      destruct (decide (q = QReady (S j))); [done|]. by destruct (decide (q = QReady j)) as [->|].
    + unfold raise_of. by rewrite a_map_nil.
  - by apply vinv_q_length.
  - intros s' (d & v1 & Hd & Heq & Hv1 & H1). rewrite app_nil_r in Hd. subst d. by eapply HQ.
Qed.

Lemma promote_wf r :
  wf_proc r -> wf_proc (promote r).
Proof.
  intros [W1 W2 W3 W4 W5]. unfold promote.
  destruct (Z.ltb_spec (priority r) (Z.of_nat MAXPRIO)); split; rec_simpl; try done. lia.
Qed.
Lemma promote_fields r :
  state (promote r) = state r /\ parent (promote r) = parent r.
Proof. unfold promote. by destruct (_ <? _). Qed.

Lemma vinv_promote_list v st :
  vinv v -> st <> RUNNABLE -> vinv (a_map promote (v_q v (QList (state_num st))) v).
Proof.
  intros Hv Hst. apply vinv_map; [done|]. intros i r Hi Hr.
  destruct (vinv_q_state v st i Hv Hi) as (r' & Hr' & Hst' & _).
  assert (r' = r) as -> by congruence. destruct (promote_fields r) as [F1 F2]. split_and!.
  - apply promote_wf. by eapply vi_wf.
  - unfold home. rewrite F1. by rewrite !decide_False by congruence.
  - unfold alive. by rewrite F1.
  - rewrite F2. intros j. by apply (vi_parent v Hv i r j).
Qed.

Lemma wp_promote_list v s st (Q : unit -> K -> Prop) :
  rep v s -> vinv v -> st <> RUNNABLE ->
  (forall s', rep (a_map promote (v_q v (QList (state_num st))) v) s' -> Q tt s') ->
  wp P (promote_list (state_num st)) s Q.
Proof.
  intros H Hv Hst HQ. assert (Hq : valid_q (QList (state_num st)))
    by (destruct st; simpl; unfold statecount; lia).
  apply wp_bind. eapply wp_get_q; [done|done|]. intros x Hx.
  eapply wp_walk_map with (g := promote); [done|done|done|done| |done].
  intros i r s1 v1 R Hi Hr H1 Hr1 _ HR. assert (Hlt := lookup_lt_Some _ _ _ Hr1).
  assert (Hup : forall x, v_tbl (a_upd i x v1) !! i = Some x)
    by (intros y; by apply list_lookup_insert_eq).
  apply wp_bind. eapply wp_put_proc; [done|done|done|]. intros s2 H2.
  apply wp_bind. eapply wp_get_proc; [done|apply Hup|]. intros n. rec_simpl.
  unfold promote in HR. destruct (priority r <? Z.of_nat MAXPRIO).
  - eapply wp_put_proc; [done|apply Hup|done|]. intros s3 H3. rewrite a_upd_upd in H3. by apply HR.
  - by apply wp_ret, HR.
Qed.

Lemma wp_promote_readies v s (Q : unit -> K -> Prop) :
  rep v s -> vinv v ->
  (forall v' s', veq v' (raise_to 0 v) -> rep v' s' -> vinv v' -> Q tt s') ->
  wp P (meach (rev (seq 0 MAXPRIO)) promote_ready) s Q.
Proof.
  intros H Hv HQ.
  apply wp_meach with (I := fun l s => exists k v1, l = rev (seq 0 k) /\ (k <= MAXPRIO)%nat /\
    veq v1 (raise_to k v) /\ vinv v1 /\ rep v1 s).
  - intros j l s1 (k & v1 & Hl & Hk & Heq & Hv1 & H1).
    destruct k as [|k]; [done|]. rewrite seq_S, rev_app_distr in Hl. injection Hl as -> ->.
    eapply wp_promote_ready; [done|done|lia|]. intros v2 s2 Heq2 H2 Hv2.
    exists k, v2. split_and!; [done|lia| |done|done]. rewrite Heq2, <- raise_to_step by (done || lia).
    cbn [Nat.add]. destruct Heq as [Hq Heq]. rewrite Hq. apply veq_intro.
    + intros q. unfold raise_of. rec_simpl. by rewrite !Hq.
    + by rewrite <- Heq.
  - exists MAXPRIO, v. split_and!; [done|done| |done|done]. symmetry. apply raise_to_top.
  - intros s' (k & v1 & Hl & Hk & Heq & Hv1 & H1). destruct k as [|k]; [by eapply HQ|].
    rewrite seq_S, rev_app_distr in Hl. done.
Qed.

Lemma wp_promote_all v s (Q : unit -> K -> Prop) :
  rep v s -> vinv v ->
  (forall s', rep (a_promote v) s' -> vinv (a_promote v) -> Q tt s') ->
  wp P promote_all s Q.
Proof.
  intros H Hv HQ. unfold promote_all. cbn [meach]. apply wp_bind, wp_bind.
  rewrite decide_False by done. eapply (wp_promote_list v s SLEEPING); [done|done|done|]. intros s1 H1.
  assert (Hv1 := vinv_promote_list v SLEEPING Hv ltac:(discriminate)).
  apply wp_bind. rewrite decide_True by done. apply wp_bind.
  eapply wp_check_runnable_empty; [done|done|].
  eapply wp_promote_readies; [done|done|]. intros v2 s2 Heq H2 Hv2.
  apply wp_bind. rewrite decide_False by done. eapply (wp_promote_list v2 s2 RUNNING); [done|done|done|]. intros s3 H3.
  assert (Hv3 := vinv_promote_list v2 RUNNING Hv2 ltac:(discriminate)).
  apply wp_ret. eapply wp_ret_intro; [reflexivity|].
  set (v3 := a_map promote (v_q v2 (QList (state_num RUNNING))) v2) in *.
  assert (H4 : rep (v3 <| v_prom := u32 (v_ticks v2 + TICKS_TO_PROMOTE) |>)
    (s3 <| PromoteAtTime := u32 (ticks s3 + TICKS_TO_PROMOTE) |>)).
  { rewrite (rep_ticks _ _ H3). by eapply (wp_set_prom strict v3 s3 _ (fun _ s' => rep _ s')). }
  assert (Hv4 : vinv (v3 <| v_prom := u32 (v_ticks v2 + TICKS_TO_PROMOTE) |>))
    by (by apply (vinv_frame v3)).
  unfold v3 in H4, Hv4. rewrite (a_promote_eq v v2 Hv Heq) in H4, Hv4. by apply HQ.
Qed.

(** ** Choosing and running *)

Context (HP : forall x, sv_panics x -> tolerated P x).

(** The RUNNABLE processes in the order of the scheduler. *)
Definition run_order (v : view) : list nat := prios_down ≫= fun j => v_q v (QReady j).
Definition run_rec (t : Z) (r : proc) : proc := r <| state := RUNNING |> <| cpu_ticks_in := t |>.
Definition a_run (p : nat) (r : proc) (v : view) : view :=
  (a_place p (run_rec (v_ticks v) r) v) <| v_cur := Some p |>.

Lemma wp_run_proc v s i p r (Q : unit -> K -> Prop) :
  rep v s -> vinv v -> v_pt v = true -> v_tbl v !! p = Some r -> p ∈ v_q v (QReady i) ->
  (forall s1, rep (a_run p r v) s1 -> vinv (a_run p r v) ->
     guar P s1 /\ forall s2, rely P s1 s2 -> exists v2, rep v2 s2 /\ v_pt v2 = true /\
       forall s3, rep (v2 <| v_cur := None |>) s3 -> Q tt s3) ->
  wp P (run_proc i p) s Q.
Proof.
  intros H Hv Hpt Hr Hi HQ. destruct (vinv_q_ready v i p Hv Hi) as (r' & Hr' & Hst & Hp).
  assert (r' = r) as -> by congruence. assert (Hlt := rep_lt v s p r H Hr).
  apply wp_bind. eapply wp_setproc; [done|done|]. intros s1 H1.
  set (v1 := v <| v_cur := Some p |>) in *.
  apply wp_bind. eapply wp_get_proc; [done|done|]. intros n.
  apply wp_bind. eapply wp_on_env; [done|apply sv_switchuvm_nb|done|]. intros _ s2 H2.
  apply wp_bind. eapply wp_remove_or_panic; [done|done|]. intros s3 H3.
  assert (H3' : rep (detached p r v1) s3) by (unfold detached; by rewrite a_upd_id).
  apply wp_bind. eapply wp_assertState; [done|by eapply detached_lookup|done|].
  apply wp_bind. eapply wp_enter_state; [done|done|done|]. intros s4 H4.
  apply wp_bind. eapply wp_ticks; [done|].
  change (v_ticks (a_place p (r <| state := RUNNING |>) v1)) with (v_ticks v).
  apply wp_bind. eapply wp_put_proc; [done| |done|].
  { apply list_lookup_insert_eq. by eapply lookup_lt_Some. }
  intros s5 H5. rewrite a_upd_place in H5 by done.
  apply wp_bind. destruct (HQ s5) as [HG HR]; [done| |].
  { apply (vinv_frame (a_place p (run_rec (v_ticks v) r) v)); [done..|].
    eapply vinv_move; [done|done| |by apply (vi_wf v Hv p r)|done..]. right. by right. }
  apply wp_swtch; [done|]. intros s6 H6. destruct (HR s6 H6) as (v6 & Hr6 & Hpt6 & HQ6).
  apply wp_bind. eapply wp_on_env; [done|apply sv_switchkvm_nb|done|]. intros _ s7 H7.
  eapply wp_setproc; [done|done|]. intros s8 H8. by apply HQ6.
Qed.

(** The loop over the queues runs the first process in the order. *)
Lemma wp_pick v s l (Q : option unit -> K -> Prop) :
  rep v s -> vinv v -> v_pt v = true -> (forall j, j ∈ l -> valid_q (QReady j)) ->
  match hd_error (l ≫= fun j => v_q v (QReady j)) with
  | None => Q None s
  | Some p => exists r, v_tbl v !! p = Some r /\ forall s1, rep (a_run p r v) s1 -> vinv (a_run p r v) ->
      guar P s1 /\ forall s2, rely P s1 s2 -> exists v2, rep v2 s2 /\ v_pt v2 = true /\
        forall s3, rep (v2 <| v_cur := None |>) s3 -> Q (Some tt) s3
  end ->
  wp P (mfor l (fun i =>
    l <- get_q (QReady i) ;;
    match head l with
    | Some p => run_proc i p ;;; ret (Some tt)
    | None => ret None
    end)) s Q.
Proof.
  intros H Hv Hpt. induction l as [|j l IH]; intros Hval HQ; [by apply wp_ret|].
  cbn [mfor]. apply wp_bind, wp_bind. assert (Hj : valid_q (QReady j)) by (apply Hval; set_solver).
  eapply wp_get_q; [done|exact Hj|]. intros x Hx. rewrite Hx. cbn [mbind list_bind] in HQ.
  destruct (v_q v (QReady j)) as [|p k] eqn:Hq; cbn [hd_error].
  - apply wp_ret, IH; [|done]. intros j' Hj'. apply Hval. set_solver.
  - destruct HQ as (r & Hr & HQ). apply wp_bind.
    eapply wp_run_proc; [done|done|done|done|by rewrite Hq; set_solver|].
    intros s1 H1 Hv1. destruct (HQ s1 H1 Hv1) as [HG HR]. split; [done|]. intros s2 H2.
    destruct (HR s2 H2) as (v2 & Hr2 & Hpt2 & HQ2). exists v2. split_and!; [done|done|].
    intros s3 H3. by apply wp_ret, wp_ret, HQ2.
Qed.

(** The view on which the choice is made. *)
Definition a_due (v : view) : view := if v_prom v <=? v_ticks v then a_promote v else v.

Lemma wp_scheduler_round v s (Q : bool -> K -> Prop) :
  rep v s -> vinv v -> v_pt v = false ->
  match hd_error (run_order (a_due v)) with
  | None => forall s', rep (a_due v) s' -> vinv (a_due v) -> Q true s'
  | Some p => exists r, v_tbl (a_due v) !! p = Some r /\
      forall s1, rep ((a_run p r (a_due v)) <| v_pt := true |>) s1 -> vinv (a_run p r (a_due v)) ->
      guar P s1 /\ forall s2, rely P s1 s2 -> exists v2, rep v2 s2 /\ v_pt v2 = true /\
        forall s3, rep (v2 <| v_cur := None |> <| v_pt := false |>) s3 -> Q false s3
  end ->
  wp P scheduler_round s Q.
Proof.
  intros H Hv Hpt HQ. apply wp_bind. eapply wp_acquire; [done|done|]. intros s1 H1.
  set (v1 := v <| v_pt := true |>) in *. assert (Hv1 : vinv v1) by (by apply (vinv_frame v)).
  apply wp_bind. eapply wp_ticks; [done|]. apply wp_bind. eapply wp_prom; [done|].
  apply wp_bind. eapply (wp_mono _ _ _ (fun _ s' => rep ((a_due v) <| v_pt := true |>) s' /\ vinv (a_due v))).
  { change (v_prom v1) with (v_prom v). change (v_ticks v1) with (v_ticks v).
    unfold a_due. destruct (v_prom v <=? v_ticks v); [|by apply wp_ret].
    eapply wp_promote_all; [done|done|]. intros s2 H2 Hv2. split; [done|].
    by apply (vinv_frame (a_promote v1)). }
  intros [] s2 [H2 Hv2].
  assert (Hpd : v_pt (a_due v) = false) by (unfold a_due; by destruct (_ <=? _)).
  set (w := a_due v) in *. assert (Hw : vinv (w <| v_pt := true |>)) by (by apply (vinv_frame w)).
  apply wp_bind. eapply wp_pick; [done|done|done|intros j; apply prio_q_valid|].
  change (prios_down ≫= _) with (run_order w).
  destruct (hd_error (run_order w)) as [p|].
  - destruct HQ as (r & Hr & HQ). exists r. split; [done|]. intros s3 H3 Hv3.
    destruct (HQ s3) as [HG HR]; [done| |].
    { by apply (vinv_frame (a_run p r (w <| v_pt := true |>))). }
    split; [done|]. intros s4 H4. destruct (HR s4 H4) as (v4 & Hr4 & Hpt4 & HQ4).
    exists v4. split_and!; [done|done|]. intros s5 H5. apply wp_bind.
    eapply wp_release; [done|done|]. intros s6 H6. by apply wp_ret, HQ4.
  - apply wp_bind. eapply wp_release; [done|done|]. intros s3 H3. apply wp_ret.
    apply HQ; [|done]. clearbody w. by destruct w; simpl in Hpd; subst.
Qed.

End sched.
