(* ===== verification/ProcBoot.v ===== *)
(** * userinit

    [initProcessLists] and [initFreeList] put every process on the free list;
    [userinit] then makes the first process.  From a zeroed process table this
    establishes the invariant. *)

From S2P Require Import Prelude Params Spinlock Str ProcDefs StateList Proc ProcInv ProcWake ProcFork.

Section boot.
Context {L E : Type} `{CL : CpuLock L} `{SV : ProcServices E}.
Abbreviation K := (kst L E).
Context (P : prot K).

(** The table as the loader leaves it. *)
Record zeroed (s : K) : Prop := {
  z_procs : procs s = replicate NPROC zero_proc;
  z_lists : length (lists s) = statecount;
  z_ready : length (ready s) = S MAXPRIO;
}.

(** The first [k] processes are on the free list. *)
Definition free_view (k : nat) (s : K) (pt : bool) : view :=
  View (replicate NPROC zero_proc)
    (fun q => if decide (q = QList (state_num UNUSED)) then seq 0 k else [])
    (PromoteAtTime s) (nextpid s) (initproc s) (ticks s) false pt (curp (cpu s)).

Lemma zero_wf : wf_proc zero_proc.
Proof. by split. Qed.

Lemma wp_put_qs (f : nat -> qref) l s (Q : unit -> K -> Prop) :
  (forall i, i ∈ l -> is_Some (lookup_q s (f i))) -> (forall i j, f i = f j -> i = j) ->
  (forall s', procs s' = procs s -> length (lists s') = length (lists s) ->
     length (ready s') = length (ready s) -> s' = s <| lists := lists s' |> <| ready := ready s' |> ->
     (forall i, i ∈ l -> lookup_q s' (f i) = Some null_list) ->
     (forall q, (forall i, i ∈ l -> q <> f i) -> lookup_q s' q = lookup_q s q) -> Q tt s') ->
  wp P (meach l (fun i => put_q (f i) (fun _ => null_list))) s Q.
Proof.
  intros Hs Hinj HQ.
  apply wp_meach with (I := fun l' s' => exists d, l = d ++ l' /\ procs s' = procs s /\
    length (lists s') = length (lists s) /\ length (ready s') = length (ready s) /\
    s' = s <| lists := lists s' |> <| ready := ready s' |> /\
    (forall i, i ∈ d -> lookup_q s' (f i) = Some null_list) /\
    (forall q, (forall i, i ∈ d -> q <> f i) -> lookup_q s' q = lookup_q s q)).
  - intros i l' s1 (d & Hd & H1 & H2 & H3 & H4 & H5 & H6).
    assert (Hi : is_Some (lookup_q s1 (f i))).
    { destruct (decide (i ∈ d)) as [Hid|Hid]; [rewrite H5 by done; eauto|].
      rewrite H6; [apply Hs; rewrite Hd; set_solver|]. intros j Hj Heq. by apply Hinj in Heq as ->. }
    unfold wp, put_q. destruct Hi as [x Hx]. rewrite Hx. simpl. exists (d ++ [i]).
    rewrite <- app_assoc. split; [done|].
    change (insert_q (f i) null_list s1) with (mk s1 (f i) null_list (procs s1)).
    split_and!; [by rewrite procs_mk| | | | |].
    + rewrite <- H2. destruct (f i); simpl; by rewrite ?length_insert.
    + rewrite <- H3. destruct (f i); simpl; by rewrite ?length_insert.
    + clear -H4. destruct s, s1. unfold upd in H4. simpl in H4. inversion H4. subst. by destruct (f i).
    + intros j Hj. destruct (decide (j = i)) as [->|Hne]; [by apply lookup_q_mk; eauto|].
      rewrite lookup_q_mk_ne by (intros Heq; by apply Hinj in Heq). apply H5. set_solver.
    + intros q Hq. rewrite lookup_q_mk_ne by (apply Hq; set_solver). apply H6. set_solver.
  - exists []. split_and!; try done; [by destruct s|set_solver].
  - intros s' (d & Hd & H1 & H2 & H3 & H4 & H5 & H6). rewrite app_nil_r in Hd. subst d. by apply HQ.
Qed.

Lemma wp_initProcessLists s (Q : unit -> K -> Prop) :
  zeroed s ->
  (forall s', procs s' = procs s -> s' = s <| lists := lists s' |> <| ready := ready s' |> ->
     lists_ok s' (fun _ => []) -> Q tt s') ->
  wp P initProcessLists s Q.
Proof.
  intros [Z1 Z2 Z3] HQ. apply wp_bind.
  apply (wp_put_qs QList (seq 0 statecount)).
  { intros i Hi%elem_of_seq. simpl. apply lookup_lt_is_Some_2. lia. }
  { by intros i j [= ->]. }
  intros s1 A1 A2 A3 A4 A5 A6. apply (wp_put_qs QReady (seq 0 (S MAXPRIO))).
  { intros i Hi%elem_of_seq. simpl. apply lookup_lt_is_Some_2. lia. }
  { by intros i j [= ->]. }
  intros s2 B1 B2 B3 B4 B5 B6. apply HQ; [congruence| |].
  { clear -A4 B4. destruct s, s1, s2. unfold upd in *. simpl in *. inversion A4. inversion B4. by subst. }
  assert (Hnull : forall q v, lookup_q s2 q = Some v -> v = null_list).
  { intros [i|j] v Hv.
    - assert (Hi : i ∈ seq 0 statecount).
      { apply elem_of_seq. simpl in Hv. apply lookup_lt_Some in Hv. lia. }
      rewrite B6, A5 in Hv by done. congruence.
    - assert (Hj : j ∈ seq 0 (S MAXPRIO)).
      { apply elem_of_seq. simpl in Hv. apply lookup_lt_Some in Hv. lia. }
      rewrite B5 in Hv by done. congruence. }
  split.
  - rewrite B1, A1, Z1. apply length_replicate.
  - congruence.
  - congruence.
  - intros q v ->%Hnull. by split.
  - intros q. constructor.
  - set_solver.
  - set_solver.
Qed.

Lemma free_view_step k s pt :
  veq (a_append (QList (state_num UNUSED)) k (free_view k s pt)) (free_view (S k) s pt).
Proof.
  apply veq_intro; [|done]. intros q. unfold a_append. rec_simpl.
  unfold free_view. cbn [v_q]. case_decide; [|done]. by rewrite seq_S.
Qed.

Lemma vinv_free_view s pt : initproc s = None -> vinv (free_view NPROC s pt).
Proof.
  intros Hi. assert (Hlk : forall i r, v_tbl (free_view NPROC s pt) !! i = Some r ->
    r = zero_proc /\ (i < NPROC)%nat).
  { intros i r. cbn [free_view v_tbl]. by rewrite lookup_replicate. }
  split.
  - cbn [free_view v_tbl]. apply length_replicate.
  - intros q. cbn [free_view v_q]. case_decide; [apply NoDup_seq|constructor].
  - intros i q. cbn [free_view v_q v_tbl]. split.
    + case_decide as Hq; [|set_solver]. intros Hi'%elem_of_seq. exists zero_proc.
      rewrite lookup_replicate. split; [split; [done|lia]|]. by rewrite Hq.
    + intros (r & Hr & Hh). apply Hlk in Hr as [-> Hlt]. rewrite <- Hh.
      rewrite decide_True by done. apply elem_of_seq. lia.
  - intros i r [-> _]%Hlk. apply zero_wf.
  - by intros i r j [-> _]%Hlk.
  - intros i. cbn [free_view v_init]. by rewrite Hi.
Qed.

Lemma wp_initFreeList s s0 pt (Q : unit -> K -> Prop) :
  rep (free_view 0 s0 pt) s ->
  (forall s', rep (free_view NPROC s0 pt) s' -> Q tt s') ->
  wp P initFreeList s Q.
Proof.
  intros H HQ.
  apply wp_meach with (I := fun l s => exists k, l = seq k (NPROC - k) /\ (k <= NPROC)%nat /\
    rep (free_view k s0 pt) s).
  - intros i l s1 (k & Hl & Hk & H1).
    destruct (NPROC - k)%nat as [|m] eqn:Hm; [done|]. simpl in Hl. injection Hl as -> ->.
    assert (Hr : v_tbl (free_view k s0 pt) !! k = Some zero_proc).
    { cbn [free_view v_tbl]. rewrite lookup_replicate. split; [done|lia]. }
    apply wp_bind. eapply wp_put_proc; [done|done|done|]. intros s2 H2.
    change (zero_proc <| state := UNUSED |>) with zero_proc in H2. rewrite a_upd_id in H2 by done.
    eapply wp_stateListAdd; [done|simpl; unfold statecount; lia|lia| |].
    { intros q. cbn [free_view v_q]. case_decide; [|set_solver]. rewrite elem_of_seq. lia. }
    intros s3 H3. rewrite free_view_step in H3. exists (S k). split_and!; [f_equal; lia|lia|done].
  - exists 0%nat. split_and!; [by rewrite Nat.sub_0_r|lia|done].
  - intros s' (k & Hl & Hk & H1).
    assert (k = NPROC) as -> by (destruct (NPROC - k)%nat eqn:Hm; [lia|done]). by apply HQ.
Qed.

(** ** The first process *)

Definition first_proc (r : proc) (n : Z) : Prop :=
  state r = RUNNABLE /\ pid r = n /\ parent r = None /\ priority r = Z.of_nat MAXPRIO /\
  budget r = BUDGET /\ sz r = PGSIZE /\ tf r = user_tf /\ uid r = DEFAULT_UID /\
  gid r = DEFAULT_GID /\ cstr (name r) = cstr initcode_name /\ ofile r = replicate NOFILE None.

Definition boot_view (r : proc) (s : K) : view :=
  (a_place 0 r (a_bump (free_view NPROC s false)))
    <| v_init := Some 0%nat |> <| v_prom := u32 (ticks s + TICKS_TO_PROMOTE) |>.

Lemma vinv_boot_view r s :
  initproc s = None -> first_proc r (nextpid s) -> wf_proc r -> vinv (boot_view r s).
Proof.
  intros Hi (F1 & _ & F3 & _) Hwf. set (v0 := a_bump (free_view NPROC s false)).
  assert (Hv0 : vinv v0) by (apply (vinv_frame (free_view NPROC s false)); [done..|by apply vinv_free_view]).
  assert (Hr0 : v_tbl v0 !! 0%nat = Some zero_proc) by done.
  assert (Ha : alive r) by (right; by left).
  assert (Hv1 : vinv (a_place 0 r v0)).
  { eapply vinv_place; [done|done|]. eapply ok_change_keep; [done|done|done|done|by left]. }
  apply (vinv_frame ((a_place 0 r v0) <| v_init := Some 0%nat |>)); [done..|].
  eapply vinv_set_init; [done| |done]. apply list_lookup_insert_eq.
  exact (lookup_lt_Some _ _ _ Hr0).
Qed.

(** The part of [userinit] that fills in the process. *)
Lemma wp_userinit_fill v s re n (Q : unit -> K -> Prop) :
  (forall x, sv_panics x -> tolerated P x) -> tolerated P "userinit: out of memory?" ->
  (forall v s, rep v s -> guar P s) -> (forall v s1 s2, rep v s1 -> rely P s1 s2 -> rep v s2) ->
  rep v s -> v_pt v = false -> v_tbl v !! 0%nat = Some re ->
  0%nat ∈ v_q v (QList (state_num EMBRYO)) -> state re = EMBRYO ->
  pid re = n -> parent re = None -> priority re = Z.of_nat MAXPRIO -> budget re = BUDGET ->
  length (name re) = 16%nat -> ofile re = replicate NOFILE None ->
  (forall r s', first_proc r n -> wf_proc r ->
     rep ((a_place 0 r v) <| v_prom := u32 (v_ticks v + TICKS_TO_PROMOTE) |>) s' -> Q tt s') ->
  wp P (d <- on_env sv_setupkvm ;;
        p <- nonnull (Some 0%nat) ;;
        put_proc p (fun r => r <| pgdir := d |>) ;;;
        match d with
        | None => panic "userinit: out of memory?"
        | Some pd =>
            on_env (sv_inituvm pd) ;;;
            put_proc p (fun r => r <| sz := PGSIZE |> <| tf := user_tf |>) ;;;
            set_name p initcode_name ;;;
            w <- on_env (sv_namei root_path) ;;
            put_proc p (fun r => r <| cwd := w |>) ;;;
            acquire_ptable ;;;
            leave_state "Empty list or process not in list" p EMBRYO ;;;
            put_proc p (fun r => r <| state := RUNNABLE |> <| uid := DEFAULT_UID |> <| gid := DEFAULT_GID |>) ;;;
            modify (fun s => s <| PromoteAtTime := u32 (ticks s + TICKS_TO_PROMOTE) |>) ;;;
            q <- ready_of_prio p ;;
            stateListAdd q p ;;;
            release_ptable
        end) s Q.
Proof.
  intros HP Hpan Hg Hrel H Hpt Hr Hin F1 F2 F3 F4 F5 F6 F7 HQ.
  assert (Hlt := lookup_lt_Some _ _ _ Hr). assert (Hlt' := rep_lt v s _ _ H Hr).
  assert (Hup : forall x, v_tbl (a_upd 0 x v) !! 0%nat = Some x)
    by (intros x; by apply list_lookup_insert_eq).
  apply wp_bind. eapply wp_on_env; [done|apply sv_setupkvm_nb|done|]. intros d s1 H1.
  apply wp_bind, wp_ret, wp_bind. eapply wp_put_proc; [done|done|done|]. intros s2 H2.
  destruct d as [pd|]; [|done].
  apply wp_bind. eapply wp_on_env; [done|apply sv_inituvm_nb|done|]. intros [] s3 H3.
  apply wp_bind. eapply wp_put_proc; [done|apply Hup|done|]. intros s4 H4. rewrite a_upd_upd in H4.
  apply wp_bind. eapply wp_set_name; [done|apply Hup|done|left; unfold terminated; set_solver|].
  intros nm s5 Hnm Hnml H5. rewrite a_upd_upd in H5.
  apply wp_bind. eapply (wp_on_env_blocking P _ (rep _)); [done|intros e s0; apply rep_env|apply Hg|apply Hrel|exact H5|apply sv_namei_bl|].
  intros w s6 H6. apply wp_bind. eapply wp_put_proc; [done|apply Hup|done|]. intros s7 H7. rewrite a_upd_upd in H7.
  set (r7 := re <| pgdir := Some pd |> <| sz := PGSIZE |> <| tf := user_tf |> <| name := nm |> <| cwd := w |>) in *.
  apply wp_bind. eapply wp_acquire; [done|done|]. intros s8 H8.
  apply wp_bind. rewrite <- (F1 : state r7 = EMBRYO).
  eapply wp_leave_state_in; [done|apply Hup|by rewrite (F1 : state r7 = EMBRYO)|].
  intros s9 H9. apply wp_bind. eapply wp_put_detached; [done|done|done|]. intros s10 H10.
  set (r10 := r7 <| state := RUNNABLE |> <| uid := DEFAULT_UID |> <| gid := DEFAULT_GID |>) in *.
  apply wp_bind. eapply wp_ret_intro; [reflexivity|].
  assert (H11 : rep (detached 0 r10 ((v <| v_pt := true |>) <| v_prom := u32 (v_ticks v + TICKS_TO_PROMOTE) |>))
      (s10 <| PromoteAtTime := u32 (ticks s10 + TICKS_TO_PROMOTE) |>)).
  { rewrite (rep_ticks _ _ H10). unfold detached. rewrite <- (a_upd_upd 0 r7 r10).
    by eapply (wp_set_prom strict _ s10 _ (fun _ s' => rep _ s')); [exact H10|]. }
  apply wp_bind, wp_bind. eapply wp_get_proc; [done|by eapply detached_lookup|]. intros m. apply wp_ret.
  assert (Hh : home r10 = QReady MAXPRIO).
  { unfold home. rewrite decide_True by done. change (priority r10) with (priority re). rewrite F4. f_equal. }
  apply wp_bind. eapply wp_add_detached; [done|done|rewrite Hh; simpl; lia| |].
  { rewrite Hh. rec_simpl. change (priority r10) with (priority re). rewrite F4. f_equal. }
  intros s12 H12. eapply wp_release; [done|done|]. intros s13 H13.
  apply (HQ r10).
  - unfold first_proc. by repeat split.
  - assert (P1 : priority r10 = priority re) by reflexivity.
    assert (P2 : ofile r10 = ofile re) by reflexivity.
    assert (P3 : state r10 = RUNNABLE) by reflexivity.
    split; [rewrite P1, F4; lia|by rewrite P2, F7|exact Hnml|by rewrite P3|rewrite P3; by intros [|]].
  - by destruct v; simpl in Hpt; subst.
Qed.

(** [userinit] from the zeroed table, if the first kernel stack can be
    allocated. *)
Lemma wp_userinit s (Q : unit -> K -> Prop) :
  (forall x, sv_panics x -> tolerated P x) -> tolerated P "userinit: out of memory?" ->
  (forall v s, rep v s -> guar P s) -> (forall v s1 s2, rep v s1 -> rely P s1 s2 -> rep v s2) ->
  (forall e, sv_ret sv_kalloc e (fun k => k <> None)) ->
  zeroed s -> holds (cpu s) false false -> initproc s = None ->
  (forall r s', first_proc r (nextpid s) -> rep (boot_view r s) s' -> vinv (boot_view r s) -> Q tt s') ->
  wp P userinit s Q.
Proof.
  intros HP Hpan Hg Hrel Hka Hz Hho Hi HQ. destruct (lk_acquire_pt_ok _ _ Hho) as (l & Hl & Hh & Hc).
  apply wp_bind. eapply wp_ret_intro.
  { unfold acquire_ptable, on_cpu, lift. by rewrite Hl. }
  apply wp_bind. eapply wp_initProcessLists; [destruct Hz; by split|]. intros s1 H1 H2 H3.
  assert (Hr1 : rep (free_view 0 s true) s1).
  { destruct Hz as [Z1 Z2 Z3]. split; [| |by rewrite H2..|by rewrite H2].
    - eapply lists_ok_ext; [|done]. intros q. cbn [free_view v_q]. by case_decide.
    - rewrite H1. change (unlinked <$> procs s = replicate NPROC zero_proc). rewrite Z1.
      apply fmap_replicate. }
  apply wp_bind. eapply wp_initFreeList; [done|]. intros s2 Hr2.
  apply wp_bind. eapply wp_release; [done|done|]. intros s3 Hr3.
  set (v0 := free_view NPROC s false). change (rep v0 s3) in Hr3.
  assert (Hv0 : vinv v0) by (by apply vinv_free_view).
  apply wp_bind. eapply (wp_allocproc_ret P HP v0 s3 (fun k => k <> None)); [done|done|done|done|done|].
  intros p l' r Hu Hr Hst. assert (p = 0%nat) as -> by (injection Hu; congruence).
  assert (r = zero_proc) as -> by (injection Hr; congruence).
  split; [done|]. intros ks s4 Hr4 Hv4.
  destruct (embryo_fields (nextpid s) ks zero_proc) as (F1 & F2 & F3 & F4 & F5 & F6 & F7).
  assert (F8 : budget (embryo_rec (nextpid s) ks zero_proc) = BUDGET) by done.
  revert Hr4 Hv4 F1 F2 F3 F4 F5 F6 F7 F8. change (v_nextpid v0) with (nextpid s).
  generalize (embryo_rec (nextpid s) ks zero_proc) as re.
  intros re Hr4 Hv4 F1 F2 F3 F4 F5 F6 F7 F8.
  apply wp_bind. eapply wp_set_init; [done|]. intros s5 Hr5.
  assert (Hlt : (0 < length (v_tbl v0))%nat) by (cbn [v0 free_view v_tbl]; rewrite length_replicate; unfold NPROC; lia).
  eapply (wp_userinit_fill _ s5 re (nextpid s)); [done|done|done|done|exact Hr5|done| | |done|done|by rewrite F3|done|done|by rewrite F5|by rewrite F4|].
  - by apply list_lookup_insert_eq.
  - apply (elem_of_a_place (a_bump v0) 0 re). right. split; [done|]. unfold home. by rewrite F1.
  - intros r s6 Hf Hwf H6. assert (Hb := vinv_boot_view r s Hi Hf Hwf).
    assert (Heq : veq ((a_place 0 r ((a_place 0 re (a_bump v0)) <| v_init := Some 0%nat |>))
        <| v_prom := u32 (ticks s + TICKS_TO_PROMOTE) |>) (boot_view r s)).
    { destruct (a_place_place 0 re r (a_bump v0)) as [Hq He]. apply veq_intro; [exact Hq|].
      unfold boot_view. fold v0. rewrite <- He. done. }
    apply (HQ r); [done| |done]. by rewrite <- Heq.
Qed.

End boot.
