(* ===== verification/Demo.v ===== *)
(** * Concrete kernels

    Every view that satisfies the invariant is represented by a linked kernel
    state ([build]).  The file gives concrete services and views on which the
    theorems about proc.c are instantiated. *)

From S2P Require Import Prelude Params Spinlock Str ProcDefs StateList Proc ProcInv ProcWake ProcFork ProcBoot.

(** ** Linking a view *)

(** What follows [i] in a list. *)
Fixpoint succ_in (i : nat) (l : list nat) : option nat :=
  match l with
  | [] => None
  | x :: l => if decide (x = i) then hd_error l else succ_in i l
  end.

Lemma succ_in_middle i k l : i ∉ k -> succ_in i (k ++ i :: l) = hd_error l.
Proof.
  induction k as [|x k IH]; intros Hi; simpl; [by rewrite decide_True|].
  apply not_elem_of_cons in Hi as [Hne Hi]. rewrite decide_False by done. by apply IH.
Qed.

Definition build {L E} (v : view) (l : L) (e : E) : kst L E :=
  KSt (imap (fun i r => r <| next := succ_in i (v_q v (home r)) |>) (v_tbl v))
    ((fun i => Ptrs (hd_error (v_q v (QList i))) (last (v_q v (QList i)))) <$> seq 0 statecount)
    ((fun j => Ptrs (hd_error (v_q v (QReady j))) (last (v_q v (QReady j)))) <$> seq 0 (S MAXPRIO))
    (v_prom v) (v_nextpid v) (v_init v) (v_ticks v) l e.

Section build.
Context {L E : Type} `{CL : CpuLock L}.

Lemma build_seg v q k l (s : kst L E) :
  vinv v -> procs s = imap (fun i r => r <| next := succ_in i (v_q v (home r)) |>) (v_tbl v) ->
  v_q v q = k ++ l -> seg (procs s) (hd_error l) l None.
Proof.
  intros Hv Hs. revert k. induction l as [|i l IH]; intros k Hq; [done|]. split; [done|].
  assert (Hi : i ∈ v_q v q) by (rewrite Hq; set_solver).
  apply (vi_placed v Hv) in Hi as (r & Hr & Hh). eexists. split.
  - rewrite Hs, list_lookup_imap, Hr. reflexivity.
  - rec_simpl. rewrite Hh, Hq, succ_in_middle.
    + apply (IH (k ++ [i])). by rewrite <- app_assoc.
    + pose proof (vi_nodup v Hv q) as Hnd. rewrite Hq in Hnd. by apply NoDup_middle in Hnd as [? _].
Qed.

Lemma build_rep v (l : L) (e : E) :
  vinv v -> Forall (fun r => next r = None) (v_tbl v) ->
  holds l (v_own v) (v_pt v) -> curp l = v_cur v -> rep v (build v l e).
Proof.
  intros Hv Hn Hh Hc. split; try done.
  - split.
    + cbn [build procs]. rewrite length_imap. apply Hv.
    + cbn [build lists]. by rewrite length_fmap, length_seq.
    + cbn [build ready]. by rewrite length_fmap, length_seq.
    + intros q x Hx. assert (Hx' : x = Ptrs (hd_error (v_q v q)) (last (v_q v q))).
      { destruct q as [i|j]; cbn [lookup_q build lists ready] in Hx;
          rewrite list_lookup_fmap in Hx; destruct (_ !! _) as [y|] eqn:Hy in Hx; try done;
          apply lookup_seq in Hy as [-> _]; by injection Hx as <-. }
      rewrite Hx'. split; [|done]. by eapply (build_seg v q []).
    + apply Hv.
    + intros q1 q2 i (r1 & Hr1 & <-)%(vi_placed v Hv) (r2 & Hr2 & <-)%(vi_placed v Hv). by simplify_eq.
    + intros q i (r & Hr & <-)%(vi_placed v Hv). apply home_valid. by eapply vi_wf.
  - cbn [build procs]. apply list_eq. intros i. rewrite list_lookup_fmap, list_lookup_imap.
    destruct (v_tbl v !! i) as [r|] eqn:Hr; [|done]. simpl. f_equal.
    rewrite Forall_lookup in Hn. specialize (Hn i r Hr). unfold unlinked. clear -Hn. destruct r.
    simpl in Hn. by subst.
Qed.
End build.

(** ** A machine with one CPU *)

#[export] Existing Instance Spin.mach_CpuLock.

Definition demo_mach (cur : option nat) : Spin.mach :=
  Spin.Mach [Spin.Cpu 0 0 0 cur] 0 FL_IF
    [Spin.Spinlock 0 "ptable" None; Spin.Spinlock 0 "own" None].
Definition demo_mach_locked (cur : option nat) : Spin.mach :=
  Spin.Mach [Spin.Cpu 0 1 1 cur] 0 0
    [Spin.Spinlock 1 "ptable" (Some 0%nat); Spin.Spinlock 0 "own" None].

Lemma demo_mach_holds cur : holds (demo_mach cur) false false.
Proof.
  split; [simpl; lia|]. exists 0%nat. split; try done.
  - by eexists.
  - constructor.
  - set_solver.
  - intros i l Hl _. destruct i as [|[|i]]; simpl in Hl; by simplify_eq.
Qed.

Lemma demo_mach_locked_holds cur : holds (demo_mach_locked cur) false true.
Proof.
  split; [simpl; lia|]. exists 0%nat. split; try done.
  - by eexists.
  - apply NoDup_singleton.
  - intros i Hi. apply list_elem_of_singleton in Hi as ->. by eexists.
  - intros i l Hl Hi. destruct i as [|[|i]]; simpl in Hl; simplify_eq; [|done].
    exfalso. apply Hi. by left.
Qed.

(** ** Services that always succeed *)

#[export] Instance demo_sv : ProcServices unit.
Proof.
  refine {|
    sv_kalloc := ret (Some 8192); sv_kfree _ := ret tt; sv_setupkvm := ret (Some 4096);
    sv_inituvm _ := ret tt; sv_copyuvm _ _ := ret (Some 12288); sv_freevm _ := ret tt;
    sv_allocuvm _ _ z := ret z; sv_deallocuvm _ _ z := ret z;
    sv_switchuvm _ _ := ret tt; sv_switchkvm := ret tt;
    sv_filedup f := ret f; sv_idup i := ret i; sv_fileclose _ := ret tt;
    sv_begin_op := ret tt; sv_end_op := ret tt; sv_iput _ := ret tt;
    sv_namei _ := ret (Some 1); forkret_addr := 1000; trapret_addr := 2000;
    sv_panics _ := False |}; done.
Defined.

(** ** Views *)

Definition demo_proc (st : procstate) (n : Z) (par : option nat) (prio : Z) (ch : chan) : proc :=
  Eval cbv in
  zero_proc <| state := st |> <| pid := n |> <| parent := par |> <| priority := prio |>
    <| budget := BUDGET |> <| chan_of_proc := ch |> <| kstack := Some 8192 |> <| pgdir := Some 4096 |>.
Definition with_cwd (r : proc) : proc := r <| cwd := Some 1 |>.

Definition demo_free (cur : option nat) : view :=
  View (replicate NPROC zero_proc)
    (fun q => if decide (q = QList (state_num UNUSED)) then seq 0 NPROC else [])
    1000 10 None 500 false false cur.

(** Init runs; it has a sleeping child, a zombie child and two runnable ones. *)
Definition demo_view : view :=
  (a_place 4 (demo_proc RUNNABLE 5 (Some 0%nat) 3 ChNull)
  (a_place 3 (demo_proc RUNNABLE 4 (Some 1%nat) 6 ChNull)
  (a_place 2 (demo_proc ZOMBIE 3 (Some 0%nat) 6 ChNull)
  (a_place 1 (demo_proc SLEEPING 2 (Some 0%nat) 6 (ChAddr 7))
  (a_place 0 (with_cwd (demo_proc RUNNING 1 None 6 ChNull)) (demo_free (Some 0%nat)))))))
    <| v_init := Some 0%nat |>.

(** The child runs; init sleeps in [wait]; the child has children of its own. *)
Definition demo_exit_view : view :=
  (a_place 3 (demo_proc ZOMBIE 4 (Some 1%nat) 6 ChNull)
  (a_place 2 (demo_proc RUNNABLE 3 (Some 1%nat) 2 ChNull)
  (a_place 1 (demo_proc RUNNING 2 (Some 0%nat) 6 ChNull)
  (a_place 0 (with_cwd (demo_proc SLEEPING 1 None 6 (ChProc 0))) (demo_free (Some 1%nat))))))
    <| v_init := Some 0%nat |>.

Lemma vinv_demo_free cur : vinv (demo_free cur).
Proof.
  set (s := KSt [] [] [] 1000 10 None 500 (demo_mach cur) tt).
  change (demo_free cur) with (free_view NPROC s false). by apply vinv_free_view.
Qed.

Lemma vinv_add v p r r' :
  vinv v -> v_tbl v !! p = Some r -> state r = UNUSED -> wf_proc r' -> state r' <> UNUSED ->
  (parent r' = None \/ exists j rj, parent r' = Some j /\ j <> p /\ v_tbl v !! j = Some rj /\ alive rj) ->
  vinv (a_place p r' v).
Proof.
  intros Hv Hr Hst Hwf Hst' Hpa. eapply vinv_place; [done|done|]. split; [done| |].
  - right. eapply vinv_unref; [done|done|]. unfold alive. rewrite Hst. naive_solver.
  - intros j Hj. destruct Hpa as [Hpa|(j' & rj & Hpa & Hne & Hrj & Ha)]; [congruence|].
    assert (j' = j) as -> by congruence. exists rj. by rewrite list_lookup_insert_ne.
Qed.

Ltac demo_wf := split; [vm_compute; split; discriminate|done|done|done|by intros [|]].
Ltac demo_add := eapply vinv_add;
  [|reflexivity|done|demo_wf|done|
   first [by left|right; do 2 eexists; split; [reflexivity|]; split; [done|];
     split; [reflexivity|first [by left|by right; left|by right; right]]]].

Lemma vinv_demo : vinv demo_view.
Proof.
  eapply vinv_set_init; [|reflexivity|by right; right]. repeat demo_add. apply vinv_demo_free.
Qed.

Lemma vinv_demo_exit : vinv demo_exit_view.
Proof.
  eapply vinv_set_init; [|reflexivity|by left]. repeat demo_add. apply vinv_demo_free.
Qed.

Definition demo_kst : kst Spin.mach unit := build demo_view (demo_mach (Some 0%nat)) tt.
Definition demo_exit_kst : kst Spin.mach unit := build demo_exit_view (demo_mach (Some 1%nat)) tt.

Lemma demo_rep : rep demo_view demo_kst.
Proof.
  apply build_rep; [apply vinv_demo| |apply demo_mach_holds|done].
  by apply (bool_decide_unpack _); vm_compute.
Qed.
Lemma demo_exit_rep : rep demo_exit_view demo_exit_kst.
Proof.
  apply build_rep; [apply vinv_demo_exit| |apply demo_mach_holds|done].
  by apply (bool_decide_unpack _); vm_compute.
Qed.
