(* ===== verification/ProcTable.v ===== *)
(** * The table-scanning configuration of proc.c

    Without [CS333_P3] (a build with CS333_PROJECT at most 2) proc.c has no
    state lists: every operation scans [ptable.proc].  The definitions below
    are the [#else] branches of proc.c, on the same state (the lists are
    simply not used), with [CS333_P1] and [CS333_P2] defined.  The equivalence
    theorems say that the list implementation computes the same process
    table. *)

From S2P Require Import Prelude Params Spinlock Str ProcDefs StateList Proc ProcInv ProcWake ProcOps ProcExit.

Section table.
Context {L E : Type} `{CL : CpuLock L} `{SV : ProcServices E}.
Abbreviation K := (kst L E).

(** ** Operations *)

(** [for(p = ptable.proc; p < &ptable.proc[NPROC]; p++)] *)
Definition slots : list nat := seq 0 NPROC.

Definition set_state (p : nat) (st : procstate) : M K unit :=
  put_proc p (fun r => r <| state := st |>).

Definition allocproc_P0 : M K (option nat) :=
  acquire_ptable ;;;
  found <- mfor slots (fun p =>
    r <- get_proc p ;; ret (if decide (state r = UNUSED) then Some p else None)) ;;
  match found with
  | None => release_ptable ;;; ret None
  | Some p =>
      set_state p EMBRYO ;;;
      n <- gets nextpid ;;
      put_proc p (fun r => r <| pid := n |>) ;;;
      modify (fun s => s <| nextpid := u32 (n + 1) |>) ;;;
      release_ptable ;;;
      k <- on_env sv_kalloc ;;
      put_proc p (fun r => r <| kstack := k |>) ;;;
      match k with
      | None => set_state p UNUSED ;;; ret None
      | Some ks =>
          let sp := u32 (ks + KSTACKSIZE) in
          let sp := u32 (sp - sizeof_trapframe) in
          put_proc p (fun r => r <| tf_at := sp |>) ;;;
          let sp := u32 (sp - 4) in
          put_proc p (fun r => r <| retslot := trapret_addr |>) ;;;
          let sp := u32 (sp - sizeof_context) in
          put_proc p (fun r => r <| context_at := sp |>
                                 <| context_of := zero_context <| c_eip := forkret_addr |> |>) ;;;
          t <- gets ticks ;;
          put_proc p (fun r => r <| start_ticks := t |>) ;;;
          put_proc p (fun r => r <| cpu_ticks_total := 0 |> <| cpu_ticks_in := 0 |>) ;;;
          ret (Some p)
      end
  end.

Definition userinit_P0 : M K unit :=
  op <- allocproc_P0 ;;
  modify (fun s => s <| initproc := op |>) ;;;
  d <- on_env sv_setupkvm ;;
  p <- nonnull op ;;
  put_proc p (fun r => r <| pgdir := d |>) ;;;
  match d with
  | None => panic "userinit: out of memory?"
  | Some pd =>
      on_env (sv_inituvm pd) ;;;
      put_proc p (fun r => r <| sz := PGSIZE |> <| tf := user_tf |>) ;;;
      set_name p initcode_name ;;;
      w <- on_env (sv_namei root_path) ;;
      put_proc p (fun r => r <| cwd := w |>) ;;;
      acquire_ptable ;;;
      put_proc p (fun r => r <| state := RUNNABLE |> <| uid := DEFAULT_UID |> <| gid := DEFAULT_GID |>) ;;;
      release_ptable
  end.

Definition fork_P0 : M K Z :=
  cur <- myproc ;;
  c <- nonnull cur ;;
  onp <- allocproc_P0 ;;
  match onp with
  | None => ret (-1)
  | Some np =>
      rc <- get_proc c ;;
      d <- on_env (sv_copyuvm (pgdir rc) (sz rc)) ;;
      put_proc np (fun r => r <| pgdir := d |>) ;;;
      match d with
      | None =>
          rn <- get_proc np ;;
          on_env (sv_kfree (default 0 (kstack rn))) ;;;
          put_proc np (fun r => r <| kstack := None |>) ;;;
          set_state np UNUSED ;;;
          ret (-1)
      | Some _ =>
          put_proc np (fun r => r <| uid := uid rc |> <| gid := gid rc |>) ;;;
          put_proc np (fun r => r <| sz := sz rc |> <| parent := Some c |>
                                  <| tf := (tf rc) <| tf_eax := 0 |> |>) ;;;
          fork_dup_files c np ;;;
          rc <- get_proc c ;;
          match cwd rc with
          | None => fault
          | Some w =>
              w' <- on_env (sv_idup w) ;;
              put_proc np (fun r => r <| cwd := Some w' |>) ;;;
              set_name np (name rc) ;;;
              rn <- get_proc np ;;
              acquire_ptable ;;;
              set_state np RUNNABLE ;;;
              release_ptable ;;;
              ret (s32 (pid rn))
          end
      end
  end.

Definition wakeup1_P0 (ch : chan) : M K unit :=
  meach slots (fun p =>
    r <- get_proc p ;;
    when (bool_decide (state r = SLEEPING) && bool_decide (chan_of_proc r = ch))
      (set_state p RUNNABLE)).

Definition yield_P0 : M K unit :=
  cur <- myproc ;;
  acquire_ptable ;;;
  p <- nonnull cur ;;
  set_state p RUNNABLE ;;;
  sched ;;;
  release_ptable.

Definition sleep_P0 (ch : chan) (lk : lkref) : M K unit :=
  cur <- myproc ;;
  match cur with
  | None => panic "sleep"
  | Some p =>
      match lk with
      | LkPtable => ret tt
      | LkNull => acquire_ptable
      | LkOwn => acquire_ptable ;;; on_cpu lk_release_own
      end ;;;
      put_proc p (fun r => r <| chan_of_proc := ch |>) ;;;
      set_state p SLEEPING ;;;
      sched ;;;
      put_proc p (fun r => r <| chan_of_proc := ChNull |>) ;;;
      match lk with
      | LkPtable => ret tt
      | LkNull => release_ptable
      | LkOwn => release_ptable ;;; on_cpu lk_acquire_own
      end
  end.

Definition kill_P0 (n : Z) : M K Z :=
  acquire_ptable ;;;
  x <- mfor slots (fun p =>
    r <- get_proc p ;;
    if has_pid n r then
      put_proc p (fun r => r <| killed := 1 |>) ;;;
      when (bool_decide (state r = SLEEPING)) (set_state p RUNNABLE) ;;;
      release_ptable ;;;
      ret (Some 0)
    else ret None) ;;
  match x with
  | Some z => ret z
  | None => release_ptable ;;; ret (-1)
  end.

(** Pass abandoned children to init. *)
Definition exit_reparent_P0 (c : nat) : M K unit :=
  meach slots (fun p =>
    r <- get_proc p ;;
    init <- gets initproc ;;
    when (bool_decide (parent r = Some c))
      (put_proc p (fun r => r <| parent := init |>) ;;;
       r <- get_proc p ;;
       when (bool_decide (state r = ZOMBIE)) (wakeup1_P0 (chan_of init)))).

Definition exit_P0 : M K unit :=
  cur <- myproc ;;
  init <- gets initproc ;;
  if decide (cur = init) then panic "init exiting"
  else
    c <- nonnull cur ;;
    exit_files c ;;;
    acquire_ptable ;;;
    r <- get_proc c ;;
    wakeup1_P0 (chan_of (parent r)) ;;;
    exit_reparent_P0 c ;;;
    set_state c ZOMBIE ;;;
    sched ;;;
    panic "zombie exit".

(** One pass over the table. *)
Definition wait_scan_P0 (c : nat) : M K (bool + Z) :=
  mfold slots (fun havekids p =>
    r <- get_proc p ;;
    if negb (child_of c r) then ret (inl havekids)
    else if decide (state r = ZOMBIE) then
      on_env (sv_kfree (default 0 (kstack r))) ;;;
      put_proc p (fun r => r <| kstack := None |>) ;;;
      r' <- get_proc p ;;
      on_env (sv_freevm (pgdir r')) ;;;
      put_proc p (fun r => r <| pid := 0 |> <| parent := None |>
                             <| name ::= <[0%nat := 0]> |> <| killed := 0 |>) ;;;
      set_state p UNUSED ;;;
      release_ptable ;;;
      ret (inr (s32 (pid r)))
    else ret (inl true)) false.

Definition wait_round_P0 (c : nat) (_ : unit) : M K (unit + Z) :=
  x <- wait_scan_P0 c ;;
  match x with
  | inr z => ret (inr z)
  | inl havekids =>
      r <- get_proc c ;;
      if negb havekids || negb (killed r =? 0) then
        release_ptable ;;; ret (inr (-1))
      else
        sleep_P0 (ChProc c) LkPtable ;;; ret (inl tt)
  end.

Definition wait_P0 (fuel : nat) : M K Z :=
  cur <- myproc ;;
  c <- nonnull cur ;;
  acquire_ptable ;;;
  mwhile fuel (wait_round_P0 c) tt.

(** One pass of the scheduler: every RUNNABLE process gets a turn; the result
    is [idle]. *)
Definition scheduler_round_P0 : M K bool :=
  acquire_ptable ;;;
  x <- mfold slots (fun idle p =>
    r <- get_proc p ;;
    if decide (state r = RUNNABLE) then
      t <- gets ticks ;;
      put_proc p (fun r => r <| cpu_ticks_in := t |>) ;;;
      on_cpu (lk_setproc (Some p)) ;;;
      r <- get_proc p ;;
      on_env (sv_switchuvm (kstack r) (pgdir r)) ;;;
      set_state p RUNNING ;;;
      swtch ;;;
      on_env sv_switchkvm ;;;
      on_cpu (lk_setproc None) ;;;
      ret (inl false)
    else ret (inl idle)) true ;;
  release_ptable ;;;
  ret (match (x : bool + bool) with inl b => b | inr b => b end).

(** ** The scans on views *)

Section rules.
Context (P : prot K).

(** A scan that changes every process in place. *)
Lemma wp_slots_map v s g (body : nat -> M K unit) (Q : unit -> K -> Prop) :
  rep v s ->
  (forall i r s1 v1 (R : unit -> K -> Prop), v_tbl v !! i = Some r ->
     rep v1 s1 -> v_tbl v1 !! i = Some r -> v_init v1 = v_init v ->
     (forall s2, rep (a_upd i (g r) v1) s2 -> R tt s2) -> wp P (body i) s1 R) ->
  (forall s', rep (v <| v_tbl ::= fmap g |>) s' -> Q tt s') ->
  wp P (meach slots body) s Q.
Proof.
  intros H Hb HQ.
  apply wp_meach with (I := fun l s => exists k, l = seq k (NPROC - k) /\ (k <= NPROC)%nat /\
    rep (a_map g (seq 0 k) v) s).
  - intros i l s1 (k & Hl & Hk & H1).
    destruct (NPROC - k)%nat as [|m] eqn:Hm; [done|]. simpl in Hl. injection Hl as -> ->.
    destruct (lookup_lt_is_Some_2 (v_tbl v) k) as [r Hr]; [rewrite (rep_length v s H); lia|].
    assert (Hk' : k ∉ seq 0 k) by (rewrite elem_of_seq; lia).
    eapply Hb; [done|done| |done|].
    + rewrite a_map_lookup, Hr. simpl. by rewrite bool_decide_eq_false_2.
    + intros s2 H2. rewrite <- a_map_snoc in H2 by done.
      exists (S k). rewrite seq_S. split_and!; [f_equal; lia|lia|done].
  - exists 0%nat. split_and!; [by rewrite Nat.sub_0_r|lia|]. by rewrite a_map_nil.
  - intros s' (k & Hl & Hk & H1).
    assert (k = NPROC) as -> by (destruct (NPROC - k)%nat eqn:Hm; [lia|done]).
    apply HQ. rewrite <- (a_map_all g (seq 0 NPROC)); [done|]. intros i r Hi. left.
    apply elem_of_seq. apply lookup_lt_Some in Hi. rewrite (rep_length v s H) in Hi. lia.
Qed.

Lemma wp_wakeup1_P0 v s ch (Q : unit -> K -> Prop) :
  rep v s -> (forall s', rep (v <| v_tbl ::= fmap (wake ch) |>) s' -> Q tt s') ->
  wp P (wakeup1_P0 ch) s Q.
Proof.
  intros H HQ. eapply (wp_slots_map v s (wake ch)); [done| |done].
  intros i r s1 v1 R Hr H1 Hr1 _ HR. apply wp_bind. eapply wp_get_proc; [done|done|]. intros n.
  rec_simpl. change (bool_decide (state r = SLEEPING) && bool_decide (chan_of_proc r = ch)) with (wakeable ch r).
  unfold wake in HR. destruct (wakeable ch r).
  - by eapply wp_put_proc.
  - apply wp_ret, HR. by rewrite a_upd_id.
Qed.

(** The children: a zombie child wakes init in the middle of the scan. The
    table when the first [k] slots were looked at. *)
Definition orphaned (c : nat) (init : option nat) (k : nat) (T : list proc) : list proc :=
  imap (fun i r =>
    let r' := if existsb (zombie_child c) (take k T) then wake (chan_of init) r else r in
    if decide (i < k)%nat then reparent c init r' else r') T.

Lemma wake_idem ch r : wake ch (wake ch r) = wake ch r.
Proof.
  unfold wake. destruct (wakeable ch r) eqn:Hw; [|by rewrite Hw].
  unfold wakeable. rec_simpl. by rewrite bool_decide_eq_false_2.
Qed.

Lemma orphaned_lookup c init k T i :
  orphaned c init k T !! i =
  (fun r => let r' := if existsb (zombie_child c) (take k T) then wake (chan_of init) r else r in
     if decide (i < k)%nat then reparent c init r' else r') <$> T !! i.
Proof. unfold orphaned. by rewrite list_lookup_imap. Qed.

Lemma reparent_other c init r : child_of c r = false -> reparent c init r = r.
Proof.
  unfold child_of, reparent. intros H%bool_decide_eq_false. by rewrite decide_False.
Qed.
Lemma reparent_child c init r : child_of c r = true -> reparent c init r = r <| parent := init |>.
Proof.
  unfold child_of, reparent. intros H%bool_decide_eq_true. by rewrite decide_True.
Qed.

Lemma orphaned_skip c init k T r :
  T !! k = Some r -> child_of c r = false -> orphaned c init (S k) T = orphaned c init k T.
Proof.
  intros Hr Hc. apply list_eq. intros i. rewrite !orphaned_lookup.
  rewrite (take_S_r T k r Hr), existsb_app. cbn [existsb].
  assert (zombie_child c r = false) as -> by (unfold zombie_child; by rewrite Hc).
  rewrite !orb_false_r.
  destruct (T !! i) as [ri|] eqn:Hi; [|done]. cbn [fmap option_fmap option_map]. f_equal. cbv zeta.
  destruct (decide (i = k)) as [->|Hne].
  - rewrite decide_True, decide_False by lia. assert (ri = r) as -> by congruence.
    destruct (existsb _ _); rewrite <- ?reparent_wake; by rewrite reparent_other.
  - destruct (decide (i < k)%nat); [rewrite decide_True by lia|rewrite decide_False by lia]; done.
Qed.

Lemma orphaned_child c init k T r rk :
  T !! k = Some r -> child_of c r = true -> orphaned c init k T !! k = Some rk ->
  orphaned c init (S k) T =
  (if decide (state r = ZOMBIE) then fmap (wake (chan_of init)) else id)
    (<[k := rk <| parent := init |>]> (orphaned c init k T)).
Proof.
  intros Hr Hc Hk. assert (Hlen := lookup_lt_Some _ _ _ Hk).
  assert (Hrk : rk <| parent := init |> =
    reparent c init (if existsb (zombie_child c) (take k T) then wake (chan_of init) r else r)).
  { rewrite orphaned_lookup, Hr in Hk. cbn [fmap option_fmap option_map] in Hk. cbv zeta in Hk.
    rewrite decide_False in Hk by lia. injection Hk as <-. symmetry. apply reparent_child.
    destruct (existsb _ _); [|done]. unfold wake. by destruct (wakeable _ _). }
  set (rk' := rk <| parent := init |>) in *. clearbody rk'. subst rk'. clear Hk rk. set (b := existsb (zombie_child c) (take k T)) in *.
  apply list_eq. intros i.
  assert (Hi : <[k := reparent c init (if b then wake (chan_of init) r else r)]> (orphaned c init k T) !! i =
    (fun ri => let ri' := if b then wake (chan_of init) ri else ri in
       if decide (i < S k)%nat then reparent c init ri' else ri') <$> T !! i).
  { destruct (decide (i = k)) as [->|Hne].
    - rewrite list_lookup_insert_eq, Hr by done. cbn [fmap option_fmap option_map].
      by rewrite decide_True by lia.
    - rewrite list_lookup_insert_ne, orphaned_lookup by done. fold b.
      destruct (T !! i); [|done]. cbn [fmap option_fmap option_map]. cbv zeta. f_equal.
      by destruct (decide (i < k)%nat); [rewrite decide_True by lia|rewrite decide_False by lia]. }
  rewrite orphaned_lookup, (take_S_r T k r Hr), existsb_app. cbn [existsb]. fold b.
  assert (zombie_child c r = bool_decide (state r = ZOMBIE)) as ->
    by (unfold zombie_child; by rewrite Hc).
  rewrite orb_false_r.
  destruct (decide (state r = ZOMBIE)) as [Hz|Hz].
  - rewrite bool_decide_eq_true_2, orb_true_r, list_lookup_fmap, Hi by done.
    destruct (T !! i) as [ri|]; [|done]. cbn [fmap option_fmap option_map]. cbv zeta. f_equal.
    destruct (decide _), b; by rewrite ?reparent_wake, ?wake_idem.
  - by rewrite bool_decide_eq_false_2, orb_false_r by done.
Qed.

Lemma wp_exit_reparent_P0 v s c (Q : unit -> K -> Prop) :
  rep v s ->
  (forall s', rep (v <| v_tbl := v_tbl (a_orphans c v) |>) s' -> Q tt s') ->
  wp P (exit_reparent_P0 c) s Q.
Proof.
  intros H HQ. set (T := v_tbl v). pose proof (rep_length v s H) as Hlen. fold T in Hlen.
  apply wp_meach with (I := fun l s => exists k, l = seq k (NPROC - k) /\ (k <= NPROC)%nat /\
    rep (v <| v_tbl := orphaned c (v_init v) k T |>) s).
  - intros k l s1 (k' & Hl & Hk & H1).
    destruct (NPROC - k')%nat as [|m] eqn:Hm; [done|]. simpl in Hl. injection Hl as <- ->.
    destruct (lookup_lt_is_Some_2 T k) as [r Hr]; [lia|].
    destruct (orphaned c (v_init v) k T !! k) as [rk|] eqn:Hrk; [|by rewrite orphaned_lookup, Hr in Hrk].
    assert (Hpar : parent rk = parent r /\ (state rk = ZOMBIE <-> state r = ZOMBIE)).
    { rewrite orphaned_lookup, Hr in Hrk. cbn [fmap option_fmap option_map] in Hrk. cbv zeta in Hrk.
      rewrite decide_False in Hrk by lia. injection Hrk as <-. destruct (existsb _ _); [|done].
      unfold wake, wakeable. destruct (decide (state r = SLEEPING)) as [Hs|Hs].
      - rewrite bool_decide_eq_true_2 by done. destruct (bool_decide _); simpl; rewrite ?Hs; done.
      - by rewrite bool_decide_eq_false_2 by done. }
    destruct Hpar as [Hpar Hz].
    assert (Hstep : forall s2 : K, rep (v <| v_tbl := orphaned c (v_init v) (S k) T |>) s2 ->
      exists k0, seq (S k) m = seq k0 (NPROC - k0) /\ (k0 <= NPROC)%nat /\
        rep (v <| v_tbl := orphaned c (v_init v) k0 T |>) s2).
    { intros s2 H2. exists (S k). split_and!; [f_equal; lia|lia|done]. }
    apply wp_bind. eapply wp_get_proc; [done|done|]. intros n. rec_simpl.
    apply wp_bind. eapply wp_initproc; [done|]. rec_simpl. rewrite Hpar.
    destruct (child_of c r) eqn:Hc; unfold child_of in Hc; rewrite Hc.
    + pose proof (orphaned_child c (v_init v) k T r rk Hr Hc Hrk) as He.
      apply wp_bind. eapply wp_put_proc; [done|done|done|]. intros s2 H2.
      apply wp_bind. eapply wp_get_proc; [done|apply list_lookup_insert_eq; by eapply lookup_lt_Some|].
      intros n2. rec_simpl. destruct (decide (state r = ZOMBIE)) as [Hzr|Hzr].
      * rewrite bool_decide_eq_true_2 by tauto. eapply wp_wakeup1_P0; [done|].
        intros s3 H3. apply Hstep. by rewrite He.
      * rewrite bool_decide_eq_false_2 by tauto. apply wp_ret, Hstep. by rewrite He.
    + apply wp_ret, Hstep. by rewrite (orphaned_skip c (v_init v) k T r Hr Hc).
  - exists 0%nat. split_and!; [by rewrite Nat.sub_0_r|lia|].
    replace (orphaned c (v_init v) 0 T) with T; [by destruct v|].
    apply list_eq. intros i. rewrite orphaned_lookup. by destruct (T !! i).
  - intros s' (k & Hl & Hk & H1).
    assert (k = NPROC) as -> by (destruct (NPROC - k)%nat eqn:Hm; [lia|done]).
    apply HQ. replace (v_tbl (a_orphans c v)) with (orphaned c (v_init v) NPROC T); [done|].
    apply list_eq. intros i. rewrite orphaned_lookup, a_orphans_lookup, take_ge by lia. fold T.
    destruct (T !! i) eqn:Hi; [|done]. cbn [fmap option_fmap option_map]. cbv zeta.
    apply lookup_lt_Some in Hi. by rewrite decide_True by lia.
Qed.

Lemma has_pid_next n r m : has_pid n (r <| next := m |>) = has_pid n r.
Proof. unfold has_pid. by rec_simpl. Qed.

Lemma wp_kill_P0 v s n (Q : Z -> K -> Prop) :
  rep v s -> v_pt v = false ->
  match first_in (v_tbl v) (has_pid n) slots with
  | None => forall s', rep v s' -> Q (-1) s'
  | Some p => forall r s', v_tbl v !! p = Some r -> rep (a_upd p (kill_rec r) v) s' -> Q 0 s'
  end ->
  wp P (kill_P0 n) s Q.
Proof.
  intros H Hpt HQ. apply wp_bind. eapply wp_acquire; [done|done|]. intros s1 H1.
  set (v1 := v <| v_pt := true |>) in *.
  assert (Hdom : forall a i, a ∈ slots -> i ∈ [a] -> is_Some (v_tbl v1 !! i)).
  { intros a i Ha%elem_of_seq ->%list_elem_of_singleton. apply lookup_lt_is_Some_2.
    rewrite (rep_length v1 s1 H1). lia. }
  assert (Hslots : slots ≫= (fun p => [p]) = slots) by done.
  apply wp_bind. eapply (wp_mfor_first P slots _ (fun p => [p]) (v_tbl v1) (has_pid n)); [done| |].
  - intros p Hp. destruct (Hdom p p Hp) as [r Hr]; [set_solver|]. cbn [first_in]. rewrite Hr.
    destruct (has_pid n r) eqn:Hn.
    + intros Hf. rewrite Hslots in Hf. change (v_tbl v1) with (v_tbl v) in Hf. rewrite Hf in HQ.
      apply wp_bind. eapply wp_get_proc; [done|done|]. intros m.
      rewrite (has_pid_next n r m), Hn. rec_simpl.
      apply wp_bind. eapply wp_put_proc; [done|done|done|]. intros s2 H2.
      assert (Hlt := lookup_lt_Some _ _ _ Hr).
      apply wp_bind. eapply (wp_mono _ _ _ (fun _ s' => rep (a_upd p (kill_rec r) v1) s')).
      { unfold kill_rec. destruct (decide (state r = SLEEPING)) as [Hs|Hs].
        - rewrite bool_decide_eq_true_2 by done. eapply wp_put_proc; [done|by apply list_lookup_insert_eq|done|].
          intros s3 H3. by rewrite a_upd_upd in H3.
        - rewrite bool_decide_eq_false_2 by done. by apply wp_ret. }
      intros [] s3 H3. apply wp_bind. eapply wp_release; [done|done|]. intros s4 H4.
      apply wp_ret. eexists. split; [done|]. apply wp_ret, (HQ r); [done|].
      by destruct v; simpl in Hpt; subst.
    + apply wp_bind. eapply wp_get_proc; [done|done|]. intros m.
      rewrite (has_pid_next n r m), Hn. by apply wp_ret.
  - rewrite Hslots. intros Hf. change (v_tbl v1) with (v_tbl v) in Hf. rewrite Hf in HQ.
    apply wp_bind. eapply wp_release; [done|done|]. intros s2 H2. apply wp_ret, HQ.
    by destruct v; simpl in Hpt; subst.
Qed.

End rules.

End table.
