(* ===== verification/ProcProps.v ===== *)
(** * Theorems about the process table

    The operations of proc.c on kernel states that represent a view satisfying
    the invariant.  Each theorem is followed by an instance on one of the
    concrete kernels of [Demo]. *)

From S2P Require Import Prelude Params Spinlock Str ProcDefs StateList Proc ProcInv.
From S2P Require Import ProcWake ProcOps ProcFork ProcExit ProcWait ProcSched ProcBoot Demo ProcTable.

(** The protocol of a routine that does not give up the processor and whose
    only panics are those of the services it calls. *)
Definition quiet {L E} `{ProcServices E} : prot (kst L E) :=
  Prot sv_panics (fun _ => False) (fun _ _ => False).
(** The routine gives up the processor in a state that satisfies [G], and is
    looked at until then. *)
Definition until_swtch {L E} `{ProcServices E} (G : kst L E -> Prop) : prot (kst L E) :=
  Prot sv_panics G (fun _ _ => False).
(** The routine is resumed in a state that satisfies [R]. *)
Definition across_swtch {L E} `{ProcServices E} (G R : kst L E -> Prop) : prot (kst L E) :=
  Prot sv_panics G (fun _ s => R s).

(** ** Reading the lists of a view *)

Lemma run_order_elem v i : vinv v ->
  i ∈ run_order v <-> exists r, v_tbl v !! i = Some r /\ state r = RUNNABLE.
Proof.
  intros Hv. unfold run_order. rewrite list_elem_of_bind. split.
  - intros (j & Hi & _). destruct (vinv_q_ready v j i Hv Hi) as (r & ? & ? & _). eauto.
  - intros (r & Hr & Hs). exists (Z.to_nat (priority r)). split.
    + pose proof (vinv_home v i r Hv Hr) as Hh. unfold home in Hh. by rewrite decide_True in Hh.
    + pose proof (wf_prio r (vi_wf v Hv i r Hr)). unfold prios_down.
      rewrite list_elem_of_In, <- in_rev, in_seq. unfold MAXPRIO in *. lia.
Qed.

(** The first element of a search through queues of falling index. *)
Lemma hd_bind_down {A} (f : nat -> list A) n x :
  hd_error (rev (seq 0 n) ≫= f) = Some x ->
  exists j l, (j < n)%nat /\ f j = x :: l /\ forall k, (j < k < n)%nat -> f k = [].
Proof.
  induction n as [|n IH]; [done|]. rewrite seq_S, rev_app_distr. simpl.
  destruct (f n) as [|y l] eqn:Hn; simpl.
  - intros (j & l & Hj & Hf & Hk)%IH. exists j, l. split_and!; [lia|done|].
    intros k Hk'. destruct (decide (k = n)) as [->|]; [done|]. apply Hk. lia.
  - intros [= ->]. exists n, l. split_and!; [lia|done|]. intros k Hk. lia.
Qed.

Lemma run_order_hd v p : vinv v -> hd_error (run_order v) = Some p ->
  exists r l, v_tbl v !! p = Some r /\ state r = RUNNABLE /\
    v_q v (QReady (Z.to_nat (priority r))) = p :: l /\
    forall i ri, v_tbl v !! i = Some ri -> state ri = RUNNABLE -> priority ri <= priority r.
Proof.
  intros Hv (j & l & Hj & Hq & Hk)%hd_bind_down.
  destruct (vinv_q_ready v j p Hv) as (r & Hr & Hs & Hp); [rewrite Hq; set_solver|].
  exists r, l. rewrite Hp, Nat2Z.id. split_and!; [done|done|done|].
  intros i ri Hri Hsi. pose proof (vinv_home v i ri Hv Hri) as Hh. unfold home in Hh.
  rewrite decide_True in Hh by done. pose proof (wf_prio ri (vi_wf v Hv i ri Hri)).
  destruct (decide (priority ri <= Z.of_nat j)) as [|Hgt]; [done|].
  rewrite Hk in Hh; [set_solver|]. unfold MAXPRIO in *. lia.
Qed.

(** A process that changes lists stands at the end of its new one. *)
Lemma a_place_q v p r r' :
  vinv v -> v_tbl v !! p = Some r -> home r' <> home r ->
  v_q (a_place p r' v) (home r') = v_q v (home r') ++ [p].
Proof.
  intros Hv Hr Hne. unfold a_place, a_append, a_unlink, a_upd. rec_simpl. rewrite decide_True by done.
  rewrite list_remove_all_notin; [done|]. intros (r0 & Hr0 & Hh)%(vi_placed v Hv). congruence.
Qed.

Lemma home_ready r : state r = RUNNABLE -> home r = QReady (Z.to_nat (priority r)).
Proof. intros Hs. unfold home. by rewrite decide_True. Qed.
Lemma home_list r : state r <> RUNNABLE -> home r = QList (state_num (state r)).
Proof. intros Hs. unfold home. by rewrite decide_False. Qed.

(** The lists of some states together hold the processes in these states. *)
Lemma visited_elem v sts i : vinv v ->
  i ∈ visited v sts <-> exists r, v_tbl v !! i = Some r /\ state_num (state r) ∈ sts.
Proof.
  intros Hv. unfold visited. rewrite list_elem_of_bind. split.
  - intros (k & Hi & Hk). unfold visited_at in Hi. case_decide as Hrun.
    + apply list_elem_of_bind in Hi as (j & Hi & _).
      destruct (vinv_q_ready v j i Hv Hi) as (r & Hr & Hs & _). exists r. rewrite Hs. by subst.
    + apply (vi_placed v Hv) in Hi as (r & Hr & Hh). exists r. split; [done|]. unfold home in Hh.
      case_decide as Hs; [done|]. by injection Hh as ->.
  - intros (r & Hr & Hs). exists (state_num (state r)). split; [|done]. unfold visited_at.
    case_decide as Hrun.
    + apply run_order_elem; [done|]. exists r. split; [done|]. by destruct (state r).
    + rewrite <- home_list by (intros Hx; by rewrite Hx in Hrun). by apply vinv_home.
Qed.

(** A search by pid through these lists. *)
Lemma search_spec v sts n : vinv v ->
  match search sts n v with
  | Some p => exists r, v_tbl v !! p = Some r /\ state_num (state r) ∈ sts /\ pid r = u32 n
  | None => forall i r, v_tbl v !! i = Some r -> state_num (state r) ∈ sts -> pid r <> u32 n
  end.
Proof.
  intros Hv. unfold search. destruct (first_in _ _ _) as [p|] eqn:Hp.
  - apply first_in_Some in Hp as (Hi & r & Hr & Hn). apply visited_elem in Hi as (r' & Hr' & Hs); [|done].
    assert (r' = r) as -> by congruence. exists r. split_and!; [done|done|]. by apply Z.eqb_eq.
  - intros i r Hr Hs Hn. apply (first_in_None _ _ _) with (i := i) (r := r) in Hp.
    + unfold has_pid in Hp. by rewrite Z.eqb_neq in Hp.
    + intros j (rj & Hj & _)%visited_elem; [|done]. by eexists.
    + apply visited_elem; [done|]. eauto.
    + done.
Qed.

Lemma live_states_elem st : state_num st ∈ live_states <-> st <> UNUSED.
Proof.
  unfold live_states, statecount. rewrite elem_of_seq. destruct st; simpl; split; (done || lia).
Qed.

Section theorems.
Context {L E : Type} `{CL : CpuLock L} `{SV : ProcServices E}.
Abbreviation K := (kst L E).
Implicit Types (v : view) (s : K).

(** ** The scheduler *)

Lemma vinv_promote v s : rep v s -> vinv v -> vinv (a_promote v).
Proof.
  intros H Hv. destruct (wp_strict promote_all s (fun _ _ => vinv (a_promote v))) as (? & ? & ? & ?);
    [|done]. eapply wp_promote_all; [done|done|]. by intros s'.
Qed.
Lemma vinv_due v s : rep v s -> vinv v -> vinv (a_due v).
Proof. intros H Hv. unfold a_due. destruct (_ <=? _); [by eapply vinv_promote|done]. Qed.

(** C8: one round of [scheduler].  First, if a promotion is due, it is done.
    Then, if a process is RUNNABLE, the round switches to the process [p] that
    stands first in the highest non-empty ready queue: no RUNNABLE process has
    a higher priority.  At the switch [p] is RUNNING, off its ready queue and on
    the RUNNING list, its time slice starts now, it is the current process of
    this CPU, [ptable.lock] is held and the table satisfies its invariant.  If
    no process is RUNNABLE the round ends idle with the lock released.  It
    never faults or panics on its own account. *)
Theorem scheduler_round_correct v s :
  rep v s -> vinv v -> v_pt v = false ->
  let w := a_due v in
  (exists p r l, v_tbl w !! p = Some r /\ state r = RUNNABLE /\
     v_q w (QReady (Z.to_nat (priority r))) = p :: l /\
     (forall i ri, v_tbl w !! i = Some ri -> state ri = RUNNABLE -> priority ri <= priority r) /\
     wp (until_swtch (fun s1 => rep ((a_run p r w) <| v_pt := true |>) s1 /\ vinv (a_run p r w)))
       scheduler_round s (fun _ _ => False)) \/
  ((forall i r, v_tbl w !! i = Some r -> state r <> RUNNABLE) /\
   wp quiet scheduler_round s (fun idle s' => idle = true /\ rep w s' /\ vinv w)).
Proof.
  intros H Hv Hpt w. assert (Hw : vinv w) by (by eapply vinv_due).
  destruct (hd_error (run_order w)) as [p|] eqn:Hhd.
  - left. destruct (run_order_hd w p Hw Hhd) as (r & l & Hr & Hs & Hq & Hmax).
    exists p, r, l. split_and!; [done..|]. eapply wp_scheduler_round; [done|done|done|done|].
    fold w. rewrite Hhd. exists r. split; [done|]. intros s1 H1 Hv1. split; [done|]. by intros s2 [].
  - right. split.
    + intros i r Hr Hs. assert (Hi : i ∈ run_order w) by (apply run_order_elem; eauto).
      destruct (run_order w); [set_solver|done].
    + eapply wp_scheduler_round; [done|done|done|done|]. fold w. rewrite Hhd. by intros s'.
Qed.

(** The periodic promotion of the MLFQ scheduler.  Every process that is
    SLEEPING or RUNNING, and every RUNNABLE process below the top, is raised by
    one level (never above MAXPRIO) with a full budget; the ready queues move up
    as a whole, in order, the second queue behind the top one; the next
    promotion is due [TICKS_TO_PROMOTE] ticks from now; nothing else changes.
    (RUNNABLE processes that already are at the top keep their budget.) *)
Theorem promote_all_correct v s :
  rep v s -> vinv v ->
  wp strict promote_all s (fun _ s' => exists v', rep v' s' /\ vinv v' /\
    (forall i r, v_tbl v !! i = Some r -> exists r', v_tbl v' !! i = Some r' /\
       r' = if promoted r
            then r <| budget := BUDGET |> <| priority := Z.min (priority r + 1) (Z.of_nat MAXPRIO) |>
            else r) /\
    (forall j, (0 < j < MAXPRIO)%nat -> v_q v' (QReady j) = v_q v (QReady (j - 1))) /\
    v_q v' (QReady 0) = [] /\
    v_q v' (QReady MAXPRIO) = v_q v (QReady MAXPRIO) ++ v_q v (QReady (MAXPRIO - 1)) /\
    (forall i, v_q v' (QList i) = v_q v (QList i)) /\
    PromoteAtTime s' = u32 (ticks s + TICKS_TO_PROMOTE) /\
    (v_nextpid v' = v_nextpid v /\ v_init v' = v_init v /\ v_ticks v' = v_ticks v /\ v_cur v' = v_cur v)).
Proof.
  intros H Hv. eapply wp_promote_all; [done|done|]. intros s' H' Hv'. exists (a_promote v).
  split_and!; try done.
  - intros i r Hr. exists (promote_rec r). split.
    + unfold a_promote. rec_simpl. by rewrite list_lookup_fmap, Hr.
    + unfold promote_rec. destruct (promoted r); [|done]. unfold promote.
      pose proof (wf_prio r (vi_wf v Hv i r Hr)) as Hp.
      destruct (Z.ltb_spec (priority r) (Z.of_nat MAXPRIO)).
      * rewrite Z.min_l by lia. destruct r. unfold upd. simpl. f_equal. lia.
      * rewrite Z.min_r by lia. destruct r. unfold upd. simpl in *. f_equal. lia.
  - intros j Hj. unfold a_promote. rec_simpl. cbv beta iota. rewrite decide_True by lia.
    unfold raised_q. by rewrite !decide_False by lia.
  - by rewrite (rep_prom _ _ H'), (rep_ticks _ _ H).
Qed.

(** ** Giving up the processor *)

(** What the time slice costs: a process whose slice ends has it taken from
    its budget, and with an exhausted budget it is demoted by one level and
    gets a new one. *)
Definition slice_spec (t : Z) (r r' : proc) : Prop :=
  let left := s32 (budget r - u32 (t - cpu_ticks_in r)) in
  (0 < left -> budget r' = left /\ priority r' = priority r) /\
  (left <= 0 -> budget r' = BUDGET /\ priority r' = Z.max 0 (priority r - 1)).

(** [yield].  At the switch the caller [p] is RUNNABLE, at the end of the
    ready queue of its priority, charged for its slice and demoted if its
    budget is used up; no other process has changed and the invariant holds.
    When the processor comes back with [ptable.lock] held, [yield] releases it
    and returns. *)
Theorem yield_correct v s p r :
  rep v s -> vinv v -> v_pt v = false -> v_own v = false -> v_cur v = Some p ->
  v_tbl v !! p = Some r -> state r = RUNNING ->
  let at_swtch s1 := exists v1 r1, rep v1 s1 /\ vinv v1 /\ v_pt v1 = true /\
    v_tbl v1 = <[p := r1]> (v_tbl v) /\ state r1 = RUNNABLE /\ slice_spec (v_ticks v) r r1 /\
    cpu_ticks_total r1 = u32 (cpu_ticks_total r + u32 (v_ticks v - cpu_ticks_in r)) /\
    v_q v1 (QReady (Z.to_nat (priority r1))) = v_q v (QReady (Z.to_nat (priority r1))) ++ [p] in
  wp (until_swtch at_swtch) yield s (fun _ _ => False) /\
  wp (across_swtch at_swtch (fun s2 => exists v2, rep v2 s2 /\ v_pt v2 = true)) yield s
    (fun _ s3 => exists v3, rep v3 s3 /\ v_pt v3 = false).
Proof.
  intros H Hv Hpt Hown Hcur Hr Hst at_swtch.
  assert (HG : forall s1, rep ((a_yield p r v) <| v_pt := true |>) s1 -> at_swtch s1).
  { intros s1 H1. set (r1 := yield_rec (v_ticks v) r) in *.
    assert (Hr1 : state r1 = RUNNABLE) by done.
    assert (Hc := charge_spec (v_ticks v) r). cbv zeta in Hc. destruct Hc as (C1 & C2 & C3 & C4 & C5 & C6).
    assert (Hpr := wf_prio r (vi_wf v Hv p r Hr)).
    exists ((a_yield p r v) <| v_pt := true |>), r1. split_and!; try done.
    - apply (vinv_frame (a_yield p r v)); [done..|].
      apply (vinv_move v p r r1); [done|done|right; by left|by apply charge_prio|..].
      + exact C2.
      + exact (f_equal length C3).
      + exact (f_equal length C4).
    - split; intros Hl; [destruct (C5 Hl)|destruct (C6 Hl) as [Hp ?]]; [done|]. split; [done|].
      change (priority r1) with (priority (charge (v_ticks v) r)). rewrite Hp.
      destruct (Z.ltb_spec 0 (priority r)); lia.
    - change (cpu_ticks_total r1) with
        (u32 (cpu_ticks_total (charge (v_ticks v) r) + u32 (v_ticks v - cpu_ticks_in (charge (v_ticks v) r)))).
      assert (cpu_ticks_total (charge (v_ticks v) r) = cpu_ticks_total r /\
        cpu_ticks_in (charge (v_ticks v) r) = cpu_ticks_in r) as [-> ->]; [|done].
      unfold charge. destruct (_ <=? 0); [destruct (0 <? _)|]; done.
    - rewrite <- (home_ready r1) by done. apply (a_place_q v p r); [done|done|].
      rewrite (home_ready r1), home_list by (done || congruence). done. }
  split; (eapply wp_yield; [done..|]; intros s1 H1; split; [by apply HG|]).
  - by intros s2 [].
  - intros s2 (v2 & H2 & Hpt2). exists v2. split_and!; [done|done|]. intros s3 H3. by eexists.
Qed.

(** [sleep].  Whatever lock the caller passes, at the switch that lock is
    released and [ptable.lock] is held, and the caller is SLEEPING on the
    channel, at the end of the sleep list, charged for its slice; the invariant
    holds.  When the processor comes back, [sleep] clears the channel, swaps the
    locks back and returns. *)
Theorem sleep_correct v s p r ch lk :
  rep v s -> vinv v -> lk_pre lk v -> v_cur v = Some p ->
  v_tbl v !! p = Some r -> state r = RUNNING ->
  let at_swtch s1 := exists v1 r1, rep v1 s1 /\ vinv v1 /\ v_pt v1 = true /\ v_own v1 = false /\
    v_tbl v1 = <[p := r1]> (v_tbl v) /\ state r1 = SLEEPING /\ chan_of_proc r1 = ch /\
    slice_spec (v_ticks v) r r1 /\ sleepers v1 = sleepers v ++ [p] in
  wp (until_swtch at_swtch) (sleep ch lk) s (fun _ _ => False) /\
  wp (across_swtch at_swtch (fun s2 => exists v2 r2, rep v2 s2 /\ v_pt v2 = true /\
        v_own v2 = false /\ v_tbl v2 !! p = Some r2)) (sleep ch lk) s
    (fun _ s3 => exists v3 r3, rep v3 s3 /\ lk_pre lk v3 /\ v_tbl v3 !! p = Some r3 /\
       chan_of_proc r3 = ChNull).
Proof.
  intros H Hv Hlk Hcur Hr Hst at_swtch.
  assert (HG : forall s1, rep ((a_sleep ch p r v) <| v_pt := true |> <| v_own := false |>) s1 -> at_swtch s1).
  { intros s1 H1. set (r1 := sleep_rec ch (v_ticks v) r) in *.
    assert (Hc := charge_spec (v_ticks v) (r <| chan_of_proc := ch |> <| state := SLEEPING |>)).
    cbv zeta in Hc. destruct Hc as (C1 & C2 & C3 & C4 & C5 & C6).
    assert (Hpr := wf_prio r (vi_wf v Hv p r Hr)).
    assert (Hs1 : state r1 = SLEEPING) by done.
    exists ((a_sleep ch p r v) <| v_pt := true |> <| v_own := false |>), r1. split_and!; try done.
    - apply (vinv_frame (a_sleep ch p r v)); [done..|].
      apply (vinv_move v p r r1); [done|done|by left|by apply charge_prio|..].
      + exact C2.
      + exact (f_equal length C3).
      + exact (f_equal length C4).
    - unfold r1, sleep_rec, account. rec_simpl. unfold charge. destruct (_ <=? 0); [destruct (0 <? _)|]; done.
    - split; intros Hl; [destruct (C5 Hl)|destruct (C6 Hl) as [Hp ?]]; [done|]. split; [done|].
      change (priority r1) with (priority (charge (v_ticks v) (r <| chan_of_proc := ch |> <| state := SLEEPING |>))).
      etrans; [exact Hp|]. rec_simpl. destruct (Z.ltb_spec 0 (priority r)); lia.
    - assert (Hh : home r1 = QList (state_num SLEEPING)) by (rewrite home_list, Hs1; congruence).
      unfold sleepers. rewrite <- Hh. apply (a_place_q v p r); [done|done|].
      by rewrite Hh, home_list, Hst by congruence. }
  split; (eapply wp_sleep; [done..|]; intros s1 H1; split; [by apply HG|]).
  - by intros s2 [].
  - intros s2 (v2 & r2 & H2 & Hpt2 & Hown2 & Hr2). exists v2, r2. split_and!; [done..|].
    intros s3 H3. eexists _, _. split_and!; [done|by destruct lk| |].
    + apply list_lookup_insert_eq. by eapply lookup_lt_Some.
    + done.
Qed.

(** ** Waking up *)

Lemma wp_wakeup P v s ch (Q : unit -> K -> Prop) :
  rep v s -> vinv v -> v_pt v = false ->
  (forall s', rep (a_wakeup ch v) s' -> vinv (a_wakeup ch v) -> Q tt s') ->
  wp P (wakeup ch) s Q.
Proof.
  intros H Hv Hpt HQ. apply wp_bind. eapply wp_acquire; [done|done|]. intros s1 H1.
  set (v1 := v <| v_pt := true |>) in *. assert (Hv1 : vinv v1) by (by apply (vinv_frame v)).
  apply wp_bind. eapply wp_wakeup1; [done|done|]. intros s2 H2 Hv2.
  eapply wp_release; [done|done|]. intros s3 H3. 
  assert (Heq : (a_wakeup ch v1) <| v_pt := false |> = a_wakeup ch v)
    by (destruct v; simpl in Hpt; by subst).
  rewrite Heq in H3. apply HQ; [done|]. rewrite <- Heq. by apply (vinv_frame (a_wakeup ch v1)).
Qed.

(** [wakeup] makes exactly the processes that sleep on the channel
    RUNNABLE and changes no other process; the sleep list keeps the others in
    order, and every ready queue is continued by the woken processes of its
    priority in the order in which they went to sleep.  It returns with the
    lock released, and keeps the invariant. *)
Theorem wakeup_correct v s ch :
  rep v s -> vinv v -> v_pt v = false ->
  exists s' v', wakeup ch s = Ret tt s' /\ rep v' s' /\ vinv v' /\
    (forall i r, v_tbl v !! i = Some r -> v_tbl v' !! i = Some
       (if decide (state r = SLEEPING /\ chan_of_proc r = ch) then r <| state := RUNNABLE |> else r)) /\
    sleepers v' = filter (fun i => woken (v_tbl v) ch i = false) (sleepers v) /\
    (forall j, v_q v' (QReady j) = v_q v (QReady j) ++
       filter (fun i => woken (v_tbl v) ch i = true /\ goes_to (v_tbl v) i = QReady j) (sleepers v)).
Proof.
  intros H Hv Hpt.
  destruct (wp_strict (wakeup ch) s (fun _ s' => rep (a_wakeup ch v) s' /\ vinv (a_wakeup ch v)))
    as ([] & s' & He & H' & Hv'); [by eapply wp_wakeup|].
  exists s', (a_wakeup ch v). split_and!; [done|done|done| | |].
  - intros i r Hr. unfold a_wakeup. rec_simpl. rewrite list_lookup_fmap, Hr.
    cbn [fmap option_fmap option_map]. f_equal. unfold wake, wakeable.
    case_decide as Hd; [destruct Hd; by rewrite !bool_decide_eq_true_2|].
    destruct (decide (state r = SLEEPING)); [|by rewrite bool_decide_eq_false_2].
    rewrite (bool_decide_eq_false_2 (chan_of_proc r = ch)) by tauto. by rewrite andb_false_r.
  - unfold sleepers, a_wakeup. rec_simpl. rewrite (filter_none (fun i => _ /\ _)), app_nil_r; [done|].
    intros i Hi [Hw Hg]. unfold goes_to in Hg. destruct (v_tbl v !! i) as [r|] eqn:Hr;
      [by rewrite home_ready in Hg|unfold woken in Hw; by rewrite Hr in Hw].
  - intros j. unfold a_wakeup. rec_simpl. rewrite (filter_id (fun i => woken _ _ _ = false)); [done|].
    intros i (r & Hr & Hs & _)%(vinv_q_ready v j i Hv). unfold woken. rewrite Hr. unfold wakeable.
    by rewrite bool_decide_eq_false_2 by congruence.
Qed.

(** ** kill and priorities *)

Lemma a_kill_pt n v : v_pt (a_kill n v).2 = v_pt v.
Proof. unfold a_kill. repeat case_match; done. Qed.

(** C29: [kill] marks one process with that pid, in any state but UNUSED, and
    returns 0; if the process slept it becomes RUNNABLE and is queued at the end
    of the ready queue of its priority.  Nothing else changes.  Without such a
    process the result is -1 and nothing changes. *)
Theorem kill_correct v s n :
  rep v s -> vinv v -> v_pt v = false ->
  exists z s' v', kill n s = Ret z s' /\ rep v' s' /\ vinv v' /\ v_pt v' = false /\
    ((z = -1 /\ v' = v /\ forall i r, v_tbl v !! i = Some r -> state r <> UNUSED -> pid r <> u32 n) \/
     (z = 0 /\ exists p r, v_tbl v !! p = Some r /\ state r <> UNUSED /\ pid r = u32 n /\
        let r' := if decide (state r = SLEEPING) then r <| killed := 1 |> <| state := RUNNABLE |>
                  else r <| killed := 1 |> in
        v_tbl v' = <[p := r']> (v_tbl v) /\
        if decide (state r = SLEEPING)
        then v_q v' (QReady (Z.to_nat (priority r))) = v_q v (QReady (Z.to_nat (priority r))) ++ [p]
        else v_q v' = v_q v)).
Proof.
  intros H Hv Hpt.
  destruct (wp_strict (kill n) s (fun z s' => z = (a_kill n v).1 /\ rep (a_kill n v).2 s' /\
    vinv (a_kill n v).2)) as (z & s' & He & Hz & H' & Hv'); [by eapply wp_kill|].
  exists z, s', (a_kill n v).2. split_and!; [done|done|done|by rewrite a_kill_pt|]. clear He H' Hv'. subst z.
  pose proof (search_spec v live_states n Hv) as Hs. unfold a_kill.
  destruct (search live_states n v) as [p|].
  - destruct Hs as (r & Hr & Hs & Hn). rewrite Hr. right. split; [done|]. exists p, r.
    rewrite live_states_elem in Hs. split_and!; [done|done|done| |].
    + unfold kill_rec. by case_decide.
    + case_decide as Hsl; [|done]. set (r' := kill_rec r).
      assert (Hr' : r' = r <| killed := 1 |> <| state := RUNNABLE |>) by (unfold r', kill_rec; by rewrite decide_True).
      assert (Hh : home r' = QReady (Z.to_nat (priority r))) by (by rewrite Hr').
      cbn [snd]. rewrite <- Hh. apply (a_place_q v p r); [done|done|]. rewrite Hh, home_list; congruence.
  - left. split_and!; [done|done|]. intros i r Hr Hst. apply (Hs i r Hr). by apply live_states_elem.
Qed.

Lemma setpriority_runs v s n prio :
  rep v s -> vinv v -> v_pt v = false ->
  exists s', setpriority n prio s = Ret (a_setpriority n prio v).1 s' /\
    rep (a_setpriority n prio v).2 s' /\ vinv (a_setpriority n prio v).2.
Proof.
  intros H Hv Hpt.
  destruct (wp_strict (setpriority n prio) s (fun z s' => z = (a_setpriority n prio v).1 /\
    rep (a_setpriority n prio v).2 s' /\ vinv (a_setpriority n prio v).2))
    as (z & s' & He & -> & H' & Hv'); [by eapply wp_setpriority|]. by exists s'.
Qed.

Lemma prio_states_elem st :
  state_num st ∈ prio_states <-> st = SLEEPING \/ st = RUNNABLE \/ st = RUNNING.
Proof. unfold prio_states. rewrite list_elem_of_In. destruct st; simpl; intuition discriminate. Qed.

(** [setpriority] answers an error, and changes nothing, if the pid or the
    priority is out of range or no SLEEPING, RUNNABLE or RUNNING process has the
    pid.  Otherwise one such process gets the priority with a full budget, and
    if it is RUNNABLE it moves to the end of the ready queue of its new
    priority; if it has that priority already, nothing changes. *)
Theorem setpriority_correct v s n prio :
  rep v s -> vinv v -> v_pt v = false ->
  exists z s' v', setpriority n prio s = Ret z s' /\ rep v' s' /\ vinv v' /\
    ((z = RETURN_FAILURE /\ v' = v /\
      (~ 0 <= n <= 32767 \/ ~ 0 <= prio <= Z.of_nat MAXPRIO \/
       forall i r, v_tbl v !! i = Some r -> alive r -> pid r <> u32 n)) \/
     (z = RETURN_SUCCESS /\ 0 <= n <= 32767 /\ 0 <= prio <= Z.of_nat MAXPRIO /\
      exists p r, v_tbl v !! p = Some r /\ alive r /\ pid r = u32 n /\
        (priority r = prio -> v' = v) /\
        (priority r <> prio ->
           v_tbl v' = <[p := r <| priority := prio |> <| budget := BUDGET |>]> (v_tbl v) /\
           (state r = RUNNABLE -> v_q v' (QReady (Z.to_nat prio)) = v_q v (QReady (Z.to_nat prio)) ++ [p])))).
Proof.
  intros H Hv Hpt. destruct (setpriority_runs v s n prio H Hv Hpt) as (s' & He & H' & Hv').
  eexists _, s', _. split_and!; [done|done|done|]. clear He H' Hv' s'. unfold a_setpriority.
  destruct (bad_pid n) eqn:Hn; unfold bad_pid in Hn.
  { left. split_and!; [done..|]. left. lia. }
  destruct (bad_prio prio) eqn:Hp; unfold bad_prio in Hp.
  { left. split_and!; [done..|]. right. left. lia. }
  pose proof (search_spec v prio_states n Hv) as Hs.
  destruct (search prio_states n v) as [p|]; cbn [orb].
  - destruct Hs as (r & Hr & Hs & Hnr). rewrite Hr. apply prio_states_elem in Hs. right.
    split_and!; [done|lia..|]. exists p, r. split_and!; [done|done|done|..]; cbn [snd]; unfold a_setprio.
    + intros ->. by rewrite Z.eqb_refl.
    + intros Hne. rewrite (proj2 (Z.eqb_neq _ _)) by done. split; [by case_decide|].
      intros Hrun. rewrite decide_True by done.
      assert (Hh : home (prio_rec prio r) = QReady (Z.to_nat prio)) by (by rewrite home_ready).
      rewrite <- Hh. apply (a_place_q v p r); [done|done|]. rewrite Hh, home_ready by done.
      pose proof (wf_prio r (vi_wf v Hv p r Hr)). intros [= Hx]. lia.
  - left. split_and!; [done..|]. do 2 right. intros i r Hr Ha. apply (Hs i r Hr).
    by apply prio_states_elem.
Qed.

(** No two processes in use have the same pid. *)
Definition unique_pids v : Prop :=
  forall i j ri rj, v_tbl v !! i = Some ri -> v_tbl v !! j = Some rj ->
    state ri <> UNUSED -> state rj <> UNUSED -> pid ri = pid rj -> i = j.

(** What [setpriority] sets, [getpriority] reads: after a successful call
    for a pid that is unique, [getpriority] answers the new priority, and leaves
    the table as it is. *)
Theorem setpriority_getpriority v s n prio s1 :
  rep v s -> vinv v -> v_pt v = false -> unique_pids v ->
  setpriority n prio s = Ret RETURN_SUCCESS s1 ->
  exists s2 v2, getpriority n s1 = Ret prio s2 /\ rep v2 s1 /\ rep v2 s2.
Proof.
  intros H Hv Hpt Hu He. destruct (setpriority_runs v s n prio H Hv Hpt) as (s' & He' & H1 & Hv1).
  rewrite He in He'. injection He' as Hz <-. revert Hz H1 Hv1. unfold a_setpriority.
  destruct (bad_pid n) eqn:Hn; [done|]. destruct (bad_prio prio) eqn:Hp; [done|]. cbn [orb].
  pose proof (search_spec v prio_states n Hv) as Hs.
  destruct (search prio_states n v) as [p|]; [|done]. destruct Hs as (r & Hr & Hs & Hpid). rewrite Hr.
  intros _ H1 Hv1. cbn [snd] in H1, Hv1. set (v1 := a_setprio p r prio v) in *.
  apply prio_states_elem in Hs.
  assert (Ht : v_tbl v1 !! p = Some (if priority r =? prio then r else prio_rec prio r) /\
    forall i, i <> p -> v_tbl v1 !! i = v_tbl v !! i).
  { assert (Hlt := lookup_lt_Some _ _ _ Hr). unfold v1, a_setprio.
    destruct (priority r =? prio); [done|].
    assert (Hins : v_tbl (if decide (state r = RUNNABLE) then a_place p (prio_rec prio r) v
      else a_upd p (prio_rec prio r) v) = <[p := prio_rec prio r]> (v_tbl v)) by (by case_decide).
    rewrite Hins. split; [by apply list_lookup_insert_eq|]. intros i Hi. by apply list_lookup_insert_ne. }
  destruct Ht as [Htp Hto]. set (r1 := if priority r =? prio then r else prio_rec prio r) in *.
  assert (Hr1 : state r1 = state r /\ pid r1 = pid r /\ priority r1 = prio).
  { unfold r1. destruct (Z.eqb_spec (priority r) prio); done. }
  destruct Hr1 as (Hst1 & Hpid1 & Hpr1).
  assert (Hg : a_getpriority n v1 = prio).
  { unfold a_getpriority. rewrite Hn. pose proof (search_spec v1 (seq (state_num SLEEPING) 4) n Hv1) as Hsr.
    destruct (search _ n v1) as [q|].
    - destruct Hsr as (rq & Hrq & Hsq & Hpq). destruct (decide (q = p)) as [->|Hne].
      + cbn. rewrite Htp. rewrite Hpr1. apply s32_small. unfold bad_prio, MAXPRIO in Hp.
        apply orb_false_iff in Hp as [Hp1 Hp2]. apply Z.ltb_ge in Hp1, Hp2. unfold is_s32. clear -Hp1 Hp2. lia.
      + exfalso. apply Hne. rewrite (Hto q Hne) in Hrq. apply (Hu q p rq r); try done; [|intros Hx; rewrite Hx in Hs; naive_solver|congruence].
        intros Hx. rewrite Hx in Hsq. apply elem_of_seq in Hsq. simpl in Hsq. lia.
    - exfalso. apply (Hsr p r1 Htp); [|congruence]. rewrite Hst1. apply elem_of_seq.
      destruct Hs as [-> | [-> | ->]]; simpl; lia. }
  assert (Hpt1 : v_pt v1 = false) by (unfold v1, a_setprio; by repeat case_match).
  destruct (wp_strict (getpriority n) s1 (fun z s' => z = prio /\ rep v1 s')) as (z & s2 & He2 & -> & H2).
  { eapply wp_getpriority; [done|done|done|]. intros s2 H2. by rewrite Hg. }
  by exists s2, v1.
Qed.

End theorems.

(** ** The theorems on concrete kernels *)

Lemma scheduler_round_witness :
  exists p r, v_tbl (a_due demo_view) !! p = Some r /\ state r = RUNNABLE /\
    wp (until_swtch (fun s1 => rep ((a_run p r (a_due demo_view)) <| v_pt := true |>) s1 /\
          vinv (a_run p r (a_due demo_view)))) scheduler_round demo_kst (fun _ _ => False).
Proof.
  destruct (scheduler_round_correct demo_view demo_kst demo_rep vinv_demo eq_refl)
    as [(p & r & l & Hr & Hs & _ & _ & Hw)|[Hno _]].
  - exists p, r. by split_and!.
  - exfalso. eapply (Hno 3%nat); reflexivity.
Defined.

Lemma promote_all_witness :
  wp strict promote_all demo_kst (fun _ s' => PromoteAtTime s' = u32 (ticks demo_kst + TICKS_TO_PROMOTE)).
Proof.
  eapply wp_mono; [apply (promote_all_correct demo_view demo_kst demo_rep vinv_demo)|].
  by intros [] s' (v' & _ & _ & _ & _ & _ & _ & _ & Hp & _).
Defined.

Lemma yield_witness :
  exists r, v_tbl demo_view !! 0%nat = Some r /\
  wp (across_swtch (fun s1 => exists v1 r1, rep v1 s1 /\ vinv v1 /\ v_pt v1 = true /\
      v_tbl v1 = <[0%nat := r1]> (v_tbl demo_view) /\ state r1 = RUNNABLE /\
      slice_spec (v_ticks demo_view) r r1 /\
      cpu_ticks_total r1 = u32 (cpu_ticks_total r + u32 (v_ticks demo_view - cpu_ticks_in r)) /\
      v_q v1 (QReady (Z.to_nat (priority r1))) = v_q demo_view (QReady (Z.to_nat (priority r1))) ++ [0%nat])
    (fun s2 => exists v2, rep v2 s2 /\ v_pt v2 = true)) yield demo_kst
    (fun _ s3 => exists v3, rep v3 s3 /\ v_pt v3 = false).
Proof.
  eexists. split; [reflexivity|].
  by apply (yield_correct demo_view demo_kst 0%nat _ demo_rep vinv_demo).
Defined.

Lemma sleep_witness :
  wp (across_swtch (fun s1 => exists v1 r1, rep v1 s1 /\ vinv v1 /\ v_pt v1 = true /\ v_own v1 = false /\
      v_tbl v1 = <[0%nat := r1]> (v_tbl demo_view) /\ state r1 = SLEEPING /\ chan_of_proc r1 = ChAddr 7 /\
      slice_spec (v_ticks demo_view) (with_cwd (demo_proc RUNNING 1 None 6 ChNull)) r1 /\
      sleepers v1 = sleepers demo_view ++ [0%nat])
    (fun s2 => exists v2 r2, rep v2 s2 /\ v_pt v2 = true /\ v_own v2 = false /\ v_tbl v2 !! 0%nat = Some r2))
    (sleep (ChAddr 7) LkNull) demo_kst
    (fun _ s3 => exists v3 r3, rep v3 s3 /\ lk_pre LkNull v3 /\ v_tbl v3 !! 0%nat = Some r3 /\
       chan_of_proc r3 = ChNull).
Proof.
  by apply (sleep_correct demo_view demo_kst 0%nat _ (ChAddr 7) LkNull demo_rep vinv_demo).
Defined.

Lemma wakeup_witness :
  exists s' v', wakeup (ChAddr 7) demo_kst = Ret tt s' /\ rep v' s' /\ sleepers v' = [].
Proof.
  destruct (wakeup_correct demo_view demo_kst (ChAddr 7) demo_rep vinv_demo eq_refl)
    as (s' & v' & He & H' & _ & _ & Hs & _).
  exists s', v'. split_and!; [done|done|]. rewrite Hs. reflexivity.
Defined.

Lemma kill_witness :
  exists s' v', kill 2 demo_kst = Ret 0 s' /\ rep v' s' /\ vinv v'.
Proof.
  destruct (kill_correct demo_view demo_kst 2 demo_rep vinv_demo eq_refl)
    as (z & s' & v' & He & H' & Hv' & _ & [(_ & _ & Hno)|(-> & _)]).
  - exfalso. by eapply (Hno 1%nat).
  - by exists s', v'.
Defined.

Lemma setpriority_witness :
  exists s' v', setpriority 5 2 demo_kst = Ret RETURN_SUCCESS s' /\ rep v' s' /\ vinv v'.
Proof.
  destruct (setpriority_correct demo_view demo_kst 5 2 demo_rep vinv_demo eq_refl)
    as (z & s' & v' & He & H' & Hv' & [(_ & _ & Hno)|(-> & _)]).
  - exfalso. destruct Hno as [Hno|[Hno|Hno]]; [lia|unfold MAXPRIO in Hno; lia|].
    eapply (Hno 4%nat); [reflexivity|right; by left|reflexivity].
  - by exists s', v'.
Defined.

Lemma demo_unique_pids : unique_pids demo_view.
Proof.
  assert (Hall : forallb (fun i => forallb (fun j => match v_tbl demo_view !! i, v_tbl demo_view !! j with
    | Some ri, Some rj => bool_decide (state ri = UNUSED) || bool_decide (state rj = UNUSED) ||
        negb (pid ri =? pid rj) || bool_decide (i = j)
    | _, _ => false end) (seq 0 NPROC)) (seq 0 NPROC) = true) by (vm_compute; reflexivity).
  intros i j ri rj Hi Hj Hsi Hsj Hp. rewrite forallb_forall in Hall.
  assert (Hlt : forall k r, v_tbl demo_view !! k = Some r -> In k (seq 0 NPROC)).
  { intros k r Hk. apply in_seq. apply lookup_lt_Some in Hk. rewrite (vi_len _ vinv_demo) in Hk. lia. }
  pose proof (Hall i (Hlt i ri Hi)) as Hij. rewrite forallb_forall in Hij. pose proof (Hij j (Hlt j rj Hj)) as Hx.
  rewrite Hi, Hj, Hp, Z.eqb_refl in Hx. rewrite !bool_decide_eq_false_2 in Hx by done.
  by apply bool_decide_eq_true in Hx.
Qed.

Lemma setpriority_getpriority_witness :
  exists s1 s2, setpriority 5 2 demo_kst = Ret RETURN_SUCCESS s1 /\ getpriority 5 s1 = Ret 2 s2.
Proof.
  destruct (setpriority_runs demo_view demo_kst 5 2 demo_rep vinv_demo eq_refl) as (s1 & He & _).
  assert (Hz : (a_setpriority 5 2 demo_view).1 = RETURN_SUCCESS) by (vm_compute; reflexivity).
  rewrite Hz in He.
  destruct (setpriority_getpriority demo_view demo_kst 5 2 s1 demo_rep vinv_demo eq_refl demo_unique_pids He)
    as (s2 & v2 & Hg & _).
  exists s1, s2. split; [exact He|exact Hg].
Defined.
