(* ===== verification/ProcLife.v ===== *)
(** * Theorems about the life of a process: userinit, fork, exit, wait *)

From S2P Require Import Prelude Params Spinlock Str ProcDefs StateList Proc ProcInv.
From S2P Require Import ProcWake ProcOps ProcFork ProcExit ProcWait ProcSched ProcBoot Demo ProcProps.

Section life.
Context {L E : Type} `{CL : CpuLock L} `{SV : ProcServices E}.
Abbreviation K := (kst L E).
Implicit Types (v : view) (s : K).

(** ** fork *)

(** The child is a copy of the caller [c], except for what belongs to a new
    process.  (Its start time is whatever the slot had: the assignment in
    [allocproc] is compiled out by a misspelt macro.) *)
Record forked (R2 : option Z -> Prop) v v' (c : nat) (rc : proc) (p : nat) (r r' : proc) : Prop := {
  fk_tbl : v_tbl v' = <[p := r']> (v_tbl v);
  fk_ids : pid r' = v_nextpid v /\ v_nextpid v' = u32 (v_nextpid v + 1);
  fk_parent : parent r' = Some c;
  fk_state : state r' = RUNNABLE /\ priority r' = Z.of_nat MAXPRIO /\ budget r' = BUDGET;
  fk_queue : v_q v' (QReady MAXPRIO) = v_q v (QReady MAXPRIO) ++ [p];
  fk_copy : sz r' = sz rc /\ uid r' = uid rc /\ gid r' = gid rc /\ ofile r' = ofile rc /\ cwd r' = cwd rc;
  fk_pgdir : exists d, pgdir r' = Some d /\ R2 (Some d);
  fk_name : cstr (name r') = take 15 (cstr (name rc));
  fk_eax : tf r' = (tf rc) <| tf_eax := 0 |>;
  fk_ticks : cpu_ticks_total r' = 0 /\ cpu_ticks_in r' = 0 /\ start_ticks r' = start_ticks r;
}.

(** Slots in use are as before. *)
Definition only_free_changed v v' : Prop :=
  forall i r', v_tbl v' !! i = Some r' -> v_tbl v !! i = Some r' \/
    state r' = UNUSED /\ exists r, v_tbl v !! i = Some r /\ state r = UNUSED.

Lemma only_free_place v p r r' n :
  v_tbl v !! p = Some r -> state r = UNUSED -> state r' = UNUSED ->
  only_free_changed v (a_place p r' (v <| v_nextpid := n |>)).
Proof.
  intros Hr Hs Hs' i ri. change (v_tbl (a_place p r' (v <| v_nextpid := n |>))) with (<[p := r']> (v_tbl v)).
  destruct (decide (i = p)) as [->|Hne].
  - rewrite list_lookup_insert_eq by (by eapply lookup_lt_Some). intros [= <-]. right. eauto.
  - rewrite list_lookup_insert_ne by done. by left.
Qed.

(** C9: [fork].  Either it makes a child in a free slot, RUNNABLE at the end of
    the top queue, with the next pid, which it returns; the child has the
    caller's memory size, files, directory, identity and registers, but reads 0
    as the result of the call.  Or it returns -1 and no slot in use has
    changed; that happens only if there is no free slot or the page allocator
    ([R1]) or [copyuvm] ([R2]) may fail.  The page table of the child is the one
    that [copyuvm] made.  The invariant holds afterwards and the lock is free. *)
Theorem fork_correct v s c rc w (R1 R2 : option Z -> Prop) :
  (forall e, sv_ret sv_kalloc e R1) -> (forall e, sv_ret (sv_copyuvm (pgdir rc) (sz rc)) e R2) ->
  rep v s -> vinv v -> v_pt v = false -> v_cur v = Some c ->
  v_tbl v !! c = Some rc -> state rc = RUNNING -> cwd rc = Some w ->
  wp quiet fork s (fun z s' => exists v', rep v' s' /\ vinv v' /\ v_pt v' = false /\
    ((exists p r r', v_tbl v !! p = Some r /\ state r = UNUSED /\ z = s32 (pid r') /\
        forked R2 v v' c rc p r r') \/
     (z = -1 /\ only_free_changed v v' /\ (unused v = [] \/ R1 None \/ R2 None)))).
Proof.
  intros HR1 HR2 H Hv Hpt Hcur Hc Hst Hw.
  eapply (wp_fork quiet (fun _ H => H) v s c rc w R1 R2); [done..|by right; right|done| |].
  - intros Hu s' H'. exists v. split_and!; [done|done|done|]. right. split_and!; [done| |by left].
    intros i r' Hr'. by left.
  - intros p l r Hu Hr Hs n. split_and!.
    + intros s' v' HN H' Hv'. exists v'. split_and!; [done|done|done|]. right.
      split_and!; [done|by eapply only_free_place|auto].
    + intros ks s' v' HN H' Hv'. exists v'. split_and!; [done|done|done|]. right.
      split_and!; [done|by eapply only_free_place|auto].
    + intros ks d nm s' v' HR Hnm H' Hv'. exists v'. split_and!; [done|done|done|]. left.
      set (re := embryo_rec n ks r) in *.
      set (r' := (fork_rec c rc d nm re) <| state := RUNNABLE |>) in *.
      exists p, r, r'. split_and!; [done|done|done|]. split; try done; [|by exists d].
      assert (Hh : home r' = QReady MAXPRIO) by reflexivity. rewrite <- Hh.
      eapply (a_place_q (a_bump v) p r); [by apply (vinv_frame v)|done|].
      rewrite Hh, home_list by congruence. done.
Qed.

(** ** exit *)

(** Who is woken: those who sleep on the parent, and those who sleep on init if
    init inherits a zombie. *)
Definition exit_wakes v (c : nat) (r ri : proc) : bool :=
  bool_decide (state ri = SLEEPING) &&
  (bool_decide (chan_of_proc ri = chan_of (parent r)) ||
   existsb (zombie_child c) (v_tbl v) && bool_decide (chan_of_proc ri = chan_of (v_init v))).

(** What [exit] has done to the table [v] when process [c] switches for the
    last time, leaving [v']. *)
Record exited v v' (c : nat) (r : proc) : Prop := {
  ex_zombie : exists r', v_tbl v' !! c = Some r' /\ state r' = ZOMBIE /\ pid r' = pid r /\
    parent r' = (if decide (parent r = Some c) then v_init v else parent r) /\ ofile r' = replicate NOFILE None /\ cwd r' = None;
  ex_list : zombies v' = zombies v ++ [c];
  ex_others : forall i ri, i <> c -> v_tbl v !! i = Some ri ->
    exists ri', v_tbl v' !! i = Some ri' /\ pid ri' = pid ri /\ chan_of_proc ri' = chan_of_proc ri /\
      parent ri' = (if decide (parent ri = Some c) then v_init v else parent ri) /\
      state ri' = (if exit_wakes v c r ri then RUNNABLE else state ri);
  ex_parent_woken : forall q rq, parent r = Some q -> q <> c -> v_tbl v !! q = Some rq ->
    state rq = SLEEPING -> chan_of_proc rq = ChProc q ->
    exists rq', v_tbl v' !! q = Some rq' /\ state rq' = RUNNABLE;
  ex_init_woken : forall i ri q rq, v_tbl v !! i = Some ri -> parent ri = Some c -> state ri = ZOMBIE ->
    v_init v = Some q -> v_tbl v !! q = Some rq -> state rq = SLEEPING -> chan_of_proc rq = ChProc q ->
    exists rq', v_tbl v' !! q = Some rq' /\ state rq' = RUNNABLE;
}.

Lemma wake_state ch r :
  state (wake ch r) = state r \/ state r = SLEEPING /\ state (wake ch r) = RUNNABLE.
Proof.
  unfold wake, wakeable. destruct (decide (state r = SLEEPING)) as [Hs|Hs].
  - rewrite bool_decide_eq_true_2 by done. destruct (bool_decide _); auto.
  - rewrite bool_decide_eq_false_2 by done. by left.
Qed.
Lemma wake_fields ch r :
  pid (wake ch r) = pid r /\ parent (wake ch r) = parent r /\ chan_of_proc (wake ch r) = chan_of_proc r.
Proof. unfold wake. by destruct (wakeable ch r). Qed.
Lemma wake_hit ch r : state r = SLEEPING -> chan_of_proc r = ch -> state (wake ch r) = RUNNABLE.
Proof. intros Hs Hc. unfold wake, wakeable. by rewrite !bool_decide_eq_true_2. Qed.
Lemma wake_zombie ch r : state (wake ch r) = ZOMBIE <-> state r = ZOMBIE.
Proof. destruct (wake_state ch r) as [Hs|[Hs Hs']]; rewrite ?Hs, ?Hs'; done. Qed.
Lemma reparent_fields c init r :
  pid (reparent c init r) = pid r /\ chan_of_proc (reparent c init r) = chan_of_proc r /\
  parent (reparent c init r) = (if decide (parent r = Some c) then init else parent r) /\
  state (reparent c init r) = state r.
Proof. unfold reparent. by case_decide. Qed.

Lemma a_wakeup_lookup ch v i : v_tbl (a_wakeup ch v) !! i = wake ch <$> v_tbl v !! i.
Proof. unfold a_wakeup. rec_simpl. apply list_lookup_fmap. Qed.

Lemma zombie_child_wakeup c ch v :
  existsb (zombie_child c) (v_tbl (a_wakeup ch v)) = existsb (zombie_child c) (v_tbl v).
Proof.
  unfold a_wakeup. rec_simpl. induction (v_tbl v) as [|ri l IH]; [done|]. rewrite fmap_cons. cbn [existsb]. rewrite IH. f_equal.
  unfold zombie_child, child_of. rewrite (proj1 (proj2 (wake_fields ch ri))). f_equal. apply bool_decide_ext. apply wake_zombie.
Qed.
Lemma wake_state_eq ch r : state (wake ch r) =
  if bool_decide (state r = SLEEPING) && bool_decide (chan_of_proc r = ch) then RUNNABLE else state r.
Proof. unfold wake, wakeable. by destruct (_ && _). Qed.

(** The record of another process after [exit]. *)
Lemma a_exit_other v c r i ri :
  i <> c -> v_tbl v !! i = Some ri ->
  v_tbl (a_exit c r v) !! i = Some (reparent c (v_init v)
    ((if existsb (zombie_child c) (v_tbl (a_wakeup (chan_of (parent r)) v))
      then wake (chan_of (v_init v)) else id) (wake (chan_of (parent r)) ri))).
Proof.
  intros Hne Hi. unfold a_exit, a_place, a_append, a_unlink, a_upd. rec_simpl.
  rewrite list_lookup_insert_ne, a_orphans_lookup, a_wakeup_lookup, Hi by done.
  cbn [fmap option_fmap option_map]. do 2 f_equal.
  by destruct (existsb _ _).
Qed.

Lemma zombies_wakeup ch v :
  (forall i, i ∈ zombies v -> exists r, v_tbl v !! i = Some r /\ state r = ZOMBIE) ->
  zombies (a_wakeup ch v) = zombies v.
Proof.
  intros Hz. unfold zombies, a_wakeup. rec_simpl. rewrite filter_id, filter_none, app_nil_r; [done| |].
  - intros j _ [Hw Hg]. unfold goes_to in Hg. unfold woken in Hw.
    destruct (v_tbl v !! j) as [r|] eqn:Hj; [|done]. by rewrite home_ready in Hg.
  - intros j (r & Hr & Hs)%Hz. unfold woken. rewrite Hr. unfold wakeable.
    by rewrite bool_decide_eq_false_2 by congruence.
Qed.

Lemma zombies_exit v c r :
  vinv v -> v_tbl v !! c = Some r -> state r <> ZOMBIE -> zombies (a_exit c r v) = zombies v ++ [c].
Proof.
  intros Hv Hr Hs. set (ch := chan_of (parent r)).
  assert (Hz : forall i, i ∈ zombies v -> exists r, v_tbl v !! i = Some r /\ state r = ZOMBIE).
  { intros i (ri & Hi & Hsi & _)%(vinv_q_state v ZOMBIE i Hv). eauto. }
  assert (H1 : zombies (a_wakeup ch v) = zombies v) by (by apply zombies_wakeup).
  assert (H2 : zombies (a_orphans c (a_wakeup ch v)) = zombies v).
  { unfold a_orphans, a_wake_init. change (zombies (?x <| v_tbl ::= ?f |>)) with (zombies x).
    destruct (existsb _ _); [|done]. rewrite zombies_wakeup; [done|]. rewrite H1.
    intros i (ri & Hi & Hsi)%Hz. exists (wake ch ri). rewrite a_wakeup_lookup, Hi. split; [done|].
    by apply wake_zombie. }
  unfold a_exit. fold ch. unfold zombies, a_place, a_append, a_unlink, a_upd. rec_simpl.
  rewrite decide_True; [|by rewrite home_list].
  fold (zombies (a_orphans c (a_wakeup ch v))). rewrite H2, list_remove_all_notin; [done|].
  intros (rc & Hc & Hsc)%Hz. congruence.
Qed.

Lemma a_exit_spec v c r :
  vinv v -> v_tbl v !! c = Some r -> state r = RUNNING ->
  ofile r = replicate NOFILE None -> cwd r = None -> vinv (a_exit c r v) ->
  exited v (a_exit c r v) c r.
Proof.
  intros Hv Hr Hst Hof Hcwd Hv'.
  assert (Hlt := lookup_lt_Some _ _ _ Hr).
  assert (Hc : v_tbl (a_exit c r v) !! c = Some (zombie_rec c (v_init v) (v_ticks v) r)).
  { apply list_lookup_insert_eq. unfold a_orphans, a_wake_init. rec_simpl. rewrite length_fmap.
    destruct (existsb _ _); unfold a_wakeup; rec_simpl; by rewrite ?length_fmap. }
  split.
  - eexists. split; [exact Hc|]. unfold zombie_rec, reparent.
    destruct (decide (parent r = Some c)); by split_and!.
  - apply zombies_exit; congruence.
  - intros i ri Hne Hi. rewrite (a_exit_other v c r i ri Hne Hi). eexists. split; [done|]. rewrite zombie_child_wakeup.
    set (x := (if existsb _ _ then _ else id) _). assert (Hx : pid x = pid ri /\ parent x = parent ri /\ chan_of_proc x = chan_of_proc ri).
    { destruct (wake_fields (chan_of (parent r)) ri) as (W1 & W2 & W3). unfold x. destruct (existsb _ _); [|done].
      destruct (wake_fields (chan_of (v_init v)) (wake (chan_of (parent r)) ri)) as (U1 & U2 & U3). split_and!; congruence. }
    destruct Hx as (X1 & X2 & X3). destruct (reparent_fields c (v_init v) x) as (-> & -> & -> & ->).
    split_and!; [done|done|by rewrite X2|]. unfold x, exit_wakes. destruct (wake_fields (chan_of (parent r)) ri) as (_ & _ & W3).
    destruct (existsb _ _); unfold id; rewrite ?wake_state_eq, ?W3; destruct (bool_decide (state ri = SLEEPING)) eqn:E1; cbn [andb orb]; rewrite ?orb_false_r;
      repeat (destruct (bool_decide (chan_of_proc ri = _))); cbn [andb orb]; try done; by rewrite E1.
  - intros q rq Hp Hne Hq Hs Hch. rewrite (a_exit_other v c r q rq Hne Hq). eexists. split; [done|].
    rewrite (proj2 (proj2 (proj2 (reparent_fields _ _ _)))). rewrite Hp. cbn [chan_of].
    assert (Hw := wake_hit (ChProc q) rq Hs Hch).
    destruct (existsb _ _); [|done]. unfold wake at 1, wakeable. by rewrite Hw, bool_decide_eq_false_2.
  - intros i ri q rq Hi Hpi Hz Hin Hq Hs Hch.
    assert (Hne : q <> c) by (intros ->; congruence).
    assert (Hex : existsb (zombie_child c) (v_tbl (a_wakeup (chan_of (parent r)) v)) = true).
    { apply existsb_exists. exists (wake (chan_of (parent r)) ri). split.
      - apply list_elem_of_In, list_elem_of_lookup. exists i. unfold a_wakeup. rec_simpl.
        by rewrite list_lookup_fmap, Hi.
      - unfold zombie_child, child_of. rewrite (proj1 (proj2 (wake_fields _ _))).
        rewrite !bool_decide_eq_true_2; [done| |done]. by apply wake_zombie. }
    rewrite (a_exit_other v c r q rq Hne Hq), Hex. eexists. split; [done|].
    rewrite (proj2 (proj2 (proj2 (reparent_fields _ _ _)))), Hin. cbn [chan_of].
    destruct (wake_state (chan_of (parent r)) rq) as [Hw|[_ Hw]].
    + apply wake_hit; [congruence|]. by rewrite (proj2 (proj2 (wake_fields _ _))).
    + unfold wake at 1, wakeable. by rewrite Hw, bool_decide_eq_false_2.
Qed.

(** While the files are closed the process may sleep and is resumed with its own
    record as it left it; whatever else has changed meanwhile, the invariant
    holds. *)
Definition files_prot (c : nat) : prot K :=
  Prot sv_panics (fun s1 => exists fs w, exiting_st c fs w s1)
    (fun s1 s2 => forall fs w, exiting_st c fs w s1 -> exiting_st c fs w s2).

Lemma exit_zombie_out v s c r : exiting c (replicate NOFILE None) None v -> rep v s -> v_tbl v !! c = Some r ->
  exists s' k v', exit_zombie c s = Swtch s' k /\ rep v' s' /\ vinv v' /\ v_pt v' = true /\ exited v v' c r.
Proof.
  intros (Hv & Hpt & Hown & Hcur & Hi & r0 & Hr0 & Hst & Hof & Hw) H Hr. assert (r0 = r) as -> by congruence.
  set (v' := (a_exit c r v) <| v_pt := true |>).
  assert (W : wp (Prot (fun _ => False) (fun s' => rep v' s' /\ vinv (a_exit c r v)) (fun _ _ => False)) (exit_zombie c) s (fun _ _ => False)).
  { eapply wp_exit_zombie; [done..|]. intros s1 H1 Hv1. split; [done|]. by intros s2 []. }
  unfold wp in W. destruct (exit_zombie c s) as [| | | | |s' k]; try done. destruct W as [[H' Hv'] _].
  exists s', k, v'. split_and!; [done|done|by apply (vinv_frame (a_exit c r v))|done|].
  assert (Hx : exited v (a_exit c r v) c r) by (by apply a_exit_spec). split; apply Hx.
Qed.

(** C10: [exit] closes the files and the current directory of the caller, and then
    makes it a zombie.  The first part may sleep; however other processes change
    the table meanwhile, it ends with all files closed.  The second part, from
    the state [s1] in which it takes [ptable.lock], neither returns nor panics: it
    ends in the scheduler, in a state [s2] in which, compared with [s1], the caller
    is a ZOMBIE at the end of the zombie list, its children belong to init,
    exactly the processes that sleep on its parent, and those that sleep on init if
    init inherits a zombie, have become RUNNABLE, and nothing else has changed of
    pids, parents, channels and states.  The invariant holds and the lock is held
    at that point. *)
Theorem exit_correct v s c r :
  rep v s -> vinv v -> v_pt v = false -> v_own v = false -> v_cur v = Some c ->
  v_init v <> Some c -> v_tbl v !! c = Some r -> state r = RUNNING ->
  exists s0, exit s = (exit_files c ;;; exit_zombie c) s0 /\ rep v s0 /\
    wp (files_prot c) (exit_files c) s0 (fun _ s1 => exists v1 r1,
      exiting c (replicate NOFILE None) None v1 /\ rep v1 s1 /\ v_tbl v1 !! c = Some r1 /\
      exists s2 k v2, exit_zombie c s1 = Swtch s2 k /\ rep v2 s2 /\ vinv v2 /\ v_pt v2 = true /\ exited v1 v2 c r1).
Proof.
  intros H Hv Hpt Hown Hcur Hi Hr Hst.
  destruct (wp_strict myproc s (fun x s0 => x = Some c /\ rep v s0)) as (x & s0 & Em & -> & H0); [eapply wp_myproc; [done|]; by rewrite Hcur|].
  exists s0. split_and!; [|done|].
  - unfold exit. rewrite (run_bind _ _ _ _ _ Em), (run_bind (gets _) _ _ _ _ eq_refl), (rep_init v s0 H0). by rewrite decide_False by congruence.
  - eapply (wp_exit_files (files_prot c) c (fun _ H => H)).
    + intros fs w s1 H1. by exists fs, w.
    + intros fs w s1 s2 H1 H2. by apply H2.
    + exists v. split; [|done]. split_and!; [done..|]. by exists r.
    + by apply (vi_wf v Hv c r).
    + intros s1 (v1 & He & H1). pose proof He as (_ & _ & _ & _ & _ & r1 & Hr1 & _). exists v1, r1. split_and!; [done..|]. by apply exit_zombie_out.
Qed.

(** ** wait *)

Lemma dead_child_spec v c : vinv v ->
  match dead_child c v with
  | Some p => exists r, v_tbl v !! p = Some r /\ state r = ZOMBIE /\ parent r = Some c
  | None => forall i r, v_tbl v !! i = Some r -> parent r = Some c -> state r <> ZOMBIE
  end.
Proof.
  intros Hv. unfold dead_child. destruct (first_in _ _ _) as [p|] eqn:Hp.
  - apply first_in_Some in Hp as (Hi & r & Hr & Hc).
    destruct (vinv_q_state v ZOMBIE p Hv Hi) as (r' & Hr' & Hs & _).
    assert (r' = r) as -> by congruence. exists r. split_and!; [done|done|]. by apply bool_decide_eq_true in Hc.
  - intros i r Hr Hpar Hs. apply (first_in_None _ _ _) with (i := i) (r := r) in Hp; [|..|done].
    + unfold child_of in Hp. by rewrite bool_decide_eq_true_2 in Hp.
    + intros j (rj & Hj & _)%(vinv_q_state v ZOMBIE j Hv). by eexists.
    + pose proof (vinv_home v i r Hv Hr) as Hh. rewrite home_list, Hs in Hh by congruence. done.
Qed.

Lemma has_child_spec v c :
  has_child c v = true <-> exists i r, v_tbl v !! i = Some r /\ parent r = Some c.
Proof.
  unfold has_child. rewrite existsb_exists. split.
  - intros (r & Hi & Hc). apply list_elem_of_In, list_elem_of_lookup in Hi as (i & Hi).
    exists i, r. by apply bool_decide_eq_true in Hc.
  - intros (i & r & Hr & Hc). exists r. split; [|by apply bool_decide_eq_true].
    apply list_elem_of_In, list_elem_of_lookup. eauto.
Qed.

(** C11: [wait].  If the caller has a ZOMBIE child, one such child is reaped:
    its pid is the result, its slot is UNUSED again, no other process has changed
    and the lock is free.  If it has none and has no children at all, or has been killed, the
    result is -1 and nothing changes.  Otherwise it goes to sleep on itself,
    which is the channel that [exit] of a child wakes. *)
Theorem wait_correct v s c rc fuel :
  rep v s -> vinv v -> v_pt v = false -> v_own v = false -> v_cur v = Some c ->
  v_tbl v !! c = Some rc -> state rc = RUNNING ->
  let zombie_child p r := v_tbl v !! p = Some r /\ state r = ZOMBIE /\ parent r = Some c in
  ((exists p r, zombie_child p r) -> exists p r, zombie_child p r /\
     wp quiet (wait (S fuel)) s (fun z s' => z = s32 (pid r) /\ exists v' r', rep v' s' /\ vinv v' /\ v_pt v' = false /\
       v_tbl v' = <[p := r']> (v_tbl v) /\ state r' = UNUSED /\ pid r' = 0 /\ parent r' = None /\
       kstack r' = None /\ killed r' = 0)) /\
  ((forall p r, ~ zombie_child p r) ->
     (forall i r, v_tbl v !! i = Some r -> parent r <> Some c) \/ killed rc <> 0 ->
     wp quiet (wait (S fuel)) s (fun z s' => z = -1 /\ rep v s')) /\
  ((forall p r, ~ zombie_child p r) ->
     (exists i r, v_tbl v !! i = Some r /\ parent r = Some c) -> killed rc = 0 ->
     wp (until_swtch (fun s1 => exists v1 r1, rep v1 s1 /\ v_tbl v1 = <[c := r1]> (v_tbl v) /\
           state r1 = SLEEPING /\ chan_of_proc r1 = ChProc c /\ sleepers v1 = sleepers v ++ [c]))
       (wait (S fuel)) s (fun _ _ => False)).
Proof.
  intros H Hv Hpt Hown Hcur Hc Hst zc. pose proof (dead_child_spec v c Hv) as Hd.
  pose proof (has_child_spec v c) as Hh. split_and!.
  - intros (p0 & r0 & Hz0). destruct (dead_child c v) as [p|] eqn:Hp;
      [|exfalso; destruct Hz0 as (? & ? & ?); by eapply (Hd p0 r0)].
    destruct Hd as (r & Hr & Hs & Hpar). exists p, r. split; [done|].
    eapply (wp_wait quiet (fun _ Hx => Hx)); [done..| | |]; rewrite Hp; [|done|done].
    intros p' r' s' [= <-] Hr' Hs' H' Hv'. assert (r' = r) as -> by congruence. split; [done|].
    by eexists _, (reaped r).
  - intros Hnz Hno. assert (Hp : dead_child c v = None).
    { destruct (dead_child c v) as [p|]; [|done]. destruct Hd as (r & Hr). by destruct (Hnz p r). }
    assert (Hno' : has_child c v = false \/ killed rc <> 0).
    { destruct Hno as [Hno|]; [left|by right]. apply not_true_iff_false. rewrite Hh. naive_solver. }
    eapply (wp_wait quiet (fun _ Hx => Hx)); [done..| | |]; rewrite Hp; [done|auto|].
    intros _ Hhc Hk. exfalso. destruct Hno' as [Hno'|]; [congruence|done].
  - intros Hnz Hhas Hk. assert (Hp : dead_child c v = None).
    { destruct (dead_child c v) as [p|]; [|done]. destruct Hd as (r & Hr). by destruct (Hnz p r). }
    apply Hh in Hhas. eapply (wp_wait (until_swtch _) (fun _ Hx => Hx)); [done..| | |]; rewrite Hp; [done| |].
    + intros _ [Hx|Hx]; congruence.
    + intros _ _ _ s1 H1. split; [|by intros s2 []]. eexists _, (sleep_rec (ChProc c) (v_ticks v) rc).
      split; [exact H1|]. assert (Hs1 : state (sleep_rec (ChProc c) (v_ticks v) rc) = SLEEPING /\
        chan_of_proc (sleep_rec (ChProc c) (v_ticks v) rc) = ChProc c).
      { unfold sleep_rec, account. rec_simpl. unfold charge.
        destruct (_ <=? 0); try destruct (0 <? _); done. }
      destruct Hs1 as [Hs1 Hc1]. split_and!; [done|done|done|].
      assert (Hhm : home (sleep_rec (ChProc c) (v_ticks v) rc) = QList (state_num SLEEPING))
        by (rewrite home_list, Hs1; congruence).
      unfold sleepers. rewrite <- Hhm. apply (a_place_q v c rc); [done|done|].
      by rewrite Hhm, home_list, Hst by congruence.
Qed.

(** ** The first process *)

(** C28: [userinit], on a table that the loader has zeroed, makes the first
    process in slot 0, RUNNABLE at the top priority, registers it as init, sets
    the first promotion, and establishes the invariant of the table.  The
    allocator must have a page for its stack. *)
Theorem userinit_correct s :
  (forall e, sv_ret sv_kalloc e (fun k => k <> None)) ->
  zeroed s -> holds (cpu s) false false -> initproc s = None ->
  let keeps s1 s2 := forall v, rep v s1 -> rep v s2 in
  wp (Prot (fun x => sv_panics x \/ x = "userinit: out of memory?"%string) (fun s1 => exists v, rep v s1) keeps)
    userinit s (fun _ s' => exists v r, rep v s' /\ vinv v /\ v_pt v = false /\ v_init v = Some 0%nat /\
      v_tbl v = <[0%nat := r]> (replicate NPROC zero_proc) /\ first_proc r (nextpid s) /\
      v_q v (QReady MAXPRIO) = [0%nat] /\ unused v = seq 1 (NPROC - 1) /\
      v_prom v = u32 (ticks s + TICKS_TO_PROMOTE)).
Proof.
  intros Hk Hz Hh Hi keeps. eapply wp_userinit; [by left|by right| | |done|done|done|done|].
  - intros v s1 H1. by exists v.
  - intros v s1 s2 H1 H2. by apply H2.
  - intros r s' Hr H' Hv'. exists (boot_view r s), r.
    assert (Hq : forall q, v_q (boot_view r s) q =
      if decide (q = QReady MAXPRIO) then [0%nat]
      else if decide (q = QList (state_num UNUSED)) then seq 1 (NPROC - 1) else []).
    { destruct Hr as (Hs & _ & _ & Hp & _). intros q.
      assert (Hhr : home r = QReady MAXPRIO) by (by rewrite home_ready, Hp, Nat2Z.id).
      unfold boot_view, a_place, a_append, a_unlink, a_bump, free_view. rec_simpl.
      rewrite Hhr. cbn [v_q]. destruct (decide (q = QReady MAXPRIO)) as [->|]; [done|].
      destruct (decide (q = QList (state_num UNUSED))) as [->|Hn]; [done|].
      change (list_remove_all 0%nat (if decide (q = QList (state_num UNUSED)) then seq 0 NPROC else []) = []).
      by rewrite decide_False. }
    split_and!; try done; unfold unused; by rewrite Hq.
Qed.

End life.

(** ** The theorems on concrete kernels *)

Lemma fork_witness :
  wp quiet fork demo_kst (fun z s' => exists v', rep v' s' /\ vinv v' /\
    exists p r r', v_tbl demo_view !! p = Some r /\ state r = UNUSED /\ z = s32 (pid r') /\
      forked (fun k => k <> None) demo_view v' 0%nat (with_cwd (demo_proc RUNNING 1 None 6 ChNull)) p r r').
Proof.
  assert (HR : forall e : unit, sv_ret (ret (Some 8192)) e (fun k => k <> None)) by done.
  assert (HR' : forall e : unit, sv_ret (ret (Some 12288)) e (fun k => k <> None)) by done.
  eapply wp_mono; [exact (fork_correct demo_view demo_kst 0%nat (with_cwd (demo_proc RUNNING 1 None 6 ChNull)) 1
    (fun k => k <> None) (fun k => k <> None) HR HR' demo_rep vinv_demo eq_refl eq_refl eq_refl eq_refl eq_refl)|].
  intros z s' (v' & H' & Hv' & _ & [Hx|(_ & _ & [Hu|[HN|HN]])]).
  - by exists v'.
  - exfalso. vm_compute in Hu. discriminate Hu.
  - by destruct HN.
  - by destruct HN.
Defined.

Lemma exit_witness : exists s0, exit demo_exit_kst = (exit_files 1 ;;; exit_zombie 1) s0 /\ rep demo_exit_view s0.
Proof.
  destruct (exit_correct demo_exit_view demo_exit_kst 1%nat (demo_proc RUNNING 2 (Some 0%nat) 6 ChNull)
    demo_exit_rep vinv_demo_exit) as (s0 & E & H & _); [reflexivity..|discriminate|reflexivity|reflexivity|].
  exists s0. split; [exact E|exact H].
Defined.

Lemma wait_witness :
  exists p r, (v_tbl demo_view !! p = Some r /\ state r = ZOMBIE /\ parent r = Some 0%nat) /\
    wp quiet (wait 1) demo_kst (fun z s' => z = s32 (pid r) /\ exists v' r', rep v' s' /\ vinv v' /\ v_pt v' = false /\
      v_tbl v' = <[p := r']> (v_tbl demo_view) /\ state r' = UNUSED /\ pid r' = 0 /\ parent r' = None /\
      kstack r' = None /\ killed r' = 0).
Proof.
  destruct (wait_correct demo_view demo_kst 0%nat (with_cwd (demo_proc RUNNING 1 None 6 ChNull)) 0 demo_rep
    vinv_demo eq_refl eq_refl eq_refl eq_refl eq_refl) as [Hz _]. apply Hz.
  exists 2%nat, (demo_proc ZOMBIE 3 (Some 0%nat) 6 ChNull). split_and!; reflexivity.
Defined.

(** A table as the loader leaves it. *)
Definition loaded_kst : kst Spin.mach unit :=
  KSt (replicate NPROC zero_proc) (replicate statecount (Ptrs None None))
    (replicate (S MAXPRIO) (Ptrs None None)) 0 1 None 0 (demo_mach None) tt.

Lemma userinit_witness :
  wp (Prot (fun x => sv_panics x \/ x = "userinit: out of memory?"%string) (fun s1 => exists v, rep v s1)
        (fun s1 s2 => forall v, rep v s1 -> rep v s2))
    userinit loaded_kst (fun _ s' => exists v r, rep v s' /\ vinv v /\ v_pt v = false /\ v_init v = Some 0%nat /\
      v_tbl v = <[0%nat := r]> (replicate NPROC zero_proc) /\ first_proc r 1 /\
      v_q v (QReady MAXPRIO) = [0%nat] /\ unused v = seq 1 (NPROC - 1) /\
      v_prom v = u32 (0 + TICKS_TO_PROMOTE)).
Proof.
  apply (userinit_correct loaded_kst); [done|by split|apply demo_mach_holds|reflexivity].
Defined.
