(* ===== verification/ProcSleep.v ===== *)
(** * No wakeup is lost

    What a process that gives up the processor in [sleep] can count on: its lock
    is released only while [ptable.lock] is held, so that no [wakeup] of another
    CPU comes before it is SLEEPING; and it stays SLEEPING on its channel,
    whatever other processes do, until a [wakeup] on that channel. *)

From S2P Require Import Prelude Params Spinlock Str ProcDefs StateList Proc ProcInv.
From S2P Require Import ProcWake ProcOps ProcFork ProcExit ProcWait ProcSched ProcBoot Demo ProcProps ProcLife.

Section stable.
Context {L E : Type} `{CL : CpuLock L} `{SV : ProcServices E}.
Abbreviation K := (kst L E).
Implicit Types (v : view) (s : K).

(** [p] sleeps on [ch]. *)
Definition asleep (p : nat) (ch : chan) s : Prop :=
  exists r, procs s !! p = Some r /\ state r = SLEEPING /\ chan_of_proc r = ch.
Definition v_asleep (p : nat) (ch : chan) v : Prop :=
  exists r, v_tbl v !! p = Some r /\ state r = SLEEPING /\ chan_of_proc r = ch.

Lemma asleep_view p ch v s : rep v s -> asleep p ch s <-> v_asleep p ch v.
Proof.
  intros H. unfold asleep, v_asleep. rewrite <- (rep_tbl v s H). setoid_rewrite list_lookup_fmap. split.
  - intros (r & -> & H1 & H2). exists (unlinked r). by destruct r.
  - intros (r & Hr & H1 & H2). destruct (procs s !! p) as [r0|]; [|done]. injection Hr as <-. exists r0. by destruct r0.
Qed.

(** The table is free for any operation; process [q] runs and holds no lock. *)
Definition idle s : Prop := exists v, rep v s /\ vinv v /\ v_pt v = false.
Definition running (q : nat) s v r : Prop := rep v s /\ vinv v /\ v_pt v = false /\ v_own v = false /\
  v_cur v = Some q /\ v_tbl v !! q = Some r /\ state r = RUNNING.

(** What the rest of the kernel does while [p] sleeps on [ch], up to a return or a
    switch: every operation on the process table, by any process.  An [exit] wakes
    the channels of the parent and of init; the last two are the accesses to a
    process's own record and the changes outside the table (locks, the current
    process, the clock, the other parts of the kernel). *)
Inductive other (p : nat) (ch : chan) : K -> K -> Prop :=
| other_wakeup ch' s s' : idle s -> ch' <> ch -> wakeup ch' s = Ret tt s' -> other p ch s s'
| other_kill n z s s' : idle s -> (forall r, procs s !! p = Some r -> pid r <> u32 n) -> kill n s = Ret z s' -> other p ch s s'
| other_setpriority n prio z s s' : idle s -> setpriority n prio s = Ret z s' -> other p ch s s'
| other_fork q v r w z s s' : running q s v r -> cwd r = Some w -> fork s = Ret z s' -> other p ch s s'
| other_wait q v r fuel z s s' : running q s v r -> wait (S fuel) s = Ret z s' -> other p ch s s'
| other_wait_sleep q v r fuel s s' k : running q s v r -> wait (S fuel) s = Swtch s' k -> other p ch s s'
| other_yield q v r s s' k : running q s v r -> yield s = Swtch s' k -> other p ch s s'
| other_sleep q v r ch' lk s s' k : rep v s -> vinv v -> lk_pre lk v -> v_cur v = Some q -> v_tbl v !! q = Some r ->
    state r = RUNNING -> sleep ch' lk s = Swtch s' k -> other p ch s s'
| other_exit q v r s s' k : exiting q (replicate NOFILE None) None v -> rep v s -> v_tbl v !! q = Some r ->
    chan_of (parent r) <> ch -> chan_of (v_init v) <> ch -> exit_zombie q s = Swtch s' k -> other p ch s s'
| other_scheduler s s' k : idle s -> scheduler_round s = Swtch s' k -> other p ch s s'
| other_scheduler_idle b s s' : idle s -> scheduler_round s = Ret b s' -> other p ch s s'
| other_record q f s s' : q <> p -> put_proc q f s = Ret tt s' -> other p ch s s'
| other_rest l t e s : other p ch s (s <| cpu := l |> <| ticks := t |> <| env := e |>).

(** A table in which only another record has changed. *)
Lemma asleep_insert p ch q r r' v v' : v_asleep p ch v -> v_tbl v !! q = Some r -> state r <> SLEEPING ->
  v_tbl v' = <[q := r']> (v_tbl v) -> v_asleep p ch v'.
Proof.
  intros (rp & Hp & H1 & H2) Hq Hs E'. exists rp. rewrite E', list_lookup_insert_ne; [done|]. intros ->. congruence.
Qed.

Lemma asleep_wakeup p ch ch' v : ch' <> ch -> v_asleep p ch v -> v_asleep p ch (a_wakeup ch' v).
Proof.
  intros Hne (r & Hr & H1 & H2). exists r. rewrite a_wakeup_lookup, Hr. cbn [fmap option_fmap option_map]. split_and!; [|done|done].
  f_equal. unfold wake, wakeable. rewrite (bool_decide_eq_false_2 (chan_of_proc r = ch')) by congruence. by rewrite andb_false_r.
Qed.

Lemma asleep_kill p ch n v : vinv v -> (forall r, v_tbl v !! p = Some r -> pid r <> u32 n) ->
  v_asleep p ch v -> v_asleep p ch (a_kill n v).2.
Proof.
  intros Hv Hn H. pose proof (search_spec v live_states n Hv) as Hs. unfold a_kill. destruct (search live_states n v) as [q|]; [|done].
  destruct Hs as (r & Hr & _ & Hq). rewrite Hr. destruct H as (rp & Hp & H1 & H2). exists rp.
  assert (Hne : q <> p) by (intros ->; by apply (Hn r)). split_and!; [|done|done].
  case_decide; (etrans; [by apply list_lookup_insert_ne|done]).
Qed.

Lemma asleep_setpriority p ch n prio v : v_asleep p ch v -> v_asleep p ch (a_setpriority n prio v).2.
Proof.
  intros H. unfold a_setpriority. destruct (_ || _); [done|]. destruct (search prio_states n v) as [q|]; [|done].
  destruct (v_tbl v !! q) as [r|] eqn:Hr; [|done]. cbn [snd]. unfold a_setprio. destruct (priority r =? prio); [done|].
  destruct H as (rp & Hp & H1 & H2). assert (Hlt := lookup_lt_Some _ _ _ Hr).
  assert (G : v_asleep p ch (a_upd q (prio_rec prio r) v)).
  { destruct (decide (q = p)) as [->|Hne].
    - assert (r = rp) as -> by congruence. exists (prio_rec prio rp). split_and!; [by apply list_lookup_insert_eq|done|done].
    - exists rp. split_and!; [|done|done]. etrans; [by apply list_lookup_insert_ne|done]. }
  by case_decide.
Qed.

Lemma asleep_due p ch v : v_asleep p ch v -> v_asleep p ch (a_due v).
Proof.
  intros (r & Hr & H1 & H2). unfold a_due. destruct (_ <=? _); [|by exists r]. exists (promote_rec r). unfold a_promote. rec_simpl.
  rewrite list_lookup_fmap, Hr. split; [done|]. unfold promote_rec, promote. destruct (promoted r); [|done]. by destruct (_ <? _).
Qed.

(** The operations keep [p] asleep, up to their return or their first switch. *)
Definition guarding (G : K -> Prop) : prot K := Prot sv_panics G (fun _ _ => False).
Definition keeps (p : nat) (ch : chan) {A} (m : M K A) s : Prop :=
  wp (guarding (asleep p ch)) m s (fun _ s' => asleep p ch s').

Lemma keeps_ret p ch {A} (m : M K A) s a s' : keeps p ch m s -> m s = Ret a s' -> asleep p ch s'.
Proof. unfold keeps, wp. intros W Em. by rewrite Em in W. Qed.
Lemma keeps_swtch p ch {A} (m : M K A) s s' k : keeps p ch m s -> m s = Swtch s' k -> asleep p ch s'.
Proof. unfold keeps, wp. intros W Em. rewrite Em in W. by destruct W. Qed.

Section operations.
Context (p : nat) (ch : chan) (v : view) (s : K) (H : rep v s) (Hv : vinv v) (Ha : asleep p ch s).

Lemma start_asleep : v_asleep p ch v.
Proof using H Ha. by apply (asleep_view p ch v s H). Qed.

Lemma keeps_wakeup ch' : v_pt v = false -> ch' <> ch -> keeps p ch (wakeup ch') s.
Proof using H Hv Ha.
  intros Hpt Hne. eapply wp_wakeup; [done|done|done|]. intros s' H' _. apply (asleep_view _ _ _ _ H'). by apply asleep_wakeup, start_asleep.
Qed.
Lemma keeps_kill n : v_pt v = false -> (forall r, procs s !! p = Some r -> pid r <> u32 n) -> keeps p ch (kill n) s.
Proof using H Hv Ha.
  intros Hpt Hn. eapply wp_kill; [done|done|done|]. intros s' H' _. apply (asleep_view _ _ _ _ H'). apply asleep_kill; [done| |apply start_asleep].
  intros r Hr. destruct (rep_lookup v s p r H Hr) as [x Hx]. by apply (Hn _ Hx).
Qed.
Lemma keeps_setpriority n prio : v_pt v = false -> keeps p ch (setpriority n prio) s.
Proof using H Hv Ha.
  intros Hpt. eapply wp_setpriority; [done|done|done|]. intros s' H' _. apply (asleep_view _ _ _ _ H'). apply asleep_setpriority, start_asleep.
Qed.
Lemma keeps_scheduler : v_pt v = false -> keeps p ch scheduler_round s.
Proof using H Hv Ha.
  intros Hpt. assert (Hd : v_asleep p ch (a_due v)) by apply asleep_due, start_asleep. eapply (wp_scheduler_round (guarding _) (fun _ Hx => Hx)); [done|done|done|].
  destruct (hd_error (run_order (a_due v))) as [q|] eqn:Hq.
  - destruct (run_order_hd (a_due v) q (vinv_due v s H Hv) Hq) as (r & _ & Hr & Hst & _). exists r. split; [done|].
    intros s1 H1 _. split; [|by intros s2 []]. apply (asleep_view _ _ _ _ H1). eapply asleep_insert; [exact Hd|exact Hr|congruence|done].
  - intros s' H' _. by apply (asleep_view _ _ _ _ H').
Qed.

Context (q : nat) (r : proc) (Hcur : v_cur v = Some q) (Hr : v_tbl v !! q = Some r) (Hst : state r = RUNNING).

Lemma keeps_fork w : v_pt v = false -> cwd r = Some w -> keeps p ch fork s.
Proof using H Hv Ha Hcur Hr Hst.
  intros Hpt Hw. eapply (wp_fork (guarding _) (fun _ Hx => Hx) v s q r w (fun _ => True) (fun _ => True)); [intros e; apply sv_kalloc_nb|intros e; apply sv_copyuvm_nb|done..|by right; right|done| |].
  - intros _ s' H'. apply (asleep_view _ _ _ _ H'), start_asleep.
  - intros i l ri _ Hi Hsi n. split_and!; [intros s' v' _ H' _|intros ks s' v' _ H' _|intros ks d nm s' v' _ _ H' _]; apply (asleep_view _ _ _ _ H');
      (eapply (asleep_insert p ch i ri); [apply start_asleep|exact Hi|congruence|done]).
Qed.
Lemma keeps_sleep ch' lk : lk_pre lk v -> keeps p ch (sleep ch' lk) s.
Proof using H Hv Ha Hcur Hr Hst.
  intros Hlk. eapply wp_sleep; [done..|]. intros s1 H1. split; [|by intros s2 []]. apply (asleep_view _ _ _ _ H1).
  eapply (asleep_insert p ch q r); [apply start_asleep|exact Hr|congruence|done].
Qed.
Lemma keeps_yield : v_pt v = false -> v_own v = false -> keeps p ch yield s.
Proof using H Hv Ha Hcur Hr Hst.
  intros Hpt Hown. eapply wp_yield; [done..|]. intros s1 H1. split; [|by intros s2 []]. apply (asleep_view _ _ _ _ H1).
  eapply (asleep_insert p ch q r); [apply start_asleep|exact Hr|congruence|done].
Qed.
Lemma keeps_wait fuel : v_pt v = false -> v_own v = false -> keeps p ch (wait (S fuel)) s.
Proof using H Hv Ha Hcur Hr Hst.
  intros Hpt Hown. eapply (wp_wait (guarding _) (fun _ Hx => Hx)); [done..| | |].
  - intros i ri s' _ Hi Hsi H' _. apply (asleep_view _ _ _ _ H'). eapply (asleep_insert p ch i ri); [apply start_asleep|exact Hi|congruence|done].
  - intros _ _ s' H'. apply (asleep_view _ _ _ _ H'), start_asleep.
  - intros _ _ _ s1 H1. split; [|by intros s2 []]. apply (asleep_view _ _ _ _ H1).
    eapply (asleep_insert p ch q r); [apply start_asleep|exact Hr|congruence|done].
Qed.
Lemma keeps_exit s' k : exiting q (replicate NOFILE None) None v -> chan_of (parent r) <> ch -> chan_of (v_init v) <> ch ->
  exit_zombie q s = Swtch s' k -> asleep p ch s'.
Proof using H Ha Hr Hst.
  intros He Hpa Hin Em. destruct (exit_zombie_out v s q r He H Hr) as (s2 & k2 & v2 & E2 & H2 & _ & _ & X). rewrite Em in E2. injection E2 as <- _.
  apply (asleep_view _ _ _ _ H2). destruct start_asleep as (rp & Hp & H3 & H4). assert (Hne : p <> q) by (intros ->; congruence).
  destruct (ex_others _ _ _ _ X p rp Hne Hp) as (rp' & Hp' & _ & Hc & _ & Hs). exists rp'. split_and!; [done| |congruence].
  rewrite Hs. unfold exit_wakes. rewrite (bool_decide_eq_false_2 (chan_of_proc rp = chan_of (parent r))) by congruence.
  rewrite (bool_decide_eq_false_2 (chan_of_proc rp = chan_of (v_init v))) by congruence. by rewrite !andb_false_r.
Qed.
End operations.

Lemma other_asleep p ch s s' : other p ch s s' -> asleep p ch s -> asleep p ch s'.
Proof.
  intros Ho Ha. destruct Ho as [ch' s s' (v & H & Hv & Hpt) Hne Em|n z s s' (v & H & Hv & Hpt) Hn Em|n prio z s s' (v & H & Hv & Hpt) Em|
    q v r w z s s' (H & Hv & Hpt & Hown & Hcur & Hr & Hst) Hw Em|q v r fuel z s s' (H & Hv & Hpt & Hown & Hcur & Hr & Hst) Em|
    q v r fuel s s' k (H & Hv & Hpt & Hown & Hcur & Hr & Hst) Em|q v r s s' k (H & Hv & Hpt & Hown & Hcur & Hr & Hst) Em|
    q v r ch' lk s s' k H Hv Hlk Hcur Hr Hst Em|q v r s s' k He H Hr Hpa Hin Em|s s' k (v & H & Hv & Hpt) Em|b s s' (v & H & Hv & Hpt) Em|
    q f s s' Hne Em|l t e s].
  - eapply keeps_ret; [by eapply (keeps_wakeup p ch v)|done].
  - eapply keeps_ret; [by eapply (keeps_kill p ch v)|done].
  - eapply keeps_ret; [by eapply (keeps_setpriority p ch v)|done].
  - eapply keeps_ret; [by eapply (keeps_fork p ch v)|done].
  - eapply keeps_ret; [by eapply (keeps_wait p ch v)|done].
  - eapply keeps_swtch; [by eapply (keeps_wait p ch v)|done].
  - eapply keeps_swtch; [by eapply (keeps_yield p ch v)|done].
  - eapply keeps_swtch; [by eapply (keeps_sleep p ch v)|done].
  - pose proof He as (_ & _ & _ & _ & _ & r0 & Hr0 & Hst & _). assert (r0 = r) as -> by congruence. by eapply (keeps_exit p ch v).
  - eapply keeps_swtch; [by eapply (keeps_scheduler p ch v)|done].
  - eapply keeps_ret; [by eapply (keeps_scheduler p ch v)|done].
  - destruct Ha as (r & Hr & H1 & H2). unfold put_proc in Em. destruct (procs s !! q); [|done]. injection Em as <-. exists r.
    split_and!; [|done|done]. etrans; [by apply list_lookup_insert_ne|done].
  - exact Ha.
Qed.

Lemma others_asleep p ch s s' : rtc (other p ch) s s' -> asleep p ch s -> asleep p ch s'.
Proof. induction 1; eauto using other_asleep. Qed.

(** A process that sleeps on the channel is woken and queued. *)
Lemma wakeup_asleep p ch v s : rep v s -> vinv v -> v_pt v = false -> asleep p ch s ->
  exists s' v' r', wakeup ch s = Ret tt s' /\ rep v' s' /\ vinv v' /\ v_pt v' = false /\
    v_tbl v' !! p = Some r' /\ state r' = RUNNABLE /\ p ∈ v_q v' (QReady (Z.to_nat (priority r'))).
Proof.
  intros H Hv Hpt (r & Hr & H1 & H2)%(asleep_view p ch v s H).
  destruct (wp_strict (wakeup ch) s (fun _ s' => rep (a_wakeup ch v) s' /\ vinv (a_wakeup ch v))) as ([] & s' & Em & H' & Hv'); [by eapply wp_wakeup|].
  assert (Hr' : v_tbl (a_wakeup ch v) !! p = Some (wake ch r)) by (by rewrite a_wakeup_lookup, Hr). assert (Hs := wake_hit ch r H1 H2).
  exists s', (a_wakeup ch v), (wake ch r). split_and!; try done. rewrite <- home_ready by done. by apply vinv_home.
Qed.
End stable.

(** ** The theorem *)

Section lost.
Context {L E : Type} `{CL : CpuLock L} `{SV : ProcServices E}.
#[local] Existing Instance watched.

(** C12: no wakeup is lost.  [sleep(ch, lk)] gives up the processor with
    [ptable.lock] held and [lk] free, and it has never released [lk] while
    [ptable.lock] was free (the flag of [watched]): a [wakeup] by who holds [lk]
    first waits for [ptable.lock], and so comes after the switch.  The process is
    then SLEEPING on [ch], and stays so through any sequence of operations of
    other processes on the table that does not contain a wakeup on [ch] or a
    [kill] of it.  Whenever after that a [wakeup] on [ch] comes, with the table
    free, the process becomes RUNNABLE and stands in the ready queue of its
    priority. *)
Theorem sleep_then_wakeup v (s : kst (L * bool) E) p r ch lk :
  rep v s -> vinv v -> lk_pre lk v -> v_cur v = Some p -> v_tbl v !! p = Some r -> state r = RUNNING ->
  exists s1 k v1, sleep ch lk s = Swtch s1 k /\ (cpu s1).2 = false /\ rep v1 s1 /\ vinv v1 /\ v_pt v1 = true /\ v_own v1 = false /\
    forall s2, rtc (other p ch) s1 s2 -> asleep p ch s2 /\
      (idle s2 -> exists s3 v3 r3, wakeup ch s2 = Ret tt s3 /\ rep v3 s3 /\ vinv v3 /\ v_pt v3 = false /\
        v_tbl v3 !! p = Some r3 /\ state r3 = RUNNABLE /\ p ∈ v_q v3 (QReady (Z.to_nat (priority r3)))).
Proof.
  intros H Hv Hlk Hcur Hr Hst. set (v1 := (a_sleep ch p r v) <| v_pt := true |> <| v_own := false |>).
  assert (W : wp (Prot (fun _ => False) (rep v1) (fun _ _ => False)) (sleep ch lk) s (fun _ _ => False)).
  { eapply wp_sleep; [done..|]. intros s1 H1. split; [done|]. by intros s2 []. }
  unfold wp in W. destruct (sleep ch lk s) as [| | | | |s1 k]; try done. destruct W as [H1 _]. exists s1, k, v1.
  assert (Ha : asleep p ch s1).
  { apply (asleep_view _ _ _ _ H1). exists (sleep_rec ch (v_ticks v) r). split; [apply list_lookup_insert_eq; by eapply lookup_lt_Some|].
    unfold sleep_rec, account. rec_simpl. unfold charge. destruct (_ <=? 0); [destruct (0 <? _)|]; done. }
  split_and!; [done|exact (proj2 (rep_holds _ _ H1))|done| |done|done|].
  - apply (vinv_frame (a_sleep ch p r v)); [done..|]. by apply vinv_sleep.
  - intros s2 Ho. pose proof (others_asleep p ch s1 s2 Ho Ha) as H2. split; [done|]. intros (v2 & Hr2 & Hv2 & Hpt2). by apply (wakeup_asleep p ch v2).
Qed.
End lost.

(** ** An instance

    Init holds a lock and sleeps; another CPU, which runs no process, wakes it. *)

#[local] Existing Instance watched.

Definition mach_own : Spin.mach :=
  Spin.Mach [Spin.Cpu 0 1 1 (Some 0%nat)] 0 0 [Spin.Spinlock 0 "ptable" None; Spin.Spinlock 1 "own" (Some 0%nat)].
Lemma mach_own_holds : holds (mach_own, false) true false.
Proof.
  split; [|done]. split; [simpl; lia|]. exists 0%nat. split; try done.
  - by eexists.
  - apply NoDup_singleton.
  - intros i Hi. apply list_elem_of_singleton in Hi as ->. by eexists.
  - intros i l Hl Hi. destruct i as [|[|i]]; simpl in Hl; simplify_eq; [done|]. exfalso. apply Hi. by left.
Qed.

Definition own_view : view := demo_view <| v_own := true |>.
Definition own_kst : kst (Spin.mach * bool) unit := build own_view (mach_own, false) tt.
Lemma vinv_own : vinv own_view.
Proof. apply (vinv_frame demo_view); [done..|exact vinv_demo]. Qed.
Lemma own_rep : rep own_view own_kst.
Proof.
  apply build_rep; [exact vinv_own| |exact mach_own_holds|reflexivity]. apply (bool_decide_unpack _). vm_compute. exact I.
Qed.

Lemma sleep_then_wakeup_witness : exists s1 k s2 s3 v3 r3, sleep (ChAddr 9) LkOwn own_kst = Swtch s1 k /\
  rtc (other 0 (ChAddr 9)) s1 s2 /\ wakeup (ChAddr 9) s2 = Ret tt s3 /\ rep v3 s3 /\ v_tbl v3 !! 0%nat = Some r3 /\ state r3 = RUNNABLE.
Proof.
  destruct (sleep_then_wakeup own_view own_kst 0%nat (with_cwd (demo_proc RUNNING 1 None 6 ChNull)) (ChAddr 9) LkOwn own_rep vinv_own
    (conj eq_refl eq_refl) eq_refl eq_refl eq_refl) as (s1 & k & v1 & E1 & _ & H1 & Hv1 & _ & _ & Hl).
  set (s2 := s1 <| cpu := (demo_mach None, false) |> <| ticks := ticks s1 |> <| env := env s1 |>).
  assert (Ho : rtc (other 0 (ChAddr 9)) s1 s2) by apply rtc_once, other_rest.
  destruct (Hl s2 Ho) as [_ Hw]. destruct Hw as (s3 & v3 & r3 & E3 & H3 & _ & _ & Hr3 & Hs3 & _).
  - exists (v1 <| v_own := false |> <| v_pt := false |> <| v_cur := None |>). split; [|split; [by apply (vinv_frame v1)|reflexivity]].
    pose proof (rep_cpu v1 s1 (demo_mach None, false) false false None H1 (conj (demo_mach_holds None) eq_refl) eq_refl) as H2. by destruct s1.
  - exists s1, k, s2, s3, v3, r3. by split_and!.
Defined.
