(* ===== verification/ProcEquiv.v ===== *)
(** * List and table variants of proc.c, starvation, the race in allocproc

    proc.c has two versions of most operations: with state lists (CS333_P3) and
    with scans of the process table.  This file compares them, and holds the
    theorems about repeated promotion, [getprocs] and the unlocked read in
    [allocproc]. *)

From S2P Require Import Prelude Params Spinlock Str ProcDefs StateList Proc ProcInv.
From S2P Require Import ProcWake ProcOps ProcFork ProcExit ProcWait ProcSched ProcBoot Demo ProcTable ProcProps.

Section equiv.
Context {L E : Type} `{CL : CpuLock L} `{SV : ProcServices E}.
Abbreviation K := (kst L E).
Implicit Types (v : view) (s : K).

(** The process records, without their links. *)
Definition table (s : K) : list proc := unlinked <$> procs s.

(** The list version of [wakeup1] and the version that scans the table
    change the process records in the same way, on every state that satisfies
    the invariant; neither can fail. *)
Theorem wakeup1_equiv v s ch :
  rep v s -> vinv v ->
  exists s1 s2, wakeup1 ch s = Ret tt s1 /\ wakeup1_P0 ch s = Ret tt s2 /\ table s1 = table s2.
Proof.
  intros H Hv.
  destruct (wp_strict (wakeup1 ch) s (fun _ s' => rep (a_wakeup ch v) s')) as ([] & s1 & E1 & H1);
    [by eapply wp_wakeup1|].
  destruct (wp_strict (wakeup1_P0 ch) s (fun _ s' => rep (v <| v_tbl ::= fmap (wake ch) |>) s'))
    as ([] & s2 & E2 & H2); [by eapply wp_wakeup1_P0|].
  exists s1, s2. split_and!; [done|done|]. unfold table. by rewrite (rep_tbl _ _ H1), (rep_tbl _ _ H2).
Qed.

(** The same for the loop of [exit] that passes the children to init. *)
Theorem exit_reparent_equiv v s c :
  rep v s -> vinv v -> v_init v <> Some c ->
  exists s1 s2, exit_reparent c s = Ret tt s1 /\ exit_reparent_P0 c s = Ret tt s2 /\ table s1 = table s2.
Proof.
  intros H Hv Hi.
  destruct (wp_strict (exit_reparent c) s (fun _ s' => rep (a_orphans c v) s')) as ([] & s1 & E1 & H1);
    [by eapply wp_exit_reparent|].
  destruct (wp_strict (exit_reparent_P0 c) s (fun _ s' => rep (v <| v_tbl := v_tbl (a_orphans c v) |>) s'))
    as ([] & s2 & E2 & H2); [by eapply wp_exit_reparent_P0|].
  exists s1, s2. split_and!; [done|done|]. unfold table. by rewrite (rep_tbl _ _ H1), (rep_tbl _ _ H2).
Qed.

Lemma slots_search v s n : rep v s ->
  match first_in (v_tbl v) (has_pid n) slots with
  | Some p => exists r, v_tbl v !! p = Some r /\ pid r = u32 n
  | None => forall i r, v_tbl v !! i = Some r -> pid r <> u32 n
  end.
Proof.
  intros H. destruct (first_in _ _ _) as [p|] eqn:Hp.
  - apply first_in_Some in Hp as (_ & r & Hr & Hn). exists r. split; [done|]. by apply Z.eqb_eq.
  - intros i r Hr Hn. apply (first_in_None _ _ _) with (i := i) (r := r) in Hp; [|..|done].
    + unfold has_pid in Hp. by rewrite Z.eqb_neq in Hp.
    + intros j Hj%elem_of_seq. apply lookup_lt_is_Some_2. rewrite (rep_length v s H). lia.
    + apply elem_of_seq. apply lookup_lt_Some in Hr. rewrite (rep_length v s H) in Hr. lia.
Qed.

(** The two versions of [kill] agree, in their result and in the process
    records, when no two processes in use share a pid and no free slot carries
    the pid in question.  (Free slots have pid 0 or, after a failed [fork], a
    used-up pid: there the table version answers 0 and the list version -1.) *)
Theorem kill_equiv v s n :
  rep v s -> vinv v -> v_pt v = false -> unique_pids v ->
  (forall i r, v_tbl v !! i = Some r -> state r = UNUSED -> pid r <> u32 n) ->
  exists z s1 s2, kill n s = Ret z s1 /\ kill_P0 n s = Ret z s2 /\ table s1 = table s2.
Proof.
  intros H Hv Hpt Hu Hfree.
  destruct (wp_strict (kill n) s (fun z s' => z = (a_kill n v).1 /\ rep (a_kill n v).2 s'))
    as (z & s1 & E1 & Hz & H1); [by eapply wp_kill|].
  pose proof (search_spec v live_states n Hv) as Hs. pose proof (slots_search v s n H) as Ht.
  unfold a_kill in Hz, H1. destruct (search live_states n v) as [p|].
  - destruct Hs as (r & Hr & Hst & Hn). rewrite live_states_elem in Hst. rewrite Hr in Hz, H1.
    destruct (wp_strict (kill_P0 n) s (fun z s' => z = 0 /\ rep (a_upd p (kill_rec r) v) s'))
      as (z2 & s2 & E2 & Hz2 & H2).
    { eapply wp_kill_P0; [done|done|]. destruct (first_in _ _ _) as [q|]; [|by destruct (Ht p r)].
      destruct Ht as (rq & Hrq & Hnq). intros r' s' Hr' H'. assert (r' = rq) as -> by congruence.
      assert (q = p) as ->.
      { apply (Hu q p rq r); try done; [|congruence]. intros Hx. by apply (Hfree q rq). }
      assert (rq = r) as -> by congruence. done. }
    exists 0, s1, s2. subst. split_and!; [done|done|]. unfold table.
    rewrite (rep_tbl _ _ H1), (rep_tbl _ _ H2). cbn [snd]. by case_decide.
  - destruct (wp_strict (kill_P0 n) s (fun z s' => z = -1 /\ rep v s')) as (z2 & s2 & E2 & Hz2 & H2).
    { eapply wp_kill_P0; [done|done|]. destruct (first_in _ _ _) as [q|]; [|done].
      destruct Ht as (rq & Hrq & Hnq). exfalso. destruct (decide (state rq = UNUSED)) as [Hq|Hq].
      - by apply (Hfree q rq).
      - apply (Hs q rq Hrq); [by apply live_states_elem|done]. }
    exists (-1), s1, s2. subst. split_and!; [done|done|]. unfold table.
    by rewrite (rep_tbl _ _ H1), (rep_tbl _ _ H2).
Qed.

(** ** No starvation *)

Lemma promote_rec_spec r : 0 <= priority r <= Z.of_nat MAXPRIO ->
  state (promote_rec r) = state r /\
  (alive r -> priority (promote_rec r) = Z.min (priority r + 1) (Z.of_nat MAXPRIO)).
Proof.
  intros Hp. unfold promote_rec, promoted, promote. split.
  - by destruct (state r) eqn:Hs; destruct (priority r <? Z.of_nat MAXPRIO).
  - intros Ha. destruct (state r) eqn:Hs; destruct (Z.ltb_spec (priority r) (Z.of_nat MAXPRIO));
      rec_simpl; try lia; exfalso; unfold alive in Ha; rewrite Hs in Ha; intuition discriminate.
Qed.

(** C30: repeated promotion.  After [k] promotions every process that is
    SLEEPING, RUNNABLE or RUNNING is [k] levels higher, or at the top; so after
    MAXPRIO of them all RUNNABLE processes stand in the top queue, which the
    scheduler serves in FIFO order: a process of low priority does not starve. *)
Theorem promotions_prevent_starvation (l : list nat) v s :
  rep v s -> vinv v ->
  wp strict (meach l (fun _ => promote_all)) s (fun _ s' => exists v', rep v' s' /\ vinv v' /\
    (forall i r, v_tbl v !! i = Some r -> exists r', v_tbl v' !! i = Some r' /\
       state r' = state r /\
       (alive r -> priority r' = Z.min (priority r + Z.of_nat (length l)) (Z.of_nat MAXPRIO))) /\
    ((MAXPRIO <= length l)%nat -> forall j, (j < MAXPRIO)%nat -> v_q v' (QReady j) = [])).
Proof.
  revert v s. induction l as [|x l IH]; intros v s H Hv.
  - apply wp_ret. exists v. split_and!; [done|done| |].
    + intros i r Hr. exists r. split_and!; [done|done|]. intros _.
      pose proof (wf_prio r (vi_wf v Hv i r Hr)). cbn [length]. lia.
    + cbn. unfold MAXPRIO. lia.
  - cbn [meach]. apply wp_bind. eapply wp_promote_all; [done|done|]. intros s1 H1 Hv1.
    eapply wp_mono; [by apply IH|]. intros [] s2 (v2 & H2 & Hv2 & Hall & _).
    assert (Hall' : forall i r, v_tbl v !! i = Some r -> exists r', v_tbl v2 !! i = Some r' /\
       state r' = state r /\
       (alive r -> priority r' = Z.min (priority r + Z.of_nat (length (x :: l))) (Z.of_nat MAXPRIO))).
    { intros i r Hr. destruct (promote_rec_spec r) as (Hs & Hp); [by apply (vi_wf v Hv i r)|].
      destruct (Hall i (promote_rec r)) as (r' & Hr' & Hs' & Hp').
      - unfold a_promote. rec_simpl. by rewrite list_lookup_fmap, Hr.
      - exists r'. split_and!; [done|congruence|]. intros Ha. rewrite Hp', Hp by (unfold alive in *; by rewrite ?Hs).
        cbn [length]. lia. }
    exists v2. split_and!; [done|done|done|]. intros Hlen j Hj.
    destruct (v_q v2 (QReady j)) as [|i q] eqn:Hq; [done|]. exfalso.
    destruct (vinv_q_ready v2 j i Hv2) as (r2 & Hr2 & Hs2 & Hp2); [rewrite Hq; set_solver|].
    destruct (lookup_lt_is_Some_2 (v_tbl v) i) as [r Hr].
    { rewrite (vi_len v Hv), <- (vi_len v2 Hv2). by eapply lookup_lt_Some. }
    destruct (Hall' i r Hr) as (r2' & Hr2' & Hst & Hp2'). assert (r2' = r2) as -> by congruence.
    pose proof (wf_prio r (vi_wf v Hv i r Hr)). rewrite Hp2' in Hp2; [lia|]. right. left. congruence.
Qed.

(** ** The race in allocproc *)

(** C39: [allocproc] reads the head of the free list before it takes the lock.
    If another CPU claims the same slot in between (its own [allocproc] up to
    the end of its first critical section), the first one panics. *)
Theorem allocproc_race v s p l r s2 :
  rep v s -> vinv v -> v_pt v = false -> unused v = p :: l -> v_tbl v !! p = Some r ->
  rep (a_claim p r v) s2 ->
  (exists s1, allocproc_pick s = Ret (Some p) s1) /\
  exists s3, allocproc_claim p s2 = Panic "process state not same as asserted state." s3.
Proof.
  intros H Hv Hpt Hu Hr H2. assert (Hlt := lookup_lt_Some _ _ _ Hr). split.
  - destruct (wp_strict allocproc_pick s (fun x _ => x = Some p)) as (x & s1 & He & ->); [|by exists s1].
    apply wp_bind. eapply wp_get_q; [done|simpl; unfold statecount; lia|]. intros y Hy.
    apply wp_ret. fold (unused v) in Hy. by rewrite Hy, Hu.
  - set (msg := "process state not same as asserted state."%string).
    assert (Hw : wp (Prot (fun m => m = msg) (fun _ => False) (fun _ _ => False)) (allocproc_claim p) s2 (fun _ _ => False)).
    { apply wp_bind. eapply wp_acquire; [done|done|]. intros s3 H3.
      set (v3 := (a_claim p r v) <| v_pt := true |>) in *.
      assert (Hr3 : v_tbl v3 !! p = Some (claim_rec (v_nextpid v) r)) by (by apply list_lookup_insert_eq).
      apply wp_bind, wp_bind, wp_bind. eapply wp_get_proc; [done|done|]. intros n. apply wp_ret, wp_bind.
      eapply wp_remove_or_panic; [done| |].
      - change (p ∈ v_q (a_claim p r v) (home (claim_rec (v_nextpid v) r))).
        unfold a_claim, a_place, a_append. rec_simpl. rewrite decide_True by done. set_solver.
      - intros s4 H4. apply wp_bind. eapply wp_get_proc; [done|done|]. intros n'.
        rewrite decide_False; [done|]. done. }
    unfold wp in Hw. destruct (allocproc_claim p s2) as [| m s3| | | | ]; simpl in Hw; try done.
    + subst. by exists s3.
    + by destruct Hw.
Qed.

(** ** getprocs *)

(** The processes that [ps] shows, and a row of its table. *)
Definition shown (r : proc) : Prop := state r <> UNUSED /\ state r <> EMBRYO.
#[export] Instance shown_dec r : Decision (shown r).
Proof. apply _. Defined.
Definition ppid_in (T : list proc) (r : proc) : Z :=
  match parent r with
  | None => pid r
  | Some q => match T !! q with Some rq => pid rq | None => 0 end
  end.
Definition row v (r : proc) : uproc :=
  UProc (pid r) (uid r) (gid r) (ppid_in (v_tbl v) r) (u32 (v_ticks v - start_ticks r))
    (cpu_ticks_total r) (states (state r)) (sz r) (cstr (name r)) (priority r).

(** The rows after the first [k] slots. *)
Definition rows v (max : Z) (k : nat) : list uproc :=
  row v <$> take (Z.to_nat max) (filter shown (take k (v_tbl v))).

Lemma rows_hidden v max k r : v_tbl v !! k = Some r -> ~ shown r -> rows v max (S k) = rows v max k.
Proof.
  intros Hr Hs. unfold rows. rewrite (take_S_r _ k r Hr), filter_app, filter_cons_False by done.
  by rewrite filter_nil, app_nil_r.
Qed.
Lemma rows_shown v max k r :
  v_tbl v !! k = Some r -> shown r -> Z.of_nat (length (rows v max k)) < max ->
  rows v max (S k) = rows v max k ++ [row v r].
Proof.
  intros Hr Hs Hl. unfold rows in *. rewrite (take_S_r _ k r Hr), filter_app, filter_cons_True, filter_nil by done.
  rewrite length_fmap, length_take in Hl. set (f := filter shown (take k (v_tbl v))) in *.
  rewrite !take_ge by (rewrite ?length_app; simpl; lia). by rewrite fmap_app.
Qed.
Lemma rows_full v max k : max <= Z.of_nat (length (rows v max k)) -> (k <= length (v_tbl v))%nat ->
  rows v max k = rows v max (length (v_tbl v)).
Proof.
  intros Hl Hk. unfold rows in *. rewrite length_fmap, length_take in Hl. f_equal.
  rewrite firstn_all. transitivity (take (Z.to_nat max) (filter shown (take k (v_tbl v) ++ drop k (v_tbl v)))).
  - rewrite filter_app, take_app_le; [done|]. lia.
  - by rewrite take_drop.
Qed.

Lemma wp_ppid_of P v s r i n (Q : Z -> K -> Prop) :
  rep v s -> vinv v -> v_tbl v !! i = Some r -> Q (ppid_in (v_tbl v) r) s ->
  wp P (ppid_of (r <| next := n |>)) s Q.
Proof.
  intros H Hv Hr HQ. unfold ppid_of, ppid_in in *. rec_simpl. destruct (parent r) as [q|] eqn:Hp; [|by apply wp_ret].
  destruct (vi_parent v Hv i r q Hr Hp) as (rq & Hq & _). rewrite Hq in HQ.
  apply wp_bind. eapply wp_get_proc; [done|done|]. intros m. by apply wp_ret.
Qed.

Lemma wp_getprocs_loop P v max s m k (Q : list uproc + list uproc -> K -> Prop) :
  rep v s -> vinv v -> (k + m = length (v_tbl v))%nat ->
  (forall x, match x with inl r => r | inr r => r end = rows v max (length (v_tbl v)) -> Q x s) ->
  wp P (mfold (seq k m) (getprocs_step max) (rows v max k)) s Q.
Proof.
  intros H Hv. revert k. induction m as [|m IH]; intros k Hk HQ; simpl.
  - apply wp_ret, HQ. f_equal. lia.
  - destruct (lookup_lt_is_Some_2 (v_tbl v) k) as [r Hr]; [lia|].
    assert (Hsh : bool_decide (state r = UNUSED) || bool_decide (state r = EMBRYO) = bool_decide (~ shown r)).
    { apply eq_true_iff_eq. rewrite orb_true_iff, !bool_decide_eq_true. unfold shown.
      destruct (decide (state r = UNUSED)), (decide (state r = EMBRYO)); tauto. }
    apply wp_bind, wp_bind. eapply wp_get_proc; [done|done|]. intros n. rec_simpl. rewrite Hsh. clear Hsh.
    case_bool_decide as Hs.
    + apply wp_ret. rewrite <- (rows_hidden v max k r Hr Hs). apply IH; [lia|done].
    + destruct (Z.ltb_spec (Z.of_nat (length (rows v max k))) max) as [Hl|Hl].
      * apply wp_bind. eapply (wp_ppid_of P v s r k n); [done|done|done|].
        apply wp_bind. eapply wp_ticks; [done|]. apply wp_ret.
        assert (Hrow := rows_shown v max k r Hr Hs Hl). unfold row in Hrow.
        rewrite <- Hrow. apply IH; [lia|done].
      * apply wp_ret, wp_ret, HQ. apply rows_full; lia.
Qed.

Lemma wp_getprocs P v s max (Q : list uproc -> K -> Prop) :
  rep v s -> vinv v -> v_pt v = false -> 
  (forall s', rep v s' -> Q (row v <$> take (Z.to_nat max) (filter shown (v_tbl v))) s') ->
  wp P (getprocs max) s Q.
Proof.
  intros H Hv Hpt HQ.
  apply wp_bind. eapply wp_acquire; [done|done|]. intros s1 H1. set (v1 := v <| v_pt := true |>) in *.
  assert (Hr0 : rows v1 max 0 = []) by (unfold rows; by rewrite take_0, filter_nil, take_nil).
  apply wp_bind. rewrite <- Hr0, <- (vi_len v Hv).
  eapply (wp_getprocs_loop _ v1); [done|by apply (vinv_frame v)|done|]. intros x Hx.
  apply wp_bind. eapply wp_release; [done|done|]. intros s3 H3. apply wp_ret.
  rewrite Hx. unfold rows. rewrite firstn_all. apply HQ. by destruct v; simpl in Hpt; subst.
Qed.

(** [getprocs] returns a row for each of the first [max] processes that
    are neither UNUSED nor EMBRYO, in table order, with the parent's pid (or its
    own, if it has no parent), and leaves the table as it was. *)
Theorem getprocs_correct v s max :
  rep v s -> vinv v -> v_pt v = false -> 0 <= max ->
  exists s', getprocs max s = Ret (row v <$> take (Z.to_nat max) (filter shown (v_tbl v))) s' /\ rep v s'.
Proof.
  intros H Hv Hpt _.
  destruct (wp_strict (getprocs max) s (fun z s' => z = row v <$> take (Z.to_nat max) (filter shown (v_tbl v)) /\ rep v s'))
    as (z & s' & He & -> & H'); [|by exists s']. by apply (wp_getprocs _ v).
Qed.

End equiv.

(** ** The theorems on concrete kernels *)

Lemma wakeup1_equiv_witness :
  exists s1 s2, wakeup1 (ChAddr 7) demo_kst = Ret tt s1 /\ wakeup1_P0 (ChAddr 7) demo_kst = Ret tt s2 /\
    table s1 = table s2.
Proof. apply (wakeup1_equiv demo_view demo_kst (ChAddr 7) demo_rep vinv_demo). Defined.

Lemma exit_reparent_equiv_witness :
  exists s1 s2, exit_reparent 1 demo_exit_kst = Ret tt s1 /\ exit_reparent_P0 1 demo_exit_kst = Ret tt s2 /\
    table s1 = table s2.
Proof. by apply (exit_reparent_equiv demo_exit_view demo_exit_kst 1%nat demo_exit_rep vinv_demo_exit). Defined.

Lemma kill_equiv_witness :
  exists z s1 s2, kill 2 demo_kst = Ret z s1 /\ kill_P0 2 demo_kst = Ret z s2 /\ table s1 = table s2.
Proof.
  apply (kill_equiv demo_view demo_kst 2 demo_rep vinv_demo eq_refl demo_unique_pids).
  assert (Hall : forallb (fun r => negb (bool_decide (state r = UNUSED)) || negb (pid r =? u32 2))
    (v_tbl demo_view) = true) by (vm_compute; reflexivity).
  intros i r Hr Hs Hp. rewrite forallb_forall in Hall. pose proof (Hall r) as Hx.
  rewrite Hp, Z.eqb_refl, bool_decide_eq_true_2 in Hx by done.
  discriminate Hx. apply list_elem_of_In, list_elem_of_lookup. by exists i.
Defined.

Lemma promotions_witness :
  wp strict (meach (seq 0 MAXPRIO) (fun _ => promote_all)) demo_kst (fun _ s' => exists v', rep v' s' /\
    v_q v' (QReady 3) = []).
Proof.
  eapply wp_mono; [apply (promotions_prevent_starvation (seq 0 MAXPRIO) demo_view demo_kst demo_rep vinv_demo)|].
  intros [] s' (v' & H' & _ & _ & Hq). exists v'. split; [done|]. apply Hq; [done|unfold MAXPRIO; lia].
Defined.

(** The other CPU has run its [allocproc] up to the claim. *)
Lemma allocproc_race_witness :
  exists s1 s2, allocproc_pick demo_kst = Ret (Some 5%nat) s1 /\
    allocproc_claim 5 demo_kst = Ret tt s2 /\
    exists s3, allocproc_claim 5 s2 = Panic "process state not same as asserted state." s3.
Proof.
  destruct (wp_strict (allocproc_claim 5) demo_kst (fun _ s' => rep (a_claim 5 zero_proc demo_view) s'))
    as ([] & s2 & He & H2).
  { eapply wp_claim; [apply demo_rep|apply vinv_demo|done|reflexivity|done|done]. }
  destruct (allocproc_race demo_view demo_kst 5%nat (seq 6 58) zero_proc s2 demo_rep vinv_demo eq_refl)
    as [[s1 H1] [s3 H3]]; [vm_compute; reflexivity|reflexivity|done|].
  exists s1, s2. eauto.
Defined.

Lemma getprocs_witness :
  exists s', getprocs 3 demo_kst =
    Ret (row demo_view <$> take 3 (filter shown (v_tbl demo_view))) s' /\ rep demo_view s'.
Proof. by apply (getprocs_correct demo_view demo_kst 3 demo_rep vinv_demo). Defined.
