(* ===== verification/Syscall.v ===== *)
(** * System call dispatch (syscall.c, sysproc.c)

    The handlers of sysproc.c and the
    dispatcher [syscall] run on the kernel state of proc.c; the handlers of
    sysfile.c and of the devices are a parameter. *)

From S2P Require Import Prelude Params Bytes Spinlock Str ProcDefs StateList Proc ProcInv.
From S2P Require Import ProcWake ProcOps Demo ProcProps ProcEquiv Args.

(** syscall.h *)
Definition SYS_fork : Z := 1.
Definition SYS_exit : Z := SYS_fork + 1.
Definition SYS_wait : Z := SYS_exit + 1.
Definition SYS_pipe : Z := SYS_wait + 1.
Definition SYS_read : Z := SYS_pipe + 1.
Definition SYS_kill : Z := SYS_read + 1.
Definition SYS_exec : Z := SYS_kill + 1.
Definition SYS_fstat : Z := SYS_exec + 1.
Definition SYS_chdir : Z := SYS_fstat + 1.
Definition SYS_dup : Z := SYS_chdir + 1.
Definition SYS_getpid : Z := SYS_dup + 1.
Definition SYS_sbrk : Z := SYS_getpid + 1.
Definition SYS_sleep : Z := SYS_sbrk + 1.
Definition SYS_uptime : Z := SYS_sleep + 1.
Definition SYS_open : Z := SYS_uptime + 1.
Definition SYS_write : Z := SYS_open + 1.
Definition SYS_mknod : Z := SYS_write + 1.
Definition SYS_unlink : Z := SYS_mknod + 1.
Definition SYS_link : Z := SYS_unlink + 1.
Definition SYS_mkdir : Z := SYS_link + 1.
Definition SYS_close : Z := SYS_mkdir + 1.
Definition SYS_halt : Z := SYS_close + 1.
Definition SYS_date : Z := SYS_halt + 1.
Definition SYS_getuid : Z := SYS_date + 1.
Definition SYS_getgid : Z := SYS_getuid + 1.
Definition SYS_getppid : Z := SYS_getgid + 1.
Definition SYS_setuid : Z := SYS_getppid + 1.
Definition SYS_setgid : Z := SYS_setuid + 1.
Definition SYS_getprocs : Z := SYS_setgid + 1.
Definition SYS_setpriority : Z := SYS_getprocs + 1.
Definition SYS_getpriority : Z := SYS_setpriority + 1.

(** [sizeof(struct uproc)] *)
Definition sizeof_uproc : Z := 6 * 4 + 32 + 4 + 32 + 4 + 4.

(** ** The handlers of sysproc.c *)

Section handlers.
Context {L E : Type} `{CL : CpuLock L} `{SV : ProcServices E}.
Abbreviation K := (kst L E).

(** The memory of a process, as the page table [pgdir] maps it, and the store
    of rows into a user table. *)
Context (umem : E -> option Z -> Z -> Z).
Context (put_rows : option Z -> Z -> list uproc -> M E unit).
(** The value of a local variable that was not initialised, and the address of
    [ticks], a sleep channel. *)
Context (uninit ticks_addr : Z).

(** [myproc()], dereferenced. *)
Definition curproc : M K (nat * proc) :=
  cur <- myproc ;; c <- nonnull cur ;; r <- get_proc c ;; ret (c, r).

Definition argint_cur (n : Z) : M K (option Z) :=
  cr <- curproc ;;
  e <- gets env ;;
  ret (argint (umem e (pgdir cr.2)) (sz cr.2) (tf_esp (tf cr.2)) n).
Definition argptr_cur (n size : Z) : M K (option Z) :=
  cr <- curproc ;;
  e <- gets env ;;
  ret (argptr (umem e (pgdir cr.2)) (sz cr.2) (tf_esp (tf cr.2)) n size).

Definition sys_fork : M K Z := fork.
Definition sys_exit : M K Z := exit ;;; ret 0.
Definition sys_wait (fuel : nat) : M K Z := wait fuel.

Definition sys_kill : M K Z :=
  o <- argint_cur 0 ;;
  match o with None => ret (-1) | Some pid => kill pid end.

Definition sys_getpid : M K Z := cr <- curproc ;; ret (s32 (pid cr.2)).

Definition sys_sbrk : M K Z :=
  o <- argint_cur 0 ;;
  match o with
  | None => ret (-1)
  | Some n =>
      cr <- curproc ;;
      z <- growproc n ;;
      if z <? 0 then ret (-1) else ret (s32 (sz cr.2))
  end.

(** One round of the loop of [sys_sleep]: the difference is unsigned, and so
    is [n] in the comparison. *)
Definition sleep_round (ticks0 n : Z) (_ : unit) : M K (unit + Z) :=
  t <- gets ticks ;;
  if u32 (t - ticks0) <? u32 n then
    cr <- curproc ;;
    if negb (killed cr.2 =? 0) then ret (inr (-1))
    else sleep (ChAddr ticks_addr) LkNull ;;; ret (inl tt)
  else ret (inr 0).
Definition sys_sleep (fuel : nat) : M K Z :=
  o <- argint_cur 0 ;;
  match o with
  | None => ret (-1)
  | Some n => ticks0 <- gets ticks ;; mwhile fuel (sleep_round ticks0 n) tt
  end.

Definition sys_uptime : M K Z := t <- gets ticks ;; ret (s32 t).

Definition sys_getuid : M K Z := cr <- curproc ;; ret (s32 (uid cr.2)).
Definition sys_getgid : M K Z := cr <- curproc ;; ret (s32 (gid cr.2)).
Definition sys_getppid : M K Z := cr <- curproc ;; z <- ppid_of cr.2 ;; ret (s32 z).

(** The result of [argint] is not looked at. *)
Definition sys_setuid : M K Z :=
  cr <- curproc ;;
  o <- argint_cur 0 ;;
  let added_uid := default uninit o in
  if (0 <=? added_uid) && (added_uid <=? 32767) then
    put_proc cr.1 (fun r => r <| uid := added_uid |>) ;;; ret RETURN_SUCCESS
  else ret RETURN_FAILURE.
Definition sys_setgid : M K Z :=
  cr <- curproc ;;
  o <- argint_cur 0 ;;
  let added_gid := default uninit o in
  if (0 <=? added_gid) && (added_gid <=? 32767) then
    put_proc cr.1 (fun r => r <| gid := added_gid |>) ;;; ret RETURN_SUCCESS
  else ret RETURN_FAILURE.

(** [sizeof(struct uproc) * max] is computed in 32 bits. *)
Definition sys_getprocs : M K Z :=
  o <- argint_cur 0 ;;
  let max := default uninit o in
  if max <? 0 then ret (-1)
  else
    t <- argptr_cur 1 (s32 (sizeof_uproc * max)) ;;
    match t with
    | None => ret (-1)
    | Some table =>
        rows <- getprocs max ;;
        cr <- curproc ;;
        on_env (put_rows (pgdir cr.2) table rows) ;;;
        ret (Z.of_nat (length rows))
    end.

Definition sys_setpriority : M K Z :=
  o1 <- argint_cur 0 ;;
  o2 <- argint_cur 1 ;;
  setpriority (default uninit o1) (default uninit o2).
Definition sys_getpriority : M K Z :=
  o <- argint_cur 0 ;; getpriority (default uninit o).

(** ** Dispatch *)

(** The handlers of other files: sysfile.c, [sys_halt] and [sys_date]. *)
Context (file_syscalls : Z -> option (M K Z)).
(** [fuel] bounds the rounds of [wait] and of [sys_sleep]. *)
Context (fuel : nat).

Definition syscalls (num : Z) : option (M K Z) :=
  if num =? SYS_fork then Some sys_fork
  else if num =? SYS_exit then Some sys_exit
  else if num =? SYS_wait then Some (sys_wait fuel)
  else if num =? SYS_kill then Some sys_kill
  else if num =? SYS_getpid then Some sys_getpid
  else if num =? SYS_sbrk then Some sys_sbrk
  else if num =? SYS_sleep then Some (sys_sleep fuel)
  else if num =? SYS_uptime then Some sys_uptime
  else if num =? SYS_getuid then Some sys_getuid
  else if num =? SYS_getgid then Some sys_getgid
  else if num =? SYS_getppid then Some sys_getppid
  else if num =? SYS_setuid then Some sys_setuid
  else if num =? SYS_setgid then Some sys_setgid
  else if num =? SYS_getprocs then Some sys_getprocs
  else if num =? SYS_setpriority then Some sys_setpriority
  else if num =? SYS_getpriority then Some sys_getpriority
  else file_syscalls num.

(** The message for an unknown number is not modelled. *)
Definition syscall : M K unit :=
  cr <- curproc ;;
  let num := s32 (tf_eax (tf cr.2)) in
  match (if (0 <? num) && (num <=? SYS_getpriority) then syscalls num else None) with
  | Some h =>
      z <- h ;;
      put_proc cr.1 (fun r => r <| tf ::= fun t => t <| tf_eax := u32 z |> |>)
  | None =>
      put_proc cr.1 (fun r => r <| tf ::= fun t => t <| tf_eax := u32 (-1) |> |>)
  end.

(** ** Theorems *)

Lemma wp_curproc P v s c r (Q : nat * proc -> K -> Prop) :
  rep v s -> v_cur v = Some c -> v_tbl v !! c = Some r ->
  (forall n s', rep v s' -> Q (c, r <| next := n |>) s') -> wp P curproc s Q.
Proof.
  intros H Hc Hr HQ. apply wp_bind. eapply wp_myproc; [done|]. intros s1 H1. rewrite Hc.
  apply wp_bind, wp_ret, wp_bind. eapply wp_get_proc; [done|done|]. intros n. by apply wp_ret, HQ.
Qed.

Lemma wp_argptr_cur P v s c r n size (Q : option Z -> K -> Prop) :
  rep v s -> v_cur v = Some c -> v_tbl v !! c = Some r ->
  (forall s' e, rep v s' -> Q (argptr (umem e (pgdir r)) (sz r) (tf_esp (tf r)) n size) s') ->
  wp P (argptr_cur n size) s Q.
Proof.
  intros H Hc Hr HQ. apply wp_bind. eapply wp_curproc; [done|done|done|]. intros m s1 H1.
  apply wp_bind, wp_gets, wp_ret. cbn [snd]. rec_simpl. by apply HQ.
Qed.

Lemma wp_argint_cur P v s c r n (Q : option Z -> K -> Prop) :
  rep v s -> v_cur v = Some c -> v_tbl v !! c = Some r ->
  (forall s' e, rep v s' -> Q (argint (umem e (pgdir r)) (sz r) (tf_esp (tf r)) n) s') ->
  wp P (argint_cur n) s Q.
Proof.
  intros H Hc Hr HQ. apply wp_bind. eapply wp_curproc; [done|done|done|]. intros m s1 H1.
  apply wp_bind, wp_gets, wp_ret. cbn [snd]. rec_simpl. by apply HQ.
Qed.

(** Setting [eax] of a process keeps the invariant. *)
Definition with_eax (z : Z) (r : proc) : proc := r <| tf ::= fun t => t <| tf_eax := u32 z |> |>.
Lemma vinv_with_eax v c r z : vinv v -> v_tbl v !! c = Some r -> vinv (a_upd c (with_eax z r) v).
Proof. intros Hv Hr. by eapply vinv_touch. Qed.

(** [syscall] with a number that is not in the table (not positive, too
    large, or without handler) sets [eax] to -1 and changes nothing else. *)
Theorem syscall_unknown v s c r :
  rep v s -> vinv v -> v_cur v = Some c -> v_tbl v !! c = Some r ->
  let num := s32 (tf_eax (tf r)) in
  num <= 0 \/ SYS_getpriority < num \/ syscalls num = None ->
  exists s', syscall s = Ret tt s' /\ rep (a_upd c (with_eax (-1) r) v) s' /\
    vinv (a_upd c (with_eax (-1) r) v).
Proof.
  intros H Hv Hc Hr num Hnum.
  destruct (wp_strict syscall s (fun _ s' => rep (a_upd c (with_eax (-1) r) v) s')) as ([] & s' & He & H').
  - apply wp_bind. eapply wp_curproc; [done|done|done|]. intros n s1 H1. cbn [fst snd]. cbv zeta. rec_simpl.
    fold num. assert (Hnone : (if (0 <? num) && (num <=? SYS_getpriority) then syscalls num else None) = None).
    { destruct ((0 <? num) && (num <=? SYS_getpriority)) eqn:Hb; [|done].
      apply andb_true_iff in Hb as [Hb1 Hb2]. destruct Hnum as [Hn|[Hn|Hn]]; [lia|lia|done]. }
    rewrite Hnone. eapply wp_put_proc; [done|done|done|]. by intros s2 H2.
  - exists s'. split_and!; [done|done|]. by apply vinv_with_eax.
Qed.

(** A [kill] system call, from the user's stack to the result register.
    The pid is the word above the return address; the process table changes as
    [kill] says, and [eax] holds its result. *)
Theorem syscall_kill v s c r n :
  rep v s -> vinv v -> v_pt v = false -> v_cur v = Some c -> v_tbl v !! c = Some r ->
  tf_eax (tf r) = SYS_kill ->
  (forall e, argint (umem e (pgdir r)) (sz r) (tf_esp (tf r)) 0 = Some n) ->
  let v1 := (a_kill n v).2 in
  exists s' r1, v_tbl v1 !! c = Some r1 /\ syscall s = Ret tt s' /\
    rep (a_upd c (with_eax (a_kill n v).1 r1) v1) s' /\ vinv (a_upd c (with_eax (a_kill n v).1 r1) v1).
Proof.
  intros H Hv Hpt Hc Hr Heax Harg v1.
  destruct (wp_strict (kill n) s (fun _ _ => vinv v1)) as (_ & _ & _ & Hv1);
    [eapply wp_kill; [done|done|done|]; by intros|].
  destruct (lookup_lt_is_Some_2 (v_tbl v1) c) as [r1 Hr1].
  { rewrite (vi_len v1 Hv1), <- (vi_len v Hv). by eapply lookup_lt_Some. }
  destruct (wp_strict syscall s (fun _ s' => rep (a_upd c (with_eax (a_kill n v).1 r1) v1) s'))
    as ([] & s' & He & H').
  - apply wp_bind. eapply wp_curproc; [done|done|done|]. intros m s1 H1. cbn [fst snd]. cbv zeta. rec_simpl.
    rewrite Heax. change (s32 SYS_kill) with SYS_kill.
    change (if (0 <? SYS_kill) && (SYS_kill <=? SYS_getpriority) then syscalls SYS_kill else None)
      with (Some sys_kill). cbv iota beta.
    apply wp_bind, wp_bind. eapply wp_argint_cur; [done|done|done|]. intros s2 e H2. rewrite Harg.
    eapply wp_kill; [done|done|done|]. intros s3 H3 _. eapply wp_put_proc; [done|done|done|]. by intros s4 H4.
  - exists s', r1. split_and!; [done|done|done|]. by apply vinv_with_eax.
Qed.

Section getprocs.
Context (v : view) (s : K) (c : nat) (r : proc) (max q : Z).
Hypotheses (H : rep v s) (Hv : vinv v) (Hpt : v_pt v = false).
Hypotheses (Hc : v_cur v = Some c) (Hr : v_tbl v !! c = Some r) (Hsz : 0 <= sz r < KERNBASE).
Hypothesis (Hmax : forall e, argint (umem e (pgdir r)) (sz r) (tf_esp (tf r)) 0 = Some max).
Hypothesis (Hq : forall e, argint (umem e (pgdir r)) (sz r) (tf_esp (tf r)) 1 = Some q).

(** The check that [sys_getprocs] makes, with the product as it wraps. *)
Definition getprocs_accepts : Prop :=
  let size := s32 (sizeof_uproc * max) in
  0 <= max /\ 0 <= size /\ u32 q < sz r /\ u32 q + size <= sz r.
(** The rows it asks for. *)
Definition getprocs_rows : list uproc := row v <$> take (Z.to_nat max) (filter shown (v_tbl v)).

Lemma getprocs_argptr e :
  0 <= max ->
  argptr (umem e (pgdir r)) (sz r) (tf_esp (tf r)) 1 (s32 (sizeof_uproc * max)) = Some (u32 q) /\ getprocs_accepts \/
  argptr (umem e (pgdir r)) (sz r) (tf_esp (tf r)) 1 (s32 (sizeof_uproc * max)) = None /\ ~ getprocs_accepts.
Proof.
  intros H0. unfold argptr, getprocs_accepts. rewrite Hq. cbn [mbind option_bind].
  set (size := s32 (sizeof_uproc * max)). pose proof (u32_is q) as Hu.
  pose proof (s32_is (sizeof_uproc * max)) as Hs. fold size in Hs. unfold is_u32, is_s32, KERNBASE in *.
  destruct ((size <? 0) || (sz r <=? u32 q) || (sz r <? u32 (u32 q + size))) eqn:Hb; [right|left]; (split; [done|]).
  - destruct (decide (0 <= size /\ u32 q < sz r)) as [[]|]; [|lia].
    rewrite (u32_small (u32 q + size)) in Hb by (unfold is_u32; lia). lia.
  - rewrite (u32_small (u32 q + size)) in Hb by (unfold is_u32; lia). lia.
Qed.

Lemma sys_getprocs_ok : getprocs_accepts ->
  exists s1, rep v s1 /\ sys_getprocs s =
    (on_env (put_rows (pgdir r) (u32 q) getprocs_rows) ;;; ret (Z.of_nat (length getprocs_rows))) s1.
Proof.
  intros Ha. pose proof Ha as (H0 & _). unfold sys_getprocs.
  destruct (wp_strict (argint_cur 0) s (fun o s' => o = Some max /\ rep v s')) as (o & s1 & E1 & -> & H1).
  { eapply wp_argint_cur; [done|done|done|]. intros. by rewrite Hmax. }
  run E1. cbn [from_option]. unfold id. cbv beta zeta. destruct (Z.ltb_spec max 0) as [Hx|_]; [lia|]. cbv zeta.
  destruct (wp_strict (argptr_cur 1 (s32 (sizeof_uproc * max))) s1 (fun o s' => o = Some (u32 q) /\ rep v s'))
    as (o & s2 & E2 & -> & H2).
  { eapply wp_argptr_cur; [done|done|done|]. intros s' e H'. by destruct (getprocs_argptr e H0) as [[-> _]|[_ ?]]. }
  run E2. destruct (wp_strict (getprocs max) s2 (fun z s' => z = getprocs_rows /\ rep v s')) as (z & s3 & E3 & -> & H3).
  { by apply (wp_getprocs _ v). }
  run E3. destruct (wp_strict curproc s3 (fun z s' => pgdir z.2 = pgdir r /\ rep v s')) as (cr & s4 & E4 & Hp & H4).
  { by eapply wp_curproc. }
  run E4. exists s4. by rewrite Hp.
Qed.

Lemma sys_getprocs_refused : ~ getprocs_accepts -> exists s1, rep v s1 /\ sys_getprocs s = Ret (-1) s1.
Proof.
  intros Ha. destruct (wp_strict sys_getprocs s (fun z s' => z = -1 /\ rep v s')) as (z & s1 & E1 & -> & H1); [|by eauto].
  apply wp_bind. eapply wp_argint_cur; [done|done|done|]. intros s1 e1 H1. rewrite Hmax. cbn [from_option]. unfold id. cbv beta zeta.
  destruct (Z.ltb_spec max 0) as [_|H0]; [by apply wp_ret|]. apply wp_bind.
  eapply wp_argptr_cur; [done|done|done|]. intros s2 e2 H2.
  destruct (getprocs_argptr e2) as [[_ ?]|[-> _]]; [done|done|]. by apply wp_ret.
Qed.

(** An accepted product that has not wrapped is the room for the rows. *)
Lemma getprocs_room : getprocs_accepts -> sizeof_uproc * max < 2 ^ 32 ->
  u32 q + sizeof_uproc * Z.of_nat (length getprocs_rows) <= sz r.
Proof.
  intros (H0 & H1 & _ & H3) Hlt. unfold getprocs_rows. rewrite length_fmap, length_take.
  unfold s32 in *. change sizeof_uproc with 100 in *.
  pose proof (Z.mod_pos_bound (100 * max + 2 ^ 31) (2 ^ 32)).
  destruct (decide (100 * max < 2 ^ 31)).
  - rewrite Z.mod_small in * by lia. lia.
  - exfalso. assert ((100 * max + 2 ^ 31) mod 2 ^ 32 = 100 * max + 2 ^ 31 - 2 ^ 32).
    { rewrite <- (Z.mod_add _ (-1)), Z.mod_small by lia. lia. } lia.
Qed.

(** C38: the size check of the [getprocs] system call.  [sys_getprocs] returns -1
    and changes nothing unless the pointer and the 32-bit product [100 * max]
    pass the check.  When they do, it stores the rows of the first [max] shown
    processes at the pointer and returns their number; the rows fit in the
    memory of the process if the product does not wrap.  With 42949673 rows it
    wraps to 4: a table in the last 4 bytes of the memory is accepted, and the
    rows that are stored there reach beyond the end of the memory. *)
Theorem getprocs_size_check :
  (~ getprocs_accepts -> exists s1, rep v s1 /\ sys_getprocs s = Ret (-1) s1) /\
  (getprocs_accepts -> exists s1, rep v s1 /\ sys_getprocs s =
     (on_env (put_rows (pgdir r) (u32 q) getprocs_rows) ;;; ret (Z.of_nat (length getprocs_rows))) s1) /\
  (getprocs_accepts -> sizeof_uproc * max < 2 ^ 32 ->
     u32 q + sizeof_uproc * Z.of_nat (length getprocs_rows) <= sz r) /\
  (max = 42949673 -> u32 q + 4 = sz r -> shown r ->
     getprocs_accepts /\ sz r < u32 q + sizeof_uproc * Z.of_nat (length getprocs_rows)).
Proof.
  split_and!; [exact sys_getprocs_refused|exact sys_getprocs_ok|exact getprocs_room|].
  intros Hm H4 Hsh. split.
  { unfold getprocs_accepts. rewrite Hm. cbv zeta. change (s32 (sizeof_uproc * 42949673)) with 4. lia. }
  assert (Hin : r ∈ filter shown (v_tbl v)) by (apply list_elem_of_filter; split; [done|by eapply list_elem_of_lookup_2]).
  unfold getprocs_rows. rewrite Hm, length_fmap, length_take. change sizeof_uproc with 100.
  destruct (filter shown (v_tbl v)); [by apply not_elem_of_nil in Hin|]. rewrite length_cons. lia.
Qed.

End getprocs.

End handlers.

(** ** Concrete system calls *)

(** Init asks for an unknown call, and for [kill(2)]. *)
Definition demo_user (num : Z) : proc :=
  Eval cbv in (with_cwd (demo_proc RUNNING 1 None 6 ChNull)) <| sz := 4096 |>
    <| tf := zero_tf <| tf_eax := num |> |>.
Definition demo_call (num : Z) : view := a_upd 0 (demo_user num) demo_view.
Lemma vinv_demo_call num : vinv (demo_call num).
Proof.
  unfold demo_call. eapply (vinv_touch demo_view 0 (with_cwd (demo_proc RUNNING 1 None 6 ChNull))).
  - exact vinv_demo.
  - reflexivity.
  - reflexivity.
  - reflexivity.
  - reflexivity.
  - reflexivity.
  - reflexivity.
  - auto.
Qed.
Definition demo_call_kst (num : Z) : kst Spin.mach unit := build (demo_call num) (demo_mach (Some 0%nat)) tt.
Lemma demo_call_rep num : rep (demo_call num) (demo_call_kst num).
Proof.
  apply build_rep; [exact (vinv_demo_call num)| |exact (demo_mach_holds (Some 0%nat))|reflexivity].
  assert (HF : Forall (fun r => next r = None) (v_tbl demo_view))
    by (apply (bool_decide_unpack _); vm_compute; exact I).
  unfold demo_call, a_upd. rec_simpl. apply Forall_insert; [exact HF|reflexivity].
Qed.

Lemma syscall_unknown_witness :
  exists s' r, syscall (fun _ _ => demo_stack) (fun _ _ _ => ret tt) 0 0 (fun _ => None) 0 (demo_call_kst 99) = Ret tt s' /\
    rep (a_upd 0 (with_eax (-1) r) (demo_call 99)) s'.
Proof.
  destruct (syscall_unknown (fun _ _ => demo_stack) (fun _ _ _ => ret tt) 0 0 (fun _ => None) 0
    (demo_call 99) (demo_call_kst 99) 0%nat (demo_user 99)
    (demo_call_rep 99) (vinv_demo_call 99) eq_refl eq_refl) as (s' & H1 & H2 & _); [right; left; reflexivity|].
  eexists s', _. split; [exact H1|exact H2].
Defined.

Lemma syscall_kill_witness :
  exists s', syscall (fun _ _ => demo_stack) (fun _ _ _ => ret tt) 0 0 (fun _ => None) 0 (demo_call_kst SYS_kill) = Ret tt s'.
Proof.
  destruct (syscall_kill (fun _ _ => demo_stack) (fun _ _ _ => ret tt) 0 0 (fun _ => None) 0
    (demo_call SYS_kill) (demo_call_kst SYS_kill) 0%nat (demo_user SYS_kill) 16
    (demo_call_rep SYS_kill) (vinv_demo_call SYS_kill) eq_refl eq_refl eq_refl eq_refl (fun _ => eq_refl))
    as (s' & r1 & _ & H & _).
  exists s'. exact H.
Defined.

(** Init asks for 16 rows at address 64; and for 42949673 rows at the end of
    its memory. *)
Definition demo_overflow (a : Z) : Z :=
  if (4 <=? a) && (a <? 8) then le 4 42949673 !!! Z.to_nat (a - 4)
  else if (8 <=? a) && (a <? 12) then le 4 4092 !!! Z.to_nat (a - 8) else 0.

Lemma getprocs_size_check_witness :
  (exists s1, sys_getprocs (fun _ _ => demo_stack) (fun _ _ _ => ret tt) 0 (demo_call_kst SYS_getprocs) = Ret 5 s1) /\
  exists s1, sys_getprocs (fun _ _ => demo_overflow) (fun _ _ _ => ret tt) 0 (demo_call_kst SYS_getprocs) = Ret 5 s1.
Proof.
  split.
  - destruct (getprocs_size_check (fun _ _ => demo_stack) (fun _ _ _ => ret tt) 0
      (demo_call SYS_getprocs) (demo_call_kst SYS_getprocs) 0%nat (demo_user SYS_getprocs) 16 64
      (demo_call_rep _) (vinv_demo_call _) eq_refl eq_refl eq_refl) as (_ & H & _);
      [split; [discriminate|reflexivity]|reflexivity|reflexivity|].
    destruct H as (s1 & _ & H); [repeat split; discriminate|].
    rewrite H. eexists. vm_compute. reflexivity.
  - destruct (getprocs_size_check (fun _ _ => demo_overflow) (fun _ _ _ => ret tt) 0
      (demo_call SYS_getprocs) (demo_call_kst SYS_getprocs) 0%nat (demo_user SYS_getprocs) 42949673 4092
      (demo_call_rep _) (vinv_demo_call _) eq_refl eq_refl eq_refl) as (_ & H & _ & H2);
      [split; [discriminate|reflexivity]|reflexivity|reflexivity|].
    destruct H as (s1 & _ & H); [apply H2; [reflexivity|reflexivity|split; discriminate]|].
    rewrite H. eexists. vm_compute. reflexivity.
Defined.
